(* ===== verification/_CoqProject ===== *)
-Q . S2P
Prelude.v
Sdk.v
Sha256.v
Utils.v
Json.v
GoText.v
Canonical.v
Epochs.v
FeeAllowance.v
FeegrantKeys.v
FeegrantKeeper.v
FeegrantDID.v
FeegrantPrune.v
FeegrantAddr.v
TierTypes.v
TierCredit.v
TierState.v
TierKeeper.v
TierModule.v
TierWorld.v
TierInv.v
TierReach.v
TierGranted.v
TierEpoch.v
TierLock.v
TierUnlock.v
TierGenesis.v
TierPayout.v
TierSub.v
TierSlash.v
Chain.v
CoreKeeper.v
CoreTokens.v
CoreReach.v
CoreSafety.v
Bearer.v
Ante.v
AnteFee.v
AnteAuth.v
SubFrame.v
Subscribe.v
SubWorld.v
Queries.v
AcpTypes.v
AcpState.v
AcpKeeper.v
AcpBearer.v
AcpMsgs.v
AcpServer.v
AcpQuery.v
AcpReach.v
AcpWorld.v
AcpTicket.v
AcpSigned.v
AcpBuilder.v
AcpCommit.v
AcpReveal.v
AcpClient.v
Bulletin.v
BulletinSafety.v
OrbisTypes.v
OrbisIds.v
OrbisRing.v
OrbisSign.v
OrbisReport.v
OrbisKeeper.v
OrbisServer.v
OrbisValid.v
OrbisStep.v
OrbisInv.v
OrbisSafety.v
OrbisReports.v
OrbisDemerits.v
OrbisLive.v
OrbisGenesis.v
OrbisWorld.v
OrbisWitness.v
Faucet.v
Lanes.v
Mint.v
