(* ===== verification/Prelude.v ===== *)
(** * Verification of the Vera chain

    Vera is a Cosmos SDK chain written in Go (src/). This library models the
    modules epochs, feegrant, tier, core, acp, bulletin and orbis and the
    transaction handling of the application, and proves what they promise to the
    accounts that use them.

    ** The program

    - The epochs module (src/x/epochs) is a set of timers. Its block handler
      advances each timer and calls hooks, each on a cached context.
    - The feegrant module (src/x/feegrant) stores allowances by which a granter
      pays the fees of an address or of a DID (decentralised identifier), prunes
      them when they expire and charges fees to them.
    - The tier module (src/x/tier) lets an account lock stake with a validator
      and pays it credits for it, anew in every epoch. Developers pass their
      credits on to users through subscriptions, which are fee allowances to the
      DIDs of the users. The module also completes unlocking stake, follows
      slashes, insures lockups and splits the staking rewards. It is a hook of the
      epochs module and a client of the feegrant module, and of the SDK's bank,
      staking and distribution modules.
    - The ante handler (src/app/ante) runs before the messages of a transaction. A
      transaction may carry a bearer token, signed by a DID, that authorises an
      account; the handler checks it and charges the fee, to the payer or to a
      grant. The core module (src/x/core) records the tokens, so that they can be
      invalidated, and the controllers of interchain accounts.
    - The acp module (src/x/acp) keeps access policies. A policy command, sent
      directly, signed, with a bearer token or by another module, registers
      objects and sets relationships; a commitment lets an owner claim an object
      as of an earlier time; access decisions are evaluated and stored. Policies
      themselves are evaluated by the acp_core library.
    - The bulletin module (src/x/bulletin) keeps posts in namespaces. A namespace
      is an object of a policy of the module, and the acp module decides who posts.
    - The orbis module (src/x/orbis) keeps rings: committees of registered nodes
      that hold a key together. Members confirm the key of a new ring; a committee
      changes through a reshare, which the ring signs. Nodes report the faults of
      others under the signature of the ring; demerits add up until a backup
      replaces the node. Documents and key derivations refer to rings. The acp
      module decides who creates and changes rings.
    - The application orders the mempool (src/app/lanes), overrides the inflation
      query (src/app/mint.go), registers the controllers of interchain accounts
      (src/app/ica_host_middleware.go) and may run a faucet (src/app/faucet.go).
    - Clients of the acp module build signed commands (src/x/acp/signed_policy_cmd)
      and make tickets of access decisions, which services check against a node
      (src/x/acp/access_ticket).

    ** The files

    - Prelude: bytes and ordered stores, Go integers and time, the monad of the
      keepers (state, errors, panics), Hoare triples and their hints, sums.
    - Sdk: what the program uses of the Cosmos SDK, as classes with laws and with
      executable instances: decimals, coins, key encodings, addresses; and the
      constants of src/app/params. Sha256, Json, GoText, Utils: what it uses of Go's
      crypto/sha256, encoding/json, encoding/hex, encoding/base64, strings and utf8,
      and the glob matcher of src/utils. Canonical: length-prefixed encodings that can
      be told apart.
    - Epochs: src/x/epochs/keeper and types. [EpochInfo], the keeper's operations,
      [BeginBlocker] with the hook runner, genesis.
    - FeeAllowance: basic_fee.go, periodic_fee.go and filtered_fee.go of
      src/x/feegrant. [Accept], [ValidateBasic] and [ExpiresAt].
    - FeegrantKeys: grant.go and key.go. FeegrantKeeper: keeper/keeper.go,
      keeper/msg_server.go, module/abci.go, msgs.go and genesis.go, over a record
      of four maps, one per key prefix.
    - FeegrantDID, FeegrantPrune, FeegrantAddr: theorems on the keeper.
    - TierTypes: params.go, keys.go, messages.go, genesis.go and the records of
      src/x/tier/types. TierCredit: keeper/calculate_credit.go.
    - TierState: the module's stores ([TierState]) with the operations of
      keeper/lockup.go, insurance.go, subscription.go and params.go that read and
      write them, and the interfaces of types/expected_keepers.go as classes.
    - TierKeeper: keeper/credit.go, the stake operations of keeper/keeper.go and
      the adjustment of lockups. TierModule: developers and subscriptions,
      slashing.go, rewards.go, epoch_hook.go, abci.go, msg_server.go and
      module/genesis.go.
    - TierWorld: a concrete chain that implements the classes of TierState. It
      shows that their laws can hold together, and the witnesses run on it.
    - TierInv, TierReach, TierGranted: invariants. TierEpoch, TierLock,
      TierUnlock, TierPayout, TierSub, TierSlash, TierGenesis: behaviour.
    - Chain: the epochs module with the tier module as its hook, wired as in
      src/x/epochs/module/module.go.
    - CoreKeeper: src/x/core, over [CoreStore] with the token records and their two
      indexes. CoreTokens, CoreReach, CoreSafety: theorems on it, and in the last the
      middleware of src/app/ica_host_middleware.go.
    - Bearer: validation of tokens (extension_utils.go, types/bearer_token.go).
      Ante: the decorators and their chain. AnteFee, AnteAuth: theorems on it.
    - SubFrame, Subscribe: the tier module with the feegrant keeper as the
      interface that it calls, wired as in the application, and with the ante handler
      behind them: the grant of a subscription over its life. SubWorld: the three
      on a concrete chain.
    - Queries: the grpc_query.go of epochs, feegrant and tier, and query_params.go of
      core, with what they show of the store.
    - AcpTypes: records, times and metadata. AcpState: the stores, the tables and
      the commitment trees. AcpKeeper: commitment and registration services.
      AcpBearer: tokens and signed payloads. AcpMsgs: commands and their handler,
      DIDs, capabilities. AcpServer: the keeper, the message server, queries,
      decisions, genesis. AcpQuery: the list of policy ids.
    - AcpReach: what every operation keeps. AcpWorld: a concrete chain with a toy
      policy engine. AcpSigned, AcpCommit, AcpReveal: theorems.
    - AcpTicket: src/x/acp/access_ticket, with theorems and a concrete node.
      AcpBuilder: builder.go and types.go of src/x/acp/signed_policy_cmd, and the
      execution of what they build.
    - AcpClient: what calls of the acp module leave alone in the stores of a module
      that uses it.
    - Bulletin: src/x/bulletin, over [BulletinStore]. BulletinSafety: the abstract
      board, the refinement and its consequences.
    - OrbisTypes: the records, messages, parameters and genesis of
      src/x/orbis/types. OrbisIds: the ids of types/keys.go. OrbisRing:
      keeper/validation.go, ring_upgrade.go, node_info.go and demerits.go without
      the store. OrbisSign: threshold_signature.go, reshare_sign_bytes.go, the
      encoders they call, and the calls of src/x/orbis/jubjub. OrbisReport: the
      reading of reports in keeper/report.go.
    - OrbisKeeper: keeper/store.go, params.go, acp.go, endblock.go, grpc_query.go,
      module/genesis.go and the rest of report.go, over [OrbisStore]. OrbisServer:
      the 22 handlers of keeper/msg_server.go, and [deliver], which checks a
      message and handles it.
    - OrbisValid: what the checks establish and what the handlers write. OrbisStep:
      [orbis_step], the abstract specification, and the proof that every handler
      refines it. OrbisInv: the invariant, on the steps.
      OrbisSafety, OrbisReports, OrbisDemerits, OrbisLive, OrbisGenesis: theorems.
      OrbisWorld: a concrete chain on top of AcpWorld with a run from genesis.
      OrbisWitness: the theorems at the states of that run.
    - Faucet: src/app/faucet.go. Lanes: src/app/lanes/priority_lane.go. Mint:
      src/app/mint.go.

    ** How code becomes definitions

    A method is a Definition of the same name in the monad [M S A]: a state to an
    outcome and a state. [Ok], [Err] and [Panic] are the three ways a Go call
    ends, and the state holds the writes made before an error. The name of a
    definition is that of the method; a handler of a message server that shares
    its name with a keeper method has msg_ before it or _msg after it, a query
    _query. A module's prefix store is a finite map from the real key bytes, and an
    iteration visits it in byte order. The records of the tier module hold address
    bytes where the code stores their text. Keepers see their stores through a
    lens, so that they run inside a larger chain state. The tier module sees the
    rest of the chain as an abstract world, on which the other keepers act.

    ** What the theorems show

    - Epochs: a block is one tick of every timer whatever the hooks do, and a
      timer that lags catches up and stays on its grid. With the tier module as
      hook, the block always succeeds; one that starts a tier epoch resets all credits
      exactly if everybody earns something and nobody is subscribed, and no
      other block, nor one in which somebody would earn nothing, moves a credit.
    - Allowances: what an allowance pays stays within its limit over its life, and
      within its period. Keys parse back.
    - Grants to DIDs: in every reachable state the grants and the expiration queue
      agree; pruning is exact; a fee goes to the first grant that covers it.
    - Credits: the loop over the reward rates is the sum over bands; splitting a
      lock earns nothing; prorating is monotone and bounded; the start of an
      epoch goes through exactly if every delegator earns something and the total fits
      64 bits, and then each holds exactly what its stake earns.
    - Stake: in every state that is reached with slashes within the module's stake the
      records are consistent and the totals are sums; lock, unlock and cancel do what
      they say, and no more; a completion pays what is due, in the order of the
      keys, as far as the account goes; a slash scales the lockups; the rewards are
      split without remainder.
    - Subscriptions: the total a developer has granted is the sum of its
      subscriptions; removing the developer clears it. A subscription does pay the
      fees of its user, if the developer has the credits and no other grant covers
      them; whatever the two modules do, the fees paid stay within what was subscribed
      and granted directly, and a removed subscription ends with its stored period.
    - Queries: the listings of the tier and feegrant modules are exact.
    - Transactions: an accepted transaction with a token is authenticated by it,
      and its fee is paid exactly once; the minimum fee; the priority order.
    - Token records: the indexes are exact, an invalid token stays invalid, the end
      of a block sweeps exactly the expired ones.
    - Access control: a signed command runs at most once; commitments open to what
      they were made of, and to what is spelled alike; a reveal transfers an object as of the commitment, unless
      the registration is older; the end of a block flags expired commitments;
      following the pages of a listing terminates and misses nothing. A command that
      the builder signs does run. The text of a ticket reads back, but no ticket that
      is issued is accepted.
    - Bulletin: the module refines an abstract board, posts stay, and only those
      whom the acp module permits write them.
    - Rings: every message refines a step of an abstract specification, which names
      the evidence that the step needs. In every reachable state the store is well
      formed. The key of a final ring was confirmed by every founding member, and
      the ring stays; its committee changes only as a pending reshare asks, under a
      signature of the ring, which binds the old and the new state. Members that
      agree do make a ring final if the last of them has a DID, and a pending reshare
      is finished by exactly the signed messages of senders with a DID.
    - Reports: a report is accepted exactly if it passes the listed checks; evidence
      counts once; demerits go to the accused node and to nobody else; a node that
      has too many is replaced by the first backup that can take its place. Ids
      bind what they are made of, up to collisions of SHA-256 on the two encodings.
    - The application: which openings of a channel bind an interchain account, and
      that it is bound to its first controller for good; the faucet pays a text once.
    - Genesis: an import rebuilds what was exported, but for two totals of the
      tier module and for token records without an account.
    - Where the code falls short, theorems say how: a revoked grant that still
      expires, a genesis that cannot be loaded, two unlocks in one block, insured
      stake that stays, a slash that counts too much or leaves a negative lockup, one account without credit
      that stops the epoch, subscriptions that survive their developer, a period
      that wraps around, a key without its prefix, a token that white space
      revives, a command run again in another encoding, a proof that opens to
      several objects, parameters that halt the chain, namespaces that collide, a
      report that counts again in the last second of its life, tickets that can be
      redated or turned to other objects and that no node's proof fits, an account
      that the faucet pays twice.

    ** Assumptions and bounds

    - Fuel: the JSON parser gets one step more than twice the length of the text,
      which [json_fuel] shows to be enough; following pages takes at most one page
      per item, by [pagination_complete]. Every other loop runs over a finite list
      or map. The catching up of an epoch is counted by [lag], the exact number of
      blocks it takes.
    - [math.Int] is an unbounded integer. Conversions to 64 bits, their panics, and
      the wrap-around of durations, times and heights are written out. The
      library's limit of 256 bits is out of reach of amounts that fit a coin supply
      of 64 bits.
    - Code outside src/ is a class whose laws state documented behaviour, and each
      class has an instance: bank, staking, distribution, accounts, IBC and the
      decorators of the SDK; address codecs, decimals and pagination; signatures
      and DIDs ([Jose], [DIDKeys]); tables, Merkle trees and sorting ([Raccoon],
      [Merkle], [GoSort]); capabilities; the policy engine ([ACPEngine], and
      [EngineLaws] for what a reveal needs); the BLS library, the compiled Jubjub
      module, the decoding of a did:key and the address of a public key ([Blst],
      [JubjubWasm], [DIDDecode], [NodeAddress]), which have no laws: a signature
      is whatever the library accepts. That keepers of other modules leave a
      module's own store alone is stated by [ClientFrame], [BankFrame],
      [AccountsFrame], [FeegrantApart], [FaucetFrame] and [HostFrame]; what a transfer
      moves, by [BankLaws]; that a payer who has the coins can pay, by [FeeProgress].
    - What clients see of a node is a state that may change between two calls
      ([CometClient]). [StoreProofs] says which keys are in the proof of a Cosmos
      store, [TicketCodec] how CometBFT matches them with a key path.
    - Numbers of the orbis module that are unsigned in the code are assumed to be so
      where it matters ([typed], the reset interval). [session_counts_once] and the
      theorems on demerits hold for block times below 2^63 seconds, and
      [report_accepted_exactly] for committees of fewer than 2^32 nodes.
    - The totals that developers have granted are a map of their own, although
      their keys lack a prefix in the code. A collision needs an address that
      starts with the bytes of a prefix; see [total_granted_key_in_lockup_range].
    - The order in which Go ranges over a map is arbitrary (class [MapRange]).
    - Reachability of the tier module covers addresses of 20 bytes, which its keys
      require, and slash events whose share of the module is not more than its stake
      ([slash_within]); every slash of at most a third of a validator is such a one
      ([third_slash_within]), and [deep_slash_negative] shows one that is not.
    - The orbis module starts from its default genesis ([orbis_start]).
    - The records of the policy engine and the tables of the acp module, which the
      code keeps in one store under different keys, are two parts of [AcpStore].
    - Strings of signed payloads are valid UTF-8, as proto3 requires, so that their
      JSON reads back ([PayloadSigning]).

    ** What is not modelled

    - Events, logs, metrics and gas, apart from the panics of gauges.
    - Command line, simulation, migrations and wiring of the modules.
    - The generated encoders, but for two of the orbis module, and its test signer
      (src/x/orbis/jubjub/jubjubtest); the adapters of stores in src/x/acp, which only
      forward, and src/x/acp/abci, which nothing uses; resolution of DIDs in
      src/x/acp/did, done by a library.
    - The IBC wiring and the export of src/app; the client library in src/sdk and the
      commands in src/cmd, which are network clients and command line tools around
      libraries.

    ** This file

    Shared foundations: bytes and the ordered key-value store view, Go's
    fixed-width integers and time arithmetic, the state-and-error monad in which
    the keepers are written, its Hoare triples with their automation, and sums
    over finite maps. *)
From Stdlib Require Import Ascii ZArith Lia.
From stdpp Require Import base numbers list gmap sets strings sorting.

#[global] Open Scope Z_scope.

(** * Bytes *)

(** A Go [string] and a Go [[]byte] are both byte sequences. *)
Abbreviation bytes := (list ascii).

(** The bytes of a string literal. *)
Definition lit (s : string) : bytes := String.list_ascii_of_string s.

Definition byte_of_Z (z : Z) : ascii := ascii_of_N (Z.to_N (z mod 256)).
Definition Z_of_byte (a : ascii) : Z := Z.of_N (N_of_ascii a).

Lemma N_of_ascii_bound (a : ascii) : (N_of_ascii a < 256)%N.
Proof. apply Ascii.N_ascii_bounded. Qed.

Lemma Z_of_byte_range (a : ascii) : 0 <= Z_of_byte a < 256.
Proof. unfold Z_of_byte. pose proof (N_of_ascii_bound a). lia. Qed.

Lemma Z_of_byte_of_Z (z : Z) : 0 <= z < 256 -> Z_of_byte (byte_of_Z z) = z.
Proof.
  intros H. unfold Z_of_byte, byte_of_Z. rewrite Z.mod_small by lia.
  rewrite Ascii.N_ascii_embedding by lia. lia.
Qed.

Lemma Z_of_byte_inj (a b : ascii) : Z_of_byte a = Z_of_byte b -> a = b.
Proof.
  unfold Z_of_byte. intros H.
  rewrite <- (Ascii.ascii_N_embedding a), <- (Ascii.ascii_N_embedding b).
  f_equal. lia.
Qed.

(** Lexicographic order of the key-value store: byte by byte, a proper prefix
    first. *)
Fixpoint bytes_leb (a b : bytes) : bool :=
  match a, b with
  | [], _ => true
  | _ :: _, [] => false
  | x :: a', y :: b' =>
      if Z_of_byte x <? Z_of_byte y then true
      else if Z_of_byte y <? Z_of_byte x then false
      else bytes_leb a' b'
  end.

Definition bytes_le (a b : bytes) : Prop := bytes_leb a b = true.
Definition bytes_lt (a b : bytes) : Prop := bytes_leb b a = false.

#[global] Instance bytes_le_dec : RelDecision bytes_le.
Proof. intros a b. unfold bytes_le. apply _. Defined.

#[global] Instance bytes_lt_dec : RelDecision bytes_lt.
Proof. intros a b. unfold bytes_lt. apply _. Defined.

#[global] Instance bytes_le_total : Total bytes_le.
Proof.
  intros a. induction a as [|x a IH]; intros [|y b]; unfold bytes_le in *; simpl; auto.
  destruct (Z_of_byte x <? Z_of_byte y) eqn:E1; auto.
  destruct (Z_of_byte y <? Z_of_byte x) eqn:E2; auto.
Qed.

#[global] Instance bytes_le_trans : Transitive bytes_le.
Proof.
  intros a. induction a as [|x a IH]; intros [|y b] [|z c]; unfold bytes_le in *; simpl; auto;
    try discriminate.
  destruct (Z.ltb_spec (Z_of_byte x) (Z_of_byte y)), (Z.ltb_spec (Z_of_byte y) (Z_of_byte x)),
    (Z.ltb_spec (Z_of_byte y) (Z_of_byte z)), (Z.ltb_spec (Z_of_byte z) (Z_of_byte y)),
    (Z.ltb_spec (Z_of_byte x) (Z_of_byte z)), (Z.ltb_spec (Z_of_byte z) (Z_of_byte x));
    intros; try discriminate; try lia; eauto.
Qed.

#[global] Instance bytes_le_antisymm : AntiSymm (=) bytes_le.
Proof.
  intros a. induction a as [|x a IH]; intros [|y b]; unfold bytes_le in *; simpl; auto;
    try discriminate.
  destruct (Z.ltb_spec (Z_of_byte x) (Z_of_byte y)), (Z.ltb_spec (Z_of_byte y) (Z_of_byte x));
    intros; try discriminate; try lia.
  f_equal; [apply Z_of_byte_inj; lia | auto].
Qed.

#[global] Instance bytes_le_refl : Reflexive bytes_le.
Proof. intros a. destruct (bytes_le_total a a); done. Qed.

Lemma bytes_leb_app (p a b : bytes) : bytes_leb (p ++ a) (p ++ b) = bytes_leb a b.
Proof. induction p as [|x p IH]; simpl; [done|]. by rewrite Z.ltb_irrefl. Qed.

Lemma bytes_leb_app_same_length (p q a b : bytes) :
  length p = length q -> p <> q ->
  bytes_leb (p ++ a) (q ++ b) = bytes_leb p q.
Proof.
  revert q. induction p as [|x p IH]; intros [|y q] Hl Hne; simpl in *; try done.
  destruct (Z.ltb_spec (Z_of_byte x) (Z_of_byte y)), (Z.ltb_spec (Z_of_byte y) (Z_of_byte x));
    try done.
  assert (x = y) as -> by (apply Z_of_byte_inj; lia).
  apply IH; [lia|]. congruence.
Qed.

(** * The ordered key-value store *)

Definition key_le {V} (x y : bytes * V) : Prop := bytes_le x.1 y.1.

#[global] Instance key_le_dec {V} : RelDecision (@key_le V).
Proof. intros x y. unfold key_le. apply _. Defined.

#[global] Instance key_le_total {V} : Total (@key_le V).
Proof. intros x y. apply bytes_le_total. Qed.

#[global] Instance key_le_trans {V} : Transitive (@key_le V).
Proof. intros x y z. apply bytes_le_trans. Qed.

(** A store range is iterated in ascending key order; the iterator sees the
    contents at the time it was opened. *)
Definition store_items {V} (m : gmap bytes V) : list (bytes * V) :=
  merge_sort key_le (map_to_list m).

(** [KVStorePrefixIterator]: the keys that start with a prefix, in order. *)
Definition store_prefix_items {V} (p : bytes) (m : gmap bytes V) : list (bytes * V) :=
  filter (fun kv => p `prefix_of` kv.1) (store_items m).

Lemma store_items_perm {V} (m : gmap bytes V) : store_items m ≡ₚ map_to_list m.
Proof. apply merge_sort_Permutation. Qed.

Lemma elem_of_store_items {V} (m : gmap bytes V) (k : bytes) (v : V) :
  (k, v) ∈ store_items m <-> m !! k = Some v.
Proof. rewrite store_items_perm. apply elem_of_map_to_list. Qed.

Lemma elem_of_store_prefix_items {V} (p : bytes) (m : gmap bytes V) (k : bytes) (v : V) :
  (k, v) ∈ store_prefix_items p m <-> p `prefix_of` k /\ m !! k = Some v.
Proof. unfold store_prefix_items. rewrite list_elem_of_filter, elem_of_store_items. done. Qed.

Lemma store_items_NoDup {V} (m : gmap bytes V) : NoDup (store_items m).*1.
Proof. rewrite store_items_perm. apply NoDup_fst_map_to_list. Qed.

Lemma store_prefix_items_NoDup {V} (p : bytes) (m : gmap bytes V) :
  NoDup (store_prefix_items p m).*1.
Proof.
  unfold store_prefix_items. eapply sublist_NoDup; [apply (store_items_NoDup m)|].
  apply fmap_sublist. apply sublist_filter.
Qed.

Lemma store_items_sorted {V} (m : gmap bytes V) :
  StronglySorted key_le (store_items m).
Proof. apply StronglySorted_merge_sort; apply _. Qed.

(** * Go integers, durations and times *)

Definition int64_min : Z := - 2 ^ 63.
Definition int64_max : Z := 2 ^ 63 - 1.
Definition uint64_max : Z := 2 ^ 64 - 1.

Definition is_int64 (z : Z) : bool := (int64_min <=? z) && (z <=? int64_max).
Definition is_uint64 (z : Z) : bool := (0 <=? z) && (z <=? uint64_max).

(** Two's complement wrap-around of a 64-bit signed result. *)
Definition wrap64 (z : Z) : Z := (z + 2 ^ 63) mod 2 ^ 64 - 2 ^ 63.

Lemma is_int64_spec (z : Z) : is_int64 z = true <-> int64_min <= z <= int64_max.
Proof. unfold is_int64. rewrite andb_true_iff, !Z.leb_le. done. Qed.

(** int32 arithmetic. *)
Definition wrap32 (z : Z) : Z := (z + 2 ^ 31) mod 2 ^ 32 - 2 ^ 31.

Lemma wrap32_small (z : Z) : - 2 ^ 31 <= z < 2 ^ 31 -> wrap32 z = z.
Proof. intros Hz. unfold wrap32. rewrite Z.mod_small by lia. lia. Qed.

Lemma wrap64_range (z : Z) : is_int64 (wrap64 z) = true.
Proof.
  apply is_int64_spec. unfold wrap64, int64_min, int64_max.
  pose proof (Z.mod_pos_bound (z + 2 ^ 63) (2 ^ 64)). lia.
Qed.

Lemma wrap64_small (z : Z) : is_int64 z = true -> wrap64 z = z.
Proof.
  rewrite is_int64_spec. unfold wrap64, int64_min, int64_max. intros.
  rewrite Z.mod_small; lia.
Qed.

(** An instant ([time.Time]) is a number of nanoseconds since the Unix epoch
    and a [time.Duration] a signed 64-bit number of nanoseconds. *)
Definition Time := Z.
Definition Duration := Z.

(** [time.Time{}]: January 1, year 1, 00:00:00 UTC. *)
Definition time_zero : Time := - 62135596800 * 1000000000.

Definition time_before (a b : Time) : bool := a <? b.
Definition time_after (a b : Time) : bool := b <? a.

(** [Time.Sub] saturates at the bounds of a [Duration]. *)
Definition time_sub (a b : Time) : Duration := Z.max int64_min (Z.min int64_max (a - b)).
Definition time_add (a : Time) (d : Duration) : Time := a + d.

(** [Duration.Milliseconds] truncates toward zero. *)
Definition duration_ms (d : Duration) : Z := Z.quot d 1000000.

Lemma time_sub_exact (a b : Time) : is_int64 (a - b) = true -> time_sub a b = a - b.
Proof. rewrite is_int64_spec. unfold time_sub. lia. Qed.

(** * Results *)

(** An error is a registered one, its codespace and code (wrapping keeps both),
    or one built on the spot from a message. *)
Inductive error : Type :=
  | ErrReg (codespace : string) (code : Z)
  | ErrMsg (msg : string).

#[global] Instance error_eq_dec : EqDecision error.
Proof. solve_decision. Defined.

(** A call returns a value, returns an error, or panics. *)
Inductive outcome (A : Type) : Type :=
  | Ok (a : A)
  | Err (e : error)
  | Panic.
Arguments Ok {A} a.
Arguments Err {A} e.
Arguments Panic {A}.

Definition is_ok {A} (o : outcome A) : bool := match o with Ok _ => true | _ => false end.

#[global] Instance outcome_bind : MBind outcome := fun _ _ f o =>
  match o with Ok a => f a | Err e => Err e | Panic => Panic end.

Lemma outcome_bind_ok {A B} (f : A -> outcome B) (o : outcome A) b :
  o ≫= f = Ok b -> exists a, o = Ok a /\ f a = Ok b.
Proof. destruct o; intros H; [eauto|done|done]. Qed.

(** Calls that return a value and an error, an error only, or nothing but a
    condition. *)
Definition sum_outcome {A} (r : A + error) : outcome A := match r with inl a => Ok a | inr e => Err e end.
Definition check (e : option error) : outcome unit := match e with Some e => Err e | None => Ok tt end.
Definition fail_if (b : bool) (msg : string) : outcome unit := if b then Err (ErrMsg msg) else Ok tt.

(** The error is replaced by another one. *)
Definition wrap_err {A} (e : error) (o : outcome A) : outcome A :=
  match o with Err _ => Err e | _ => o end.

Lemma fail_if_ok b msg : fail_if b msg = Ok tt <-> b = false.
Proof. by destruct b. Qed.

Lemma check_ok e : check e = Ok tt <-> e = None.
Proof. by destruct e. Qed.

Lemma sum_outcome_ok {A} (r : A + error) a : sum_outcome r = Ok a <-> r = inl a.
Proof. destruct r; simpl; split; intros; by simplify_eq. Qed.

Lemma wrap_err_ok {A} e (o : outcome A) a : wrap_err e o = Ok a <-> o = Ok a.
Proof. by destruct o. Qed.

Lemma outcome_seq_ok {B} (o : outcome unit) (k : outcome B) b :
  (_ ← o; k) = Ok b <-> o = Ok tt /\ k = Ok b.
Proof. destruct o as [[]| |]; simpl; naive_solver. Qed.

(** * The keeper monad *)

(** A keeper method reads and writes the state; what was written before an
    error or a panic stays written, and it is the caller that decides to
    discard it. *)
Definition M (S A : Type) : Type := S -> outcome A * S.

Section monad.
Context {S : Type}.

Definition ret {A} (a : A) : M S A := fun s => (Ok a, s).
Definition throw {A} (e : error) : M S A := fun s => (Err e, s).
Definition panic {A} : M S A := fun s => (Panic, s).

Definition bind {A B} (m : M S A) (k : A -> M S B) : M S B := fun s =>
  match m s with
  | (Ok a, s') => k a s'
  | (Err e, s') => (Err e, s')
  | (Panic, s') => (Panic, s')
  end.

Definition gets {A} (f : S -> A) : M S A := fun s => (Ok (f s), s).
Definition modify (f : S -> S) : M S unit := fun s => (Ok tt, f s).

(** [v, err := m]: the error becomes a value, the writes stay. *)
Definition attempt {A} (m : M S A) : M S (A + error) := fun s =>
  match m s with
  | (Ok a, s') => (Ok (inl a), s')
  | (Err e, s') => (Ok (inr e), s')
  | (Panic, s') => (Panic, s')
  end.

Definition throw_if (b : bool) (e : error) : M S unit := if b then throw e else ret tt.
Definition panic_if (b : bool) : M S unit := if b then panic else ret tt.
Definition when (b : bool) (m : M S unit) : M S unit := if b then m else ret tt.

Definition of_option {A} (o : option A) (e : error) : M S A :=
  match o with Some a => ret a | None => throw e end.

Definition of_outcome {A} (o : outcome A) : M S A := fun s => (o, s).

(** A loop with an accumulator; the first error or panic ends it. *)
Fixpoint foldM {A B} (f : B -> A -> M S B) (acc : B) (l : list A) : M S B :=
  match l with
  | [] => ret acc
  | x :: l' => bind (f acc x) (fun acc' => foldM f acc' l')
  end.

Fixpoint forM_ {A} (f : A -> M S unit) (l : list A) : M S unit :=
  match l with
  | [] => ret tt
  | x :: l' => bind (f x) (fun _ => forM_ f l')
  end.

(** An iterator with a callback that sees the index, may stop the loop, and
    updates variables it captures (the accumulator). *)
Fixpoint iterM {A B} (fn : Z -> B -> A -> M S (bool * B)) (i : Z) (acc : B) (l : list A) : M S B :=
  match l with
  | [] => ret acc
  | x :: l' =>
      bind (fn i acc x) (fun r =>
        if r.1 : bool then ret r.2 else iterM fn (wrap64 (i + 1)) r.2 l')
  end.
End monad.

Declare Scope go_scope.
Delimit Scope go_scope with go.
Notation "x <- m ;; k" := (bind m (fun x => k))
  (at level 100, m at next level, right associativity) : go_scope.
Notation "'letp' pat <- m ;; k" := (bind m (fun x => match x with pat => k end))
  (at level 100, pat pattern, m at next level, right associativity) : go_scope.
Notation "m ;;; k" := (bind m (fun _ => k)) (at level 100, right associativity) : go_scope.
#[global] Open Scope go_scope.

(** A component's state inside a larger one. *)
Class Lens (S T : Type) : Type := {
  lens_get : S -> T;
  lens_set : T -> S -> S;
}.

Class LensLaws (S T : Type) `{Lens S T} : Prop := {
  lens_get_set : forall (t : T) (s : S), lens_get (lens_set t s) = t;
}.

Definition lift {S T A} `{Lens S T} (m : M T A) : M S A := fun s =>
  let '(o, t) := m (lens_get s) in (o, lens_set t s).

(** * Hoare triples *)

(** [triple P m Q E]: from a state in [P] a normal return ends in [Q] and an
    error in [E]. A panic is left unconstrained: the transaction runner drops
    the writes, or the node stops. *)
Definition triple {S A} (P : S -> Prop) (m : M S A) (Q : A -> S -> Prop)
    (E : error -> S -> Prop) : Prop :=
  forall s, P s ->
    match m s with
    | (Ok a, s') => Q a s'
    | (Err e, s') => E e s'
    | (Panic, _) => True
    end.

(** An invariant kept on every path that does not panic, errors included. *)
Definition preserves {S A} (I : S -> Prop) (m : M S A) : Prop :=
  triple I m (fun _ => I) (fun _ => I).

Section triples.
Context {S : Type}.
Implicit Types (P I : S -> Prop) (E : error -> S -> Prop).

Lemma triple_ret {A} P (a : A) Q E : (forall s, P s -> Q a s) -> triple P (ret a) Q E.
Proof. intros H s Hs. simpl. auto. Qed.

Lemma triple_bind {A B} P (m : M S A) (k : A -> M S B) R Q E :
  triple P m R E -> (forall a, triple (R a) (k a) Q E) -> triple P (bind m k) Q E.
Proof.
  intros Hm Hk s Hs. specialize (Hm s Hs). unfold bind.
  destruct (m s) as [[a|e|] s']; simpl; auto. exact (Hk a s' Hm).
Qed.

Lemma triple_conseq {A} P P' (m : M S A) (Q Q' : A -> S -> Prop) (E E' : error -> S -> Prop) :
  triple P' m Q' E' -> (forall s, P s -> P' s) -> (forall a s, Q' a s -> Q a s) ->
  (forall e s, E' e s -> E e s) -> triple P m Q E.
Proof.
  intros Hm HP HQ HE s Hs. specialize (Hm s (HP s Hs)).
  destruct (m s) as [[a|e|] s']; simpl in *; auto.
Qed.

Lemma triple_throw {A} P e Q E : (forall s, P s -> E e s) -> triple (A := A) P (throw e) Q E.
Proof. intros H s Hs. simpl. auto. Qed.

Lemma triple_gets {A} P (f : S -> A) Q E :
  (forall s, P s -> Q (f s) s) -> triple P (gets f) Q E.
Proof. intros H s Hs. simpl. auto. Qed.

Lemma triple_modify P (f : S -> S) Q E :
  (forall s, P s -> Q tt (f s)) -> triple P (modify f) Q E.
Proof. intros H s Hs. simpl. auto. Qed.

Lemma preserves_ret {A} I (a : A) : preserves I (ret a).
Proof. by apply triple_ret. Qed.

Lemma preserves_throw {A} I e : preserves (A := A) I (throw e).
Proof. by apply triple_throw. Qed.

Lemma preserves_panic {A} I : preserves (A := A) I panic.
Proof. done. Qed.

Lemma preserves_bind {A B} I (m : M S A) (k : A -> M S B) :
  preserves I m -> (forall a, preserves I (k a)) -> preserves I (bind m k).
Proof. intros Hm Hk. eapply triple_bind; [exact Hm | intros a; apply Hk]. Qed.

Lemma preserves_gets {A} I (f : S -> A) : preserves I (gets f).
Proof. by apply triple_gets. Qed.

Lemma preserves_modify I (f : S -> S) : (forall s, I s -> I (f s)) -> preserves I (modify f).
Proof. intros H. by apply triple_modify. Qed.

Lemma preserves_attempt {A} I (m : M S A) : preserves I m -> preserves I (attempt m).
Proof.
  intros Hm s Hs. specialize (Hm s Hs). unfold attempt.
  destruct (m s) as [[a|e|] s']; simpl in *; auto.
Qed.

Lemma preserves_throw_if I b e : preserves I (throw_if b e).
Proof. destruct b; [apply preserves_throw | apply preserves_ret]. Qed.

Lemma preserves_panic_if I b : preserves I (panic_if b).
Proof. destruct b; [apply preserves_panic | apply preserves_ret]. Qed.

Lemma preserves_when I b m : preserves I m -> preserves I (when b m).
Proof. destruct b; [done | intros _; apply preserves_ret]. Qed.

Lemma preserves_of_option {A} I (o : option A) e : preserves I (of_option o e).
Proof. destruct o; [apply preserves_ret | apply preserves_throw]. Qed.

Lemma preserves_of_outcome {A} I (o : outcome A) : preserves I (of_outcome o).
Proof. intros s Hs. unfold of_outcome. destruct o; done. Qed.

Lemma preserves_foldM {A B} I (f : B -> A -> M S B) acc l :
  (forall b a, preserves I (f b a)) -> preserves I (foldM f acc l).
Proof.
  intros Hf. revert acc. induction l as [|x l IH]; intros acc; simpl.
  - apply preserves_ret.
  - apply preserves_bind; [apply Hf | intros b; apply IH].
Qed.

Lemma preserves_forM_ {A} I (f : A -> M S unit) l :
  (forall a, preserves I (f a)) -> preserves I (forM_ f l).
Proof.
  intros Hf. induction l as [|x l IH]; simpl.
  - apply preserves_ret.
  - apply preserves_bind; [apply Hf | intros _; apply IH].
Qed.

Lemma preserves_iterM {A B} I (fn : Z -> B -> A -> M S (bool * B)) l :
  (forall i b a, preserves I (fn i b a)) -> forall i acc, preserves I (iterM fn i acc l).
Proof.
  intros Hf. induction l as [|x l IH]; intros i acc; simpl; [apply preserves_ret|].
  apply preserves_bind; [apply Hf|]. intros [[] b]; simpl; [apply preserves_ret|apply IH].
Qed.

Lemma preserves_if {A} I (b : bool) (m1 m2 : M S A) :
  preserves I m1 -> preserves I m2 -> preserves I (if b then m1 else m2).
Proof. by destruct b. Qed.
End triples.

(** What a computation can return. *)
Definition returns {S A} (P : A -> Prop) (m : M S A) : Prop :=
  forall s a s', m s = (Ok a, s') -> P a.

Lemma returns_ret {S A} (P : A -> Prop) a : P a -> returns (S := S) P (ret a).
Proof. intros Ha s a' s' Hr. unfold ret in Hr. by simplify_eq. Qed.

Lemma returns_throw {S A} (P : A -> Prop) e : returns (S := S) P (throw e).
Proof. by intros s a s' Hr. Qed.

Lemma returns_bind {S A B} (Q : A -> Prop) (P : B -> Prop) (m : M S A) (k : A -> M S B) :
  returns Q m -> (forall a, Q a -> returns P (k a)) -> returns P (bind m k).
Proof.
  intros Hm Hk s b s' Hr. unfold bind in Hr. destruct (m s) as [[a|e|] s1] eqn:E; [|done|done].
  exact (Hk a (Hm _ _ _ E) _ _ _ Hr).
Qed.

Lemma returns_any {S A} (m : M S A) : returns (fun _ => True) m.
Proof. done. Qed.

Lemma returns_foldM {S A B} (P : B -> Prop) (f : B -> A -> M S B) l : forall acc,
  P acc -> (forall b a, P b -> returns P (f b a)) -> returns P (foldM f acc l).
Proof.
  induction l as [|x l IH]; intros acc Hacc Hf; simpl; [by apply returns_ret|].
  eapply returns_bind; [by apply Hf|]. intros b Hb. by apply IH.
Qed.

Lemma preserves_bind_returns {S A B} (I : S -> Prop) (P : A -> Prop) (m : M S A) (k : A -> M S B) :
  preserves I m -> returns P m -> (forall a, P a -> preserves I (k a)) -> preserves I (bind m k).
Proof.
  intros Hm Hp Hk s Hs. specialize (Hm s Hs). unfold bind.
  destruct (m s) as [[a|e|] s'] eqn:E; simpl; [|done|done]. exact (Hk a (Hp _ _ _ E) s' Hm).
Qed.

Lemma preserves_ok {S A} (I : S -> Prop) (m : M S A) s a s' :
  preserves I m -> I s -> m s = (Ok a, s') -> I s'.
Proof. intros Hp Hs Hrun. specialize (Hp s Hs). by rewrite Hrun in Hp. Qed.

Create HintDb preserves.
#[export] Hint Resolve preserves_ret preserves_throw preserves_panic preserves_gets
  preserves_throw_if preserves_panic_if preserves_of_option preserves_of_outcome : preserves.

(** One structural step of an invariant proof, then the database. *)
Ltac preserve_step :=
  match goal with
  | |- preserves _ (bind _ _) => apply preserves_bind; [|intros ?]
  | |- preserves _ (attempt _) => apply preserves_attempt
  | |- preserves _ (when _ _) => apply preserves_when
  | |- preserves _ (if _ then _ else _) => apply preserves_if
  | |- preserves _ (foldM _ _ _) => apply preserves_foldM; intros ? ?
  | |- preserves _ (forM_ _ _) => apply preserves_forM_; intros ?
  | |- preserves _ (iterM _ _ _ _) => apply preserves_iterM; intros ? ? ?
  | |- preserves _ (match ?x with _ => _ end) => destruct x
  | |- preserves _ (let _ := _ in _) => cbv zeta
  end.
Ltac preserve := repeat first [solve [eauto 2 with preserves] | preserve_step].

(** Case analysis on a run of the monad in a hypothesis or the goal. *)
Ltac run_simpl :=
  cbn [ret throw panic gets modify throw_if panic_if when of_option of_outcome] in *.

Lemma bind_ok {S A B} (m : M S A) (k : A -> M S B) s b s' :
  bind m k s = (Ok b, s') -> exists a s1, m s = (Ok a, s1) /\ k a s1 = (Ok b, s').
Proof. unfold bind. destruct (m s) as [[a|e|] s1]; intros H; simplify_eq; eauto. Qed.

Lemma bind_run {S A B} (m : M S A) (k : A -> M S B) s :
  bind m k s = match m s with
               | (Ok a, s1) => k a s1
               | (Err e, s1) => (Err e, s1)
               | (Panic, s1) => (Panic, s1)
               end.
Proof. done. Qed.

Lemma of_outcome_run {S A} (o : outcome A) (s : S) : of_outcome o s = (o, s).
Proof. done. Qed.

Lemma bind_run_ok {S A B} (m : M S A) (k : A -> M S B) s a s1 :
  m s = (Ok a, s1) -> bind m k s = k a s1.
Proof. unfold bind. by intros ->. Qed.

Lemma bind_run_err {S A B} (m : M S A) (k : A -> M S B) s e s1 :
  m s = (Err e, s1) -> bind m k s = (Err e, s1).
Proof. unfold bind. by intros ->. Qed.

Lemma bind_run_panic {S A B} (m : M S A) (k : A -> M S B) s s1 :
  m s = (Panic, s1) -> bind m k s = (Panic, s1).
Proof. unfold bind. by intros ->. Qed.

Lemma throw_if_ok {S} b e (s : S) a s' : throw_if b e s = (Ok a, s') -> b = false /\ s' = s.
Proof. destruct b; intros H; [done|]. cbv [throw_if ret] in H. by simplify_eq. Qed.

(** A run that computes to a success. *)
Lemma is_ok_run {S A} (m : M S A) s : is_ok (m s).1 = true -> exists a, m s = (Ok a, (m s).2).
Proof. destruct (m s) as [[a|e|] s']; simpl; [eauto|done|done]. Qed.

Lemma attempt_run_ok {S A B} (m : M S A) (k : A + error -> M S B) s a s1 :
  m s = (Ok a, s1) -> bind (attempt m) k s = k (inl a) s1.
Proof. unfold bind, attempt. by intros ->. Qed.

Lemma attempt_run_err {S A B} (m : M S A) (k : A + error -> M S B) s e s1 :
  m s = (Err e, s1) -> bind (attempt m) k s = k (inr e) s1.
Proof. unfold bind, attempt. by intros ->. Qed.

(** [ok_inv H] takes a successful run of a sequence apart. *)
Ltac ok_inv H :=
  match type of H with
  | bind _ _ _ = (Ok _, _) =>
      let a := fresh "a" in let s := fresh "s" in let H1 := fresh "Hrun" in
      apply bind_ok in H; destruct H as (a & s & H1 & H); cbn beta in H
  end.

(** An iteration that never stops and captures nothing is a plain loop; one
    that only appends collects the list. *)
Lemma iterM_forM_ {S A} (f : A -> M S unit) i (l : list A) (s : S) :
  iterM (fun _ (_ : unit) x => bind (f x) (fun _ => ret (false, tt))) i tt l s = forM_ f l s.
Proof.
  revert i s. induction l as [|x l IH]; intros i s; simpl; [done|].
  destruct (f x s) as [[[]|e|] s'] eqn:E.
  - rewrite (bind_run_ok (f x) (fun _ => forM_ f l) _ _ _ E).
    erewrite bind_run_ok by (by rewrite (bind_run_ok (f x) _ _ _ _ E)). apply IH.
  - rewrite (bind_run_err (f x) (fun _ => forM_ f l) _ _ _ E).
    by erewrite bind_run_err by (by rewrite (bind_run_err (f x) _ _ _ _ E)).
  - rewrite (bind_run_panic (f x) (fun _ => forM_ f l) _ _ E).
    by erewrite bind_run_panic by (by rewrite (bind_run_panic (f x) _ _ _ E)).
Qed.

Lemma iterM_collect {S A} i (acc l : list A) (s : S) :
  iterM (fun _ b x => ret (false, b ++ [x])) i acc l s = (Ok (acc ++ l), s).
Proof.
  revert i acc. induction l as [|x l IH]; intros i acc; simpl; [by rewrite app_nil_r|].
  unfold bind, ret at 1. simpl. rewrite IH. by rewrite <- app_assoc.
Qed.

(** * Sums *)

Definition Zsum (l : list Z) : Z := foldr Z.add 0 l.

Lemma Zsum_cons (x : Z) (l : list Z) : Zsum (x :: l) = x + Zsum l.
Proof. done. Qed.

Lemma Zsum_app (l k : list Z) : Zsum (l ++ k) = Zsum l + Zsum k.
Proof. unfold Zsum. induction l as [|x l IH]; simpl; lia. Qed.

#[global] Instance Zsum_perm : Proper ((≡ₚ) ==> (=)) Zsum.
Proof. unfold Zsum. induction 1; simpl; lia. Qed.

Lemma Zsum_nonneg (l : list Z) : Forall (fun z => 0 <= z) l -> 0 <= Zsum l.
Proof. unfold Zsum. induction 1; simpl; lia. Qed.

Lemma Zsum_elem_le (l : list Z) (x : Z) : Forall (fun z => 0 <= z) l -> x ∈ l -> x <= Zsum l.
Proof.
  intros Hl Hx. apply list_elem_of_split in Hx as (l1 & l2 & ->).
  rewrite Forall_app in Hl. destruct Hl as [H1 H2]. apply Forall_cons in H2 as [_ H2].
  apply Zsum_nonneg in H1, H2. rewrite Zsum_app, Zsum_cons. lia.
Qed.

Section map_sum.
Context {K : Type} `{Countable K} {V : Type} (f : K -> V -> Z).
Implicit Types (m : gmap K V) (k : K) (v : V).

(** The sum of a quantity over the entries of a store. *)
Definition map_sum m : Z := Zsum ((fun kv : K * V => f kv.1 kv.2) <$> map_to_list m).

Lemma map_sum_empty : map_sum ∅ = 0.
Proof. unfold map_sum. by rewrite map_to_list_empty. Qed.

Lemma map_sum_insert_new m k v : m !! k = None -> map_sum (<[k:=v]> m) = f k v + map_sum m.
Proof. intros Hk. unfold map_sum. by rewrite map_to_list_insert. Qed.

Lemma map_sum_delete m k v : m !! k = Some v -> map_sum (delete k m) = map_sum m - f k v.
Proof.
  intros Hk. rewrite <- (insert_delete_id m k v Hk) at 2.
  rewrite map_sum_insert_new by apply lookup_delete_eq. lia.
Qed.

Lemma map_sum_insert m k v v0 :
  m !! k = Some v0 -> map_sum (<[k:=v]> m) = map_sum m - f k v0 + f k v.
Proof.
  intros Hk. rewrite <- insert_delete_eq, map_sum_insert_new by apply lookup_delete_eq.
  rewrite (map_sum_delete m k v0 Hk). lia.
Qed.

Lemma map_sum_elem_le m k v :
  (forall k' v', m !! k' = Some v' -> 0 <= f k' v') -> m !! k = Some v -> f k v <= map_sum m.
Proof.
  intros Hnn Hk. apply Zsum_elem_le.
  - apply Forall_fmap, Forall_forall. intros [k' v'] Hin.
    apply elem_of_map_to_list in Hin. exact (Hnn k' v' Hin).
  - apply (list_elem_of_fmap_2 (fun kv : K * V => f kv.1 kv.2) _ (k, v)).
    by apply elem_of_map_to_list.
Qed.

Lemma map_sum_nonneg m : (forall k v, m !! k = Some v -> 0 <= f k v) -> 0 <= map_sum m.
Proof.
  intros Hnn. apply Zsum_nonneg, Forall_fmap, Forall_forall. intros [k v] Hin.
  apply elem_of_map_to_list in Hin. exact (Hnn k v Hin).
Qed.
End map_sum.

Lemma map_sum_ext {K} `{Countable K} {V} (f g : K -> V -> Z) (m : gmap K V) :
  (forall k v, m !! k = Some v -> f k v = g k v) -> map_sum f m = map_sum g m.
Proof.
  intros Hfg. unfold map_sum. f_equal. apply list_fmap_ext. intros i [k v] Hi.
  apply Hfg, elem_of_map_to_list. by eapply list_elem_of_lookup_2.
Qed.

Lemma map_sum_zero {K} `{Countable K} {V} (f : K -> V -> Z) (m : gmap K V) :
  (forall k v, m !! k = Some v -> f k v = 0) -> map_sum f m = 0.
Proof.
  intros Hz. rewrite (map_sum_ext f (fun _ _ => 0) m Hz). unfold map_sum.
  induction (map_to_list m) as [|kv l IH]; [done|]. by rewrite fmap_cons, Zsum_cons, IH.
Qed.

(** A sum with one key of interest. *)
Lemma map_sum_single {K} `{Countable K} {V} (f : V -> Z) (m : gmap K V) x :
  map_sum (fun k v => if decide (k = x) then f v else 0) m = from_option f 0 (m !! x).
Proof.
  destruct (m !! x) as [v|] eqn:E; simpl.
  - pose proof (map_sum_delete (fun k v => if decide (k = x) then f v else 0) m x v E) as Hd.
    cbv beta in Hd. rewrite decide_True in Hd by done. rewrite map_sum_zero in Hd; [lia|].
    intros k v' [Hne _]%lookup_delete_Some. by rewrite decide_False by congruence.
  - apply map_sum_zero. intros k v' Hk. rewrite decide_False; [done|congruence].
Qed.

Lemma store_items_sum {V} (f : bytes -> V -> Z) (m : gmap bytes V) :
  Zsum ((fun kv : bytes * V => f kv.1 kv.2) <$> store_items m) = map_sum f m.
Proof. unfold map_sum. by rewrite store_items_perm. Qed.

(** * Loops over a pure accumulator *)

(** A loop whose body neither fails nor writes is a fold. *)
Lemma foldM_pure {S A B} (f : B -> A -> M S B) (g : B -> A -> B) acc (l : list A) (s : S) :
  (forall b a, a ∈ l -> f b a s = (Ok (g b a), s)) ->
  foldM f acc l s = (Ok (foldl g acc l), s).
Proof.
  revert acc. induction l as [|x l IH]; intros acc Hf; simpl; [done|].
  erewrite bind_run_ok by (apply Hf; left). apply IH. intros b a Ha. apply Hf. by right.
Qed.

(** Loops with bodies that agree on the list. *)
Lemma foldM_ext {S A B} (f g : B -> A -> M S B) (l : list A) : forall acc (s : S),
  (forall b a s', a ∈ l -> f b a s' = g b a s') -> foldM f acc l s = foldM g acc l s.
Proof.
  induction l as [|x l IH]; intros acc s Hfg; simpl; [done|]. unfold bind. rewrite Hfg by left.
  destruct (g acc x s) as [[b|e|] s1]; [|done|done]. apply IH. intros. apply Hfg. by right.
Qed.

(** A loop that succeeds ran its body successfully on every element. *)
Lemma foldM_ok_elem {S A B} (f : B -> A -> M S B) (l : list A) x : forall acc (s : S) b s',
  foldM f acc l s = (Ok b, s') -> x ∈ l -> exists acc1 s1 acc2 s2, f acc1 x s1 = (Ok acc2, s2).
Proof.
  induction l as [|y l IH]; intros acc s b s' Hr Hx; [by apply not_elem_of_nil in Hx|].
  simpl in Hr. apply bind_ok in Hr as (c & s1 & Hf & Hr).
  apply elem_of_cons in Hx as [->|Hx]; [eauto|]. by eapply IH.
Qed.

Lemma foldl_collect {A B} (f : A -> B) (l : list A) : forall acc,
  foldl (fun acc x => acc ++ [f x]) acc l = acc ++ (f <$> l).
Proof.
  induction l as [|x l IH]; intros acc; simpl; [by rewrite app_nil_r|]. rewrite IH, <- app_assoc. done.
Qed.

Lemma foldl_Zsum {A} (f : A -> Z) (l : list A) (z : Z) :
  foldl (fun acc x => acc + f x) z l = z + Zsum (f <$> l).
Proof.
  revert z. induction l as [|x l IH]; intros z; [simpl; lia|].
  rewrite fmap_cons, Zsum_cons. simpl. rewrite IH. lia.
Qed.

(** * Division *)

(** Truncating and flooring division agree on non-negative numerators. *)
Lemma quot_div_nonneg (a b : Z) : 0 <= a -> 0 < b -> Z.quot a b = a / b.
Proof. intros. apply Z.quot_div_nonneg; lia. Qed.

Lemma div_add_le (a b c : Z) : 0 < c -> a / c + b / c <= (a + b) / c.
Proof.
  intros Hc. apply Z.div_le_lower_bound; [done|].
  pose proof (Z.mul_div_le a c Hc). pose proof (Z.mul_div_le b c Hc). lia.
Qed.

Lemma div_add_lt (a b c : Z) : 0 < c -> (a + b) / c <= a / c + b / c + 1.
Proof.
  intros Hc. pose proof (Z.mul_succ_div_gt a c Hc). pose proof (Z.mul_succ_div_gt b c Hc).
  assert ((a + b) / c < a / c + b / c + 2); [|lia].
  apply Z.div_lt_upper_bound; [done|]. lia.
Qed.

(** * Rebuilding a map *)

Definition insert_all {V} (m : gmap bytes V) (items : list (bytes * V)) : gmap bytes V :=
  foldl (fun acc kv => <[kv.1 := kv.2]> acc) m items.

Lemma insert_all_union {V} (items : list (bytes * V)) : forall m,
  insert_all m items = list_to_map (reverse items) ∪ m.
Proof.
  induction items as [|[k v] items IH]; intros m; [symmetry; apply (left_id_L ∅ (∪))|].
  unfold insert_all in *. simpl. rewrite IH, reverse_cons, list_to_map_app. simpl.
  rewrite <- map_union_assoc. f_equal. by rewrite <- insert_union_l, (left_id_L ∅ (∪)).
Qed.

Lemma insert_all_store {V} (m m0 : gmap bytes V) : m0 = ∅ -> insert_all m0 (store_items m) = m.
Proof.
  intros ->. rewrite insert_all_union, (right_id_L ∅ (∪)).
  rewrite (list_to_map_proper _ (map_to_list m)); [apply list_to_map_to_list| |].
  - rewrite fmap_reverse, reverse_Permutation. apply store_items_NoDup.
  - by rewrite reverse_Permutation, store_items_perm.
Qed.

(** Values that know their key. *)
Lemma rebuild_store {V} (key : V -> bytes) (m : gmap bytes V) :
  (forall k v, m !! k = Some v -> key v = k) ->
  foldl (fun acc v => <[key v := v]> acc) ∅ (store_items m).*2 = m.
Proof.
  intros Hkey. rewrite <- (insert_all_store m ∅ eq_refl) at 2. unfold insert_all.
  assert (Hall : forall kv, kv ∈ store_items m -> key kv.2 = kv.1).
  { intros [k v] Hin. by apply Hkey, elem_of_store_items. }
  revert Hall. generalize (∅ : gmap bytes V) as acc. induction (store_items m) as [|[k v] l IH];
    intros acc Hall; simpl; [done|].
  rewrite (Hall (k, v) ltac:(left) : key v = k). apply IH. intros kv Hin. apply Hall. by right.
Qed.
