(* ===== verification/Sdk.v ===== *)
(** What the program relies on from the Cosmos SDK and its math library, as
    typeclasses: the operations are parameters of the model and the laws state
    their documented behaviour. Each class has a concrete instance, which shows
    that its laws can hold together and lets the witnesses compute.

    [math.Int] is an unbounded [Z]: the amounts the keepers accept are 64-bit
    (see [validateDenom] and the [Int64]/[Uint64] conversions of the tier
    keeper, whose panics are modelled), far below the 256-bit limit of the
    library. [math.LegacyDec] is a [Z] scaled by 10^18. *)
From Stdlib Require Import Ascii ZArith Lia.
From stdpp Require Import base numbers list gmap strings sorting.
From S2P Require Import Prelude.

(** * Decimals *)

Definition precision : Z := 10 ^ 18.

(** [LegacyNewDecFromInt], [LegacyNewDec], [Int.ToLegacyDec]. *)
Definition dec_of_int (z : Z) : Z := z * precision.
(** [TruncateInt] drops the fraction. *)
Definition dec_truncate (d : Z) : Z := Z.quot d precision.
(** [Ceil] is the least whole decimal above. *)
Definition dec_ceil (d : Z) : Z := - (- d / precision) * precision.

(** [Mul] rounds the exact product to the nearest unit of precision; [Quo]
    rounds a quotient that was first cut at twice the precision. *)
Class LegacyDecOps : Type := {
  dec_mul : Z -> Z -> Z;
  dec_quo : Z -> Z -> Z;
  dec_mul_nearest : forall a b, 2 * Z.abs (dec_mul a b * precision - a * b) <= precision;
  dec_quo_nearest : forall a b, b <> 0 ->
    2 * Z.abs (dec_quo a b * b * precision - a * precision * precision)
      <= (precision + 2) * Z.abs b;
}.

(** Division by the zero decimal panics. *)
Definition Quo {S} `{LegacyDecOps} (a b : Z) : M S Z :=
  if b =? 0 then panic else ret (dec_quo a b).

Section dec_facts.
Context `{LegacyDecOps}.

Lemma dec_mul_int (n b : Z) : dec_mul (dec_of_int n) b = n * b.
Proof.
  pose proof (dec_mul_nearest (dec_of_int n) b) as Hm. unfold dec_of_int, precision in *. nia.
Qed.

Lemma dec_quo_exact (a b k : Z) : b <> 0 -> a * precision = k * b -> dec_quo a b = k.
Proof.
  intros Hb Hk. pose proof (dec_quo_nearest a b Hb) as Hq.
  replace (dec_quo a b * b * precision - a * precision * precision)
    with ((dec_quo a b - k) * precision * b) in Hq by nia.
  rewrite Z.abs_mul in Hq. rewrite Z.mul_assoc in Hq.
  apply Z.mul_le_mono_pos_r in Hq; [|lia]. unfold precision in *. lia.
Qed.

Lemma dec_mul_int_r (a n : Z) : dec_mul a (dec_of_int n) = a * n.
Proof.
  pose proof (dec_mul_nearest a (dec_of_int n)) as Hm. unfold dec_of_int, precision in *. nia.
Qed.

Lemma dec_mul_nonneg (a b : Z) : 0 <= a -> 0 <= b -> 0 <= dec_mul a b.
Proof. intros. pose proof (dec_mul_nearest a b). unfold precision in *. nia. Qed.

Lemma dec_mul_le_int (n b : Z) : 0 <= n -> b <= precision ->
  dec_mul (dec_of_int n) b <= dec_of_int n.
Proof. intros. rewrite dec_mul_int. unfold dec_of_int. nia. Qed.
End dec_facts.

(** Banker's rounding of [x / precision], as the library rounds. *)
Definition chop_round (x : Z) : Z :=
  let q := x / precision in
  let r := x mod precision in
  if 2 * r <? precision then q
  else if precision <? 2 * r then q + 1
  else if Z.even q then q else q + 1.

Lemma chop_round_nearest (x : Z) : 2 * Z.abs (chop_round x * precision - x) <= precision.
Proof.
  unfold chop_round. pose proof (Z.div_mod x precision) as Hx.
  pose proof (Z.mod_pos_bound x precision) as Hr. unfold precision in *.
  repeat case_match; lia.
Qed.

Lemma chop_round_whole (n : Z) : chop_round (n * precision) = n.
Proof. unfold chop_round. rewrite Z.div_mul, Z.mod_mul by done. done. Qed.

Lemma quot_error (x b : Z) : b <> 0 -> Z.abs (Z.quot x b * b - x) <= Z.abs b.
Proof.
  intros Hb. pose proof (Z.quot_rem x b Hb). pose proof (Z.rem_bound_abs x b Hb). lia.
Qed.

#[export, refine] Instance legacy_dec_impl : LegacyDecOps := {|
  dec_mul a b := chop_round (a * b);
  dec_quo a b := chop_round (Z.quot (a * precision * precision) b);
|}.
Proof.
  - intros a b. apply chop_round_nearest.
  - intros a b Hb. set (x := a * precision * precision). set (t := Z.quot x b).
    pose proof (chop_round_nearest t) as H1. pose proof (quot_error x b Hb) as H2. fold t in H2.
    replace (chop_round t * b * precision - x)
      with ((chop_round t * precision - t) * b + (t * b - x)) by lia.
    pose proof (Z.abs_triangle ((chop_round t * precision - t) * b) (t * b - x)) as H3.
    rewrite Z.abs_mul in H3. nia.
Defined.

(** * Coins *)

Record Coin : Type := mkCoin { coin_denom : string; coin_amount : Z }.
Definition Coins : Type := list Coin.

Definition coins_amount (d : string) (cs : Coins) : Z :=
  Zsum ((fun c => if decide (coin_denom c = d) then coin_amount c else 0) <$> cs).

(** [NewCoins(NewCoin(denom, amount))]: a negative amount panics, a zero one
    leaves no coin. *)
Definition NewCoins1 {S} (d : string) (amt : Z) : M S Coins :=
  if amt <? 0 then panic else ret (if amt =? 0 then [] else [mkCoin d amt]).

Lemma coins_amount_single d amt d' :
  coins_amount d' [mkCoin d amt] = if decide (d = d') then amt else 0.
Proof. unfold coins_amount. simpl. case_decide; lia. Qed.

Lemma NewCoins1_ok {S} d amt (s : S) cs s' :
  NewCoins1 d amt s = (Ok cs, s') ->
  s' = s /\ 0 <= amt /\ forall d', coins_amount d' cs = if decide (d = d') then amt else 0.
Proof.
  unfold NewCoins1. destruct (Z.ltb_spec amt 0) as [|Hge]; intros Hrun; [done|].
  cbv [ret] in Hrun. simplify_eq. split_and!; [done|done|].
  intros d'. destruct (Z.eqb_spec amt 0) as [->|].
  - by destruct (decide (d = d')).
  - apply coins_amount_single.
Qed.

(** * Block context *)

(** What a handler reads from [sdk.Context]: the block header and the DID that
    the ante handler extracted from a bearer token (empty when there is none). *)
Record Ctx : Type := mkCtx {
  block_time : Time;
  block_height : Z;
  extracted_did : bytes;
}.

(** * Store keys *)

(** Times of the years 1 to 9999: those a protobuf timestamp can hold, and that
    [sdk.FormatTimeBytes] renders in its fixed-width sortable layout. *)
Definition time_in_range (t : Time) : Prop := time_zero <= t < 253402300800 * 1000000000.

#[global] Instance time_in_range_dec t : Decision (time_in_range t).
Proof. unfold time_in_range. apply _. Defined.

(** [address.MustLengthPrefix] puts a length byte in front, keeps an empty slice
    as it is, and panics above 255 bytes; [sdk.ParseLengthPrefixedBytes] reads a slice and returns the index
    of its last byte, panicking on a short key; [sdk.FormatTimeBytes] has a
    constant width and sorts like the times. *)
Class SdkKeys : Type := {
  MustLengthPrefix : bytes -> outcome bytes;
  ParseLengthPrefixedBytes : bytes -> nat -> nat -> outcome (bytes * nat);
  FormatTimeBytes : Time -> bytes;
  InclusiveEndBytes : bytes -> bytes;
  time_len : nat;
  MustLengthPrefix_spec : forall bz,
    MustLengthPrefix bz =
      if decide (bz = []) then Ok []
      else if decide (length bz <= 255)%nat then Ok (byte_of_Z (Z.of_nat (length bz)) :: bz)
      else Panic;
  ParseLengthPrefixedBytes_spec : forall key start len,
    ParseLengthPrefixedBytes key start len =
      if decide (start + len <= length key)%nat
      then Ok (take len (drop start key), (start + len - 1)%nat) else Panic;
  FormatTimeBytes_length : forall t, time_in_range t -> length (FormatTimeBytes t) = time_len;
  FormatTimeBytes_mono : forall t1 t2, time_in_range t1 -> time_in_range t2 -> t1 < t2 ->
    bytes_lt (FormatTimeBytes t1) (FormatTimeBytes t2);
  InclusiveEndBytes_spec : forall b, InclusiveEndBytes b = b ++ [byte_of_Z 0];
}.

Section time_bytes.
Context `{SdkKeys}.

Lemma FormatTimeBytes_leb (t1 t2 : Time) :
  time_in_range t1 -> time_in_range t2 ->
  bytes_leb (FormatTimeBytes t1) (FormatTimeBytes t2) = (t1 <=? t2).
Proof.
  intros H1 H2. destruct (Z.leb_spec t1 t2) as [Hle|Hlt].
  - destruct (decide (t1 = t2)) as [->|Hne]; [apply bytes_le_refl|].
    pose proof (FormatTimeBytes_mono t1 t2 H1 H2 ltac:(lia)) as Hm. unfold bytes_lt in Hm.
    destruct (bytes_le_total (FormatTimeBytes t1) (FormatTimeBytes t2)) as [Ht|Ht]; [done|].
    unfold bytes_le in Ht. congruence.
  - exact (FormatTimeBytes_mono t2 t1 H2 H1 Hlt).
Qed.

Lemma FormatTimeBytes_inj (t1 t2 : Time) :
  time_in_range t1 -> time_in_range t2 -> FormatTimeBytes t1 = FormatTimeBytes t2 -> t1 = t2.
Proof.
  intros H1 H2 Heq. pose proof (FormatTimeBytes_leb t1 t2 H1 H2) as Ha.
  pose proof (FormatTimeBytes_leb t2 t1 H2 H1) as Hb. rewrite Heq in Ha, Hb.
  assert (bytes_leb (FormatTimeBytes t2) (FormatTimeBytes t2) = true) as Hr
    by apply bytes_le_refl.
  rewrite Hr in Ha, Hb. lia.
Qed.
End time_bytes.

(** ** A concrete layout: big-endian bytes. *)
Fixpoint be_bytes (n : nat) (z : Z) : bytes :=
  match n with
  | O => []
  | Datatypes.S n' => byte_of_Z (z / 256 ^ Z.of_nat n') :: be_bytes n' (z mod 256 ^ Z.of_nat n')
  end.

Lemma be_bytes_length n z : length (be_bytes n z) = n.
Proof. revert z. induction n as [|n IH]; intros z; simpl; [done|]. by rewrite IH. Qed.

(** [binary.BigEndian.Uint64]: the number of a sequence of bytes. *)
Definition be_uint64 (bz : bytes) : Z := foldl (fun acc b => acc * 256 + Z_of_byte b) 0 bz.

Lemma be_uint64_app (a b : bytes) :
  be_uint64 (a ++ b) = be_uint64 a * 256 ^ Z.of_nat (length b) + be_uint64 b.
Proof.
  unfold be_uint64. rewrite foldl_app. generalize (foldl (fun acc x => acc * 256 + Z_of_byte x) 0 a).
  clear a. induction b as [|x b IH]; intros z; [simpl; lia|].
  cbn [foldl]. rewrite IH, (IH (0 * 256 + _)). cbn [length]. rewrite Nat2Z.inj_succ, Z.pow_succ_r by lia. lia.
Qed.

Lemma be_uint64_be_bytes n z : 0 <= z < 256 ^ Z.of_nat n -> be_uint64 (be_bytes n z) = z.
Proof.
  revert z. induction n as [|n IH]; intros z Hz.
  { simpl in *. unfold be_uint64. simpl. lia. }
  cbn [be_bytes]. match goal with |- be_uint64 (?x :: ?l) = _ => change (x :: l) with ([x] ++ l) end.
  rewrite be_uint64_app, be_bytes_length.
  rewrite Nat2Z.inj_succ, Z.pow_succ_r in Hz by lia.
  set (p := 256 ^ Z.of_nat n) in *. assert (0 < p) by (unfold p; lia).
  rewrite IH by (apply Z.mod_pos_bound; lia). unfold be_uint64. cbn [foldl].
  rewrite Z_of_byte_of_Z by (split; [apply Z.div_pos|apply Z.div_lt_upper_bound]; lia).
  pose proof (Z.div_mod z p). lia.
Qed.

Lemma be_bytes_mono n (a b : Z) :
  0 <= a < b -> b < 256 ^ Z.of_nat n -> bytes_leb (be_bytes n b) (be_bytes n a) = false.
Proof.
  revert a b. induction n as [|n IH]; intros a b Hab Hb.
  { simpl in Hb. lia. }
  replace (256 ^ Z.of_nat (Datatypes.S n)) with (256 * 256 ^ Z.of_nat n) in Hb
    by (rewrite Nat2Z.inj_succ, Z.pow_succ_r; lia).
  set (p := 256 ^ Z.of_nat n) in *. assert (Hp : 0 < p) by (unfold p; lia).
  assert (Ha1 : 0 <= a / p < 256) by (split; [apply Z.div_pos|apply Z.div_lt_upper_bound]; lia).
  assert (Hb1 : 0 <= b / p < 256) by (split; [apply Z.div_pos|apply Z.div_lt_upper_bound]; lia).
  assert (Hle : a / p <= b / p) by (apply Z.div_le_mono; lia).
  simpl. fold p. rewrite !Z_of_byte_of_Z by done.
  destruct (Z.ltb_spec (b / p) (a / p)); [lia|].
  destruct (Z.ltb_spec (a / p) (b / p)); [done|].
  pose proof (Z.div_mod a p). pose proof (Z.div_mod b p).
  pose proof (Z.mod_pos_bound a p). pose proof (Z.mod_pos_bound b p).
  apply IH; [|lia]. assert (a / p = b / p) by lia. nia.
Qed.

#[export, refine] Instance sdk_keys_impl : SdkKeys := {|
  MustLengthPrefix bz :=
    if decide (bz = []) then Ok []
    else if decide (length bz <= 255)%nat then Ok (byte_of_Z (Z.of_nat (length bz)) :: bz)
    else Panic;
  ParseLengthPrefixedBytes key start len :=
    if decide (start + len <= length key)%nat
    then Ok (take len (drop start key), (start + len - 1)%nat) else Panic;
  FormatTimeBytes t := be_bytes 9 (t - time_zero);
  InclusiveEndBytes b := b ++ [byte_of_Z 0];
  time_len := 9;
|}.
Proof.
  - done.
  - done.
  - intros t _. apply be_bytes_length.
  - intros t1 t2 H1 H2 Hlt. apply be_bytes_mono; unfold time_in_range, time_zero in *; [lia|].
    change (Z.of_nat 9) with 9. lia.
  - done.
Defined.

(** * Accounts *)

(** [address.Codec] of the account keeper: addresses have one to 255 bytes, and
    the text of an address decodes to it. *)
Class AddressCodec : Type := {
  StringToBytes : bytes -> bytes + error;
  BytesToString : bytes -> bytes;
  StringToBytes_range : forall t a, StringToBytes t = inl a -> (0 < length a <= 255)%nat;
  StringToBytes_BytesToString : forall a, (0 < length a <= 255)%nat ->
    StringToBytes (BytesToString a) = inl a;
}.

Lemma BytesToString_inj `{AddressCodec} a b : (0 < length a <= 255)%nat -> (0 < length b <= 255)%nat ->
  BytesToString a = BytesToString b -> a = b.
Proof.
  intros Ha Hb Heq. apply StringToBytes_BytesToString in Ha, Hb. rewrite Heq in Ha. congruence.
Qed.

#[export, refine] Instance address_codec_impl : AddressCodec := {|
  StringToBytes t :=
    if decide (0 < length t <= 255)%nat then inl t else inr (ErrMsg "invalid address");
  BytesToString a := a;
|}.
Proof.
  - intros t a. case_decide; intros; by simplify_eq.
  - intros a Ha. by rewrite decide_True.
Defined.

(** * Coin sets *)

(** [Coins.IsValid]: sorted, positive, one coin per denomination. [SafeSub]
    subtracts per denomination and reports whether anything went negative. *)
Class CoinsOps : Type := {
  IsValid : Coins -> bool;
  IsZero : Coins -> bool;
  IsAllPositive : Coins -> bool;
  IsAnyNegative : Coins -> bool;
  DenomsSubsetOf : Coins -> Coins -> bool;
  SafeSub : Coins -> Coins -> Coins * bool;
  IsValid_nil : IsValid [] = true;
  IsValid_positive : forall cs c, IsValid cs = true -> c ∈ cs -> 0 < coin_amount c;
  IsZero_spec : forall cs, IsZero cs = true <-> Forall (fun c => coin_amount c = 0) cs;
  SafeSub_amount : forall a b d, IsValid a = true -> IsValid b = true ->
    coins_amount d (SafeSub a b).1 = coins_amount d a - coins_amount d b;
  SafeSub_neg : forall a b, IsValid a = true -> IsValid b = true ->
    (SafeSub a b).2 = true <-> exists d, coins_amount d a < coins_amount d b;
  SafeSub_valid : forall a b, IsValid a = true -> IsValid b = true ->
    (SafeSub a b).2 = false -> IsValid (SafeSub a b).1 = true;
}.

Section coins_facts.
Context `{CoinsOps}.

Lemma coins_amount_cons d c cs :
  coins_amount d (c :: cs)
    = (if decide (coin_denom c = d) then coin_amount c else 0) + coins_amount d cs.
Proof. done. Qed.

Lemma coins_amount_Forall_nonneg d (cs : Coins) :
  (forall c, c ∈ cs -> 0 < coin_amount c) -> 0 <= coins_amount d cs.
Proof.
  intros Hp. apply Zsum_nonneg, Forall_fmap, Forall_forall. intros c Hc. simpl.
  case_decide; [|lia]. specialize (Hp c Hc). lia.
Qed.

Lemma coins_amount_nonneg d cs : IsValid cs = true -> 0 <= coins_amount d cs.
Proof.
  intros Hv. apply coins_amount_Forall_nonneg. intros c Hc. by eapply IsValid_positive.
Qed.

Lemma coins_amount_zero_nil cs :
  IsValid cs = true -> (forall d, coins_amount d cs = 0) -> cs = [].
Proof.
  intros Hv Hz. destruct cs as [|c cs]; [done|]. exfalso.
  specialize (Hz (coin_denom c)). rewrite coins_amount_cons, decide_True in Hz by done.
  pose proof (IsValid_positive _ c Hv ltac:(left)).
  pose proof (coins_amount_Forall_nonneg (coin_denom c) cs).
  assert (0 <= coins_amount (coin_denom c) cs); [|lia].
  apply H1. intros c' Hc'. eapply IsValid_positive; [exact Hv|by right].
Qed.

Lemma IsZero_valid cs : IsValid cs = true -> IsZero cs = true <-> cs = [].
Proof.
  intros Hv. rewrite IsZero_spec. split; [|by intros ->].
  intros Hz. destruct cs as [|c cs]; [done|]. apply Forall_cons in Hz as [Hz _].
  pose proof (IsValid_positive _ c Hv ltac:(left)). lia.
Qed.

Lemma SafeSub_ok a b :
  IsValid a = true -> IsValid b = true -> (SafeSub a b).2 = false ->
  IsValid (SafeSub a b).1 = true /\
  (forall d, coins_amount d (SafeSub a b).1 = coins_amount d a - coins_amount d b) /\
  (forall d, coins_amount d b <= coins_amount d a).
Proof.
  intros Ha Hb Hn. split_and!; [by apply SafeSub_valid|intros; by apply SafeSub_amount|].
  intros d. destruct (Z.le_gt_cases (coins_amount d b) (coins_amount d a)) as [|Hlt]; [done|].
  assert ((SafeSub a b).2 = true) by (apply SafeSub_neg; eauto). congruence.
Qed.
End coins_facts.

(** ** A concrete coin arithmetic on sorted lists. *)
Definition denom_le (a b : string) : Prop := bytes_le (lit a) (lit b).

#[global] Instance denom_le_dec : RelDecision denom_le.
Proof. intros a b. unfold denom_le. apply _. Defined.

#[global] Instance denom_le_total : Total denom_le.
Proof. intros a b. apply bytes_le_total. Qed.

#[global] Instance denom_le_trans : Transitive denom_le.
Proof. intros a b c. apply bytes_le_trans. Qed.

Definition coins_valid (cs : Coins) : bool :=
  bool_decide (NoDup (coin_denom <$> cs)) &&
  bool_decide (StronglySorted denom_le (coin_denom <$> cs)) &&
  bool_decide (Forall (fun c => 0 < coin_amount c) cs).

Definition diff_denoms (a b : Coins) : list string :=
  merge_sort denom_le (remove_dups ((coin_denom <$> a) ++ (coin_denom <$> b))).

Definition diff_coin (a b : Coins) (d : string) : Coin :=
  mkCoin d (coins_amount d a - coins_amount d b).

Definition diff_coins (ds : list string) (a b : Coins) : Coins :=
  filter (fun c => coin_amount c <> 0) (diff_coin a b <$> ds).

Lemma coins_amount_absent d cs : d ∉ coin_denom <$> cs -> coins_amount d cs = 0.
Proof.
  induction cs as [|c cs IH]; [done|]. rewrite fmap_cons, not_elem_of_cons. intros [Hne Hin].
  rewrite coins_amount_cons, decide_False by congruence. rewrite IH by done. lia.
Qed.

Lemma diff_coins_denoms ds a b d : d ∈ coin_denom <$> diff_coins ds a b -> d ∈ ds.
Proof.
  unfold diff_coins. intros (c & -> & Hc)%list_elem_of_fmap.
  apply list_elem_of_filter in Hc as [_ (d' & -> & Hd')%list_elem_of_fmap]. done.
Qed.

Lemma diff_coins_amount ds a b d :
  NoDup ds -> coins_amount d (diff_coins ds a b)
    = if decide (d ∈ ds) then coins_amount d a - coins_amount d b else 0.
Proof.
  induction 1 as [|d' ds Hnin Hnd IH]; [done|].
  unfold diff_coins in *. rewrite fmap_cons, filter_cons. simpl coin_amount.
  assert (Hrest : d = d' -> coins_amount d
    (filter (fun c => coin_amount c <> 0) (diff_coin a b <$> ds)) = 0).
  { intros ->. rewrite IH. by rewrite decide_False. }
  destruct (decide (d = d')) as [<-|Hne].
  - rewrite (decide_True (P := d ∈ d :: ds)) by left.
    destruct (decide (coins_amount d a - coins_amount d b <> 0)).
    + rewrite coins_amount_cons, decide_True by done. simpl. rewrite Hrest by done. lia.
    + rewrite Hrest by done. lia.
  - rewrite (decide_ext (d ∈ d' :: ds) (d ∈ ds)) by (rewrite elem_of_cons; naive_solver).
    destruct (decide (coins_amount d' a - coins_amount d' b <> 0)); [|done].
    rewrite coins_amount_cons, decide_False by (simpl; congruence). rewrite IH. lia.
Qed.

Lemma diff_denoms_spec a b :
  NoDup (diff_denoms a b) /\ StronglySorted denom_le (diff_denoms a b) /\
  (forall d, d ∈ diff_denoms a b <-> d ∈ coin_denom <$> a \/ d ∈ coin_denom <$> b).
Proof.
  unfold diff_denoms. split_and!.
  - rewrite merge_sort_Permutation. apply NoDup_remove_dups.
  - apply StronglySorted_merge_sort; apply _.
  - intros d. rewrite merge_sort_Permutation, elem_of_remove_dups, elem_of_app. done.
Qed.

Lemma diff_coins_full a b d :
  coins_amount d (diff_coins (diff_denoms a b) a b) = coins_amount d a - coins_amount d b.
Proof.
  destruct (diff_denoms_spec a b) as (Hnd & _ & Hin). rewrite diff_coins_amount by done.
  case_decide as Hd; [done|]. rewrite Hin in Hd.
  rewrite !coins_amount_absent by tauto. done.
Qed.

Definition coins_diff_neg (a b : Coins) : bool :=
  bool_decide (Exists (fun d => coins_amount d a < coins_amount d b) (diff_denoms a b)).

Lemma coins_diff_neg_spec a b :
  coins_diff_neg a b = true <-> exists d, coins_amount d a < coins_amount d b.
Proof.
  unfold coins_diff_neg. rewrite bool_decide_eq_true, Exists_exists. split; [naive_solver|].
  intros [d Hd]. exists d. split; [|done].
  destruct (decide (d ∈ diff_denoms a b)) as [|Hn]; [done|].
  destruct (diff_denoms_spec a b) as (_ & _ & Hin). rewrite Hin in Hn.
  rewrite !coins_amount_absent in Hd by tauto. lia.
Qed.

Lemma diff_coins_valid a b :
  coins_diff_neg a b = false -> coins_valid (diff_coins (diff_denoms a b) a b) = true.
Proof.
  intros Hn. destruct (diff_denoms_spec a b) as (Hnd & Hs & _).
  assert (Hsub : coin_denom <$> diff_coins (diff_denoms a b) a b `sublist_of` diff_denoms a b).
  { rewrite <- (list_fmap_id (diff_denoms a b)) at 2.
    transitivity (coin_denom <$> (diff_coin a b <$> diff_denoms a b)).
    - apply fmap_sublist, sublist_filter.
    - by rewrite <- list_fmap_compose. }
  unfold coins_valid. rewrite !andb_true_iff, !bool_decide_eq_true. split_and!.
  - by eapply sublist_NoDup.
  - revert Hsub Hs. clear. generalize (diff_denoms a b) at 2 3.
    generalize (coin_denom <$> diff_coins (diff_denoms a b) a b). intros k l Hsub Hs.
    induction Hsub as [|x l1 l2 Hsub IH|x l1 l2 Hsub IH]; [done| |].
    + inversion Hs as [|? ? Hs' Hall]; subst. constructor; [auto|].
      rewrite Forall_forall in Hall |- *. intros y Hy. apply Hall.
      by eapply sublist_subseteq.
    + inversion Hs; subst. auto.
  - apply Forall_forall. intros c [Hnz (d & -> & Hd)%list_elem_of_fmap]%list_elem_of_filter.
    simpl in *. apply not_true_iff_false in Hn. rewrite coins_diff_neg_spec in Hn.
    assert (~ coins_amount d a < coins_amount d b) by eauto. lia.
Qed.

#[export, refine] Instance coins_impl : CoinsOps := {|
  IsValid := coins_valid;
  IsZero cs := bool_decide (Forall (fun c => coin_amount c = 0) cs);
  IsAllPositive cs :=
    negb (bool_decide (cs = [])) && bool_decide (Forall (fun c => 0 < coin_amount c) cs);
  IsAnyNegative cs := bool_decide (Exists (fun c => coin_amount c < 0) cs);
  DenomsSubsetOf a b := bool_decide ((coin_denom <$> a) ⊆ (coin_denom <$> b));
  SafeSub a b := (diff_coins (diff_denoms a b) a b, coins_diff_neg a b);
|}.
Proof.
  - done.
  - intros cs c Hv Hc. unfold coins_valid in Hv. rewrite !andb_true_iff, !bool_decide_eq_true in Hv.
    destruct Hv as [_ Hp]. rewrite Forall_forall in Hp. auto.
  - intros cs. by rewrite bool_decide_eq_true.
  - intros a b d _ _. apply diff_coins_full.
  - intros a b _ _. apply coins_diff_neg_spec.
  - intros a b _ _. apply diff_coins_valid.
Defined.

(** * Pages of a query *)

(** The pagination of the SDK over the entries of a store: a page holds entries of
    the store, each once, and in a filtered page those the callback accepts. *)
Class Pagination : Type := {
  PageReq : Type;
  PageRes : Type;
  Paginate : forall {V}, list (bytes * V) -> PageReq -> outcome (list (bytes * V) * PageRes);
  FilteredPaginate : forall {V}, list (bytes * V) -> PageReq -> (bytes -> V -> outcome bool) ->
    outcome (list (bytes * V) * PageRes);
  Paginate_entries : forall V (items : list (bytes * V)) req l res,
    Paginate items req = Ok (l, res) -> exists rest, l ++ rest ≡ₚ items;
  FilteredPaginate_entries : forall V (items : list (bytes * V)) req f l res,
    FilteredPaginate items req f = Ok (l, res) ->
    (exists rest, l ++ rest ≡ₚ items) /\ Forall (fun kv => f kv.1 kv.2 = Ok true) l;
}.

(** The first entries, as many as asked for. *)
Definition filter_items {V} (f : bytes -> V -> outcome bool) (items : list (bytes * V)) : outcome (list (bytes * V)) :=
  foldr (fun kv acc => l ← acc; b ← f kv.1 kv.2; Ok (if b : bool then kv :: l else l)) (Ok []) items.

Lemma filter_items_ok {V} (f : bytes -> V -> outcome bool) items l : filter_items f items = Ok l ->
  (exists rest, l ++ rest ≡ₚ items) /\ Forall (fun kv => f kv.1 kv.2 = Ok true) l.
Proof.
  revert l. induction items as [|kv items IH]; intros l Hl; simpl in Hl; [injection Hl as <-; split; [by exists []|done]|].
  apply outcome_bind_ok in Hl as (l1 & Hl1 & Hl). apply outcome_bind_ok in Hl as (b & Hb & Hl). injection Hl as <-.
  destruct (IH l1 Hl1) as [[rest Hp] Hall]. destruct b.
  - split; [exists rest; simpl; by rewrite Hp|by constructor].
  - split; [exists (kv :: rest); by rewrite <- Permutation_middle, Hp|done].
Qed.

#[export, refine] Instance pagination_impl : Pagination := {|
  PageReq := nat; PageRes := unit;
  Paginate V items n := Ok (take n items, tt);
  FilteredPaginate V items n f := l ← filter_items f items; Ok (take n l, tt);
|}.
Proof.
  - intros V items n l res [= <- _]. exists (drop n items). by rewrite take_drop.
  - intros V items n f l res Hl. apply outcome_bind_ok in Hl as (l1 & Hl1 & Hl). injection Hl as <- _.
    destruct (filter_items_ok f items l1 Hl1) as [[rest Hp] Hall]. split; [|by apply Forall_take].
    exists (drop n l1 ++ rest). by rewrite app_assoc, take_drop.
Defined.

(** [prefix.NewStore]: the entries under a prefix, without it. *)
Definition prefix_store {V} (p : bytes) (m : gmap bytes V) : list (bytes * V) :=
  (fun kv => (drop (length p) kv.1, kv.2)) <$> store_prefix_items p m.

Lemma prefix_store_values {V} (p : bytes) (m : gmap bytes V) : (prefix_store p m).*2 = (store_prefix_items p m).*2.
Proof. unfold prefix_store. rewrite <- list_fmap_compose. done. Qed.

(** * Constants of the application (src/app/params/params.go) *)

(** Decimals are scaled by 10^18. *)
Definition DefaultBondDenom : string := "uopen".
Definition MicroCreditDenom : string := "ucredit".
Definition CreditFeeMultiplier : Z := 10.

(** "0.001" *)
Definition DefaultMinGasPrice : Z := 10 ^ 15.
Definition BlocksPerYear : Z := 31557600.
(** "0.02", "0.15", "0.13" and "0.13" *)
Definition InflationMin : Z := 2 * 10 ^ 16.
Definition InflationMax : Z := 15 * 10 ^ 16.
Definition InflationRateChange : Z := 13 * 10 ^ 16.
Definition InitialInflation : Z := 13 * 10 ^ 16.
