(* ===== verification/Sha256.v ===== *)
(** Go's crypto/sha256, encoding/hex and encoding/base32, with which the program
    names bearer tokens, posts and decisions: an executable SHA-256 (FIPS 180-4) on
    byte lists, lower-case hexadecimal text, and base 32 text.

    The lemmas: a digest has 32 bytes, its text 64 characters, and hexadecimal
    text determines the bytes. Test vectors check the functions. *)
From Stdlib Require Import Ascii ZArith Lia.
From stdpp Require Import base numbers list strings.
From S2P Require Import Prelude Sdk.

(** * Words of 32 bits *)

Definition word_mask : Z := 2 ^ 32 - 1.
Definition add_words (l : list Z) : Z := Z.land (Zsum l) word_mask.
Definition rotate (n x : Z) : Z :=
  Z.lor (Z.shiftr x n) (Z.land (Z.shiftl x (32 - n)) word_mask).
Definition xor3 (x y z : Z) : Z := Z.lxor x (Z.lxor y z).

Definition choose (e f g : Z) : Z := Z.lxor (Z.land e f) (Z.land (Z.lxor e word_mask) g).
Definition majority (a b c : Z) : Z := xor3 (Z.land a b) (Z.land a c) (Z.land b c).
Definition big_sigma0 (x : Z) : Z := xor3 (rotate 2 x) (rotate 13 x) (rotate 22 x).
Definition big_sigma1 (x : Z) : Z := xor3 (rotate 6 x) (rotate 11 x) (rotate 25 x).
Definition small_sigma0 (x : Z) : Z := xor3 (rotate 7 x) (rotate 18 x) (Z.shiftr x 3).
Definition small_sigma1 (x : Z) : Z := xor3 (rotate 17 x) (rotate 19 x) (Z.shiftr x 10).

(** The constants are the first 32 bits of the fractional parts of the cube roots
    of the first 64 primes, and those of the square roots of the first eight. *)
Definition is_prime (n : nat) : bool :=
  forallb (fun d => negb (Nat.eqb (n mod d) 0)) (seq 2 (n - 2)).
Definition primes : list Z := Eval vm_compute in Z.of_nat <$> filter is_prime (seq 2 310).

(** The cube root of [n] rounded down, bit by bit from bit [k - 1]. *)
Fixpoint cube_root (k : nat) (n acc : Z) : Z :=
  match k with
  | O => acc
  | S k' =>
      let next := acc + 2 ^ Z.of_nat k' in
      cube_root k' n (if next ^ 3 <=? n then next else acc)
  end.

Definition root_bits (root : Z) : Z := Z.land root word_mask.

Definition round_constants : list Z :=
  Eval vm_compute in (fun p => root_bits (cube_root 36 (p * 2 ^ 96) 0)) <$> primes.

Record HashState : Type := mkHashState {
  ha : Z; hb : Z; hc : Z; hd : Z; he : Z; hf : Z; hg : Z; hh : Z;
}.

Definition initial_hash : HashState :=
  Eval vm_compute in
  let h i := root_bits (Z.sqrt (nth i primes 0 * 2 ^ 64)) in
  mkHashState (h 0%nat) (h 1%nat) (h 2%nat) (h 3%nat) (h 4%nat) (h 5%nat) (h 6%nat) (h 7%nat).

(** * Blocks *)

(** The words of the message schedule, the latest first. *)
Definition next_word (ws : list Z) : Z :=
  add_words [small_sigma1 (nth 1 ws 0); nth 6 ws 0; small_sigma0 (nth 14 ws 0); nth 15 ws 0].

Fixpoint schedule (n : nat) (ws : list Z) : list Z :=
  match n with O => ws | S n' => schedule n' (next_word ws :: ws) end.

Definition hash_round (s : HashState) (kw : Z * Z) : HashState :=
  let t1 := add_words [hh s; big_sigma1 (he s); choose (he s) (hf s) (hg s); kw.1; kw.2] in
  let t2 := add_words [big_sigma0 (ha s); majority (ha s) (hb s) (hc s)] in
  mkHashState (add_words [t1; t2]) (ha s) (hb s) (hc s) (add_words [hd s; t1]) (he s) (hf s) (hg s).

Definition hash_block (s : HashState) (block : list Z) : HashState :=
  let r := foldl hash_round s (zip round_constants (rev (schedule 48 (rev block)))) in
  mkHashState (add_words [ha s; ha r]) (add_words [hb s; hb r]) (add_words [hc s; hc r])
    (add_words [hd s; hd r]) (add_words [he s; he r]) (add_words [hf s; hf r])
    (add_words [hg s; hg r]) (add_words [hh s; hh r]).

Fixpoint bytes_words (bs : bytes) : list Z :=
  match bs with
  | a :: b :: c :: d :: rest =>
      (Z_of_byte a * 2 ^ 24 + Z_of_byte b * 2 ^ 16 + Z_of_byte c * 2 ^ 8 + Z_of_byte d)
        :: bytes_words rest
  | _ => []
  end.

(** [n] blocks of 16 words. *)
Fixpoint word_blocks (n : nat) (ws : list Z) : list (list Z) :=
  match n with O => [] | S n' => take 16 ws :: word_blocks n' (drop 16 ws) end.

(** A one bit, zeros, and the length in bits as 64 bits fill the last block. *)
Definition pad_message (msg : bytes) : bytes :=
  let len := Z.of_nat (length msg) in
  msg ++ byte_of_Z 128 :: replicate (Z.to_nat ((55 - len) mod 64)) (byte_of_Z 0)
      ++ be_bytes 8 (8 * len).

Definition digest_bytes (s : HashState) : bytes :=
  concat (be_bytes 4 <$> [ha s; hb s; hc s; hd s; he s; hf s; hg s; hh s]).

(** [sha256.Sum256] *)
Definition sha256 (msg : bytes) : bytes :=
  let padded := pad_message msg in
  digest_bytes (foldl hash_block initial_hash (word_blocks (length padded / 64) (bytes_words padded))).

(** * Hexadecimal text *)

Definition hex_digit (z : Z) : ascii := byte_of_Z (if z <? 10 then 48 + z else 87 + z).

(** [hex.EncodeToString] *)
Definition hex_encode (bs : bytes) : bytes :=
  concat ((fun b => [hex_digit (Z_of_byte b / 16); hex_digit (Z_of_byte b mod 16)]) <$> bs).

(** * Facts *)

Lemma sha256_length msg : length (sha256 msg) = 32%nat.
Proof.
  unfold sha256, digest_bytes. cbv zeta.
  destruct (foldl _ _ _). cbn [fmap list_fmap concat ha hb hc hd he hf hg hh].
  rewrite !length_app, !be_bytes_length. done.
Qed.

Lemma hex_encode_length bs : length (hex_encode bs) = (2 * length bs)%nat.
Proof.
  unfold hex_encode. induction bs as [|b bs IH]; [done|].
  rewrite fmap_cons. simpl. rewrite IH. lia.
Qed.

Lemma hex_digit_inj a b : 0 <= a < 16 -> 0 <= b < 16 -> hex_digit a = hex_digit b -> a = b.
Proof.
  unfold hex_digit. intros Ha Hb Heq. apply (f_equal Z_of_byte) in Heq.
  destruct (Z.ltb_spec a 10), (Z.ltb_spec b 10); rewrite !Z_of_byte_of_Z in Heq by lia; lia.
Qed.

Lemma hex_encode_inj a b : hex_encode a = hex_encode b -> a = b.
Proof.
  revert b. induction a as [|x a IH]; intros [|y b]; try done. unfold hex_encode in *.
  rewrite !fmap_cons. cbn [concat app]. intros Heq. inversion Heq as [[H1 H2 H3]].
  pose proof (Z_of_byte_range x). pose proof (Z_of_byte_range y).
  apply hex_digit_inj in H1, H2; try (split; [apply Z.div_pos|apply Z.div_lt_upper_bound]; lia);
    try (apply Z.mod_pos_bound; lia).
  f_equal; [|by apply IH]. apply Z_of_byte_inj.
  pose proof (Z.div_mod (Z_of_byte x) 16). pose proof (Z.div_mod (Z_of_byte y) 16). lia.
Qed.

(** The test vectors of FIPS 180-4 for zero, one and two blocks. *)
Example sha256_empty :
  hex_encode (sha256 []) = lit "e3b0c44298fc1c149afbf4c8996fb92427ae41e4649b934ca495991b7852b855".
Proof. vm_compute. reflexivity. Qed.

Example sha256_abc :
  hex_encode (sha256 (lit "abc"))
    = lit "ba7816bf8f01cfea414140de5dae2223b00361a396177a9cb410ff61f20015ad".
Proof. vm_compute. reflexivity. Qed.

Example sha256_two_blocks :
  hex_encode (sha256 (lit "abcdbcdecdefdefgefghfghighijhijkijkljklmklmnlmnomnopnopq"))
    = lit "248d6a61d20638b8e5c026930c3e6039a33ce45964ff2167f6ecedd419db06c1".
Proof. vm_compute. reflexivity. Qed.

(** * encoding/base32 *)

Definition base32_alphabet : bytes := lit "ABCDEFGHIJKLMNOPQRSTUVWXYZ234567".

(** Five bytes, the missing ones zero, are eight characters; a shorter last group
    is filled up with equals signs. *)
Definition base32_group (bs : bytes) : bytes :=
  let v := foldl (fun acc b => acc * 256 + Z_of_byte b) 0 (bs ++ replicate (5 - length bs) (byte_of_Z 0)) in
  let chars := (fun i => nth (Z.to_nat (v / 32 ^ i mod 32)) base32_alphabet " "%char) <$> [7; 6; 5; 4; 3; 2; 1; 0] in
  let used := ((8 * length bs + 4) / 5)%nat in
  take used chars ++ replicate (8 - used) "="%char.

Fixpoint base32_encode (bs : bytes) : bytes :=
  match bs with
  | a :: b :: c :: d :: e :: rest => base32_group [a; b; c; d; e] ++ base32_encode rest
  | [] => []
  | _ => base32_group bs
  end.

Lemma base32_vector : base32_encode (lit "fooba") = lit "MZXW6YTB" /\ base32_encode (lit "foob") = lit "MZXW6YQ=".
Proof. split; vm_compute; reflexivity. Qed.
