(* ===== verification/Utils.v ===== *)
(** Text functions: what the program uses of Go's strings package, and the
    glob matcher of src/utils/glob.go.

    [Glob] cuts the pattern at its stars and looks for the pieces one after the
    other, each at its first occurrence. The theorem: it never slices out of
    range, and it decides exactly the relation in which a star stands for any
    text. *)
From Stdlib Require Import Ascii ZArith Lia.
From stdpp Require Import base numbers list strings.
From S2P Require Import Prelude.

(** * Go's strings package *)

Definition HasPrefix (s p : bytes) : bool := bool_decide (p `prefix_of` s).
Definition HasSuffix (s p : bytes) : bool := bool_decide (p `suffix_of` s).

(** [strings.Index]: the first occurrence, -1 when there is none. *)
Fixpoint Index (s sub : bytes) : Z :=
  if HasPrefix s sub then 0
  else match s with
       | [] => -1
       | _ :: s' => let i := Index s' sub in if i <? 0 then -1 else i + 1
       end.

(** [strings.Split] at a separator of one byte. *)
Fixpoint Split (sep : ascii) (s : bytes) : list bytes :=
  match s with
  | [] => [[]]
  | c :: s' =>
      if decide (c = sep) then [] :: Split sep s'
      else match Split sep s' with
           | part :: rest => (c :: part) :: rest
           | [] => [[c]]
           end
  end.

(** [strings.ReplaceAll] of one byte by another. *)
Definition ReplaceAll (s : bytes) (old new : ascii) : bytes :=
  (fun c => if decide (c = old) then new else c) <$> s.

(** [strings.TrimPrefix] and [strings.TrimLeft] with a set of bytes. *)
Definition TrimPrefix (s p : bytes) : bytes := if HasPrefix s p then drop (length p) s else s.

Fixpoint TrimLeft (s cutset : bytes) : bytes :=
  match s with
  | c :: s' => if decide (c ∈ cutset) then TrimLeft s' cutset else s
  | [] => []
  end.

(** Numbers in decimal, as [fmt.Sprintf] prints them. *)
Definition digit (d : Z) : ascii := byte_of_Z (48 + d).

(** [n] digits of a number, from the most significant one. *)
Fixpoint digits (n : nat) (z : Z) : bytes :=
  match n with
  | O => []
  | S n' => digit (z / 10 ^ Z.of_nat n') :: digits n' (z mod 10 ^ Z.of_nat n')
  end.

(** How many digits a number has; 0 has one. *)
Fixpoint digit_count (fuel : nat) (z : Z) : nat :=
  match fuel with
  | O => 1
  | S fuel => if z <? 10 then 1 else S (digit_count fuel (z / 10))
  end.

Definition show_nat (z : Z) : bytes := digits (digit_count (Z.to_nat (Z.log2 z)) z) z.

(** [s[i:]] *)
Definition slice_from (s : bytes) (i : Z) : outcome bytes :=
  if (0 <=? i) && (i <=? Z.of_nat (length s)) then Ok (drop (Z.to_nat i) s) else Panic.

(** * The matcher *)

Definition GLOB : ascii := "*".

(** The loop over the parts; [i] is its index, and the last part ends it. *)
Fixpoint glob_loop (leadingGlob trailingGlob : bool) (i : nat) (parts : list bytes) (subj : bytes)
    : outcome bool :=
  match parts with
  | [] => Ok false
  | [last] => Ok (trailingGlob || HasSuffix subj last)
  | part :: rest =>
      let idx := Index subj part in
      if (match i with O => negb leadingGlob && negb (idx =? 0) | _ => idx <? 0 end) then Ok false
      else
        subj' ← slice_from subj (idx + Z.of_nat (length part));
        glob_loop leadingGlob trailingGlob (S i) rest subj'
  end.

Definition Glob (pattern subj : bytes) : outcome bool :=
  if decide (pattern = []) then Ok (bool_decide (subj = pattern))
  else if decide (pattern = [GLOB]) then Ok true
  else
    let parts := Split GLOB pattern in
    if (length parts =? 1)%nat then Ok (bool_decide (subj = pattern))
    else glob_loop (HasPrefix pattern [GLOB]) (HasSuffix pattern [GLOB]) 0 parts subj.

(** * What it decides *)

(** A star stands for any text, every other byte for itself. *)
Inductive glob_match : bytes -> bytes -> Prop :=
  | glob_nil : glob_match [] []
  | glob_char c p s : c <> GLOB -> glob_match p s -> glob_match (c :: p) (c :: s)
  | glob_star p s1 s2 : glob_match p s2 -> glob_match (GLOB :: p) (s1 ++ s2).

(** The pieces after the first star, in order and apart, the last one at the end. *)
Fixpoint pieces (parts : list bytes) (s : bytes) : Prop :=
  match parts with
  | [] => False
  | [last] => last `suffix_of` s
  | part :: rest => exists a b, s = a ++ part ++ b /\ pieces rest b
  end.

Lemma pieces_app parts a s : pieces parts s -> pieces parts (a ++ s).
Proof.
  destruct parts as [|q [|q' rest]]; simpl; [done| |].
  - intros [k ->]. exists (a ++ k). by rewrite app_assoc.
  - intros (x & b & -> & Hb). exists (a ++ x), b. by rewrite app_assoc.
Qed.

Lemma Split_nonempty sep s : Split sep s <> [].
Proof. destruct s as [|c s]; simpl; [done|]. case_decide; [done|]. by destruct (Split sep s). Qed.

(** Matching is a match of the pieces. *)
Lemma glob_match_pieces p : forall s,
  glob_match p s <->
  match Split GLOB p with
  | [] => False
  | [q] => s = q
  | q :: rest => exists s', s = q ++ s' /\ pieces rest s'
  end.
Proof.
  induction p as [|c p IH]; intros s; simpl.
  { split; [by inversion 1|intros ->; constructor]. }
  pose proof (Split_nonempty GLOB p) as Hne. case_decide as Hc.
  - subst c. destruct (Split GLOB p) as [|q rest] eqn:E; [done|]. split.
    + inversion 1 as [| |p0 s1 s2 Hm]; subst; [done|]. apply IH in Hm. eexists. split; [done|].
      destruct rest as [|q' rest].
      * subst. by exists s1.
      * destruct Hm as (s' & -> & Hp). exists s1, s'. done.
    + intros (s' & -> & Hp). simpl. destruct rest as [|q' rest].
      * destruct Hp as [k ->]. constructor. by apply IH.
      * destruct Hp as (a & b & -> & Hb). constructor. apply IH. eauto.
  - destruct (Split GLOB p) as [|q rest] eqn:E; [done|]. split.
    + inversion 1 as [|c0 p0 s0 _ Hm|]; subst; [|done]. apply IH in Hm.
      destruct rest; [by subst|]. destruct Hm as (s' & -> & Hp). by exists s'.
    + intros Hm. destruct rest as [|q' rest].
      * subst s. constructor; [done|]. by apply IH.
      * destruct Hm as (s' & -> & Hp). constructor; [done|]. apply IH. eauto.
Qed.

(** [Index] finds the first occurrence. *)
Lemma Index_spec s sub :
  (Index s sub = -1 /\ forall a b, s <> a ++ sub ++ b) \/
  (exists a b, Index s sub = Z.of_nat (length a) /\ s = a ++ sub ++ b /\
     forall a' b', s = a' ++ sub ++ b' -> (length a <= length a')%nat).
Proof.
  induction s as [|c s IH]; simpl; unfold HasPrefix; case_bool_decide as Hp.
  - right. destruct Hp as [k Hk]. exists [], k. split_and!; [done|done|intros; simpl; lia].
  - left. split; [done|]. intros a b Heq. symmetry in Heq. apply app_eq_nil in Heq as [_ [-> ->]%app_eq_nil].
    apply Hp. by exists [].
  - right. destruct Hp as [k Hk]. exists [], k. split_and!; [done|done|intros; simpl; lia].
  - assert (Hcut : forall a b, c :: s = a ++ sub ++ b -> exists a', a = c :: a' /\ s = a' ++ sub ++ b).
    { intros [|x a] b Heq; simpl in Heq; [destruct Hp; by exists b|]. simplify_eq. by exists a. }
    destruct IH as [[-> Hno]|(a & b & -> & -> & Hmin)]; [left|right].
    + split; [done|]. intros a b (a' & -> & Hs)%Hcut. by apply (Hno a' b).
    + exists (c :: a), b. destruct (Z.ltb_spec (Z.of_nat (length a)) 0); [lia|].
      split_and!; [simpl; lia|done|]. intros a' b' (a'' & -> & Hs)%Hcut. simpl.
      specialize (Hmin a'' b' Hs). lia.
Qed.

Lemma Index_prefix s sub : Index s sub = 0 <-> sub `prefix_of` s.
Proof.
  destruct (Index_spec s sub) as [[-> Hno]|(a & b & -> & -> & Hmin)]; split; intros Hx.
  - done.
  - destruct Hx as [k ->]. by destruct (Hno [] k).
  - destruct a; [|done]. by exists b.
  - destruct Hx as [k Hk]. specialize (Hmin [] k Hk). simpl in Hmin. lia.
Qed.

Lemma slice_from_app (a b : bytes) : slice_from (a ++ b) (Z.of_nat (length a)) = Ok b.
Proof.
  unfold slice_from. rewrite length_app. rewrite (proj2 (Z.leb_le _ _)) by lia.
  rewrite (proj2 (Z.leb_le _ _)) by lia. simpl. by rewrite Nat2Z.id, drop_app_length.
Qed.

(** Taking the first occurrence loses nothing. *)
Lemma pieces_greedy q rest a b :
  rest <> [] -> (forall a' b', a ++ q ++ b = a' ++ q ++ b' -> (length a <= length a')%nat) ->
  pieces (q :: rest) (a ++ q ++ b) <-> pieces rest b.
Proof.
  intros Hr Hmin. destruct rest as [|q' rest]; [done|]. split.
  - intros (a' & b' & Heq & Hp). specialize (Hmin a' b' Heq).
    assert (Hsuf : b = take (length a' - length a) b ++ b').
    { rewrite <- (take_drop (length a' - length a) b) at 1. f_equal.
      apply (f_equal (drop (length a' + length q))) in Heq.
      rewrite !app_assoc, drop_app_ge in Heq by (rewrite length_app; lia).
      rewrite drop_app_length' in Heq by (rewrite length_app; lia).
      rewrite <- Heq. f_equal. rewrite length_app. lia. }
    rewrite Hsuf. by apply pieces_app.
  - intros Hp. exists a, b. done.
Qed.

Lemma glob_loop_cons lead trail i part q rest s :
  glob_loop lead trail i (part :: q :: rest) s =
    if (match i with O => negb lead && negb (Index s part =? 0) | _ => Index s part <? 0 end)
    then Ok false
    else slice_from s (Index s part + Z.of_nat (length part)) ≫= glob_loop lead trail (S i) (q :: rest).
Proof. done. Qed.

(** The loop after the first part. *)
Lemma glob_loop_pieces lead (trail : bool) parts : forall i s,
  parts <> [] -> (trail = true -> List.last parts [] = []) ->
  exists b, glob_loop lead trail (S i) parts s = Ok b /\ (b = true <-> pieces parts s).
Proof.
  induction parts as [|q [|q' rest] IH]; intros i s Hne Htrail; [done|..].
  - exists (trail || HasSuffix s q). split; [done|]. simpl. destruct trail; simpl.
    + rewrite (Htrail eq_refl : q = []). split; [intros _; apply suffix_nil|done].
    + unfold HasSuffix. apply bool_decide_eq_true.
  - rewrite glob_loop_cons. destruct (Index_spec s q) as [[-> Hno]|(a & b & -> & -> & Hmin)].
    + exists false. split; [done|]. split; [done|]. intros (a & b & -> & _). by destruct (Hno a b).
    + destruct (Z.ltb_spec (Z.of_nat (length a)) 0); [lia|].
      rewrite <- Nat2Z.inj_add, <- length_app, app_assoc, slice_from_app.
      destruct (IH (S i) b) as (r & Hloop & Hr); [done|done|]. cbn [mbind outcome_bind]. rewrite Hloop. exists r. split; [done|].
      rewrite Hr, <- app_assoc. symmetry. by apply pieces_greedy.
Qed.

Lemma Split_app sep k r : Split sep (k ++ sep :: r) = Split sep k ++ Split sep r.
Proof.
  induction k as [|c k IH]; simpl; [by rewrite decide_True|].
  rewrite IH. pose proof (Split_nonempty sep k). case_decide; [done|]. by destruct (Split sep k).
Qed.

Lemma Split_last_suffix p : [GLOB] `suffix_of` p -> List.last (Split GLOB p) [] = [].
Proof. intros [k ->]. rewrite Split_app. apply last_last. Qed.

Lemma Split_head_prefix p :
  [GLOB] `prefix_of` p <-> exists q rest, Split GLOB p = [] :: q :: rest.
Proof.
  destruct p as [|c p]; simpl.
  { split; [by intros [k Hk]|]. intros (q & rest & Heq). done. }
  pose proof (Split_nonempty GLOB p) as Hne. case_decide as Hc.
  - subst. destruct (Split GLOB p) as [|q rest]; [done|]. split; [eauto|intros _; by exists p].
  - split; [intros [k Hk]; by inversion Hk|]. intros (q & rest & Heq).
    destruct (Split GLOB p); simplify_eq.
Qed.

Lemma Split_single p q : Split GLOB p = [q] -> q = p.
Proof.
  revert q. induction p as [|c p IH]; intros q; simpl; [congruence|].
  pose proof (Split_nonempty GLOB p). case_decide; [intros; by simplify_eq|].
  destruct (Split GLOB p) as [|q0 rest]; [done|]. intros Heq. simplify_eq. by rewrite (IH q0).
Qed.

(** C33: [Glob] decides exactly the relation in which a star matches any text
    and every other byte itself, for every pattern and subject, and none of its
    slices is out of range. Taking each piece at its first occurrence, the
    special cases of the first and last piece, and the shortcuts for empty
    patterns and a lone star make no difference. *)
Theorem Glob_decides_match (pattern subj : bytes) :
  exists b, Glob pattern subj = Ok b /\ (b = true <-> glob_match pattern subj).
Proof.
  unfold Glob. destruct (decide (pattern = [])) as [->|Hne].
  { eexists. split; [done|]. rewrite bool_decide_eq_true, glob_match_pieces. done. }
  destruct (decide (pattern = [GLOB])) as [->|Hne2].
  { exists true. split; [done|]. split; [intros _|done].
    rewrite <- (app_nil_r subj). repeat constructor. }
  cbv zeta. setoid_rewrite glob_match_pieces. destruct (Split GLOB pattern) as [|q rest] eqn:E.
  { by destruct (Split_nonempty GLOB pattern). }
  destruct rest as [|q' rest]; cbn [length Nat.eqb].
  { apply Split_single in E as ->. eexists. split; [done|]. apply bool_decide_eq_true. }
  assert (Hlead : HasPrefix pattern [GLOB] = true -> q = []).
  { unfold HasPrefix. intros (q0 & r0 & E')%bool_decide_eq_true%Split_head_prefix. congruence. }
  assert (Htrail : HasSuffix pattern [GLOB] = true -> List.last (q' :: rest) [] = []).
  { unfold HasSuffix. intros Hs%bool_decide_eq_true%Split_last_suffix. by rewrite E in Hs. }
  rewrite glob_loop_cons. destruct (Z.eqb_spec (Index subj q) 0) as [H0|H0].
  - rewrite andb_false_r, H0. apply Index_prefix in H0 as [s' ->].
    rewrite Z.add_0_l, slice_from_app.
    destruct (glob_loop_pieces (HasPrefix pattern [GLOB]) (HasSuffix pattern [GLOB]) (q' :: rest) 0 s')
      as (b & Hloop & Hb); [done|done|]. cbn [mbind outcome_bind]. rewrite Hloop. exists b. split; [done|]. rewrite Hb. split; [eauto|].
    by intros (s'' & ?%app_inv_head & Hp); subst.
  - destruct (HasPrefix pattern [GLOB]).
    { destruct H0. apply Index_prefix. rewrite Hlead by done. apply prefix_nil. }
    exists false. split; [done|]. split; [done|]. intros (s' & -> & _). destruct H0.
    apply Index_prefix. by exists s'.
Qed.

(** * Decimal numbers *)

Lemma digits_length n z : length (digits n z) = n.
Proof. revert z. induction n as [|n IH]; intros z; simpl; [done|]. by rewrite IH. Qed.

Lemma Z_of_digit d : 0 <= d < 10 -> Z_of_byte (digit d) = 48 + d.
Proof. intros. unfold digit. apply Z_of_byte_of_Z. lia. Qed.

Lemma top_digit n z : 0 <= z < 10 ^ Z.of_nat (S n) ->
  0 <= z / 10 ^ Z.of_nat n < 10 /\ 0 <= z mod 10 ^ Z.of_nat n < 10 ^ Z.of_nat n.
Proof.
  rewrite Nat2Z.inj_succ, Z.pow_succ_r by lia. intros Hz. assert (0 < 10 ^ Z.of_nat n) by lia.
  split; [|by apply Z.mod_pos_bound]. split; [apply Z.div_pos; lia|apply Z.div_lt_upper_bound; lia].
Qed.

(** Texts of one length sort like the numbers. *)
Lemma digits_leb n : forall a b, 0 <= a < 10 ^ Z.of_nat n -> 0 <= b < 10 ^ Z.of_nat n ->
  bytes_leb (digits n a) (digits n b) = (a <=? b).
Proof.
  induction n as [|n IH]; intros a b Ha Hb.
  { simpl in *. symmetry. apply Z.leb_le. lia. }
  destruct (top_digit n a Ha) as [Da Ma], (top_digit n b Hb) as [Db Mb]. cbn [digits bytes_leb].
  rewrite !Z_of_digit, IH by done. set (p := 10 ^ Z.of_nat n) in *.
  pose proof (Z.div_mod a p ltac:(lia)). pose proof (Z.div_mod b p ltac:(lia)).
  destruct (Z.ltb_spec (48 + a / p) (48 + b / p)); [symmetry; apply Z.leb_le; nia|].
  destruct (Z.ltb_spec (48 + b / p) (48 + a / p)); [symmetry; apply Z.leb_gt; nia|].
  assert (Heq : a / p = b / p) by lia.
  destruct (Z.leb_spec (a mod p) (b mod p)); symmetry; [apply Z.leb_le|apply Z.leb_gt]; nia.
Qed.

Lemma digits_app n m : forall q r, 0 <= q < 10 ^ Z.of_nat n -> 0 <= r < 10 ^ Z.of_nat m ->
  digits n q ++ digits m r = digits (n + m) (q * 10 ^ Z.of_nat m + r).
Proof.
  induction n as [|n IH]; intros q r Hq Hr.
  { simpl in Hq. replace q with 0 by lia. done. }
  destruct (top_digit n q Hq) as [Hd Hm]. cbn [digits Nat.add app]. rewrite Nat2Z.inj_add, Z.pow_add_r by lia.
  set (b := 10 ^ Z.of_nat m) in *. set (c := 10 ^ Z.of_nat n) in *.
  assert (Hb : 0 < b) by lia. assert (Hc : 0 < c) by lia.
  pose proof (Z.div_mod q c ltac:(lia)) as Hdm.
  assert (Hcb : 0 < c * b) by nia.
  assert (Hin : 0 <= q mod c * b + r < c * b) by nia.
  assert (Heq : q * b + r = q / c * (c * b) + (q mod c * b + r)) by nia.
  rewrite Heq, Z.div_add_l, (Z.div_small (q mod c * b + r)), Z.add_0_r by lia.
  rewrite (Z.add_comm (q / c * (c * b))), Z.mod_add, (Z.mod_small (q mod c * b + r)) by lia. f_equal. by apply IH.
Qed.

Lemma filter_digits n : forall z, 0 <= z < 10 ^ Z.of_nat n ->
  filter (fun c => c <> "."%char) (digits n z) = digits n z.
Proof.
  induction n as [|n IH]; intros z Hz; [done|]. destruct (top_digit n z Hz) as [Hd Hm]. cbn [digits].
  rewrite filter_cons_True; [by rewrite IH|]. intros Heq. apply (f_equal Z_of_byte) in Heq.
  rewrite Z_of_digit in Heq by done. change (Z_of_byte ".") with 46 in Heq. lia.
Qed.

Lemma digit_count_spec fuel : forall z, 0 <= z < 2 ^ Z.of_nat (S fuel) ->
  (1 <= digit_count fuel z)%nat /\ z < 10 ^ Z.of_nat (digit_count fuel z) /\
  (digit_count fuel z = 1%nat \/ 10 ^ Z.of_nat (digit_count fuel z - 1) <= z).
Proof.
  induction fuel as [|fuel IH]; intros z Hz; cbn [digit_count].
  { change (2 ^ Z.of_nat 1) with 2 in Hz. change (10 ^ Z.of_nat 1) with 10. lia. }
  destruct (Z.ltb_spec z 10); [change (10 ^ Z.of_nat 1) with 10; lia|].
  rewrite Nat2Z.inj_succ, Z.pow_succ_r in Hz by lia.
  destruct (IH (z / 10)) as (C1 & C2 & C3).
  { split; [apply Z.div_pos; lia|]. apply Z.div_lt_upper_bound; [lia|].
    assert (0 < 2 ^ Z.of_nat (S fuel)) by lia. lia. }
  pose proof (Z.div_mod z 10 ltac:(lia)). pose proof (Z.mod_pos_bound z 10 ltac:(lia)).
  set (k := digit_count fuel (z / 10)) in *. split; [lia|].
  rewrite Nat2Z.inj_succ, Z.pow_succ_r by lia. split; [lia|]. right.
  replace (S k - 1)%nat with (S (k - 1)) by lia. rewrite Nat2Z.inj_succ, Z.pow_succ_r by lia.
  destruct C3 as [C3|C3]; [rewrite C3; simpl; lia|lia].
Qed.

Lemma show_count z : 0 <= z -> let n := digit_count (Z.to_nat (Z.log2 z)) z in
  (1 <= n)%nat /\ z < 10 ^ Z.of_nat n /\ (n = 1%nat \/ 10 ^ Z.of_nat (n - 1) <= z).
Proof.
  intros Hz. apply digit_count_spec. split; [done|].
  rewrite Nat2Z.inj_succ, Z2Nat.id by apply Z.log2_nonneg.
  destruct (decide (z = 0)) as [->|]; [done|]. apply Z.log2_spec. lia.
Qed.

(** A number has only one text without leading zeros. *)
Lemma show_digits z n : 0 <= z < 10 ^ Z.of_nat n -> (1 <= n)%nat -> (n = 1%nat \/ 10 ^ Z.of_nat (n - 1) <= z) ->
  show_nat z = digits n z.
Proof.
  intros Hz Hn Hlow. unfold show_nat. destruct (show_count z (proj1 Hz)) as (H1 & H2 & H3).
  set (k := digit_count _ z) in *. enough (k = n) as -> by done.
  destruct (Nat.lt_trichotomy k n) as [Hk|[Hk|Hk]]; [|done|].
  - destruct Hlow as [->|Hlow]; [lia|]. assert (10 ^ Z.of_nat k <= 10 ^ Z.of_nat (n - 1)) by (apply Z.pow_le_mono_r; lia). lia.
  - destruct H3 as [H3|H3]; [lia|]. assert (10 ^ Z.of_nat n <= 10 ^ Z.of_nat (k - 1)) by (apply Z.pow_le_mono_r; lia). lia.
Qed.

Lemma show_nat_spec z : 0 <= z -> let n := length (show_nat z) in
  show_nat z = digits n z /\ (1 <= n)%nat /\ z < 10 ^ Z.of_nat n /\ (n = 1%nat \/ 10 ^ Z.of_nat (n - 1) <= z).
Proof.
  intros Hz. destruct (show_count z Hz) as (H1 & H2 & H3). cbv zeta.
  assert (Hl : length (show_nat z) = digit_count (Z.to_nat (Z.log2 z)) z) by (unfold show_nat; apply digits_length).
  rewrite Hl. done.
Qed.

(** A digit after a number, and a digit before it. *)
Lemma show_nat_snoc q r : 1 <= q -> 0 <= r < 10 -> show_nat (10 * q + r) = show_nat q ++ [digit r].
Proof.
  intros Hq Hr. destruct (show_nat_spec q) as (Hs & H1 & H2 & H3); [lia|]. set (n := length (show_nat q)) in *.
  rewrite Hs. assert (Hd : digits 1 r = [digit r]) by (simpl; by rewrite Z.div_1_r). rewrite <- Hd.
  rewrite digits_app by (change (10 ^ Z.of_nat 1) with 10; lia). change (10 ^ Z.of_nat 1) with 10.
  rewrite Z.mul_comm. replace (n + 1)%nat with (S n) by lia. apply show_digits; [|lia|right].
  - rewrite Nat2Z.inj_succ, Z.pow_succ_r by lia. lia.
  - replace (S n - 1)%nat with (S (n - 1)) by lia. rewrite Nat2Z.inj_succ, Z.pow_succ_r by lia.
    destruct H3 as [->|H3]; [simpl; lia|lia].
Qed.

Lemma show_nat_cons r h : 1 <= r < 10 -> 0 <= h ->
  show_nat (r * 10 ^ Z.of_nat (length (show_nat h)) + h) = digit r :: show_nat h.
Proof.
  intros Hr Hh. destruct (show_nat_spec h Hh) as (Hs & H1 & H2 & H3). set (n := length (show_nat h)) in *.
  rewrite Hs. assert (Hd : digits 1 r = [digit r]) by (simpl; by rewrite Z.div_1_r).
  change (digit r :: digits n h) with ([digit r] ++ digits n h). rewrite <- Hd.
  rewrite digits_app by (change (10 ^ Z.of_nat 1) with 10; lia). apply show_digits; [|lia|right].
  - rewrite Nat2Z.inj_add, Z.pow_add_r by lia. change (10 ^ Z.of_nat 1) with 10. nia.
  - replace (1 + n - 1)%nat with n by lia. nia.
Qed.
