(* ===== verification/Json.v ===== *)
(** What the program uses of Go's encoding/json: decoding a text into a map, and
    into a struct of strings and 64-bit integers.

    [json_parse] follows the grammar of the package's scanner (white space,
    nesting of at most 10000, numbers without leading zeros, no control
    characters in strings) and unquotes strings as it does: broken UTF-8 and
    unpaired surrogates become the replacement character. Keys are matched to
    field names exactly or up to letter case, the last one wins, [null] leaves a
    field as it is, and a value of another type is an error.

    The parser runs on fuel; [json_fuel] shows that the fuel [json_parse] gives
    it is always enough. *)
From Stdlib Require Import Ascii ZArith Lia.
From stdpp Require Import base numbers list strings.
From S2P Require Import Prelude.

(** * Values *)

#[local] Unset Elimination Schemes.
Inductive json : Type :=
  | JNull
  | JBool (b : bool)
  | JNum (literal : bytes)
  | JStr (s : bytes)
  | JArr (l : list json)
  | JObj (l : list (bytes * json)).
#[local] Set Elimination Schemes.

Definition byte_in (lo hi : Z) (c : ascii) : bool := (lo <=? Z_of_byte c) && (Z_of_byte c <=? hi).
Definition is_digit : ascii -> bool := byte_in 48 57.
Definition is_cont : ascii -> bool := byte_in 128 191.
Definition byte_is (n : Z) (c : ascii) : bool := Z_of_byte c =? n.

(** ** UTF-8 and UTF-16 *)

(** [utf8.DecodeRune] on a byte of 128 or more: the length of the sequence that
    starts here, 0 when it is broken. *)
Definition rune_size (s : bytes) : nat :=
  match s with
  | c0 :: c1 :: rest =>
      if byte_in 194 223 c0 then if is_cont c1 then 2 else 0
      else
        match rest with
        | c2 :: rest' =>
            if byte_in 224 239 c0 then
              if is_cont c2 &&
                 (if byte_is 224 c0 then byte_in 160 191 c1
                  else if byte_is 237 c0 then byte_in 128 159 c1 else is_cont c1)
              then 3 else 0
            else
              match rest' with
              | c3 :: _ =>
                  if byte_in 240 244 c0 && is_cont c2 && is_cont c3 &&
                     (if byte_is 240 c0 then byte_in 144 191 c1
                      else if byte_is 244 c0 then byte_in 128 143 c1 else is_cont c1)
                  then 4 else 0
              | [] => 0
              end
        | [] => 0
        end
  | _ => 0
  end%nat.

(** [utf8.EncodeRune] of a rune that is not a surrogate. *)
Definition encode_rune (r : Z) : bytes :=
  if r <? 128 then [byte_of_Z r]
  else if r <? 2048 then [byte_of_Z (192 + r / 64); byte_of_Z (128 + r mod 64)]
  else if r <? 65536 then
    [byte_of_Z (224 + r / 4096); byte_of_Z (128 + r / 64 mod 64); byte_of_Z (128 + r mod 64)]
  else [byte_of_Z (240 + r / 262144); byte_of_Z (128 + r / 4096 mod 64);
        byte_of_Z (128 + r / 64 mod 64); byte_of_Z (128 + r mod 64)].

Definition replacement : bytes := encode_rune 65533.

Definition hex_value (c : ascii) : option Z :=
  if is_digit c then Some (Z_of_byte c - 48)
  else if byte_in 97 102 c then Some (Z_of_byte c - 87)
  else if byte_in 65 70 c then Some (Z_of_byte c - 55)
  else None.

(** Four hexadecimal digits. *)
Definition hex4 (s : bytes) : option (Z * bytes) :=
  match s with
  | a :: b :: c :: d :: rest =>
      x ← hex_value a; y ← hex_value b; z ← hex_value c; w ← hex_value d;
      Some (((x * 16 + y) * 16 + z) * 16 + w, rest)
  | _ => None
  end.

Definition high_surrogate (r : Z) : bool := (55296 <=? r) && (r <? 56320).
Definition low_surrogate (r : Z) : bool := (56320 <=? r) && (r <? 57344).

(** The escape \uXXXX after its [u], with a second one when the two make a pair. *)
Definition unicode_escape (s : bytes) : option (bytes * bytes) :=
  p ← hex4 s;
  let '(r, rest) := p in
  if high_surrogate r then
    match rest with
    | c0 :: c1 :: rest1 =>
        match (if byte_is 92 c0 && byte_is 117 c1 then hex4 rest1 else None) with
        | Some (r2, rest2) =>
            if low_surrogate r2
            then Some (encode_rune (65536 + (r - 55296) * 1024 + (r2 - 56320)), rest2)
            else Some (replacement, rest)
        | None => Some (replacement, rest)
        end
    | _ => Some (replacement, rest)
    end
  else if low_surrogate r then Some (replacement, rest)
  else Some (encode_rune r, rest).

Definition simple_escape (c : ascii) : option ascii :=
  let z := Z_of_byte c in
  if (z =? 34) || (z =? 92) || (z =? 47) then Some c
  else if z =? 98 then Some (byte_of_Z 8)
  else if z =? 102 then Some (byte_of_Z 12)
  else if z =? 110 then Some (byte_of_Z 10)
  else if z =? 114 then Some (byte_of_Z 13)
  else if z =? 116 then Some (byte_of_Z 9)
  else None.

(** One character of a string body that is not its closing quote. *)
Definition string_char (c : ascii) (rest : bytes) : option (bytes * bytes) :=
  if Z_of_byte c <? 32 then None
  else if byte_is 92 c then
    match rest with
    | e :: rest' =>
        if byte_is 117 e then unicode_escape rest'
        else x ← simple_escape e; Some ([x], rest')
    | [] => None
    end
  else if Z_of_byte c <? 128 then Some ([c], rest)
  else match rune_size (c :: rest) with
       | O => Some (replacement, rest)
       | S n => Some (c :: take n rest, drop n rest)
       end.

(** A string after its opening quote. *)
Fixpoint json_string (fuel : nat) (s : bytes) : option (bytes * bytes) :=
  match fuel, s with
  | S fuel, c :: rest =>
      if byte_is 34 c then Some ([], rest)
      else
        p ← string_char c rest;
        q ← json_string fuel p.2;
        Some (p.1 ++ q.1, q.2)
  | _, _ => None
  end.

(** ** Numbers *)

Fixpoint span_digits (s : bytes) : bytes * bytes :=
  match s with
  | c :: rest => if is_digit c then let '(d, r) := span_digits rest in (c :: d, r) else ([], s)
  | [] => ([], [])
  end.

(** At least one digit. *)
Definition digits1 (s : bytes) : option (bytes * bytes) :=
  match span_digits s with ([], _) => None | p => Some p end.

Definition int_part (s : bytes) : option (bytes * bytes) :=
  match s with
  | c :: rest => if byte_is 48 c then Some ([c], rest) else digits1 s
  | [] => None
  end.

Definition frac_part (s : bytes) : option (bytes * bytes) :=
  match s with
  | c :: rest => if byte_is 46 c then p ← digits1 rest; Some (c :: p.1, p.2) else Some ([], s)
  | [] => Some ([], [])
  end.

Definition exp_part (s : bytes) : option (bytes * bytes) :=
  match s with
  | c :: rest =>
      if byte_is 101 c || byte_is 69 c then
        match rest with
        | sign :: rest' =>
            if byte_is 43 sign || byte_is 45 sign
            then p ← digits1 rest'; Some (c :: sign :: p.1, p.2)
            else p ← digits1 rest; Some (c :: p.1, p.2)
        | [] => None
        end
      else Some ([], s)
  | [] => Some ([], [])
  end.

Definition json_number (s : bytes) : option (bytes * bytes) :=
  let '(sign, s1) := match s with
                     | c :: rest => if byte_is 45 c then ([c], rest) else ([], s)
                     | [] => ([], [])
                     end in
  i ← int_part s1; f ← frac_part i.2; e ← exp_part f.2;
  Some (sign ++ i.1 ++ f.1 ++ e.1, e.2).

(** ** Values *)

Definition is_space (c : ascii) : bool :=
  byte_is 32 c || byte_is 9 c || byte_is 10 c || byte_is 13 c.

Fixpoint skip_space (s : bytes) : bytes :=
  match s with
  | c :: rest => if is_space c then skip_space rest else s
  | [] => []
  end.

(** The next byte after white space, and what follows it. *)
Definition next_byte (s : bytes) : option (ascii * bytes) :=
  match skip_space s with c :: rest => Some (c, rest) | [] => None end.

Definition max_depth : Z := 10000.

Definition keyword (word : string) (v : json) (s : bytes) : option (json * bytes) :=
  if decide (lit word `prefix_of` s) then Some (v, drop (length (lit word)) s) else None.

(** A value, and the rest of an array or object after its opening bracket or
    after a comma. *)
Fixpoint json_value (fuel : nat) (depth : Z) (s : bytes) : option (json * bytes) :=
  match fuel with
  | O => None
  | S fuel =>
      let s := skip_space s in
      match s with
      | [] => None
      | c :: rest =>
          if byte_is 34 c then p ← json_string (length rest) rest; Some (JStr p.1, p.2)
          else if byte_is 91 c then
            if depth + 1 <=? max_depth then
              n ← next_byte rest;
              if byte_is 93 n.1 then Some (JArr [], n.2)
              else p ← json_elements fuel (depth + 1) rest; Some (JArr p.1, p.2)
            else None
          else if byte_is 123 c then
            if depth + 1 <=? max_depth then
              n ← next_byte rest;
              if byte_is 125 n.1 then Some (JObj [], n.2)
              else p ← json_members fuel (depth + 1) rest; Some (JObj p.1, p.2)
            else None
          else if byte_is 116 c then keyword "true" (JBool true) s
          else if byte_is 102 c then keyword "false" (JBool false) s
          else if byte_is 110 c then keyword "null" JNull s
          else p ← json_number s; Some (JNum p.1, p.2)
      end
  end
with json_elements (fuel : nat) (depth : Z) (s : bytes) : option (list json * bytes) :=
  match fuel with
  | O => None
  | S fuel =>
      v ← json_value fuel depth s;
      n ← next_byte v.2;
      if byte_is 93 n.1 then Some ([v.1], n.2)
      else if byte_is 44 n.1 then
        p ← json_elements fuel depth n.2; Some (v.1 :: p.1, p.2)
      else None
  end
with json_members (fuel : nat) (depth : Z) (s : bytes) : option (list (bytes * json) * bytes) :=
  match fuel with
  | O => None
  | S fuel =>
      q ← next_byte s;
      if byte_is 34 q.1 then
        k ← json_string (length q.2) q.2;
        colon ← next_byte k.2;
        if byte_is 58 colon.1 then
          v ← json_value fuel depth colon.2;
          n ← next_byte v.2;
          if byte_is 125 n.1 then Some ([(k.1, v.1)], n.2)
          else if byte_is 44 n.1 then
            p ← json_members fuel depth n.2; Some ((k.1, v.1) :: p.1, p.2)
          else None
        else None
      else None
  end.

Definition json_parse (s : bytes) : option json :=
  p ← json_value (2 * length s + 1) 0 s;
  match skip_space p.2 with [] => Some p.1 | _ => None end.

(** ** The fuel is enough *)

Lemma skip_space_length s : (length (skip_space s) <= length s)%nat.
Proof. induction s as [|c s IH]; simpl; [done|]. case_match; simpl; lia. Qed.

Lemma next_byte_length s n : next_byte s = Some n -> (length n.2 < length s)%nat.
Proof.
  unfold next_byte. pose proof (skip_space_length s) as Hs. destruct (skip_space s) as [|c r]; [done|].
  simpl in Hs. intros [= <-]. simpl. lia.
Qed.

Lemma hex4_length s p : hex4 s = Some p -> (length p.2 < length s)%nat.
Proof.
  unfold hex4. destruct s as [|a [|b [|c [|d s]]]]; simpl; try done.
  intros H. repeat (apply bind_Some in H as (? & _ & H)). simplify_eq. simpl. lia.
Qed.

Lemma unicode_escape_length s p : unicode_escape s = Some p -> (length p.2 < length s)%nat.
Proof.
  unfold unicode_escape. intros ([r rest] & Hp%hex4_length & H)%bind_Some. simpl in Hp.
  repeat case_match; simplify_eq; simpl in *; try lia.
  all: match goal with E : hex4 _ = Some _ |- _ => apply hex4_length in E; simpl in *; lia end.
Qed.

Lemma string_char_length c rest p : string_char c rest = Some p -> (length p.2 <= length rest)%nat.
Proof.
  unfold string_char. intros H. repeat case_match; simplify_eq; simpl; rewrite ?length_drop; try lia.
  - apply unicode_escape_length in H. lia.
  - apply bind_Some in H as (? & _ & ?). simplify_eq. simpl. lia.
Qed.

Lemma json_string_length fuel : forall s p, json_string fuel s = Some p -> (length p.2 < length s)%nat.
Proof.
  induction fuel as [|fuel IH]; intros [|c s] p; simpl; try done. case_match.
  - intros [= <-]. simpl. lia.
  - intros (x & Hx%string_char_length & (q & Hq%IH & [= <-])%bind_Some)%bind_Some. simpl. lia.
Qed.

Lemma span_digits_length s : (length (span_digits s).2 <= length s)%nat.
Proof.
  induction s as [|c s IH]; simpl; [done|]. case_match; simpl; [|lia].
  destruct (span_digits s). simpl in *. lia.
Qed.

Lemma digits1_length s p : digits1 s = Some p -> (length p.2 < length s)%nat.
Proof.
  unfold digits1. destruct s as [|c s]; simpl; [done|]. destruct (is_digit c); [|done].
  pose proof (span_digits_length s). destruct (span_digits s) as [d r]. intros [= <-]. simpl in *. lia.
Qed.

Lemma json_number_length s p : json_number s = Some p -> (length p.2 < length s)%nat.
Proof.
  unfold json_number. destruct (match s with [] => _ | _ => _ end) as [sign s1] eqn:Es.
  assert (Hs : (length s1 <= length s)%nat) by (repeat case_match; simplify_eq; simpl; lia).
  intros (i & Hi & (f & Hf & (e & He & [= <-])%bind_Some)%bind_Some)%bind_Some. simpl.
  assert (length i.2 < length s1)%nat.
  { unfold int_part in Hi. destruct s1 as [|c s1]; [done|]. destruct (byte_is 48 c).
    - simplify_eq. simpl. lia.
    - by apply digits1_length in Hi. }
  assert (length f.2 <= length i.2)%nat.
  { unfold frac_part in Hf. destruct i.2 as [|c r]; [by simplify_eq|]. destruct (byte_is 46 c).
    - apply bind_Some in Hf as (d & Hd%digits1_length & [= <-]). simpl. lia.
    - by simplify_eq. }
  assert (length e.2 <= length f.2)%nat; [|lia].
  unfold exp_part in He. destruct f.2 as [|c [|sg r]]; [by simplify_eq|..].
  - destruct (_ || _); by simplify_eq.
  - destruct (byte_is 101 c || _); [|by simplify_eq].
    destruct (byte_is 43 sg || _); apply bind_Some in He as (d & Hd%digits1_length & [= <-]);
      simpl in *; lia.
Qed.

Lemma keyword_length word v s p : lit word <> [] -> keyword word v s = Some p ->
  (length p.2 < length s)%nat.
Proof.
  unfold keyword. intros Hw. case_decide as Hp; [|done]. intros [= <-]. simpl. rewrite length_drop.
  apply prefix_length in Hp. destruct (lit word); [done|]. simpl in *. lia.
Qed.

(** A successful parse consumes something. *)
Lemma json_length fuel : forall depth s,
  (forall p, json_value fuel depth s = Some p -> (length p.2 < length s)%nat) /\
  (forall p, json_elements fuel depth s = Some p -> (length p.2 < length s)%nat) /\
  (forall p, json_members fuel depth s = Some p -> (length p.2 < length s)%nat).
Proof.
  induction fuel as [|fuel IH]; intros depth s; [done|]. simpl. split_and!; intros p.
  - pose proof (skip_space_length s) as Hs. destruct (skip_space s) as [|c rest] eqn:Es; [done|].
    rewrite <- Es in *. rewrite Es in Hs. simpl in Hs.
    repeat case_match; try done; intros Hp.
    + apply bind_Some in Hp as (q & Hq%json_string_length & [= <-]). simpl. lia.
    + apply bind_Some in Hp as (q & Hq%next_byte_length & Hp). case_match; simplify_eq; simpl; [lia|].
      apply bind_Some in Hp as (r & Hr%IH & [= <-]). simpl. lia.
    + apply bind_Some in Hp as (q & Hq%next_byte_length & Hp). case_match; simplify_eq; simpl; [lia|].
      apply bind_Some in Hp as (r & Hr%IH & [= <-]). simpl. lia.
    + apply keyword_length in Hp; [|done]. rewrite Es in Hp. simpl in Hp. lia.
    + apply keyword_length in Hp; [|done]. rewrite Es in Hp. simpl in Hp. lia.
    + apply keyword_length in Hp; [|done]. rewrite Es in Hp. simpl in Hp. lia.
    + apply bind_Some in Hp as (q & Hq%json_number_length & [= <-]). rewrite Es in Hq. simpl in *. lia.
  - intros (v & Hv%IH & (n & Hn%next_byte_length & Hp)%bind_Some)%bind_Some.
    repeat case_match; simplify_eq; simpl; [lia|].
    apply bind_Some in Hp as (r & Hr%IH & [= <-]). simpl. lia.
  - intros (q & Hq%next_byte_length & Hp)%bind_Some. case_match; [|done].
    apply bind_Some in Hp as (k & Hk%json_string_length & Hp).
    apply bind_Some in Hp as (co & Hc%next_byte_length & Hp). case_match; [|done].
    apply bind_Some in Hp as (v & Hv%IH & Hp). apply bind_Some in Hp as (n & Hn%next_byte_length & Hp).
    repeat case_match; simplify_eq; simpl; [lia|].
    apply bind_Some in Hp as (r & Hr%IH & [= <-]). simpl. lia.
Qed.

Lemma json_string_fuel n : forall m s, (length s <= n)%nat -> (n <= m)%nat ->
  json_string n s = json_string m s.
Proof.
  induction n as [|n IH]; intros m [|c s] Hs Hm; simpl in *; try lia.
  { by destruct m. }
  { by destruct m. }
  destruct m as [|m]; [lia|]. simpl. destruct (byte_is 34 c); [done|].
  destruct (string_char c s) as [p|] eqn:Ep; simpl; [|done]. apply string_char_length in Ep.
  by rewrite (IH m p.2) by lia.
Qed.

Lemma json_fuel n : forall m depth s, (n <= m)%nat ->
  ((2 * length s + 1 <= n)%nat -> json_value n depth s = json_value m depth s) /\
  ((2 * length s + 2 <= n)%nat -> json_elements n depth s = json_elements m depth s) /\
  ((2 * length s + 2 <= n)%nat -> json_members n depth s = json_members m depth s).
Proof.
  induction n as [|n IH]; intros m depth s Hm; [split_and!; lia|].
  destruct m as [|m]; [lia|]. apply le_S_n in Hm. simpl. split_and!; intros Hs.
  - pose proof (skip_space_length s) as Hl. destruct (skip_space s) as [|c rest]; [done|].
    simpl in Hl. destruct (byte_is 34 c); [done|].
    destruct (IH m (depth + 1) rest Hm) as (_ & He & Hk). rewrite He, Hk by lia. done.
  - destruct (IH m depth s Hm) as (Hv & _). rewrite <- Hv by lia.
    destruct (json_value n depth s) as [v|] eqn:Ev; simpl; [|done]. apply json_length in Ev.
    destruct (next_byte v.2) as [b|] eqn:Eb; simpl; [|done]. apply next_byte_length in Eb.
    destruct (byte_is 93 b.1); [done|]. destruct (byte_is 44 b.1); [|done].
    destruct (IH m depth b.2 Hm) as (_ & He & _). by rewrite He by lia.
  - destruct (next_byte s) as [q|] eqn:Eq; simpl; [|done]. apply next_byte_length in Eq.
    destruct (byte_is 34 q.1); [|done].
    destruct (json_string _ q.2) as [k|] eqn:Ek; simpl; [|done]. apply json_string_length in Ek.
    destruct (next_byte k.2) as [co|] eqn:Ec; simpl; [|done]. apply next_byte_length in Ec.
    destruct (byte_is 58 co.1); [|done].
    destruct (IH m depth co.2 Hm) as (Hv & _). rewrite <- Hv by lia.
    destruct (json_value n depth co.2) as [v|] eqn:Ev; simpl; [|done]. apply json_length in Ev.
    destruct (next_byte v.2) as [b|] eqn:Eb; simpl; [|done]. apply next_byte_length in Eb.
    destruct (byte_is 125 b.1); [done|]. destruct (byte_is 44 b.1); [|done].
    destruct (IH m depth b.2 Hm) as (_ & _ & He). by rewrite He by lia.
Qed.

(** * Decoding *)

(** [strconv.ParseFloat] fails on a literal beyond the range of a float64: from
    halfway between the largest one and 2^1024 on. *)
Definition digits_value (s : bytes) : Z := foldl (fun n c => n * 10 + (Z_of_byte c - 48)) 0 s.

Definition float_overflows (literal : bytes) : bool :=
  let s := match literal with c :: r => if byte_is 45 c then r else literal | [] => [] end in
  let '(int, s1) := span_digits s in
  let '(frac, s2) := match s1 with
                     | c :: r => if byte_is 46 c then span_digits r else ([], s1)
                     | [] => ([], [])
                     end in
  let exp := match s2 with
             | _ :: sign :: r =>
                 if byte_is 45 sign then - digits_value r
                 else if byte_is 43 sign then digits_value r else digits_value (sign :: r)
             | _ => 0
             end in
  let m := digits_value (int ++ frac) in
  let e := exp - Z.of_nat (length frac) in
  let limit := 2 ^ 1024 - 2 ^ 970 in
  if m =? 0 then false
  else if 400 <? e then true
  else if 0 <=? e then limit <=? m * 10 ^ e
  else if e <? - (Z.of_nat (length (int ++ frac))) then false
  else limit * 10 ^ (- e) <=? m.

(** Decoding into an [any] fails on such a number, at any depth. *)
Fixpoint decodes_any (v : json) : bool :=
  match v with
  | JNum literal => negb (float_overflows literal)
  | JArr l => forallb decodes_any l
  | JObj l => forallb (fun kv => decodes_any kv.2) l
  | _ => true
  end.

(** [json.Unmarshal] into a [map[string]any], of which the program only asks
    which keys are there. *)
Definition unmarshal_keys (text : bytes) : option (list bytes) :=
  v ← json_parse text;
  match v with
  | JNull => Some []
  | JObj l => if decodes_any v then Some l.*1 else None
  | _ => None
  end.

(** [strconv.ParseInt] of a JSON number, into 64 bits. *)
Definition parse_int64 (literal : bytes) : option Z :=
  let '(sign, s) := match literal with
                    | c :: r => if byte_is 45 c then (-1, r) else (1, literal)
                    | [] => (1, [])
                    end in
  match span_digits s with
  | (d, []) => let n := sign * digits_value d in if is_int64 n then Some n else None
  | _ => None
  end.

(** Field names are compared up to case. Besides the capitals, two characters
    outside ASCII fold to a letter: the long s and the Kelvin sign. *)
Fixpoint fold_name (s : bytes) : bytes :=
  match s with
  | [] => []
  | c :: rest =>
      if byte_in 65 90 c then byte_of_Z (Z_of_byte c + 32) :: fold_name rest
      else
        match rest with
        | c1 :: rest1 =>
            if byte_is 197 c && byte_is 191 c1 then byte_of_Z 115 :: fold_name rest1
            else
              match rest1 with
              | c2 :: rest2 =>
                  if byte_is 226 c && byte_is 132 c1 && byte_is 170 c2
                  then byte_of_Z 107 :: fold_name rest2
                  else c :: fold_name rest
              | [] => c :: fold_name rest
              end
        | [] => [c]
        end
  end.

(** The field of a struct that a key is decoded into: an exact match first. *)
Definition field_of (names : list string) (key : bytes) : option string :=
  match list_find (fun n => lit n = key) names with
  | Some (_, n) => Some n
  | None => snd <$> list_find (fun n => fold_name (lit n) = fold_name key) names
  end.

(** Setting a field: [set] knows the fields and their types, and fails on a value
    of another type. *)
Definition unmarshal_struct {A} (names : list string) (set : string -> json -> A -> option A)
    (zero : A) (text : bytes) : option A :=
  v ← json_parse text;
  match v with
  | JNull => Some zero
  | JObj l =>
      foldl (fun acc kv => a ← acc; match field_of names kv.1 with
                                    | Some n => set n kv.2 a
                                    | None => Some a
                                    end) (Some zero) l
  | _ => None
  end.

(** The two types of fields. *)
Definition set_string {A} (put : bytes -> A -> A) (v : json) (a : A) : option A :=
  match v with JStr s => Some (put s a) | JNull => Some a | _ => None end.

Definition set_int64 {A} (put : Z -> A -> A) (v : json) (a : A) : option A :=
  match v with
  | JNum literal => n ← parse_int64 literal; Some (put n a)
  | JNull => Some a
  | _ => None
  end.

(** A text written with single quotes. *)
Definition with_quotes (s : string) : bytes :=
  (fun c => if byte_is 39 c then byte_of_Z 34 else c) <$> lit s.

Example json_parse_example :
  json_parse (with_quotes " { 'a' : [1, -2.5e3, true], 'b\u0041\n': null } ")
  = Some (JObj [(lit "a", JArr [JNum (lit "1"); JNum (lit "-2.5e3"); JBool true]);
                (lit "bA" ++ [byte_of_Z 10], JNull)]).
Proof. vm_compute. reflexivity. Qed.

Example json_parse_rejects :
  json_parse (with_quotes "{'a':01}") = None /\ json_parse (with_quotes "{'a':1,}") = None /\
  json_parse (with_quotes "{'a':1} x") = None /\ json_parse (with_quotes "{'a':'") = None.
Proof. vm_compute. done. Qed.

Example unmarshal_keys_example :
  unmarshal_keys (with_quotes "{'n':1e308}") = Some [lit "n"] /\
  unmarshal_keys (with_quotes "{'n':1e309}") = None.
Proof. vm_compute. done. Qed.
