(* ===== verification/GoText.v ===== *)
(** What the program uses of Go's strings, encoding/hex, encoding/base64 and
    unicode/utf8: texts with surrounding white space, hexadecimal digits in either
    case, base64 for URLs, valid UTF-8. *)
From Stdlib Require Import Ascii ZArith Lia.
From stdpp Require Import base numbers list sets strings.
From S2P Require Import Prelude Sha256 Utils Json.

(** * Hexadecimal digits (encoding/hex) *)

(** [hex.DecodeString]: digits of either case, an even number of them. *)
Fixpoint hex_decode (s : bytes) : option bytes :=
  match s with
  | [] => Some []
  | a :: b :: rest =>
      x ← hex_value a; y ← hex_value b; bs ← hex_decode rest;
      Some (byte_of_Z (x * 16 + y) :: bs)
  | [_] => None
  end.

Lemma hex_value_digit z : 0 <= z < 16 -> hex_value (hex_digit z) = Some z.
Proof.
  intros Hz. assert (Hin : z ∈ seqZ 0 16) by (apply elem_of_seqZ; lia).
  revert Hin. change (seqZ 0 16) with [0; 1; 2; 3; 4; 5; 6; 7; 8; 9; 10; 11; 12; 13; 14; 15].
  rewrite !elem_of_cons, elem_of_nil. intros [->|[->|[->|[->|[->|[->|[->|[->|[->|[->|[->|[->|[->|[->|[->|[->|[]]]]]]]]]]]]]]]]]; done.
Qed.

Lemma hex_decode_encode bs : hex_decode (hex_encode bs) = Some bs.
Proof.
  induction bs as [|b bs IH]; [done|]. unfold hex_encode in *. cbn [concat fmap list_fmap mbind list_bind app].
  pose proof (Z_of_byte_range b) as Hb.
  assert (0 <= Z_of_byte b / 16 < 16) by (split; [apply Z.div_pos|apply Z.div_lt_upper_bound]; lia).
  assert (0 <= Z_of_byte b mod 16 < 16) by (apply Z.mod_pos_bound; lia).
  cbn [hex_decode]. rewrite !hex_value_digit by done.
  cbn [mbind option_bind]. rewrite IH. cbn [mbind option_bind]. do 2 f_equal.
  apply Z_of_byte_inj. rewrite Z_of_byte_of_Z by lia. pose proof (Z.div_mod (Z_of_byte b) 16). lia.
Qed.

Lemma hex_decode_length s bs : hex_decode s = Some bs -> length s = (2 * length bs)%nat.
Proof.
  revert bs. induction s as [s IH] using (induction_ltof1 _ (@length _)). unfold ltof in IH.
  destruct s as [|a [|b rest]]; intros bs; cbn [hex_decode]; [by intros [= <-]|done|].
  destruct (hex_value a); [|done]. destruct (hex_value b); [|done]. cbn [mbind option_bind].
  destruct (hex_decode rest) as [bs'|] eqn:Er; [|done]. cbn [mbind option_bind]. intros [= <-].
  apply IH in Er; simpl in *; lia.
Qed.

(** * White space (strings) *)

(** The encodings of [unicode.IsSpace]. *)
Definition white_space : list bytes :=
  encode_rune <$> [9; 10; 11; 12; 13; 32; 133; 160; 5760; 8192; 8193; 8194; 8195; 8196; 8197; 8198; 8199; 8200;
                   8201; 8202; 8232; 8233; 8239; 8287; 12288].

(** The length of the first of [l] that the text starts with, 0 when none does. *)
Fixpoint leading (l : list bytes) (s : bytes) : nat :=
  match l with
  | [] => 0
  | w :: l' => if HasPrefix s w then length w else leading l' s
  end.

(** The text without what it starts with; [skip] bytes are known to go. *)
Fixpoint trim_leading (l : list bytes) (skip : nat) (s : bytes) : bytes :=
  match s with
  | [] => []
  | _ :: s' =>
      match skip with
      | S k => trim_leading l k s'
      | O => match leading l s with O => s | S k => trim_leading l k s' end
      end
  end.

(** [strings.TrimSpace]. A text ends in white space when its reversal starts with
    the reversal of one. *)
Definition TrimSpace (s : bytes) : bytes :=
  reverse (trim_leading (reverse <$> white_space) 0 (reverse (trim_leading white_space 0 s))).

(** * Letter case (strings) *)

(** [strings.ToLower], up to letters that are not ASCII in either case: the Kelvin
    sign and the dotted capital i are the two others whose lower case is ASCII. *)
Fixpoint ToLower (s : bytes) : bytes :=
  match s with
  | [] => []
  | c :: s' =>
      if byte_in 65 90 c then byte_of_Z (Z_of_byte c + 32) :: ToLower s'
      else if byte_is 226 c then
        match s' with
        | c1 :: c2 :: s'' =>
            if byte_is 132 c1 && byte_is 170 c2 then "k"%char :: ToLower s'' else c :: ToLower s'
        | _ => c :: ToLower s'
        end
      else if byte_is 196 c then
        match s' with
        | c1 :: s'' => if byte_is 176 c1 then "i"%char :: ToLower s'' else c :: ToLower s'
        | [] => c :: ToLower s'
        end
      else c :: ToLower s'
  end.

(** [strings.SplitN(s, sep, 2)[0]]: the part before the first separator. *)
Fixpoint before (sep : ascii) (s : bytes) : bytes :=
  match s with
  | [] => []
  | c :: s' => if decide (c = sep) then [] else c :: before sep s'
  end.

(** * UTF-8 (unicode/utf8) *)

(** [utf8.Valid]; [skip] bytes belong to a sequence that has been looked at. *)
Fixpoint utf8_rest (skip : nat) (s : bytes) : bool :=
  match s with
  | [] => true
  | c :: s' =>
      match skip with
      | S k => utf8_rest k s'
      | O =>
          if Z_of_byte c <? 128 then utf8_rest 0 s'
          else match rune_size s with O => false | S k => utf8_rest k s' end
      end
  end.

Definition utf8_Valid (s : bytes) : bool := utf8_rest 0 s.

(** * encoding/base64 with the alphabet for URLs and padding ([base64.URLEncoding]) *)

Definition base64_alphabet : bytes := lit "ABCDEFGHIJKLMNOPQRSTUVWXYZabcdefghijklmnopqrstuvwxyz0123456789-_".

Definition base64_char (v : Z) : ascii := nth (Z.to_nat v) base64_alphabet "="%char.

(** [decodeMap]: the value of a character. *)
Fixpoint index_of (c : ascii) (l : bytes) : option Z :=
  match l with
  | [] => None
  | x :: l' => if decide (x = c) then Some 0 else (fun i => i + 1) <$> index_of c l'
  end.

Definition base64_value (c : ascii) : option Z := index_of c base64_alphabet.

Definition pad : ascii := "=".

(** Three bytes are four characters; a shorter last group is filled with zero bits
    and padded. *)
Fixpoint base64_encode (bs : bytes) : bytes :=
  match bs with
  | [] => []
  | [a] =>
      let v := Z_of_byte a * 65536 in
      [base64_char (v / 262144); base64_char (v / 4096 mod 64); pad; pad]
  | [a; b] =>
      let v := Z_of_byte a * 65536 + Z_of_byte b * 256 in
      [base64_char (v / 262144); base64_char (v / 4096 mod 64); base64_char (v / 64 mod 64); pad]
  | a :: b :: c :: rest =>
      let v := Z_of_byte a * 65536 + Z_of_byte b * 256 + Z_of_byte c in
      base64_char (v / 262144) :: base64_char (v / 4096 mod 64) :: base64_char (v / 64 mod 64) ::
        base64_char (v mod 64) :: base64_encode rest
  end.

(** Groups of four characters. Padding ends the text; the bits of a padded group that
    belong to no byte are not looked at. *)
Fixpoint base64_groups (s : bytes) : option bytes :=
  match s with
  | [] => Some []
  | c1 :: c2 :: c3 :: c4 :: rest =>
      match base64_value c1, base64_value c2, base64_value c3, base64_value c4 with
      | Some x, Some y, Some z, Some w =>
          let v := x * 262144 + y * 4096 + z * 64 + w in
          (fun bs => byte_of_Z (v / 65536) :: byte_of_Z (v / 256) :: byte_of_Z v :: bs) <$> base64_groups rest
      | Some x, Some y, Some z, None =>
          let v := x * 262144 + y * 4096 + z * 64 in
          if bool_decide (c4 = pad /\ rest = []) then Some [byte_of_Z (v / 65536); byte_of_Z (v / 256)] else None
      | Some x, Some y, None, None =>
          let v := x * 262144 + y * 4096 in
          if bool_decide (c3 = pad /\ c4 = pad /\ rest = []) then Some [byte_of_Z (v / 65536)] else None
      | _, _, _, _ => None
      end
  | _ => None
  end.

(** Line breaks are skipped wherever they are. *)
Definition line_break (c : ascii) : Prop := c = "010"%char \/ c = "013"%char.

Definition base64_decode (s : bytes) : option bytes := base64_groups (filter (fun c => ~ line_break c) s).

(** ** Round trip *)

Lemma base64_char_value (v : Z) : 0 <= v < 64 -> base64_value (base64_char v) = Some v.
Proof.
  intros Hv.
  assert (Hall : Forall (fun i => base64_value (base64_char i) = Some i) (seqZ 0 64)).
  { apply (bool_decide_unpack _). vm_compute. exact I. }
  rewrite Forall_forall in Hall. apply Hall. apply elem_of_seqZ. lia.
Qed.

Lemma base64_char_printed (v : Z) : 0 <= v < 64 -> base64_char v ∈ base64_alphabet.
Proof.
  intros Hv. unfold base64_char.
  assert (length base64_alphabet = 64%nat) as Hl by done.
  destruct (nth_lookup_or_length base64_alphabet (Z.to_nat v) "="%char) as [Hs|Hs]; [|lia].
  by eapply list_elem_of_lookup_2.
Qed.

(** Four digits to the base 64. *)
Lemma base64_digits (v : Z) : 0 <= v < 16777216 ->
  0 <= v / 262144 < 64 /\ 0 <= v / 4096 mod 64 < 64 /\ 0 <= v / 64 mod 64 < 64 /\ 0 <= v mod 64 < 64 /\
  v / 262144 * 262144 + v / 4096 mod 64 * 4096 + v / 64 mod 64 * 64 + v mod 64 = v.
Proof. intros Hv. split_and!; Z.div_mod_to_equations; lia. Qed.

Lemma base64_encode_chars (bs : bytes) : forall c, c ∈ base64_encode bs -> c ∈ base64_alphabet \/ c = pad.
Proof.
  revert bs. fix IH 1. intros [|a [|b [|x rest]]] c; simpl.
  - intros Hc. by apply elem_of_nil in Hc.
  - pose proof (Z_of_byte_range a). rewrite !elem_of_cons, elem_of_nil.
    destruct (base64_digits (Z_of_byte a * 65536)) as (Hd1 & Hd2 & _); [lia|]. naive_solver eauto using base64_char_printed.
  - pose proof (Z_of_byte_range a). pose proof (Z_of_byte_range b). rewrite !elem_of_cons, elem_of_nil.
    destruct (base64_digits (Z_of_byte a * 65536 + Z_of_byte b * 256)) as (Hd1 & Hd2 & Hd3 & _); [lia|].
    naive_solver eauto using base64_char_printed.
  - pose proof (Z_of_byte_range a). pose proof (Z_of_byte_range b). pose proof (Z_of_byte_range x). rewrite !elem_of_cons.
    destruct (base64_digits (Z_of_byte a * 65536 + Z_of_byte b * 256 + Z_of_byte x)) as (Hd1 & Hd2 & Hd3 & Hd4 & _); [lia|].
    intros [->|[->|[->|[->|Hc]]]]; [left; by apply base64_char_printed..|by apply (IH rest)].
Qed.

Lemma byte_of_top (a b c : Z) : 0 <= a < 256 -> 0 <= b < 256 -> 0 <= c < 256 ->
  byte_of_Z ((a * 65536 + b * 256 + c) / 65536) = byte_of_Z a /\
  byte_of_Z ((a * 65536 + b * 256 + c) / 256) = byte_of_Z b /\
  byte_of_Z (a * 65536 + b * 256 + c) = byte_of_Z c.
Proof.
  intros. unfold byte_of_Z. split_and!; f_equal; f_equal.
  - f_equal. Z.div_mod_to_equations; lia.
  - Z.div_mod_to_equations; lia.
  - Z.div_mod_to_equations; lia.
Qed.

Lemma byte_of_Z_of_byte (a : ascii) : byte_of_Z (Z_of_byte a) = a.
Proof. apply Z_of_byte_inj, Z_of_byte_of_Z, Z_of_byte_range. Qed.

Lemma base64_value_pad : base64_value pad = None.
Proof. reflexivity. Qed.

Lemma base64_groups_encode (bs : bytes) : base64_groups (base64_encode bs) = Some bs.
Proof.
  revert bs. fix IH 1. intros [|a [|b [|c rest]]]; [done|..]; cbn [base64_encode base64_groups].
  - pose proof (Z_of_byte_range a) as Ha. destruct (base64_digits (Z_of_byte a * 65536)) as (H1 & H2 & H3 & H4 & Hv); [lia|].
    rewrite !base64_char_value, base64_value_pad by done. rewrite bool_decide_eq_true_2 by done.
    replace (_ * 262144 + _) with (Z_of_byte a * 65536 + 0 * 256 + 0) by (Z.div_mod_to_equations; lia).
    destruct (byte_of_top (Z_of_byte a) 0 0) as (-> & _ & _); [lia..|]. by rewrite byte_of_Z_of_byte.
  - pose proof (Z_of_byte_range a) as Ha. pose proof (Z_of_byte_range b) as Hb.
    destruct (base64_digits (Z_of_byte a * 65536 + Z_of_byte b * 256)) as (H1 & H2 & H3 & H4 & Hv); [lia|].
    rewrite !base64_char_value, base64_value_pad by done. rewrite bool_decide_eq_true_2 by done.
    replace (_ * 262144 + _ + _) with (Z_of_byte a * 65536 + Z_of_byte b * 256 + 0) by (Z.div_mod_to_equations; lia).
    destruct (byte_of_top (Z_of_byte a) (Z_of_byte b) 0) as (-> & -> & _); [lia..|]. by rewrite !byte_of_Z_of_byte.
  - pose proof (Z_of_byte_range a) as Ha. pose proof (Z_of_byte_range b) as Hb. pose proof (Z_of_byte_range c) as Hc.
    destruct (base64_digits (Z_of_byte a * 65536 + Z_of_byte b * 256 + Z_of_byte c)) as (H1 & H2 & H3 & H4 & Hv); [lia|].
    rewrite !base64_char_value by done. rewrite Hv, IH. cbn [fmap option_fmap option_map].
    destruct (byte_of_top (Z_of_byte a) (Z_of_byte b) (Z_of_byte c)) as (-> & -> & ->); [lia..|]. by rewrite !byte_of_Z_of_byte.
Qed.

Lemma base64_no_breaks (bs : bytes) : filter (fun c => ~ line_break c) (base64_encode bs) = base64_encode bs.
Proof.
  assert (Hall : Forall (fun c => ~ line_break c) (base64_encode bs)).
  { apply Forall_forall. intros c Hc%base64_encode_chars Hb.
    assert (Hno : Forall (fun c => ~ line_break c) (pad :: base64_alphabet)) by (apply (bool_decide_unpack _); vm_compute; exact I).
    rewrite Forall_forall in Hno. apply (Hno c); [|done]. rewrite elem_of_cons. tauto. }
  induction Hall as [|c l Hc _ IH]; [done|]. rewrite filter_cons_True by done. by rewrite IH.
Qed.

Lemma base64_roundtrip (bs : bytes) : base64_decode (base64_encode bs) = Some bs.
Proof. unfold base64_decode. rewrite base64_no_breaks. apply base64_groups_encode. Qed.

Lemma base64_vectors : base64_encode (lit "foob") = lit "Zm9vYg==" /\ base64_encode (lit "fooba") = lit "Zm9vYmE=" /\
  base64_encode (lit "foobar") = lit "Zm9vYmFy".
Proof. split_and!; vm_compute; reflexivity. Qed.
