(* ===== verification/Canonical.v ===== *)
(** The canonical encoding that the orbis module hashes and signs: big-endian
    integers, byte strings and lists behind a 32-bit length, a presence byte before
    an optional value.

    [Prefixed] says that an encoding can be cut off the front of a text in one way
    only; it is what makes a concatenation of encodings injective. *)
From Stdlib Require Import Ascii ZArith Lia.
From stdpp Require Import base numbers list strings.
From S2P Require Import Prelude Sdk.

Definition enc_byte (z : Z) : bytes := [byte_of_Z z].
Definition enc_u32 (z : Z) : bytes := be_bytes 4 z.
Definition enc_u64 (z : Z) : bytes := be_bytes 8 z.
Definition enc_bool (b : bool) : bytes := enc_byte (if b then 1 else 0).
Definition enc_bytes (v : bytes) : bytes := enc_u32 (Z.of_nat (length v)) ++ v.
Definition enc_strings (l : list bytes) : bytes := enc_u32 (Z.of_nat (length l)) ++ concat (enc_bytes <$> l).
Definition enc_option {A} (enc : A -> bytes) (o : option A) : bytes :=
  match o with None => enc_byte 0 | Some a => enc_byte 1 ++ enc a end.

(** ** What the encodings are faithful for *)

Definition is_byte (z : Z) : Prop := 0 <= z < 256.
Definition is_u32 (z : Z) : Prop := 0 <= z < 2 ^ 32.
Definition is_u64 (z : Z) : Prop := 0 <= z < 2 ^ 64.
Definition is_short {A} (l : list A) : Prop := Z.of_nat (length l) < 2 ^ 32.
Definition are_short (l : list bytes) : Prop := is_short l /\ Forall is_short l.
Definition opt {A} (ok : A -> Prop) (o : option A) : Prop := forall a, o = Some a -> ok a.

Class Prefixed {A} (ok : A -> Prop) (enc : A -> bytes) : Prop :=
  prefixed : forall a b r r', ok a -> ok b -> enc a ++ r = enc b ++ r' -> a = b /\ r = r'.

Lemma be_bytes_inj n a b : 0 <= a < 256 ^ Z.of_nat n -> 0 <= b < 256 ^ Z.of_nat n -> be_bytes n a = be_bytes n b -> a = b.
Proof. intros Ha Hb Heq. rewrite <- (be_uint64_be_bytes n a Ha), <- (be_uint64_be_bytes n b Hb). by rewrite Heq. Qed.

Lemma be_bytes_prefixed n (ok : Z -> Prop) : (forall z, ok z -> 0 <= z < 256 ^ Z.of_nat n) -> Prefixed ok (be_bytes n).
Proof.
  intros Hok a b r r' Ha Hb Heq. apply app_inj_1 in Heq as [Heq ->]; [|by rewrite !be_bytes_length].
  split; [|done]. apply (be_bytes_inj n); [by apply Hok..|done].
Qed.

#[export] Instance enc_u32_prefixed : Prefixed is_u32 enc_u32.
Proof. apply be_bytes_prefixed. intros z Hz. exact Hz. Qed.

#[export] Instance enc_u64_prefixed : Prefixed is_u64 enc_u64.
Proof. apply be_bytes_prefixed. intros z Hz. exact Hz. Qed.

#[export] Instance enc_byte_prefixed : Prefixed is_byte enc_byte.
Proof.
  intros a b r r' Ha Hb [= Heq ->]. split; [|done]. rewrite <- (Z_of_byte_of_Z a Ha), <- (Z_of_byte_of_Z b Hb). by rewrite Heq.
Qed.

#[export] Instance enc_bool_prefixed : Prefixed (fun _ => True) enc_bool.
Proof.
  intros a b r r' _ _ Heq. apply (prefixed (ok := is_byte) (enc := enc_byte)) in Heq as [Heq ->];
    [|by destruct a|by destruct b]. by destruct a, b.
Qed.

Lemma short_u32 {A} (l : list A) : is_short l -> is_u32 (Z.of_nat (length l)).
Proof. unfold is_short, is_u32. lia. Qed.

#[export] Instance enc_bytes_prefixed : Prefixed is_short enc_bytes.
Proof.
  intros a b r r' Ha Hb. unfold enc_bytes. rewrite <- !app_assoc. intros Heq.
  apply (prefixed (enc := enc_u32)) in Heq as [Hlen Heq]; [|by apply short_u32..].
  apply app_inj_1 in Heq; [done|lia].
Qed.

Lemma concat_prefixed l l' r r' : Forall is_short l -> Forall is_short l' -> length l = length l' ->
  concat (enc_bytes <$> l) ++ r = concat (enc_bytes <$> l') ++ r' -> l = l' /\ r = r'.
Proof.
  revert l'. induction l as [|a l IH]; intros [|b l'] Hl Hl' Hlen; try done.
  rewrite !fmap_cons. cbn [concat]. rewrite <- !app_assoc. apply Forall_cons in Hl as [Ha Hl], Hl' as [Hb Hl'].
  intros Heq. apply (prefixed (enc := enc_bytes)) in Heq as [-> Heq]; [|done..].
  apply IH in Heq as [-> ->]; [done|done|done|]. by injection Hlen.
Qed.

#[export] Instance enc_strings_prefixed : Prefixed are_short enc_strings.
Proof.
  intros a b r r' [Ha Hfa] [Hb Hfb]. unfold enc_strings. rewrite <- !app_assoc. intros Heq.
  apply (prefixed (enc := enc_u32)) in Heq as [Hlen Heq]; [|by apply short_u32..].
  apply concat_prefixed in Heq; [done|done|done|lia].
Qed.

#[export] Instance enc_option_prefixed {A} (ok : A -> Prop) (enc : A -> bytes) :
  Prefixed ok enc -> Prefixed (opt ok) (enc_option enc).
Proof.
  intros Henc a b r r' Ha Hb. destruct a as [a|], b as [b|]; cbn [enc_option]; intros Heq.
  - rewrite <- !app_assoc in Heq. injection Heq as Heq. apply Henc in Heq as [-> ->]; [done|by apply Ha|by apply Hb].
  - discriminate Heq.
  - discriminate Heq.
  - by injection Heq as ->.
Qed.

(** Cut the same encoding off both sides of an equation, with its conditions left to
    the assumptions. *)
Ltac peel H :=
  rewrite <- ?app_assoc in H;
  match type of H with
  | ?enc ?a ++ _ = ?enc ?b ++ _ =>
      let E := fresh "E" in
      eapply (prefixed (enc := enc)) in H as [E H]; [|first [done|eassumption]..]
  end.
