(* ===== verification/Epochs.v ===== *)
(** The epochs module (src/x/epochs): timers that fire hooks.

    The state is the store of epoch infos, seen through a lens so that the
    hooks may write the rest of the chain state. [BeginBlocker] is the whole
    block handler with the hook runner of [MultiEpochHooks], which applies each
    hook on a cached context and drops its writes on an error or a panic.

    The theorems: a block advances every stored epoch by exactly one [tick]
    whatever the hooks do, a failing hook leaves no trace, the start times stay
    on the grid StartTime + (n-1) * Duration, and a lagging epoch catches up. *)
From Stdlib Require Import Ascii ZArith Lia.
From stdpp Require Import base numbers list gmap strings.
From S2P Require Import Prelude Sdk.

(** * Data *)

Record EpochInfo : Type := mkEpochInfo {
  Identifier : bytes;
  StartTime : Time;
  EpochDuration : Duration;
  CurrentEpoch : Z;
  CurrentEpochStartTime : Time;
  EpochCountingStarted : bool;
  CurrentEpochStartHeight : Z;
}.

#[global] Instance EpochInfo_eq_dec : EqDecision EpochInfo.
Proof. solve_decision. Defined.

(** [types.EpochInfo{}] *)
Definition EpochInfo_zero : EpochInfo := mkEpochInfo [] time_zero 0 0 time_zero false 0.

Abbreviation EpochStore := (gmap bytes EpochInfo).

(** [KeyPrefixEpoch] followed by the identifier. *)
Definition epochKey (identifier : bytes) : bytes := byte_of_Z 1 :: identifier.

Record EpochHooks (S : Type) : Type := mkEpochHooks {
  hook_AfterEpochEnd : Ctx -> bytes -> Z -> M S unit;
  hook_BeforeEpochStart : Ctx -> bytes -> Z -> M S unit;
}.
Arguments hook_AfterEpochEnd {S} _.
Arguments hook_BeforeEpochStart {S} _.

Definition NewGenesisEpochInfo (identifier : bytes) (duration : Duration) : EpochInfo :=
  mkEpochInfo identifier time_zero duration 0 time_zero false 0.

Definition hour : Duration := 3600 * 1000000000.

Definition DefaultGenesis : list EpochInfo :=
  [NewGenesisEpochInfo (lit "day") (hour * 24);
   NewGenesisEpochInfo (lit "hour") hour;
   NewGenesisEpochInfo (lit "week") (hour * 24 * 7)].

(** [EpochInfo.Validate] *)
Definition EpochInfo_Validate (epoch : EpochInfo) : option error :=
  if decide (Identifier epoch = []) then Some (ErrMsg "epoch identifier should NOT be empty")
  else if EpochDuration epoch =? 0 then Some (ErrMsg "epoch duration should NOT be 0")
  else if CurrentEpoch epoch <? 0 then
    Some (ErrMsg "epoch CurrentEpoch must be non-negative")
  else if CurrentEpochStartHeight epoch <? 0 then
    Some (ErrMsg "epoch CurrentEpochStartHeight must be non-negative")
  else None.

(** [GenesisState.Validate]: each epoch in order, then its identifier against
    the ones seen before. *)
Fixpoint GenesisState_Validate_from (seen : list bytes) (epochs : list EpochInfo) : option error :=
  match epochs with
  | [] => None
  | epoch :: rest =>
      match EpochInfo_Validate epoch with
      | Some e => Some e
      | None =>
          if decide (Identifier epoch ∈ seen)
          then Some (ErrMsg "epoch identifier should be unique")
          else GenesisState_Validate_from (Identifier epoch :: seen) rest
      end
  end.

Definition GenesisState_Validate (epochs : list EpochInfo) : option error :=
  GenesisState_Validate_from [] epochs.

(** * The keeper *)

Section keeper.
Context {S : Type} `{Lens S EpochStore}.
Variable hooks : list (EpochHooks S).

Definition GetEpochInfo (identifier : bytes) : M S EpochInfo :=
  gets (fun s => default EpochInfo_zero ((lens_get s : EpochStore) !! epochKey identifier)).

Definition SetEpochInfo (epoch : EpochInfo) : M S unit :=
  modify (fun s => lens_set (<[epochKey (Identifier epoch) := epoch]> (lens_get s : EpochStore)) s).

Definition DeleteEpochInfo (identifier : bytes) : M S unit :=
  modify (fun s => lens_set (delete (epochKey identifier) (lens_get s : EpochStore)) s).

Definition AddEpochInfo (ctx : Ctx) (epoch : EpochInfo) : M S unit :=
  match EpochInfo_Validate epoch with
  | Some e => throw e
  | None =>
      existing <- GetEpochInfo (Identifier epoch) ;;
      if decide (existing <> EpochInfo_zero) then
        throw (ErrMsg "epoch with identifier already exists")
      else
        let start := if StartTime epoch =? time_zero then block_time ctx else StartTime epoch in
        SetEpochInfo (mkEpochInfo (Identifier epoch) start (EpochDuration epoch)
          (CurrentEpoch epoch) (CurrentEpochStartTime epoch) (EpochCountingStarted epoch)
          (block_height ctx))
  end.

Definition IterateEpochInfo {B} (fn : Z -> B -> EpochInfo -> M S (bool * B)) (acc : B) : M S B :=
  infos <- gets (fun s => (store_prefix_items [byte_of_Z 1] (lens_get s : EpochStore)).*2) ;;
  iterM fn 0 acc infos.

Definition AllEpochInfos : M S (list EpochInfo) :=
  IterateEpochInfo (fun _ epochs epochInfo => ret (false, epochs ++ [epochInfo])) [].

Definition NumBlocksSinceEpochStart (ctx : Ctx) (identifier : bytes) : M S Z :=
  epoch <- GetEpochInfo identifier ;;
  if decide (epoch = EpochInfo_zero) then throw (ErrMsg "epoch with identifier not found")
  else ret (wrap64 (block_height ctx - CurrentEpochStartHeight epoch)).

(** [applyFunc]: run on a cached context, write only when there is no error;
    a panic becomes an error. *)
Definition applyFunc (f : M S unit) : M S unit := fun s =>
  match f s with
  | (Ok _, s') => (Ok tt, s')
  | (Err e, _) => (Err e, s)
  | (Panic, _) => (Err (ErrMsg "panic occurred during execution"), s)
  end.

Definition panicCatchingEpochHook (hookFn : M S unit) : M S unit :=
  _ <- attempt (applyFunc hookFn) ;; ret tt.

Definition MultiEpochHooks_AfterEpochEnd (ctx : Ctx) (identifier : bytes) (n : Z) : M S unit :=
  forM_ (fun h => panicCatchingEpochHook (hook_AfterEpochEnd h ctx identifier n)) hooks.

Definition MultiEpochHooks_BeforeEpochStart (ctx : Ctx) (identifier : bytes) (n : Z) : M S unit :=
  forM_ (fun h => panicCatchingEpochHook (hook_BeforeEpochStart h ctx identifier n)) hooks.

(** The callback of [BeginBlocker]. *)
Definition beginBlockEpoch (ctx : Ctx) (e : EpochInfo) : M S unit :=
  if time_before (block_time ctx) (StartTime e) then ret tt
  else
    let shouldInitialEpochStart := negb (EpochCountingStarted e) in
    let epochEndTime := time_add (CurrentEpochStartTime e) (EpochDuration e) in
    let shouldEpochStart :=
      time_after (block_time ctx) epochEndTime || shouldInitialEpochStart in
    if negb shouldEpochStart then ret tt
    else
      e' <- (if shouldInitialEpochStart then
               ret (mkEpochInfo (Identifier e) (StartTime e) (EpochDuration e) 1
                      (StartTime e) true (block_height ctx))
             else
               MultiEpochHooks_AfterEpochEnd ctx (Identifier e) (CurrentEpoch e) ;;;
               ret (mkEpochInfo (Identifier e) (StartTime e) (EpochDuration e)
                      (wrap64 (CurrentEpoch e + 1))
                      (time_add (CurrentEpochStartTime e) (EpochDuration e))
                      (EpochCountingStarted e) (block_height ctx))) ;;
      SetEpochInfo e' ;;;
      MultiEpochHooks_BeforeEpochStart ctx (Identifier e') (CurrentEpoch e').

Definition BeginBlocker (ctx : Ctx) : M S unit :=
  IterateEpochInfo (fun _ _ e => beginBlockEpoch ctx e ;;; ret (false, tt)) tt.

Definition InitGenesis (ctx : Ctx) (epochs : list EpochInfo) : M S unit :=
  forM_ (fun epoch =>
    r <- attempt (AddEpochInfo ctx epoch) ;;
    match r with inl _ => ret tt | inr _ => panic end) epochs.

Definition ExportGenesis : M S (list EpochInfo) := AllEpochInfos.
End keeper.

(** * A block as a tick of every epoch *)

(** What one block does to one epoch, hooks aside. *)
Definition tick (ctx : Ctx) (e : EpochInfo) : EpochInfo :=
  if block_time ctx <? StartTime e then e
  else if negb (EpochCountingStarted e) then
    mkEpochInfo (Identifier e) (StartTime e) (EpochDuration e) 1 (StartTime e) true
      (block_height ctx)
  else if CurrentEpochStartTime e + EpochDuration e <? block_time ctx then
    mkEpochInfo (Identifier e) (StartTime e) (EpochDuration e) (wrap64 (CurrentEpoch e + 1))
      (CurrentEpochStartTime e + EpochDuration e) true (block_height ctx)
  else e.

Lemma tick_Identifier ctx e : Identifier (tick ctx e) = Identifier e.
Proof. unfold tick. by repeat case_match. Qed.

(** Every info is stored under its own identifier. *)
Definition epochs_wf (m : EpochStore) : Prop :=
  forall k e, m !! k = Some e -> k = epochKey (Identifier e).

(** A hook may write anything but the epoch store. *)
Definition hook_frame {S} `{Lens S EpochStore} (h : EpochHooks S) : Prop :=
  forall ctx id n s s',
    (hook_AfterEpochEnd h ctx id n s = (Ok tt, s') ->
      (lens_get s' : EpochStore) = lens_get s) /\
    (hook_BeforeEpochStart h ctx id n s = (Ok tt, s') ->
      (lens_get s' : EpochStore) = lens_get s).

Lemma epochKey_inj a b : epochKey a = epochKey b -> a = b.
Proof. unfold epochKey. congruence. Qed.

Section theorems.
Context {S : Type} `{HL : Lens S EpochStore} {HLL : LensLaws S EpochStore}.
Implicit Types (s : S) (hooks : list (EpochHooks S)).

Abbreviation store s := (lens_get (T := EpochStore) s).

Lemma panicCatchingEpochHook_run (f : M S unit) s :
  panicCatchingEpochHook f s =
    (Ok tt, match f s with (Ok _, s') => s' | _ => s end).
Proof.
  unfold panicCatchingEpochHook, attempt, applyFunc, bind, ret.
  destruct (f s) as [[[]|e|] s']; done.
Qed.

(** The hook runners always return, and keep the epoch store when each hook does. *)
Lemma hooks_run (sel : EpochHooks S -> M S unit) hooks s :
  (forall h s1 s2, h ∈ hooks -> sel h s1 = (Ok tt, s2) -> store s2 = store s1) ->
  exists s', forM_ (fun h => panicCatchingEpochHook (sel h)) hooks s = (Ok tt, s') /\
             store s' = store s.
Proof.
  revert s. induction hooks as [|h hooks IH]; intros s Hf; simpl; [eauto|].
  unfold bind. rewrite panicCatchingEpochHook_run.
  assert (Hkeep : store (match sel h s with (Ok _, s') => s' | _ => s end) = store s).
  { destruct (sel h s) as [[[]|e|] s1] eqn:E; [|done|done]. eapply Hf; [left|exact E]. }
  destruct (IH (match sel h s with (Ok _, s') => s' | _ => s end)) as (s' & Hrun & Hs').
  { intros h' s1 s2 Hin. apply Hf. by right. }
  exists s'. split; [exact Hrun | congruence].
Qed.

(** One epoch's callback returns and writes exactly its tick. *)
Lemma beginBlockEpoch_run hooks ctx e s :
  Forall hook_frame hooks -> store s !! epochKey (Identifier e) = Some e ->
  exists s', beginBlockEpoch hooks ctx e s = (Ok tt, s') /\
    store s' = <[epochKey (Identifier e) := tick ctx e]> (store s).
Proof.
  intros Hframe He. rewrite Forall_forall in Hframe.
  unfold beginBlockEpoch, tick, time_before, time_after, time_add.
  assert (Hid : store s = <[epochKey (Identifier e) := e]> (store s)) by by rewrite insert_id.
  destruct (block_time ctx <? StartTime e); [by exists s|].
  destruct (EpochCountingStarted e) eqn:Hstarted; simpl.
  - rewrite orb_false_r.
    destruct (CurrentEpochStartTime e + EpochDuration e <? block_time ctx); simpl; [|by exists s].
    destruct (hooks_run (fun h => hook_AfterEpochEnd h ctx (Identifier e) (CurrentEpoch e))
                hooks s) as (s1 & Hrun1 & Hs1).
    { intros h s1 s2 Hin Hr. exact (proj1 (Hframe h Hin _ _ _ _ _) Hr). }
    set (e' := mkEpochInfo (Identifier e) (StartTime e) (EpochDuration e)
      (wrap64 (CurrentEpoch e + 1)) (CurrentEpochStartTime e + EpochDuration e) true
      (block_height ctx)).
    set (s2 := lens_set (<[epochKey (Identifier e) := e']> (store s1)) s1).
    destruct (hooks_run (fun h => hook_BeforeEpochStart h ctx (Identifier e) (CurrentEpoch e'))
                hooks s2) as (s3 & Hrun3 & Hs3).
    { intros h s4 s5 Hin Hr. exact (proj2 (Hframe h Hin _ _ _ _ _) Hr). }
    exists s3. split.
    + unfold bind, MultiEpochHooks_AfterEpochEnd. rewrite Hrun1. exact Hrun3.
    + rewrite Hs3. unfold s2. rewrite lens_get_set, Hs1. done.
  - rewrite orb_true_r. simpl.
    set (e' := mkEpochInfo (Identifier e) (StartTime e) (EpochDuration e) 1 (StartTime e) true
      (block_height ctx)).
    set (s2 := lens_set (<[epochKey (Identifier e) := e']> (store s)) s).
    destruct (hooks_run (fun h => hook_BeforeEpochStart h ctx (Identifier e) 1) hooks s2)
      as (s3 & Hrun3 & Hs3).
    { intros h s4 s5 Hin Hr. exact (proj2 (Hframe h Hin _ _ _ _ _) Hr). }
    exists s3. split; [exact Hrun3|]. rewrite Hs3. unfold s2. by rewrite lens_get_set.
Qed.

Lemma beginBlock_loop hooks ctx (l : list EpochInfo) s :
  Forall hook_frame hooks -> NoDup (Identifier <$> l) ->
  (forall e, e ∈ l -> store s !! epochKey (Identifier e) = Some e) ->
  exists s', forM_ (beginBlockEpoch hooks ctx) l s = (Ok tt, s') /\
    (forall e, e ∈ l -> store s' !! epochKey (Identifier e) = Some (tick ctx e)) /\
    (forall k, k ∉ epochKey ∘ Identifier <$> l -> store s' !! k = store s !! k).
Proof.
  intros Hframe. revert s. induction l as [|e l IH]; intros s Hnd Hin; simpl.
  { exists s. split_and!; [done| |done]. intros e He. by apply not_elem_of_nil in He. }
  apply NoDup_cons in Hnd as [Hnin Hnd].
  destruct (beginBlockEpoch_run hooks ctx e s) as (s1 & Hrun1 & Hs1); [done|apply Hin; left|].
  assert (Hne : forall e', e' ∈ l -> epochKey (Identifier e) <> epochKey (Identifier e')).
  { intros e' He' Heq%epochKey_inj. apply Hnin. rewrite Heq. by apply list_elem_of_fmap_2. }
  destruct (IH s1 Hnd) as (s2 & Hrun2 & Hl2 & Hk2).
  { intros e' He'. rewrite Hs1, lookup_insert_ne by auto. apply Hin. by right. }
  exists s2. split_and!.
  - by erewrite bind_run_ok.
  - intros e' [->|He']%elem_of_cons; [|auto].
    rewrite Hk2, Hs1; [apply lookup_insert_eq|].
    intros (e' & Heq & He')%list_elem_of_fmap. by apply (Hne e').
  - intros k Hk. apply not_elem_of_cons in Hk as [Hke Hkl].
    rewrite Hk2, Hs1 by done. by apply lookup_insert_ne.
Qed.

(** The infos of a well-formed store, each under its identifier. *)
Lemma stored_infos_spec (m : EpochStore) :
  epochs_wf m ->
  let l := (store_prefix_items [byte_of_Z 1] m).*2 in
  NoDup (Identifier <$> l) /\
  (forall e, e ∈ l <-> m !! epochKey (Identifier e) = Some e).
Proof.
  intros Hwf l. split.
  - assert (Hkeys : epochKey ∘ Identifier <$> l = (store_prefix_items [byte_of_Z 1] m).*1).
    { unfold l. rewrite <- list_fmap_compose. apply list_fmap_ext. intros i [k e] Hi. simpl.
      symmetry. apply list_elem_of_lookup_2, elem_of_store_prefix_items in Hi as [_ Hi].
      by apply Hwf. }
    apply (NoDup_fmap_1 epochKey). rewrite <- list_fmap_compose, Hkeys.
    apply store_prefix_items_NoDup.
  - intros e. unfold l. rewrite list_elem_of_fmap. split.
    + intros ([k e'] & -> & Hin). apply elem_of_store_prefix_items in Hin as [_ Hin]. simpl.
      by rewrite <- (Hwf _ _ Hin).
    + intros He. exists (epochKey (Identifier e), e). split; [done|].
      apply elem_of_store_prefix_items. split; [|done]. by exists (Identifier e).
Qed.

Lemma BeginBlocker_run hooks ctx s :
  Forall hook_frame hooks -> epochs_wf (store s) ->
  exists s', BeginBlocker hooks ctx s = (Ok tt, s') /\
    store s' = tick ctx <$> store s /\ epochs_wf (store s').
Proof.
  intros Hframe Hwf. pose proof (stored_infos_spec (store s) Hwf) as [Hnd Hl].
  destruct (beginBlock_loop hooks ctx _ s Hframe Hnd) as (s' & Hrun & Hin & Hout).
  { intros e He. by apply Hl. }
  exists s'. assert (Hmap : store s' = tick ctx <$> store s).
  { apply map_eq. intros k. rewrite lookup_fmap. destruct (store s !! k) as [e|] eqn:E; simpl.
    - rewrite (Hwf _ _ E). apply Hin, Hl. by rewrite <- (Hwf _ _ E).
    - rewrite Hout; [done|]. intros (e & -> & He)%list_elem_of_fmap. apply Hl in He.
      simpl in E. congruence. }
  split_and!; [|done|].
  - unfold BeginBlocker, IterateEpochInfo. erewrite bind_run_ok by done.
    by rewrite iterM_forM_.
  - intros k e He. rewrite Hmap, lookup_fmap in He.
    destruct (store s !! k) as [e0|] eqn:E; simplify_eq/=. by rewrite tick_Identifier, (Hwf _ _ E).
Qed.

(** A block succeeds whatever the hooks do and moves every stored epoch by
    exactly one tick: not before its start time, to epoch 1 the first time,
    and by one epoch once the block time is past the end of the current one. *)
Theorem BeginBlocker_ticks hooks ctx s :
  Forall hook_frame hooks -> epochs_wf (store s) ->
  exists s', BeginBlocker hooks ctx s = (Ok tt, s') /\
    store s' = tick ctx <$> store s /\ epochs_wf (store s').
Proof. apply BeginBlocker_run. Qed.
End theorems.

(** * The schedule of one epoch *)

(** Once counting has started, epoch [n] starts at StartTime + (n-1) * Duration,
    never in the future of the block that started it. *)
Definition on_grid (e : EpochInfo) : Prop :=
  EpochCountingStarted e = true ->
  1 <= CurrentEpoch e /\
  CurrentEpochStartTime e = StartTime e + (CurrentEpoch e - 1) * EpochDuration e.

Lemma tick_on_grid ctx e :
  CurrentEpoch e < int64_max -> on_grid e -> on_grid (tick ctx e).
Proof.
  intros Hmax Hg. unfold on_grid, tick in *. repeat case_match; simpl; intros; auto.
  - lia.
  - destruct Hg as [Hn Ht]; [by destruct (EpochCountingStarted e)|].
    rewrite wrap64_small by (apply is_int64_spec; unfold int64_min; lia). lia.
Qed.

(** Epochs still to be counted at time [t]: those whose end lies before [t]. *)
Definition lag (t : Time) (e : EpochInfo) : Z :=
  Z.max 0 ((t - CurrentEpochStartTime e - 1) / EpochDuration e).

Lemma tick_started ctx e :
  EpochCountingStarted e = true -> StartTime e <= block_time ctx -> 0 < EpochDuration e ->
  EpochCountingStarted (tick ctx e) = true /\ StartTime (tick ctx e) = StartTime e /\
  EpochDuration (tick ctx e) = EpochDuration e /\
  lag (block_time ctx) (tick ctx e) = Z.max 0 (lag (block_time ctx) e - 1) /\
  (lag (block_time ctx) e = 0 -> tick ctx e = e) /\
  (0 < lag (block_time ctx) e -> CurrentEpoch (tick ctx e) = wrap64 (CurrentEpoch e + 1)).
Proof.
  intros Hs Ht Hd. unfold tick, lag. rewrite Hs. simpl.
  destruct (Z.ltb_spec (block_time ctx) (StartTime e)); [lia|].
  set (d := EpochDuration e) in *. set (st := CurrentEpochStartTime e) in *.
  set (t := block_time ctx) in *.
  destruct (Z.ltb_spec (st + d) t) as [Hlt|Hge]; simpl.
  - replace (t - (st + d) - 1) with ((t - st - 1) + (-1) * d) by lia.
    rewrite Z.div_add by lia.
    assert (1 <= (t - st - 1) / d) by (apply Z.div_le_lower_bound; lia).
    split_and!; auto; [lia|intros; exfalso; lia].
  - assert ((t - st - 1) / d < 1) by (apply Z.div_lt_upper_bound; lia).
    fold st d. split_and!; auto; intros; lia.
Qed.

(** An epoch that lags behind the block time (a halted chain, a start time
    in the past) catches up one epoch per block: after [lag] blocks at that
    time the block time is within the current epoch, the counter has advanced
    by exactly the epochs that were missed, the epoch is still on its grid, and
    further blocks at that time change nothing. *)
Lemma tick_catches_up (t : Time) (ctxs : list Ctx) (e : EpochInfo) :
  Forall (fun c => block_time c = t) ctxs -> Z.of_nat (length ctxs) = lag t e ->
  EpochCountingStarted e = true -> StartTime e <= CurrentEpochStartTime e <= t ->
  0 < EpochDuration e -> on_grid e -> CurrentEpoch e + lag t e < int64_max ->
  let e' := foldl (fun e c => tick c e) e ctxs in
  CurrentEpoch e' = CurrentEpoch e + lag t e /\ on_grid e' /\
  CurrentEpochStartTime e' <= t <= CurrentEpochStartTime e' + EpochDuration e' /\
  (forall c, block_time c = t -> tick c e' = e').
Proof.
  intros Hts. revert e. induction Hts as [|c ctxs Hc Hts IH]; intros e Hlen Hs Hst Hd Hg Hmax.
  - simpl in *. rewrite <- Hlen in *. split_and!; [lia|done|lia| |].
    + unfold lag in Hlen. assert ((t - CurrentEpochStartTime e - 1) / EpochDuration e < 1) by lia.
      pose proof (Z.mul_succ_div_gt (t - CurrentEpochStartTime e - 1) (EpochDuration e)). nia.
    + intros c <-. apply (tick_started c e); auto; lia.
  - destruct (tick_started c e) as (H1 & H2 & H3 & H4 & _ & H6); [done|lia|done|].
    rewrite Hc in *. simpl length in Hlen.
    assert (0 < lag t e) by lia. rewrite (Z.max_r 0) in H4 by lia.
    assert (Hlate : CurrentEpochStartTime e + EpochDuration e < t).
    { unfold lag in *. assert (1 <= (t - CurrentEpochStartTime e - 1) / EpochDuration e) by lia.
      pose proof (Z.mul_div_le (t - CurrentEpochStartTime e - 1) (EpochDuration e)). nia. }
    assert (Hcur : CurrentEpoch (tick c e) = CurrentEpoch e + 1).
    { rewrite H6 by done. destruct (Hg Hs). apply wrap64_small, is_int64_spec.
      unfold int64_min. lia. }
    assert (Hst' : CurrentEpochStartTime (tick c e) = CurrentEpochStartTime e + EpochDuration e).
    { unfold tick. rewrite Hs, Hc. simpl.
      destruct (Z.ltb_spec t (StartTime e)); [lia|].
      destruct (Z.ltb_spec (CurrentEpochStartTime e + EpochDuration e) t); [done|lia]. }
    destruct (IH (tick c e)) as (R1 & R2 & R3 & R4);
      [lia|done|rewrite Hst', H2; lia|lia|apply tick_on_grid; [lia|done]|rewrite Hcur, H4; lia|].
    simpl. split_and!; auto; lia.
Qed.

Section blocks.
Context {S : Type} `{HL : Lens S EpochStore} {HLL : LensLaws S EpochStore}.
Abbreviation store s := (lens_get (T := EpochStore) s).

(** Consecutive blocks. *)
Definition run_blocks (hooks : list (EpochHooks S)) (ctxs : list Ctx) : M S unit :=
  forM_ (BeginBlocker hooks) ctxs.

Lemma run_blocks_ticks hooks ctxs : forall s,
  Forall hook_frame hooks -> epochs_wf (store s) ->
  exists s', run_blocks hooks ctxs s = (Ok tt, s') /\
    store s' = (fun e => foldl (fun e c => tick c e) e ctxs) <$> store s.
Proof.
  induction ctxs as [|c ctxs IH]; intros s Hf Hwf.
  - exists s. split; [done|]. by rewrite map_fmap_id.
  - destruct (BeginBlocker_run hooks c s Hf Hwf) as (s1 & Hr1 & Hs1 & Hwf1).
    destruct (IH s1 Hf Hwf1) as (s2 & Hr2 & Hs2). exists s2. split.
    + unfold run_blocks. simpl. by erewrite bind_run_ok.
    + rewrite Hs2, Hs1, <- map_fmap_compose. done.
Qed.

(** An epoch that lags behind the block time (a halted chain, a start time
    in the past) catches up one epoch per block: after [lag] blocks at that
    time, whatever the hooks do, the block time is within the current epoch, the
    counter has advanced by exactly the epochs that were missed, the epoch is
    still on its grid, and further blocks at that time leave it as it is. *)
Theorem lagging_epoch_catches_up hooks (t : Time) (ctxs : list Ctx) (k : bytes) (e : EpochInfo) s :
  Forall hook_frame hooks -> epochs_wf (store s) -> store s !! k = Some e ->
  Forall (fun c => block_time c = t) ctxs -> Z.of_nat (length ctxs) = lag t e ->
  EpochCountingStarted e = true -> StartTime e <= CurrentEpochStartTime e <= t ->
  0 < EpochDuration e -> on_grid e -> CurrentEpoch e + lag t e < int64_max ->
  exists s' e', run_blocks hooks ctxs s = (Ok tt, s') /\ store s' !! k = Some e' /\
    CurrentEpoch e' = CurrentEpoch e + lag t e /\ on_grid e' /\
    CurrentEpochStartTime e' <= t <= CurrentEpochStartTime e' + EpochDuration e' /\
    (forall c, block_time c = t ->
       exists s'', run_blocks hooks (ctxs ++ [c]) s = (Ok tt, s'') /\ store s'' !! k = Some e').
Proof.
  intros Hf Hwf Hk Hts Hlen Hst Hstart Hd Hg Hmax.
  destruct (run_blocks_ticks hooks ctxs s Hf Hwf) as (s' & Hr & Hs').
  destruct (tick_catches_up t ctxs e) as (R1 & R2 & [R3 R3'] & R4); try done.
  exists s', (foldl (fun e c => tick c e) e ctxs). split_and!; try done.
  - by rewrite Hs', lookup_fmap, Hk.
  - intros c Hc. destruct (run_blocks_ticks hooks (ctxs ++ [c]) s Hf Hwf) as (s2 & Hr2 & Hs2).
    exists s2. split; [done|]. rewrite Hs2, lookup_fmap, Hk. simpl.
    rewrite foldl_app. simpl. by rewrite R4.
Qed.
End blocks.

(** * Witnesses *)

(** A chain whose other state is a counter: one hook counts, one writes and
    then fails, and a third panics. *)
Definition witness_chain : Type := EpochStore * Z.

#[export] Instance witness_chain_lens : Lens witness_chain EpochStore :=
  {| lens_get s := s.1; lens_set m s := (m, s.2) |}.

#[export] Instance witness_chain_lens_laws : LensLaws witness_chain EpochStore.
Proof. by split. Qed.

Definition witness_hooks : list (EpochHooks witness_chain) :=
  let count (_ : Ctx) (_ : bytes) (_ : Z) : M witness_chain unit := modify (fun s => (s.1, s.2 + 1)) in
  let fail (_ : Ctx) (_ : bytes) (_ : Z) : M witness_chain unit :=
    modify (fun _ => (∅, 0)) ;;; throw (ErrMsg "hook failed") in
  let crash (_ : Ctx) (_ : bytes) (_ : Z) : M witness_chain unit := panic in
  [mkEpochHooks _ fail crash; mkEpochHooks _ count count].

Definition witness_epoch : EpochInfo := mkEpochInfo (lit "tier") 100 10 2 110 true 7.

Definition witness_epochs : EpochStore := {[ epochKey (lit "tier") := witness_epoch ]}.

Lemma witness_hooks_frame : Forall hook_frame witness_hooks.
Proof.
  repeat (apply Forall_cons; split); [| |constructor];
    intros ctx id n s s'; split; intros E; unfold bind, modify, throw, panic in E; simpl in E;
    simplify_eq; done.
Qed.

Lemma witness_epochs_wf : epochs_wf witness_epochs.
Proof. intros k e He. unfold witness_epochs in He. by apply lookup_singleton_Some in He as [<- <-]. Qed.

Lemma BeginBlocker_ticks_witness :
  exists s', BeginBlocker witness_hooks (mkCtx 121 9 []) (witness_epochs, 0) = (Ok tt, s') /\
    s'.1 = tick (mkCtx 121 9 []) <$> witness_epochs /\ epochs_wf s'.1.
Proof.
  exact (BeginBlocker_ticks witness_hooks (mkCtx 121 9 []) (witness_epochs, 0)
           witness_hooks_frame witness_epochs_wf).
Defined.

Lemma lagging_epoch_catches_up_witness :
  exists s' e', run_blocks witness_hooks [mkCtx 135 9 []; mkCtx 135 10 []] (witness_epochs, 0)
      = (Ok tt, s') /\ s'.1 !! epochKey (lit "tier") = Some e' /\ CurrentEpoch e' = 4.
Proof.
  destruct (lagging_epoch_catches_up witness_hooks 135 [mkCtx 135 9 []; mkCtx 135 10 []]
    (epochKey (lit "tier")) witness_epoch (witness_epochs, 0)) as (s' & e' & H1 & H2 & H3 & _);
    [apply witness_hooks_frame|apply witness_epochs_wf|apply lookup_singleton_eq|by repeat constructor
    |by vm_compute|done|by vm_compute|done|intros _; by vm_compute|by vm_compute|].
  exists s', e'. exact (conj H1 (conj H2 H3)).
Defined.
