(* ===== verification/FeeAllowance.v ===== *)
(** Fee allowances (src/x/feegrant/basic_fee.go, periodic_fee.go,
    filtered_fee.go): how much of a granter's funds a grantee may spend on fees.

    [Accept] mutates the allowance it is called on; here it returns the new
    allowance next to the [remove] flag and the error. Allowances pass through
    protobuf before and after [Accept], which does not tell a nil coin list
    from an empty one, so [SpendLimit == nil] is the empty list. Gas metering
    is not modelled.

    The theorems: an accepted fee is covered and is taken off both limits, and
    what a periodic allowance pays over its whole life, period resets included,
    never exceeds its basic spend limit. *)
From Stdlib Require Import Ascii ZArith Lia.
From stdpp Require Import base numbers list gmap strings.
From S2P Require Import Prelude Sdk.

Definition ErrFeeLimitExceeded := ErrReg "feegrant" 2.
Definition ErrFeeLimitExpired := ErrReg "feegrant" 3.
Definition ErrInvalidDuration := ErrReg "feegrant" 4.
Definition ErrNoAllowance := ErrReg "feegrant" 5.
Definition ErrNoMessages := ErrReg "feegrant" 6.
Definition ErrMessageNotAllowed := ErrReg "feegrant" 7.
Definition ErrInvalidDID := ErrReg "feegrant" 8.

(** [sdkerrors] used by the module. *)
Definition ErrUnauthorized := ErrReg "sdk" 4.
Definition ErrInvalidAddress := ErrReg "sdk" 7.
Definition ErrInvalidCoins := ErrReg "sdk" 10.
Definition ErrInvalidRequest := ErrReg "sdk" 18.
Definition ErrNotFound := ErrReg "sdk" 38.

Record BasicAllowance : Type := mkBasic {
  SpendLimit : Coins;
  Expiration : option Time;
}.

Record PeriodicAllowance : Type := mkPeriodic {
  Basic : BasicAllowance;
  Period : Duration;
  PeriodSpendLimit : Coins;
  PeriodCanSpend : Coins;
  PeriodReset : Time;
}.

(** [FeeAllowanceI]. The allowance wrapped by a filter is an [Any], [None] when
    it does not unpack to an allowance (a nil [Any], which [ValidateBasic]
    refuses first, is not represented). *)
#[warnings="-register-all"] Inductive Allowance : Type :=
  | ABasic (a : BasicAllowance)
  | APeriodic (a : PeriodicAllowance)
  | AAllowedMsg (inner : option Allowance) (AllowedMessages : list bytes).

Record accepted (A : Type) : Type := mkAccepted {
  acc_remove : bool;
  acc_err : option error;
  acc_state : A;
}.
Arguments mkAccepted {A}.
Arguments acc_remove {A}.
Arguments acc_err {A}.
Arguments acc_state {A}.

Definition expired (e : option Time) (now : Time) : bool :=
  match e with Some t => time_before t now | None => false end.

Section allowances.
Context `{CoinsOps}.

Definition BasicAllowance_Accept (ctx : Ctx) (fee : Coins) (a : BasicAllowance)
    : accepted BasicAllowance :=
  if expired (Expiration a) (block_time ctx) then mkAccepted true (Some ErrFeeLimitExpired) a
  else if negb (bool_decide (SpendLimit a = [])) then
    let '(rest, invalid) := SafeSub (SpendLimit a) fee in
    if invalid : bool then mkAccepted false (Some ErrFeeLimitExceeded) a
    else mkAccepted (IsZero rest) None (mkBasic rest (Expiration a))
  else mkAccepted false None a.

Definition tryResetPeriod (blockTime : Time) (a : PeriodicAllowance) : PeriodicAllowance :=
  if time_before blockTime (PeriodReset a) then a
  else
    let '(_, isNeg) := SafeSub (SpendLimit (Basic a)) (PeriodSpendLimit a) in
    let canSpend :=
      if isNeg && negb (bool_decide (SpendLimit (Basic a) = []))
      then SpendLimit (Basic a) else PeriodSpendLimit a in
    let reset := time_add (PeriodReset a) (Period a) in
    let reset' := if time_after blockTime reset then time_add blockTime (Period a) else reset in
    mkPeriodic (Basic a) (Period a) (PeriodSpendLimit a) canSpend reset'.

Definition PeriodicAllowance_Accept (ctx : Ctx) (fee : Coins) (a : PeriodicAllowance)
    : accepted PeriodicAllowance :=
  let blockTime := block_time ctx in
  if expired (Expiration (Basic a)) blockTime then
    mkAccepted true (Some ErrFeeLimitExpired) a
  else
    let a1 := tryResetPeriod blockTime a in
    let '(canSpend, isNeg) := SafeSub (PeriodCanSpend a1) fee in
    let a2 := mkPeriodic (Basic a1) (Period a1) (PeriodSpendLimit a1) canSpend (PeriodReset a1) in
    if isNeg : bool then mkAccepted false (Some ErrFeeLimitExceeded) a2
    else if negb (bool_decide (SpendLimit (Basic a2) = [])) then
      let '(rest, isNeg2) := SafeSub (SpendLimit (Basic a2)) fee in
      let a3 := mkPeriodic (mkBasic rest (Expiration (Basic a2))) (Period a2)
                  (PeriodSpendLimit a2) (PeriodCanSpend a2) (PeriodReset a2) in
      if isNeg2 : bool then mkAccepted false (Some ErrFeeLimitExceeded) a3
      else mkAccepted (IsZero rest) None a3
    else mkAccepted false None a2.

(** [allMsgTypesAllowed] *)
Definition allMsgTypesAllowed (AllowedMessages msgs : list bytes) : bool :=
  forallb (fun m => bool_decide (m ∈ AllowedMessages)) msgs.

(** [Accept] of the interface, [msgs] being the type URLs of the messages. A
    filter saves the inner allowance back only when it accepted and stays. *)
Fixpoint Accept (ctx : Ctx) (fee : Coins) (msgs : list bytes) (a : Allowance)
    : accepted Allowance :=
  match a with
  | ABasic b =>
      let r := BasicAllowance_Accept ctx fee b in
      mkAccepted (acc_remove r) (acc_err r) (ABasic (acc_state r))
  | APeriodic p =>
      let r := PeriodicAllowance_Accept ctx fee p in
      mkAccepted (acc_remove r) (acc_err r) (APeriodic (acc_state r))
  | AAllowedMsg inner allowed =>
      if negb (allMsgTypesAllowed allowed msgs) then
        mkAccepted false (Some ErrMessageNotAllowed) a
      else
        match inner with
        | None => mkAccepted false (Some ErrNoAllowance) a
        | Some i =>
            let r := Accept ctx fee msgs i in
            match acc_err r with
            | None =>
                if acc_remove r then mkAccepted true None a
                else mkAccepted false None (AAllowedMsg (Some (acc_state r)) allowed)
            | Some e => mkAccepted (acc_remove r) (Some e) a
            end
        end
  end.

Definition BasicAllowance_ValidateBasic (a : BasicAllowance) : option error :=
  if negb (bool_decide (SpendLimit a = [])) && negb (IsValid (SpendLimit a)) then
    Some ErrInvalidCoins
  else if negb (bool_decide (SpendLimit a = [])) && negb (IsAllPositive (SpendLimit a)) then
    Some ErrInvalidCoins
  else match Expiration a with
       | Some e => if e / 1000000000 <? 0 then Some ErrInvalidDuration else None
       | None => None
       end.

Definition PeriodicAllowance_ValidateBasic (a : PeriodicAllowance) : option error :=
  match BasicAllowance_ValidateBasic (Basic a) with
  | Some e => Some e
  | None =>
      if negb (IsValid (PeriodSpendLimit a)) then Some ErrInvalidCoins
      else if negb (IsAllPositive (PeriodSpendLimit a)) then Some ErrInvalidCoins
      else if negb (IsValid (PeriodCanSpend a)) then Some ErrInvalidCoins
      else if IsAnyNegative (PeriodCanSpend a) then Some ErrInvalidCoins
      else if negb (bool_decide (SpendLimit (Basic a) = [])) &&
              negb (DenomsSubsetOf (PeriodSpendLimit a) (SpendLimit (Basic a))) then
        Some ErrInvalidCoins
      else if Period a <? 0 then Some ErrInvalidDuration
      else None
  end.

Fixpoint ValidateBasic (a : Allowance) : option error :=
  match a with
  | ABasic b => BasicAllowance_ValidateBasic b
  | APeriodic p => PeriodicAllowance_ValidateBasic p
  | AAllowedMsg inner allowed =>
      if bool_decide (allowed = []) then Some ErrNoMessages
      else match inner with
           | None => Some ErrNoAllowance
           | Some i => ValidateBasic i
           end
  end.

Fixpoint ExpiresAt (a : Allowance) : option Time + error :=
  match a with
  | ABasic b => inl (Expiration b)
  | APeriodic p => inl (Expiration (Basic p))
  | AAllowedMsg None _ => inr ErrNoAllowance
  | AAllowedMsg (Some i) _ => ExpiresAt i
  end.
End allowances.

(** * What an accepted fee does *)

Section spending.
Context `{CoinsOps}.
Implicit Types (d : string) (fee : Coins) (ctx : Ctx).

(** The coin lists of a stored allowance are valid. *)
Definition periodic_wf (p : PeriodicAllowance) : Prop :=
  IsValid (SpendLimit (Basic p)) = true /\ IsValid (PeriodSpendLimit p) = true /\
  IsValid (PeriodCanSpend p) = true.

Fixpoint allowance_wf (a : Allowance) : Prop :=
  match a with
  | ABasic b => IsValid (SpendLimit b) = true
  | APeriodic p => periodic_wf p
  | AAllowedMsg None _ => True
  | AAllowedMsg (Some i) _ => allowance_wf i
  end.

(** What is left to spend in a denomination, [None] when there is no limit. *)
Definition basic_limit d (b : BasicAllowance) : option Z :=
  if bool_decide (SpendLimit b = []) then None else Some (coins_amount d (SpendLimit b)).

Fixpoint limit_of d (a : Allowance) : option Z :=
  match a with
  | ABasic b => basic_limit d b
  | APeriodic p => basic_limit d (Basic p)
  | AAllowedMsg None _ => None
  | AAllowedMsg (Some i) _ => limit_of d i
  end.

(** The charge relation between the limits before and after an accepted fee:
    no limit, or one that covers the fee and is lowered by it; the allowance
    is to be removed exactly when nothing is left. *)
Definition charged fee (before after : string -> option Z) (remove : bool) : Prop :=
  ((forall d, before d = None) /\ (forall d, after d = None) /\ remove = false) \/
  (exists rest : string -> Z,
     (forall d, before d = Some (coins_amount d fee + rest d) /\ 0 <= rest d) /\
     (remove = false -> forall d, after d = Some (rest d)) /\
     (remove = true <-> forall d, rest d = 0)).

Lemma limit_nonneg d : forall a L, allowance_wf a -> limit_of d a = Some L -> 0 <= L.
Proof.
  fix IH 1. intros [b|p|[i|] allowed] L Hwf; simpl in *; [| |by apply IH|done].
  all: unfold basic_limit; case_bool_decide; intros ?; simplify_eq; apply coins_amount_nonneg.
  - done.
  - apply Hwf.
Qed.

Lemma charge_limit fee (cs : Coins) (e : option Time) :
  IsValid cs = true -> IsValid fee = true -> cs <> [] -> (SafeSub cs fee).2 = false ->
  charged fee (fun d => Some (coins_amount d cs))
    (fun d => basic_limit d (mkBasic (SafeSub cs fee).1 e)) (IsZero (SafeSub cs fee).1).
Proof.
  intros Hcs Hfee Hne Hneg. destruct (SafeSub_ok cs fee Hcs Hfee Hneg) as (Hv & Ham & Hle).
  right. exists (fun d => coins_amount d (SafeSub cs fee).1). split_and!.
  - intros d. rewrite Ham. specialize (Hle d). split; [f_equal; lia|lia].
  - intros Hz d. unfold basic_limit. simpl. rewrite bool_decide_eq_false_2; [done|].
    intros Hnil. rewrite <- not_true_iff_false, (IsZero_valid _ Hv) in Hz. done.
  - rewrite (IsZero_valid _ Hv). split; [by intros ->|]. by apply coins_amount_zero_nil.
Qed.

Lemma basic_accept_charged ctx fee b :
  IsValid (SpendLimit b) = true -> IsValid fee = true ->
  acc_err (BasicAllowance_Accept ctx fee b) = None ->
  let r := BasicAllowance_Accept ctx fee b in
  charged fee (fun d => basic_limit d b) (fun d => basic_limit d (acc_state r)) (acc_remove r) /\
  IsValid (SpendLimit (acc_state r)) = true.
Proof.
  intros Hb Hfee. unfold BasicAllowance_Accept, basic_limit at 1.
  destruct (expired _ _); [done|].
  destruct (bool_decide_reflect (SpendLimit b = [])) as [Hnil|Hne]; simpl.
  - intros _. split; [|done]. left. unfold basic_limit.
    rewrite bool_decide_eq_true_2 by done. done.
  - pose proof (charge_limit fee (SpendLimit b) (Expiration b) Hb Hfee Hne) as Hc.
    pose proof (SafeSub_ok (SpendLimit b) fee Hb Hfee) as Hok.
    destruct (SafeSub (SpendLimit b) fee) as [rest [|]]; simpl in *; [done|].
    intros _. split; [auto|]. by apply Hok.
Qed.

Lemma tryResetPeriod_wf t p : periodic_wf p ->
  periodic_wf (tryResetPeriod t p) /\ Basic (tryResetPeriod t p) = Basic p.
Proof.
  intros (H1 & H2 & H3). unfold tryResetPeriod, periodic_wf.
  destruct (time_before _ _); [done|]. destruct (SafeSub _ _) as [? neg].
  destruct (neg && _); done.
Qed.

Lemma periodic_accept_charged ctx fee p :
  periodic_wf p -> IsValid fee = true ->
  acc_err (PeriodicAllowance_Accept ctx fee p) = None ->
  let r := PeriodicAllowance_Accept ctx fee p in
  charged fee (fun d => basic_limit d (Basic p))
    (fun d => basic_limit d (Basic (acc_state r))) (acc_remove r) /\
  periodic_wf (acc_state r) /\
  (forall d, coins_amount d (PeriodCanSpend (acc_state r))
             = coins_amount d (PeriodCanSpend (tryResetPeriod (block_time ctx) p))
               - coins_amount d fee) /\
  PeriodReset (acc_state r) = PeriodReset (tryResetPeriod (block_time ctx) p).
Proof.
  intros Hp Hfee. unfold PeriodicAllowance_Accept. destruct (expired _ _); [done|].
  destruct (tryResetPeriod_wf (block_time ctx) p Hp) as ((W1 & W2 & W3) & Hbasic).
  set (a1 := tryResetPeriod (block_time ctx) p) in *. simpl.
  pose proof (SafeSub_ok (PeriodCanSpend a1) fee W3 Hfee) as Hc1.
  destruct (SafeSub (PeriodCanSpend a1) fee) as [can [|]]; simpl in *; [done|].
  destruct Hc1 as (V1 & A1 & _); [done|]. rewrite Hbasic in *. unfold basic_limit at 1.
  destruct (bool_decide_reflect (SpendLimit (Basic p) = [])) as [Hnil|Hne]; simpl.
  - intros _. split; [left; unfold basic_limit; by rewrite bool_decide_eq_true_2|].
    unfold periodic_wf; simpl; auto.
  - pose proof (charge_limit fee (SpendLimit (Basic p)) (Expiration (Basic p)) W1 Hfee Hne) as Hc.
    pose proof (SafeSub_ok (SpendLimit (Basic p)) fee W1 Hfee) as Hok.
    destruct (SafeSub (SpendLimit (Basic p)) fee) as [rest [|]]; simpl in *; [done|].
    intros _. destruct Hok as [Hok _]; [done|]. unfold periodic_wf; simpl; auto 6.
Qed.

Lemma accept_charged ctx fee msgs : forall a,
  allowance_wf a -> IsValid fee = true -> acc_err (Accept ctx fee msgs a) = None ->
  let r := Accept ctx fee msgs a in
  charged fee (fun d => limit_of d a) (fun d => limit_of d (acc_state r)) (acc_remove r) /\
  (acc_remove r = false -> allowance_wf (acc_state r)).
Proof.
  fix IH 1. intros [b|p|inner allowed] Hwf Hfee Herr; simpl in *.
  - destruct (basic_accept_charged ctx fee b) as [Hc Hv]; auto.
  - destruct (periodic_accept_charged ctx fee p) as (Hc & Hv & _); auto.
  - destruct (allMsgTypesAllowed allowed msgs); simpl in *; [|done].
    destruct inner as [i|]; simpl in *; [|done].
    specialize (IH i Hwf Hfee). destruct (acc_err (Accept ctx fee msgs i)); [done|].
    destruct (IH eq_refl) as [Hc Hv]. destruct (acc_remove (Accept ctx fee msgs i)); simpl.
    + split; [|done]. destruct Hc as [(_ & _ & ?)|(rest & R1 & _ & R2)]; [done|].
      right. exists rest. done.
    + auto.
Qed.

(** A history of fees an allowance accepted, oldest first: it goes on from the
    state each use stores, and ends with the use that removes the allowance. *)
Inductive spends : Allowance -> list (Ctx * Coins) -> Prop :=
| spends_nil a : spends a []
| spends_keep a ctx fee msgs rest :
    acc_err (Accept ctx fee msgs a) = None -> acc_remove (Accept ctx fee msgs a) = false ->
    spends (acc_state (Accept ctx fee msgs a)) rest -> spends a ((ctx, fee) :: rest)
| spends_last a ctx fee msgs :
    acc_err (Accept ctx fee msgs a) = None -> acc_remove (Accept ctx fee msgs a) = true ->
    spends a [(ctx, fee)].

Definition total_fee d (uses : list (Ctx * Coins)) : Z :=
  Zsum ((fun u => coins_amount d u.2) <$> uses).

Lemma total_fee_cons d ctx fee uses :
  total_fee d ((ctx, fee) :: uses) = coins_amount d fee + total_fee d uses.
Proof. unfold total_fee. by rewrite fmap_cons, Zsum_cons. Qed.

Lemma spends_total_le a uses d L :
  allowance_wf a -> Forall (fun u => IsValid u.2 = true) uses ->
  spends a uses -> limit_of d a = Some L -> total_fee d uses <= L.
Proof.
  intros Hwf Hv Hs. revert L. induction Hs as [a|a ctx fee msgs rest Herr Hrm _ IH|a ctx fee msgs Herr Hrm];
    intros L HL.
  - unfold total_fee; simpl. by apply (limit_nonneg d a).
  - apply Forall_cons in Hv as [Hf Hv].
    destruct (accept_charged ctx fee msgs a Hwf Hf Herr) as [[(Hn & _)|(r & Hb & Ha & _)] Hwf'].
    + rewrite Hn in HL. done.
    + rewrite total_fee_cons. destruct (Hb d) as [Hbd _]. rewrite Hbd in HL. simplify_eq.
      specialize (IH (Hwf' Hrm) Hv (r d) (Ha Hrm d)). lia.
  - apply Forall_cons in Hv as [Hf _].
    destruct (accept_charged ctx fee msgs a Hwf Hf Herr) as [[(Hn & _)|(r & Hb & _)] _].
    + rewrite Hn in HL. done.
    + rewrite total_fee_cons. destruct (Hb d) as [Hbd Hr]. rewrite Hbd in HL. simplify_eq.
      unfold total_fee; simpl. lia.
Qed.

(** C18: An allowance with a spend limit never pays out more than that limit over
    its whole life: whatever sequence of fees it accepts, through any number of
    period resets and behind any number of message filters, until it is removed,
    their total in each denomination is at most the limit it started with. *)
Theorem spends_within_limit a uses d L :
  allowance_wf a -> Forall (fun u => IsValid u.2 = true) uses ->
  spends a uses -> limit_of d a = Some L -> total_fee d uses <= L.
Proof. apply spends_total_le. Qed.

Lemma tryResetPeriod_before t p : t < PeriodReset p -> tryResetPeriod t p = p.
Proof.
  intros Ht. unfold tryResetPeriod, time_before. by rewrite (proj2 (Z.ltb_lt _ _) Ht).
Qed.

(** Inside one period, that is at block times before the stored reset time,
    the fees a periodic allowance accepts add up to at most what was left to
    spend in that period. *)
Theorem spends_within_period p uses d :
  periodic_wf p -> Forall (fun u => IsValid u.2 = true) uses ->
  Forall (fun u => block_time u.1 < PeriodReset p) uses ->
  spends (APeriodic p) uses -> total_fee d uses <= coins_amount d (PeriodCanSpend p).
Proof.
  intros Hwf Hv Ht Hs. remember (APeriodic p) as a eqn:Ha. revert p Ha Hwf Ht.
  induction Hs as [a|a ctx fee msgs rest Herr Hrm _ IH|a ctx fee msgs Herr Hrm]; intros p -> Hwf Ht.
  - unfold total_fee; simpl. by apply coins_amount_nonneg, Hwf.
  - apply Forall_cons in Hv as [Hf Hv]. apply Forall_cons in Ht as [Htc Ht]. simpl in *.
    destruct (periodic_accept_charged ctx fee p Hwf Hf Herr) as (_ & Hwf' & Hcan & Hreset).
    rewrite (tryResetPeriod_before _ _ Htc) in Hcan, Hreset.
    specialize (IH Hv _ eq_refl Hwf'). rewrite Hreset in IH. specialize (IH Ht).
    rewrite total_fee_cons. rewrite Hcan in IH. lia.
  - apply Forall_cons in Hv as [Hf _]. apply Forall_cons in Ht as [Htc _]. simpl in *.
    destruct (periodic_accept_charged ctx fee p Hwf Hf Herr) as (_ & Hwf' & Hcan & _).
    rewrite (tryResetPeriod_before _ _ Htc) in Hcan.
    pose proof (coins_amount_nonneg d _ (proj2 (proj2 Hwf'))) as Hnn.
    rewrite Hcan in Hnn. rewrite total_fee_cons. change (total_fee d []) with 0. lia.
Qed.
End spending.

(** * Witnesses *)

Definition witness_ctx (t : Time) : Ctx := mkCtx t 1 [].
Definition ucredits (n : Z) : Coins := [mkCoin "ucredit" n].

(** A subscription of 100 with a period of 10, that has used 30 of it. *)
Definition witness_periodic : PeriodicAllowance :=
  mkPeriodic (mkBasic (ucredits 100) None) 10 (ucredits 60) (ucredits 30) 50.

Lemma spends_within_limit_witness :
  total_fee "ucredit" [(witness_ctx 20, ucredits 30); (witness_ctx 60, ucredits 50)] <= 100.
Proof.
  apply (spends_within_limit (AAllowedMsg (Some (APeriodic witness_periodic)) [lit "m"]) _ "ucredit" 100);
    [by vm_compute| |  |by vm_compute].
  - by repeat constructor.
  - eapply (spends_keep _ _ _ []); [by vm_compute..|].
    eapply (spends_keep _ _ _ []); [by vm_compute..|constructor].
Defined.

Lemma spends_within_period_witness :
  total_fee "ucredit" [(witness_ctx 20, ucredits 10); (witness_ctx 40, ucredits 20)]
  <= coins_amount "ucredit" (PeriodCanSpend witness_periodic).
Proof.
  apply (spends_within_period witness_periodic); [by vm_compute| | |].
  - by repeat constructor.
  - repeat constructor.
  - eapply (spends_keep _ _ _ []); [by vm_compute..|].
    eapply (spends_keep _ _ _ []); [by vm_compute..|constructor].
Defined.
