(* ===== verification/FeegrantKeys.v ===== *)
(** Grants and store keys of the fee grant module (src/x/feegrant/grant.go, key.go).

    A grant stores its allowance as a protobuf [Any]: the packed value, and the
    unpacked one that [UnpackInterfaces] caches in it. Reading a grant from the
    store unpacks it; a [GenesisState] unpacks only part of what it holds.

    Key builders panic, through [MustLengthPrefix], on addresses and DIDs of
    more than 255 bytes. The theorem: parsing a key gives back what it was
    built from, for all four key families. *)
From Stdlib Require Import Ascii ZArith Lia.
From stdpp Require Import base numbers list gmap strings.
From S2P Require Import Prelude Sdk FeeAllowance.

(** * Grants *)

Record Any : Type := mkAny { any_value : Allowance; any_unpacked : bool }.

Definition GetCachedValue (a : Any) : option Allowance :=
  if any_unpacked a then Some (any_value a) else None.

Definition unpackAny (a : Any) : Any := mkAny (any_value a) true.

Record Grant : Type := mkGrant {
  Granter : bytes;
  Grantee : bytes;
  GrantAny : Any;
}.

Record DIDGrant : Type := mkDIDGrant {
  DIDGranter : bytes;
  GranteeDid : bytes;
  DIDGrantAny : Any;
}.

Definition Grant_UnpackInterfaces (g : Grant) : Grant :=
  mkGrant (Granter g) (Grantee g) (unpackAny (GrantAny g)).

Definition DIDGrant_UnpackInterfaces (g : DIDGrant) : DIDGrant :=
  mkDIDGrant (DIDGranter g) (GranteeDid g) (unpackAny (DIDGrantAny g)).

(** The times of an allowance fit a protobuf timestamp; [Marshal] returns an
    error otherwise. *)
Definition basic_marshals (b : BasicAllowance) : Prop :=
  match Expiration b with Some t => time_in_range t | None => True end.

#[global] Instance basic_marshals_dec b : Decision (basic_marshals b).
Proof. unfold basic_marshals. destruct (Expiration b); apply _. Defined.

Fixpoint marshals (a : Allowance) : bool :=
  match a with
  | ABasic b => bool_decide (basic_marshals b)
  | APeriodic p => bool_decide (basic_marshals (Basic p)) && bool_decide (time_in_range (PeriodReset p))
  | AAllowedMsg None _ => true
  | AAllowedMsg (Some i) _ => marshals i
  end.

Section grants.
Context `{CoinsOps, AddressCodec}.

Definition NewGrant (granter grantee : bytes) (feeAllowance : Allowance) : outcome Grant :=
  if marshals feeAllowance
  then Ok (mkGrant (BytesToString granter) (BytesToString grantee) (mkAny feeAllowance true))
  else Err (ErrMsg "cannot marshal").

Definition GetGrant (a : Grant) : outcome Allowance :=
  match GetCachedValue (GrantAny a) with Some f => Ok f | None => Err ErrNoAllowance end.

Definition Grant_ValidateBasic (a : Grant) : option error :=
  if decide (Granter a = []) then Some ErrInvalidAddress
  else if decide (Grantee a = []) then Some ErrInvalidAddress
  else if decide (Grantee a = Granter a) then Some ErrInvalidAddress
  else match GetGrant a with
       | Ok f => ValidateBasic f
       | Err e => Some e
       | Panic => None
       end.

Definition NewDIDGrant (granter granteeDID : bytes) (feeAllowance : Allowance) : outcome DIDGrant :=
  if marshals feeAllowance
  then Ok (mkDIDGrant (BytesToString granter) granteeDID (mkAny feeAllowance true))
  else Err (ErrMsg "cannot marshal").

Definition GetDIDGrant (a : DIDGrant) : outcome Allowance :=
  match GetCachedValue (DIDGrantAny a) with Some f => Ok f | None => Err ErrNoAllowance end.

(** [len(did) <= 4 || did[:4] != "did:"] *)
Definition invalidDID (did : bytes) : bool :=
  (length did <=? 4)%nat || negb (bool_decide (take 4 did = lit "did:")).

Definition DIDGrant_ValidateBasic (a : DIDGrant) : option error :=
  if decide (DIDGranter a = []) then Some ErrInvalidAddress
  else if invalidDID (GranteeDid a) then Some ErrInvalidDID
  else match GetDIDGrant a with
       | Ok f => ValidateBasic f
       | Err e => Some e
       | Panic => None
       end.
End grants.

(** * Keys *)

Definition FeeAllowanceKeyPrefix : bytes := [byte_of_Z 0].
Definition FeeAllowanceQueueKeyPrefix : bytes := [byte_of_Z 1].
Definition DIDFeeAllowanceKeyPrefix : bytes := [byte_of_Z 2].
Definition DIDFeeAllowanceQueueKeyPrefix : bytes := [byte_of_Z 3].

Section keys.
Context `{SdkKeys}.

Definition FeeAllowancePrefixByGrantee (grantee : bytes) : outcome bytes :=
  g ← MustLengthPrefix grantee; Ok (FeeAllowanceKeyPrefix ++ g).

Definition FeeAllowancePrefixByDID (did : bytes) : outcome bytes :=
  d ← MustLengthPrefix did; Ok (DIDFeeAllowanceKeyPrefix ++ d).

Definition FeeAllowanceKey (granter grantee : bytes) : outcome bytes :=
  p ← FeeAllowancePrefixByGrantee grantee; g ← MustLengthPrefix granter; Ok (p ++ g).

Definition FeeAllowanceByDIDKey (granter did : bytes) : outcome bytes :=
  p ← FeeAllowancePrefixByDID did; g ← MustLengthPrefix granter; Ok (p ++ g).

Definition AllowanceByExpTimeKey (exp : Time) : bytes :=
  FeeAllowanceQueueKeyPrefix ++ FormatTimeBytes exp.

Definition FeeAllowancePrefixQueue (exp : Time) (key : bytes) : bytes :=
  AllowanceByExpTimeKey exp ++ key.

Definition DIDAllowanceByExpTimeKey (exp : Time) : bytes :=
  DIDFeeAllowanceQueueKeyPrefix ++ FormatTimeBytes exp.

Definition DIDFeeAllowancePrefixQueue (exp : Time) (key : bytes) : bytes :=
  DIDAllowanceByExpTimeKey exp ++ key.

(** The four parsers read two length-prefixed slices from a start index. *)
Definition parseSlice (key : bytes) (start : nat) : outcome (bytes * nat) :=
  l ← ParseLengthPrefixedBytes key start 1;
  ParseLengthPrefixedBytes key (l.2 + 1) (Z.to_nat (Z_of_byte (nth 0 l.1 zero))).

Definition parsePair (key : bytes) (start : nat) : outcome (bytes * bytes) :=
  a ← parseSlice key start;
  b ← parseSlice key (a.2 + 1);
  Ok (b.1, a.1).

Definition ParseAddressesFromFeeAllowanceKey (key : bytes) : outcome (bytes * bytes) :=
  parsePair key 1.

Definition ParseAddressesFromFeeAllowanceQueueKey (key : bytes) : outcome (bytes * bytes) :=
  parsePair key (1 + time_len).

Definition ParseGranterDIDFromFeeAllowanceKey (key : bytes) : outcome (bytes * bytes) :=
  parsePair key 1.

Definition ParseGranterDIDFromDIDAllowanceQueueKey (key : bytes) : outcome (bytes * bytes) :=
  parsePair key (1 + time_len).
End keys.

(** * Round trips *)

(** Addresses and DIDs that fit a length prefix. *)
Definition fits (b : bytes) : Prop := (0 < length b <= 255)%nat.

#[global] Instance fits_dec b : Decision (fits b).
Proof. unfold fits. apply _. Defined.

Section key_facts.
Context `{SdkKeys}.

Definition prefixed (b : bytes) : bytes := byte_of_Z (Z.of_nat (length b)) :: b.

Lemma MustLengthPrefix_fits b : fits b -> MustLengthPrefix b = Ok (prefixed b).
Proof.
  intros [Hpos Hle]. rewrite MustLengthPrefix_spec, decide_False by (by destruct b; simpl in *; [lia|]).
  by rewrite decide_True.
Qed.

Lemma MustLengthPrefix_ok b k : b <> [] -> MustLengthPrefix b = Ok k -> fits b /\ k = prefixed b.
Proof.
  intros Hne. rewrite MustLengthPrefix_spec, decide_False by done. case_decide; intros; simplify_eq.
  split; [|done]. destruct b; [done|]. unfold fits. simpl in *. lia.
Qed.

Lemma FeeAllowanceKey_fits granter grantee : fits granter -> fits grantee ->
  FeeAllowanceKey granter grantee = Ok (byte_of_Z 0 :: prefixed grantee ++ prefixed granter).
Proof.
  intros H1 H2. unfold FeeAllowanceKey, FeeAllowancePrefixByGrantee.
  by rewrite !MustLengthPrefix_fits.
Qed.

Lemma FeeAllowanceByDIDKey_fits granter did : fits granter -> fits did ->
  FeeAllowanceByDIDKey granter did = Ok (byte_of_Z 2 :: prefixed did ++ prefixed granter).
Proof.
  intros H1 H2. unfold FeeAllowanceByDIDKey, FeeAllowancePrefixByDID.
  by rewrite !MustLengthPrefix_fits.
Qed.

Lemma FeeAllowanceByDIDKey_ok granter did k : granter <> [] -> did <> [] ->
  FeeAllowanceByDIDKey granter did = Ok k ->
  fits granter /\ fits did /\ k = byte_of_Z 2 :: prefixed did ++ prefixed granter.
Proof.
  intros Hg Hd. unfold FeeAllowanceByDIDKey, FeeAllowancePrefixByDID. intros Hk.
  apply outcome_bind_ok in Hk as (p & Hp & Hk). apply outcome_bind_ok in Hk as (g & Hgk & Hk).
  apply outcome_bind_ok in Hp as (d & Hdk & Hp).
  apply MustLengthPrefix_ok in Hgk as [? ->]; [|done].
  apply MustLengthPrefix_ok in Hdk as [? ->]; [|done]. by simplify_eq/=.
Qed.

Lemma parseSlice_prefixed (pre b post : bytes) : fits b ->
  parseSlice (pre ++ prefixed b ++ post) (length pre) = Ok (b, (length pre + length b)%nat).
Proof.
  intros [Hpos Hle]. unfold parseSlice, prefixed. rewrite !ParseLengthPrefixedBytes_spec.
  rewrite decide_True by (rewrite !length_app; simpl; lia). simpl.
  rewrite drop_app_length. simpl.
  rewrite Z_of_byte_of_Z by lia. rewrite Nat2Z.id.
  replace (length pre + 1 - 1 + 1)%nat with (length pre + 1)%nat by lia.
  rewrite ParseLengthPrefixedBytes_spec.
  rewrite decide_True by (rewrite !length_app; simpl; rewrite length_app; lia).
  rewrite drop_app_add. simpl. rewrite drop_0, take_app_length. do 2 f_equal. lia.
Qed.

Lemma parsePair_prefixed (pre a b : bytes) : fits a -> fits b ->
  parsePair (pre ++ prefixed a ++ prefixed b) (length pre) = Ok (b, a).
Proof.
  intros Ha Hb. unfold parsePair, mbind, outcome_bind. rewrite parseSlice_prefixed by done. cbn [fst snd].
  pose proof (parseSlice_prefixed (pre ++ prefixed a) b [] Hb) as Hp.
  rewrite app_nil_r, <- app_assoc in Hp.
  replace (length (pre ++ prefixed a)) with (length pre + length a + 1)%nat in Hp
    by (rewrite length_app; simpl; lia).
  by rewrite Hp.
Qed.

(** The keys of grants and of their expiration queues can be parsed back: for
    every granter and grantee address or DID of 1 to 255 bytes and every expiration
    of the years 1 to 9999, each of the four parsers returns exactly the pair
    the key was built from. *)
Theorem feegrant_keys_roundtrip granter grantee exp :
  fits granter -> fits grantee -> time_in_range exp ->
  exists k dk, FeeAllowanceKey granter grantee = Ok k /\
    FeeAllowanceByDIDKey granter grantee = Ok dk /\
    ParseAddressesFromFeeAllowanceKey k = Ok (granter, grantee) /\
    ParseAddressesFromFeeAllowanceQueueKey (FeeAllowancePrefixQueue exp (tail k))
      = Ok (granter, grantee) /\
    ParseGranterDIDFromFeeAllowanceKey dk = Ok (granter, grantee) /\
    ParseGranterDIDFromDIDAllowanceQueueKey (DIDFeeAllowancePrefixQueue exp (tail dk))
      = Ok (granter, grantee).
Proof.
  intros Hgr Hge Hexp. rewrite FeeAllowanceKey_fits, FeeAllowanceByDIDKey_fits by done.
  eexists _, _. split_and!; [done|done|..]; simpl.
  - apply (parsePair_prefixed [_]); done.
  - unfold ParseAddressesFromFeeAllowanceQueueKey. rewrite <- (FormatTimeBytes_length exp Hexp).
    apply (parsePair_prefixed (_ :: FormatTimeBytes exp)); done.
  - apply (parsePair_prefixed [_]); done.
  - unfold ParseGranterDIDFromDIDAllowanceQueueKey. rewrite <- (FormatTimeBytes_length exp Hexp).
    apply (parsePair_prefixed (_ :: FormatTimeBytes exp)); done.
Qed.

Lemma parse_did_queue_key granter did exp : fits granter -> fits did -> time_in_range exp ->
  ParseGranterDIDFromDIDAllowanceQueueKey
    (DIDFeeAllowancePrefixQueue exp (prefixed did ++ prefixed granter)) = Ok (granter, did).
Proof.
  intros Hgr Hge Hexp. unfold ParseGranterDIDFromDIDAllowanceQueueKey.
  rewrite <- (FormatTimeBytes_length exp Hexp).
  apply (parsePair_prefixed (_ :: FormatTimeBytes exp)); done.
Qed.

Lemma parse_queue_key granter grantee exp : fits granter -> fits grantee -> time_in_range exp ->
  ParseAddressesFromFeeAllowanceQueueKey
    (FeeAllowancePrefixQueue exp (prefixed grantee ++ prefixed granter)) = Ok (granter, grantee).
Proof.
  intros Hgr Hge Hexp. unfold ParseAddressesFromFeeAllowanceQueueKey.
  rewrite <- (FormatTimeBytes_length exp Hexp).
  apply (parsePair_prefixed (_ :: FormatTimeBytes exp)); done.
Qed.
End key_facts.

Lemma feegrant_keys_roundtrip_witness :
  exists k dk, FeeAllowanceKey (lit "alice") (lit "did:b") = Ok k /\
    FeeAllowanceByDIDKey (lit "alice") (lit "did:b") = Ok dk /\
    ParseGranterDIDFromDIDAllowanceQueueKey (DIDFeeAllowancePrefixQueue 1000 (tail dk))
      = Ok (lit "alice", lit "did:b").
Proof.
  destruct (feegrant_keys_roundtrip (lit "alice") (lit "did:b") 1000)
    as (k & dk & H1 & H2 & _ & _ & _ & H3);
    [by apply (bool_decide_unpack _)..|].
  exists k, dk. exact (conj H1 (conj H2 H3)).
Defined.
