(* ===== verification/FeegrantKeeper.v ===== *)
(** The fee grant keeper (src/x/feegrant/keeper, module/abci.go, genesis.go):
    grants to addresses and to DIDs, their expiration queues, the message server
    and genesis.

    The module's store is four maps, one per key prefix, keyed by the real key
    bytes. The keeper sees them through a lens, so that the tier module can call
    it on the state of the whole chain. Events and logs are not modelled.

    The theorems are in FeegrantDID.v, FeegrantPrune.v and FeegrantAddr.v. *)
From Stdlib Require Import Ascii ZArith Lia.
From stdpp Require Import base numbers list gmap strings.
From S2P Require Import Prelude Sdk FeeAllowance FeegrantKeys.

(** * State *)

Record FeegrantStore : Type := mkFeegrantStore {
  grants : gmap bytes Grant;
  queue : gmap bytes unit;
  did_grants : gmap bytes DIDGrant;
  did_queue : gmap bytes unit;
}.

Definition set_grants (m : gmap bytes Grant) (s : FeegrantStore) : FeegrantStore :=
  mkFeegrantStore m (queue s) (did_grants s) (did_queue s).
Definition set_queue (m : gmap bytes unit) (s : FeegrantStore) : FeegrantStore :=
  mkFeegrantStore (grants s) m (did_grants s) (did_queue s).
Definition set_did_grants (m : gmap bytes DIDGrant) (s : FeegrantStore) : FeegrantStore :=
  mkFeegrantStore (grants s) (queue s) m (did_queue s).
Definition set_did_queue (m : gmap bytes unit) (s : FeegrantStore) : FeegrantStore :=
  mkFeegrantStore (grants s) (queue s) (did_grants s) m.

(** The account and bank keepers the module expects: whether an account exists,
    its creation ([NewAccountWithAddress] and [SetAccount]), and the addresses
    that may not receive funds. *)
Class AccountKeeper (S : Type) : Type := {
  HasAccount : bytes -> S -> bool;
  CreateAccount : bytes -> S -> S;
  BlockedAddr : bytes -> bool;
}.

Class AccountKeeperLaws (S : Type) `{Lens S FeegrantStore, AccountKeeper S} : Prop := {
  CreateAccount_frame : forall a s, (lens_get (CreateAccount a s) : FeegrantStore) = lens_get s;
  HasAccount_frame : forall a (t : FeegrantStore) s, HasAccount a (lens_set t s) = HasAccount a s;
}.

Record GenesisState : Type := mkGenesisState {
  Allowances : list Grant;
  DidAllowances : list DIDGrant;
}.

Record MsgGrantAllowance : Type := mkMsgGrantAllowance {
  ga_Granter : bytes; ga_Grantee : bytes; ga_Allowance : Any;
}.
Record MsgRevokeAllowance : Type := mkMsgRevokeAllowance {
  ra_Granter : bytes; ra_Grantee : bytes;
}.
Record MsgGrantDIDAllowance : Type := mkMsgGrantDIDAllowance {
  gd_Granter : bytes; gd_GranteeDid : bytes; gd_Allowance : Any;
}.
Record MsgExpireDIDAllowance : Type := mkMsgExpireDIDAllowance {
  ed_Granter : bytes; ed_GranteeDid : bytes;
}.

(** [strings.EqualFold] on the ASCII texts that addresses are. *)
Definition fold_byte (c : ascii) : ascii :=
  let z := Z_of_byte c in if (65 <=? z) && (z <=? 90) then byte_of_Z (z + 32) else c.
Definition EqualFold (a b : bytes) : bool := bool_decide (fold_byte <$> a = fold_byte <$> b).

(** Queue keys of an iterator over [start, end). *)
Definition range_keys (from to : bytes) (m : gmap bytes unit) : list bytes :=
  (filter (fun kv => bytes_leb from kv.1 && negb (bytes_leb to kv.1)) (store_items m)).*1.

Section keeper.
Context `{CoinsOps, SdkKeys, AddressCodec}.
Context {S : Type} `{Lens S FeegrantStore, AccountKeeper S}.
Implicit Types (ctx : Ctx) (granter grantee did : bytes) (msgs : list bytes).

Definition fg_get {A} (f : FeegrantStore -> A) : M S A := gets (fun s => f (lens_get s)).
Definition fg_mod (f : FeegrantStore -> FeegrantStore) : M S unit :=
  modify (fun s => lens_set (f (lens_get s)) s).

(** ** Grants to addresses *)

Definition getGrant granter grantee : M S Grant :=
  key <- of_outcome (FeeAllowanceKey granter grantee) ;;
  bz <- fg_get (fun s => grants s !! key) ;;
  match bz with
  | None => throw ErrNotFound
  | Some g => ret (Grant_UnpackInterfaces g)
  end.

Definition GetAllowance granter grantee : M S Allowance :=
  grant <- getGrant granter grantee ;; of_outcome (GetGrant grant).

Definition addToFeeAllowanceQueue (grantKey : bytes) (exp : Time) : M S unit :=
  fg_mod (fun s => set_queue (<[FeeAllowancePrefixQueue exp grantKey := tt]> (queue s)) s).

Definition expiresAt (a : Allowance) : M S (option Time) :=
  match ExpiresAt a with inl e => ret e | inr err => throw err end.

Definition GrantAllowance ctx granter grantee (feeAllowance : Allowance) : M S unit :=
  f <- attempt (GetAllowance granter grantee) ;;
  match f with
  | inl _ => throw ErrInvalidRequest
  | inr _ =>
      exists_ <- gets (HasAccount grantee) ;;
      (if negb exists_ then
         throw_if (BlockedAddr grantee) ErrUnauthorized ;;;
         modify (CreateAccount grantee)
       else ret tt) ;;;
      key <- of_outcome (FeeAllowanceKey granter grantee) ;;
      exp <- expiresAt feeAllowance ;;
      throw_if (expired exp (block_time ctx)) ErrInvalidRequest ;;;
      match exp with
      | Some e => addToFeeAllowanceQueue (tail key) e
      | None => ret tt
      end ;;;
      grant <- of_outcome (NewGrant granter grantee feeAllowance) ;;
      fg_mod (fun s => set_grants (<[key := grant]> (grants s)) s)
  end.

Definition UpdateAllowance granter grantee (feeAllowance : Allowance) : M S unit :=
  key <- of_outcome (FeeAllowanceKey granter grantee) ;;
  getGrant granter grantee ;;;
  grant <- of_outcome (NewGrant granter grantee feeAllowance) ;;
  fg_mod (fun s => set_grants (<[key := grant]> (grants s)) s).

(** The queue key is built with the two addresses the other way round. *)
Definition revokeAllowance granter grantee : M S unit :=
  grant <- GetAllowance granter grantee ;;
  key <- of_outcome (FeeAllowanceKey granter grantee) ;;
  fg_mod (fun s => set_grants (delete key (grants s)) s) ;;;
  exp <- expiresAt grant ;;
  match exp with
  | Some e =>
      swapped <- of_outcome (FeeAllowanceKey grantee granter) ;;
      fg_mod (fun s => set_queue (delete (FeeAllowancePrefixQueue e (tail swapped)) (queue s)) s)
  | None => ret tt
  end.

Definition UseGrantedFees ctx granter grantee (fee : Coins) msgs : M S unit :=
  grant <- GetAllowance granter grantee ;;
  let r := Accept ctx fee msgs grant in
  if acc_remove r then
    attempt (revokeAllowance granter grantee) ;;;
    match acc_err r with Some e => throw e | None => ret tt end
  else
    match acc_err r with
    | Some e => throw e
    | None => UpdateAllowance granter grantee (acc_state r)
    end.

(** The body shared by the two pruning loops: the queue entry and its grant go,
    and the loop stops when [limit] entries are done. *)
Fixpoint pruneLoop (prune : bytes -> M S unit) (limit count : Z) (keys : list bytes) : M S unit :=
  match keys with
  | [] => ret tt
  | key :: rest =>
      prune key ;;;
      let count' := wrap32 (count + 1) in
      if count' =? limit then ret tt else pruneLoop prune limit count' rest
  end.

Definition RemoveExpiredAllowances ctx (limit : Z) : M S unit :=
  keys <- fg_get (fun s => range_keys FeeAllowanceQueueKeyPrefix
                             (InclusiveEndBytes (AllowanceByExpTimeKey (block_time ctx))) (queue s)) ;;
  pruneLoop (fun key =>
    fg_mod (fun s => set_queue (delete key (queue s)) s) ;;;
    gg <- of_outcome (ParseAddressesFromFeeAllowanceQueueKey key) ;;
    grantKey <- of_outcome (FeeAllowanceKey gg.1 gg.2) ;;
    fg_mod (fun s => set_grants (delete grantKey (grants s)) s)) limit 0 keys.

Definition IterateAllFeeAllowances : M S (list Grant) :=
  fg_get (fun s => Grant_UnpackInterfaces <$> (store_prefix_items FeeAllowanceKeyPrefix (grants s)).*2).

(** ** Grants to DIDs *)

Definition getDIDGrant granter did : M S DIDGrant :=
  key <- of_outcome (FeeAllowanceByDIDKey granter did) ;;
  bz <- fg_get (fun s => did_grants s !! key) ;;
  match bz with
  | None => throw ErrNotFound
  | Some g => ret (DIDGrant_UnpackInterfaces g)
  end.

Definition GetDIDAllowance granter did : M S Allowance :=
  grant <- getDIDGrant granter did ;; of_outcome (GetDIDGrant grant).

Definition addToDIDFeeAllowanceQueue (grantKey : bytes) (exp : Time) : M S unit :=
  fg_mod (fun s => set_did_queue (<[DIDFeeAllowancePrefixQueue exp grantKey := tt]> (did_queue s)) s).

Definition GrantDIDAllowance ctx granter did (feeAllowance : Allowance) : M S unit :=
  f <- attempt (GetDIDAllowance granter did) ;;
  match f with
  | inl _ => throw ErrInvalidRequest
  | inr _ =>
      key <- of_outcome (FeeAllowanceByDIDKey granter did) ;;
      exp <- expiresAt feeAllowance ;;
      throw_if (expired exp (block_time ctx)) ErrInvalidRequest ;;;
      match exp with
      | Some e => addToDIDFeeAllowanceQueue (tail key) e
      | None => ret tt
      end ;;;
      didGrant <- of_outcome (NewDIDGrant granter did feeAllowance) ;;
      fg_mod (fun s => set_did_grants (<[key := didGrant]> (did_grants s)) s)
  end.

Definition revokeDIDAllowance granter did : M S unit :=
  didGrant <- GetDIDAllowance granter did ;;
  key <- of_outcome (FeeAllowanceByDIDKey granter did) ;;
  fg_mod (fun s => set_did_grants (delete key (did_grants s)) s) ;;;
  exp <- expiresAt didGrant ;;
  match exp with
  | Some e => fg_mod (fun s => set_did_queue (delete (DIDFeeAllowancePrefixQueue e (tail key)) (did_queue s)) s)
  | None => ret tt
  end.

Definition UpdateDIDAllowance granter did (feeAllowance : Allowance) : M S unit :=
  key <- of_outcome (FeeAllowanceByDIDKey granter did) ;;
  existingGrant <- getDIDGrant granter did ;;
  existingAllowance <- of_outcome (GetDIDGrant existingGrant) ;;
  existingExpiration <- expiresAt existingAllowance ;;
  didGrant <- of_outcome (NewDIDGrant granter did feeAllowance) ;;
  newExpiration <- expiresAt feeAllowance ;;
  match existingExpiration with
  | Some e =>
      when (negb (bool_decide (newExpiration = Some e)))
        (fg_mod (fun s => set_did_queue (delete (DIDFeeAllowancePrefixQueue e (tail key)) (did_queue s)) s))
  | None => ret tt
  end ;;;
  match newExpiration with
  | Some e =>
      when (negb (bool_decide (existingExpiration = Some e)))
        (addToDIDFeeAllowanceQueue (tail key) e)
  | None => ret tt
  end ;;;
  fg_mod (fun s => set_did_grants (<[key := didGrant]> (did_grants s)) s).

Definition ExpireDIDAllowance ctx granter did : M S unit :=
  existingAllowance <- GetDIDAllowance granter did ;;
  updated <-
    (match existingAllowance with
     | APeriodic p =>
         ret (APeriodic (mkPeriodic (mkBasic (SpendLimit (Basic p)) (Some (PeriodReset p)))
                (Period p) (PeriodSpendLimit p) (PeriodCanSpend p) (PeriodReset p)))
     | ABasic b => ret (ABasic (mkBasic (SpendLimit b) (Some (block_time ctx))))
     | AAllowedMsg _ _ => throw (ErrMsg "unsupported allowance type")
     end) ;;
  UpdateDIDAllowance granter did updated.

Definition UseGrantedFeesByDID ctx granter did (fee : Coins) msgs : M S unit :=
  didGrant <- GetDIDAllowance granter did ;;
  let r := Accept ctx fee msgs didGrant in
  if acc_remove r then
    attempt (revokeDIDAllowance granter did) ;;;
    match acc_err r with Some e => throw e | None => ret tt end
  else
    match acc_err r with
    | Some e => throw e
    | None => UpdateDIDAllowance granter did (acc_state r)
    end.

Definition RemoveExpiredDIDAllowances ctx (limit : Z) : M S unit :=
  keys <- fg_get (fun s => range_keys DIDFeeAllowanceQueueKeyPrefix
                             (InclusiveEndBytes (DIDAllowanceByExpTimeKey (block_time ctx)))
                             (did_queue s)) ;;
  pruneLoop (fun key =>
    fg_mod (fun s => set_did_queue (delete key (did_queue s)) s) ;;;
    gd <- of_outcome (ParseGranterDIDFromDIDAllowanceQueueKey key) ;;
    grantKey <- of_outcome (FeeAllowanceByDIDKey gd.1 gd.2) ;;
    fg_mod (fun s => set_did_grants (delete grantKey (did_grants s)) s)) limit 0 keys.

Definition IterateAllDIDAllowances : M S (list DIDGrant) :=
  fg_get (fun s =>
    DIDGrant_UnpackInterfaces <$> (store_prefix_items DIDFeeAllowanceKeyPrefix (did_grants s)).*2).

(** The grants to a DID in store order. *)
Definition didGrantsOf did : M S (list DIDGrant) :=
  prefix <- of_outcome (FeeAllowancePrefixByDID did) ;;
  fg_get (fun s => DIDGrant_UnpackInterfaces <$> (store_prefix_items prefix (did_grants s)).*2).

Definition GetFirstAvailableDIDGrant did : M S (bytes * Allowance) :=
  l <- didGrantsOf did ;;
  match l with
  | [] => throw ErrNotFound
  | didGrant :: _ =>
      granter <- (match StringToBytes (DIDGranter didGrant) with inl a => ret a | inr e => throw e end) ;;
      allowance <- of_outcome (GetDIDGrant didGrant) ;;
      ret (granter, allowance)
  end.

(** The loop of [UseFirstAvailableDIDGrant]: a grant that cannot be used is
    passed over (and removed when it has expired). *)
Fixpoint useFirstGrant ctx did (fee : Coins) msgs (l : list DIDGrant) : M S bytes :=
  match l with
  | [] => throw ErrNotFound
  | didGrant :: rest =>
      match StringToBytes (DIDGranter didGrant), GetDIDGrant didGrant with
      | inl granter, Ok allowance =>
          let r := Accept ctx fee msgs allowance in
          if acc_remove r then
            attempt (revokeDIDAllowance granter did) ;;;
            match acc_err r with
            | Some _ => useFirstGrant ctx did fee msgs rest
            | None => ret granter
            end
          else
            match acc_err r with
            | Some _ => useFirstGrant ctx did fee msgs rest
            | None =>
                u <- attempt (UpdateDIDAllowance granter did (acc_state r)) ;;
                match u with
                | inr _ => useFirstGrant ctx did fee msgs rest
                | inl _ => ret granter
                end
            end
      | _, _ => useFirstGrant ctx did fee msgs rest
      end
  end.

Definition UseFirstAvailableDIDGrant ctx did (fee : Coins) msgs : M S bytes :=
  l <- didGrantsOf did ;; useFirstGrant ctx did fee msgs l.

(** ** End of block *)

Definition EndBlocker ctx : M S unit :=
  errAllowances <- attempt (RemoveExpiredAllowances ctx 200) ;;
  errDidAllowances <- attempt (RemoveExpiredDIDAllowances ctx 200) ;;
  match errAllowances, errDidAllowances with
  | inl _, inl _ => ret tt
  | inr e, _ => throw e
  | _, inr e => throw e
  end.

(** ** Genesis *)

Definition addressOf (text : bytes) : M S bytes :=
  match StringToBytes text with inl a => ret a | inr e => throw e end.

Definition InitGenesis ctx (data : GenesisState) : M S unit :=
  forM_ (fun f =>
    granter <- addressOf (Granter f) ;;
    grantee <- addressOf (Grantee f) ;;
    grant <- of_outcome (GetGrant f) ;;
    GrantAllowance ctx granter grantee grant) (Allowances data) ;;;
  forM_ (fun f =>
    granter <- addressOf (DIDGranter f) ;;
    didGrant <- of_outcome (GetDIDGrant f) ;;
    GrantDIDAllowance ctx granter (GranteeDid f) didGrant) (DidAllowances data).

Definition ExportGenesis : M S GenesisState :=
  gs <- IterateAllFeeAllowances ;;
  ds <- IterateAllDIDAllowances ;;
  ret (mkGenesisState gs ds).

(** [GenesisState.UnpackInterfaces] and [ValidateGenesis] *)
Definition GenesisState_UnpackInterfaces (data : GenesisState) : GenesisState :=
  mkGenesisState (Grant_UnpackInterfaces <$> Allowances data) (DidAllowances data).

Fixpoint validateGrants (l : list Grant) : option error :=
  match l with
  | [] => None
  | f :: rest =>
      match GetGrant f with
      | Ok grant => match ValidateBasic grant with Some e => Some e | None => validateGrants rest end
      | Err e => Some e
      | Panic => None
      end
  end.

Definition ValidateGenesis (data : GenesisState) : option error := validateGrants (Allowances data).

(** ** Messages *)

Definition GetFeeAllowanceI (a : Any) : M S Allowance :=
  match GetCachedValue a with Some f => ret f | None => throw ErrNoAllowance end.

Definition validateAllowance (a : Allowance) : M S unit :=
  match ValidateBasic a with Some e => throw e | None => ret tt end.

Definition msg_GrantAllowance ctx (msg : MsgGrantAllowance) : M S unit :=
  throw_if (EqualFold (ga_Grantee msg) (ga_Granter msg)) ErrInvalidAddress ;;;
  grantee <- addressOf (ga_Grantee msg) ;;
  granter <- addressOf (ga_Granter msg) ;;
  f <- attempt (GetAllowance granter grantee) ;;
  match f with
  | inl _ => throw ErrInvalidRequest
  | inr _ =>
      allowance <- GetFeeAllowanceI (ga_Allowance msg) ;;
      validateAllowance allowance ;;;
      GrantAllowance ctx granter grantee allowance
  end.

Definition msg_RevokeAllowance (msg : MsgRevokeAllowance) : M S unit :=
  throw_if (bool_decide (ra_Grantee msg = ra_Granter msg)) ErrInvalidAddress ;;;
  grantee <- addressOf (ra_Grantee msg) ;;
  granter <- addressOf (ra_Granter msg) ;;
  revokeAllowance granter grantee.

Definition msg_PruneAllowances ctx : M S unit := RemoveExpiredAllowances ctx 75.

Definition MsgGrantDIDAllowance_ValidateBasic (msg : MsgGrantDIDAllowance) : option error :=
  if decide (gd_Granter msg = []) then Some ErrInvalidAddress
  else if invalidDID (gd_GranteeDid msg) then Some ErrInvalidDID
  else match GetCachedValue (gd_Allowance msg) with
       | None => Some ErrNoAllowance
       | Some f => ValidateBasic f
       end.

Definition msg_GrantDIDAllowance ctx (msg : MsgGrantDIDAllowance) : M S unit :=
  granter <- addressOf (gd_Granter msg) ;;
  f <- attempt (GetDIDAllowance granter (gd_GranteeDid msg)) ;;
  match f with
  | inl _ => throw ErrInvalidRequest
  | inr _ =>
      allowance <- GetFeeAllowanceI (gd_Allowance msg) ;;
      validateAllowance allowance ;;;
      GrantDIDAllowance ctx granter (gd_GranteeDid msg) allowance
  end.

Definition MsgExpireDIDAllowance_ValidateBasic (msg : MsgExpireDIDAllowance) : option error :=
  if decide (ed_Granter msg = []) then Some ErrInvalidAddress
  else if invalidDID (ed_GranteeDid msg) then Some ErrInvalidDID
  else None.

Definition msg_ExpireDIDAllowance ctx (msg : MsgExpireDIDAllowance) : M S unit :=
  granter <- addressOf (ed_Granter msg) ;;
  ExpireDIDAllowance ctx granter (ed_GranteeDid msg).

Definition msg_PruneDIDAllowances ctx : M S unit := RemoveExpiredDIDAllowances ctx 75.
End keeper.
