(* ===== verification/FeegrantDID.v ===== *)
(** Grants to DIDs stay in step with their expiration queue.

    The invariant [did_inv]: every stored grant sits under the key of its own
    granter and DID, and the queue holds exactly one entry per grant that
    expires. Here are the effects of each operation on the two maps, the lemmas
    that they keep the invariant, and the walk over the grants of a DID; the
    theorems are in FeegrantPrune.v. *)
From Stdlib Require Import Ascii ZArith Lia.
From stdpp Require Import base numbers list gmap strings.
From S2P Require Import Prelude Sdk FeeAllowance FeegrantKeys FeegrantKeeper.

Definition value_of (g : DIDGrant) : Allowance := any_value (DIDGrantAny g).

(** The expiration of a stored grant. *)
Definition dexp (g : DIDGrant) : option Time :=
  match ExpiresAt (value_of g) with inl e => e | inr _ => None end.

Definition dkey (granter did : bytes) : bytes := byte_of_Z 2 :: prefixed did ++ prefixed granter.

Lemma marshals_exp a e : marshals a = true -> ExpiresAt a = inl (Some e) -> time_in_range e.
Proof.
  revert a. fix IH 1. intros [b|p|[i|] l]; simpl; [| |apply IH|done].
  - intros Hm ?. apply bool_decide_eq_true in Hm. unfold basic_marshals in Hm. by simplify_eq; destruct (Expiration b); simplify_eq.
  - intros [Hm _]%andb_true_iff ?. apply bool_decide_eq_true in Hm. unfold basic_marshals in Hm.
    by simplify_eq; destruct (Expiration (Basic p)); simplify_eq.
Qed.

(** * The invariant *)

Section did.
Context `{CoinsOps, SdkKeys, AddressCodec}.
Implicit Types (k granter did : bytes) (g : DIDGrant) (fs : FeegrantStore).

Definition qkey (e : Time) k : bytes := DIDFeeAllowancePrefixQueue e (tail k).

Definition did_entry k g : Prop :=
  exists granter, fits granter /\ fits (GranteeDid g) /\ DIDGranter g = BytesToString granter /\
    k = dkey granter (GranteeDid g) /\ ExpiresAt (value_of g) = inl (dexp g) /\
    marshals (value_of g) = true.

Record did_inv fs : Prop := {
  did_entries : forall k g, did_grants fs !! k = Some g -> did_entry k g;
  did_queued : forall qk, is_Some (did_queue fs !! qk) <->
    exists k g e, did_grants fs !! k = Some g /\ dexp g = Some e /\ qk = qkey e k;
}.

Lemma did_entry_time k g e : did_entry k g -> dexp g = Some e -> time_in_range e.
Proof. intros (gr & _ & _ & _ & _ & Hx & Hm) He. rewrite He in Hx. by eapply marshals_exp. Qed.

Lemma did_entry_key k g : did_entry k g -> k = byte_of_Z 2 :: tail k.
Proof. intros (gr & _ & _ & _ & -> & _). done. Qed.

Lemma qkey_inj e1 k1 g1 e2 k2 g2 :
  did_entry k1 g1 -> did_entry k2 g2 -> dexp g1 = Some e1 -> dexp g2 = Some e2 ->
  qkey e1 k1 = qkey e2 k2 -> e1 = e2 /\ k1 = k2.
Proof.
  intros E1 E2 D1 D2 Heq. pose proof (did_entry_time _ _ _ E1 D1) as T1.
  pose proof (did_entry_time _ _ _ E2 D2) as T2.
  unfold qkey, DIDFeeAllowancePrefixQueue, DIDAllowanceByExpTimeKey in Heq.
  simpl in Heq. simplify_eq. apply app_inj_1 in Heq as [Ht Hk].
  - split; [by apply FormatTimeBytes_inj|].
    rewrite (did_entry_key _ _ E1), (did_entry_key _ _ E2). by rewrite Hk.
  - by rewrite !FormatTimeBytes_length.
Qed.

(** ** The two updates of the pair of maps *)

Definition unqueue (e : option Time) k (q : gmap bytes unit) : gmap bytes unit :=
  match e with Some t => delete (qkey t k) q | None => q end.

Definition enqueue (e : option Time) k (q : gmap bytes unit) : gmap bytes unit :=
  match e with Some t => <[qkey t k := tt]> q | None => q end.

Definition del_did k fs : FeegrantStore :=
  mkFeegrantStore (grants fs) (queue fs) (delete k (did_grants fs))
    (unqueue (did_grants fs !! k ≫= dexp) k (did_queue fs)).

Definition put_did k g fs : FeegrantStore :=
  mkFeegrantStore (grants fs) (queue fs) (<[k := g]> (did_grants fs))
    (enqueue (dexp g) k (unqueue (did_grants fs !! k ≫= dexp) k (did_queue fs))).

Lemma unqueue_spec e k q qk :
  is_Some (unqueue e k q !! qk) <-> is_Some (q !! qk) /\ forall t, e = Some t -> qk <> qkey t k.
Proof.
  destruct e as [t|]; simpl; [|naive_solver].
  destruct (decide (qk = qkey t k)) as [->|Hne].
  - rewrite lookup_delete_eq. split; [intros []; done|naive_solver].
  - rewrite lookup_delete_ne by done. naive_solver.
Qed.

Lemma enqueue_spec e k q qk :
  is_Some (enqueue e k q !! qk) <-> is_Some (q !! qk) \/ exists t, e = Some t /\ qk = qkey t k.
Proof.
  destruct e as [t|]; simpl; [|naive_solver].
  destruct (decide (qk = qkey t k)) as [->|Hne].
  - rewrite lookup_insert_eq. naive_solver.
  - rewrite lookup_insert_ne by done. naive_solver.
Qed.

(** The entries of the other grants are those that survive removing this one's. *)
Lemma unqueued_others fs k qk : did_inv fs ->
  is_Some (unqueue (did_grants fs !! k ≫= dexp) k (did_queue fs) !! qk) <->
  exists k' g' e, k' <> k /\ did_grants fs !! k' = Some g' /\ dexp g' = Some e /\ qk = qkey e k'.
Proof.
  intros [HE HQ]. rewrite unqueue_spec, HQ. split.
  - intros [(k' & g' & e & Hk' & He & ->) Hne]. exists k', g', e. split_and!; try done.
    intros ->. rewrite Hk' in Hne. exact (Hne e He eq_refl).
  - intros (k' & g' & e & Hk & Hk' & He & ->). split; [by eauto 6|]. intros t Ht Heq.
    destruct (did_grants fs !! k) as [g|] eqn:Eg; simpl in Ht; [|done].
    apply Hk. by eapply qkey_inj; [| | | |exact Heq]; eauto.
Qed.

Lemma del_did_inv fs k : did_inv fs -> did_inv (del_did k fs).
Proof.
  intros Hi. split; simpl.
  - intros k' g' [_ Hk']%lookup_delete_Some. by apply Hi.
  - intros qk. rewrite unqueued_others by done. setoid_rewrite lookup_delete_Some. naive_solver.
Qed.

Lemma put_did_inv fs k g : did_inv fs -> did_entry k g -> did_inv (put_did k g fs).
Proof.
  intros Hi Hg. split; simpl.
  - intros k' g' [[<- <-]|[_ Hk']]%lookup_insert_Some; [done|]. by apply Hi.
  - intros qk. rewrite enqueue_spec, unqueued_others by done. setoid_rewrite lookup_insert_Some.
    split.
    + intros [(k' & g' & e & Hk & Hk' & He & ->)|(t & Ht & ->)].
      * exists k', g', e. split_and!; auto.
      * exists k, g, t. split_and!; auto.
    + intros (k' & g' & e & [[<- <-]|[Hne Hk']] & He & ->); [right; eauto|]. left. by eauto 8.
Qed.

Lemma put_did_same_exp fs k g g0 : did_inv fs -> did_grants fs !! k = Some g0 -> dexp g = dexp g0 ->
  enqueue (dexp g) k (unqueue (did_grants fs !! k ≫= dexp) k (did_queue fs)) = did_queue fs.
Proof.
  intros Hi Hk He. rewrite Hk, He. simpl. destruct (dexp g0) as [t|] eqn:E; simpl; [|done].
  rewrite insert_delete_eq. apply insert_id.
  destruct (proj2 (did_queued fs Hi (qkey t k))) as [[] Hq]; [|done]. by exists k, g0, t.
Qed.
End did.

(** * What each operation does *)

Section did_ops.
Context `{CoinsOps, SdkKeys, AddressCodec}.
Context {S : Type} `{HL : Lens S FeegrantStore, HAK : AccountKeeper S} {HLL : LensLaws S FeegrantStore}.
Implicit Types (s : S) (granter did : bytes) (ctx : Ctx) (fee : Coins) (msgs : list bytes).

Abbreviation fs s := (lens_get (T := FeegrantStore) s).

Lemma fg_mod_run f s : fg_mod f s = (Ok tt, lens_set (f (fs s)) s).
Proof. done. Qed.

Lemma fg_mod_fs f s : fs (lens_set (f (fs s)) s) = f (fs s).
Proof. apply lens_get_set. Qed.

Lemma key_run {B} granter did (f : bytes -> M S B) s : fits granter -> fits did ->
  bind (of_outcome (FeeAllowanceByDIDKey granter did)) f s = f (dkey granter did) s.
Proof. intros. unfold bind, of_outcome. by rewrite FeeAllowanceByDIDKey_fits. Qed.

Lemma getDIDGrant_run granter did s : fits granter -> fits did ->
  getDIDGrant granter did s =
    (match did_grants (fs s) !! dkey granter did with
     | Some g => Ok (DIDGrant_UnpackInterfaces g)
     | None => Err ErrNotFound
     end, s).
Proof.
  intros. unfold getDIDGrant. rewrite key_run by done. unfold bind, fg_get, gets.
  by destruct (did_grants (fs s) !! dkey granter did).
Qed.

Lemma GetDIDAllowance_run granter did s : fits granter -> fits did ->
  GetDIDAllowance granter did s =
    (match did_grants (fs s) !! dkey granter did with
     | Some g => Ok (value_of g)
     | None => Err ErrNotFound
     end, s).
Proof.
  intros. unfold GetDIDAllowance, bind. rewrite getDIDGrant_run by done.
  by destruct (did_grants (fs s) !! dkey granter did).
Qed.

Lemma expiresAt_stored {B} g k (f : option Time -> M S B) s : did_entry k g ->
  bind (expiresAt (value_of g)) f s = f (dexp g) s.
Proof. intros (_ & _ & _ & _ & _ & Hx & _). unfold bind, expiresAt. by rewrite Hx. Qed.

(** Revoking removes the grant and its queue entry; without a grant it fails. *)
Lemma revokeDIDAllowance_run granter did s : fits granter -> fits did -> did_inv (fs s) ->
  exists s', revokeDIDAllowance granter did s =
      (match did_grants (fs s) !! dkey granter did with
       | Some _ => Ok tt | None => Err ErrNotFound end, s') /\
    fs s' = match did_grants (fs s) !! dkey granter did with
            | Some _ => del_did (dkey granter did) (fs s) | None => fs s end.
Proof.
  intros Hg Hd Hi. unfold revokeDIDAllowance, bind at 1. rewrite GetDIDAllowance_run by done.
  destruct (did_grants (fs s) !! dkey granter did) as [g|] eqn:E; [|by eexists].
  rewrite key_run by done. erewrite bind_run_ok by apply fg_mod_run.
  pose proof (did_entries _ Hi _ _ E) as He. rewrite (expiresAt_stored g _ _ _ He).
  unfold del_did. rewrite E. simpl.
  destruct (dexp g) as [t|]; eexists; (split; [reflexivity|]); by rewrite ?lens_get_set.
Qed.

Lemma NewDIDGrant_entry granter did a g : fits granter -> fits did ->
  NewDIDGrant granter did a = Ok g -> ExpiresAt a = inl (dexp g) ->
  did_entry (dkey granter did) g /\ value_of g = a.
Proof.
  intros Hg Hd. unfold NewDIDGrant. destruct (marshals a) eqn:Hm; intros; simplify_eq.
  split; [|done]. exists granter. by split_and!.
Qed.

(** Granting stores the grant with its queue entry, and only where there was none. *)
Lemma GrantDIDAllowance_ok ctx granter did a s s' : fits granter -> fits did ->
  GrantDIDAllowance ctx granter did a s = (Ok tt, s') ->
  did_grants (fs s) !! dkey granter did = None /\
  exists g, did_entry (dkey granter did) g /\ value_of g = a /\
    expired (dexp g) (block_time ctx) = false /\
    fs s' = put_did (dkey granter did) g (fs s).
Proof.
  intros Hg Hd. unfold GrantDIDAllowance, attempt, bind at 1. rewrite GetDIDAllowance_run by done.
  destruct (did_grants (fs s) !! dkey granter did) as [g0|] eqn:E; [done|]. rewrite key_run by done.
  unfold expiresAt. destruct (ExpiresAt a) as [e|] eqn:Ee; [|done].
  erewrite bind_run_ok by done. unfold throw_if.
  destruct (expired e (block_time ctx)) eqn:Hx; [done|]. erewrite bind_run_ok by done.
  intros Hrun. split; [done|]. ok_inv Hrun. ok_inv Hrun.
  unfold of_outcome in Hrun1. rename a1 into g. injection Hrun1 as HG Hs.
  assert (Hval : value_of g = a)
    by (revert HG; unfold NewDIDGrant; destruct (marshals a); intros; by simplify_eq).
  assert (Hdexp : dexp g = e) by (unfold dexp; by rewrite Hval, Ee).
  assert (HN : did_entry (dkey granter did) g)
    by (apply (NewDIDGrant_entry granter did a); [done..|by rewrite Hdexp]).
  exists g. split_and!; [done|done|by rewrite Hdexp|].
  rewrite fg_mod_run in Hrun. simplify_eq. rewrite lens_get_set. unfold put_did. rewrite E. simpl.
  destruct (dexp g) as [t|]; unfold addToDIDFeeAllowanceQueue in *;
    rewrite ?fg_mod_run in *; unfold ret in *; simplify_eq; by rewrite ?lens_get_set.
Qed.

Definition stored_grant granter did (a : Allowance) : DIDGrant :=
  mkDIDGrant (BytesToString granter) did (mkAny a true).

(** Updating replaces an existing grant and moves its queue entry, or leaves the
    store alone. *)
Lemma UpdateDIDAllowance_run granter did a s : fits granter -> fits did -> did_inv (fs s) ->
  exists o s', UpdateDIDAllowance granter did a s = (o, s') /\
    match o with
    | Ok _ => is_Some (did_grants (fs s) !! dkey granter did) /\
        did_entry (dkey granter did) (stored_grant granter did a) /\
        fs s' = put_did (dkey granter did) (stored_grant granter did a) (fs s)
    | Err _ => s' = s /\ (did_grants (fs s) !! dkey granter did = None \/
                         marshals a = false \/ exists e, ExpiresAt a = inr e)
    | Panic => False
    end.
Proof.
  intros Hg Hd Hi. unfold UpdateDIDAllowance. rewrite key_run by done.
  unfold bind at 1. rewrite getDIDGrant_run by done.
  destruct (did_grants (fs s) !! dkey granter did) as [g0|] eqn:E;
    [|exists (Err ErrNotFound), s; auto].
  pose proof (did_entries _ Hi _ _ E) as He.
  erewrite bind_run_ok by done. change (any_value _) with (value_of g0).
  rewrite (expiresAt_stored g0 _ _ _ He). unfold NewDIDGrant.
  destruct (marshals a) eqn:Hm; [|eexists (Err _), s; split_and!; [done|done|]; by right; left].
  fold (stored_grant granter did a). set (g := stored_grant granter did a).
  erewrite bind_run_ok by done. unfold expiresAt.
  destruct (ExpiresAt a) as [e|err] eqn:Ee; [|exists (Err err), s; split_and!; [done|done|]; right; right; by exists err].
  erewrite bind_run_ok by done.
  assert (Hgd : dexp g = e) by (unfold dexp, g, stored_grant, value_of; simpl; by rewrite Ee).
  assert (Hentry : did_entry (dkey granter did) g)
    by (exists granter; unfold g, stored_grant, dexp, value_of; simpl; rewrite Ee; by split_and!).
  pose proof (put_did_same_exp (fs s) (dkey granter did) g g0 Hi E) as Hsame.
  unfold put_did. rewrite E, Hgd in *. simpl in *.
  destruct (dexp g0) as [t0|], e as [t|]; simpl in *;
    [destruct (decide (t0 = t)) as [->|Hne]|..];
    rewrite ?(bool_decide_eq_true_2 (Some t = Some t)), ?(bool_decide_eq_false_2 (Some t = Some t0)),
      ?(bool_decide_eq_false_2 (Some t0 = Some t)), ?(bool_decide_eq_false_2 (None = Some t0)),
      ?(bool_decide_eq_false_2 (None = Some t)) by congruence;
    unfold addToDIDFeeAllowanceQueue; simpl;
    (eexists (Ok tt), _; split; [reflexivity|]; split; [by eexists|];
     split; [done|]; rewrite ?Hgd, ?lens_get_set; unfold set_did_grants; simpl;
     rewrite ?lens_get_set; try done).
  by rewrite Hsame.
Qed.

Lemma UpdateDIDAllowance_inv granter did a s o s' : fits granter -> fits did -> did_inv (fs s) ->
  UpdateDIDAllowance granter did a s = (o, s') -> did_inv (fs s').
Proof.
  intros Hg Hd Hi Hrun. destruct (UpdateDIDAllowance_run granter did a s Hg Hd Hi) as (o' & s1 & Hr & Hc).
  rewrite Hrun in Hr. simplify_eq. destruct o' as [?|e|]; [|by destruct Hc as [-> _]|done].
  destruct Hc as (_ & He & ->). by apply put_did_inv.
Qed.

Lemma revokeDIDAllowance_inv granter did s o s' : fits granter -> fits did -> did_inv (fs s) ->
  revokeDIDAllowance granter did s = (o, s') -> o <> Panic /\ did_inv (fs s').
Proof.
  intros Hg Hd Hi Hrun. destruct (revokeDIDAllowance_run granter did s Hg Hd Hi) as (s1 & Hr & Hs).
  rewrite Hrun in Hr. simplify_eq. rewrite Hs.
  destruct (did_grants (fs s) !! dkey granter did); [|done]. split; [done|]. by apply del_did_inv.
Qed.

(** ** Using the grants of a DID *)

Lemma UseGrantedFeesByDID_inv ctx granter did fee msgs s o s' :
  fits granter -> fits did -> did_inv (fs s) ->
  UseGrantedFeesByDID ctx granter did fee msgs s = (o, s') -> did_inv (fs s').
Proof.
  intros Hg Hd Hi. unfold UseGrantedFeesByDID, bind at 1. rewrite GetDIDAllowance_run by done.
  destruct (did_grants (fs s) !! dkey granter did) as [g|]; [|intros; by simplify_eq/=]. cbv zeta.
  destruct (acc_remove (Accept ctx fee msgs (value_of g))).
  - unfold bind, attempt, throw, ret. destruct (revokeDIDAllowance granter did s) as [r s1] eqn:Er.
    destruct (revokeDIDAllowance_inv _ _ _ _ _ Hg Hd Hi Er) as [Hnp Hi1].
    destruct r; [| |done]; destruct (acc_err _); intros; by simplify_eq/=.
  - destruct (acc_err _); [unfold throw; intros; by simplify_eq/=|].
    by apply UpdateDIDAllowance_inv.
Qed.

Lemma ExpireDIDAllowance_inv ctx granter did s o s' :
  fits granter -> fits did -> did_inv (fs s) ->
  ExpireDIDAllowance ctx granter did s = (o, s') -> did_inv (fs s').
Proof.
  intros Hg Hd Hi. unfold ExpireDIDAllowance, bind at 1. rewrite GetDIDAllowance_run by done.
  destruct (did_grants (fs s) !! dkey granter did) as [g|]; [|intros; by simplify_eq/=].
  destruct (value_of g) as [b|p|i l].
  - erewrite bind_run_ok by done. by apply UpdateDIDAllowance_inv.
  - erewrite bind_run_ok by done. by apply UpdateDIDAllowance_inv.
  - unfold bind, throw. intros. by simplify_eq/=.
Qed.

(** ** The grants of one DID in store order *)

Lemma prefix_of_dkey did did' granter : fits did -> fits did' ->
  (byte_of_Z 2 :: prefixed did) `prefix_of` dkey granter did' -> did = did'.
Proof.
  intros [Hp Hl] [Hp' Hl'] [rest Heq]. unfold dkey, prefixed in Heq. simpl in Heq.
  injection Heq as Hlen Heq.
  assert (length did = length did').
  { apply (f_equal Z_of_byte) in Hlen. rewrite !Z_of_byte_of_Z in Hlen by lia. lia. }
  by apply app_inj_1 in Heq as [-> _].
Qed.

(** The stored grants to a DID, with their keys, in key order. *)
Definition did_items did (m : gmap bytes DIDGrant) : list (bytes * DIDGrant) :=
  store_prefix_items (byte_of_Z 2 :: prefixed did) m.

Lemma did_items_spec did st k g : fits did -> did_inv st ->
  (k, g) ∈ did_items did (did_grants st) ->
  did_grants st !! k = Some g /\ did_entry k g /\ GranteeDid g = did.
Proof.
  intros Hd Hi Hin. apply elem_of_store_prefix_items in Hin as [Hpre Hk].
  pose proof (did_entries _ Hi _ _ Hk) as He. split_and!; [done|done|].
  destruct He as (gr & Hgr & Hdd & _ & -> & _). symmetry. by eapply prefix_of_dkey.
Qed.

Lemma didGrantsOf_run did s : fits did ->
  didGrantsOf did s =
    (Ok (DIDGrant_UnpackInterfaces <$> (did_items did (did_grants (fs s))).*2), s).
Proof.
  intros Hd. unfold didGrantsOf, FeeAllowancePrefixByDID, bind, of_outcome.
  rewrite MustLengthPrefix_fits by done. done.
Qed.

(** An allowance that is to be removed together with an error has expired. *)
Lemma accept_remove_err ctx fee msgs : forall a e,
  acc_remove (Accept ctx fee msgs a) = true -> acc_err (Accept ctx fee msgs a) = Some e ->
  exists x, ExpiresAt a = inl x /\ expired x (block_time ctx) = true.
Proof.
  fix IH 1. intros [b|p|inner l] e; simpl.
  - unfold BasicAllowance_Accept. destruct (expired _ _) eqn:Hx; [eauto|].
    destruct (negb _); [|done]. by destruct (SafeSub _ _) as [? [|]].
  - unfold PeriodicAllowance_Accept. destruct (expired _ _) eqn:Hx; [eauto|].
    destruct (SafeSub _ fee) as [? [|]]; [done|]. simpl. destruct (negb _); [|done].
    by destruct (SafeSub _ fee) as [? [|]].
  - destruct (allMsgTypesAllowed l msgs); simpl; [|done]. destruct inner as [i|]; [|done].
    specialize (IH i). destruct (acc_err (Accept ctx fee msgs i)) eqn:Ee; simpl; [eauto|].
    by destruct (acc_remove _).
Qed.

(** A grant that covers the fee, and whose next state can be stored. *)
Definition covers ctx fee msgs (g : DIDGrant) : Prop :=
  let r := Accept ctx fee msgs (value_of g) in
  acc_err r = None /\
  (acc_remove r = true \/ marshals (acc_state r) = true /\ exists x, ExpiresAt (acc_state r) = inl x).

(** [st'] is [st] up to expired grants that were removed. *)
Definition swept (now : Time) (st st' : FeegrantStore) : Prop :=
  forall k, did_grants st' !! k = did_grants st !! k \/
    did_grants st' !! k = None /\
    exists g, did_grants st !! k = Some g /\ expired (dexp g) now = true.

(** What a use of grant [g] leaves under its key. *)
Definition charged_to ctx fee msgs (g : DIDGrant) (o : option DIDGrant) : Prop :=
  let r := Accept ctx fee msgs (value_of g) in
  if acc_remove r then o = None
  else exists g', o = Some g' /\ value_of g' = acc_state r /\
         DIDGranter g' = DIDGranter g /\ GranteeDid g' = GranteeDid g.

Lemma swept_refl now st : swept now st st.
Proof. by left. Qed.

Lemma swept_del now st k g : did_grants st !! k = Some g -> expired (dexp g) now = true ->
  swept now st (del_did k st).
Proof.
  intros Hk Hx k'. simpl. destruct (decide (k' = k)) as [->|Hne].
  - right. rewrite lookup_delete_eq. eauto.
  - left. by rewrite lookup_delete_ne.
Qed.

Lemma swept_trans now a b c : swept now a b -> swept now b c -> swept now a c.
Proof.
  intros Hab Hbc k. destruct (Hbc k) as [->|[-> (g & Hg & Hx)]]; [apply Hab|].
  right. split; [done|]. destruct (Hab k) as [Heq|[? _]]; [|congruence].
  exists g. by rewrite <- Heq.
Qed.

(** The outcome of the loop over the grants [l] of a DID. *)
Definition first_use ctx did fee msgs (l : list (bytes * DIDGrant)) (st : FeegrantStore)
    (o : outcome bytes) (st' : FeegrantStore) : Prop :=
  match o with
  | Ok granter =>
      exists pre k g post, l = pre ++ (k, g) :: post /\
        Forall (fun x => ~ covers ctx fee msgs x.2) pre /\ covers ctx fee msgs g /\
        k = dkey granter did /\ charged_to ctx fee msgs g (did_grants st' !! k) /\
        exists st1, swept (block_time ctx) st st1 /\
          forall k', k' <> k -> did_grants st' !! k' = did_grants st1 !! k'
  | Err e =>
      e = ErrNotFound /\ Forall (fun x => ~ covers ctx fee msgs x.2) l /\
      swept (block_time ctx) st st'
  | Panic => False
  end.

Lemma first_use_skip ctx did fee msgs k g l st st1 o st' :
  ~ covers ctx fee msgs g -> swept (block_time ctx) st st1 ->
  first_use ctx did fee msgs l st1 o st' -> first_use ctx did fee msgs ((k, g) :: l) st o st'.
Proof.
  intros Hnc Hsw. destruct o as [granter|e|]; simpl; [| |done].
  - intros (pre & k' & g' & post & -> & Hpre & Hc & Hk & Hch & st2 & Hst2 & Ho).
    exists ((k, g) :: pre), k', g', post. split_and!; auto.
    exists st2. split; [by eapply swept_trans|done].
  - intros (-> & Hl & Hs). split_and!; [done|by constructor|by eapply swept_trans].
Qed.

Lemma useFirstGrant_run ctx did fee msgs : fits did -> forall l s,
  did_inv (fs s) -> NoDup l.*1 ->
  Forall (fun x => did_grants (fs s) !! x.1 = Some x.2 /\ GranteeDid x.2 = did) l ->
  exists o s', useFirstGrant ctx did fee msgs (DIDGrant_UnpackInterfaces <$> l.*2) s = (o, s') /\
    did_inv (fs s') /\ first_use ctx did fee msgs l (fs s) o (fs s').
Proof.
  intros Hd. induction l as [|[k g] l IH]; intros s Hi Hnd Hl.
  { exists (Err ErrNotFound), s. split_and!; [done|done|]. split_and!; [done|done|apply swept_refl]. }
  apply NoDup_cons in Hnd as [Hnin Hnd]. apply Forall_cons in Hl as [[Hk Hgd] Hl]. simpl in Hk, Hgd.
  destruct (did_entries _ Hi _ _ Hk) as (granter & Hgr & _ & Hname & Hkey & Hx & Hm).
  rewrite Hgd in Hkey. rewrite !fmap_cons. cbn [useFirstGrant snd].
  change (DIDGranter (DIDGrant_UnpackInterfaces g)) with (DIDGranter g).
  rewrite Hname, StringToBytes_BytesToString by done.
  change (GetDIDGrant (DIDGrant_UnpackInterfaces g)) with (Ok (value_of g)). cbv beta match zeta.
  destruct (acc_remove (Accept ctx fee msgs (value_of g))) eqn:Hrm.
  - destruct (revokeDIDAllowance_run granter did s Hgr Hd Hi) as (s1 & Hrun & Hs1).
    rewrite <- Hkey, Hk in Hrun, Hs1. erewrite attempt_run_ok by exact Hrun.
    destruct (acc_err (Accept ctx fee msgs (value_of g))) as [e|] eqn:Herr.
    + destruct (accept_remove_err _ _ _ _ _ Hrm Herr) as (x & Hex & Hexp).
      assert (Hde : dexp g = x) by (unfold dexp; by rewrite Hex).
      destruct (IH s1) as (o & s' & Hrun' & Hi' & Hf); [rewrite Hs1; by apply del_did_inv|done| |].
      { rewrite Forall_forall in Hl |- *. intros [k' g'] Hin. destruct (Hl _ Hin) as [Hk' ?].
        split; [|done]. rewrite Hs1. simpl. rewrite lookup_delete_ne; [done|]. intros <-. apply Hnin. by apply (list_elem_of_fmap_2 fst) in Hin. }
      exists o, s'. split_and!; [done|done|]. eapply first_use_skip; [|by eapply swept_del; [|rewrite Hde]|].
      * unfold covers. rewrite Herr. naive_solver.
      * by rewrite <- Hs1.
    + exists (Ok granter), s1. split_and!; [done|rewrite Hs1; by apply del_did_inv|].
      exists [], k, g, l. split_and!; [done|done| |done| |].
      * unfold covers. rewrite Herr, Hrm. auto.
      * unfold charged_to. rewrite Hrm, Hs1. apply lookup_delete_eq.
      * exists (fs s). split; [apply swept_refl|]. intros k' Hne. rewrite Hs1. by apply lookup_delete_ne.
  - destruct (acc_err (Accept ctx fee msgs (value_of g))) as [e|] eqn:Herr.
    + destruct (IH s Hi Hnd Hl) as (o & s' & Hrun' & Hi' & Hf). exists o, s'. split_and!; [done|done|].
      eapply first_use_skip; [|apply swept_refl|done]. unfold covers. rewrite Herr. naive_solver.
    + destruct (UpdateDIDAllowance_run granter did (acc_state (Accept ctx fee msgs (value_of g))) s Hgr Hd Hi)
        as (o & s1 & Hrun & Ho). rewrite <- Hkey in Ho.
      destruct o as [[]|e|]; [| |done].
      * erewrite attempt_run_ok by exact Hrun. destruct Ho as (_ & Hentry & Hs1). exists (Ok granter), s1.
        split_and!; [done|rewrite Hs1; by apply put_did_inv|].
        exists [], k, g, l. split_and!; [done|done| |done| |].
        -- unfold covers. rewrite Herr. destruct Hentry as (? & _ & _ & _ & _ & Hx' & Hm'). eauto.
        -- unfold charged_to. rewrite Hrm, Hs1. simpl. rewrite lookup_insert_eq. eexists. by split_and!.
        -- exists (fs s). split; [apply swept_refl|]. intros k' Hne. rewrite Hs1. by apply lookup_insert_ne.
      * destruct Ho as (-> & Hbad). erewrite attempt_run_err by exact Hrun. destruct (IH s Hi Hnd Hl) as (o & s' & Hrun' & Hi' & Hf).
        exists o, s'. split_and!; [done|done|]. eapply first_use_skip; [|apply swept_refl|done].
        unfold covers. intros (_ & [?|[Hm' [x Hx']]]); [congruence|].
        destruct Hbad as [?|[?|[? ?]]]; congruence.
Qed.
End did_ops.
