(* ===== verification/FeegrantPrune.v ===== *)
(** The life of DID grants: pruning, use and reachability.

    Pruning removes expired grants only, all of them or as many as its limit; a
    fee for a DID goes to the first grant that covers it; and in every state
    that the module's operations can reach, the grants and the expiration queue
    agree. *)
From Stdlib Require Import Ascii ZArith Lia.
From stdpp Require Import base numbers list gmap strings.
From S2P Require Import Prelude Sdk FeeAllowance FeegrantKeys FeegrantKeeper FeegrantDID.

Section prune.
Context `{CoinsOps, SdkKeys, AddressCodec}.
Context {S : Type} `{HL : Lens S FeegrantStore, HAK : AccountKeeper S} {HLL : LensLaws S FeegrantStore}.
Implicit Types (s : S) (granter did : bytes) (ctx : Ctx) (fee : Coins) (msgs : list bytes).

Abbreviation fs s := (lens_get (T := FeegrantStore) s).

(** ** The range of the queue iterator *)

(** A queue key lies in the iterated range exactly when it expired before now. *)
Lemma qkey_in_range now e granter did : time_in_range now -> time_in_range e -> fits did ->
  let qk := qkey e (dkey granter did) in
  bytes_leb DIDFeeAllowanceQueueKeyPrefix qk
    && negb (bytes_leb (InclusiveEndBytes (DIDAllowanceByExpTimeKey now)) qk) = (e <? now).
Proof.
  intros Hn He [Hp Hl] qk.
  assert (Hlow : bytes_leb DIDFeeAllowanceQueueKeyPrefix qk = true).
  { apply (bytes_leb_app DIDFeeAllowanceQueueKeyPrefix [] (FormatTimeBytes e ++ _)). }
  rewrite Hlow, InclusiveEndBytes_spec. unfold qk, qkey, DIDFeeAllowancePrefixQueue. simpl.
  destruct (decide (e = now)) as [->|Hne].
  - rewrite bytes_leb_app. simpl. rewrite !Z_of_byte_of_Z by lia.
    destruct (Z.ltb_spec 0 (Z.of_nat (length did))); [|lia]. lia.
  - rewrite bytes_leb_app_same_length.
    + rewrite FormatTimeBytes_leb by done. lia.
    + by rewrite !FormatTimeBytes_length.
    + intros Heq. apply Hne. by apply FormatTimeBytes_inj.
Qed.

(** ** One pruned entry, then the loop *)

Definition prune_did_entry (key : bytes) : M S unit :=
  fg_mod (fun st => set_did_queue (delete key (did_queue st)) st) ;;;
  gd <- of_outcome (ParseGranterDIDFromDIDAllowanceQueueKey key) ;;
  grantKey <- of_outcome (FeeAllowanceByDIDKey gd.1 gd.2) ;;
  fg_mod (fun st => set_did_grants (delete grantKey (did_grants st)) st).

Lemma prune_did_entry_run s k g e : did_inv (fs s) ->
  did_grants (fs s) !! k = Some g -> dexp g = Some e ->
  exists s', prune_did_entry (qkey e k) s = (Ok tt, s') /\ fs s' = del_did k (fs s).
Proof.
  intros Hi Hk He. pose proof (did_entries _ Hi _ _ Hk) as Hent.
  pose proof (did_entry_time _ _ _ Hent He) as Ht.
  destruct Hent as (granter & Hgr & Hd & _ & -> & _ & _).
  unfold prune_did_entry. erewrite bind_run_ok by apply fg_mod_run.
  pose proof (parse_did_queue_key granter (GranteeDid g) e Hgr Hd Ht) as Hparse.
  change (DIDFeeAllowancePrefixQueue _ _) with (qkey e (dkey granter (GranteeDid g))) in Hparse.
  unfold bind, of_outcome. rewrite Hparse. cbn [fst snd].
  rewrite FeeAllowanceByDIDKey_fits by done. fold (dkey granter (GranteeDid g)).
  rewrite fg_mod_run. eexists. split; [done|]. rewrite !lens_get_set.
  unfold del_did. rewrite Hk. simpl. by rewrite He.
Qed.

(** What pruning the queue entries [ks], of which [done] are already counted, does. *)
Definition pruned (now limit count : Z) (ks : list bytes) (st st' : FeegrantStore) : Prop :=
  swept now st st' /\
  (Forall (fun qk => did_queue st' !! qk = None) ks \/
   Z.of_nat (size (did_grants st)) = Z.of_nat (size (did_grants st')) + (limit - count)).

Lemma size_del_did k g st : did_grants st !! k = Some g ->
  Z.of_nat (size (did_grants st)) = Z.of_nat (size (did_grants (del_did k st))) + 1.
Proof.
  intros Hk. simpl. rewrite map_size_delete, Hk.
  assert (size (did_grants st) <> 0%nat); [|simpl; lia].
  apply map_size_non_empty_iff. intros Hem. by rewrite Hem, lookup_empty in Hk.
Qed.

Lemma pruneLoop_run now limit : limit < 2 ^ 31 -> forall ks count s,
  0 <= count < limit -> did_inv (fs s) -> NoDup ks ->
  Forall (fun qk => exists k g e, did_grants (fs s) !! k = Some g /\ dexp g = Some e /\
                      qk = qkey e k /\ e < now) ks ->
  exists s', pruneLoop prune_did_entry limit count ks s = (Ok tt, s') /\ did_inv (fs s') /\
    pruned now limit count ks (fs s) (fs s').
Proof.
  intros Hlim. induction ks as [|qk ks IH]; intros count s Hc Hi Hnd Hks.
  { exists s. split_and!; [done|done|]. split; [apply swept_refl|by left]. }
  apply NoDup_cons in Hnd as [Hnin Hnd]. apply Forall_cons in Hks as [(k & g & e & Hk & He & -> & Hlt) Hks].
  destruct (prune_did_entry_run s k g e Hi Hk He) as (s1 & Hrun1 & Hs1).
  pose proof (size_del_did _ _ _ Hk) as Hsize. rewrite <- Hs1 in Hsize.
  assert (Hsw : swept now (fs s) (fs s1)).
  { rewrite Hs1. eapply swept_del; [done|]. rewrite He. simpl. unfold time_before. lia. }
  assert (Hi1 : did_inv (fs s1)) by (rewrite Hs1; by apply del_did_inv).
  assert (Hgone : did_queue (fs s1) !! qkey e k = None).
  { rewrite Hs1. simpl. rewrite Hk. simpl. rewrite He. apply lookup_delete_eq. }
  cbn [pruneLoop]. erewrite bind_run_ok by exact Hrun1. cbv zeta.
  rewrite wrap32_small by lia. destruct (Z.eqb_spec (count + 1) limit) as [Heq|Hne].
  { exists s1. split_and!; [done|done|]. split; [done|]. right. lia. }
  destruct (IH (count + 1) s1) as (s2 & Hrun2 & Hi2 & Hsw2 & Hend); [lia|done|done| |].
  { rewrite Forall_forall in Hks |- *. intros qk Hin. destruct (Hks qk Hin) as (k' & g' & e' & Hk' & He' & -> & Hlt').
    exists k', g', e'. split_and!; [|done|done|done]. rewrite Hs1. simpl.
    rewrite lookup_delete_ne; [done|]. intros <-. by simplify_eq. }
  exists s2. split_and!; [done|done|]. split; [by eapply swept_trans|].
  destruct Hend as [Hall|Hsz]; [left|right; lia]. constructor; [|done].
  apply eq_None_not_Some. intros Hq. apply (did_queued _ Hi2) in Hq as (k' & g' & e' & Hk' & He' & Heq).
  assert (is_Some (did_queue (fs s1) !! qkey e k)) as [? ?]; [|congruence].
  apply (did_queued _ Hi1). exists k', g', e'. split_and!; [|done|done].
  destruct (Hsw2 k') as [<-|[? _]]; [done|congruence].
Qed.

Lemma range_keys_spec now st : time_in_range now -> did_inv st ->
  let ks := range_keys DIDFeeAllowanceQueueKeyPrefix
              (InclusiveEndBytes (DIDAllowanceByExpTimeKey now)) (did_queue st) in
  NoDup ks /\
  (forall qk, qk ∈ ks <-> exists k g e, did_grants st !! k = Some g /\ dexp g = Some e /\
                           qk = qkey e k /\ e < now).
Proof.
  intros Hn Hi ks. split.
  { unfold ks, range_keys. eapply sublist_NoDup; [apply (store_items_NoDup (did_queue st))|].
    apply fmap_sublist, sublist_filter. }
  assert (Hrange : forall k g e, did_grants st !! k = Some g -> dexp g = Some e ->
    bytes_leb DIDFeeAllowanceQueueKeyPrefix (qkey e k)
    && negb (bytes_leb (InclusiveEndBytes (DIDAllowanceByExpTimeKey now)) (qkey e k)) = (e <? now)).
  { intros k g e Hk He. pose proof (did_entries _ Hi _ _ Hk) as Hent.
    pose proof (did_entry_time _ _ _ Hent He). destruct Hent as (gr & _ & Hd & _ & -> & _).
    by apply qkey_in_range. }
  intros qk. unfold ks, range_keys. rewrite list_elem_of_fmap. split.
  - intros ([qk' []] & -> & [Hr Hin]%list_elem_of_filter). apply elem_of_store_items in Hin. cbn [fst] in *.
    destruct (proj1 (did_queued _ Hi qk') (mk_is_Some _ _ Hin)) as (k & g & e & Hk & He & ->).
    exists k, g, e. split_and!; try done. rewrite (Hrange k g e Hk He) in Hr. by apply Z.ltb_lt, Is_true_true.
  - intros (k & g & e & Hk & He & -> & Hlt). exists (qkey e k, tt). split; [done|].
    apply list_elem_of_filter. cbn [fst]. split.
    + rewrite (Hrange k g e Hk He). by apply Is_true_true, Z.ltb_lt.
    + apply elem_of_store_items.
      by destruct (proj2 (did_queued _ Hi (qkey e k))) as [[] Hq]; [by exists k, g, e|].
Qed.

Lemma RemoveExpiredDIDAllowances_run ctx limit s :
  time_in_range (block_time ctx) -> 0 < limit < 2 ^ 31 -> did_inv (fs s) ->
  exists s', RemoveExpiredDIDAllowances ctx limit s = (Ok tt, s') /\ did_inv (fs s') /\
    swept (block_time ctx) (fs s) (fs s') /\
    ((forall k g, did_grants (fs s') !! k = Some g -> expired (dexp g) (block_time ctx) = false) \/
     Z.of_nat (size (did_grants (fs s))) = Z.of_nat (size (did_grants (fs s'))) + limit).
Proof.
  intros Hn Hl Hi. destruct (range_keys_spec (block_time ctx) (fs s) Hn Hi) as [Hnd Hks].
  unfold RemoveExpiredDIDAllowances. erewrite bind_run_ok by done. fold prune_did_entry.
  destruct (pruneLoop_run (block_time ctx) limit ltac:(lia) _ 0 s ltac:(lia) Hi Hnd) as (s' & Hrun & Hi' & Hsw & Hend).
  { apply Forall_forall. intros qk Hqk. apply Hks in Hqk as (k & g & e & ?). eauto. }
  exists s'. split_and!; [done|done|done|]. destruct Hend as [Hall|Hsz]; [left|right; lia].
  intros k g Hk. apply not_true_is_false. intros Hx. destruct (dexp g) as [e|] eqn:He; [|done].
  simpl in Hx. unfold time_before in Hx. rewrite Forall_forall in Hall.
  assert (Hk0 : did_grants (fs s) !! k = Some g) by (destruct (Hsw k) as [<-|[? _]]; congruence).
  specialize (Hall (qkey e k)). assert (is_Some (did_queue (fs s') !! qkey e k)) as [? Hq].
  { apply (did_queued _ Hi'). by exists k, g, e. }
  rewrite Hall in Hq; [done|]. apply Hks. exists k, g, e. split_and!; try done. lia.
Qed.

(** Pruning is exact. On a consistent state it succeeds, removes nothing but
    grants whose expiration lies before the block time, keeps the queue in step,
    and either leaves no expired grant or has removed exactly [limit] of them. *)
Theorem prune_did_exact ctx limit s :
  time_in_range (block_time ctx) -> 0 < limit < 2 ^ 31 -> did_inv (fs s) ->
  exists s', RemoveExpiredDIDAllowances ctx limit s = (Ok tt, s') /\ did_inv (fs s') /\
    swept (block_time ctx) (fs s) (fs s') /\
    ((forall k g, did_grants (fs s') !! k = Some g -> expired (dexp g) (block_time ctx) = false) \/
     Z.of_nat (size (did_grants (fs s))) = Z.of_nat (size (did_grants (fs s'))) + limit).
Proof. apply RemoveExpiredDIDAllowances_run. Qed.

Lemma UseFirstAvailableDIDGrant_run ctx did fee msgs s : fits did -> did_inv (fs s) ->
  exists o s', UseFirstAvailableDIDGrant ctx did fee msgs s = (o, s') /\ did_inv (fs s') /\
    first_use ctx did fee msgs (did_items did (did_grants (fs s))) (fs s) o (fs s').
Proof.
  intros Hd Hi. unfold UseFirstAvailableDIDGrant. erewrite bind_run_ok by (by apply didGrantsOf_run).
  apply useFirstGrant_run; [done|done|apply store_prefix_items_NoDup|].
  apply Forall_forall. intros [k g] Hin. apply did_items_spec in Hin as (Hk & _ & Hgd); done.
Qed.

(** C19: Using the first available grant of a DID never panics. When it returns a
    granter, that granter's grant is the first in store order that covers the
    fee: every earlier grant is refused, exactly the fee is charged to it (or it
    is removed when used up), and every other grant is untouched, expired ones
    that were passed over excepted, which are removed. When it fails, no grant
    of the DID covers the fee. *)
Theorem use_first_available ctx did fee msgs s : fits did -> did_inv (fs s) ->
  exists o s', UseFirstAvailableDIDGrant ctx did fee msgs s = (o, s') /\
    first_use ctx did fee msgs (did_items did (did_grants (fs s))) (fs s) o (fs s').
Proof.
  intros Hd Hi. destruct (UseFirstAvailableDIDGrant_run ctx did fee msgs s Hd Hi) as (o & s' & ? & _ & ?).
  by exists o, s'.
Qed.

(** ** Operations and reachable states *)

Inductive did_op : Type :=
  | OpGrant (ctx : Ctx) (granter did : bytes) (a : Allowance)
  | OpUpdate (granter did : bytes) (a : Allowance)
  | OpRevoke (granter did : bytes)
  | OpExpire (ctx : Ctx) (granter did : bytes)
  | OpUse (ctx : Ctx) (granter did : bytes) (fee : Coins) (msgs : list bytes)
  | OpUseFirst (ctx : Ctx) (did : bytes) (fee : Coins) (msgs : list bytes)
  | OpPrune (ctx : Ctx) (limit : Z)
  | OpAddrGrant (ctx : Ctx) (granter grantee : bytes) (a : Allowance)
  | OpAddrRevoke (granter grantee : bytes)
  | OpAddrUse (ctx : Ctx) (granter grantee : bytes) (fee : Coins) (msgs : list bytes)
  | OpAddrPrune (ctx : Ctx) (limit : Z).

Definition run_op (op : did_op) : M S unit :=
  match op with
  | OpGrant ctx granter did a => GrantDIDAllowance ctx granter did a
  | OpUpdate granter did a => UpdateDIDAllowance granter did a
  | OpRevoke granter did => revokeDIDAllowance granter did
  | OpExpire ctx granter did => ExpireDIDAllowance ctx granter did
  | OpUse ctx granter did fee msgs => UseGrantedFeesByDID ctx granter did fee msgs
  | OpUseFirst ctx did fee msgs => UseFirstAvailableDIDGrant ctx did fee msgs ;;; ret tt
  | OpPrune ctx limit => RemoveExpiredDIDAllowances ctx limit
  | OpAddrGrant ctx granter grantee a => GrantAllowance ctx granter grantee a
  | OpAddrRevoke granter grantee => revokeAllowance granter grantee
  | OpAddrUse ctx granter grantee fee msgs => UseGrantedFees ctx granter grantee fee msgs
  | OpAddrPrune ctx limit => RemoveExpiredAllowances ctx limit
  end.

(** Addresses and DIDs fit a key, and prunes run at a valid block time. *)
Definition op_ok (op : did_op) : Prop :=
  match op with
  | OpGrant _ granter did _ | OpUpdate granter did _ | OpRevoke granter did
  | OpExpire _ granter did | OpUse _ granter did _ _ => fits granter /\ fits did
  | OpUseFirst _ did _ _ => fits did
  | OpPrune ctx limit => time_in_range (block_time ctx) /\ 0 < limit < 2 ^ 31
  | _ => True
  end.

(** A transaction commits an operation that succeeds; one that fails changes nothing. *)
Inductive reachable : S -> Prop :=
  | reachable_init s : fs s = mkFeegrantStore ∅ ∅ ∅ ∅ -> reachable s
  | reachable_step s op s' :
      reachable s -> op_ok op -> run_op op s = (Ok tt, s') -> reachable s'.

Definition did_maps (dg : gmap bytes DIDGrant) (dq : gmap bytes unit) s : Prop :=
  did_grants (fs s) = dg /\ did_queue (fs s) = dq.

Lemma did_inv_maps st st' : did_grants st' = did_grants st -> did_queue st' = did_queue st ->
  did_inv st -> did_inv st'.
Proof. intros Hg Hq [HE HQ]. split; rewrite Hg, ?Hq; auto. Qed.

Lemma did_maps_fg_mod dg dq f :
  (forall st, did_grants (f st) = did_grants st /\ did_queue (f st) = did_queue st) ->
  preserves (did_maps dg dq) (fg_mod f).
Proof.
  intros Hf. apply preserves_modify. intros s [Hg Hq]. unfold did_maps. rewrite lens_get_set.
  destruct (Hf (fs s)) as [-> ->]. done.
Qed.

Context {HAKL : AccountKeeperLaws S}.

Lemma did_maps_create dg dq a : preserves (did_maps dg dq) (modify (CreateAccount a)).
Proof. apply preserves_modify. intros s. unfold did_maps. by rewrite CreateAccount_frame. Qed.

Lemma pruneLoop_preserves (I : S -> Prop) prune limit ks : forall count,
  (forall k, preserves I (prune k)) -> preserves I (pruneLoop prune limit count ks).
Proof.
  induction ks as [|k ks IH]; intros count Hp; simpl; [apply preserves_ret|].
  apply preserves_bind; [apply Hp|]. intros _. destruct (_ =? _); [apply preserves_ret|by apply IH].
Qed.

(** Grants to addresses leave the DID maps alone. *)
Lemma addr_op_frame dg dq op :
  match op with
  | OpAddrGrant _ _ _ _ | OpAddrRevoke _ _ | OpAddrUse _ _ _ _ _ | OpAddrPrune _ _ =>
      preserves (did_maps dg dq) (run_op op)
  | _ => True
  end.
Proof.
  pose proof (did_maps_fg_mod dg dq) as Hfg. pose proof (did_maps_create dg dq) as Hcr.
  assert (Hget : forall a b, preserves (did_maps dg dq) (GetAllowance a b)).
  { intros a b. unfold GetAllowance, getGrant, fg_get. preserve. }
  assert (Hrev : forall a b, preserves (did_maps dg dq) (revokeAllowance a b)).
  { intros a b. unfold revokeAllowance, expiresAt. preserve; try apply Hfg; auto. }
  assert (Hupd : forall a b x, preserves (did_maps dg dq) (UpdateAllowance a b x)).
  { intros a b x. unfold UpdateAllowance, getGrant, fg_get. preserve; try apply Hfg; auto. }
  destruct op; try exact I; simpl.
  - unfold GrantAllowance, addToFeeAllowanceQueue, expiresAt. preserve; try apply Hfg; auto.
  - apply Hrev.
  - unfold UseGrantedFees. preserve; auto.
  - unfold RemoveExpiredAllowances, fg_get. preserve.
    apply pruneLoop_preserves. intros k. preserve; try apply Hfg; auto.
Qed.

Lemma run_op_inv op s s' :
  op_ok op -> did_inv (fs s) -> run_op op s = (Ok tt, s') -> did_inv (fs s').
Proof.
  intros Hok Hi Hrun. pose proof (addr_op_frame (did_grants (fs s)) (did_queue (fs s)) op) as Hfr.
  destruct op as [ctx gr did a|gr did a|gr did|ctx gr did|ctx gr did fee msgs|ctx did fee msgs
    |ctx limit|ctx gr ge a|gr ge|ctx gr ge fee msgs|ctx limit]; simpl in Hok, Hrun.
  - destruct Hok as [Hg Hd]. apply GrantDIDAllowance_ok in Hrun as (_ & g & He & _ & _ & ->); [|done..].
    by apply put_did_inv.
  - destruct Hok. eapply UpdateDIDAllowance_inv; [| | |exact Hrun]; done.
  - destruct Hok. eapply revokeDIDAllowance_inv; [| | |exact Hrun]; done.
  - destruct Hok. eapply ExpireDIDAllowance_inv; [| | |exact Hrun]; done.
  - destruct Hok. eapply UseGrantedFeesByDID_inv; [| | |exact Hrun]; done.
  - destruct (UseFirstAvailableDIDGrant_run ctx did fee msgs s Hok Hi) as (o & s1 & Hr & Hi1 & _).
    ok_inv Hrun. rewrite Hr in Hrun0. unfold ret in Hrun. by simplify_eq.
  - destruct Hok as [Ht Hl].
    destruct (RemoveExpiredDIDAllowances_run ctx limit s Ht Hl Hi) as (s1 & Hr & Hi1 & _).
    rewrite Hr in Hrun. by simplify_eq.
  - eapply (preserves_ok _ _ s _ s' Hfr) in Hrun as [??]; [|done]. by eapply did_inv_maps.
  - eapply (preserves_ok _ _ s _ s' Hfr) in Hrun as [??]; [|done]. by eapply did_inv_maps.
  - eapply (preserves_ok _ _ s _ s' Hfr) in Hrun as [??]; [|done]. by eapply did_inv_maps.
  - eapply (preserves_ok _ _ s _ s' Hfr) in Hrun as [??]; [|done]. by eapply did_inv_maps.
Qed.

Lemma empty_did_inv : did_inv (mkFeegrantStore ∅ ∅ ∅ ∅).
Proof.
  split; simpl; [done|]. intros qk. rewrite lookup_empty.
  split; [intros []; done|]. intros (k & g & e & Hk & _). by rewrite lookup_empty in Hk.
Qed.

(** C22: In every reachable state the DID grants and their expiration queue agree:
    each grant is stored under the key of its own granter and DID, and the queue
    holds an entry for exactly the grants that expire, at their current
    expiration. Every operation of the module is a step: grants, updates, uses,
    expirations, revocations and prunes, to DIDs and to addresses. *)
Theorem reachable_did_inv s : reachable s -> did_inv (fs s).
Proof.
  induction 1 as [s Hs|s op s' _ IH Hok Hrun].
  - rewrite Hs. apply empty_did_inv.
  - by eapply run_op_inv.
Qed.
End prune.

(** * Witnesses *)

(** The store alone, where every account exists. *)
#[export] Instance store_lens : Lens FeegrantStore FeegrantStore :=
  {| lens_get s := s; lens_set t _ := t |}.

#[export] Instance store_lens_laws : LensLaws FeegrantStore FeegrantStore.
Proof. by split. Qed.

#[export] Instance store_accounts : AccountKeeper FeegrantStore :=
  {| HasAccount _ _ := true; CreateAccount _ s := s; BlockedAddr _ := false |}.

#[export] Instance store_accounts_laws : AccountKeeperLaws FeegrantStore.
Proof. by split. Qed.

Definition empty_store : FeegrantStore := mkFeegrantStore ∅ ∅ ∅ ∅.

(** Alice's allowance expires at 50, Carol's never does. *)
Definition expiring : Allowance := ABasic (mkBasic (ucredits 100) (Some 50)).
Definition lasting : Allowance := ABasic (mkBasic (ucredits 100) None).

Definition one_grant : FeegrantStore :=
  snd (GrantDIDAllowance (witness_ctx 10) (lit "alice") (lit "did:b") expiring empty_store).

Definition two_grants : FeegrantStore :=
  snd (GrantDIDAllowance (witness_ctx 10) (lit "carol") (lit "did:b") lasting one_grant).

Definition alice_op : did_op := OpGrant (witness_ctx 10) (lit "alice") (lit "did:b") expiring.
Definition carol_op : did_op := OpGrant (witness_ctx 10) (lit "carol") (lit "did:b") lasting.

Lemma grant_ops_run :
  op_ok alice_op /\ run_op alice_op empty_store = (Ok tt, one_grant) /\
  op_ok carol_op /\ run_op carol_op one_grant = (Ok tt, two_grants).
Proof.
  refine (conj _ (conj _ (conj _ _))); [|vm_compute; reflexivity| |vm_compute; reflexivity];
    split; unfold fits; simpl; lia.
Qed.

Lemma two_grants_inv : did_inv two_grants.
Proof.
  destruct grant_ops_run as (H1 & R1 & H2 & R2).
  pose proof (run_op_inv alice_op empty_store one_grant H1 empty_did_inv R1) as I1.
  pose proof (run_op_inv carol_op one_grant two_grants H2 I1 R2) as I2. exact I2.
Qed.

Lemma reachable_did_inv_witness : did_inv two_grants.
Proof.
  destruct grant_ops_run as (H1 & R1 & H2 & R2).
  pose proof (reachable_init empty_store eq_refl) as I0.
  pose proof (reachable_step _ alice_op _ I0 H1 R1) as I1.
  pose proof (reachable_did_inv _ (reachable_step _ carol_op _ I1 H2 R2)) as I2. exact I2.
Defined.

(** At time 60 Alice's grant has expired, and the fee goes to Carol's. *)
Lemma use_first_available_witness :
  exists o s', UseFirstAvailableDIDGrant (witness_ctx 60) (lit "did:b") (ucredits 30) [] two_grants
      = (o, s') /\ first_use (witness_ctx 60) (lit "did:b") (ucredits 30) []
          (did_items (lit "did:b") (did_grants two_grants)) two_grants o s'.
Proof.
  pose proof (use_first_available (witness_ctx 60) (lit "did:b") (ucredits 30) [] two_grants) as Huse.
  apply Huse; [unfold fits; simpl; lia|apply two_grants_inv].
Defined.

Lemma prune_did_exact_witness :
  exists s', RemoveExpiredDIDAllowances (witness_ctx 60) 200 two_grants = (Ok tt, s') /\ did_inv s'.
Proof.
  destruct (prune_did_exact (witness_ctx 60) 200 two_grants) as (s' & Hr & Hi & _);
    [unfold time_in_range, time_zero; simpl; lia|lia|apply two_grants_inv|].
  exists s'. exact (conj Hr Hi).
Defined.
