(* ===== verification/FeegrantAddr.v ===== *)
(** Grants to addresses, and genesis: two places where the module does not do
    what it means to.

    Revoking a grant deletes the queue entry of the reverse grant, so the entry
    of the revoked one stays; when its time comes it takes away whatever grant
    the same pair has by then. And a genesis file with DID grants cannot be
    loaded, because decoding it does not unpack their allowances. *)
From Stdlib Require Import Ascii ZArith Lia.
From stdpp Require Import base numbers list gmap strings.
From S2P Require Import Prelude Sdk FeeAllowance FeegrantKeys FeegrantKeeper FeegrantPrune.

Section addr.
Context `{CoinsOps, SdkKeys, AddressCodec}.
Context {S : Type} `{HL : Lens S FeegrantStore, HAK : AccountKeeper S} {HLL : LensLaws S FeegrantStore}.
Context {HAKL : AccountKeeperLaws S}.
Implicit Types (s : S) (granter grantee : bytes) (ctx : Ctx).

Abbreviation fs s := (lens_get (T := FeegrantStore) s).

Definition akey granter grantee : bytes := byte_of_Z 0 :: prefixed grantee ++ prefixed granter.
Definition aqkey (e : Time) granter grantee : bytes :=
  FeeAllowancePrefixQueue e (prefixed grantee ++ prefixed granter).

Lemma akey_run {B} granter grantee (f : bytes -> M S B) s : fits granter -> fits grantee ->
  bind (of_outcome (FeeAllowanceKey granter grantee)) f s = f (akey granter grantee) s.
Proof. intros. unfold bind, of_outcome. by rewrite FeeAllowanceKey_fits. Qed.

Lemma GetAllowance_run granter grantee s : fits granter -> fits grantee ->
  GetAllowance granter grantee s =
    (match grants (fs s) !! akey granter grantee with
     | Some g => Ok (any_value (GrantAny g))
     | None => Err ErrNotFound
     end, s).
Proof.
  intros. unfold GetAllowance, getGrant, bind at 1. rewrite akey_run by done.
  unfold bind, fg_get, gets. by destruct (grants (fs s) !! akey granter grantee).
Qed.

Definition stored granter grantee (a : Allowance) : Grant :=
  mkGrant (BytesToString granter) (BytesToString grantee) (mkAny a true).

Definition enqueued (e : option Time) granter grantee (q : gmap bytes unit) : gmap bytes unit :=
  match e with Some t => <[aqkey t granter grantee := tt]> q | None => q end.

Lemma GrantAllowance_run ctx granter grantee a e s : fits granter -> fits grantee ->
  grants (fs s) !! akey granter grantee = None -> HasAccount grantee s = true ->
  marshals a = true -> ExpiresAt a = inl e -> expired e (block_time ctx) = false ->
  exists s', GrantAllowance ctx granter grantee a s = (Ok tt, s') /\
    grants (fs s') = <[akey granter grantee := stored granter grantee a]> (grants (fs s)) /\
    queue (fs s') = enqueued e granter grantee (queue (fs s)) /\ HasAccount grantee s' = true.
Proof.
  intros Hg Hd Hnone Hacc Hm He Hx. unfold GrantAllowance.
  erewrite attempt_run_err by (rewrite GetAllowance_run by done; by rewrite Hnone).
  erewrite bind_run_ok by done. rewrite Hacc. erewrite bind_run_ok by done. rewrite akey_run by done.
  unfold expiresAt. rewrite He. erewrite bind_run_ok by done.
  rewrite Hx. erewrite bind_run_ok by done. unfold NewGrant. rewrite Hm.
  destruct e as [t|]; eexists; (split; [reflexivity|]); rewrite ?lens_get_set, ?HasAccount_frame;
    by split_and!.
Qed.

Lemma aqkey_swap_ne e granter grantee : fits granter -> fits grantee -> time_in_range e ->
  granter <> grantee -> aqkey e granter grantee <> aqkey e grantee granter.
Proof.
  intros Hg Hd He Hne Heq. pose proof (parse_queue_key granter grantee e Hg Hd He) as P1.
  pose proof (parse_queue_key grantee granter e Hd Hg He) as P2.
  unfold aqkey in Heq. rewrite Heq, P2 in P1. congruence.
Qed.

(** Revoking leaves the queue entry in place. *)
Lemma revokeAllowance_run granter grantee a e s : fits granter -> fits grantee ->
  granter <> grantee -> time_in_range e ->
  grants (fs s) !! akey granter grantee = Some (stored granter grantee a) ->
  ExpiresAt a = inl (Some e) -> HasAccount grantee s = true ->
  exists s', revokeAllowance granter grantee s = (Ok tt, s') /\
    grants (fs s') = delete (akey granter grantee) (grants (fs s)) /\
    queue (fs s') = delete (aqkey e grantee granter) (queue (fs s)) /\ HasAccount grantee s' = true.
Proof.
  intros Hg Hd Hne Ht Hk He Hacc. unfold revokeAllowance.
  erewrite bind_run_ok by (rewrite GetAllowance_run by done; by rewrite Hk).
  rewrite akey_run by done. erewrite bind_run_ok by done. unfold expiresAt. simpl any_value.
  rewrite He. erewrite bind_run_ok by done. cbv beta match. rewrite akey_run by done.
  eexists. split; [reflexivity|]. rewrite !lens_get_set, !HasAccount_frame. by split_and!.
Qed.

Lemma aqkey_in_range now e granter grantee : time_in_range now -> time_in_range e -> e < now ->
  bytes_leb FeeAllowanceQueueKeyPrefix (aqkey e granter grantee)
    && negb (bytes_leb (InclusiveEndBytes (AllowanceByExpTimeKey now)) (aqkey e granter grantee)) = true.
Proof.
  intros Hn He Hlt.
  assert (Hlow : bytes_leb FeeAllowanceQueueKeyPrefix (aqkey e granter grantee) = true).
  { apply (bytes_leb_app FeeAllowanceQueueKeyPrefix [] (FormatTimeBytes e ++ _)). }
  rewrite Hlow, InclusiveEndBytes_spec. unfold aqkey, FeeAllowancePrefixQueue. simpl.
  rewrite bytes_leb_app_same_length.
  - rewrite FormatTimeBytes_leb by done. lia.
  - by rewrite !FormatTimeBytes_length.
  - intros Heq%FormatTimeBytes_inj; [lia|done..].
Qed.

(** A stale queue entry takes away the grant its pair has now. *)
Lemma prune_stale ctx granter grantee e g s : fits granter -> fits grantee -> time_in_range e ->
  time_in_range (block_time ctx) -> e < block_time ctx ->
  grants (fs s) = {[ akey granter grantee := g ]} -> queue (fs s) = {[ aqkey e granter grantee := tt ]} ->
  exists s', RemoveExpiredAllowances ctx 200 s = (Ok tt, s') /\ grants (fs s') = ∅.
Proof.
  intros Hg Hd He Hn Hlt Hgr Hq. unfold RemoveExpiredAllowances. erewrite bind_run_ok by done.
  assert (Hkeys : range_keys FeeAllowanceQueueKeyPrefix
    (InclusiveEndBytes (AllowanceByExpTimeKey (block_time ctx))) (queue (fs s)) = [aqkey e granter grantee]).
  { rewrite Hq. unfold range_keys. set (k := aqkey e granter grantee).
    assert (Hs : store_items {[k := tt]} = [(k, tt)])
      by (unfold store_items; by rewrite map_to_list_singleton).
    rewrite Hs, filter_cons_True; [by rewrite filter_nil|].
    apply Is_true_true. by apply aqkey_in_range. }
  rewrite Hkeys. cbn [pruneLoop]. unfold bind at 1. erewrite bind_run_ok by reflexivity.
  pose proof (parse_queue_key granter grantee e Hg Hd He) as Hparse. fold (aqkey e granter grantee) in Hparse.
  unfold bind at 1, of_outcome at 1. rewrite Hparse. cbn [fst snd]. rewrite akey_run by done.
  eexists. split; [reflexivity|]. rewrite lens_get_set. simpl. rewrite lens_get_set. simpl.
  rewrite Hgr. apply delete_singleton_eq.
Qed.

(** A revoked grant still expires, and takes its successor with it. Grant an
    allowance that expires at [e], revoke it, and grant the same pair an
    allowance that never expires: the pair can use it, until the first block
    after [e] prunes it, and then it is gone. The cause is that
    [revokeAllowance] deletes the queue entry of the pair in reverse. *)
Theorem revoked_expiry_prunes_new_grant ctx ctx' granter grantee a b e s :
  grants (fs s) = ∅ -> queue (fs s) = ∅ -> fits granter -> fits grantee -> granter <> grantee ->
  HasAccount grantee s = true -> marshals a = true -> marshals b = true ->
  ExpiresAt a = inl (Some e) -> ExpiresAt b = inl None -> time_in_range e ->
  time_in_range (block_time ctx') -> block_time ctx <= e < block_time ctx' ->
  exists s1 s2,
    (GrantAllowance ctx granter grantee a ;;; revokeAllowance granter grantee ;;;
     GrantAllowance ctx granter grantee b) s = (Ok tt, s1) /\
    GetAllowance granter grantee s1 = (Ok b, s1) /\
    RemoveExpiredAllowances ctx' 200 s1 = (Ok tt, s2) /\
    GetAllowance granter grantee s2 = (Err ErrNotFound, s2).
Proof.
  intros Hg Hq Fg Fd Hne Hacc Ma Mb Ea Eb Te Tn Ht.
  destruct (GrantAllowance_run ctx granter grantee a (Some e) s) as (s1 & R1 & G1 & Q1 & A1);
    try done; [by rewrite Hg, lookup_empty|simpl; unfold time_before; lia|].
  destruct (revokeAllowance_run granter grantee a e s1) as (s2 & R2 & G2 & Q2 & A2);
    try done; [by rewrite G1, lookup_insert_eq|].
  rewrite G1, Hg, delete_insert_eq, delete_empty in G2.
  destruct (GrantAllowance_run ctx granter grantee b None s2) as (s3 & R3 & G3 & Q3 & A3);
    try done; [by rewrite G2, lookup_empty|].
  assert (Hq3 : queue (fs s3) = {[aqkey e granter grantee := tt]}).
  { rewrite Q3, Q2, Q1, Hq. simpl. rewrite delete_insert_ne; [by rewrite delete_empty|].
    by apply aqkey_swap_ne. }
  destruct (prune_stale ctx' granter grantee e (stored granter grantee b) s3) as (s4 & R4 & G4);
    try done; [lia|by rewrite G3, G2|].
  exists s3, s4. split_and!.
  - erewrite bind_run_ok by exact R1. erewrite bind_run_ok by exact R2. exact R3.
  - rewrite GetAllowance_run by done. by rewrite G3, lookup_insert_eq.
  - exact R4.
  - rewrite GetAllowance_run by done. by rewrite G4, lookup_empty.
Qed.

(** ** Using a grant to an address *)

(** What a use leaves under the key of the grant. *)
Definition used_grant ctx (fee : Coins) (msgs : list bytes) (g : Grant) (o : option Grant) : Prop :=
  let r := Accept ctx fee msgs (any_value (GrantAny g)) in
  if acc_remove r then o = None
  else exists g', o = Some g' /\ any_value (GrantAny g') = acc_state r.

(** The grant of the pair accepted the fee, and is the only one that changed. *)
Definition grant_charged ctx granter grantee (fee : Coins) (msgs : list bytes) (st st' : FeegrantStore) : Prop :=
  exists g, grants st !! akey granter grantee = Some g /\
    acc_err (Accept ctx fee msgs (any_value (GrantAny g))) = None /\
    used_grant ctx fee msgs g (grants st' !! akey granter grantee) /\
    (forall k, k <> akey granter grantee -> grants st' !! k = grants st !! k) /\
    did_grants st' = did_grants st /\ did_queue st' = did_queue st.

Lemma revokeAllowance_grants granter grantee g s : fits granter -> fits grantee ->
  grants (fs s) !! akey granter grantee = Some g ->
  exists o s', revokeAllowance granter grantee s = (o, s') /\ o <> Panic /\
    grants (fs s') = delete (akey granter grantee) (grants (fs s)) /\
    did_grants (fs s') = did_grants (fs s) /\ did_queue (fs s') = did_queue (fs s).
Proof.
  intros Hg Hd Hk. unfold revokeAllowance.
  erewrite bind_run_ok by (rewrite GetAllowance_run by done; by rewrite Hk).
  rewrite akey_run by done. erewrite bind_run_ok by done. unfold expiresAt.
  destruct (ExpiresAt _) as [[e|]|err].
  - erewrite bind_run_ok by done. cbv beta match. rewrite akey_run by done.
    eexists (Ok tt), _. split; [reflexivity|]. rewrite !lens_get_set. by split_and!.
  - erewrite bind_run_ok by done. eexists (Ok tt), _. split; [reflexivity|].
    rewrite !lens_get_set. by split_and!.
  - eexists (Err err), _. split; [reflexivity|]. rewrite !lens_get_set. by split_and!.
Qed.

Lemma UseGrantedFees_ok ctx granter grantee fee msgs s s' : fits granter -> fits grantee ->
  UseGrantedFees ctx granter grantee fee msgs s = (Ok tt, s') ->
  grant_charged ctx granter grantee fee msgs (fs s) (fs s').
Proof.
  intros Hg Hd Hrun. unfold UseGrantedFees in Hrun. ok_inv Hrun.
  rewrite GetAllowance_run in Hrun0 by done.
  destruct (grants (fs s) !! akey granter grantee) as [g|] eqn:Ek; [|done]. simplify_eq.
  exists g. split; [done|]. unfold used_grant.
  destruct (acc_remove (Accept ctx fee msgs _)) eqn:Er.
  - destruct (revokeAllowance_grants granter grantee g s0 Hg Hd Ek) as (o & s1 & Hrev & Hnp & G & D & Q).
    assert (Ha : attempt (revokeAllowance granter grantee) s0
      = (Ok (match o with Ok a => inl a | Err e => inr e | Panic => inl tt end), s1))
      by (unfold attempt; rewrite Hrev; by destruct o).
    erewrite bind_run_ok in Hrun by exact Ha.
    destruct (acc_err _); [done|]. unfold ret in Hrun. simplify_eq. rewrite G.
    split_and!; try done; [by rewrite lookup_delete_eq|]. intros k Hk. by rewrite lookup_delete_ne.
  - destruct (acc_err _); [done|]. unfold UpdateAllowance in Hrun. rewrite akey_run in Hrun by done.
    erewrite bind_run_ok in Hrun by (unfold getGrant; rewrite akey_run by done;
      unfold bind, fg_get, gets; by rewrite Ek).
    ok_inv Hrun. unfold of_outcome, NewGrant in Hrun0. case_match; [|done]. simplify_eq.
    unfold fg_mod, modify in Hrun. simplify_eq. rewrite lens_get_set. simpl.
    split_and!; try done; [rewrite lookup_insert_eq; eauto|]. intros k Hk. by rewrite lookup_insert_ne.
Qed.

(** ** Genesis files *)

(** Decoding JSON fills the packed values only, and then calls [UnpackInterfaces]
    on the message. *)
Definition packAny (x : Any) : Any := mkAny (any_value x) false.

Definition UnmarshalJSON (data : GenesisState) : GenesisState :=
  GenesisState_UnpackInterfaces (mkGenesisState
    ((fun g => mkGrant (Granter g) (Grantee g) (packAny (GrantAny g))) <$> Allowances data)
    ((fun g => mkDIDGrant (DIDGranter g) (GranteeDid g) (packAny (DIDGrantAny g))) <$> DidAllowances data)).

(** A genesis file that holds a grant to a DID can never be loaded: whatever
    the state and the rest of the file, initialisation fails, because
    [GenesisState.UnpackInterfaces] does not unpack the allowances of DID
    grants. Exported states with such grants therefore cannot be imported. *)
Theorem genesis_with_did_grants_not_loadable ctx data s s' :
  DidAllowances data <> [] -> InitGenesis ctx (UnmarshalJSON data) s <> (Ok tt, s').
Proof.
  intros Hne Hrun. destruct data as [gs [|d ds]]; simpl in Hne; [done|].
  unfold InitGenesis in Hrun. ok_inv Hrun. simpl in Hrun.
  ok_inv Hrun. ok_inv Hrun1. by ok_inv Hrun1.
Qed.
End addr.

(** * Witnesses *)

Lemma revoked_expiry_prunes_new_grant_witness :
  exists s1 s2,
    GetAllowance (lit "alice") (lit "bob") s1 = (Ok lasting, s1) /\
    RemoveExpiredAllowances (witness_ctx 60) 200 s1 = (Ok tt, s2) /\
    GetAllowance (lit "alice") (lit "bob") s2 = (Err ErrNotFound, s2 : FeegrantStore).
Proof.
  destruct (revoked_expiry_prunes_new_grant (witness_ctx 10) (witness_ctx 60) (lit "alice") (lit "bob")
    expiring lasting 50 empty_store) as (s1 & s2 & _ & H1 & H2 & H3);
    [done|done|unfold fits; simpl; lia|unfold fits; simpl; lia|done|done|done|done|done|done
    |unfold time_in_range, time_zero; lia|unfold time_in_range, time_zero; simpl; lia|simpl; lia|].
  exists s1, s2. exact (conj H1 (conj H2 H3)).
Defined.

Definition did_genesis : GenesisState :=
  mkGenesisState [] [mkDIDGrant (lit "alice") (lit "did:b") (mkAny lasting true)].

(** The same genesis loads from memory, not from a file. *)
Lemma genesis_with_did_grants_not_loadable_witness :
  fst (InitGenesis (witness_ctx 10) did_genesis empty_store) = Ok tt /\
  forall s', InitGenesis (witness_ctx 10) (UnmarshalJSON did_genesis) empty_store <> (Ok tt, s').
Proof.
  split; [by vm_compute|]. intros s'.
  apply (genesis_with_did_grants_not_loadable (witness_ctx 10) did_genesis empty_store s'). done.
Defined.
