(* ===== verification/TierTypes.v ===== *)
(** Types of the tier module (src/x/tier/types): parameters, records, messages and
    store keys.

    Stored records name accounts by their address bytes (the source stores the
    bech32 text, from which the address is read back); messages hold the text.
    Amounts are [math.Int], here unbounded integers.

    The theorems: lockup, unlocking, developer and subscription keys parse back
    for 20-byte addresses and only for those, and the key of a developer's total
    can fall into the lockup store. *)
From Stdlib Require Import Ascii ZArith Lia Decimal DecimalString DecimalZ DecimalPos.
From stdpp Require Import base numbers list gmap strings.
From S2P Require Import Prelude Sdk FeegrantKeys.

(** * Errors and constants *)

Definition tier_err (code : Z) : error := ErrReg "tier" code.
Definition ErrUnauthorized := tier_err 1101.
Definition ErrNotFound := tier_err 1102.
Definition ErrInvalidRequest := tier_err 1103.
Definition ErrInvalidAddress := tier_err 1104.
Definition ErrInvalidDenom := tier_err 1105.
Definition ErrInvalidAmount := tier_err 1106.
Definition ErrInvalidTierDID := tier_err 1107.
Definition ErrInvalidSubscriptionPeriod := tier_err 1108.


Definition ModuleName : string := "tier".
Definition DeveloperPoolName : string := "developer_pool".
Definition InsurancePoolName : string := "insurance_pool".
Definition EpochIdentifier : bytes := lit "tier".
Definition DefaultEpochDuration : Duration := 60 * 1000000000 * 5.

(** * Parameters *)

Record Rate : Type := mkRate { rate_Amount : Z; rate_Rate : Z }.

(** [EpochDuration] is a pointer, nil in the zero [Params]. *)
Record Params : Type := mkParams {
  param_EpochDuration : option Duration;
  UnlockingEpochs : Z;
  DeveloperPoolFee : Z;
  InsurancePoolFee : Z;
  InsurancePoolThreshold : Z;
  ProcessRewardsInterval : Z;
  RewardRates : list Rate;
}.

Definition DefaultParams : Params :=
  mkParams (Some DefaultEpochDuration) 2 2 1 100000000000 1000
    [mkRate 300 150; mkRate 200 120; mkRate 100 110; mkRate 0 100].

Definition Params_zero : Params := mkParams None 0 0 0 0 0 [].

Definition validateEpochDuration (d : option Duration) : option error :=
  match d with
  | None => Some (ErrMsg "invalid epoch duration")
  | Some d => if d <=? 0 then Some (ErrMsg "invalid epoch duration") else None
  end.

Definition validateUnlockingEpochs (epochs : Z) : option error :=
  if epochs <=? 0 then Some (ErrMsg "invalid unlocking epochs") else None.

Definition validateDeveloperPoolFee (fee : Z) : option error :=
  if fee <? 0 then Some (ErrMsg "invalid developer pool fee") else None.

Definition validateInsurancePoolFee (fee : Z) : option error :=
  if fee <? 0 then Some (ErrMsg "invalid insurance pool fee") else None.

Definition validateInsurancePoolThreshold (threshold : Z) : option error :=
  if threshold <? 0 then Some (ErrMsg "invalid insurance pool threshold") else None.

Definition validateProcessRewardsInterval (interval : Z) : option error :=
  if interval <=? 0 then Some (ErrMsg "invalid process rewards interval") else None.

Fixpoint validateRewardRates (rates : list Rate) : option error :=
  match rates with
  | [] => None
  | r :: rest =>
      if rate_Amount r <? 0 then Some (ErrMsg "invalid locked stake")
      else if rate_Rate r <=? 0 then Some (ErrMsg "invalid rate")
      else validateRewardRates rest
  end.

(** The first error of a list of checks. *)
Fixpoint first_error (checks : list (option error)) : option error :=
  match checks with
  | [] => None
  | Some e :: _ => Some e
  | None :: rest => first_error rest
  end.

Definition Params_Validate (p : Params) : option error :=
  first_error [
    validateEpochDuration (param_EpochDuration p);
    validateUnlockingEpochs (UnlockingEpochs p);
    validateDeveloperPoolFee (DeveloperPoolFee p);
    validateInsurancePoolFee (InsurancePoolFee p);
    if 100 <? DeveloperPoolFee p + InsurancePoolFee p
    then Some (ErrMsg "combined developer pool fee and insurance pool fee must not exceed 100")
    else None;
    validateInsurancePoolThreshold (InsurancePoolThreshold p);
    validateProcessRewardsInterval (ProcessRewardsInterval p);
    validateRewardRates (RewardRates p)].

(** * Records *)

Record Lockup : Type := mkLockup {
  DelegatorAddress : bytes;
  ValidatorAddress : bytes;
  Amount : Z;
}.

Record UnlockingLockup : Type := mkUnlockingLockup {
  ul_DelegatorAddress : bytes;
  ul_ValidatorAddress : bytes;
  ul_CreationHeight : Z;
  ul_Amount : Z;
  ul_CompletionTime : Time;
  ul_UnlockTime : Time;
}.

Record Developer : Type := mkDeveloper {
  dev_Address : bytes;
  AutoLockEnabled : bool;
}.

Record UserSubscription : Type := mkUserSubscription {
  sub_Developer : bytes;
  sub_UserDid : bytes;
  CreditAmount : Z;
  StartDate : Time;
  sub_Period : Z;
  LastRenewed : Time;
}.

Record GenesisState : Type := mkGenesis {
  gen_Params : Params;
  gen_Lockups : list Lockup;
  gen_UnlockingLockups : list UnlockingLockup;
  gen_InsuranceLockups : list Lockup;
  gen_Developers : list Developer;
  gen_UserSubscriptions : list UserSubscription;
}.

Definition DefaultGenesis : GenesisState := mkGenesis DefaultParams [] [] [] [] [].

Definition GenesisState_Validate (gs : GenesisState) : option error := Params_Validate (gen_Params gs).

(** * Messages *)

(** [sdk.ValAddressFromBech32] and [String] of validator addresses. *)
Class ValAddressCodec : Type := {
  ValAddressFromBech32 : bytes -> bytes + error;
  ValAddress_String : bytes -> bytes;
  ValAddress_roundtrip : forall a, (0 < length a <= 255)%nat ->
    ValAddressFromBech32 (ValAddress_String a) = inl a;
}.

#[export, refine] Instance val_address_codec_impl : ValAddressCodec := {|
  ValAddressFromBech32 t :=
    if decide (0 < length t <= 255)%nat then inl t else inr (ErrMsg "invalid address");
  ValAddress_String a := a;
|}.
Proof. intros a Ha. by rewrite decide_True. Defined.

Record MsgLock : Type := mkMsgLock {
  lock_Delegator : bytes; lock_Validator : bytes; lock_Stake : Coin }.
Record MsgLockAuto : Type := mkMsgLockAuto { auto_Delegator : bytes; auto_Stake : Coin }.
Record MsgUnlock : Type := mkMsgUnlock {
  unlock_Delegator : bytes; unlock_Validator : bytes; unlock_Stake : Coin }.
Record MsgCancelUnlocking : Type := mkMsgCancelUnlocking {
  cancel_Delegator : bytes; cancel_Validator : bytes; cancel_Stake : Coin;
  cancel_CreationHeight : Z }.
Record MsgRedelegate : Type := mkMsgRedelegate {
  red_Delegator : bytes; red_Src : bytes; red_Dst : bytes; red_Stake : Coin }.
Record MsgDeveloper : Type := mkMsgDeveloper { md_Developer : bytes; md_AutoLock : bool }.
Record MsgRemoveDeveloper : Type := mkMsgRemoveDeveloper { mr_Developer : bytes }.
Record MsgUserSubscription : Type := mkMsgUserSubscription {
  us_Developer : bytes; us_UserDid : bytes; us_Amount : Z; us_Period : Z }.
Record MsgRemoveUserSubscription : Type := mkMsgRemoveUserSubscription {
  ru_Developer : bytes; ru_UserDid : bytes }.
Record MsgUpdateParams : Type := mkMsgUpdateParams { up_Authority : bytes; up_Params : Params }.

Section messages.
Context `{AddressCodec, ValAddressCodec}.

Definition validateAccAddr (address : bytes) : option error :=
  match StringToBytes address with inl _ => None | inr _ => Some ErrInvalidAddress end.

Definition validateValAddr (address : bytes) : option error :=
  match ValAddressFromBech32 address with inl _ => None | inr _ => Some ErrInvalidAddress end.

(** [Coin.IsValid] asks for a well-formed denomination, which the comparison
    with "uopen" implies, and a non-negative amount. *)
Definition validateDenom (stake : Coin) : option error :=
  if (coin_amount stake <=? 0) || negb (is_int64 (coin_amount stake)) then Some ErrInvalidDenom
  else if decide (coin_denom stake = DefaultBondDenom) then None
  else Some ErrInvalidDenom.

Definition MsgLock_ValidateBasic (msg : MsgLock) : option error :=
  first_error [validateAccAddr (lock_Delegator msg); validateValAddr (lock_Validator msg);
               validateDenom (lock_Stake msg)].

Definition MsgLockAuto_ValidateBasic (msg : MsgLockAuto) : option error :=
  first_error [validateAccAddr (auto_Delegator msg); validateDenom (auto_Stake msg)].

Definition MsgUnlock_ValidateBasic (msg : MsgUnlock) : option error :=
  first_error [validateAccAddr (unlock_Delegator msg); validateValAddr (unlock_Validator msg);
               validateDenom (unlock_Stake msg)].

Definition MsgCancelUnlocking_ValidateBasic (msg : MsgCancelUnlocking) : option error :=
  first_error [validateAccAddr (cancel_Delegator msg); validateValAddr (cancel_Validator msg);
               validateDenom (cancel_Stake msg)].

Definition MsgRedelegate_ValidateBasic (msg : MsgRedelegate) : option error :=
  if decide (red_Src msg = red_Dst msg) then Some ErrInvalidAddress
  else first_error [validateAccAddr (red_Delegator msg); validateValAddr (red_Src msg);
                    validateValAddr (red_Dst msg); validateDenom (red_Stake msg)].

(** [MsgCreateDeveloper] and [MsgUpdateDeveloper]. *)
Definition MsgDeveloper_ValidateBasic (msg : MsgDeveloper) : option error :=
  validateAccAddr (md_Developer msg).

Definition MsgRemoveDeveloper_ValidateBasic (msg : MsgRemoveDeveloper) : option error :=
  validateAccAddr (mr_Developer msg).

(** [MsgAddUserSubscription] and [MsgUpdateUserSubscription]. *)
Definition MsgUserSubscription_ValidateBasic (msg : MsgUserSubscription) : option error :=
  first_error [validateAccAddr (us_Developer msg);
    if invalidDID (us_UserDid msg) then Some ErrInvalidTierDID else None;
    if us_Amount msg <=? 0 then Some ErrInvalidAmount else None;
    if us_Period msg <=? 0 then Some ErrInvalidSubscriptionPeriod else None].

Definition MsgRemoveUserSubscription_ValidateBasic (msg : MsgRemoveUserSubscription) : option error :=
  first_error [validateAccAddr (ru_Developer msg);
    if invalidDID (ru_UserDid msg) then Some ErrInvalidTierDID else None].
End messages.

(** * Keys *)

Definition addressKeyLength : nat := 20.
Definition keySeparator : ascii := byte_of_Z 47.

Definition LockupKeyPrefix : bytes := lit "lockup/".
Definition UnlockingLockupKeyPrefix : bytes := lit "unlockingLockup/".
Definition InsuranceLockupKeyPrefix : bytes := lit "insuranceLockup/".
Definition UserSubscriptionKeyPrefix : bytes := lit "userSub/".
Definition TotalDevGrantedKeyPrefix : bytes := lit "totalDevGranted/".
Definition DeveloperKeyPrefix : bytes := lit "developer/".

Definition KeyPrefix (unlocking : bool) : bytes :=
  if unlocking then UnlockingLockupKeyPrefix else LockupKeyPrefix.

(** [strconv.AppendInt] and [strconv.ParseInt] in base 10. *)
Definition AppendInt (z : Z) : bytes :=
  String.list_ascii_of_string (NilZero.string_of_int (Z.to_int z)).

Definition ParseInt (b : bytes) : option Z :=
  z ← match b with
      | c :: rest =>
          if decide (c = byte_of_Z 43) then
            u ← NilZero.uint_of_string (String.string_of_list_ascii rest); Some (Z.of_int (Decimal.Pos u))
          else i ← NilZero.int_of_string (String.string_of_list_ascii b); Some (Z.of_int i)
      | [] => None
      end;
  if is_int64 z then Some z else None.

Definition LockupKey (delAddr valAddr : bytes) : bytes :=
  delAddr ++ [keySeparator] ++ valAddr ++ [keySeparator].

Definition UnlockingLockupKey (delAddr valAddr : bytes) (creationHeight : Z) : bytes :=
  delAddr ++ [keySeparator] ++ valAddr ++ [keySeparator] ++ AppendInt creationHeight ++ [keySeparator].

Definition sep_at (key : bytes) (i : nat) : bool := bool_decide (key !! i = Some keySeparator).

Definition LockupKeyToAddresses (key : bytes) : outcome (bytes * bytes) :=
  let expectedLength := (addressKeyLength * 2 + 2)%nat in
  if negb (length key =? expectedLength)%nat || negb (sep_at key addressKeyLength)
     || negb (sep_at key (expectedLength - 1))
  then Panic
  else Ok (take addressKeyLength key,
           take addressKeyLength (drop (addressKeyLength + 1) key)).

Definition UnlockingLockupKeyToAddressesAtHeight (key : bytes) : outcome (bytes * bytes * Z) :=
  let heightStart := (addressKeyLength * 2 + 2)%nat in
  if (length key <=? heightStart)%nat || negb (sep_at key addressKeyLength)
     || negb (sep_at key (heightStart - 1)) || negb (sep_at key (length key - 1))
  then Panic
  else match ParseInt (take (length key - 1 - heightStart) (drop heightStart key)) with
       | None => Panic
       | Some creationHeight =>
           Ok (take addressKeyLength key,
               take addressKeyLength (drop (addressKeyLength + 1) key), creationHeight)
       end.

Definition UserSubscriptionKey (developerAddr userDid : bytes) : bytes :=
  developerAddr ++ [keySeparator] ++ userDid ++ [keySeparator].

Definition UserSubscriptionKeyToAddresses (key : bytes) : outcome (bytes * bytes) :=
  let valueStart := (addressKeyLength + 1)%nat in
  if (length key <=? valueStart)%nat || negb (sep_at key addressKeyLength)
     || negb (sep_at key (length key - 1))
  then Panic
  else Ok (take addressKeyLength key, take (length key - 1 - valueStart) (drop valueStart key)).

Definition DeveloperKey (developerAddr : bytes) : bytes := developerAddr ++ [keySeparator].

Definition DeveloperKeyToAddress (key : bytes) : outcome bytes :=
  let expectedLength := (addressKeyLength + 1)%nat in
  if negb (length key =? expectedLength)%nat || negb (sep_at key (expectedLength - 1))
  then Panic else Ok (take addressKeyLength key).

(** Stored at the root, without [TotalDevGrantedKeyPrefix]. *)
Definition TotalDevGrantedKey (developerAddr : bytes) : bytes := developerAddr ++ [keySeparator].

(** * Key round trips *)

Lemma to_int_not_nil z : Z.to_int z <> Decimal.Pos Decimal.Nil /\ Z.to_int z <> Decimal.Neg Decimal.Nil.
Proof.
  assert (Hp : forall p, Pos.to_uint p <> Decimal.Nil).
  { intros p Hnil. pose proof (DecimalPos.Unsigned.to_uint_nonnil p). done. }
  destruct z as [|p|p]; simpl; split; try done; intros [= Hn]; by apply (Hp p).
Qed.

Lemma AppendInt_head z : exists c rest, AppendInt z = c :: rest /\ c <> byte_of_Z 43.
Proof.
  unfold AppendInt. destruct (to_int_not_nil z) as [H1 H2].
  destruct (Z.to_int z) as [u|u]; [|by exists (byte_of_Z 45), (String.list_ascii_of_string (NilZero.string_of_uint u))].
  destruct u; [done|..]; (eexists _, _; split; [reflexivity|done]).
Qed.

Lemma ParseInt_AppendInt z : is_int64 z = true -> ParseInt (AppendInt z) = Some z.
Proof.
  intros Hz. unfold ParseInt. destruct (AppendInt_head z) as (c & rest & Heq & Hc). rewrite Heq.
  rewrite decide_False by done. rewrite <- Heq. unfold AppendInt.
  rewrite String.string_of_list_ascii_of_string, NilZero.isi by apply to_int_not_nil.
  simpl. by rewrite DecimalZ.of_to, Hz.
Qed.

(** Addresses of ordinary accounts and validators. *)
Definition addr20 (a : bytes) : Prop := length a = addressKeyLength.

#[global] Instance addr20_dec a : Decision (addr20 a).
Proof. unfold addr20. apply _. Defined.

Lemma sep_at_app (a b : bytes) i : length a = i -> sep_at (a ++ keySeparator :: b) i = true.
Proof. intros <-. unfold sep_at. apply bool_decide_eq_true. by rewrite list_lookup_middle. Qed.

Lemma sep_at_last (a : bytes) i : length a = i -> sep_at (a ++ [keySeparator]) i = true.
Proof. apply sep_at_app. Qed.

Lemma take_addr (d w : bytes) : addr20 d -> take addressKeyLength (d ++ w) = d.
Proof. intros <-. apply take_app_length. Qed.

Lemma drop_addr (d w : bytes) : addr20 d -> drop (addressKeyLength + 1) (d ++ keySeparator :: w) = w.
Proof. intros <-. rewrite drop_app_add. done. Qed.

Lemma parse_LockupKey d v : addr20 d -> addr20 v -> LockupKeyToAddresses (LockupKey d v) = Ok (d, v).
Proof.
  unfold addr20. intros Hd Hv. unfold LockupKeyToAddresses, LockupKey.
  assert (Hlen : length (d ++ [keySeparator] ++ v ++ [keySeparator]) = (addressKeyLength * 2 + 2)%nat)
    by (rewrite !length_app, Hd, Hv; done).
  rewrite Hlen, Nat.eqb_refl. simpl app at 1. rewrite sep_at_app by done.
  assert (Hlast : sep_at (d ++ [keySeparator] ++ v ++ [keySeparator]) (addressKeyLength * 2 + 2 - 1) = true).
  { rewrite !app_assoc. apply sep_at_last. rewrite !length_app, Hd, Hv. done. }
  rewrite Hlast. cbn [negb orb app]. by rewrite drop_addr, !take_addr.
Qed.

Lemma parse_LockupKey_short d v :
  (length d + length v <> 40)%nat -> LockupKeyToAddresses (LockupKey d v) = Panic.
Proof.
  intros Hlen. unfold LockupKeyToAddresses, LockupKey.
  destruct (Nat.eqb_spec (length (d ++ [keySeparator] ++ v ++ [keySeparator])) (addressKeyLength * 2 + 2))
    as [Heq|]; [|done].
  rewrite !length_app in Heq. simpl in Heq. lia.
Qed.

Lemma LockupKey_inj d v d' v' : addr20 d -> addr20 v -> addr20 d' -> addr20 v' ->
  LockupKey d v = LockupKey d' v' -> d = d' /\ v = v'.
Proof.
  intros Hd Hv Hd' Hv' Heq. pose proof (parse_LockupKey d v Hd Hv) as P.
  rewrite Heq, parse_LockupKey in P by done. by simplify_eq.
Qed.

Lemma parse_UnlockingLockupKey d v h : addr20 d -> addr20 v -> is_int64 h = true ->
  UnlockingLockupKeyToAddressesAtHeight (UnlockingLockupKey d v h) = Ok (d, v, h).
Proof.
  unfold addr20. intros Hd Hv Hh. unfold UnlockingLockupKeyToAddressesAtHeight.
  set (hb := AppendInt h). assert (Hhb : (0 < length hb)%nat).
  { unfold hb. destruct (AppendInt_head h) as (c & rest & -> & _). simpl. lia. }
  set (key := UnlockingLockupKey d v h).
  assert (Hpre : key = (d ++ [keySeparator] ++ v) ++ keySeparator :: hb ++ [keySeparator]).
  { unfold key, UnlockingLockupKey. by rewrite <- !app_assoc. }
  assert (Hplen : length (d ++ [keySeparator] ++ v) = 41%nat) by (rewrite !length_app, Hd, Hv; done).
  assert (Hlen : length key = (43 + length hb)%nat).
  { rewrite Hpre, length_app, Hplen. simpl. rewrite length_app. simpl. lia. }
  assert (S1 : sep_at key addressKeyLength = true) by (by apply sep_at_app).
  assert (S2 : sep_at key (addressKeyLength * 2 + 2 - 1) = true) by (rewrite Hpre; by apply sep_at_app).
  assert (S3 : sep_at key (length key - 1) = true).
  { rewrite Hlen, Hpre. rewrite app_comm_cons, app_assoc. apply sep_at_last.
    rewrite length_app, Hplen. simpl. lia. }
  rewrite S1, S2, S3, Hlen. destruct (Nat.leb_spec (43 + length hb) (addressKeyLength * 2 + 2)) as [Hle|_].
  { unfold addressKeyLength in Hle. lia. }
  cbn [negb orb].
  assert (Hdrop : drop (addressKeyLength * 2 + 2) key = hb ++ [keySeparator]).
  { rewrite Hpre. replace (addressKeyLength * 2 + 2)%nat with (length (d ++ [keySeparator] ++ v) + 1)%nat
      by (rewrite Hplen; done).
    by rewrite drop_app_add. }
  rewrite Hdrop. replace (43 + length hb - 1 - (addressKeyLength * 2 + 2))%nat with (length hb)
    by (unfold addressKeyLength; lia).
  rewrite take_app_length. unfold hb. rewrite ParseInt_AppendInt by done.
  unfold key, UnlockingLockupKey. cbn [app]. by rewrite drop_addr, !take_addr.
Qed.

Lemma parse_DeveloperKey a : addr20 a -> DeveloperKeyToAddress (DeveloperKey a) = Ok a.
Proof.
  unfold addr20. intros Ha. unfold DeveloperKeyToAddress, DeveloperKey.
  rewrite length_app, Ha, Nat.eqb_refl, sep_at_last by done. simpl. by rewrite <- Ha, take_app_length.
Qed.

Lemma parse_UserSubscriptionKey a did : addr20 a ->
  UserSubscriptionKeyToAddresses (UserSubscriptionKey a did) = Ok (a, did).
Proof.
  unfold addr20. intros Ha. unfold UserSubscriptionKeyToAddresses.
  set (key := UserSubscriptionKey a did).
  assert (Hlen : length key = (22 + length did)%nat).
  { unfold key, UserSubscriptionKey. rewrite !length_app, Ha. simpl. lia. }
  assert (S1 : sep_at key addressKeyLength = true) by (by apply sep_at_app).
  assert (S2 : sep_at key (length key - 1) = true).
  { rewrite Hlen. unfold key, UserSubscriptionKey. rewrite !app_assoc. apply sep_at_last.
    rewrite !length_app, Ha. unfold addressKeyLength. simpl. lia. }
  rewrite S1, S2, Hlen. destruct (Nat.leb_spec (22 + length did) (addressKeyLength + 1)) as [Hle|_].
  { unfold addressKeyLength in Hle. lia. }
  cbn [negb orb]. unfold key, UserSubscriptionKey. cbn [app]. rewrite take_addr, drop_addr by done.
  replace (22 + length did - 1 - (addressKeyLength + 1))%nat with (length did) by (unfold addressKeyLength; lia).
  by rewrite take_app_length.
Qed.

(** Keys of lockups, unlocking lockups, developers and subscriptions parse back
    to what they were built from when the addresses have 20 bytes, for every
    int64 height and every DID. A lockup key whose two addresses do not have 40
    bytes together (an account or validator with a 32-byte address, as group
    policies have) makes the parser panic. *)
Theorem tier_keys_roundtrip d v h did :
  (addr20 d /\ addr20 v /\ is_int64 h = true ->
     LockupKeyToAddresses (LockupKey d v) = Ok (d, v) /\
     UnlockingLockupKeyToAddressesAtHeight (UnlockingLockupKey d v h) = Ok (d, v, h) /\
     DeveloperKeyToAddress (DeveloperKey d) = Ok d /\
     UserSubscriptionKeyToAddresses (UserSubscriptionKey d did) = Ok (d, did)) /\
  ((length d + length v <> 40)%nat -> LockupKeyToAddresses (LockupKey d v) = Panic).
Proof.
  split; [|apply parse_LockupKey_short]. intros (Hd & Hv & Hh).
  by rewrite parse_LockupKey, parse_UnlockingLockupKey, parse_DeveloperKey, parse_UserSubscriptionKey.
Qed.

(** The total granted by a developer is stored at the root of the module's store
    without its prefix. When the developer's address starts with the bytes
    "lockup/", that key lies in the range that every iteration over lockups
    scans, and the rest of it is no lockup key: the iteration panics on it. *)
Theorem total_granted_key_in_lockup_range (x : bytes) :
  length x = 13%nat ->
  addr20 (LockupKeyPrefix ++ x) /\
  exists key, TotalDevGrantedKey (LockupKeyPrefix ++ x) = LockupKeyPrefix ++ key /\
    LockupKeyToAddresses key = Panic.
Proof.
  intros Hx. split; [unfold addr20; by rewrite length_app, Hx|].
  exists (x ++ [keySeparator]). split; [unfold TotalDevGrantedKey; by rewrite <- app_assoc|].
  unfold LockupKeyToAddresses. rewrite length_app, Hx. done.
Qed.

Lemma total_granted_key_in_lockup_range_witness :
  exists key, TotalDevGrantedKey (lit "lockup/0123456789abc") = LockupKeyPrefix ++ key /\
    LockupKeyToAddresses key = Panic.
Proof. exact (proj2 (total_granted_key_in_lockup_range (lit "0123456789abc") eq_refl)). Defined.

Lemma tier_keys_roundtrip_witness :
  LockupKeyToAddresses (LockupKey (lit "delegator-0123456789") (lit "validator-0123456789"))
  = Ok (lit "delegator-0123456789", lit "validator-0123456789").
Proof.
  apply (tier_keys_roundtrip (lit "delegator-0123456789") (lit "validator-0123456789") 7 []). done.
Defined.
