(* ===== verification/TierCredit.v ===== *)
(** How many credits a lock earns (src/x/tier/keeper/calculate_credit.go).

    [calculateCredit] walks the reward rates from the highest threshold down and
    pays each slice of the new lock at the rate of the band it falls in.

    The theorems: it computes the sum over the bands of the overlap of the lock
    with the band, each rounded down; locking in two steps never earns more than
    locking at once, and loses at most one credit per band; the prorated credit
    lies between zero and the full credit. *)
From Stdlib Require Import Ascii ZArith Lia.
From stdpp Require Import base numbers list gmap strings sorting.
From S2P Require Import Prelude Sdk TierTypes.

Section credit.
Context `{LegacyDecOps}.

(** The loop over the rates. *)
Fixpoint calculateCredit_loop (rates : list Rate) (credit stakedAmt lockedAmt lockingAmt : Z) : Z :=
  match rates with
  | [] => credit
  | r :: rest =>
      if stakedAmt <? rate_Amount r then calculateCredit_loop rest credit stakedAmt lockedAmt lockingAmt
      else
        let lower := Z.max (rate_Amount r) lockedAmt in
        let diff := stakedAmt - lower in
        let amt := dec_quo (dec_mul (dec_of_int diff) (dec_of_int (rate_Rate r))) (dec_of_int 100) in
        let credit' := credit + dec_truncate amt in
        let lockingAmt' := lockingAmt - diff in
        if lockingAmt' =? 0 then credit'
        else calculateCredit_loop rest credit' (stakedAmt - diff) lockedAmt lockingAmt'
  end.

Definition calculateCredit (rates : list Rate) (lockedAmt lockingAmt : Z) : Z :=
  calculateCredit_loop rates 0 (lockedAmt + lockingAmt) lockedAmt lockingAmt.

(** [QuoRaw] truncates; the caller excluded a zero divisor. *)
Definition calculateProratedCredit (rates : list Rate) (lockedAmt lockingAmt : Z)
    (currentEpochStartTime currentBlockTime : Time) (epochDuration : Duration) : Z :=
  let credit := calculateCredit rates lockedAmt lockingAmt in
  let sinceCurrentEpoch := duration_ms (time_sub currentBlockTime currentEpochStartTime) in
  let epochDurationMs := duration_ms epochDuration in
  if epochDurationMs =? 0 then 0
  else if sinceCurrentEpoch <? epochDurationMs
       then Z.quot (credit * sinceCurrentEpoch) epochDurationMs
       else credit.
End credit.

(** * The bands a lock is paid in *)

(** Thresholds go down the list, as in the default parameters. *)
Definition rates_sorted : list Rate -> Prop :=
  StronglySorted (fun r1 r2 => rate_Amount r2 <= rate_Amount r1).

Definition rates_nonneg (rates : list Rate) : Prop := Forall (fun r => 0 <= rate_Rate r) rates.

(** A rate applies from its threshold up to the next higher one. *)
Record band : Type := mkBand { band_from : Z; band_to : option Z; band_rate : Z }.

Fixpoint bands (to : option Z) (rates : list Rate) : list band :=
  match rates with
  | [] => []
  | r :: rest => mkBand (rate_Amount r) to (rate_Rate r) :: bands (Some (rate_Amount r)) rest
  end.

Definition cap (to : option Z) (z : Z) : Z := match to with Some u => Z.min z u | None => z end.

(** How much of the stake from [lo] to [hi] lies in a band. *)
Definition overlap (lo hi : Z) (b : band) : Z :=
  Z.max 0 (cap (band_to b) hi - Z.max lo (band_from b)).

Definition band_credit (lo hi : Z) (b : band) : Z := overlap lo hi b * band_rate b / 100.

(** The reference: each band pays its share of the stake, rounded down. *)
Definition credit_spec (rates : list Rate) (lo hi : Z) : Z :=
  Zsum (band_credit lo hi <$> bands None rates).

Section credit_facts.
Context `{LegacyDecOps}.
Implicit Types (rates : list Rate) (lo hi : Z).

Lemma slice_credit (d r : Z) : 0 <= d -> 0 <= r ->
  dec_truncate (dec_quo (dec_mul (dec_of_int d) (dec_of_int r)) (dec_of_int 100)) = d * r / 100.
Proof.
  intros Hd Hr. rewrite dec_mul_int. rewrite (dec_quo_exact _ _ (d * r * 10 ^ 16)).
  - unfold dec_truncate, precision. rewrite Z.quot_div_nonneg by nia.
    change (10 ^ 18) with (100 * 10 ^ 16). by rewrite Z.div_mul_cancel_r by lia.
  - unfold dec_of_int, precision. lia.
  - unfold dec_of_int, precision. lia.
Qed.

(** Bands below the stake pay nothing. *)
Lemma bands_below lo hi rates u : rates_sorted rates -> Forall (fun r => rate_Amount r <= u) rates ->
  u <= lo -> Zsum (band_credit lo hi <$> bands (Some u) rates) = 0.
Proof.
  intros Hs. revert u. induction Hs as [|r rates Hs IH Hr]; intros u Hu Hlo; [done|].
  apply Forall_cons in Hu as [Hru Hu]. cbn [bands]. rewrite fmap_cons, Zsum_cons.
  rewrite IH; [|done|lia]. unfold band_credit, overlap. simpl.
  rewrite Z.max_l by lia. done.
Qed.

Lemma calculateCredit_loop_spec lo hi rates to credit staked :
  lo <= hi -> rates_sorted rates -> rates_nonneg rates ->
  Forall (fun r => match to with Some u => rate_Amount r <= u | None => True end) rates ->
  staked = Z.max lo (cap to hi) ->
  calculateCredit_loop rates credit staked lo (staked - lo)
  = credit + Zsum (band_credit lo hi <$> bands to rates).
Proof.
  intros Hle Hs. revert to credit staked.
  induction Hs as [|r rates Hs IH Hr]; intros to credit staked Hnn Hto Hst; [simpl; lia|].
  apply Forall_cons in Hnn as [Hrate Hnn]. apply Forall_cons in Hto as [Hrto Hto].
  cbn [bands calculateCredit_loop]. rewrite fmap_cons, Zsum_cons.
  unfold band_credit at 1, overlap. cbn [band_from band_to band_rate]. cbv zeta.
  destruct (Z.ltb_spec staked (rate_Amount r)) as [Hlt|Hge].
  - rewrite (IH (Some (rate_Amount r))); [|done|done|].
    + replace (Z.max 0 _) with 0; [rewrite Z.mul_0_l, Z.div_0_l by lia; lia|].
      destruct to as [u|]; simpl in *; lia.
    + destruct to as [u|]; simpl in *; lia.
  - set (diff := staked - Z.max (rate_Amount r) lo).
    assert (Hd : Z.max 0 (cap to hi - Z.max lo (rate_Amount r)) = diff /\ 0 <= diff)
      by (unfold diff; destruct to as [u|]; simpl in *; lia).
    destruct Hd as [-> Hd]. rewrite slice_credit by done.
    destruct (Z.eqb_spec (staked - lo - diff) 0) as [Hz|Hnz].
    + rewrite bands_below; [lia|done|done|]. unfold diff in Hz. lia.
    + replace (staked - lo - diff) with (staked - diff - lo) by lia.
      rewrite (IH (Some (rate_Amount r))); [lia|done|done|].
      unfold diff. destruct to as [u|]; simpl in *; lia.
Qed.

Lemma calculateCredit_bands rates locked locking :
  rates_sorted rates -> rates_nonneg rates -> 0 <= locking ->
  calculateCredit rates locked locking = credit_spec rates locked (locked + locking).
Proof.
  intros Hs Hn Hl. unfold calculateCredit, credit_spec.
  pose proof (calculateCredit_loop_spec locked (locked + locking) rates None 0 (locked + locking)) as Hc.
  replace (locked + locking - locked) with locking in Hc by lia.
  rewrite Hc; [lia|lia|done|done| |simpl; lia]. by apply Forall_forall.
Qed.

(** C21: [calculateCredit] pays the new lock band by band: with thresholds listed from the
    highest down, the credit is the sum, over the bands, of the part of the stake
    between the old and the new total that falls into the band, times the
    band's rate in percent, rounded down. The decimal arithmetic, the running
    subtraction and the early exit of the loop make no difference. *)
Theorem calculateCredit_spec rates locked locking :
  rates_sorted rates -> rates_nonneg rates -> 0 <= locking ->
  calculateCredit rates locked locking = credit_spec rates locked (locked + locking).
Proof. apply calculateCredit_bands. Qed.

Lemma credit_spec_split rates to lo mid hi :
  rates_nonneg rates -> lo <= mid <= hi ->
  let c a b := Zsum (band_credit a b <$> bands to rates) in
  c lo mid + c mid hi <= c lo hi <= c lo mid + c mid hi + Z.of_nat (length rates).
Proof.
  intros Hn Hm. simpl. revert to. induction Hn as [|r rates Hr Hn IH]; intros to; [simpl; lia|].
  specialize (IH (Some (rate_Amount r))). cbn [bands length]. rewrite !fmap_cons, !Zsum_cons.
  set (b := mkBand (rate_Amount r) to (rate_Rate r)) in *.
  assert (Hov : overlap lo hi b = overlap lo mid b + overlap mid hi b)
    by (unfold overlap, b; destruct to as [u|]; simpl; lia).
  assert (Hb : band_credit lo mid b + band_credit mid hi b <= band_credit lo hi b
               <= band_credit lo mid b + band_credit mid hi b + 1).
  { unfold band_credit. rewrite Hov, Z.mul_add_distr_r.
    split; [by apply div_add_le|by apply div_add_lt]. }
  lia.
Qed.

(** Splitting a lock cannot earn more credits. Locking [a] and then [b] on top pays
    at most what locking [a + b] at once pays, and falls short of it by at most
    one credit per reward rate, the rounding of each band. *)
Theorem split_lock_earns_no_more rates locked a b :
  rates_sorted rates -> rates_nonneg rates -> 0 <= a -> 0 <= b ->
  let at_once := calculateCredit rates locked (a + b) in
  let in_steps := calculateCredit rates locked a + calculateCredit rates (locked + a) b in
  in_steps <= at_once <= in_steps + Z.of_nat (length rates).
Proof.
  intros Hs Hn Ha Hb. simpl. rewrite !calculateCredit_bands by (done || lia).
  pose proof (credit_spec_split rates None locked (locked + a) (locked + a + b) Hn ltac:(lia)) as Hsp.
  rewrite Z.add_assoc. exact Hsp.
Qed.

Lemma band_credit_nonneg lo hi b : 0 <= band_rate b -> 0 <= band_credit lo hi b.
Proof. intros. unfold band_credit, overlap. apply Z.div_pos; [nia|lia]. Qed.

Lemma calculateCredit_nonneg rates locked locking :
  rates_sorted rates -> rates_nonneg rates -> 0 <= locking ->
  0 <= calculateCredit rates locked locking.
Proof.
  intros Hs Hn Hl. rewrite calculateCredit_bands by done. apply Zsum_nonneg, Forall_fmap.
  unfold credit_spec. generalize (None : option Z). induction Hn as [|r rates Hr Hn IH]; intros to; [constructor|].
  apply StronglySorted_inv in Hs as [Hs _]. constructor; [by apply band_credit_nonneg|by apply IH].
Qed.

(** With a lowest threshold of zero and rates of at least 100 percent, a lock
    earns at least one credit per unit. *)
Lemma calculateCredit_at_least rates locked locking :
  rates_sorted rates -> Forall (fun r => 100 <= rate_Rate r) rates ->
  Exists (fun r => rate_Amount r = 0) rates -> 0 <= locked -> 0 <= locking ->
  locking <= calculateCredit rates locked locking.
Proof.
  intros Hs Hr Hex Hl Hk. rewrite calculateCredit_bands; [|done| |done].
  2: { eapply Forall_impl; [exact Hr|]. intros; simpl in *; lia. }
  unfold credit_spec.
  assert (Hgen : forall rs to lo hi, StronglySorted (fun r1 r2 => rate_Amount r2 <= rate_Amount r1) rs ->
    Forall (fun r => 100 <= rate_Rate r) rs -> Exists (fun r => rate_Amount r = 0) rs ->
    0 <= lo <= hi -> Forall (fun r => match to with Some u => rate_Amount r <= u | None => True end) rs ->
    Z.max lo (cap to hi) - lo <= Zsum (band_credit lo hi <$> bands to rs)).
  { intros rs. induction rs as [|r rs IH]; intros to lo hi Hss Hrr Hee Hlh Hto; [by inversion Hee|].
    apply StronglySorted_inv in Hss as [Hss Hle]. apply Forall_cons in Hrr as [Hr1 Hrr].
    apply Forall_cons in Hto as [Ht1 Hto]. cbn [bands]. rewrite fmap_cons, Zsum_cons.
    assert (Hb : overlap lo hi (mkBand (rate_Amount r) to (rate_Rate r))
      <= band_credit lo hi (mkBand (rate_Amount r) to (rate_Rate r))).
    { unfold band_credit. simpl. set (o := overlap _ _ _).
      assert (0 <= o) by (unfold o, overlap; lia). apply Z.div_le_lower_bound; [lia|nia]. }
    apply Exists_cons in Hee as [Hz|Hee].
    - assert (0 <= Zsum (band_credit lo hi <$> bands (Some (rate_Amount r)) rs)).
      { apply Zsum_nonneg, Forall_fmap. clear -Hrr. generalize (Some (rate_Amount r)).
        induction Hrr as [|r' rs Hr' Hrr IH]; intros to'; [constructor|].
        constructor; [apply band_credit_nonneg; simpl; lia|by apply IH]. }
      unfold overlap in Hb. simpl in Hb. destruct to; simpl in *; lia.
    - specialize (IH (Some (rate_Amount r)) lo hi Hss Hrr Hee Hlh Hle).
      unfold overlap in Hb. simpl in Hb, IH. destruct to; simpl in *; lia. }
  specialize (Hgen rates None locked (locked + locking)). simpl in Hgen.
  rewrite Z.max_r in Hgen by lia. assert (Forall (fun _ : Rate => True) rates) by by apply Forall_forall.
  lapply Hgen; [|done]. intros Hg. specialize (Hg Hr Hex ltac:(lia) ltac:(done)). lia.
Qed.

Definition elapsed_ms (start now : Time) : Z := duration_ms (time_sub now start).

(** A lock made during an epoch earns at most the credit of a full epoch, and never
    a negative one; it earns the share of the epoch that has already elapsed,
    rounded down: nothing in the millisecond the epoch starts, everything once
    the epoch's duration is over, and never less when made later. *)
Theorem prorated_credit_bounds rates locked locking start now now' duration :
  rates_sorted rates -> rates_nonneg rates -> 0 <= locking -> 1000000 <= duration ->
  start <= now <= now' ->
  let full := calculateCredit rates locked locking in
  let at_ t := calculateProratedCredit rates locked locking start t duration in
  0 <= at_ now <= at_ now' /\ at_ now' <= full /\
  (elapsed_ms start now = 0 -> at_ now = 0) /\
  (duration_ms duration <= elapsed_ms start now -> at_ now = full) /\
  (elapsed_ms start now < duration_ms duration ->
     at_ now = full * elapsed_ms start now / duration_ms duration).
Proof.
  intros Hs Hn Hl Hd Ht. cbv zeta. unfold calculateProratedCredit. cbv zeta.
  fold (elapsed_ms start now) (elapsed_ms start now').
  pose proof (calculateCredit_nonneg rates locked locking Hs Hn Hl) as Hc.
  set (full := calculateCredit rates locked locking) in *.
  assert (He : 0 <= elapsed_ms start now <= elapsed_ms start now').
  { unfold elapsed_ms, duration_ms, time_sub, int64_min, int64_max.
    rewrite !Z.quot_div_nonneg by lia. split; [apply Z.div_pos; lia|apply Z.div_le_mono; lia]. }
  assert (Hms : 1 <= duration_ms duration).
  { unfold duration_ms. rewrite Z.quot_div_nonneg by lia. apply Z.div_le_lower_bound; lia. }
  destruct (Z.eqb_spec (duration_ms duration) 0); [lia|].
  set (e := elapsed_ms start now) in *. set (e' := elapsed_ms start now') in *.
  set (dm := duration_ms duration) in *.
  assert (Hshare : forall x, 0 <= x < dm -> Z.quot (full * x) dm = full * x / dm /\ 0 <= full * x / dm <= full).
  { intros x Hx. rewrite Z.quot_div_nonneg by nia. split; [done|]. split; [apply Z.div_pos; nia|].
    apply Z.div_le_upper_bound; nia. }
  destruct (Z.ltb_spec e dm), (Z.ltb_spec e' dm); try lia.
  - destruct (Hshare e) as [-> ?]; [lia|]. destruct (Hshare e') as [-> ?]; [lia|].
    assert (full * e / dm <= full * e' / dm) by (apply Z.div_le_mono; nia).
    split_and!; try lia. intros ->. by rewrite Z.mul_0_r, Z.div_0_l by lia.
  - destruct (Hshare e) as [-> ?]; [lia|]. split_and!; try lia.
    intros ->. by rewrite Z.mul_0_r, Z.div_0_l by lia.
Qed.
End credit_facts.

(** * Witnesses *)

Definition default_rates : list Rate := RewardRates DefaultParams.

Lemma default_rates_sorted : rates_sorted default_rates.
Proof. repeat constructor; simpl; lia. Qed.

Lemma default_rates_nonneg : rates_nonneg default_rates.
Proof. repeat constructor; simpl; lia. Qed.

Lemma calculateCredit_spec_witness : calculateCredit default_rates 150 200 = 250.
Proof.
  rewrite (calculateCredit_spec default_rates 150 200); [by vm_compute|..|lia].
  - apply default_rates_sorted.
  - apply default_rates_nonneg.
Defined.

Lemma split_lock_earns_no_more_witness :
  calculateCredit default_rates 0 5 + calculateCredit default_rates 5 320
  <= calculateCredit default_rates 0 325.
Proof.
  destruct (split_lock_earns_no_more default_rates 0 5 320 default_rates_sorted
    default_rates_nonneg ltac:(lia) ltac:(lia)) as [Hle _]. exact Hle.
Defined.

Lemma prorated_credit_bounds_witness :
  0 <= calculateProratedCredit default_rates 0 500 0 60000000000 300000000000.
Proof.
  destruct (prorated_credit_bounds default_rates 0 500 0 60000000000 60000000000 300000000000
    default_rates_sorted default_rates_nonneg ltac:(lia) ltac:(lia) ltac:(lia)) as [[Hge _] _].
  exact Hge.
Defined.
