(* ===== verification/TierState.v ===== *)
(** State of the tier module and the keepers it calls
    (src/x/tier/keeper/lockup.go, insurance.go, subscription.go, params.go and
    types/expected_keepers.go).

    The module's prefix stores are maps from the real key bytes; a missing
    entry of a single-value key is [None]. The rest of the chain is an abstract
    [world]: the expected keepers are classes of operations on it, so that they
    cannot touch the module's own stores. Events, logs and gauges are left out,
    except that a gauge converts its amount with [Int64], which panics outside
    the 64-bit range. *)
From Stdlib Require Import Ascii ZArith Lia.
From stdpp Require Import base numbers list gmap strings.
From S2P Require Import Prelude Sdk Epochs FeeAllowance TierTypes.

(** * Expected keepers *)

Class BankKeeper (W : Type) : Type := {
  GetBalance : bytes -> string -> W -> Z;
  SendCoinsFromModuleToAccount : string -> bytes -> Coins -> M W unit;
  SendCoinsFromAccountToModule : bytes -> string -> Coins -> M W unit;
  SendCoinsFromModuleToModule : string -> string -> Coins -> M W unit;
  DelegateCoinsFromAccountToModule : bytes -> string -> Coins -> M W unit;
  UndelegateCoinsFromModuleToAccount : string -> bytes -> Coins -> M W unit;
  MintCoins : string -> Coins -> M W unit;
  BurnCoins : string -> Coins -> M W unit;
  NewModuleAddress : string -> bytes;
}.

Inductive BondStatus : Type := Unbonded | Unbonding | Bonded.

(** The parts of [stakingtypes.Validator] the module reads. *)
Record Validator : Type := mkValidator {
  OperatorAddress : bytes;
  Tokens : Z;
  val_IsBonded : bool;
}.

Record UnbondingEntry : Type := mkUnbondingEntry {
  ube_CreationHeight : Z;
  ube_CompletionTime : Time;
  ube_Balance : Z;
}.

Class StakingKeeper (W : Type) : Type := {
  GetValidator : bytes -> W -> Validator + error;
  GetAllValidators : W -> list Validator + error;
  IterateValidators : W -> list Validator + error;
  GetDelegation : bytes -> bytes -> W -> Z + error;
  IterateDelegations : bytes -> W -> list bytes + error;
  TokensFromSharesTruncated : Validator -> Z -> Z;
  Delegate : bytes -> Z -> BondStatus -> Validator -> bool -> M W Z;
  ValidateUnbondAmount : bytes -> bytes -> Z -> M W Z;
  Undelegate : bytes -> bytes -> Z -> M W (Time * Z);
  BeginRedelegation : bytes -> bytes -> bytes -> Z -> M W Time;
  GetUnbondingDelegation : bytes -> bytes -> W -> list UnbondingEntry + error;
  SetUnbondingDelegation : bytes -> bytes -> list UnbondingEntry -> M W unit;
  RemoveUnbondingDelegation : bytes -> bytes -> M W unit;
}.

Class DistributionKeeper (W : Type) : Type := {
  WithdrawDelegationRewards : bytes -> bytes -> M W Coins;
}.

Class EpochsKeeper (W : Type) : Type := {
  ek_GetEpochInfo : bytes -> W -> EpochInfo;
}.

Class FeegrantKeeper (W : Type) : Type := {
  fk_GrantDIDAllowance : Ctx -> bytes -> bytes -> Allowance -> M W unit;
  fk_UpdateDIDAllowance : Ctx -> bytes -> bytes -> Allowance -> M W unit;
  fk_ExpireDIDAllowance : Ctx -> bytes -> bytes -> M W unit;
}.

Class AcpKeeper (W : Type) : Type := {
  GetAddressFromDID : bytes -> W -> bytes + error;
}.

(** A successful bank transfer moves exactly the coins. *)
Definition moves {W} `{BankKeeper W} (from to : bytes) (amt : Coins) (w w' : W) : Prop :=
  forall x d, GetBalance x d w' = GetBalance x d w
    - (if decide (x = from) then coins_amount d amt else 0)
    + (if decide (x = to) then coins_amount d amt else 0).

Class BankLaws (W : Type) `{BankKeeper W} : Prop := {
  SendToAccount_moves : forall m a amt w w', SendCoinsFromModuleToAccount m a amt w = (Ok tt, w') ->
    moves (NewModuleAddress m) a amt w w';
  SendToModule_moves : forall a m amt w w', SendCoinsFromAccountToModule a m amt w = (Ok tt, w') ->
    moves a (NewModuleAddress m) amt w w';
  SendModules_moves : forall m1 m2 amt w w', SendCoinsFromModuleToModule m1 m2 amt w = (Ok tt, w') ->
    moves (NewModuleAddress m1) (NewModuleAddress m2) amt w w';
  DelegateCoins_moves : forall a m amt w w', DelegateCoinsFromAccountToModule a m amt w = (Ok tt, w') ->
    moves a (NewModuleAddress m) amt w w';
  UndelegateCoins_moves : forall m a amt w w', UndelegateCoinsFromModuleToAccount m a amt w = (Ok tt, w') ->
    moves (NewModuleAddress m) a amt w w';
  MintCoins_adds : forall m amt w w', MintCoins m amt w = (Ok tt, w') -> forall x d,
    GetBalance x d w' = GetBalance x d w
      + (if decide (x = NewModuleAddress m) then coins_amount d amt else 0);
  BurnCoins_takes : forall m amt w w', BurnCoins m amt w = (Ok tt, w') -> forall x d,
    GetBalance x d w' = GetBalance x d w
      - (if decide (x = NewModuleAddress m) then coins_amount d amt else 0);
}.

(** When the bank accepts an operation on one coin: the sender has it, and the
    receiver is not a blocked address. *)
Class BankProgress (W : Type) `{BankKeeper W} : Type := {
  receives : bytes -> Prop;
  GetBalance_nonneg : forall a d w, 0 <= GetBalance a d w;
  SendToModule_progress : forall a m d amt w, 0 < amt <= GetBalance a d w ->
    exists w', SendCoinsFromAccountToModule a m [mkCoin d amt] w = (Ok tt, w');
  SendToAccount_progress : forall m a d amt w, receives a ->
    0 < amt <= GetBalance (NewModuleAddress m) d w ->
    exists w', SendCoinsFromModuleToAccount m a [mkCoin d amt] w = (Ok tt, w');
  SendModules_progress : forall m1 m2 d amt w, 0 < amt <= GetBalance (NewModuleAddress m1) d w ->
    exists w', SendCoinsFromModuleToModule m1 m2 [mkCoin d amt] w = (Ok tt, w');
  UndelegateCoins_progress : forall m a d amt w, 0 < amt <= GetBalance (NewModuleAddress m) d w ->
    exists w', UndelegateCoinsFromModuleToAccount m a [mkCoin d amt] w = (Ok tt, w');
  MintCoins_progress : forall d amt w, 0 < amt ->
    exists w', MintCoins ModuleName [mkCoin d amt] w = (Ok tt, w');
  BurnCoins_progress : forall d amt w, 0 < amt <= GetBalance (NewModuleAddress ModuleName) d w ->
    exists w', BurnCoins ModuleName [mkCoin d amt] w = (Ok tt, w');
}.

(** Withdrawn rewards arrive on the delegator's account. *)
Class DistributionLaws (W : Type) `{BankKeeper W, DistributionKeeper W} : Prop := {
  Withdraw_adds : forall del val w rewards w', WithdrawDelegationRewards del val w = (Ok rewards, w') ->
    (forall d, 0 <= coins_amount d rewards) /\
    forall x d, GetBalance x d w' = GetBalance x d w + (if decide (x = del) then coins_amount d rewards else 0);
}.

(** Delegating writes neither the epochs nor, outside the delegator's account,
    other coins than the bond denomination. *)
Class StakingFrame (W : Type) `{BankKeeper W, StakingKeeper W, EpochsKeeper W} : Prop := {
  DelegateCoins_epoch : forall a m amt w w' id, DelegateCoinsFromAccountToModule a m amt w = (Ok tt, w') ->
    ek_GetEpochInfo id w' = ek_GetEpochInfo id w;
  Delegate_epoch : forall a amt st v b w r w' id, Delegate a amt st v b w = (Ok r, w') ->
    ek_GetEpochInfo id w' = ek_GetEpochInfo id w;
  Delegate_others : forall a amt st v b w r w' x den, Delegate a amt st v b w = (Ok r, w') ->
    x <> a -> den <> DefaultBondDenom -> GetBalance x den w' = GetBalance x den w;
}.

(** Validator and account addresses have 20 bytes. *)
Class AddressLaws (W : Type) `{StakingKeeper W, AcpKeeper W} : Prop := {
  IterateValidators_addr : forall w vs, IterateValidators w = inl vs ->
    Forall (fun v => addr20 (OperatorAddress v)) vs;
  GetAllValidators_addr : forall w vs, GetAllValidators w = inl vs ->
    Forall (fun v => addr20 (OperatorAddress v)) vs;
  GetAddressFromDID_addr : forall did w a, GetAddressFromDID did w = inl a -> addr20 a;
}.

(** * State *)

Record TierState (W : Type) : Type := mkTierState {
  st_params : option Params;
  st_lockups : gmap bytes Lockup;
  st_unlocking : gmap bytes UnlockingLockup;
  st_insurance : gmap bytes Lockup;
  st_total_lockups : option Z;
  st_total_credits : option Z;
  st_developers : gmap bytes Developer;
  st_subscriptions : gmap bytes UserSubscription;
  st_dev_granted : gmap bytes Z;
  st_world : W;
}.
Arguments mkTierState {W}.
Arguments st_params {W}.
Arguments st_lockups {W}.
Arguments st_unlocking {W}.
Arguments st_insurance {W}.
Arguments st_total_lockups {W}.
Arguments st_total_credits {W}.
Arguments st_developers {W}.
Arguments st_subscriptions {W}.
Arguments st_dev_granted {W}.
Arguments st_world {W}.

Section state.
Context {W : Type}.
Implicit Types (s : TierState W).

Definition set_params (x : option Params) s : TierState W :=
  mkTierState x (st_lockups s) (st_unlocking s) (st_insurance s) (st_total_lockups s)
    (st_total_credits s) (st_developers s) (st_subscriptions s) (st_dev_granted s) (st_world s).
Definition set_lockups (x : gmap bytes Lockup) s : TierState W :=
  mkTierState (st_params s) x (st_unlocking s) (st_insurance s) (st_total_lockups s)
    (st_total_credits s) (st_developers s) (st_subscriptions s) (st_dev_granted s) (st_world s).
Definition set_unlocking (x : gmap bytes UnlockingLockup) s : TierState W :=
  mkTierState (st_params s) (st_lockups s) x (st_insurance s) (st_total_lockups s)
    (st_total_credits s) (st_developers s) (st_subscriptions s) (st_dev_granted s) (st_world s).
Definition set_insurance (x : gmap bytes Lockup) s : TierState W :=
  mkTierState (st_params s) (st_lockups s) (st_unlocking s) x (st_total_lockups s)
    (st_total_credits s) (st_developers s) (st_subscriptions s) (st_dev_granted s) (st_world s).
Definition set_total_lockups (x : option Z) s : TierState W :=
  mkTierState (st_params s) (st_lockups s) (st_unlocking s) (st_insurance s) x
    (st_total_credits s) (st_developers s) (st_subscriptions s) (st_dev_granted s) (st_world s).
Definition set_total_credits (x : option Z) s : TierState W :=
  mkTierState (st_params s) (st_lockups s) (st_unlocking s) (st_insurance s) (st_total_lockups s)
    x (st_developers s) (st_subscriptions s) (st_dev_granted s) (st_world s).
Definition set_developers (x : gmap bytes Developer) s : TierState W :=
  mkTierState (st_params s) (st_lockups s) (st_unlocking s) (st_insurance s) (st_total_lockups s)
    (st_total_credits s) x (st_subscriptions s) (st_dev_granted s) (st_world s).
Definition set_subscriptions (x : gmap bytes UserSubscription) s : TierState W :=
  mkTierState (st_params s) (st_lockups s) (st_unlocking s) (st_insurance s) (st_total_lockups s)
    (st_total_credits s) (st_developers s) x (st_dev_granted s) (st_world s).
Definition set_dev_granted (x : gmap bytes Z) s : TierState W :=
  mkTierState (st_params s) (st_lockups s) (st_unlocking s) (st_insurance s) (st_total_lockups s)
    (st_total_credits s) (st_developers s) (st_subscriptions s) x (st_world s).
Definition set_world (x : W) s : TierState W :=
  mkTierState (st_params s) (st_lockups s) (st_unlocking s) (st_insurance s) (st_total_lockups s)
    (st_total_credits s) (st_developers s) (st_subscriptions s) (st_dev_granted s) x.
End state.

#[export] Instance world_lens {W} : Lens (TierState W) W :=
  {| lens_get := st_world; lens_set := set_world |}.

#[export] Instance world_lens_laws {W} : LensLaws (TierState W) W.
Proof. by split. Qed.

(** An operation of another keeper, and a read of its state. *)
Definition on_world {W A} (m : M W A) : M (TierState W) A := lift m.
Definition from_world {W A} (f : W -> A) : M (TierState W) A := gets (fun s => f (st_world s)).

Definition of_sum {S A} (r : A + error) : M S A :=
  match r with inl a => ret a | inr e => throw e end.

(** * The module's stores *)

Section stores.
Context {W : Type}.
Implicit Types (delAddr valAddr : bytes) (amount creationHeight : Z).
Abbreviation TM := (M (TierState W)).

(** ** Parameters *)

Definition GetParams : TM Params := gets (fun s => default Params_zero (st_params s)).

Definition SetParams (params : Params) : TM unit := modify (set_params (Some params)).

(** [*params.EpochDuration] *)
Definition epochDuration (params : Params) : TM Duration :=
  match param_EpochDuration params with Some d => ret d | None => panic end.

(** ** Lockups *)

Definition setLockup delAddr valAddr amount : TM unit :=
  modify (fun s => set_lockups
    (<[LockupKey delAddr valAddr := mkLockup delAddr valAddr amount]> (st_lockups s)) s).

Definition SetUnlockingLockup delAddr valAddr creationHeight amount
    (completionTime unlockTime : Time) : TM unit :=
  modify (fun s => set_unlocking
    (<[UnlockingLockupKey delAddr valAddr creationHeight :=
         mkUnlockingLockup delAddr valAddr creationHeight amount completionTime unlockTime]>
       (st_unlocking s)) s).

Definition GetLockup delAddr valAddr : TM (option Lockup) :=
  gets (fun s => st_lockups s !! LockupKey delAddr valAddr).

Definition GetLockupAmount delAddr valAddr : TM Z :=
  gets (fun s => from_option Amount 0 (st_lockups s !! LockupKey delAddr valAddr)).

Definition hasLockup delAddr valAddr : TM bool :=
  gets (fun s => bool_decide (is_Some (st_lockups s !! LockupKey delAddr valAddr))).

Definition HasUnlockingLockup delAddr valAddr creationHeight : TM bool :=
  gets (fun s => bool_decide (is_Some (st_unlocking s !! UnlockingLockupKey delAddr valAddr creationHeight))).

Definition GetUnlockingLockup delAddr valAddr creationHeight : TM (option UnlockingLockup) :=
  gets (fun s => st_unlocking s !! UnlockingLockupKey delAddr valAddr creationHeight).

Definition removeLockup delAddr valAddr : TM unit :=
  modify (fun s => set_lockups (delete (LockupKey delAddr valAddr) (st_lockups s)) s).

Definition removeUnlockingLockup delAddr valAddr creationHeight : TM unit :=
  modify (fun s => set_unlocking
    (delete (UnlockingLockupKey delAddr valAddr creationHeight) (st_unlocking s)) s).

(** A loop over a store: each key is parsed, which may panic, and the callback
    runs with the variables it captures. *)
Definition iterate {A V B} (items : list (bytes * V)) (parse : bytes -> outcome A)
    (cb : B -> A -> V -> TM B) (acc : B) : TM B :=
  foldM (fun acc kv => a <- of_outcome (parse kv.1) ;; cb acc a kv.2) acc items.

Definition mustIterateLockups {B} (cb : B -> bytes -> bytes -> Lockup -> TM B) (acc : B) : TM B :=
  items <- gets (fun s => store_items (st_lockups s)) ;;
  iterate items LockupKeyToAddresses (fun acc da lockup => cb acc da.1 da.2 lockup) acc.

Definition mustIterateUnlockingLockups {B}
    (cb : B -> bytes -> bytes -> Z -> UnlockingLockup -> TM B) (acc : B) : TM B :=
  items <- gets (fun s => store_items (st_unlocking s)) ;;
  iterate items UnlockingLockupKeyToAddressesAtHeight
    (fun acc dah lockup => cb acc dah.1.1 dah.1.2 dah.2 lockup) acc.

(** The callback's error ends the iteration. *)
Definition iterateUnlockingLockups (cb : bytes -> bytes -> Z -> UnlockingLockup -> TM unit) : TM unit :=
  mustIterateUnlockingLockups (fun _ d v h lockup => cb d v h lockup) tt.

Definition GetAllLockups : TM (list Lockup) :=
  mustIterateLockups (fun acc _ _ lockup => ret (acc ++ [lockup])) [].

Definition GetAllUnlockingLockups : TM (list UnlockingLockup) :=
  mustIterateUnlockingLockups (fun acc _ _ _ lockup => ret (acc ++ [lockup])) [].

Definition totalLockedAmountByAddr delAddr : TM Z :=
  mustIterateLockups (fun amount d _ lockup =>
    ret (if decide (d = delAddr) then amount + Amount lockup else amount)) 0.

(** ** Totals *)

Definition nonneg_or_zero (t : option Z) : Z :=
  match t with Some t => if t <? 0 then 0 else t | None => 0 end.

Definition GetTotalLockupsAmount : TM Z := gets (fun s => nonneg_or_zero (st_total_lockups s)).

Definition setTotalLockupsAmount (total : Z) : TM unit :=
  modify (set_total_lockups (Some total)) ;;; panic_if (negb (is_int64 total)).

Definition getTotalCreditAmount : TM Z := gets (fun s => nonneg_or_zero (st_total_credits s)).

Definition setTotalCreditAmount (total : Z) : TM unit :=
  modify (set_total_credits (Some total)) ;;;
  panic_if ((0 <? total) && negb (is_int64 total)).

(** ** Insurance lockups *)

Definition getInsuranceLockup delAddr valAddr : TM (option Lockup) :=
  gets (fun s => st_insurance s !! LockupKey delAddr valAddr).

Definition getInsuranceLockupAmount delAddr valAddr : TM Z :=
  gets (fun s => from_option Amount 0 (st_insurance s !! LockupKey delAddr valAddr)).

Definition setInsuranceLockup delAddr valAddr amount : TM unit :=
  modify (fun s => set_insurance
    (<[LockupKey delAddr valAddr := mkLockup delAddr valAddr amount]> (st_insurance s)) s).

Definition removeInsuranceLockup delAddr valAddr : TM unit :=
  modify (fun s => set_insurance (delete (LockupKey delAddr valAddr) (st_insurance s)) s).

Definition AddInsuranceLockup delAddr valAddr amount : TM unit :=
  insuranceLockup <- getInsuranceLockup delAddr valAddr ;;
  setInsuranceLockup delAddr valAddr
    (match insuranceLockup with Some l => amount + Amount l | None => amount end).

Definition mustIterateInsuranceLockups {B} (cb : B -> bytes -> bytes -> Lockup -> TM B) (acc : B) : TM B :=
  items <- gets (fun s => store_items (st_insurance s)) ;;
  iterate items LockupKeyToAddresses (fun acc da lockup => cb acc da.1 da.2 lockup) acc.

Definition GetAllInsuranceLockups : TM (list Lockup) :=
  mustIterateInsuranceLockups (fun acc _ _ lockup => ret (acc ++ [lockup])) [].

Definition totalInsuredAmountByAddr delAddr : TM Z :=
  mustIterateInsuranceLockups (fun amount d _ lockup =>
    ret (if decide (d = delAddr) then amount + Amount lockup else amount)) 0.

(** ** Developers and subscriptions *)

Definition GetDeveloper (developerAddr : bytes) : TM (option Developer) :=
  gets (fun s => st_developers s !! DeveloperKey developerAddr).

Definition SetDeveloper (developerAddr : bytes) (developer : Developer) : TM unit :=
  modify (fun s => set_developers (<[DeveloperKey developerAddr := developer]> (st_developers s)) s).

Definition removeDeveloper (developerAddr : bytes) : TM unit :=
  modify (fun s => set_developers (delete (DeveloperKey developerAddr) (st_developers s)) s).

Definition mustIterateDevelopers {B} (cb : B -> bytes -> Developer -> TM B) (acc : B) : TM B :=
  items <- gets (fun s => store_items (st_developers s)) ;;
  iterate items DeveloperKeyToAddress cb acc.

Definition GetAllDevelopers : TM (list Developer) :=
  mustIterateDevelopers (fun acc _ developer => ret (acc ++ [developer])) [].

Definition GetUserSubscription (developerAddr userDid : bytes) : TM (option UserSubscription) :=
  gets (fun s => st_subscriptions s !! UserSubscriptionKey developerAddr userDid).

Definition SetUserSubscription (developerAddr userDid : bytes) (sub : UserSubscription) : TM unit :=
  modify (fun s => set_subscriptions
    (<[UserSubscriptionKey developerAddr userDid := sub]> (st_subscriptions s)) s).

Definition removeUserSubscription (developerAddr userDid : bytes) : TM unit :=
  modify (fun s => set_subscriptions
    (delete (UserSubscriptionKey developerAddr userDid) (st_subscriptions s)) s).

Definition mustIterateUserSubscriptions {B} (cb : B -> bytes -> bytes -> UserSubscription -> TM B)
    (acc : B) : TM B :=
  items <- gets (fun s => store_items (st_subscriptions s)) ;;
  iterate items UserSubscriptionKeyToAddresses (fun acc du sub => cb acc du.1 du.2 sub) acc.

Definition mustIterateUserSubscriptionsForDeveloper {B} (developerAddr : bytes)
    (cb : B -> bytes -> bytes -> UserSubscription -> TM B) (acc : B) : TM B :=
  items <- gets (fun s => store_prefix_items developerAddr (st_subscriptions s)) ;;
  iterate items UserSubscriptionKeyToAddresses (fun acc du sub => cb acc du.1 du.2 sub) acc.

Definition GetAllUserSubscriptions : TM (list UserSubscription) :=
  mustIterateUserSubscriptions (fun acc _ _ sub => ret (acc ++ [sub])) [].

Definition getTotalDevGranted (developerAddr : bytes) : TM Z :=
  gets (fun s => default 0 (st_dev_granted s !! TotalDevGrantedKey developerAddr)).

(** [Uint64] panics outside its range, and so does the gauge's [Int64], after
    the write. *)
Definition updateDeveloperTotalGranted (developerAddr : bytes) (delta : Z) (add : bool) : TM unit :=
  current <- getTotalDevGranted developerAddr ;;
  newTotal <- (if add then ret (current + delta)
               else throw_if (current - delta <? 0) ErrInvalidAmount ;;; ret (current - delta)) ;;
  panic_if (negb (is_uint64 newTotal)) ;;;
  modify (fun s => set_dev_granted (<[TotalDevGrantedKey developerAddr := newTotal]> (st_dev_granted s)) s) ;;;
  panic_if (negb (is_int64 newTotal)).
End stores.
