(* ===== verification/TierKeeper.v ===== *)
(** The tier keeper (src/x/tier/keeper/keeper.go, lockup.go, credit.go): locking
    stake for credits, unlocking it again, and the credits of each epoch.

    Every operation is the whole method: its guards in their order, each call of
    another keeper, and the writes that precede an error. *)
From Stdlib Require Import Ascii ZArith Lia.
From stdpp Require Import base numbers list gmap strings.
From S2P Require Import Prelude Sdk Epochs TierTypes TierCredit TierState.

(** Ranging over a Go map visits its entries in some order. *)
Class MapRange : Type := {
  range_map : forall {V}, gmap bytes V -> list (bytes * V);
  range_map_perm : forall V (m : gmap bytes V), range_map m ≡ₚ map_to_list m;
}.

#[export, refine] Instance map_range_impl : MapRange := {| range_map _ m := map_to_list m |}.
Proof. done. Defined.

(** [MustAccAddressFromBech32] and [MustValAddressFromBech32] panic on an error. *)
Definition must {S A} (r : A + error) : M S A :=
  match r with inl a => ret a | inr _ => panic end.

Section keeper.
Context `{LegacyDecOps, AddressCodec, MapRange}.
Context {W : Type} `{BankKeeper W, StakingKeeper W, EpochsKeeper W}.
Implicit Types (ctx : Ctx) (delAddr valAddr : bytes) (amt amount creationHeight : Z).
Abbreviation TM := (M (TierState W)).

(** [authtypes.NewModuleAddress(types.ModuleName)] *)
Definition modAddr : bytes := NewModuleAddress (W := W) ModuleName.

(** ** Lockup records *)

Definition AddLockup delAddr valAddr amount : TM unit :=
  total <- GetTotalLockupsAmount ;;
  setTotalLockupsAmount (total + amount) ;;;
  lockup <- GetLockup delAddr valAddr ;;
  setLockup delAddr valAddr (match lockup with Some l => amount + Amount l | None => amount end).

Definition subtractLockup delAddr valAddr amount : TM unit :=
  lockup <- GetLockup delAddr valAddr ;;
  match lockup with
  | None => throw ErrNotFound
  | Some lockup =>
      insuranceLockup <- getInsuranceLockup delAddr valAddr ;;
      let insuranceLockupAmount := from_option Amount 0 insuranceLockup in
      throw_if (Amount lockup <? amount + insuranceLockupAmount) ErrInvalidAmount ;;;
      total <- GetTotalLockupsAmount ;;
      setTotalLockupsAmount (total - amount) ;;;
      if amount =? Amount lockup then removeLockup delAddr valAddr
      else setLockup delAddr valAddr (Amount lockup - amount)
  end.

Definition subtractUnlockingLockup delAddr valAddr creationHeight amount : TM unit :=
  unlockingLockup <- GetUnlockingLockup delAddr valAddr creationHeight ;;
  match unlockingLockup with
  | None => throw ErrNotFound
  | Some u =>
      throw_if (ul_Amount u <? amount) ErrInvalidAmount ;;;
      if amount =? ul_Amount u then removeUnlockingLockup delAddr valAddr creationHeight
      else SetUnlockingLockup delAddr valAddr creationHeight (ul_Amount u - amount)
             (ul_CompletionTime u) (ul_UnlockTime u)
  end.

Definition adjustLockup delAddr valAddr (slashingRate coverageRate : Z) : TM unit :=
  lockup <- GetLockup delAddr valAddr ;;
  match lockup with
  | None => throw ErrNotFound
  | Some lockup =>
      let amountAfterSlashing := dec_truncate (dec_mul (dec_of_int (Amount lockup)) slashingRate) in
      if amountAfterSlashing =? Amount lockup then ret tt
      else
        total <- GetTotalLockupsAmount ;;
        setTotalLockupsAmount (total - Amount lockup + amountAfterSlashing) ;;;
        if amountAfterSlashing =? 0 then
          removeLockup delAddr valAddr ;;; removeInsuranceLockup delAddr valAddr
        else
          setLockup delAddr valAddr amountAfterSlashing ;;;
          when (0 <? coverageRate)
            (let coveredAmount := dec_truncate (dec_mul (dec_of_int (Amount lockup)) coverageRate) in
             insuranceLockup <- getInsuranceLockup delAddr valAddr ;;
             setInsuranceLockup delAddr valAddr
               (match insuranceLockup with
                | Some l => coveredAmount + Amount l
                | None => coveredAmount
                end))
  end.

Definition adjustLockups (validatorAddr : bytes) (slashingRate coverageRate : Z) : TM unit :=
  mustIterateLockups (fun _ d v _ =>
    if decide (v = validatorAddr) then adjustLockup d v slashingRate coverageRate else ret tt) tt.

(** ** Credits *)

Definition mintCredit (addr : bytes) amount : TM unit :=
  of_sum (StringToBytes (BytesToString addr)) ;;;
  throw_if (amount <=? 0) (ErrMsg "invalid amount") ;;;
  coins <- NewCoins1 MicroCreditDenom amount ;;
  on_world (MintCoins ModuleName coins) ;;;
  on_world (SendCoinsFromModuleToAccount ModuleName addr coins).

Definition proratedCredit ctx delAddr (lockingAmt : Z) : TM Z :=
  params <- GetParams ;;
  epochInfo <- from_world (ek_GetEpochInfo EpochIdentifier) ;;
  lockedAmt <- totalLockedAmountByAddr delAddr ;;
  insuredAmt <- totalInsuredAmountByAddr delAddr ;;
  ret (calculateProratedCredit (RewardRates params) (lockedAmt + insuredAmt) lockingAmt
         (CurrentEpochStartTime epochInfo) (block_time ctx) (EpochDuration epochInfo)).

(** The callback of [burnAllCredits] sets the error variable that the function
    returns, and each later success overwrites it. *)
Definition burnCallback (acc : option error) delAddr : TM (option error) :=
  balance <- from_world (GetBalance delAddr MicroCreditDenom) ;;
  if balance <=? 0 then ret acc
  else
    coins <- NewCoins1 MicroCreditDenom balance ;;
    r <- attempt (on_world (SendCoinsFromAccountToModule delAddr ModuleName coins)) ;;
    match r with
    | inr e => ret (Some e)
    | inl _ =>
        b <- attempt (on_world (BurnCoins ModuleName coins)) ;;
        match b with inr e => ret (Some e) | inl _ => ret None end
    end.

(** The utilisation gauge, a quotient turned into a float, is left out: its
    conversion of a decimal within [math.LegacyDec]'s range does not fail. *)
Definition burnAllCredits : TM unit :=
  err <- mustIterateLockups (fun acc d _ _ => burnCallback acc d) None ;;
  setTotalCreditAmount 0 ;;;
  match err with Some e => throw e | None => ret tt end.

(** The amounts of each delegator, lockups and their insurance together. *)
Definition collectLocked : TM (gmap bytes Z) :=
  mustIterateLockups (fun lockedAmts d v lockup =>
    insuranceLockupAmount <- getInsuranceLockupAmount d v ;;
    ret (<[d := default 0 (lockedAmts !! d) + Amount lockup + insuranceLockupAmount]> lockedAmts)) ∅.

Definition resetAllCredits : TM unit :=
  lockedAmts <- collectLocked ;;
  params <- GetParams ;;
  totalCredit <- foldM (fun totalCredit da =>
    let credit := calculateCredit (RewardRates params) 0 da.2 in
    mintCredit da.1 credit ;;;
    ret (totalCredit + credit)) 0 (range_map lockedAmts) ;;
  setTotalCreditAmount totalCredit.

(** ** Locking *)

Definition Lock ctx delAddr valAddr amt : TM unit :=
  throw_if (amt <=? 0) ErrInvalidAmount ;;;
  v <- from_world (GetValidator valAddr) ;;
  match v with
  | inr _ => throw ErrInvalidAddress
  | inl validator =>
      coins <- NewCoins1 DefaultBondDenom amt ;;
      on_world (DelegateCoinsFromAccountToModule delAddr ModuleName coins) ;;;
      on_world (Delegate modAddr amt Unbonded validator true) ;;;
      creditAmt <- proratedCredit ctx delAddr amt ;;
      mintCredit delAddr creditAmt ;;;
      AddLockup delAddr valAddr amt ;;;
      totalCredits <- getTotalCreditAmount ;;
      setTotalCreditAmount (totalCredits + creditAmt)
  end.

(** The delegator's smallest lockup, the first one on a tie. *)
Definition minLockup (l : list (bytes * Z)) : option (bytes * Z) :=
  foldl (fun m x => match m with
                    | None => Some x
                    | Some y => if x.2 <? y.2 then Some x else Some y
                    end) None l.

Definition selectValidatorFromExistingLockups delAddr : TM (option bytes) :=
  developerLockups <- mustIterateLockups (fun acc d v lockup =>
    ret (if decide (d = delAddr) then acc ++ [(v, Amount lockup)] else acc)) [] ;;
  match minLockup developerLockups with
  | None => ret None
  | Some (v, _) =>
      validator <- from_world (GetValidator v) ;;
      match validator with
      | inr _ => ret None
      | inl val => ret (if val_IsBonded val then Some v else None)
      end
  end.

Definition selectValidatorWithSmallestDelegation : TM bytes :=
  vs <- from_world IterateValidators ;;
  match vs with
  | inr _ => throw ErrInvalidAddress
  | inl vs =>
      validatorDelegations <- foldM (fun acc v =>
        if negb (val_IsBonded v) then ret acc
        else
          delegation <- from_world (GetDelegation modAddr (OperatorAddress v)) ;;
          ret (acc ++ [(OperatorAddress v,
                        match delegation with inl shares => dec_truncate shares | inr _ => 0 end)])) [] vs ;;
      match minLockup validatorDelegations with
      | None => throw ErrInvalidAddress
      | Some (v, _) => ret v
      end
  end.

Definition LockAuto ctx delAddr amt : TM bytes :=
  existing <- selectValidatorFromExistingLockups delAddr ;;
  valAddr <- match existing with
             | Some v => ret v
             | None => selectValidatorWithSmallestDelegation
             end ;;
  Lock ctx delAddr valAddr amt ;;;
  ret valAddr.

(** ** Unlocking *)

Definition Unlock ctx delAddr valAddr amt : TM (Z * Time * Time) :=
  throw_if (amt <=? 0) ErrInvalidAmount ;;;
  subtractLockup delAddr valAddr amt ;;;
  has <- hasLockup delAddr valAddr ;;
  when (negb has) (removeInsuranceLockup delAddr valAddr) ;;;
  shares <- on_world (ValidateUnbondAmount modAddr valAddr amt) ;;
  throw_if (shares <=? 0) (ErrMsg "shares are not positive") ;;;
  letp (completionTime, returnAmount) <- on_world (Undelegate modAddr valAddr shares) ;;
  let amt' := if returnAmount <? amt then returnAmount else amt in
  params <- GetParams ;;
  d <- epochDuration params ;;
  let creationHeight := block_height ctx in
  let unlockTime := time_add (block_time ctx) (wrap64 (d * UnlockingEpochs params)) in
  SetUnlockingLockup delAddr valAddr creationHeight amt' completionTime unlockTime ;;;
  ret (creationHeight, completionTime, unlockTime).

Definition Redelegate delAddr (srcValAddr dstValAddr : bytes) amt : TM Time :=
  throw_if (amt <=? 0) ErrInvalidAmount ;;;
  subtractLockup delAddr srcValAddr amt ;;;
  AddLockup delAddr dstValAddr amt ;;;
  has <- hasLockup delAddr srcValAddr ;;
  when (negb has)
    (insuranceLockupAmount <- getInsuranceLockupAmount delAddr srcValAddr ;;
     when (0 <? insuranceLockupAmount)
       (removeInsuranceLockup delAddr srcValAddr ;;;
        AddInsuranceLockup delAddr dstValAddr insuranceLockupAmount)) ;;;
  shares <- on_world (ValidateUnbondAmount modAddr srcValAddr amt) ;;
  on_world (BeginRedelegation modAddr srcValAddr dstValAddr shares).

(** The first entry of the height that is not complete yet. *)
Fixpoint findEntry creationHeight (now : Time) (entries : list UnbondingEntry) (i : nat)
    : option (nat * UnbondingEntry) :=
  match entries with
  | [] => None
  | e :: rest =>
      if (ube_CreationHeight e =? creationHeight) && time_after (ube_CompletionTime e) now
      then Some (i, e) else findEntry creationHeight now rest (S i)
  end.

Definition CancelUnlocking ctx delAddr valAddr creationHeight amt : TM unit :=
  throw_if (amt <=? 0) ErrInvalidAmount ;;;
  v <- from_world (GetValidator valAddr) ;;
  match v with
  | inr _ => throw ErrInvalidAddress
  | inl validator =>
      ubd <- from_world (GetUnbondingDelegation modAddr valAddr) ;;
      entries <- of_sum ubd ;;
      match findEntry creationHeight (block_time ctx) entries 0 with
      | None => throw (ErrMsg "no valid entry for height")
      | Some (i, unbondEntry) =>
          throw_if (ube_Balance unbondEntry <? amt) ErrInvalidAmount ;;;
          on_world (Delegate modAddr amt Unbonding validator false) ;;;
          let remainingBalance := ube_Balance unbondEntry - amt in
          let entries' :=
            if remainingBalance =? 0 then take i entries ++ drop (S i) entries
            else <[i := mkUnbondingEntry (ube_CreationHeight unbondEntry)
                          (ube_CompletionTime unbondEntry) remainingBalance]> entries in
          on_world (if bool_decide (entries' = []) then RemoveUnbondingDelegation modAddr valAddr
                    else SetUnbondingDelegation modAddr valAddr entries') ;;;
          subtractUnlockingLockup delAddr valAddr creationHeight amt ;;;
          AddLockup delAddr valAddr amt
      end
  end.

Definition completeUnlockingEntry ctx delAddr valAddr creationHeight (u : UnlockingLockup) : TM unit :=
  if time_before (block_time ctx) (ul_CompletionTime u) || time_before (block_time ctx) (ul_UnlockTime u)
  then ret tt
  else
    moduleBalance <- from_world (GetBalance modAddr DefaultBondDenom) ;;
    if moduleBalance <? ul_Amount u then ret tt
    else
      coins <- NewCoins1 DefaultBondDenom (ul_Amount u) ;;
      on_world (UndelegateCoinsFromModuleToAccount ModuleName delAddr coins) ;;;
      removeUnlockingLockup delAddr valAddr creationHeight.

Definition CompleteUnlocking ctx : TM unit :=
  iterateUnlockingLockups (completeUnlockingEntry ctx).
End keeper.
