(* ===== verification/TierModule.v ===== *)
(** Developers and subscriptions, slashing, rewards, the epoch hooks, the block
    handler, the message server and genesis of the tier module
    (src/x/tier/keeper/keeper.go, subscription.go, slashing.go, rewards.go,
    epoch_hook.go, abci.go, msg_server.go and module/genesis.go). *)
From Stdlib Require Import Ascii ZArith Lia.
From stdpp Require Import base numbers list gmap strings.
From S2P Require Import Prelude Sdk Epochs FeeAllowance FeegrantKeys TierTypes TierCredit TierState TierKeeper.

(** The parts of [sdk.Event] the module reads. *)
Record Event : Type := mkEvent {
  event_Type : bytes;
  event_Attributes : list (bytes * bytes);
}.

(** [math.LegacyNewDecFromStr] *)
Class DecParser : Type := { LegacyNewDecFromStr : bytes -> Z + error }.

(** The loop over the attributes: a later one of the same key wins. *)
Definition attribute (key : bytes) (attrs : list (bytes * bytes)) : bytes :=
  foldl (fun acc kv => if bool_decide (kv.1 = key) then kv.2 else acc) [] attrs.

Section module.
Context `{LegacyDecOps, CoinsOps, DecParser, AddressCodec, ValAddressCodec, MapRange}.
Context {W : Type} `{BankKeeper W, StakingKeeper W, EpochsKeeper W, DistributionKeeper W,
                     FeegrantKeeper W, AcpKeeper W}.
Implicit Types (ctx : Ctx) (developerAddr userDid : bytes).
Abbreviation TM := (M (TierState W)).
Abbreviation modAddr := (modAddr (W := W)).

(** ** Developers *)

Definition CreateDeveloper developerAddr (autoLockEnabled : bool) : TM unit :=
  existingDev <- GetDeveloper developerAddr ;;
  match existingDev with
  | Some _ => throw ErrInvalidAddress
  | None => SetDeveloper developerAddr (mkDeveloper developerAddr autoLockEnabled)
  end.

Definition UpdateDeveloper developerAddr (autoLockEnabled : bool) : TM unit :=
  developer <- GetDeveloper developerAddr ;;
  match developer with
  | None => throw ErrInvalidAddress
  | Some dev => SetDeveloper developerAddr (mkDeveloper (dev_Address dev) autoLockEnabled)
  end.

(** ** Developer credits *)

Definition validateDeveloperCredits developerAddr (requestedAmount : Z) : TM unit :=
  totalGranted <- getTotalDevGranted developerAddr ;;
  creditBalance <- from_world (GetBalance developerAddr MicroCreditDenom) ;;
  throw_if (creditBalance - totalGranted <? requestedAmount) ErrInvalidAddress.

(** The validator of the developer's largest lockup, the first one on a tie, or
    else the first of all validators. *)
Definition chooseValidator developerAddr : TM bytes :=
  chosen <- mustIterateLockups (fun acc d v lockup =>
    ret (if decide (d = developerAddr) then
           match acc with
           | None => Some (v, Amount lockup)
           | Some (_, maxLockupAmt) => if maxLockupAmt <? Amount lockup then Some (v, Amount lockup) else acc
           end
         else acc)) None ;;
  match chosen with
  | Some (v, _) => ret v
  | None =>
      validators <- from_world GetAllValidators ;;
      match validators with
      | inl (validator :: _) => ret (OperatorAddress validator)
      | _ => throw ErrInvalidAmount
      end
  end.

(** [types.ErrInvalidAmount.Wrapf("...: %v", err)] replaces the error. *)
Definition lock_or_invalid ctx developerAddr (valAddr : bytes) (amt : Z) : TM unit :=
  r <- attempt (Lock ctx developerAddr valAddr amt) ;;
  match r with inl _ => ret tt | inr _ => throw ErrInvalidAmount end.

Definition autoLockDeveloperCredits ctx developerAddr (lockAmount : Z) : TM unit :=
  throw_if (lockAmount <=? 0) ErrInvalidAmount ;;;
  chosenValAddr <- chooseValidator developerAddr ;;
  lock_or_invalid ctx developerAddr chosenValAddr lockAmount.

Definition addLockupForRegistration ctx developerAddr (requiredAmount : Z) : TM unit :=
  currentTotal <- getTotalDevGranted developerAddr ;;
  creditBalance <- from_world (GetBalance developerAddr MicroCreditDenom) ;;
  let additionalNeeded := requiredAmount - (creditBalance - currentTotal) in
  if additionalNeeded <=? 0 then ret tt
  else
    chosenValAddr <- chooseValidator developerAddr ;;
    lock_or_invalid ctx developerAddr chosenValAddr additionalNeeded.

(** The callback of [checkDeveloperCredits], once per developer; failures only
    emit events, and what a failed auto-lock wrote before its error stays. *)
Definition checkDeveloper ctx developerAddr : TM unit :=
  totalGranted <- getTotalDevGranted developerAddr ;;
  creditBalance <- from_world (GetBalance developerAddr MicroCreditDenom) ;;
  if totalGranted <=? creditBalance then ret tt
  else
    developer <- GetDeveloper developerAddr ;;
    match developer with
    | Some dev =>
        if negb (AutoLockEnabled dev) then ret tt
        else
          let lockAmount := totalGranted - creditBalance in
          uopenBalance <- from_world (GetBalance developerAddr DefaultBondDenom) ;;
          if uopenBalance <? lockAmount then ret tt
          else attempt (autoLockDeveloperCredits ctx developerAddr lockAmount) ;;; ret tt
    | None => ret tt
    end.

Definition checkDeveloperCredits ctx : TM unit :=
  mustIterateUserSubscriptions (fun processedDevelopers developerAddr _ _ =>
    if decide (developerAddr ∈ processedDevelopers) then ret processedDevelopers
    else checkDeveloper ctx developerAddr ;;; ret (developerAddr :: processedDevelopers)) [] ;;;
  ret tt.

(** ** Subscriptions *)

(** The same coins are the limit of the period and of the whole allowance. *)
Definition newPeriodicAllowance ctx (spendLimit : Coins) (period : Duration) : Allowance :=
  APeriodic (mkPeriodic (mkBasic spendLimit None) period spendLimit spendLimit
               (time_add (block_time ctx) period)).

Definition grantPeriodicDIDAllowance ctx (granter granteeDID : bytes) (spendLimit : Coins)
    (period : Duration) : TM unit :=
  let periodicAllowance := newPeriodicAllowance ctx spendLimit period in
  u <- attempt (on_world (fk_UpdateDIDAllowance ctx granter granteeDID periodicAllowance)) ;;
  match u with
  | inl _ => ret tt
  | inr _ => on_world (fk_GrantDIDAllowance ctx granter granteeDID periodicAllowance)
  end.

(** The developer of a bearer token takes the place of the sender. *)
Definition actingDeveloper ctx developerAddr : TM bytes :=
  if decide (extracted_did ctx = []) then ret developerAddr
  else r <- from_world (GetAddressFromDID (extracted_did ctx)) ;; of_sum r.

(** [time.Duration(period) * time.Second] on 64 bits, the epoch's duration when
    that is zero. *)
Definition subscriptionPeriod (period : Z) : TM Duration :=
  let d := wrap64 (wrap64 period * 1000000000) in
  if d =? 0 then params <- GetParams ;; epochDuration params else ret d.

(** The rate a requested amount is locked at; an empty list of rates panics. *)
Definition effectiveRate (rates : list Rate) (amount : Z) : TM Z :=
  let found := match list_find (fun r => rate_Amount r <= amount) rates with
               | Some (_, r) => rate_Rate r | None => 0 end in
  if found <=? 0 then
    match last rates with Some r => ret (rate_Rate r) | None => panic end
  else ret found.

(** [QuoRaw] panics on zero. *)
Definition lockAmountFor (rates : list Rate) (amount : Z) : TM Z :=
  rate <- effectiveRate rates amount ;;
  panic_if (rate =? 0) ;;;
  let lockAmt := Z.quot (amount * 100 + wrap64 (rate - 1)) rate in
  ret (if lockAmt <=? 0 then 1 else lockAmt).

Definition AddUserSubscription ctx developerAddr0 userDid (amount period : Z) : TM unit :=
  developerAddr <- actingDeveloper ctx developerAddr0 ;;
  existingSub <- GetUserSubscription developerAddr userDid ;;
  match existingSub with
  | Some _ => throw ErrInvalidAddress
  | None =>
      developer <- GetDeveloper developerAddr ;;
      match developer with
      | None => throw ErrInvalidAddress
      | Some dev =>
          r <- attempt (validateDeveloperCredits developerAddr amount) ;;
          match r with
          | inl _ => ret tt
          | inr _ =>
              throw_if (negb (AutoLockEnabled dev)) ErrInvalidAmount ;;;
              params <- GetParams ;;
              lockAmt <- lockAmountFor (RewardRates params) amount ;;
              l <- attempt (addLockupForRegistration ctx developerAddr lockAmt) ;;
              match l with inl _ => ret tt | inr _ => throw ErrInvalidAmount end
          end ;;;
          SetUserSubscription developerAddr userDid
            (mkUserSubscription developerAddr userDid amount (block_time ctx) period (block_time ctx)) ;;;
          spendLimit <- NewCoins1 MicroCreditDenom amount ;;
          grantPeriod <- subscriptionPeriod period ;;
          grantPeriodicDIDAllowance ctx developerAddr userDid spendLimit grantPeriod ;;;
          t <- attempt (updateDeveloperTotalGranted developerAddr amount true) ;;
          match t with inl _ => ret tt | inr _ => throw ErrInvalidAmount end
      end
  end.

Definition UpdateUserSubscription ctx developerAddr0 userDid (amount period : Z) : TM unit :=
  developerAddr <- actingDeveloper ctx developerAddr0 ;;
  userSubscription <- GetUserSubscription developerAddr userDid ;;
  match userSubscription with
  | None => throw ErrInvalidAddress
  | Some sub =>
      let oldAmount := CreditAmount sub in
      (if oldAmount <? amount then updateDeveloperTotalGranted developerAddr (amount - oldAmount) true
       else if amount <? oldAmount then updateDeveloperTotalGranted developerAddr (oldAmount - amount) false
       else ret tt) ;;;
      SetUserSubscription developerAddr userDid
        (mkUserSubscription (sub_Developer sub) (sub_UserDid sub) amount (StartDate sub) period
           (block_time ctx)) ;;;
      spendLimit <- NewCoins1 MicroCreditDenom amount ;;
      updatePeriod <- subscriptionPeriod period ;;
      grantPeriodicDIDAllowance ctx developerAddr userDid spendLimit updatePeriod
  end.

Definition RemoveUserSubscription ctx developerAddr0 userDid : TM unit :=
  developerAddr <- actingDeveloper ctx developerAddr0 ;;
  existingSub <- GetUserSubscription developerAddr userDid ;;
  match existingSub with
  | None => throw ErrInvalidAddress
  | Some sub =>
      updateDeveloperTotalGranted developerAddr (CreditAmount sub) false ;;;
      removeUserSubscription developerAddr userDid ;;;
      attempt (on_world (fk_ExpireDIDAllowance ctx developerAddr userDid)) ;;; ret tt
  end.

Definition RemoveDeveloper ctx developerAddr : TM unit :=
  existingDev <- GetDeveloper developerAddr ;;
  match existingDev with
  | None => throw ErrInvalidAddress
  | Some _ =>
      subscriptionsToRemove <- mustIterateUserSubscriptionsForDeveloper developerAddr
        (fun acc d u _ => ret (acc ++ [(d, u)])) [] ;;
      forM_ (fun sub => attempt (RemoveUserSubscription ctx sub.1 sub.2) ;;; ret tt)
        subscriptionsToRemove ;;;
      removeDeveloper developerAddr
  end.

(** ** Slashing *)

(** The part the two handlers share: the slashed amount, the validator, and the
    tier module's stake with it. *)
Definition tierStakeOf (validatorAddr slashedAmount : bytes) : TM (bytes * Validator * Z * Z * Z) :=
  valAddr <- of_sum (ValAddressFromBech32 validatorAddr) ;;
  totalSlashed <- of_sum (LegacyNewDecFromStr slashedAmount) ;;
  throw_if (totalSlashed =? 0) (ErrMsg "Total slashed amount is zero") ;;;
  v <- from_world (GetValidator valAddr) ;;
  validator <- of_sum v ;;
  let totalStake := dec_of_int (Tokens validator) in
  throw_if (totalStake =? 0) (ErrMsg "No stake for the validator") ;;;
  d <- from_world (GetDelegation modAddr valAddr) ;;
  tierShares <- of_sum d ;;
  throw_if (tierShares =? 0) (ErrMsg "No delegation from the tier module") ;;;
  ret (valAddr, validator, totalSlashed, totalStake, TokensFromSharesTruncated validator tierShares).

Definition handleDoubleSign (validatorAddr slashedAmount : bytes) : TM unit :=
  letp (valAddr, _, totalSlashed, totalStake, tierStake) <- tierStakeOf validatorAddr slashedAmount ;;
  share <- Quo tierStake totalStake ;;
  let tierStakeSlashed := dec_mul totalSlashed share in
  throw_if (tierStakeSlashed =? 0) (ErrMsg "Tier module slashed amount is zero") ;;;
  slashingRate <- Quo (tierStake - tierStakeSlashed) tierStake ;;
  adjustLockups valAddr slashingRate 0.

Definition handleMissingSignature (validatorAddr slashedAmount : bytes) : TM unit :=
  letp (valAddr, validator, totalSlashed, totalStake, tierStake) <- tierStakeOf validatorAddr slashedAmount ;;
  share <- Quo tierStake totalStake ;;
  let tierStakeSlashed := dec_truncate (dec_ceil (dec_mul totalSlashed share)) in
  throw_if (tierStakeSlashed =? 0) (ErrMsg "Tier module slashed amount is zero") ;;;
  let insurancePoolAddr := NewModuleAddress (W := W) InsurancePoolName in
  insurancePoolBalance <- from_world (GetBalance insurancePoolAddr DefaultBondDenom) ;;
  let coveredAmount :=
    if insurancePoolBalance <? tierStakeSlashed then insurancePoolBalance else tierStakeSlashed in
  on_world (Delegate insurancePoolAddr coveredAmount Unbonded validator true) ;;;
  slashingRate <- Quo (tierStake - dec_of_int tierStakeSlashed) tierStake ;;
  coverageRate <- Quo (dec_of_int coveredAmount) tierStake ;;
  adjustLockups valAddr slashingRate coverageRate.

(** A handler's error is logged. *)
Definition handleSlashEvent (e : Event) : TM unit :=
  if negb (bool_decide (event_Type e = lit "slash")) then ret tt
  else
    let validatorAddr := attribute (lit "address") (event_Attributes e) in
    let reason := attribute (lit "reason") (event_Attributes e) in
    let slashedAmount := attribute (lit "burned") (event_Attributes e) in
    attempt (if bool_decide (reason = lit "double_sign") then handleDoubleSign validatorAddr slashedAmount
             else handleMissingSignature validatorAddr slashedAmount) ;;; ret tt.

Definition handleSlashingEvents (events : list Event) : TM unit := forM_ handleSlashEvent events.

(** ** Rewards *)

(** The insurance pool's share, while the pool stays within its threshold; the
    result is what is left for the developer pool, or nothing when the transfer
    failed, which ends the work on this validator. *)
Definition payInsurancePool (params : Params) (amountToDevPool amountToInsurancePool : Z) : TM (option Z) :=
  if amountToInsurancePool =? 0 then ret (Some amountToDevPool)
  else
    let insurancePoolAddr := NewModuleAddress (W := W) InsurancePoolName in
    insurancePoolBalance <- from_world (GetBalance insurancePoolAddr DefaultBondDenom) ;;
    if insurancePoolBalance + amountToInsurancePool <=? InsurancePoolThreshold params then
      insuranceCoins <- NewCoins1 DefaultBondDenom amountToInsurancePool ;;
      sent <- attempt (on_world
        (SendCoinsFromModuleToModule ModuleName InsurancePoolName insuranceCoins)) ;;
      match sent with
      | inr _ => ret None
      | inl _ =>
          b <- from_world (GetBalance insurancePoolAddr DefaultBondDenom) ;;
          panic_if (negb (is_int64 b)) ;;; ret (Some amountToDevPool)
      end
    else ret (Some (amountToDevPool + amountToInsurancePool)).

Definition payDeveloperPool (amountToDevPool : Z) : TM bool :=
  if amountToDevPool =? 0 then ret true
  else
    devPoolCoins <- NewCoins1 DefaultBondDenom amountToDevPool ;;
    sent <- attempt (on_world (SendCoinsFromModuleToModule ModuleName DeveloperPoolName devPoolCoins)) ;;
    match sent with
    | inr _ => ret false
    | inl _ =>
        b <- from_world (GetBalance (NewModuleAddress (W := W) DeveloperPoolName) DefaultBondDenom) ;;
        panic_if (negb (is_int64 b)) ;;; ret true
    end.

Definition burnRewards (amountToBurn : Z) : TM unit :=
  if amountToBurn =? 0 then ret tt
  else
    burnCoins <- NewCoins1 DefaultBondDenom amountToBurn ;;
    attempt (on_world (BurnCoins ModuleName burnCoins)) ;;; ret tt.

(** The callback of [processRewards] for one validator. *)
Definition processValidatorRewards (params : Params) (valAddr : bytes) : TM unit :=
  r <- attempt (on_world (WithdrawDelegationRewards modAddr valAddr)) ;;
  match r with
  | inr _ => ret tt
  | inl rewards =>
      if IsZero rewards then ret tt
      else
        let totalAmount := coins_amount DefaultBondDenom rewards in
        let amountToDevPool := Z.quot (totalAmount * DeveloperPoolFee params) 100 in
        let amountToInsurancePool := Z.quot (totalAmount * InsurancePoolFee params) 100 in
        let amountToBurn := totalAmount - amountToDevPool - amountToInsurancePool in
        dev <- payInsurancePool params amountToDevPool amountToInsurancePool ;;
        match dev with
        | None => ret tt
        | Some amountToDevPool =>
            ok <- payDeveloperPool amountToDevPool ;;
            if negb ok then ret tt else burnRewards amountToBurn
        end
  end.

(** A zero interval divides by zero. *)
Definition processRewards ctx : TM unit :=
  params <- GetParams ;;
  panic_if (ProcessRewardsInterval params =? 0) ;;;
  if negb (Z.rem (block_height ctx) (ProcessRewardsInterval params) =? 0) then ret tt
  else
    ds <- from_world (IterateDelegations modAddr) ;;
    vals <- of_sum ds ;;
    forM_ (processValidatorRewards params) vals.

Definition BeginBlocker ctx (events : list Event) : TM unit :=
  handleSlashingEvents events ;;;
  attempt (processRewards ctx) ;;; ret tt.

(** ** Epoch hooks *)

Definition BeforeEpochStart ctx (epochIdentifier : bytes) (epochNumber : Z) : TM unit :=
  if negb (bool_decide (epochIdentifier = EpochIdentifier)) then ret tt
  else burnAllCredits ;;; resetAllCredits ;;; checkDeveloperCredits ctx.

Definition AfterEpochEnd ctx (epochIdentifier : bytes) (epochNumber : Z) : TM unit :=
  if negb (bool_decide (epochIdentifier = EpochIdentifier)) then ret tt
  else CompleteUnlocking ctx.

Definition tierEpochHooks : EpochHooks (TierState W) :=
  mkEpochHooks _ AfterEpochEnd BeforeEpochStart.

(** ** Messages *)

Definition accAddr (text : bytes) : TM bytes := must (StringToBytes text).
Definition valAddrOf (text : bytes) : TM bytes := must (ValAddressFromBech32 text).

Definition msg_UpdateParams (authority : bytes) (msg : MsgUpdateParams) : TM unit :=
  throw_if (negb (bool_decide (up_Authority msg = authority))) ErrUnauthorized ;;;
  match Params_Validate (up_Params msg) with
  | Some _ => throw ErrInvalidRequest
  | None => SetParams (up_Params msg)
  end.

Definition msg_Lock ctx (msg : MsgLock) : TM unit :=
  d <- accAddr (lock_Delegator msg) ;; v <- valAddrOf (lock_Validator msg) ;;
  Lock ctx d v (coin_amount (lock_Stake msg)).

Definition msg_LockAuto ctx (msg : MsgLockAuto) : TM bytes :=
  d <- accAddr (auto_Delegator msg) ;; LockAuto ctx d (coin_amount (auto_Stake msg)).

Definition msg_Unlock ctx (msg : MsgUnlock) : TM (Z * Time * Time) :=
  d <- accAddr (unlock_Delegator msg) ;; v <- valAddrOf (unlock_Validator msg) ;;
  Unlock ctx d v (coin_amount (unlock_Stake msg)).

Definition msg_CancelUnlocking ctx (msg : MsgCancelUnlocking) : TM unit :=
  d <- accAddr (cancel_Delegator msg) ;; v <- valAddrOf (cancel_Validator msg) ;;
  CancelUnlocking ctx d v (cancel_CreationHeight msg) (coin_amount (cancel_Stake msg)).

Definition msg_Redelegate (msg : MsgRedelegate) : TM Time :=
  d <- accAddr (red_Delegator msg) ;;
  src <- valAddrOf (red_Src msg) ;; dst <- valAddrOf (red_Dst msg) ;;
  Redelegate d src dst (coin_amount (red_Stake msg)).

Definition msg_CreateDeveloper (msg : MsgDeveloper) : TM unit :=
  a <- accAddr (md_Developer msg) ;; CreateDeveloper a (md_AutoLock msg).

Definition msg_UpdateDeveloper (msg : MsgDeveloper) : TM unit :=
  a <- accAddr (md_Developer msg) ;; UpdateDeveloper a (md_AutoLock msg).

Definition msg_RemoveDeveloper ctx (msg : MsgRemoveDeveloper) : TM unit :=
  a <- accAddr (mr_Developer msg) ;; RemoveDeveloper ctx a.

Definition msg_AddUserSubscription ctx (msg : MsgUserSubscription) : TM unit :=
  a <- accAddr (us_Developer msg) ;;
  AddUserSubscription ctx a (us_UserDid msg) (us_Amount msg) (us_Period msg).

Definition msg_UpdateUserSubscription ctx (msg : MsgUserSubscription) : TM unit :=
  a <- accAddr (us_Developer msg) ;;
  UpdateUserSubscription ctx a (us_UserDid msg) (us_Amount msg) (us_Period msg).

Definition msg_RemoveUserSubscription ctx (msg : MsgRemoveUserSubscription) : TM unit :=
  a <- accAddr (ru_Developer msg) ;; RemoveUserSubscription ctx a (ru_UserDid msg).

(** ** Genesis *)

(** The error of [AddLockup] is dropped. *)
Definition InitGenesis (genState : GenesisState) : TM unit :=
  SetParams (gen_Params genState) ;;;
  forM_ (fun l => AddLockup (DelegatorAddress l) (ValidatorAddress l) (Amount l))
    (gen_Lockups genState) ;;;
  forM_ (fun u =>
    has <- HasUnlockingLockup (ul_DelegatorAddress u) (ul_ValidatorAddress u) (ul_CreationHeight u) ;;
    when (negb has)
      (SetUnlockingLockup (ul_DelegatorAddress u) (ul_ValidatorAddress u) (ul_CreationHeight u)
         (ul_Amount u) (ul_CompletionTime u) (ul_UnlockTime u))) (gen_UnlockingLockups genState) ;;;
  forM_ (fun l => AddInsuranceLockup (DelegatorAddress l) (ValidatorAddress l) (Amount l))
    (gen_InsuranceLockups genState) ;;;
  forM_ (fun d => SetDeveloper (dev_Address d) d) (gen_Developers genState) ;;;
  forM_ (fun u => SetUserSubscription (sub_Developer u) (sub_UserDid u) u)
    (gen_UserSubscriptions genState).

Definition ExportGenesis : TM GenesisState :=
  params <- GetParams ;;
  lockups <- GetAllLockups ;;
  unlocking <- GetAllUnlockingLockups ;;
  insurance <- GetAllInsuranceLockups ;;
  developers <- GetAllDevelopers ;;
  subs <- GetAllUserSubscriptions ;;
  ret (mkGenesis params lockups unlocking insurance developers subs).
End module.
