(* ===== verification/TierWorld.v ===== *)
(** A concrete chain around the tier module: an instance of every keeper the
    module calls, which shows that the laws of the keepers hold together and
    lets the witnesses run whole operations. *)
From Stdlib Require Import Ascii ZArith Lia.
From stdpp Require Import base numbers list gmap strings.
From S2P Require Import Prelude Sdk Epochs FeeAllowance TierTypes TierState TierKeeper TierModule.

Record World : Type := mkWorld {
  w_balances : gmap (bytes * string) Z;
  w_validators : list Validator;
  w_delegations : gmap (bytes * bytes) Z;
  w_unbonding : gmap (bytes * bytes) (list UnbondingEntry);
  w_epochs : EpochStore;
  w_rewards : gmap (bytes * bytes) Coins;
  w_dids : gmap bytes bytes;
}.

Definition set_balances (b : gmap (bytes * string) Z) (w : World) : World :=
  mkWorld b (w_validators w) (w_delegations w) (w_unbonding w) (w_epochs w) (w_rewards w) (w_dids w).
Definition set_delegations (m : gmap (bytes * bytes) Z) (w : World) : World :=
  mkWorld (w_balances w) (w_validators w) m (w_unbonding w) (w_epochs w) (w_rewards w) (w_dids w).
Definition set_unbonding (m : gmap (bytes * bytes) (list UnbondingEntry)) (w : World) : World :=
  mkWorld (w_balances w) (w_validators w) (w_delegations w) m (w_epochs w) (w_rewards w) (w_dids w).
Definition set_rewards (m : gmap (bytes * bytes) Coins) (w : World) : World :=
  mkWorld (w_balances w) (w_validators w) (w_delegations w) (w_unbonding w) (w_epochs w) m (w_dids w).

(** ** Bank *)

Definition balance (a : bytes) (d : string) (w : World) : Z := Z.max 0 (default 0 (w_balances w !! (a, d))).

Definition add_balance (a : bytes) (d : string) (z : Z) (w : World) : World :=
  set_balances (<[(a, d) := balance a d w + z]> (w_balances w)) w.

Definition credit1 (a : bytes) (c : Coin) : M World unit :=
  throw_if (coin_amount c <? 0) ErrInvalidAmount ;;; modify (add_balance a (coin_denom c) (coin_amount c)).

Definition debit1 (a : bytes) (c : Coin) : M World unit :=
  b <- gets (balance a (coin_denom c)) ;;
  throw_if ((coin_amount c <? 0) || (b <? coin_amount c)) ErrInvalidAmount ;;;
  modify (add_balance a (coin_denom c) (- coin_amount c)).

Definition credit_coins (a : bytes) (cs : Coins) : M World unit := forM_ (credit1 a) cs.
Definition debit_coins (a : bytes) (cs : Coins) : M World unit := forM_ (debit1 a) cs.
Definition transfer (from to : bytes) (cs : Coins) : M World unit :=
  debit_coins from cs ;;; credit_coins to cs.

(** Module addresses have 20 bytes. *)
Definition module_address (name : string) : bytes := take 20 (lit name ++ lit "-module-account-address").

#[export] Instance world_bank : BankKeeper World := {|
  GetBalance := balance;
  SendCoinsFromModuleToAccount m a := transfer (module_address m) a;
  SendCoinsFromAccountToModule a m := transfer a (module_address m);
  SendCoinsFromModuleToModule m1 m2 := transfer (module_address m1) (module_address m2);
  DelegateCoinsFromAccountToModule a m := transfer a (module_address m);
  UndelegateCoinsFromModuleToAccount m a := transfer (module_address m) a;
  MintCoins m := credit_coins (module_address m);
  BurnCoins m := debit_coins (module_address m);
  NewModuleAddress := module_address;
|}.

Lemma balance_add a d z w x d' : 0 <= balance a d w + z ->
  balance x d' (add_balance a d z w)
  = balance x d' w + (if decide (x = a) then if decide (d = d') then z else 0 else 0).
Proof.
  intros Hz. unfold balance at 1, add_balance. simpl. destruct (decide (x = a)) as [->|Hx].
  - destruct (decide (d = d')) as [->|Hd].
    + rewrite lookup_insert_eq. simpl. lia.
    + rewrite lookup_insert_ne by congruence. unfold balance. lia.
  - rewrite lookup_insert_ne by congruence. unfold balance. lia.
Qed.

Lemma balance_nonneg a d w : 0 <= balance a d w.
Proof. unfold balance. lia. Qed.

Lemma credit_coins_adds a cs : forall w w', credit_coins a cs w = (Ok tt, w') -> forall x d,
  balance x d w' = balance x d w + (if decide (x = a) then coins_amount d cs else 0).
Proof.
  induction cs as [|c cs IH]; intros w w' Hr x d.
  - unfold credit_coins, ret in Hr. simpl in Hr. unfold ret in Hr. simplify_eq. unfold coins_amount. simpl.
    case_decide; lia.
  - unfold credit_coins in Hr. simpl in Hr. ok_inv Hr. fold (credit_coins a cs) in Hr.
    unfold credit1, throw_if in Hrun. destruct (Z.ltb_spec (coin_amount c) 0); [done|].
    erewrite bind_run_ok in Hrun by done. unfold modify in Hrun. simplify_eq.
    rewrite (IH _ _ Hr x d). pose proof (balance_nonneg a (coin_denom c) w). rewrite balance_add by lia.
    unfold coins_amount. rewrite fmap_cons, Zsum_cons. repeat case_decide; lia.
Qed.

Lemma debit_coins_takes a cs : forall w w', debit_coins a cs w = (Ok tt, w') -> forall x d,
  balance x d w' = balance x d w - (if decide (x = a) then coins_amount d cs else 0).
Proof.
  induction cs as [|c cs IH]; intros w w' Hr x d.
  - unfold debit_coins in Hr. simpl in Hr. unfold ret in Hr. simplify_eq. unfold coins_amount. simpl.
    case_decide; lia.
  - unfold debit_coins in Hr. simpl in Hr. ok_inv Hr. fold (debit_coins a cs) in Hr.
    unfold debit1 in Hrun. erewrite bind_run_ok in Hrun by done. unfold throw_if in Hrun.
    destruct (Z.ltb_spec (coin_amount c) 0); [done|]. cbn [orb] in Hrun.
    destruct (Z.ltb_spec (balance a (coin_denom c) w) (coin_amount c)); [done|].
    erewrite bind_run_ok in Hrun by done. unfold modify in Hrun. simplify_eq.
    rewrite (IH _ _ Hr x d). rewrite balance_add by lia.
    unfold coins_amount. rewrite fmap_cons, Zsum_cons. repeat case_decide; lia.
Qed.

Lemma transfer_moves from to cs w w' : transfer from to cs w = (Ok tt, w') -> moves from to cs w w'.
Proof.
  unfold transfer. intros Hr. ok_inv Hr. destruct a. intros x d. simpl.
  rewrite (credit_coins_adds _ _ _ _ Hr), (debit_coins_takes _ _ _ _ Hrun). lia.
Qed.

#[export] Instance world_bank_laws : BankLaws World.
Proof.
  split; simpl; eauto using transfer_moves, credit_coins_adds, debit_coins_takes.
Qed.

Lemma transfer_progress from to d amt w : 0 < amt <= balance from d w ->
  exists w', transfer from to [mkCoin d amt] w = (Ok tt, w').
Proof.
  intros Ha. unfold transfer, debit_coins, credit_coins, debit1, credit1, bind, gets, throw_if, modify, ret.
  simpl. unfold bind. destruct (Z.ltb_spec amt 0); [lia|]. destruct (Z.ltb_spec (balance from d w) amt); [lia|].
  simpl. eauto.
Qed.

#[export, refine] Instance world_bank_progress : BankProgress World := {| receives _ := True |}.
Proof.
  - apply balance_nonneg.
  - intros a m d amt w Ha. by apply transfer_progress.
  - intros m a d amt w _ Ha. by apply transfer_progress.
  - intros m1 m2 d amt w Ha. by apply transfer_progress.
  - intros m a d amt w Ha. by apply transfer_progress.
  - intros d amt w Ha. unfold MintCoins. simpl. unfold credit_coins, credit1, throw_if, bind. simpl.
    unfold bind. destruct (Z.ltb_spec amt 0); [lia|]. simpl. eauto.
  - intros d amt w Ha. unfold BurnCoins. simpl. unfold debit_coins, debit1, throw_if, bind, gets. simpl in *.
    unfold bind. destruct (Z.ltb_spec amt 0); [lia|]. simpl.
    destruct (Z.ltb_spec (balance (module_address ModuleName) d w) amt); [lia|]. simpl. eauto.
Defined.

(** ** Staking *)

Definition bonded_pool : bytes := module_address "bonded_tokens_pool".
Definition unbonding_time : Duration := 1814400 * 1000000000.

Definition validators_of (w : World) : list Validator :=
  filter (fun v => addr20 (OperatorAddress v)) (w_validators w).

Definition shares_of (del val : bytes) (w : World) : Z := default 0 (w_delegations w !! (del, val)).

Definition move_shares (del val : bytes) (z : Z) (w : World) : World :=
  set_delegations (<[(del, val) := shares_of del val w + z]> (w_delegations w)) w.

Definition world_Delegate (del : bytes) (amt : Z) (st : BondStatus) (val : Validator) (subtract : bool)
    : M World Z :=
  (if subtract then transfer del bonded_pool [mkCoin DefaultBondDenom amt] else ret tt) ;;;
  modify (move_shares del (OperatorAddress val) (dec_of_int amt)) ;;;
  ret (dec_of_int amt).

Definition world_ValidateUnbond (del val : bytes) (amt : Z) : M World Z :=
  shares <- gets (shares_of del val) ;;
  throw_if (shares <? dec_of_int amt) ErrInvalidAmount ;;;
  ret (dec_of_int amt).

Definition world_Undelegate (del val : bytes) (shares : Z) : M World (Time * Z) :=
  modify (move_shares del val (- shares)) ;;;
  modify (fun w => set_unbonding (<[(del, val) := default [] (w_unbonding w !! (del, val)) ++
    [mkUnbondingEntry 0 unbonding_time (dec_truncate shares)]]> (w_unbonding w)) w) ;;;
  ret (unbonding_time, dec_truncate shares).

Definition world_Redelegate (del src dst : bytes) (shares : Z) : M World Time :=
  modify (move_shares del src (- shares)) ;;; modify (move_shares del dst shares) ;;; ret unbonding_time.

Definition sum_of_option {A} (o : option A) : A + error :=
  match o with Some a => inl a | None => inr ErrNotFound end.

#[export] Instance world_staking : StakingKeeper World := {|
  GetValidator a w := sum_of_option (snd <$> list_find (fun v => OperatorAddress v = a) (w_validators w));
  GetAllValidators w := inl (validators_of w);
  IterateValidators w := inl (validators_of w);
  GetDelegation del val w := sum_of_option (w_delegations w !! (del, val));
  IterateDelegations del w := inl (snd <$> filter (fun k => k.1 = del) (map_to_list (w_delegations w)).*1);
  TokensFromSharesTruncated v shares := shares;
  Delegate := world_Delegate;
  ValidateUnbondAmount := world_ValidateUnbond;
  Undelegate := world_Undelegate;
  BeginRedelegation := world_Redelegate;
  GetUnbondingDelegation del val w := sum_of_option (w_unbonding w !! (del, val));
  SetUnbondingDelegation del val es := modify (fun w => set_unbonding (<[(del, val) := es]> (w_unbonding w)) w);
  RemoveUnbondingDelegation del val := modify (fun w => set_unbonding (delete (del, val) (w_unbonding w)) w);
|}.

(** ** The other keepers *)

#[export] Instance world_distribution : DistributionKeeper World := {|
  WithdrawDelegationRewards del val :=
    rewards <- gets (fun w => default [] (w_rewards w !! (del, val))) ;;
    modify (fun w => set_rewards (delete (del, val) (w_rewards w)) w) ;;;
    credit_coins del rewards ;;;
    ret rewards;
|}.

#[export] Instance world_epochs : EpochsKeeper World := {|
  ek_GetEpochInfo id w := default EpochInfo_zero (w_epochs w !! epochKey id);
|}.

#[export] Instance world_distribution_laws : DistributionLaws World.
Proof.
  split. intros del val w rewards w' Hr. unfold WithdrawDelegationRewards, world_distribution in Hr.
  do 2 erewrite bind_run_ok in Hr by done. cbv beta in Hr. ok_inv Hr. destruct a. unfold ret in Hr. simplify_eq.
  split; [|intros x d; exact (credit_coins_adds _ _ _ _ Hrun x d)]. intros d.
  set (rewards := default [] (w_rewards w !! (del, val))) in *. clearbody rewards. revert Hrun.
  generalize (set_rewards (delete (del, val) (w_rewards w)) w). intros w1 Hrun.
  revert w1 Hrun.
  induction rewards as [|c cs IH]; intros w1 Hrun; [done|]. unfold credit_coins in Hrun. simpl in Hrun.
  ok_inv Hrun. unfold credit1, throw_if in Hrun0. destruct (Z.ltb_spec (coin_amount c) 0); [done|].
  specialize (IH _ Hrun). unfold coins_amount in *. rewrite fmap_cons, Zsum_cons. case_decide; lia.
Qed.

(** No grants yet: an update fails, a grant succeeds. *)
#[export] Instance world_feegrant : FeegrantKeeper World := {|
  fk_GrantDIDAllowance _ _ _ _ := ret tt;
  fk_UpdateDIDAllowance _ _ _ _ := throw ErrNotFound;
  fk_ExpireDIDAllowance _ _ _ := throw ErrNotFound;
|}.

#[export] Instance world_acp : AcpKeeper World := {|
  GetAddressFromDID did w :=
    match w_dids w !! did with
    | Some a => if decide (addr20 a) then inl a else inr ErrInvalidAddress
    | None => inr ErrNotFound
    end;
|}.

Lemma forM_epoch {A} (f : A -> M World unit) l : (forall x w r w', f x w = (r, w') -> w_epochs w' = w_epochs w) ->
  forall w r w', forM_ f l w = (r, w') -> w_epochs w' = w_epochs w.
Proof.
  intros Hf. induction l as [|x l IH]; intros w r w' Hr; simpl in Hr; [unfold ret in Hr; by simplify_eq|].
  unfold bind in Hr. destruct (f x w) as [[[]|e|] w1] eqn:E; simplify_eq; try by eapply Hf.
  rewrite (IH _ _ _ Hr). by eapply Hf.
Qed.

Lemma transfer_epoch from to cs w r w' : transfer from to cs w = (r, w') -> w_epochs w' = w_epochs w.
Proof.
  assert (Hc : forall a c w r w', credit1 a c w = (r, w') -> w_epochs w' = w_epochs w).
  { intros a c w0 r0 w0'. unfold credit1, throw_if, bind, ret, throw, modify. destruct (_ <? 0); intros; by simplify_eq. }
  assert (Hd : forall a c w r w', debit1 a c w = (r, w') -> w_epochs w' = w_epochs w).
  { intros a c w0 r0 w0'. unfold debit1, throw_if, bind, gets, ret, throw, modify. destruct (_ || _); intros; by simplify_eq. }
  unfold transfer, bind. destruct (debit_coins from cs w) as [[[]|e|] w1] eqn:E; intros Hr; simplify_eq;
    try exact (forM_epoch (debit1 from) cs (Hd from) _ _ _ E).
  rewrite (forM_epoch (credit1 to) cs (Hc to) _ _ _ Hr). exact (forM_epoch (debit1 from) cs (Hd from) _ _ _ E).
Qed.

#[export] Instance world_staking_frame : StakingFrame World.
Proof.
  split; simpl.
  - intros a m amt w w' id Hr. by rewrite (transfer_epoch _ _ _ _ _ _ Hr).
  - intros a amt st v b w r w' id Hr. unfold world_Delegate in Hr. ok_inv Hr.
    assert (w_epochs s = w_epochs w) as He.
    { destruct b; [by eapply transfer_epoch|unfold ret in Hrun; by simplify_eq]. }
    erewrite bind_run_ok in Hr by done. unfold ret in Hr. simplify_eq. simpl. by rewrite He.
  - intros a amt st v b w r w' x den Hr Hx Hden. unfold world_Delegate in Hr. ok_inv Hr.
    erewrite bind_run_ok in Hr by done. unfold ret in Hr. simplify_eq.
    change (balance x den (move_shares a (OperatorAddress v) (dec_of_int amt) s)) with (balance x den s).
    destruct b; [|unfold ret in Hrun; by simplify_eq]. destruct a0. apply transfer_moves in Hrun.
    assert (Hz : coins_amount den [mkCoin DefaultBondDenom amt] = 0).
    { unfold coins_amount. simpl. by rewrite decide_False by congruence. }
    specialize (Hrun x den). simpl in Hrun. rewrite Hrun, Hz. repeat case_decide; lia.
Qed.

#[export] Instance world_address_laws : AddressLaws World.
Proof.
  assert (Hv : forall w, Forall (fun v => addr20 (OperatorAddress v)) (validators_of w)).
  { intros w. apply Forall_forall. intros v Hin. by apply list_elem_of_filter in Hin as [? _]. }
  split; simpl; [intros w vs; by intros [= <-]|intros w vs; by intros [= <-]|].
  intros did w a. repeat case_match; intros; by simplify_eq.
Qed.

(** Whole decimals. *)
#[export] Instance dec_parser_impl : DecParser := {|
  LegacyNewDecFromStr t :=
    match ParseInt t with Some z => inl (dec_of_int z) | None => inr (ErrMsg "not a decimal") end;
|}.

(** ** A chain with one validator *)

Definition alice : bytes := lit "alice-account-000001".
Definition bob : bytes := lit "bob-account-00000002".
Definition val1 : bytes := lit "validator-one-000001".
Definition val2 : bytes := lit "validator-two-000002".

Definition day : Duration := 86400 * 1000000000.

(** The first day of the module's epoch. *)
Definition tier_epoch : EpochInfo := mkEpochInfo EpochIdentifier 0 day 1 0 true 1.
Definition tier_epochs : EpochStore := {[ epochKey EpochIdentifier := tier_epoch ]}.

Definition demo_world : World :=
  mkWorld {[ (alice, DefaultBondDenom) := 1000; (bob, DefaultBondDenom) := 500 ]}
    [mkValidator val1 1000000 true; mkValidator val2 2000000 true] ∅ ∅ tier_epochs ∅ ∅.

Definition demo_state : TierState World :=
  mkTierState (Some DefaultParams) ∅ ∅ ∅ None None ∅ ∅ ∅ demo_world.

Definition at_time (t : Time) (h : Z) : Ctx := mkCtx t h [].
