(* ===== verification/TierInv.v ===== *)
(** The invariant of the tier module's records and its preservation.

    [tier_inv]: every record sits under the key of its own addresses, lockups
    are positive, the stored total is the sum of all lockups, and an insurance
    lockup with something in it belongs to an existing lockup. Each operation of
    the keeper keeps it, whether it succeeds or fails half way. *)
From Stdlib Require Import Ascii ZArith Lia.
From stdpp Require Import base numbers list gmap strings.
From S2P Require Import Prelude Sdk Epochs FeeAllowance TierTypes TierCredit TierState TierKeeper TierModule.

Definition lockup_ok (k : bytes) (l : Lockup) : Prop :=
  addr20 (DelegatorAddress l) /\ addr20 (ValidatorAddress l) /\
  k = LockupKey (DelegatorAddress l) (ValidatorAddress l).

Definition lockup_sum (m : gmap bytes Lockup) : Z := map_sum (fun _ l => Amount l) m.

Record tier_inv {W} (s : TierState W) : Prop := {
  inv_lockups : forall k l, st_lockups s !! k = Some l -> lockup_ok k l /\ 0 < Amount l;
  inv_insurance : forall k l, st_insurance s !! k = Some l ->
    lockup_ok k l /\ 0 <= Amount l /\ (0 < Amount l -> is_Some (st_lockups s !! k));
  inv_total : nonneg_or_zero (st_total_lockups s) = lockup_sum (st_lockups s);
  inv_unlocking : forall k u, st_unlocking s !! k = Some u ->
    addr20 (ul_DelegatorAddress u) /\ addr20 (ul_ValidatorAddress u) /\
    is_int64 (ul_CreationHeight u) = true /\
    k = UnlockingLockupKey (ul_DelegatorAddress u) (ul_ValidatorAddress u) (ul_CreationHeight u);
  inv_developers : forall k d, st_developers s !! k = Some d ->
    addr20 (dev_Address d) /\ k = DeveloperKey (dev_Address d);
  inv_subscriptions : forall k u, st_subscriptions s !! k = Some u ->
    addr20 (sub_Developer u) /\ k = UserSubscriptionKey (sub_Developer u) (sub_UserDid u);
}.

(** The state without the world: what other keepers cannot change. *)
Lemma tier_inv_world {W} (w : W) s : tier_inv s -> tier_inv (set_world w s).
Proof. intros [? ? ? ? ? ?]. by split. Qed.

Lemma tier_inv_params {W} p (s : TierState W) : tier_inv s -> tier_inv (set_params p s).
Proof. intros [? ? ? ? ? ?]. by split. Qed.

Lemma tier_inv_credits {W} c (s : TierState W) : tier_inv s -> tier_inv (set_total_credits c s).
Proof. intros [? ? ? ? ? ?]. by split. Qed.

Lemma tier_inv_granted {W} m (s : TierState W) : tier_inv s -> tier_inv (set_dev_granted m s).
Proof. intros [? ? ? ? ? ?]. by split. Qed.

Section runs.
Context `{LegacyDecOps, AddressCodec, MapRange}.
Context {W : Type} `{BankKeeper W, StakingKeeper W, EpochsKeeper W}.
Implicit Types (s : TierState W) (d v : bytes) (amt : Z).

(** ** What the lockup operations write *)

Definition locked_at s d v : Z := from_option Amount 0 (st_lockups s !! LockupKey d v).
Definition insured_at s d v : Z := from_option Amount 0 (st_insurance s !! LockupKey d v).

Definition put_lockup d v amt (total : Z) s : TierState W :=
  set_lockups (<[LockupKey d v := mkLockup d v amt]> (st_lockups s)) (set_total_lockups (Some total) s).

Definition del_lockup d v (total : Z) s : TierState W :=
  set_lockups (delete (LockupKey d v) (st_lockups s)) (set_total_lockups (Some total) s).

Lemma setTotalLockupsAmount_run t s :
  setTotalLockupsAmount t s
  = (if is_int64 t then Ok tt else Panic, set_total_lockups (Some t) s).
Proof. unfold setTotalLockupsAmount, bind, modify, panic_if. by destruct (is_int64 t). Qed.

Lemma AddLockup_run d v amt s :
  let total := nonneg_or_zero (st_total_lockups s) + amt in
  AddLockup d v amt s =
    (if is_int64 total then (Ok tt, put_lockup d v (amt + locked_at s d v) total s)
     else (Panic, set_total_lockups (Some total) s)).
Proof.
  cbv zeta. unfold AddLockup. erewrite bind_run_ok by done.
  unfold bind at 1. rewrite setTotalLockupsAmount_run. destruct (is_int64 _); [|done].
  erewrite bind_run_ok by done. unfold put_lockup, locked_at. simpl.
  destruct (st_lockups s !! LockupKey d v); simpl; [done|]. by rewrite Z.add_0_r.
Qed.

Lemma subtractLockup_run d v amt s :
  let total := nonneg_or_zero (st_total_lockups s) - amt in
  subtractLockup d v amt s =
    match st_lockups s !! LockupKey d v with
    | None => (Err ErrNotFound, s)
    | Some l =>
        if Amount l <? amt + insured_at s d v then (Err ErrInvalidAmount, s)
        else if is_int64 total then
          (Ok tt, if amt =? Amount l then del_lockup d v total s
                  else put_lockup d v (Amount l - amt) total s)
        else (Panic, set_total_lockups (Some total) s)
    end.
Proof.
  cbv zeta. unfold subtractLockup. erewrite bind_run_ok by done.
  destruct (st_lockups s !! LockupKey d v) as [l|] eqn:E; [|done].
  erewrite bind_run_ok by done. cbv zeta. unfold throw_if. fold (insured_at s d v).
  destruct (Amount l <? amt + insured_at s d v); [done|].
  erewrite bind_run_ok by done. erewrite bind_run_ok by done.
  unfold bind at 1. rewrite setTotalLockupsAmount_run. destruct (is_int64 _); [|done].
  by destruct (amt =? Amount l).
Qed.

(** ** Effects on the invariant *)

Lemma lockup_sum_nonneg s : tier_inv s -> 0 <= lockup_sum (st_lockups s).
Proof. intros Hi. apply map_sum_nonneg. intros k l Hk. apply (inv_lockups s Hi) in Hk. lia. Qed.

Lemma nonneg_or_zero_nonneg t : 0 <= t -> nonneg_or_zero (Some t) = t.
Proof. intros Ht. unfold nonneg_or_zero. destruct (Z.ltb_spec t 0); lia. Qed.

(** Writing a positive amount under a key moves the sum by the difference. *)
Lemma lockup_sum_put m k l : lockup_sum (<[k := l]> m)
  = lockup_sum m - from_option Amount 0 (m !! k) + Amount l.
Proof.
  unfold lockup_sum. destruct (m !! k) as [l0|] eqn:E; simpl.
  - by rewrite (map_sum_insert _ _ _ _ l0 E).
  - rewrite map_sum_insert_new by done. lia.
Qed.

Lemma put_lockup_inv d v amt total s : tier_inv s -> addr20 d -> addr20 v -> 0 < amt ->
  total = lockup_sum (st_lockups s) - locked_at s d v + amt -> tier_inv (put_lockup d v amt total s).
Proof.
  intros Hi Hd Hv Hamt Ht. split; simpl; try apply Hi.
  - intros k l [[<- <-]|[_ Hk]]%lookup_insert_Some; [done|]. by apply (inv_lockups s Hi).
  - intros k l Hk. destruct (inv_insurance s Hi k l Hk) as (? & ? & Hex). split_and!; try done.
    intros Hpos. destruct (decide (k = LockupKey d v)) as [->|Hne].
    + rewrite lookup_insert_eq. eauto.
    + rewrite lookup_insert_ne by done. auto.
  - rewrite lockup_sum_put. fold (locked_at s d v). simpl. rewrite <- Ht.
    pose proof (lockup_sum_nonneg s Hi) as Hnn.
    assert (locked_at s d v <= lockup_sum (st_lockups s)).
    { unfold locked_at. destruct (st_lockups s !! LockupKey d v) as [l|] eqn:E; simpl; [|done].
      apply (map_sum_elem_le (fun _ l => Amount l) _ (LockupKey d v) l); [|done].
      intros k' l' Hk'. apply (inv_lockups s Hi) in Hk'. lia. }
    apply nonneg_or_zero_nonneg. lia.
Qed.

Lemma del_lockup_inv d v total s : tier_inv s -> insured_at s d v <= 0 ->
  total = lockup_sum (st_lockups s) - locked_at s d v -> tier_inv (del_lockup d v total s).
Proof.
  intros Hi Hins Ht.
  assert (Hsum : lockup_sum (delete (LockupKey d v) (st_lockups s))
                 = lockup_sum (st_lockups s) - locked_at s d v).
  { unfold locked_at. destruct (st_lockups s !! LockupKey d v) as [l|] eqn:E; simpl.
    - by apply map_sum_delete.
    - rewrite delete_id by done. lia. }
  split; simpl; try apply Hi.
  - intros k l [_ Hk]%lookup_delete_Some. by apply (inv_lockups s Hi).
  - intros k l Hk. destruct (inv_insurance s Hi k l Hk) as (? & ? & Hex). split_and!; try done.
    intros Hpos. destruct (decide (k = LockupKey d v)) as [->|Hne].
    + unfold insured_at in Hins. rewrite Hk in Hins. simpl in Hins. lia.
    + rewrite lookup_delete_ne by done. auto.
  - rewrite Hsum, <- Ht. apply nonneg_or_zero_nonneg. rewrite Ht, <- Hsum.
    apply map_sum_nonneg. intros k l [_ Hk]%lookup_delete_Some. apply (inv_lockups s Hi) in Hk. lia.
Qed.

Lemma locked_at_nonneg s d v : tier_inv s -> 0 <= locked_at s d v.
Proof.
  intros Hi. unfold locked_at. destruct (st_lockups s !! LockupKey d v) as [l|] eqn:E; simpl; [|lia].
  apply (inv_lockups s Hi) in E. lia.
Qed.

Lemma insured_at_nonneg s d v : tier_inv s -> 0 <= insured_at s d v.
Proof.
  intros Hi. unfold insured_at. destruct (st_insurance s !! LockupKey d v) as [l|] eqn:E; simpl; [|lia].
  apply (inv_insurance s Hi) in E. lia.
Qed.

Lemma AddLockup_preserves d v amt : addr20 d -> addr20 v -> 0 < amt ->
  preserves tier_inv (AddLockup (W := W) d v amt).
Proof.
  intros Hd Hv Hamt s Hi. rewrite AddLockup_run. destruct (is_int64 _); [|done]. simpl.
  pose proof (locked_at_nonneg s d v Hi). apply put_lockup_inv; [done|done|done|lia|].
  rewrite (inv_total s Hi). lia.
Qed.

Lemma subtractLockup_preserves d v amt : addr20 d -> addr20 v -> 0 < amt ->
  preserves tier_inv (subtractLockup (W := W) d v amt).
Proof.
  intros Hd Hv Hamt s Hi. rewrite subtractLockup_run.
  destruct (st_lockups s !! LockupKey d v) as [l|] eqn:E; [|done].
  destruct (Z.ltb_spec (Amount l) (amt + insured_at s d v)); [done|].
  destruct (is_int64 _); [|done]. simpl.
  assert (Hl : locked_at s d v = Amount l) by (unfold locked_at; by rewrite E).
  pose proof (insured_at_nonneg s d v Hi). rewrite (inv_total s Hi).
  destruct (Z.eqb_spec amt (Amount l)) as [->|Hne].
  - apply del_lockup_inv; [done|lia|lia].
  - apply put_lockup_inv; [done|done|done|lia|lia].
Qed.

Lemma on_world_preserves {A} (m : M W A) : preserves tier_inv (on_world m).
Proof.
  intros s Hi. unfold on_world, lift. simpl. destruct (m (st_world s)) as [[a|e|] w]; simpl;
    [by apply tier_inv_world|by apply tier_inv_world|done].
Qed.

Lemma set_unlocking_preserves d v h amt t1 t2 : addr20 d -> addr20 v -> is_int64 h = true ->
  preserves tier_inv (SetUnlockingLockup (W := W) d v h amt t1 t2).
Proof.
  intros Hd Hv Hh. apply preserves_modify. intros s Hi. split; simpl; try apply Hi.
  intros k u [[<- <-]|[_ Hk]]%lookup_insert_Some; [done|]. by apply (inv_unlocking s Hi).
Qed.

Lemma del_unlocking_preserves d v h : preserves tier_inv (removeUnlockingLockup (W := W) d v h).
Proof.
  apply preserves_modify. intros s Hi. split; simpl; try apply Hi.
  intros k u [_ Hk]%lookup_delete_Some. by apply (inv_unlocking s Hi).
Qed.

Lemma del_insurance_preserves d v : preserves tier_inv (removeInsuranceLockup (W := W) d v).
Proof.
  apply preserves_modify. intros s Hi. split; simpl; try apply Hi.
  intros k l [_ Hk]%lookup_delete_Some. by apply (inv_insurance s Hi).
Qed.
End runs.

#[export] Hint Resolve on_world_preserves del_unlocking_preserves del_insurance_preserves
  AddLockup_preserves subtractLockup_preserves set_unlocking_preserves : preserves.

(** * Every operation keeps the invariant *)

Lemma parse_LockupKey_addr k d v : LockupKeyToAddresses k = Ok (d, v) -> addr20 d /\ addr20 v.
Proof.
  unfold LockupKeyToAddresses. destruct (Nat.eqb_spec (length k) (addressKeyLength * 2 + 2)) as [Hl|]; [|done].
  destruct (_ || _); [done|]. intros ?. simplify_eq. unfold addr20, addressKeyLength in *.
  rewrite !length_take, length_drop. lia.
Qed.

Lemma parse_UserSubscriptionKey_addr k d u : UserSubscriptionKeyToAddresses k = Ok (d, u) -> addr20 d.
Proof.
  unfold UserSubscriptionKeyToAddresses.
  destruct (Nat.leb_spec (length k) (addressKeyLength + 1)) as [|Hl]; [done|].
  destruct (_ || _); [done|]. intros ?. simplify_eq. unfold addr20, addressKeyLength in *.
  rewrite length_take. lia.
Qed.

Section ops.
Context `{LegacyDecOps, CoinsOps, DecParser, AddressCodec, ValAddressCodec, MapRange}.
Context {W : Type} `{BankKeeper W, StakingKeeper W, EpochsKeeper W, DistributionKeeper W,
                     FeegrantKeeper W, AcpKeeper W} {HAL : AddressLaws W}.
Implicit Types (s : TierState W) (d v : bytes) (amt : Z) (ctx : Ctx).
Abbreviation inv := (tier_inv (W := W)).
Abbreviation TM := (M (TierState W)).

Lemma from_world_preserves {A} (f : W -> A) : preserves inv (from_world f).
Proof. apply preserves_gets. Qed.

Lemma of_sum_preserves {A} (r : A + error) : preserves inv (of_sum r).
Proof. destruct r; [apply preserves_ret|apply preserves_throw]. Qed.

Lemma NewCoins1_preserves den amt : preserves inv (NewCoins1 den amt).
Proof. unfold NewCoins1. destruct (amt <? 0); [apply preserves_panic|apply preserves_ret]. Qed.

Lemma setTotalCredit_preserves t : preserves inv (setTotalCreditAmount t).
Proof.
  unfold setTotalCreditAmount. apply preserves_bind; [|intros; apply preserves_panic_if].
  apply preserves_modify. intros s. apply tier_inv_credits.
Qed.

#[local] Hint Resolve from_world_preserves of_sum_preserves NewCoins1_preserves
  setTotalCredit_preserves : preserves.

Lemma iterate_preserves {A V B} (items : list (bytes * V)) (parse : bytes -> outcome A)
    (cb : B -> A -> V -> TM B) acc :
  (forall b k a x, parse k = Ok a -> preserves inv (cb b a x)) ->
  preserves inv (iterate items parse cb acc).
Proof.
  intros Hcb. apply preserves_foldM. intros b [k x]. simpl.
  eapply preserves_bind_returns; [apply preserves_of_outcome| |intros a Ha; exact (Hcb b k a x Ha)].
  intros s a s' Hr. unfold of_outcome in Hr. by simplify_eq.
Qed.

Lemma mustIterateLockups_preserves {B} (cb : B -> bytes -> bytes -> Lockup -> TM B) acc :
  (forall b d v l, addr20 d -> addr20 v -> preserves inv (cb b d v l)) ->
  preserves inv (mustIterateLockups cb acc).
Proof.
  intros Hcb. apply preserves_bind; [apply preserves_gets|]. intros items. apply iterate_preserves.
  intros b k [d v] l Hk. apply parse_LockupKey_addr in Hk as [? ?]. by apply Hcb.
Qed.

Lemma mustIterateInsurance_preserves {B} (cb : B -> bytes -> bytes -> Lockup -> TM B) acc :
  (forall b d v l, preserves inv (cb b d v l)) -> preserves inv (mustIterateInsuranceLockups cb acc).
Proof.
  intros Hcb. apply preserves_bind; [apply preserves_gets|]. intros items. apply iterate_preserves.
  intros. apply Hcb.
Qed.

Lemma mintCredit_preserves addr amt : preserves inv (mintCredit addr amt).
Proof. unfold mintCredit. preserve. Qed.

Lemma proratedCredit_preserves ctx d amt : preserves inv (proratedCredit ctx d amt).
Proof.
  unfold proratedCredit, GetParams, totalLockedAmountByAddr, totalInsuredAmountByAddr. preserve.
  - apply mustIterateLockups_preserves. intros. preserve.
  - apply mustIterateInsurance_preserves. intros. preserve.
Qed.

#[local] Hint Resolve mintCredit_preserves proratedCredit_preserves : preserves.

Lemma Lock_preserves ctx d v amt : addr20 d -> addr20 v -> preserves inv (Lock ctx d v amt).
Proof.
  intros Hd Hv. unfold Lock, throw_if. destruct (Z.leb_spec amt 0); [intros s Hs; exact Hs|].
  unfold getTotalCreditAmount. preserve.
Qed.

Lemma Unlock_preserves ctx d v amt : addr20 d -> addr20 v -> is_int64 (block_height ctx) = true ->
  preserves inv (Unlock ctx d v amt).
Proof.
  intros Hd Hv Hh. unfold Unlock, throw_if at 1. destruct (Z.leb_spec amt 0); [intros s Hs; exact Hs|].
  unfold hasLockup, GetParams, epochDuration. preserve.
Qed.

Lemma subtractUnlocking_preserves d v h amt : addr20 d -> addr20 v -> is_int64 h = true ->
  preserves inv (subtractUnlockingLockup d v h amt).
Proof. intros. unfold subtractUnlockingLockup, GetUnlockingLockup. preserve. Qed.

Lemma CancelUnlocking_preserves ctx d v h amt : addr20 d -> addr20 v -> is_int64 h = true ->
  preserves inv (CancelUnlocking ctx d v h amt).
Proof.
  intros Hd Hv Hh. unfold CancelUnlocking, throw_if at 1.
  destruct (Z.leb_spec amt 0); [intros s Hs; exact Hs|]. preserve.
  by apply subtractUnlocking_preserves.
Qed.

(** A lockup that is gone has no insurance left, so nothing is redelegated. *)
Lemma no_insurance_without_lockup s d v : inv s -> st_lockups s !! LockupKey d v = None ->
  insured_at s d v <= 0.
Proof.
  intros Hi Hn. unfold insured_at. destruct (st_insurance s !! LockupKey d v) as [l|] eqn:E; simpl; [|lia].
  destruct (inv_insurance s Hi _ _ E) as (_ & _ & Hex). destruct (Z.lt_ge_cases 0 (Amount l)); [|done].
  destruct (Hex ltac:(done)) as [? ?]. congruence.
Qed.

Lemma Redelegate_preserves d src dst amt : addr20 d -> addr20 src -> addr20 dst ->
  preserves inv (Redelegate d src dst amt).
Proof.
  intros Hd Hs Hv. unfold Redelegate, throw_if. destruct (Z.leb_spec amt 0); [intros s Hi; exact Hi|].
  apply preserves_bind; [apply preserves_ret|intros _].
  apply preserves_bind; [auto with preserves|intros _]. apply preserves_bind; [auto with preserves|intros _].
  intros s Hi. unfold hasLockup. erewrite bind_run_ok by done.
  assert (Hnoop : when (negb (bool_decide (is_Some (st_lockups s !! LockupKey d src))))
     (insuranceLockupAmount <- getInsuranceLockupAmount d src ;;
      when (0 <? insuranceLockupAmount)
        (removeInsuranceLockup d src ;;; AddInsuranceLockup d dst insuranceLockupAmount)) s = (Ok tt, s)).
  { case_bool_decide as Hex; [done|]. simpl. unfold getInsuranceLockupAmount.
    erewrite bind_run_ok by done. fold (insured_at s d src).
    pose proof (no_insurance_without_lockup s d src Hi (proj2 (eq_None_not_Some _) Hex)).
    destruct (Z.ltb_spec 0 (insured_at s d src)); [lia|done]. }
  erewrite bind_run_ok by exact Hnoop.
  assert (Hrest : preserves inv (shares <- on_world (ValidateUnbondAmount modAddr src amt) ;;
    on_world (BeginRedelegation modAddr src dst shares))) by preserve.
  exact (Hrest s Hi).
Qed.

Lemma setInsurance_inv d v amt s : inv s -> addr20 d -> addr20 v -> 0 <= amt ->
  is_Some (st_lockups s !! LockupKey d v) ->
  inv (set_insurance (<[LockupKey d v := mkLockup d v amt]> (st_insurance s)) s).
Proof.
  intros Hi Hd Hv Hamt Hex. split; simpl; try apply Hi.
  intros k l [[<- <-]|[_ Hk]]%lookup_insert_Some; [by split_and!|]. by apply (inv_insurance s Hi).
Qed.

Lemma slash_amount_range (a rate : Z) : 0 <= a -> 0 <= rate <= precision ->
  0 <= dec_truncate (dec_mul (dec_of_int a) rate) <= a.
Proof.
  intros Ha Hr. rewrite dec_mul_int. unfold dec_truncate.
  rewrite Z.quot_div_nonneg by (unfold precision in *; nia).
  split; [apply Z.div_pos; unfold precision in *; nia|].
  apply Z.div_le_upper_bound; unfold precision in *; nia.
Qed.

Lemma adjustLockup_preserves d v rate cov : addr20 d -> addr20 v -> 0 <= rate <= precision -> 0 <= cov ->
  preserves inv (adjustLockup d v rate cov).
Proof.
  intros Hd Hv Hrate Hcov s Hi. unfold adjustLockup. erewrite bind_run_ok by done.
  destruct (st_lockups s !! LockupKey d v) as [l|] eqn:E; [|done]. cbv zeta.
  destruct (inv_lockups s Hi _ _ E) as [_ Hpos].
  pose proof (slash_amount_range (Amount l) rate ltac:(lia) Hrate) as Hrange.
  set (after := dec_truncate _) in *. destruct (Z.eqb_spec after (Amount l)) as [|Hne]; [done|].
  erewrite bind_run_ok by done. unfold bind at 1. rewrite setTotalLockupsAmount_run, (inv_total s Hi).
  destruct (is_int64 _); [|done].
  assert (Hl : locked_at s d v = Amount l) by (unfold locked_at; by rewrite E).
  set (total := _ - Amount l + after).
  destruct (Z.eqb_spec after 0) as [Hz|Hnz].
  - simpl. fold (del_lockup d v total s).
    assert (Hi1 : inv (set_insurance (delete (LockupKey d v) (st_insurance s)) s)).
    { exact (preserves_ok _ _ s tt _ (del_insurance_preserves d v) Hi eq_refl). }
    assert (Hno : insured_at (set_insurance (delete (LockupKey d v) (st_insurance s)) s) d v <= 0).
    { unfold insured_at. simpl. by rewrite lookup_delete_eq. }
    apply (del_lockup_inv d v total _ Hi1 Hno). unfold total, locked_at in *. simpl. lia.
  - assert (Hi1 : inv (put_lockup d v after total s)).
    { apply put_lockup_inv; [done|done|done|lia|unfold total; lia]. }
    erewrite bind_run_ok by done. fold (put_lockup d v after total s).
    unfold when. destruct (0 <? cov); [|exact Hi1].
    erewrite bind_run_ok by done. set (s1 := put_lockup d v after total s) in *.
    assert (Hc : 0 <= dec_truncate (dec_mul (dec_of_int (Amount l)) cov)).
    { rewrite dec_mul_int. unfold dec_truncate. apply Z.quot_pos; unfold precision; nia. }
    apply (setInsurance_inv d v _ s1 Hi1 Hd Hv).
    + pose proof (insured_at_nonneg s d v Hi) as Hin. unfold insured_at in Hin.
      cbn [st_insurance set_lockups set_total_lockups].
      destruct (st_insurance s !! LockupKey d v); cbn [from_option] in *; lia.
    + unfold s1. simpl. rewrite lookup_insert_eq. eauto.
Qed.

Lemma adjustLockups_preserves v rate cov : 0 <= rate <= precision -> 0 <= cov ->
  preserves inv (adjustLockups v rate cov).
Proof.
  intros Hr Hc. apply mustIterateLockups_preserves. intros _ d v' _ Hd Hv'.
  destruct (decide (v' = v)); [by apply adjustLockup_preserves|apply preserves_ret].
Qed.

Lemma burnAllCredits_preserves : preserves inv burnAllCredits.
Proof.
  unfold burnAllCredits. preserve. apply mustIterateLockups_preserves. intros.
  unfold burnCallback. preserve.
Qed.

Lemma resetAllCredits_preserves : preserves inv resetAllCredits.
Proof.
  unfold resetAllCredits, collectLocked, GetParams. preserve.
  apply mustIterateLockups_preserves. intros. unfold getInsuranceLockupAmount. preserve.
Qed.

Lemma CompleteUnlocking_preserves ctx : preserves inv (CompleteUnlocking ctx).
Proof.
  unfold CompleteUnlocking, iterateUnlockingLockups, mustIterateUnlockingLockups. preserve.
  apply iterate_preserves. intros. unfold completeUnlockingEntry. preserve.
Qed.

(** ** Chosen validators *)

Lemma minLockup_in l x : minLockup l = Some x -> x ∈ l.
Proof.
  unfold minLockup. assert (Hgen : forall l acc, foldl (fun m x => match m with
    | None => Some x | Some y => if x.2 <? y.2 then Some x else Some y end) acc l = Some x ->
    acc = Some x \/ x ∈ l).
  { clear l. induction l as [|y l IH]; intros acc Hf; simpl in Hf; [by left|].
    destruct (IH _ Hf) as [Hacc|Hin]; [|right; by right].
    destruct acc as [z|]; [destruct (y.2 <? z.2)|]; simplify_eq; auto; right; left. }
  intros Hf. destruct (Hgen l None Hf); done.
Qed.

Lemma selectExisting_returns d :
  returns (fun o => forall v, o = Some v -> addr20 v) (selectValidatorFromExistingLockups (W := W) d).
Proof.
  unfold selectValidatorFromExistingLockups.
  eapply (returns_bind (Forall (fun x : bytes * Z => addr20 x.1))).
  - unfold mustIterateLockups. eapply returns_bind; [apply returns_any|intros items _].
    apply returns_foldM; [constructor|]. intros acc [k l] Hacc. simpl.
    eapply (returns_bind (fun da : bytes * bytes => addr20 da.2)).
    + intros s [d' v'] s' Hr. unfold of_outcome in Hr. simplify_eq. simpl. by eapply parse_LockupKey_addr.
    + intros [d' v'] Hv'. apply returns_ret. destruct (decide _); [|done]. apply Forall_app. auto.
  - intros l Hl. destruct (minLockup l) as [[v z]|] eqn:Em; [|by apply returns_ret].
    eapply returns_bind; [apply returns_any|]. intros [val|e] _; [|by apply returns_ret].
    apply returns_ret. intros v' Hv'. destruct (val_IsBonded val); simplify_eq.
    rewrite Forall_forall in Hl. by apply (Hl (v', z)), minLockup_in.
Qed.

Lemma selectSmallest_returns : returns addr20 (selectValidatorWithSmallestDelegation (W := W)).
Proof.
  unfold selectValidatorWithSmallestDelegation.
  eapply (returns_bind (fun r => forall vs, r = inl vs -> Forall (fun x => addr20 (OperatorAddress x)) vs)).
  { intros s r s' Hr vs ->. unfold from_world, gets in Hr. simplify_eq. by eapply IterateValidators_addr. }
  intros [vs|e] Hvs; [|apply returns_throw]. specialize (Hvs vs eq_refl).
  eapply (returns_bind (Forall (fun x : bytes * Z => addr20 x.1))).
  - assert (Hgen : forall vs acc, Forall (fun x => addr20 (OperatorAddress x)) vs ->
      Forall (fun x : bytes * Z => addr20 x.1) acc ->
      returns (Forall (fun x : bytes * Z => addr20 x.1)) (foldM (fun acc x =>
        if negb (val_IsBonded x) then ret acc
        else delegation <- from_world (GetDelegation modAddr (OperatorAddress x)) ;;
          ret (acc ++ [(OperatorAddress x,
            match delegation with inl shares => dec_truncate shares | inr _ => 0 end)])) acc vs
        : TM _)); [|by apply Hgen].
    clear vs Hvs. induction vs as [|x vs IH]; intros acc Hvs Hacc; simpl; [by apply returns_ret|].
    apply Forall_cons in Hvs as [Hv Hvs]. eapply (returns_bind (Forall (fun x : bytes * Z => addr20 x.1))).
    + destruct (negb _); [by apply returns_ret|]. eapply returns_bind; [apply returns_any|].
      intros del _. apply returns_ret, Forall_app. auto.
    + intros acc' Hacc'. by apply IH.
  - intros l Hl. destruct (minLockup l) as [[v z]|] eqn:Em; [|apply returns_throw].
    apply returns_ret. rewrite Forall_forall in Hl. by apply (Hl (v, z)), minLockup_in.
Qed.

Lemma LockAuto_preserves ctx d amt : addr20 d -> preserves inv (LockAuto ctx d amt).
Proof.
  intros Hd. unfold LockAuto.
  eapply preserves_bind_returns; [|apply selectExisting_returns|].
  { unfold selectValidatorFromExistingLockups. preserve.
    apply mustIterateLockups_preserves. intros. preserve. }
  intros o Ho. eapply (preserves_bind_returns _ addr20).
  - destruct o; [apply preserves_ret|]. unfold selectValidatorWithSmallestDelegation. preserve.
  - destruct o; [by apply returns_ret, Ho|apply selectSmallest_returns].
  - intros v Hv. apply preserves_bind; [by apply Lock_preserves|intros; apply preserves_ret].
Qed.
End ops.

#[export] Hint Resolve from_world_preserves of_sum_preserves NewCoins1_preserves
  setTotalCredit_preserves mintCredit_preserves proratedCredit_preserves burnAllCredits_preserves
  resetAllCredits_preserves CompleteUnlocking_preserves Lock_preserves : preserves.
