(* ===== verification/TierReach.v ===== *)
(** The states the tier module reaches satisfy its invariant.

    The developers, subscriptions, rewards and epoch hooks keep [tier_inv], and so do
    slashes that take no more from the module than its stake. So every state reached
    from an empty store by any sequence of messages, blocks, epochs and such
    slashes satisfies it; a deeper slash makes a lockup negative. *)
From Stdlib Require Import Ascii ZArith Lia.
From stdpp Require Import base numbers list gmap strings.
From S2P Require Import Prelude Sdk Epochs FeeAllowance TierTypes TierCredit TierState TierKeeper TierModule TierWorld TierInv.

(** * Slashing rates *)

Section rates.
Context `{LegacyDecOps}.

Lemma dec_quo_nonneg (a b : Z) : 0 <= a -> 0 < b -> 0 <= dec_quo a b.
Proof.
  intros Ha Hb. pose proof (dec_quo_nearest a b ltac:(lia)) as Hq. unfold precision in *.
  destruct (Z.le_gt_cases 0 (dec_quo a b)) as [|Hneg]; [done|].
  assert (dec_quo a b * b <= - b) by nia. lia.
Qed.

Lemma dec_quo_unit (a b : Z) : 0 <= a <= b -> 0 < b -> 0 <= dec_quo a b <= precision.
Proof.
  intros Ha Hb. split; [apply dec_quo_nonneg; lia|].
  pose proof (dec_quo_nearest a b ltac:(lia)) as Hq.
  destruct (Z.le_gt_cases (dec_quo a b) precision) as [|Hbig]; [done|].
  assert ((precision + 1) * b <= dec_quo a b * b) by nia. unfold precision in *. lia.
Qed.

(** The module's share of a slash of at most a third of the stake the validator
    had is less than the module's stake, rounded up or not. *)
Lemma slashed_share_bound (slashed stake total : Z) :
  0 < slashed -> 2 * slashed <= total -> 3 * precision <= stake <= total ->
  total <= precision * precision ->
  0 <= dec_mul slashed (dec_quo stake total) <= stake - precision.
Proof.
  intros Hs Hhalf Hst Ht. assert (Hp : precision = 10 ^ 18) by done.
  pose proof (dec_quo_nearest stake total ltac:(lia)) as Hq.
  pose proof (dec_quo_nonneg stake total ltac:(lia) ltac:(lia)) as Hq0.
  set (q := dec_quo stake total) in *. split; [apply dec_mul_nonneg; lia|].
  pose proof (dec_mul_nearest slashed q) as Hm. set (x := dec_mul slashed q) in *.
  assert (H1 : 2 * (slashed * q) <= total * q) by nia.
  assert (H2 : 2 * (q * total * precision) <= 2 * stake * precision * precision + (precision + 2) * total) by lia.
  assert (H3 : (precision + 2) * total <= (precision + 2) * precision * precision) by nia.
  assert (H4 : 2 * (q * total) <= 2 * stake * precision + (precision + 2) * precision) by nia.
  assert (H5 : 4 * (x * precision) <= 2 * stake * precision + (precision + 2) * precision + 2 * precision) by nia.
  assert (H6 : 4 * x <= 2 * stake + precision + 4) by nia. lia.
Qed.

Lemma dec_ceil_bounds d : d <= dec_ceil d < d + precision.
Proof.
  unfold dec_ceil. pose proof (Z.div_mod (- d) precision). pose proof (Z.mod_pos_bound (- d) precision).
  unfold precision in *. lia.
Qed.

Lemma dec_truncate_ceil d : dec_of_int (dec_truncate (dec_ceil d)) = dec_ceil d.
Proof. unfold dec_truncate, dec_of_int, dec_ceil. by rewrite Z.quot_mul by done. Qed.
End rates.

(** * Every operation keeps the invariant *)

Section ops.
Context `{LegacyDecOps, CoinsOps, DecParser, AddressCodec, ValAddressCodec, MapRange}.
Context {W : Type} `{BankKeeper W, StakingKeeper W, EpochsKeeper W, DistributionKeeper W,
                     FeegrantKeeper W, AcpKeeper W} {HAL : AddressLaws W}.
Implicit Types (s : TierState W) (d v a did : bytes) (amt : Z) (ctx : Ctx).
Abbreviation inv := (tier_inv (W := W)).
Abbreviation TM := (M (TierState W)).

(** ** Slashing *)

(** A slash takes no more from the module than its stake with the validator: the
    module's share of the slash, as the handlers compute it from what the
    validator has left, rounded up to whole tokens. The insurance pool has no
    debts. *)
Definition slash_within (e : Event) (w : W) : Prop :=
  forall v slashed val shares,
    ValAddressFromBech32 (attribute (lit "address") (event_Attributes e)) = inl v ->
    LegacyNewDecFromStr (attribute (lit "burned") (event_Attributes e)) = inl slashed ->
    GetValidator v w = inl val -> GetDelegation (modAddr (W := W)) v w = inl shares ->
    let stake := TokensFromSharesTruncated val shares in
    let share := dec_mul slashed (dec_quo stake (dec_of_int (Tokens val))) in
    0 < stake /\ 0 <= share /\ dec_ceil share <= stake /\
    0 <= GetBalance (NewModuleAddress (W := W) InsurancePoolName) DefaultBondDenom w.

(** So does every slash of a validator that keeps at least twice what it lost and
    holds at most 10^18 tokens, of which the module has at least three. *)
Lemma third_slash_within e w :
  (forall v slashed val shares,
    ValAddressFromBech32 (attribute (lit "address") (event_Attributes e)) = inl v ->
    LegacyNewDecFromStr (attribute (lit "burned") (event_Attributes e)) = inl slashed ->
    GetValidator v w = inl val -> GetDelegation (modAddr (W := W)) v w = inl shares ->
    0 < slashed /\ 2 * slashed <= dec_of_int (Tokens val) /\ Tokens val <= precision /\
    dec_of_int 3 <= TokensFromSharesTruncated val shares <= dec_of_int (Tokens val)) ->
  0 <= GetBalance (NewModuleAddress (W := W) InsurancePoolName) DefaultBondDenom w -> slash_within e w.
Proof.
  intros Hsane Hpool v slashed val shares Hv Hsl Hval Hdel stake share.
  destruct (Hsane _ _ _ _ Hv Hsl Hval Hdel) as (Hs1 & Hs2 & Hs3 & Hs4). fold stake in Hs4.
  assert (Hb : 0 <= share <= stake - precision).
  { apply slashed_share_bound; unfold dec_of_int in *; [lia|lia|lia|]. unfold precision in *. lia. }
  pose proof (dec_ceil_bounds share). unfold dec_of_int, precision in *. split_and!; lia.
Qed.

Lemma tierStakeOf_run vt at' s :
  exists r, tierStakeOf vt at' s = (r, s) /\
    forall v val slashed total stake, r = Ok (v, val, slashed, total, stake) ->
      exists shares, ValAddressFromBech32 vt = inl v /\ LegacyNewDecFromStr at' = inl slashed /\
        GetValidator v (st_world s) = inl val /\
        GetDelegation (modAddr (W := W)) v (st_world s) = inl shares /\
        total = dec_of_int (Tokens val) /\ stake = TokensFromSharesTruncated val shares.
Proof.
  unfold tierStakeOf.
  destruct (ValAddressFromBech32 vt) as [v|e]; [erewrite bind_run_ok by done|by eexists].
  destruct (LegacyNewDecFromStr at') as [slashed|e]; [erewrite bind_run_ok by done|by eexists].
  unfold throw_if at 1. destruct (slashed =? 0); [by eexists|].
  do 2 erewrite bind_run_ok by done.
  destruct (GetValidator v (st_world s)) as [val|e] eqn:Ev; [erewrite bind_run_ok by done|by eexists].
  cbv zeta. unfold throw_if at 1. destruct (_ =? 0); [by eexists|].
  do 2 erewrite bind_run_ok by done.
  destruct (GetDelegation _ v (st_world s)) as [shares|e] eqn:Ed; [erewrite bind_run_ok by done|by eexists].
  unfold throw_if at 1. destruct (shares =? 0); [by eexists|]. eexists. split; [done|].
  intros. simplify_eq. eauto 10.
Qed.

Lemma handleDoubleSign_keeps e s : inv s -> slash_within e (st_world s) ->
  match handleDoubleSign (attribute (lit "address") (event_Attributes e))
          (attribute (lit "burned") (event_Attributes e)) s with
  | (Panic, _) => True | (_, s') => inv s'
  end.
Proof.
  intros Hi Hsane. unfold handleDoubleSign.
  edestruct tierStakeOf_run as ([[[[[v val] slashed] total] stake]|err|] & Hrun & Hres);
    [erewrite bind_run_ok by done|by erewrite bind_run_err by done|by erewrite bind_run_panic by done].
  destruct (Hres _ _ _ _ _ eq_refl) as (shares & Hv & Hsl & Hval & Hdel & -> & ->).
  destruct (Hsane _ _ _ _ Hv Hsl Hval Hdel) as (Hst & Hs0 & Hs1 & _).
  set (stake := TokensFromSharesTruncated val shares) in *.
  unfold Quo. destruct (Z.eqb_spec (dec_of_int (Tokens val)) 0) as [|_]; [done|].
  erewrite bind_run_ok by done. cbv zeta. unfold throw_if. destruct (_ =? 0); [exact Hi|].
  erewrite bind_run_ok by done. destruct (Z.eqb_spec stake 0) as [|_]; [done|].
  erewrite bind_run_ok by done. refine (adjustLockups_preserves v _ 0 _ _ s Hi); [|done].
  set (x := dec_mul slashed _) in *. pose proof (dec_ceil_bounds x). apply dec_quo_unit; lia.
Qed.

Lemma handleMissingSignature_keeps e s : inv s -> slash_within e (st_world s) ->
  match handleMissingSignature (attribute (lit "address") (event_Attributes e))
          (attribute (lit "burned") (event_Attributes e)) s with
  | (Panic, _) => True | (_, s') => inv s'
  end.
Proof.
  intros Hi Hsane. unfold handleMissingSignature.
  edestruct tierStakeOf_run as ([[[[[v val] slashed] total] stake]|err|] & Hrun & Hres);
    [erewrite bind_run_ok by done|by erewrite bind_run_err by done|by erewrite bind_run_panic by done].
  destruct (Hres _ _ _ _ _ eq_refl) as (shares & Hv & Hsl & Hval & Hdel & -> & ->).
  destruct (Hsane _ _ _ _ Hv Hsl Hval Hdel) as (Hst & Hs0 & Hs1 & Hpool).
  set (stake := TokensFromSharesTruncated val shares) in *.
  unfold Quo. destruct (Z.eqb_spec (dec_of_int (Tokens val)) 0) as [|_]; [done|].
  erewrite bind_run_ok by done. cbv zeta.
  set (x := dec_mul slashed _) in *. set (y := dec_truncate (dec_ceil x)).
  pose proof (dec_ceil_bounds x). pose proof (dec_truncate_ceil x) as Hy. fold y in Hy.
  assert (Hy0 : 0 <= y) by (unfold dec_of_int, precision in *; lia).
  unfold throw_if. destruct (_ =? 0); [exact Hi|]. do 2 erewrite bind_run_ok by done.
  set (covered := if _ <? y then _ else y).
  assert (Hcov : 0 <= covered) by (unfold covered; destruct (_ <? y); lia).
  apply (preserves_bind inv); [apply on_world_preserves| |done]. intros _.
  destruct (Z.eqb_spec stake 0); [lia|].
  change (preserves inv (adjustLockups v (dec_quo (stake - dec_of_int y) stake) (dec_quo (dec_of_int covered) stake))).
  apply adjustLockups_preserves; [apply dec_quo_unit; lia|].
  apply dec_quo_nonneg; unfold dec_of_int, precision; lia.
Qed.

Lemma handleSlashEvent_keeps e s s' : inv s -> slash_within e (st_world s) ->
  handleSlashEvent e s = (Ok tt, s') -> inv s'.
Proof.
  intros Hi Hsane. unfold handleSlashEvent. destruct (negb _); [unfold ret; intros; by simplify_eq|]. cbv zeta.
  pose proof (handleDoubleSign_keeps e s Hi Hsane) as Hd.
  pose proof (handleMissingSignature_keeps e s Hi Hsane) as Hm.
  unfold bind, attempt. case_bool_decide; [destruct (handleDoubleSign _ _ s) as [[]]|
    destruct (handleMissingSignature _ _ s) as [[]]]; intros Hr; unfold ret in Hr; by simplify_eq.
Qed.

(** ** Rewards *)

Lemma processRewards_preserves ctx : preserves inv (processRewards ctx).
Proof. unfold processRewards, processValidatorRewards, payInsurancePool, payDeveloperPool, burnRewards, GetParams. preserve. Qed.

(** ** Developers *)

Lemma DeveloperKey_inj a b : DeveloperKey a = DeveloperKey b -> a = b.
Proof. unfold DeveloperKey. intros Heq. by apply app_inj_2 in Heq as [? _]. Qed.

Lemma SetDeveloper_preserves a auto : addr20 a -> preserves inv (SetDeveloper a (mkDeveloper a auto)).
Proof.
  intros Ha. apply preserves_modify. intros s Hi. split; simpl; try apply Hi.
  intros k d [[<- <-]|[_ Hk]]%lookup_insert_Some; [done|]. by apply (inv_developers s Hi).
Qed.

Lemma CreateDeveloper_preserves a auto : addr20 a -> preserves inv (CreateDeveloper a auto).
Proof. intros Ha. unfold CreateDeveloper, GetDeveloper. preserve. by apply SetDeveloper_preserves. Qed.

Lemma UpdateDeveloper_preserves a auto : addr20 a -> preserves inv (UpdateDeveloper a auto).
Proof.
  intros Ha s Hi. unfold UpdateDeveloper. erewrite bind_run_ok by done.
  destruct (st_developers s !! DeveloperKey a) as [dev|] eqn:E; [|exact Hi].
  destruct (inv_developers s Hi _ _ E) as [Hd Hk]. apply DeveloperKey_inj in Hk as Heq.
  rewrite <- Heq. by apply SetDeveloper_preserves.
Qed.

(** ** Auto-lock *)

Lemma chooseValidator_returns a : returns addr20 (chooseValidator (W := W) a).
Proof.
  unfold chooseValidator.
  eapply (returns_bind (fun o : option (bytes * Z) => forall x, o = Some x -> addr20 x.1)).
  - unfold mustIterateLockups. eapply returns_bind; [apply returns_any|intros items _].
    apply returns_foldM; [done|]. intros acc [k l] Hacc. simpl.
    eapply (returns_bind (fun da : bytes * bytes => addr20 da.2)).
    + intros s [d' v'] s' Hr. unfold of_outcome in Hr. simplify_eq. simpl. by eapply parse_LockupKey_addr.
    + intros [d' v'] Hv'. apply returns_ret. simpl in *. intros x.
      repeat case_match; intros; simplify_eq; auto.
  - intros [[v z]|] Ho; [apply returns_ret; by apply (Ho (v, z))|].
    intros s v s' Hr. unfold bind, from_world, gets in Hr.
    destruct (GetAllValidators (st_world s)) as [[|x vs]|e] eqn:Ev; [done| |done].
    unfold ret in Hr. simplify_eq. apply GetAllValidators_addr in Ev. by apply Forall_cons in Ev as [? _].
Qed.

Lemma chooseValidator_preserves a : preserves inv (chooseValidator a).
Proof. unfold chooseValidator. preserve. apply mustIterateLockups_preserves. intros. preserve. Qed.

Lemma choose_and_lock_preserves ctx a amt : addr20 a ->
  preserves inv (v <- chooseValidator a ;; lock_or_invalid ctx a v amt).
Proof.
  intros Ha. eapply preserves_bind_returns;
    [apply chooseValidator_preserves|apply chooseValidator_returns|].
  intros v Hv. unfold lock_or_invalid. preserve.
Qed.

Lemma autoLock_preserves ctx a amt : addr20 a -> preserves inv (autoLockDeveloperCredits ctx a amt).
Proof. intros Ha. unfold autoLockDeveloperCredits. preserve_step; [|by apply choose_and_lock_preserves]. preserve. Qed.

Lemma addLockupForRegistration_preserves ctx a amt : addr20 a ->
  preserves inv (addLockupForRegistration ctx a amt).
Proof.
  intros Ha. unfold addLockupForRegistration, getTotalDevGranted.
  do 2 (preserve_step; [preserve|]). cbv zeta. preserve_step; [preserve|].
  by apply choose_and_lock_preserves.
Qed.

Lemma checkDeveloper_preserves ctx a : addr20 a -> preserves inv (checkDeveloper ctx a).
Proof.
  intros Ha. unfold checkDeveloper, getTotalDevGranted, GetDeveloper. preserve. by apply autoLock_preserves.
Qed.

Lemma checkDeveloperCredits_preserves ctx : preserves inv (checkDeveloperCredits ctx).
Proof.
  unfold checkDeveloperCredits, mustIterateUserSubscriptions. preserve. apply iterate_preserves.
  intros b k [dev u] x Hk. apply parse_UserSubscriptionKey_addr in Hk. simpl. case_decide; preserve.
  by apply checkDeveloper_preserves.
Qed.

Lemma BeforeEpochStart_preserves ctx id n : preserves inv (BeforeEpochStart ctx id n).
Proof. unfold BeforeEpochStart. preserve. apply checkDeveloperCredits_preserves. Qed.

Lemma AfterEpochEnd_preserves ctx id n : preserves inv (AfterEpochEnd ctx id n).
Proof. unfold AfterEpochEnd. preserve. Qed.

(** ** Subscriptions *)

Lemma UserSubscriptionKey_inj a u b w : addr20 a -> addr20 b ->
  UserSubscriptionKey a u = UserSubscriptionKey b w -> a = b /\ u = w.
Proof.
  intros Ha Hb Heq. apply (parse_UserSubscriptionKey _ u) in Ha. apply (parse_UserSubscriptionKey _ w) in Hb.
  rewrite Heq, Hb in Ha. by simplify_eq.
Qed.

Lemma updateGranted_preserves a delta add : preserves inv (updateDeveloperTotalGranted a delta add).
Proof.
  unfold updateDeveloperTotalGranted, getTotalDevGranted. preserve.
  apply preserves_modify. intros s. apply tier_inv_granted.
Qed.

Lemma SetUserSubscription_preserves a did amt t1 p t2 : addr20 a ->
  preserves inv (SetUserSubscription a did (mkUserSubscription a did amt t1 p t2)).
Proof.
  intros Ha. apply preserves_modify. intros s Hi. split; simpl; try apply Hi.
  intros k d [[<- <-]|[_ Hk]]%lookup_insert_Some; [done|]. by apply (inv_subscriptions s Hi).
Qed.

Lemma removeUserSubscription_preserves a did : preserves inv (removeUserSubscription a did).
Proof.
  apply preserves_modify. intros s Hi. split; simpl; try apply Hi.
  intros k d [_ Hk]%lookup_delete_Some. by apply (inv_subscriptions s Hi).
Qed.

#[local] Hint Resolve updateGranted_preserves removeUserSubscription_preserves : preserves.

Lemma actingDeveloper_returns ctx a : addr20 a -> returns addr20 (actingDeveloper (W := W) ctx a).
Proof.
  intros Ha. unfold actingDeveloper. case_decide; [by apply returns_ret|].
  intros s x s' Hr. unfold bind, from_world, gets in Hr.
  destruct (GetAddressFromDID _ _) as [y|e] eqn:E; [|done]. unfold of_sum, ret in Hr. simplify_eq.
  by eapply GetAddressFromDID_addr.
Qed.

Lemma actingDeveloper_preserves ctx a : preserves inv (actingDeveloper ctx a).
Proof. unfold actingDeveloper. case_decide; preserve. Qed.

Lemma subscriptionPeriod_preserves p : preserves inv (subscriptionPeriod p).
Proof. unfold subscriptionPeriod, GetParams, epochDuration. preserve. Qed.

Lemma grantPeriodic_preserves ctx a did c p : preserves inv (grantPeriodicDIDAllowance ctx a did c p).
Proof. unfold grantPeriodicDIDAllowance. cbv zeta. preserve. Qed.

#[local] Hint Resolve subscriptionPeriod_preserves grantPeriodic_preserves actingDeveloper_preserves : preserves.

Lemma AddUserSubscription_preserves ctx a did amt p : addr20 a ->
  preserves inv (AddUserSubscription ctx a did amt p).
Proof.
  intros Ha. unfold AddUserSubscription.
  eapply preserves_bind_returns; [apply actingDeveloper_preserves|by apply actingDeveloper_returns|].
  intros b Hb. unfold GetUserSubscription, GetDeveloper, validateDeveloperCredits, getTotalDevGranted,
    GetParams, lockAmountFor, effectiveRate. preserve.
  - by apply addLockupForRegistration_preserves.
  - by apply SetUserSubscription_preserves.
Qed.

Lemma UpdateUserSubscription_preserves ctx a did amt p : addr20 a ->
  preserves inv (UpdateUserSubscription ctx a did amt p).
Proof.
  intros Ha. unfold UpdateUserSubscription.
  eapply preserves_bind_returns; [apply actingDeveloper_preserves|by apply actingDeveloper_returns|].
  intros b Hb s Hi. erewrite bind_run_ok by done.
  destruct (st_subscriptions s !! UserSubscriptionKey b did) as [sub|] eqn:E; [|exact Hi].
  destruct (inv_subscriptions s Hi _ _ E) as [Hd Hk].
  destruct (UserSubscriptionKey_inj _ _ _ _ Hb Hd Hk) as [-> ->]. cbv zeta. clear E Hk. revert s Hi.
  match goal with |- forall s, inv s -> match ?m s with _ => _ end => change (preserves inv m) end.
  preserve. by apply SetUserSubscription_preserves.
Qed.

Lemma RemoveUserSubscription_preserves ctx a did : preserves inv (RemoveUserSubscription ctx a did).
Proof. unfold RemoveUserSubscription, GetUserSubscription. preserve. Qed.

Lemma removeDeveloper_preserves a : preserves inv (removeDeveloper a).
Proof.
  apply preserves_modify. intros s Hi. split; simpl; try apply Hi.
  intros k d [_ Hk]%lookup_delete_Some. by apply (inv_developers s Hi).
Qed.

Lemma RemoveDeveloper_preserves ctx a : preserves inv (RemoveDeveloper ctx a).
Proof.
  unfold RemoveDeveloper, GetDeveloper, mustIterateUserSubscriptionsForDeveloper. preserve.
  - apply iterate_preserves. intros. preserve.
  - apply RemoveUserSubscription_preserves.
  - apply removeDeveloper_preserves.
Qed.

(** ** Operations and reachable states *)

Inductive tier_op : Type :=
  | OpUpdateParams (authority : bytes) (msg : MsgUpdateParams)
  | OpLock (ctx : Ctx) (d v : bytes) (amt : Z)
  | OpLockAuto (ctx : Ctx) (d : bytes) (amt : Z)
  | OpUnlock (ctx : Ctx) (d v : bytes) (amt : Z)
  | OpRedelegate (d src dst : bytes) (amt : Z)
  | OpCancelUnlocking (ctx : Ctx) (d v : bytes) (h amt : Z)
  | OpCreateDeveloper (a : bytes) (auto : bool)
  | OpUpdateDeveloper (a : bytes) (auto : bool)
  | OpRemoveDeveloper (ctx : Ctx) (a : bytes)
  | OpAddUserSubscription (ctx : Ctx) (a did : bytes) (amt period : Z)
  | OpUpdateUserSubscription (ctx : Ctx) (a did : bytes) (amt period : Z)
  | OpRemoveUserSubscription (ctx : Ctx) (a did : bytes)
  | OpSlash (e : Event)
  | OpRewards (ctx : Ctx)
  | OpBeforeEpochStart (ctx : Ctx) (id : bytes) (n : Z)
  | OpAfterEpochEnd (ctx : Ctx) (id : bytes) (n : Z)
  | OpWorld (w : W).

(** A block is its slash events, then the rewards; the epoch hooks run under
    the hook runner of the epochs module; [OpWorld] is any step of another
    module. *)
Definition run_tier_op (op : tier_op) : TM unit :=
  match op with
  | OpUpdateParams authority msg => msg_UpdateParams authority msg
  | OpLock ctx d v amt => Lock ctx d v amt
  | OpLockAuto ctx d amt => LockAuto ctx d amt ;;; ret tt
  | OpUnlock ctx d v amt => Unlock ctx d v amt ;;; ret tt
  | OpRedelegate d src dst amt => Redelegate d src dst amt ;;; ret tt
  | OpCancelUnlocking ctx d v h amt => CancelUnlocking ctx d v h amt
  | OpCreateDeveloper a auto => CreateDeveloper a auto
  | OpUpdateDeveloper a auto => UpdateDeveloper a auto
  | OpRemoveDeveloper ctx a => RemoveDeveloper ctx a
  | OpAddUserSubscription ctx a did amt period => AddUserSubscription ctx a did amt period
  | OpUpdateUserSubscription ctx a did amt period => UpdateUserSubscription ctx a did amt period
  | OpRemoveUserSubscription ctx a did => RemoveUserSubscription ctx a did
  | OpSlash e => handleSlashEvent e
  | OpRewards ctx => attempt (processRewards ctx) ;;; ret tt
  | OpBeforeEpochStart ctx id n => panicCatchingEpochHook (hook_BeforeEpochStart tierEpochHooks ctx id n)
  | OpAfterEpochEnd ctx id n => panicCatchingEpochHook (hook_AfterEpochEnd tierEpochHooks ctx id n)
  | OpWorld w => modify (set_world w)
  end.

(** Addresses have 20 bytes, heights 64 bits and subscription amounts no sign. *)
Definition tier_op_typed (op : tier_op) : Prop :=
  match op with
  | OpLock _ d v _ => addr20 d /\ addr20 v
  | OpUnlock ctx d v _ => addr20 d /\ addr20 v /\ is_int64 (block_height ctx) = true
  | OpCancelUnlocking _ d v h _ => addr20 d /\ addr20 v /\ is_int64 h = true
  | OpRedelegate d src dst _ => addr20 d /\ addr20 src /\ addr20 dst
  | OpLockAuto _ a _ | OpCreateDeveloper a _ | OpUpdateDeveloper a _ | OpRemoveDeveloper _ a
  | OpRemoveUserSubscription _ a _ => addr20 a
  | OpAddUserSubscription _ a _ amt _ | OpUpdateUserSubscription _ a _ amt _ => addr20 a /\ 0 <= amt
  | _ => True
  end.

(** And no slash takes more from the module than its stake. *)
Definition tier_op_ok (op : tier_op) (s : TierState W) : Prop :=
  match op with OpSlash e => slash_within e (st_world s) | _ => tier_op_typed op end.

Definition empty_tier (w : W) : TierState W := mkTierState None ∅ ∅ ∅ None None ∅ ∅ ∅ w.

(** A transaction commits an operation that succeeds; one that fails changes
    nothing, and a panic of a block handler halts the chain. *)
Inductive tier_reachable : TierState W -> Prop :=
  | tier_reachable_init w : tier_reachable (empty_tier w)
  | tier_reachable_step s op s' :
      tier_reachable s -> tier_op_ok op s -> run_tier_op op s = (Ok tt, s') -> tier_reachable s'.

Lemma tier_reachable_run s op : tier_reachable s -> tier_op_ok op s ->
  is_ok (run_tier_op op s).1 = true -> tier_reachable (run_tier_op op s).2.
Proof.
  intros Hs Hok Hrun. destruct (run_tier_op op s) as [[[]|e|] s'] eqn:E; [|done|done].
  exact (tier_reachable_step s op s' Hs Hok E).
Qed.

Lemma hook_preserves (I : TierState W -> Prop) (m : TM unit) :
  preserves I m -> preserves I (panicCatchingEpochHook m).
Proof.
  intros Hm s Hs. specialize (Hm s Hs). unfold panicCatchingEpochHook, applyFunc, attempt, bind.
  destruct (m s) as [[[]|e|] s1]; simpl; done.
Qed.

Lemma run_tier_op_inv op s s' :
  inv s -> tier_op_ok op s -> run_tier_op op s = (Ok tt, s') -> inv s'.
Proof.
  intros Hi Hok Hrun.
  assert (Hp : (exists e, op = OpSlash e) \/ preserves inv (run_tier_op op)).
  { destruct op; simpl in *; destruct_and?; try (left; by eexists); right;
      unfold msg_UpdateParams, SetParams; preserve;
      eauto using LockAuto_preserves, Unlock_preserves, Redelegate_preserves, CancelUnlocking_preserves,
        CreateDeveloper_preserves, UpdateDeveloper_preserves, RemoveDeveloper_preserves,
        AddUserSubscription_preserves, UpdateUserSubscription_preserves, RemoveUserSubscription_preserves,
        processRewards_preserves, hook_preserves, BeforeEpochStart_preserves, AfterEpochEnd_preserves,
        preserves_modify, tier_inv_params, tier_inv_world. }
  destruct Hp as [[e ->]|Hp]; [by eapply handleSlashEvent_keeps|exact (preserves_ok _ _ _ _ _ Hp Hi Hrun)].
Qed.

Lemma empty_tier_inv w : inv (empty_tier w).
Proof. split; simpl; try done. Qed.

Lemma tier_reachable_inv s : tier_reachable s -> inv s.
Proof. induction 1; [apply empty_tier_inv|by eapply run_tier_op_inv]. Qed.

(** C1: in every state the module reaches, by any sequence of messages, reward
    rounds, epoch hooks, steps of other modules, and slash events that take no more
    from the module than its stake: each record sits under the key of its own
    20-byte addresses, every lockup is positive, the stored total of lockups is
    their sum, and insurance with something in it belongs to an existing lockup. *)
Theorem tier_records_consistent s : tier_reachable s -> tier_inv s.
Proof. apply tier_reachable_inv. Qed.
End ops.

(** * A run *)

Definition demo_params : tier_op (W := World) :=
  OpUpdateParams (lit "gov") (mkMsgUpdateParams (lit "gov") DefaultParams).
Definition demo_lock : tier_op (W := World) := OpLock (at_time (day / 2) 10) alice val1 200.
Definition demo_after (ops : list (tier_op (W := World))) : TierState World :=
  foldl (fun s op => snd (run_tier_op op s)) (empty_tier demo_world) ops.

Lemma demo_locked_reachable : tier_reachable (demo_after [demo_params; demo_lock]).
Proof.
  refine (tier_reachable_run (demo_after [demo_params]) demo_lock _ _ _);
    [|split; vm_compute; reflexivity|vm_compute; reflexivity].
  refine (tier_reachable_run (empty_tier demo_world) demo_params _ I _); [|vm_compute; reflexivity].
  apply tier_reachable_init.
Qed.

(** A validator whose only delegator, the module, has lost some of its 200. *)
Definition slashed_world (left : Z) : World :=
  mkWorld ∅ [mkValidator val1 left true] {[ (module_address ModuleName, val1) := dec_of_int left ]} ∅ tier_epochs ∅ ∅.
Definition slash_of (burned : string) : Event :=
  mkEvent (lit "slash") [(lit "address", val1); (lit "reason", lit "double_sign"); (lit "burned", lit burned)].

Definition demo_slashed : list (tier_op (W := World)) :=
  [demo_params; demo_lock; OpWorld (slashed_world 190); OpSlash (slash_of "10")].

Lemma demo_slash_within : slash_within (slash_of "10") (slashed_world 190).
Proof.
  intros v slashed val shares Hv Hs Hval Hd. vm_compute in Hv, Hs. injection Hv as <-. injection Hs as <-.
  vm_compute in Hval, Hd. injection Hval as <-. injection Hd as <-. vm_compute. split_and!; done.
Qed.

Lemma demo_slashed_reachable : tier_reachable (demo_after demo_slashed).
Proof.
  refine (tier_reachable_run (demo_after [demo_params; demo_lock; OpWorld (slashed_world 190)])
    (OpSlash (slash_of "10")) _ demo_slash_within _); [|vm_compute; reflexivity].
  exact (tier_reachable_run (demo_after [demo_params; demo_lock]) (OpWorld (slashed_world 190)) demo_locked_reachable I eq_refl).
Qed.

(** Alice locked 200, and the slash of ten took 11 of them from her record. *)
Lemma tier_records_consistent_witness :
  nonneg_or_zero (st_total_lockups (demo_after demo_slashed)) = 189 /\ tier_inv (demo_after demo_slashed).
Proof.
  pose proof (tier_records_consistent (demo_after demo_slashed) demo_slashed_reachable) as Hi.
  split; [vm_compute; reflexivity|exact Hi].
Defined.

(** The limit on slashes is needed. A slash of 150 that leaves 50 makes the rate
    negative, and the record of the 200 is written as minus 400. *)
Lemma deep_slash_negative :
  Amount <$> st_lockups (demo_after [demo_params; demo_lock; OpWorld (slashed_world 50); OpSlash (slash_of "150")])
    !! LockupKey alice val1 = Some (-400).
Proof. vm_compute. reflexivity. Qed.
