(* ===== verification/TierGranted.v ===== *)
(** What a developer has granted.

    The stored total of a developer is the sum of the credits of its
    subscriptions, in every reachable state; adding a subscription needs a
    registered developer and either free credits or an auto-lock. *)
From Stdlib Require Import Ascii ZArith Lia.
From stdpp Require Import base numbers list gmap strings.
From S2P Require Import Prelude Sdk Epochs FeeAllowance FeegrantKeys TierTypes TierCredit TierState TierKeeper TierModule TierWorld TierInv TierReach.

Definition granted_by (a : bytes) (m : gmap bytes UserSubscription) : Z :=
  map_sum (fun _ u => if decide (sub_Developer u = a) then CreditAmount u else 0) m.

(** The stored total of each developer. *)
Definition granted_total {W} (s : TierState W) (a : bytes) : Z :=
  default 0 (st_dev_granted s !! TotalDevGrantedKey a).

Record granted_inv {W} (s : TierState W) : Prop := {
  granted_keys : forall k u, st_subscriptions s !! k = Some u ->
    addr20 (sub_Developer u) /\ k = UserSubscriptionKey (sub_Developer u) (sub_UserDid u);
  granted_nonneg : forall k u, st_subscriptions s !! k = Some u -> 0 <= CreditAmount u;
  granted_sum : forall a, granted_total s a = granted_by a (st_subscriptions s);
}.

Lemma TotalDevGrantedKey_inj a b : TotalDevGrantedKey a = TotalDevGrantedKey b -> a = b.
Proof. unfold TotalDevGrantedKey. intros Heq. by apply app_inj_2 in Heq as [? _]. Qed.

(** * Operations that leave the subscriptions alone *)

(** A predicate on the subscriptions and the granted totals only. *)
Definition on_subscriptions {W : Type} (P : gmap bytes UserSubscription -> gmap bytes Z -> Prop)
    (s : TierState W) : Prop := P (st_subscriptions s) (st_dev_granted s).

Section frame.
Context `{LegacyDecOps, CoinsOps, DecParser, AddressCodec, ValAddressCodec, MapRange}.
Context {W : Type} `{BankKeeper W, StakingKeeper W, EpochsKeeper W, DistributionKeeper W,
                     FeegrantKeeper W, AcpKeeper W}.
Context (P : gmap bytes UserSubscription -> gmap bytes Z -> Prop).
Implicit Types (s : TierState W) (d v a did : bytes) (amt : Z) (ctx : Ctx).
Abbreviation Q := (on_subscriptions (W := W) P).
Abbreviation TM := (M (TierState W)).

Lemma frame_world {A} (m : M W A) : preserves Q (on_world m).
Proof.
  intros s Hs. unfold on_world, lift. simpl. by destruct (m (st_world s)) as [[a|e|] w].
Qed.

Lemma frame_from {A} (f : W -> A) : preserves Q (from_world f).
Proof. apply preserves_gets. Qed.

Lemma frame_of_sum {A} (r : A + error) : preserves Q (of_sum r).
Proof. destruct r; [apply preserves_ret|apply preserves_throw]. Qed.

Lemma frame_coins den amt : preserves Q (NewCoins1 den amt).
Proof. unfold NewCoins1. preserve. Qed.

Lemma frame_iterate {A V B} (items : list (bytes * V)) (parse : bytes -> outcome A)
    (cb : B -> A -> V -> TM B) acc :
  (forall b k x, preserves Q (cb b k x)) -> preserves Q (iterate items parse cb acc).
Proof. intros Hcb. unfold iterate. preserve. Qed.

#[local] Hint Resolve frame_world frame_from frame_of_sum frame_coins : preserves.

(** One step of a frame proof: writes elsewhere, iterations, structure. *)
Ltac frame := repeat first
  [ solve [eauto 2 with preserves]
  | apply frame_iterate; intros
  | preserve_step
  | solve [apply preserves_modify; intros; done] ].

Lemma frame_Lock ctx d v amt : preserves Q (Lock ctx d v amt).
Proof.
  unfold Lock, proratedCredit, mintCredit, AddLockup, GetTotalLockupsAmount, setTotalLockupsAmount,
    getTotalCreditAmount, setTotalCreditAmount, GetLockup, setLockup, GetParams, totalLockedAmountByAddr,
    totalInsuredAmountByAddr, mustIterateLockups, mustIterateInsuranceLockups. frame.
Qed.

#[local] Hint Resolve frame_Lock : preserves.

Lemma frame_choose_lock ctx a amt :
  preserves Q (v <- chooseValidator a ;; lock_or_invalid ctx a v amt).
Proof. unfold chooseValidator, lock_or_invalid, mustIterateLockups. frame. Qed.

#[local] Hint Resolve frame_choose_lock : preserves.

Lemma frame_addLockupForRegistration ctx a amt : preserves Q (addLockupForRegistration ctx a amt).
Proof. unfold addLockupForRegistration, getTotalDevGranted. frame. Qed.

Lemma frame_checkDeveloperCredits ctx : preserves Q (checkDeveloperCredits ctx).
Proof.
  unfold checkDeveloperCredits, mustIterateUserSubscriptions, checkDeveloper, autoLockDeveloperCredits,
    getTotalDevGranted, GetDeveloper. frame.
Qed.

Lemma frame_hooks ctx id n :
  preserves Q (BeforeEpochStart ctx id n) /\ preserves Q (AfterEpochEnd ctx id n).
Proof.
  pose proof (frame_checkDeveloperCredits ctx). split.
  - unfold BeforeEpochStart, burnAllCredits, resetAllCredits, collectLocked, burnCallback, mintCredit,
      mustIterateLockups, setTotalCreditAmount, getInsuranceLockupAmount, GetParams. frame.
  - unfold AfterEpochEnd, CompleteUnlocking, iterateUnlockingLockups, mustIterateUnlockingLockups,
      completeUnlockingEntry, removeUnlockingLockup. frame.
Qed.

Lemma frame_adjustLockups v rate cov : preserves Q (adjustLockups v rate cov).
Proof.
  unfold adjustLockups, mustIterateLockups, adjustLockup, GetLockup, GetTotalLockupsAmount,
    setTotalLockupsAmount, removeLockup, removeInsuranceLockup, setLockup, getInsuranceLockup,
    setInsuranceLockup. frame.
Qed.

#[local] Hint Resolve frame_adjustLockups : preserves.

Lemma frame_handleSlashEvent e : preserves Q (handleSlashEvent e).
Proof. unfold handleSlashEvent, handleDoubleSign, handleMissingSignature, tierStakeOf, Quo. frame. Qed.

Lemma frame_processRewards ctx : preserves Q (processRewards ctx).
Proof. unfold processRewards, processValidatorRewards, payInsurancePool, payDeveloperPool, burnRewards, GetParams. frame. Qed.

(** ** The messages that do not touch subscriptions *)

Lemma frame_LockAuto ctx d amt : preserves Q (LockAuto ctx d amt).
Proof.
  unfold LockAuto, selectValidatorFromExistingLockups, selectValidatorWithSmallestDelegation,
    mustIterateLockups. frame.
Qed.

Lemma frame_Unlock ctx d v amt : preserves Q (Unlock ctx d v amt).
Proof.
  unfold Unlock, subtractLockup, GetLockup, getInsuranceLockup, GetTotalLockupsAmount,
    setTotalLockupsAmount, removeLockup, setLockup, hasLockup, removeInsuranceLockup, GetParams,
    epochDuration, SetUnlockingLockup. frame.
Qed.

Lemma frame_Redelegate d src dst amt : preserves Q (Redelegate d src dst amt).
Proof.
  unfold Redelegate, subtractLockup, AddLockup, GetLockup, getInsuranceLockup, GetTotalLockupsAmount,
    setTotalLockupsAmount, removeLockup, setLockup, hasLockup, removeInsuranceLockup,
    getInsuranceLockupAmount, AddInsuranceLockup, setInsuranceLockup. frame.
Qed.

Lemma frame_CancelUnlocking ctx d v h amt : preserves Q (CancelUnlocking ctx d v h amt).
Proof.
  unfold CancelUnlocking, subtractUnlockingLockup, GetUnlockingLockup, removeUnlockingLockup,
    SetUnlockingLockup, AddLockup, GetTotalLockupsAmount, setTotalLockupsAmount, GetLockup, setLockup.
  frame.
Qed.

Lemma frame_developer a auto : preserves Q (CreateDeveloper a auto) /\ preserves Q (UpdateDeveloper a auto).
Proof. unfold CreateDeveloper, UpdateDeveloper, GetDeveloper, SetDeveloper. split; frame. Qed.

(** What the subscription messages do besides writing the subscription. *)
Lemma frame_actingDeveloper ctx a : preserves Q (actingDeveloper ctx a).
Proof. unfold actingDeveloper. frame. Qed.

Lemma frame_period period : preserves Q (subscriptionPeriod period).
Proof. unfold subscriptionPeriod, GetParams, epochDuration. cbv zeta. frame. Qed.

Lemma frame_grant ctx a did c p : preserves Q (grantPeriodicDIDAllowance ctx a did c p).
Proof. unfold grantPeriodicDIDAllowance. cbv zeta. frame. Qed.

Lemma frame_validate a amt : preserves Q (validateDeveloperCredits a amt).
Proof. unfold validateDeveloperCredits, getTotalDevGranted. frame. Qed.

Lemma frame_lockAmountFor rates amt : preserves Q (lockAmountFor rates amt).
Proof. unfold lockAmountFor, effectiveRate. frame. Qed.
End frame.

(** * The total is the sum *)

Section granted.
Context `{LegacyDecOps, CoinsOps, DecParser, AddressCodec, ValAddressCodec, MapRange}.
Context {W : Type} `{BankKeeper W, StakingKeeper W, EpochsKeeper W, DistributionKeeper W,
                     FeegrantKeeper W, AcpKeeper W} {HAL : AddressLaws W}.
Implicit Types (s : TierState W) (d v a did : bytes) (amt : Z) (ctx : Ctx).
Abbreviation TM := (M (TierState W)).

(** The subscriptions and the totals of two states agree. *)
Definition same_grants s s' : Prop :=
  st_subscriptions s' = st_subscriptions s /\ st_dev_granted s' = st_dev_granted s.

Lemma run_same_grants {A} (m : TM A) s x s' :
  (forall P, preserves (on_subscriptions P) m) -> m s = (Ok x, s') -> same_grants s s'.
Proof.
  intros Hm Hrun. exact (preserves_ok _ m s x s'
    (Hm (fun m g => m = st_subscriptions s /\ g = st_dev_granted s)) (conj eq_refl eq_refl) Hrun).
Qed.

Lemma granted_inv_same s s' : granted_inv s -> same_grants s s' -> granted_inv s'.
Proof. intros [Hk Hn Hs] [E1 E2]. split; [by rewrite E1|by rewrite E1|]. unfold granted_total. by rewrite E1, E2. Qed.

(** Writing one subscription and its developer's total together. *)
Lemma granted_inv_write a did u s s' t :
  granted_inv s -> addr20 a -> sub_Developer u = a -> sub_UserDid u = did -> 0 <= CreditAmount u ->
  st_subscriptions s' = <[UserSubscriptionKey a did := u]> (st_subscriptions s) ->
  (forall b, granted_total s' b = if decide (b = a) then t else granted_total s b) ->
  t = granted_total s a - from_option CreditAmount 0 (st_subscriptions s !! UserSubscriptionKey a did)
      + CreditAmount u ->
  granted_inv s'.
Proof.
  intros [Hk Hn Hs] Ha Hd Hu Hu0 Es Et Ht. split.
  - intros k x. rewrite Es. intros [[<- <-]|[_ Hx]]%lookup_insert_Some; [by subst|by apply Hk].
  - intros k x. rewrite Es. intros [[<- <-]|[_ Hx]]%lookup_insert_Some; [done|by eapply Hn].
  - intros b. rewrite Et, Es. unfold granted_by in *.
    destruct (st_subscriptions s !! UserSubscriptionKey a did) as [u0|] eqn:E; simpl in Ht.
    + rewrite (map_sum_insert _ _ _ _ u0 E), <- Hs. destruct (Hk _ _ E) as [Ha0 Hk0].
      destruct (UserSubscriptionKey_inj _ _ _ _ Ha Ha0 Hk0) as [Hd0 _].
      rewrite Hd, <- Hd0. destruct (decide (b = a)) as [->|Hne].
      * rewrite !decide_True by done. lia.
      * rewrite !decide_False by done. lia.
    + rewrite map_sum_insert_new, <- Hs by done. rewrite Hd. destruct (decide (b = a)) as [->|Hne].
      * rewrite !decide_True by done. lia.
      * rewrite !decide_False by done. lia.
Qed.

Lemma granted_inv_delete a did u s s' t :
  granted_inv s -> addr20 a -> st_subscriptions s !! UserSubscriptionKey a did = Some u ->
  st_subscriptions s' = delete (UserSubscriptionKey a did) (st_subscriptions s) ->
  (forall b, granted_total s' b = if decide (b = a) then t else granted_total s b) ->
  t = granted_total s a - CreditAmount u -> granted_inv s'.
Proof.
  intros [Hk Hn Hs] Ha Hu Es Et Ht. destruct (Hk _ _ Hu) as [Ha0 Hk0].
  destruct (UserSubscriptionKey_inj _ _ _ _ Ha Ha0 Hk0) as [Hd0 _]. split.
  - intros k x. rewrite Es. intros [_ Hx]%lookup_delete_Some. by apply Hk.
  - intros k x. rewrite Es. intros [_ Hx]%lookup_delete_Some. by eapply Hn.
  - intros b. rewrite Et, Es. unfold granted_by in *. rewrite (map_sum_delete _ _ _ u Hu), <- Hs.
    rewrite <- Hd0. destruct (decide (b = a)) as [->|Hne].
    + rewrite !decide_True by done. lia.
    + rewrite !decide_False by done. lia.
Qed.

(** ** The functions *)

Definition put_granted a (t : Z) s : TierState W :=
  set_dev_granted (<[TotalDevGrantedKey a := t]> (st_dev_granted s)) s.

Lemma granted_total_put a t s b :
  granted_total (put_granted a t s) b = if decide (b = a) then t else granted_total s b.
Proof.
  unfold granted_total, put_granted. simpl. destruct (decide (b = a)) as [->|Hne].
  - by rewrite lookup_insert_eq.
  - rewrite lookup_insert_ne; [done|]. intros Heq. by apply TotalDevGrantedKey_inj in Heq.
Qed.

Lemma updateGranted_run a delta (add : bool) s :
  let t := if add then granted_total s a + delta else granted_total s a - delta in
  updateDeveloperTotalGranted a delta add s =
    if negb add && (t <? 0) then (Err ErrInvalidAmount, s)
    else if negb (is_uint64 t) then (Panic, s)
    else if negb (is_int64 t) then (Panic, put_granted a t s) else (Ok tt, put_granted a t s).
Proof.
  cbv zeta. unfold updateDeveloperTotalGranted. erewrite bind_run_ok by done.
  fold (granted_total s a). unfold throw_if, panic_if, bind, modify.
  destruct add; simpl; [|destruct (_ <? 0); [done|simpl]];
    destruct (is_uint64 _); simpl; try done; by destruct (is_int64 _).
Qed.

Lemma updateGranted_ok a delta add s s' :
  updateDeveloperTotalGranted a delta add s = (Ok tt, s') ->
  s' = put_granted a (if add then granted_total s a + delta else granted_total s a - delta) s.
Proof.
  rewrite updateGranted_run. cbv zeta. repeat destruct (_ && _) || destruct (negb _); intros; by simplify_eq.
Qed.

Lemma actingDeveloper_ok ctx a s b s' : actingDeveloper ctx a s = (Ok b, s') ->
  s' = s /\ (extracted_did ctx = [] -> b = a) /\
  (extracted_did ctx <> [] -> GetAddressFromDID (extracted_did ctx) (st_world s) = inl b).
Proof.
  unfold actingDeveloper. case_decide; unfold ret; [intros; by simplify_eq|].
  intros Hr. ok_inv Hr. unfold from_world, gets in Hrun. simplify_eq.
  destruct (GetAddressFromDID _ _); unfold of_sum, ret, throw in Hr; by simplify_eq.
Qed.

(** The subscription and the total an addition writes, under the acting
    developer's address. *)
Lemma AddUserSubscription_ok ctx a did amt p s s' :
  AddUserSubscription ctx a did amt p s = (Ok tt, s') ->
  exists b, actingDeveloper ctx a s = (Ok b, s) /\
    is_Some (st_developers s !! DeveloperKey b) /\
    st_subscriptions s !! UserSubscriptionKey b did = None /\
    st_subscriptions s' = <[UserSubscriptionKey b did :=
      mkUserSubscription b did amt (block_time ctx) p (block_time ctx)]> (st_subscriptions s) /\
    st_dev_granted s' = <[TotalDevGrantedKey b := granted_total s b + amt]> (st_dev_granted s).
Proof.
  unfold AddUserSubscription. intros Hr. ok_inv Hr. destruct (actingDeveloper_ok _ _ _ _ _ Hrun) as [-> _].
  exists a0. erewrite bind_run_ok in Hr by done.
  destruct (st_subscriptions s !! _) as [|] eqn:Es; [done|]. erewrite bind_run_ok in Hr by done.
  destruct (st_developers s !! _) as [dev|] eqn:Ed; [|done].
  ok_inv Hr. apply run_same_grants in Hrun0 as [Hs1 Hg1]; [|eauto using preserves_attempt, frame_validate].
  ok_inv Hr. apply run_same_grants in Hrun0 as [Hs2 Hg2].
  2: { intros P. unfold GetParams. preserve; auto using frame_lockAmountFor, frame_addLockupForRegistration. }
  erewrite bind_run_ok in Hr by done.
  ok_inv Hr. apply run_same_grants in Hrun0 as [Hs3 Hg3]; [|eauto using frame_coins].
  ok_inv Hr. apply run_same_grants in Hrun0 as [Hs4 Hg4]; [|eauto using frame_period].
  ok_inv Hr. apply run_same_grants in Hrun0 as [Hs5 Hg5]; [|eauto using frame_grant].
  ok_inv Hr. unfold attempt in Hrun0.
  destruct (updateDeveloperTotalGranted _ _ _ _) as [[[]|e|] s6] eqn:Eu; simplify_eq; try done.
  unfold ret in Hr. simplify_eq. apply updateGranted_ok in Eu as ->.
  cbn [put_granted st_subscriptions st_dev_granted set_dev_granted set_subscriptions] in *.
  unfold granted_total. rewrite Hs5, Hs4, Hs3, Hg5, Hg4, Hg3. simpl. rewrite Hs2, Hs1, Hg2, Hg1.
  split_and!; eauto.
Qed.

Lemma UpdateUserSubscription_ok ctx a did amt p s s' :
  UpdateUserSubscription ctx a did amt p s = (Ok tt, s') ->
  exists b u, actingDeveloper ctx a s = (Ok b, s) /\
    st_subscriptions s !! UserSubscriptionKey b did = Some u /\
    st_subscriptions s' = <[UserSubscriptionKey b did :=
      mkUserSubscription (sub_Developer u) (sub_UserDid u) amt (StartDate u) p (block_time ctx)]>
      (st_subscriptions s) /\
    forall c, granted_total s' c =
      if decide (c = b) then granted_total s b - CreditAmount u + amt else granted_total s c.
Proof.
  unfold UpdateUserSubscription. intros Hr. ok_inv Hr. destruct (actingDeveloper_ok _ _ _ _ _ Hrun) as [-> _].
  exists a0. erewrite bind_run_ok in Hr by done.
  destruct (st_subscriptions s !! _) as [u|] eqn:Es; [|done]. exists u. cbv zeta in Hr. ok_inv Hr.
  assert (Hu : st_subscriptions s0 = st_subscriptions s /\ forall c, granted_total s0 c =
    if decide (c = a0) then granted_total s a0 - CreditAmount u + amt else granted_total s c).
  { destruct (Z.ltb_spec (CreditAmount u) amt); [|destruct (Z.ltb_spec amt (CreditAmount u))].
    - destruct a1. apply updateGranted_ok in Hrun0 as ->. split; [done|]. intros c.
      rewrite granted_total_put. case_decide; [lia|done].
    - destruct a1. apply updateGranted_ok in Hrun0 as ->. split; [done|]. intros c.
      rewrite granted_total_put. case_decide; [lia|done].
    - unfold ret in Hrun0. simplify_eq. split; [done|]. intros c. case_decide; [subst; lia|done]. }
  clear Hrun0. destruct Hu as [Hu1 Hu2]. erewrite bind_run_ok in Hr by done.
  ok_inv Hr. apply run_same_grants in Hrun0 as [Hs3 Hg3]; [|eauto using frame_coins].
  ok_inv Hr. apply run_same_grants in Hrun0 as [Hs4 Hg4]; [|eauto using frame_period].
  apply run_same_grants in Hr as [Hs5 Hg5]; [|eauto using frame_grant].
  split_and!; [done|done|by rewrite Hs5, Hs4, Hs3; simpl; rewrite Hu1|].
  intros c. rewrite <- Hu2. unfold granted_total. by rewrite Hg5, Hg4, Hg3.
Qed.

Lemma RemoveUserSubscription_run ctx a did s :
  match RemoveUserSubscription ctx a did s with
  | (Ok _, s') => exists b u, actingDeveloper ctx a s = (Ok b, s) /\
      st_subscriptions s !! UserSubscriptionKey b did = Some u /\
      st_subscriptions s' = delete (UserSubscriptionKey b did) (st_subscriptions s) /\
      st_dev_granted s' = <[TotalDevGrantedKey b := granted_total s b - CreditAmount u]> (st_dev_granted s)
  | (Err _, s') => s' = s
  | (Panic, _) => True
  end.
Proof.
  unfold RemoveUserSubscription.
  assert (Hpure : forall r s', actingDeveloper ctx a s = (r, s') -> s' = s).
  { unfold actingDeveloper. intros r s'. case_decide; unfold ret; [by intros [= _ <-]|].
    unfold bind, from_world, gets, of_sum, ret, throw. destruct (GetAddressFromDID _ _); by intros [= _ <-]. }
  unfold bind at 1. destruct (actingDeveloper ctx a s) as [[b|e|] s1] eqn:Ea;
    rewrite (Hpure _ _ eq_refl) in *; [|done|done].
  erewrite bind_run_ok by done.
  destruct (st_subscriptions s !! _) as [u|] eqn:Es; [|done].
  unfold bind at 1. destruct (updateDeveloperTotalGranted b (CreditAmount u) false s) as [[[]|e|] s2] eqn:Eu;
    [| |done].
  - apply updateGranted_ok in Eu as ->. erewrite bind_run_ok by done. unfold bind, attempt.
    set (s3 := set_subscriptions _ _).
    destruct (on_world (fk_ExpireDIDAllowance ctx b did) s3) as [r s4] eqn:Ew.
    assert (Hw : match r with Panic => True | _ => same_grants s3 s4 end).
    { pose proof (frame_world (fun m g => m = st_subscriptions s3 /\ g = st_dev_granted s3)
        (fk_ExpireDIDAllowance ctx b did) s3 (conj eq_refl eq_refl)) as Hf. rewrite Ew in Hf. by destruct r. }
    destruct r; [| |done]; destruct Hw as [Hw1 Hw2]; exists b, u; by rewrite Hw1, Hw2.
  - rewrite updateGranted_run in Eu. cbv zeta in Eu. cbn [negb andb] in Eu.
    destruct (_ <? 0); [by simplify_eq|]. repeat destruct (negb _); simplify_eq.
Qed.

Lemma RemoveUserSubscription_granted ctx a did : addr20 a ->
  preserves granted_inv (RemoveUserSubscription ctx a did).
Proof.
  intros Ha s Hg. pose proof (RemoveUserSubscription_run ctx a did s) as Hr.
  destruct (RemoveUserSubscription ctx a did s) as [[[]|e|] s']; [|by subst|done].
  destruct Hr as (b & u & Hb & Hu & Hs & Ht). assert (Hb20 : addr20 b) by by eapply actingDeveloper_returns.
  eapply (granted_inv_delete b did u s); [done..| |done].
  intros c. rewrite <- granted_total_put. unfold granted_total. by rewrite Ht.
Qed.

Lemma RemoveDeveloper_granted ctx a s s' :
  granted_inv s -> RemoveDeveloper ctx a s = (Ok tt, s') -> granted_inv s'.
Proof.
  intros Hg Hr. refine (preserves_ok granted_inv (RemoveDeveloper ctx a) s tt s' _ Hg Hr).
  unfold RemoveDeveloper, GetDeveloper.
  apply preserves_bind; [apply preserves_gets|intros [dev|]; [|apply preserves_throw]].
  eapply (preserves_bind_returns _ (Forall (fun du : bytes * bytes => addr20 du.1))).
  - unfold mustIterateUserSubscriptionsForDeveloper, iterate. preserve.
  - unfold mustIterateUserSubscriptionsForDeveloper. eapply returns_bind; [apply returns_any|intros items _].
    apply returns_foldM; [constructor|]. intros acc [k u] Hacc. simpl.
    eapply (returns_bind (fun du : bytes * bytes => addr20 du.1)).
    + intros s1 [d x] s2 Hk. unfold of_outcome in Hk. simplify_eq. by eapply parse_UserSubscriptionKey_addr.
    + intros [d x] Hd. apply returns_ret, Forall_app. auto.
  - intros l Hl. apply preserves_bind; [|intros _; apply preserves_modify; intros s1 [? ? ?]; by split].
    induction Hl as [|[d x] l Hd Hl IH]; [apply preserves_ret|]. simpl.
    apply preserves_bind; [|intros _; exact IH].
    apply preserves_bind; [|intros; apply preserves_ret].
    by apply preserves_attempt, RemoveUserSubscription_granted.
Qed.

Lemma run_tier_op_granted op s s' :
  granted_inv s -> tier_op_ok op s -> run_tier_op op s = (Ok tt, s') -> granted_inv s'.
Proof.
  intros Hg Hok Hrun.
  assert (Hframe : (forall P, preserves (on_subscriptions P) (run_tier_op op)) -> granted_inv s').
  { intros Hf. eapply granted_inv_same; [done|by eapply run_same_grants]. }
  destruct op; simpl in Hok, Hrun;
    try (apply Hframe; intros P; simpl; unfold msg_UpdateParams, SetParams; preserve;
      eauto using frame_Lock, frame_LockAuto, frame_Unlock, frame_Redelegate, frame_CancelUnlocking,
        frame_handleSlashEvent, frame_processRewards, hook_preserves;
      first [apply frame_developer|apply hook_preserves, frame_hooks|apply preserves_modify; done]; fail).
  - by eapply RemoveDeveloper_granted.
  - destruct Hok as [Ha Hamt]. apply AddUserSubscription_ok in Hrun as (b & Hb & _ & Hn & Hs & Ht).
    assert (Hb20 : addr20 b) by by eapply actingDeveloper_returns.
    eapply (granted_inv_write b did _ s); [done|done|..|exact Hs| |]; [done|done|done| |].
    + intros c. rewrite <- granted_total_put. unfold granted_total at 1. rewrite Ht. reflexivity.
    + rewrite Hn. simpl. lia.
  - destruct Hok as [Ha Hamt]. apply UpdateUserSubscription_ok in Hrun as (b & u & Hb & Hu & Hs & Ht).
    assert (Hb20 : addr20 b) by by eapply actingDeveloper_returns.
    destruct (granted_keys s Hg _ _ Hu) as [Hd Hk].
    destruct (UserSubscriptionKey_inj _ _ _ _ Hb20 Hd Hk) as [-> ->].
    eapply (granted_inv_write _ _ _ s); [done|done|..|exact Hs|exact Ht|]; [done|done|done|].
    rewrite Hu. simpl. lia.
  - exact (preserves_ok _ _ _ _ _ (RemoveUserSubscription_granted ctx a did Hok) Hg Hrun).
Qed.

Lemma tier_reachable_granted s : tier_reachable s -> granted_inv s.
Proof.
  induction 1; [|by eapply run_tier_op_granted]. split; [done|done|]. intros a. unfold granted_total, granted_by.
  simpl. by rewrite map_sum_empty.
Qed.

(** In every state the module reaches, the stored total of what a developer
    has granted is the sum of the credit amounts of its subscriptions. *)
Theorem granted_total_is_sum s a : tier_reachable s ->
  granted_total s a = granted_by a (st_subscriptions s).
Proof. intros Hs. exact (granted_sum s (tier_reachable_granted s Hs) a). Qed.
End granted.

(** * A run *)

Definition demo_developer : tier_op (W := World) := OpCreateDeveloper alice true.
Definition demo_subscribe : tier_op (W := World) :=
  OpAddUserSubscription (at_time (day / 2) 11) alice (lit "did:key:user") 50 3600.
Definition demo_ops : list (tier_op (W := World)) := [demo_params; demo_lock; demo_developer; demo_subscribe].

Lemma demo_subscribed_reachable : tier_reachable (demo_after demo_ops).
Proof.
  refine (tier_reachable_run (demo_after [demo_params; demo_lock; demo_developer]) demo_subscribe _ _ _);
    [|split; [reflexivity|lia]|vm_compute; reflexivity].
  refine (tier_reachable_run (demo_after [demo_params; demo_lock]) demo_developer _ _ _);
    [|vm_compute; reflexivity|vm_compute; reflexivity].
  apply demo_locked_reachable.
Qed.

Lemma granted_total_is_sum_witness :
  granted_total (demo_after demo_ops) alice = 50 /\
  granted_by alice (st_subscriptions (demo_after demo_ops)) = 50.
Proof.
  pose proof (granted_total_is_sum (demo_after demo_ops) alice demo_subscribed_reachable) as Hg.
  assert (H50 : granted_total (demo_after demo_ops) alice = 50) by (vm_compute; reflexivity).
  exact (conj H50 (eq_trans (eq_sym Hg) H50)).
Defined.
