(* ===== verification/TierEpoch.v ===== *)
(** The start of an epoch: credits are burned and granted anew
    (src/x/tier/keeper/credit.go, epoch_hook.go).

    It goes through exactly if every delegator earns something and the total fits 64
    bits. Then every delegator ends up with exactly the credit its lockups earn, in
    whatever order the map of delegators is ranged over, and nobody else's
    balance moves; otherwise the hook runner drops all of it. *)
From Stdlib Require Import Ascii ZArith Lia.
From stdpp Require Import base numbers list gmap strings.
From S2P Require Import Prelude Sdk Epochs FeeAllowance TierTypes TierCredit TierState TierKeeper TierModule TierWorld TierInv TierReach.

(** What the lockup [l] under key [k] counts for, insurance included. *)
Definition counted {W} (s : TierState W) (k : bytes) (l : Lockup) : Z :=
  Amount l + from_option Amount 0 (st_insurance s !! k).

(** The stake a delegator earns credits on. *)
Definition locked_of {W} (s : TierState W) (x : bytes) : Z :=
  map_sum (fun k l => if decide (DelegatorAddress l = x) then counted s k l else 0) (st_lockups s).

Definition delegators {W} (s : TierState W) : gset bytes :=
  list_to_set ((fun kl : bytes * Lockup => DelegatorAddress kl.2) <$> map_to_list (st_lockups s)).

Definition credit_of `{LegacyDecOps} {W} (s : TierState W) (x : bytes) : Z :=
  calculateCredit (RewardRates (default Params_zero (st_params s))) 0 (locked_of s x).

Definition total_credit `{LegacyDecOps} {W} (s : TierState W) : Z := Zsum (credit_of s <$> elements (delegators s)).

Lemma elem_of_delegators {W} (s : TierState W) x :
  x ∈ delegators s <-> exists k l, st_lockups s !! k = Some l /\ DelegatorAddress l = x.
Proof.
  unfold delegators. rewrite elem_of_list_to_set, list_elem_of_fmap. split.
  - intros ([k l] & -> & Hin). apply elem_of_map_to_list in Hin. eauto.
  - intros (k & l & Hk & <-). exists (k, l). by rewrite elem_of_map_to_list.
Qed.

Lemma coins_amount_same (d : string) (amt : Z) : coins_amount d [mkCoin d amt] = amt.
Proof. unfold coins_amount. simpl. rewrite decide_True by done. lia. Qed.

Lemma coins_amount_other (d d' : string) (amt : Z) : d <> d' -> coins_amount d [mkCoin d' amt] = 0.
Proof. intros Hne. unfold coins_amount. simpl. by rewrite decide_False by done. Qed.

Lemma set_world_id {W} (s : TierState W) : set_world (st_world s) s = s.
Proof. by destruct s. Qed.

Section epoch.
Context `{LegacyDecOps, CoinsOps, DecParser, AddressCodec, ValAddressCodec, MapRange}.
Context {W : Type} `{BankKeeper W, StakingKeeper W, EpochsKeeper W, DistributionKeeper W,
                     FeegrantKeeper W, AcpKeeper W}.
Implicit Types (s : TierState W) (d v x : bytes) (amt : Z) (ctx : Ctx).
Abbreviation TM := (M (TierState W)).
Abbreviation credits x w := (GetBalance x MicroCreditDenom w).

(** An iteration over well-formed lockups hands out the records' own addresses. *)
Lemma mustIterateLockups_run {B} (cb : B -> bytes -> bytes -> Lockup -> TM B) acc s :
  tier_inv s ->
  mustIterateLockups cb acc s
  = foldM (fun acc kl => cb acc (DelegatorAddress kl.2) (ValidatorAddress kl.2) kl.2) acc
      (store_items (st_lockups s)) s.
Proof.
  intros Hi. unfold mustIterateLockups. erewrite bind_run_ok by done. apply foldM_ext.
  intros b [k l] s' Hk. apply elem_of_store_items in Hk. destruct (inv_lockups s Hi k l Hk) as [(Hd & Hv & ->) _].
  cbn [fst snd]. unfold of_outcome, bind. by rewrite parse_LockupKey by done.
Qed.

(** ** Burning *)

Context {HBL : BankLaws W} {HBP : BankProgress W}.

(** The balances of [w'] are those of [w] plus [f]. *)
Definition shifted (f : bytes -> Z) (w w' : W) : Prop :=
  (forall x, credits x w' = credits x w + f x) /\
  (forall x den, den <> MicroCreditDenom -> GetBalance x den w' = GetBalance x den w).

Lemma burnCallback_run d s : exists w',
  burnCallback None d s = (Ok None, set_world w' s) /\
  shifted (fun x => if decide (x = d) then - credits d (st_world s) else 0) (st_world s) w'.
Proof.
  unfold burnCallback. erewrite bind_run_ok by done. cbv beta.
  pose proof (GetBalance_nonneg d MicroCreditDenom (st_world s)) as Hnn.
  destruct (Z.leb_spec (credits d (st_world s)) 0) as [Hz|Hpos].
  { exists (st_world s). split; [by rewrite set_world_id|]. split; [|done]. intros x. case_decide; [subst|]; lia. }
  set (b := credits d (st_world s)) in *. unfold NewCoins1. destruct (Z.ltb_spec b 0); [lia|].
  destruct (Z.eqb_spec b 0); [lia|]. erewrite bind_run_ok by done.
  destruct (SendToModule_progress d ModuleName MicroCreditDenom b (st_world s)) as [w1 Hw1]; [lia|].
  pose proof (SendToModule_moves _ _ _ _ _ Hw1) as Hmv.
  erewrite attempt_run_ok; [|unfold on_world, lift; simpl; by rewrite Hw1].
  destruct (BurnCoins_progress MicroCreditDenom b w1) as [w2 Hw2].
  { rewrite Hmv, coins_amount_same. split; [lia|].
    pose proof (GetBalance_nonneg (NewModuleAddress ModuleName) MicroCreditDenom (st_world s)).
    rewrite (decide_True (P := _ = NewModuleAddress _)) by done. case_decide as Hmod; [rewrite Hmod; fold b|]; lia. }
  pose proof (BurnCoins_takes _ _ _ _ Hw2) as Hburn.
  erewrite attempt_run_ok; [|unfold on_world, lift; simpl; by rewrite Hw2].
  exists w2. split; [by destruct s|]. split.
  - intros x. rewrite Hburn, Hmv, coins_amount_same. repeat case_decide; lia.
  - intros x d' Hd'. rewrite Hburn, Hmv, coins_amount_other by done. repeat case_decide; lia.
Qed.

Lemma burn_loop (ds : list (bytes * Lockup)) : forall s, exists w',
  foldM (fun acc kl => burnCallback acc (DelegatorAddress kl.2)) None ds s = (Ok None, set_world w' s) /\
  shifted (fun x => if decide (x ∈ DelegatorAddress ∘ snd <$> ds) then - credits x (st_world s) else 0)
    (st_world s) w'.
Proof.
  induction ds as [|[k l] ds IH]; intros s.
  - exists (st_world s). split; [by rewrite set_world_id|]. split; [|done]. intros x. simpl. lia.
  - destruct (burnCallback_run (DelegatorAddress l) s) as (w1 & Hrun & Hb1 & Hb2).
    destruct (IH (set_world w1 s)) as (w2 & Hrun2 & Hc1 & Hc2). exists w2. cbn [foldM].
    erewrite bind_run_ok by exact Hrun. split; [exact Hrun2|]. split.
    + intros x. rewrite Hc1. cbn [st_world set_world] in *. rewrite Hb1. rewrite fmap_cons. cbn [compose snd].
      destruct (decide (x = DelegatorAddress l)) as [->|Hne].
      * rewrite (decide_True (P := _ ∈ _ :: _)) by left. case_decide; lia.
      * destruct (decide (x ∈ _ <$> ds)) as [Hin|Hin].
        -- rewrite (decide_True (P := _ ∈ _ :: _)) by (by right). lia.
        -- rewrite (decide_False (P := _ ∈ _ :: _)) by (rewrite elem_of_cons; tauto). lia.
    + intros x den Hden. rewrite Hc2 by done. by apply Hb2.
Qed.

Lemma store_delegators s x :
  x ∈ DelegatorAddress ∘ snd <$> store_items (st_lockups s) <-> x ∈ delegators s.
Proof.
  unfold delegators. rewrite elem_of_list_to_set, store_items_perm. done.
Qed.

Lemma burnAllCredits_run s : tier_inv s -> exists w',
  burnAllCredits s = (Ok tt, set_total_credits (Some 0) (set_world w' s)) /\
  shifted (fun x => if decide (x ∈ delegators s) then - credits x (st_world s) else 0) (st_world s) w'.
Proof.
  intros Hi. unfold burnAllCredits. destruct (burn_loop (store_items (st_lockups s)) s) as (w & Hrun & Hb1 & Hb2).
  exists w. erewrite bind_run_ok by (rewrite mustIterateLockups_run by done; exact Hrun).
  split; [done|]. split; [|exact Hb2]. intros x. rewrite Hb1. f_equal.
  apply decide_ext, store_delegators.
Qed.

(** ** Collecting *)

Definition collect_step s (m : gmap bytes Z) (kl : bytes * Lockup) : gmap bytes Z :=
  <[DelegatorAddress kl.2 := default 0 (m !! DelegatorAddress kl.2) + counted s kl.1 kl.2]> m.

Lemma collect_lookup s (items : list (bytes * Lockup)) x : forall m,
  foldl (collect_step s) m items !! x =
    if decide (x ∈ DelegatorAddress ∘ snd <$> items)
    then Some (default 0 (m !! x)
      + Zsum ((fun kl => if decide (DelegatorAddress kl.2 = x) then counted s kl.1 kl.2 else 0) <$> items))
    else m !! x.
Proof.
  induction items as [|[k l] items IH]; intros m; [done|].
  rewrite !fmap_cons, Zsum_cons. simpl. rewrite IH. unfold collect_step. cbn [fst snd].
  destruct (decide (DelegatorAddress l = x)) as [<-|Hne].
  - rewrite (decide_True (P := _ ∈ _ :: _)) by left. rewrite lookup_insert_eq. simpl.
    case_decide as Hin; [f_equal; lia|]. f_equal.
    assert (Hz : Zsum ((fun kl => if decide (DelegatorAddress kl.2 = DelegatorAddress l) then counted s kl.1 kl.2 else 0)
      <$> items) = 0); [|lia]. clear IH. induction items as [|[k' l'] items IH']; [done|].
    rewrite fmap_cons, Zsum_cons. cbn [fst snd]. rewrite fmap_cons, elem_of_cons in Hin. cbn [compose snd] in Hin.
    rewrite decide_False by (intros Heq; apply Hin; by left). rewrite IH'; [done|tauto].
  - rewrite lookup_insert_ne by done. destruct (decide (x ∈ _ <$> items)) as [Hin|Hin].
    + rewrite (decide_True (P := _ ∈ _ :: _)) by (by right). done.
    + rewrite (decide_False (P := _ ∈ _ :: _)); [done|]. rewrite elem_of_cons. simpl. intros [?|?]; [congruence|done].
Qed.

Lemma collectLocked_run s : tier_inv s -> exists m, collectLocked s = (Ok m, s) /\
  forall x, m !! x = if decide (x ∈ delegators s) then Some (locked_of s x) else None.
Proof.
  intros Hi. exists (foldl (collect_step s) ∅ (store_items (st_lockups s))). split.
  - unfold collectLocked. rewrite mustIterateLockups_run by done. apply foldM_pure.
    intros m [k l] Hk. apply elem_of_store_items in Hk. destruct (inv_lockups s Hi k l Hk) as [(_ & _ & Hkey) _].
    unfold getInsuranceLockupAmount, collect_step, counted, bind, gets, ret. cbn [fst snd].
    by rewrite Hkey, Z.add_assoc.
  - intros x. rewrite collect_lookup, lookup_empty. unfold locked_of. rewrite <- store_items_sum.
    by rewrite (decide_ext _ _ _ _ (store_delegators s x)).
Qed.

(** ** Minting *)

Lemma mintCredit_run d amt s : addr20 d -> receives d -> 0 < amt -> exists w',
  mintCredit d amt s = (Ok tt, set_world w' s) /\
  shifted (fun x => if decide (x = d) then amt else 0) (st_world s) w'.
Proof.
  intros Hd Hr Hpos. unfold mintCredit.
  rewrite StringToBytes_BytesToString by (unfold addr20, addressKeyLength in Hd; lia).
  erewrite bind_run_ok by done. unfold throw_if, NewCoins1.
  destruct (Z.leb_spec amt 0); [lia|]. destruct (Z.ltb_spec amt 0); [lia|]. destruct (Z.eqb_spec amt 0); [lia|].
  do 2 erewrite bind_run_ok by done.
  destruct (MintCoins_progress MicroCreditDenom amt (st_world s) Hpos) as [w1 Hw1].
  pose proof (MintCoins_adds _ _ _ _ Hw1) as Hm.
  erewrite bind_run_ok; [|unfold on_world, lift; simpl; by rewrite Hw1].
  destruct (SendToAccount_progress ModuleName d MicroCreditDenom amt w1 Hr) as [w2 Hw2].
  { rewrite Hm, coins_amount_same, decide_True by done.
    pose proof (GetBalance_nonneg (NewModuleAddress ModuleName) MicroCreditDenom (st_world s)). lia. }
  pose proof (SendToAccount_moves _ _ _ _ _ Hw2) as Hmv.
  exists w2. split; [unfold on_world, lift; simpl; rewrite Hw2; by destruct s|]. split.
  - intros x. rewrite Hmv, Hm, coins_amount_same. repeat case_decide; lia.
  - intros x d' Hd'. rewrite Hmv, Hm, coins_amount_other by done. repeat case_decide; lia.
Qed.

Abbreviation mint_body rates := (fun (totalCredit : Z) (da : bytes * Z) =>
  let credit := calculateCredit rates 0 da.2 in
  mintCredit da.1 credit ;;; ret (totalCredit + credit) : TM Z).

Lemma mint_loop rates (l : list (bytes * Z)) : forall acc s,
  Forall (fun da => addr20 da.1 /\ receives da.1 /\ 0 < calculateCredit rates 0 da.2) l ->
  exists w', foldM (mint_body rates) acc l s
    = (Ok (acc + Zsum ((fun da => calculateCredit rates 0 da.2) <$> l)), set_world w' s) /\
  shifted (fun x => Zsum ((fun da => if decide (da.1 = x) then calculateCredit rates 0 da.2 else 0) <$> l))
    (st_world s) w'.
Proof.
  induction l as [|[d c] l IH]; intros acc s Hl.
  - exists (st_world s). simpl. rewrite set_world_id, Z.add_0_r. split; [done|]. split; [|done]. intros x. simpl. lia.
  - apply Forall_cons in Hl as [(Hd & Hr & Hc) Hl]. cbn [fst snd] in *.
    destruct (mintCredit_run d (calculateCredit rates 0 c) s Hd Hr Hc) as (w1 & Hrun & Hm1 & Hm2).
    destruct (IH (acc + calculateCredit rates 0 c) (set_world w1 s) Hl) as (w2 & Hrun2 & Hn1 & Hn2).
    exists w2. cbn [foldM fst snd]. cbv zeta. split; [|split].
    + erewrite bind_run_ok; [|erewrite bind_run_ok by exact Hrun; reflexivity]. cbv beta.
      rewrite Hrun2, fmap_cons, Zsum_cons. cbn [snd]. by rewrite Z.add_assoc.
    + intros x. rewrite Hn1. cbn [st_world set_world]. rewrite Hm1, fmap_cons, Zsum_cons. cbn [fst snd].
      repeat case_decide; try congruence; lia.
    + intros x den Hden. rewrite Hn2 by done. by apply Hm2.
Qed.

(** The map ranged over has one entry per delegator. *)
Lemma locked_map_sums s (m : gmap bytes Z) (f : Z -> Z) :
  (forall x, m !! x = if decide (x ∈ delegators s) then Some (locked_of s x) else None) ->
  (forall x, Zsum ((fun da => if decide (da.1 = x) then f da.2 else 0) <$> range_map m)
     = if decide (x ∈ delegators s) then f (locked_of s x) else 0) /\
  Zsum ((fun da => f da.2) <$> range_map m) = Zsum ((fun x => f (locked_of s x)) <$> elements (delegators s)).
Proof.
  intros Hm. split.
  - intros x. rewrite range_map_perm. pose proof (map_sum_single f m x) as Hs. unfold map_sum in Hs.
    rewrite Hs, Hm. by case_decide.
  - rewrite range_map_perm.
    assert (Hp : (map_to_list m).*1 ≡ₚ elements (delegators s)).
    { apply NoDup_Permutation; [apply NoDup_fst_map_to_list|apply NoDup_elements|]. intros x.
      rewrite elem_of_elements, list_elem_of_fmap. split.
      - intros ([y c] & -> & Hin). apply elem_of_map_to_list in Hin. rewrite Hm in Hin. simpl. by case_decide.
      - intros Hx. exists (x, locked_of s x). rewrite elem_of_map_to_list, Hm. by rewrite decide_True. }
    rewrite <- Hp. rewrite <- list_fmap_compose. f_equal. apply list_fmap_ext. intros i [y c] Hi. simpl.
    apply list_elem_of_lookup_2, elem_of_map_to_list in Hi. rewrite Hm in Hi. case_decide; by simplify_eq.
Qed.

(** Every delegator earns something, and the sum fits the gauge of the total. *)
Definition earns_all s : Prop :=
  (forall x, x ∈ delegators s -> 0 < credit_of s x) /\ total_credit s <= int64_max.

Lemma total_credit_nonneg s : (forall x, x ∈ delegators s -> 0 < credit_of s x) -> 0 <= total_credit s.
Proof.
  intros Hpos. unfold total_credit. assert (Hall : Forall (fun x => 0 < credit_of s x) (elements (delegators s))).
  { apply Forall_forall. intros x Hx%elem_of_elements. by apply Hpos. }
  induction Hall as [|x l Hx _ IH]; [done|]. rewrite fmap_cons, Zsum_cons. lia.
Qed.

Lemma resetAllCredits_mints s : tier_inv s ->
  (forall x, x ∈ delegators s -> receives x /\ 0 < credit_of s x) ->
  exists w', resetAllCredits s = (if total_credit s <=? int64_max then Ok tt else Panic,
    set_total_credits (Some (total_credit s)) (set_world w' s)) /\
  shifted (fun x => if decide (x ∈ delegators s) then credit_of s x else 0) (st_world s) w'.
Proof.
  intros Hi Hpos. unfold resetAllCredits. destruct (collectLocked_run s Hi) as (m & Hm & Hlook).
  erewrite bind_run_ok by exact Hm. erewrite bind_run_ok by done.
  set (rates := RewardRates (default Params_zero (st_params s))).
  destruct (locked_map_sums s m (calculateCredit rates 0) Hlook) as [Hsum1 Hsum2].
  destruct (mint_loop rates (range_map m) 0 s) as (w & Hrun & Hs1 & Hs2).
  { rewrite range_map_perm. apply Forall_forall. intros [x c] Hin. apply elem_of_map_to_list in Hin.
    rewrite Hlook in Hin. case_decide as Hx; [|done]. simplify_eq. destruct (Hpos x Hx). cbn [fst snd].
    split; [|by split]. apply elem_of_delegators in Hx as (k & l & Hk & <-). by apply (inv_lockups s Hi) in Hk as [[? _] _]. }
  erewrite bind_run_ok by exact Hrun. exists w. rewrite Hsum2. change (Zsum _) with (total_credit s).
  rewrite Z.add_0_l. split.
  - pose proof (total_credit_nonneg s (fun x Hx => proj2 (Hpos x Hx))) as Hnn.
    unfold setTotalCreditAmount, panic_if, bind, modify. pose proof (is_int64_spec (total_credit s)) as Hint.
    unfold int64_min in Hint. destruct (Z.leb_spec (total_credit s) int64_max).
    + destruct (is_int64 (total_credit s)); [by rewrite andb_false_r|]. exfalso. assert (false = true) by (apply Hint; lia). done.
    + destruct (Z.ltb_spec 0 (total_credit s)); [|unfold int64_max in *; lia].
      destruct (is_int64 (total_credit s)); [|done]. pose proof (proj1 Hint eq_refl). lia.
  - split; [|exact Hs2]. intros x. by rewrite Hs1, Hsum1.
Qed.

Lemma resetAllCredits_run s : tier_inv s ->
  (forall x, x ∈ delegators s -> receives x /\ 0 < credit_of s x) -> total_credit s <= int64_max ->
  exists w', resetAllCredits s = (Ok tt, set_total_credits (Some (total_credit s)) (set_world w' s)) /\
  shifted (fun x => if decide (x ∈ delegators s) then credit_of s x else 0) (st_world s) w'.
Proof.
  intros Hi Hpos Htot. destruct (resetAllCredits_mints s Hi Hpos) as (w & Hrun & Hs).
  rewrite (proj2 (Z.leb_le _ _) Htot) in Hrun. eauto.
Qed.

(** Nothing is minted for less than one credit. *)
Lemma resetAllCredits_positive s s' : tier_inv s -> resetAllCredits s = (Ok tt, s') ->
  forall x, x ∈ delegators s -> 0 < credit_of s x.
Proof.
  intros Hi Hrun x Hx. unfold resetAllCredits in Hrun. destruct (collectLocked_run s) as (m & Hm & Hlook); [done|].
  erewrite bind_run_ok in Hrun by exact Hm. erewrite bind_run_ok in Hrun by done. ok_inv Hrun.
  eapply (foldM_ok_elem _ _ (x, locked_of s x)) in Hrun0 as (b1 & sa & b2 & sb & Hmint).
  2: { rewrite range_map_perm, elem_of_map_to_list, Hlook. by rewrite decide_True by exact Hx. }
  cbv zeta in Hmint. cbn [fst snd] in Hmint. ok_inv Hmint. unfold mintCredit in Hrun0. ok_inv Hrun0.
  unfold throw_if in Hrun0. change (calculateCredit _ 0 (locked_of s x)) with (credit_of s x) in Hrun0.
  destruct (Z.leb_spec (credit_of s x) 0); [done|lia].
Qed.

Lemma resetAllCredits_earns s s' : tier_inv s -> (forall x, x ∈ delegators s -> receives x) ->
  resetAllCredits s = (Ok tt, s') -> earns_all s.
Proof.
  intros Hi Hrec Hrun. pose proof (resetAllCredits_positive s s' Hi Hrun) as Hpos. split; [done|].
  destruct (resetAllCredits_mints s Hi) as (w & Hrun2 & _); [auto|]. rewrite Hrun in Hrun2.
  destruct (Z.leb_spec (total_credit s) int64_max); [done|done].
Qed.

(** C20: the start of an epoch. If the bank lets every delegator receive coins, burning
    and minting succeed exactly if every delegator earns at least one credit and the
    sum fits 64 bits. Then the credits of each delegator become exactly what its
    lockups and their insurance earn, whatever it had left and whatever the order of
    the Go map; the stored total is the sum; every other account keeps its credits,
    one that has unlocked everything included, and every account its coins of
    other denominations. *)
Theorem epoch_credits_exact s :
  tier_inv s -> (forall x, x ∈ delegators s -> receives x) ->
  exists r s', (burnAllCredits ;;; resetAllCredits) s = (r, s') /\ (r = Ok tt <-> earns_all s) /\
  (r = Ok tt -> exists w', s' = set_total_credits (Some (total_credit s)) (set_world w' s) /\
    (forall x, credits x w' = if decide (x ∈ delegators s) then credit_of s x else credits x (st_world s)) /\
    (forall x den, den <> MicroCreditDenom -> GetBalance x den w' = GetBalance x den (st_world s))).
Proof.
  intros Hi Hrec. destruct (burnAllCredits_run s Hi) as (w1 & Hrun1 & Hb1 & Hb2).
  set (s1 := set_total_credits (Some 0) (set_world w1 s)) in *.
  assert (Hi1 : tier_inv s1) by by apply tier_inv_credits, tier_inv_world.
  destruct (resetAllCredits s1) as [r s'] eqn:Er. exists r, s'. split; [by erewrite bind_run_ok by exact Hrun1|].
  assert (Hearn : r = Ok tt -> earns_all s) by (intros ->; exact (resetAllCredits_earns s1 s' Hi1 Hrec Er)).
  assert (Hmint : earns_all s -> r = Ok tt /\ exists w', s' = set_total_credits (Some (total_credit s)) (set_world w' s) /\
      shifted (fun x => if decide (x ∈ delegators s) then credit_of s x else 0) w1 w').
  { intros [Hp Ht]. destruct (resetAllCredits_run s1 Hi1 (fun x Hx => conj (Hrec x Hx) (Hp x Hx)) Ht) as (w2 & Hrun2 & Hr).
    rewrite Er in Hrun2. injection Hrun2 as -> ->. split; [done|]. exists w2. split; [by destruct s|exact Hr]. }
  split; [split; [done|by intros [? _]%Hmint]|].
  intros Hr. destruct (Hmint (Hearn Hr)) as (_ & w2 & -> & Hr1 & Hr2). exists w2. split; [done|]. split.
  - intros x. rewrite Hr1, Hb1. case_decide; lia.
  - intros x den Hden. by rewrite Hr2, Hb2.
Qed.

(** ** A delegator that earns nothing *)

(** Only the world and the total of credits differ. *)
Definition credit_step s s' : Prop := exists w c, s' = set_total_credits c (set_world w s).

Lemma burnAllCredits_step s s' : burnAllCredits s = (Ok tt, s') -> credit_step s s'.
Proof.
  assert (Hp : preserves (credit_step s) burnAllCredits).
  { assert (Hw : forall A (m : M W A), preserves (credit_step s) (on_world m)).
    { intros A m s0 (w & c & ->). unfold on_world, lift. simpl.
      destruct (m w) as [[a|e|] w']; simpl; [exists w', c; done|exists w', c; done|done]. }
    assert (Hn : forall den amt, preserves (credit_step s) (NewCoins1 den amt)).
    { intros. unfold NewCoins1. preserve. }
    unfold burnAllCredits, mustIterateLockups, burnCallback, setTotalCreditAmount, from_world, iterate. preserve;
      auto; apply preserves_modify; intros s0 (w & c & ->); by exists w, (Some 0). }
  intros Hr. refine (preserves_ok _ _ s tt s' Hp _ Hr). exists (st_world s), (st_total_credits s). by destruct s.
Qed.

(** One delegator whose lockups earn no credit stops the epoch for everyone:
    minting nothing is an error, so the hook fails, and the hook runner drops all
    it did, the burning included. *)
Theorem zero_credit_stops_epoch ctx n s x :
  tier_inv s -> x ∈ delegators s -> credit_of s x <= 0 ->
  panicCatchingEpochHook (hook_BeforeEpochStart tierEpochHooks ctx EpochIdentifier n) s = (Ok tt, s).
Proof.
  intros Hi Hx Hc.
  assert (Hno : forall s', BeforeEpochStart ctx EpochIdentifier n s <> (Ok tt, s')).
  { intros s' Hr. unfold BeforeEpochStart in Hr. rewrite bool_decide_true in Hr by done. cbn [negb] in Hr.
    ok_inv Hr. destruct a. apply burnAllCredits_step in Hrun as (w & c & ->). ok_inv Hr. clear Hr.
    assert (Hi1 : tier_inv (set_total_credits c (set_world w s))) by by apply tier_inv_credits, tier_inv_world.
    destruct a. pose proof (resetAllCredits_positive _ _ Hi1 Hrun x Hx : 0 < credit_of s x). lia. }
  unfold panicCatchingEpochHook, applyFunc, attempt, bind. cbn [hook_BeforeEpochStart tierEpochHooks].
  destruct (BeforeEpochStart ctx EpochIdentifier n s) as [[[]|e|] s'] eqn:E; [|done|done]. by destruct (Hno s').
Qed.
End epoch.

(** Alice locked 200 in the middle of the first epoch, for 105 credits; the next
    epoch gives the full 210. *)
Lemma epoch_credits_exact_witness :
  exists w', (burnAllCredits ;;; resetAllCredits) (demo_after [demo_params; demo_lock])
    = (Ok tt, set_total_credits (Some 210) (set_world w' (demo_after [demo_params; demo_lock]))) /\
  GetBalance alice MicroCreditDenom w' = 210 /\
  GetBalance alice MicroCreditDenom (st_world (demo_after [demo_params; demo_lock])) = 105.
Proof.
  set (s := demo_after [demo_params; demo_lock]).
  assert (He : elements (delegators s) = [alice]) by (vm_compute; reflexivity).
  assert (Hd : forall x, x ∈ delegators s <-> x = alice).
  { intros x. rewrite <- elem_of_elements, He. apply list_elem_of_singleton. }
  assert (Hc : credit_of s alice = 210) by (vm_compute; reflexivity).
  assert (Ht : total_credit s = 210) by (vm_compute; reflexivity).
  assert (Hb : GetBalance alice MicroCreditDenom (st_world s) = 105) by (vm_compute; reflexivity).
  destruct (epoch_credits_exact s) as (r & s' & Hrun & Hok & Hexact).
  - exact (tier_reachable_inv s demo_locked_reachable).
  - intros x _. exact I.
  - assert (Hr : r = Ok tt).
    { apply Hok. split; [intros x Hx; apply Hd in Hx as ->; rewrite Hc; lia|]. rewrite Ht. unfold int64_max. lia. }
    destruct (Hexact Hr) as (w & -> & Hbal & _). exists w. rewrite Hr, Ht in Hrun. specialize (Hbal alice).
    rewrite decide_True in Hbal by (by apply Hd). rewrite Hc in Hbal. exact (conj Hrun (conj Hbal Hb)).
Defined.

(** One unit locked at half a credit per unit. *)
Definition dust_params : Params := mkParams (Some day) 2 2 1 100 10 [mkRate 0 50].
Definition dust_state : TierState World :=
  put_lockup alice val1 1 1 (set_params (Some dust_params) (empty_tier demo_world)).

Lemma zero_credit_stops_epoch_witness :
  panicCatchingEpochHook (hook_BeforeEpochStart tierEpochHooks (at_time day 9) EpochIdentifier 2) dust_state
  = (Ok tt, dust_state).
Proof.
  refine (zero_credit_stops_epoch (at_time day 9) 2 dust_state alice _ _ _).
  - apply put_lockup_inv; [apply tier_inv_params, empty_tier_inv|reflexivity|reflexivity|lia|vm_compute; reflexivity].
  - apply elem_of_elements. vm_compute. left.
  - vm_compute. discriminate.
Defined.
