(* ===== verification/TierLock.v ===== *)
(** What locking does to the records (src/x/tier/keeper/keeper.go).

    A lock adds its amount to the lockup and the totals and is paid the prorated
    credit on top of everything its delegator has locked. *)
From Stdlib Require Import Ascii ZArith Lia.
From stdpp Require Import base numbers list gmap strings.
From S2P Require Import Prelude Sdk Epochs FeeAllowance TierTypes TierCredit TierState TierKeeper TierModule TierWorld TierInv TierReach TierEpoch.

(** * Sums over two maps *)

(** Summing one map over the keys of another. *)
Lemma map_sum_lookup {V} (g : V -> Z) (m2 : gmap bytes V) {V1} (m1 : gmap bytes V1) :
  map_sum (fun k _ => from_option g 0 (m2 !! k)) m1
  = map_sum (fun k x => if decide (is_Some (m1 !! k)) then g x else 0) m2.
Proof.
  induction m2 as [|k x m2 Hk IH] using map_ind.
  - rewrite map_sum_empty. apply map_sum_zero. intros k v _. by rewrite lookup_empty.
  - rewrite map_sum_insert_new by done. rewrite <- IH.
    destruct (decide (is_Some (m1 !! k))) as [[v Hv]|Hn].
    + pose proof (map_sum_delete (fun k' _ => from_option g 0 (<[k:=x]> m2 !! k')) m1 k v Hv) as H1.
      pose proof (map_sum_delete (fun k' _ => from_option g 0 (m2 !! k')) m1 k v Hv) as H2. cbv beta in H1, H2.
      rewrite lookup_insert_eq in H1. rewrite Hk in H2. simpl in H1, H2.
      rewrite (map_sum_ext _ (fun k' _ => from_option g 0 (m2 !! k'))) in H1; [lia|].
      intros k' v' [Hne _]%lookup_delete_Some. by rewrite lookup_insert_ne.
    + rewrite Z.add_0_l. apply map_sum_ext. intros k' v' Hk'. rewrite lookup_insert_ne; [done|].
      intros ->. apply Hn. eauto.
Qed.

Lemma map_sum_add {K} `{Countable K} {V} (f g : K -> V -> Z) (m : gmap K V) :
  map_sum (fun k v => f k v + g k v) m = map_sum f m + map_sum g m.
Proof.
  unfold map_sum. induction (map_to_list m) as [|kv l IH]; [done|].
  rewrite !fmap_cons, !Zsum_cons, IH. lia.
Qed.

Section lock.
Context `{LegacyDecOps, CoinsOps, DecParser, AddressCodec, ValAddressCodec, MapRange}.
Context {W : Type} `{BankKeeper W, StakingKeeper W, EpochsKeeper W, DistributionKeeper W,
                     FeegrantKeeper W, AcpKeeper W}.
Implicit Types (s : TierState W) (d v x : bytes) (amt : Z) (ctx : Ctx).
Abbreviation TM := (M (TierState W)).

(** ** The stake a lock is stacked on *)

Lemma mustIterateInsurance_run {B} (cb : B -> bytes -> bytes -> Lockup -> TM B) acc s :
  tier_inv s ->
  mustIterateInsuranceLockups cb acc s
  = foldM (fun acc kl => cb acc (DelegatorAddress kl.2) (ValidatorAddress kl.2) kl.2) acc
      (store_items (st_insurance s)) s.
Proof.
  intros Hi. unfold mustIterateInsuranceLockups. erewrite bind_run_ok by done. apply foldM_ext.
  intros b [k l] s' Hk. apply elem_of_store_items in Hk. destruct (inv_insurance s Hi k l Hk) as [(Hd & Hv & ->) _].
  cbn [fst snd]. unfold of_outcome, bind. by rewrite parse_LockupKey by done.
Qed.

Definition amount_by d (m : gmap bytes Lockup) : Z :=
  map_sum (fun _ l => if decide (DelegatorAddress l = d) then Amount l else 0) m.

Lemma sum_loop d (m : gmap bytes Lockup) s :
  foldM (fun amount kl => ret (if decide (DelegatorAddress kl.2 = d) then amount + Amount kl.2 else amount) : TM Z)
    0 (store_items m) s = (Ok (amount_by d m), s).
Proof.
  erewrite (foldM_pure _ (fun acc kl => acc + if decide (DelegatorAddress kl.2 = d) then Amount kl.2 else 0)).
  - rewrite foldl_Zsum, Z.add_0_l. unfold amount_by. by rewrite <- store_items_sum.
  - intros b kl _. unfold ret. case_decide; [done|]. by rewrite Z.add_0_r.
Qed.

(** Locking and the epochs agree on what a delegator has locked. *)
Lemma locked_of_split s d : tier_inv s ->
  amount_by d (st_lockups s) + amount_by d (st_insurance s) = locked_of s d.
Proof.
  intros Hi. unfold locked_of, counted.
  rewrite (map_sum_ext _ (fun k l => (if decide (DelegatorAddress l = d) then Amount l else 0)
    + from_option (fun l' => if decide (DelegatorAddress l' = d) then Amount l' else 0) 0 (st_insurance s !! k)));
    [rewrite map_sum_add, map_sum_lookup; unfold amount_by; f_equal; apply map_sum_ext|].
  - intros k l Hk. destruct (inv_insurance s Hi k l Hk) as (_ & Hnn & Hex).
    destruct (decide (is_Some (st_lockups s !! k))) as [|Hno]; [done|].
    assert (~ 0 < Amount l) by (intros ?; by apply Hno, Hex). case_decide; lia.
  - intros k l Hk. destruct (st_insurance s !! k) as [l'|] eqn:E; simpl; [|case_decide; lia].
    destruct (inv_lockups s Hi k l Hk) as [(Hd1 & Hv1 & Hk1) _].
    destruct (inv_insurance s Hi k l' E) as [(Hd2 & Hv2 & Hk2) _]. rewrite Hk1 in Hk2.
    destruct (LockupKey_inj _ _ _ _ Hd1 Hv1 Hd2 Hv2 Hk2) as [-> _]. case_decide; lia.
Qed.

(** The credit a lock earns now. *)
Definition lock_credit ctx d amt s : Z :=
  let e := ek_GetEpochInfo EpochIdentifier (st_world s) in
  calculateProratedCredit (RewardRates (default Params_zero (st_params s))) (locked_of s d) amt
    (CurrentEpochStartTime e) (block_time ctx) (EpochDuration e).

Lemma proratedCredit_run ctx d amt s : tier_inv s ->
  proratedCredit ctx d amt s = (Ok (lock_credit ctx d amt s), s).
Proof.
  intros Hi. unfold proratedCredit, totalLockedAmountByAddr, totalInsuredAmountByAddr.
  do 2 erewrite bind_run_ok by done.
  erewrite bind_run_ok by (rewrite mustIterateLockups_run by done; apply sum_loop).
  erewrite bind_run_ok by (rewrite mustIterateInsurance_run by done; apply sum_loop).
  unfold lock_credit. by rewrite locked_of_split.
Qed.

(** ** Locking *)

Lemma on_world_ok {A} (m : M W A) s a s' : on_world m s = (Ok a, s') ->
  exists w, m (st_world s) = (Ok a, w) /\ s' = set_world w s.
Proof.
  unfold on_world, lift. simpl. destruct (m (st_world s)) as [[b|e|] w]; intros; simplify_eq. eauto.
Qed.

Context {HBL : BankLaws W} {HSF : StakingFrame W}.
Abbreviation credits x w := (GetBalance x MicroCreditDenom w).

Lemma mintCredit_ok d amt s s' : mintCredit d amt s = (Ok tt, s') ->
  0 < amt /\ exists w, s' = set_world w s /\
    forall x, credits x w = credits x (st_world s) + if decide (x = d) then amt else 0.
Proof.
  unfold mintCredit. intros Hr. ok_inv Hr. assert (s0 = s) as ->.
  { destruct (StringToBytes _); unfold of_sum, ret, throw in Hrun; by simplify_eq. }
  clear Hrun. unfold throw_if in Hr. destruct (Z.leb_spec amt 0); [done|].
  erewrite bind_run_ok in Hr by done. unfold NewCoins1 in Hr.
  destruct (Z.ltb_spec amt 0); [lia|]. destruct (Z.eqb_spec amt 0); [lia|].
  erewrite bind_run_ok in Hr by done. ok_inv Hr. destruct a0.
  apply on_world_ok in Hrun as (w1 & Hw1 & ->). apply on_world_ok in Hr as (w2 & Hw2 & ->).
  split; [lia|]. exists w2. split; [done|]. intros x. cbn [st_world set_world] in Hw2.
  rewrite (SendToAccount_moves _ _ _ _ _ Hw2), (MintCoins_adds _ _ _ _ Hw1), coins_amount_same.
  repeat case_decide; lia.
Qed.

(** C10: a lock that succeeds was for a positive amount and earned a positive
    credit, the prorated credit on top of everything its delegator has locked.
    It adds the amount to the lockup and to the total of lockups and the credit
    to the total of credits, pays exactly that credit to the delegator, and
    changes no other record. *)
Theorem lock_effect ctx d v amt s s' :
  tier_inv s -> d <> modAddr (W := W) -> Lock ctx d v amt s = (Ok tt, s') ->
  let c := lock_credit ctx d amt s in
  0 < amt /\ 0 < c /\ exists w',
    s' = set_total_credits (Some (nonneg_or_zero (st_total_credits s) + c))
           (put_lockup d v (amt + locked_at s d v) (lockup_sum (st_lockups s) + amt) (set_world w' s)) /\
    forall x, x <> modAddr (W := W) ->
      credits x w' = credits x (st_world s) + if decide (x = d) then c else 0.
Proof.
  intros Hi Hmod Hr. cbv zeta. unfold Lock, throw_if in Hr. destruct (Z.leb_spec amt 0); [done|].
  do 2 erewrite bind_run_ok in Hr by done. destruct (GetValidator v (st_world s)) as [val|]; [|done].
  unfold NewCoins1 in Hr. destruct (Z.ltb_spec amt 0); [lia|]. destruct (Z.eqb_spec amt 0); [lia|].
  erewrite bind_run_ok in Hr by done.
  ok_inv Hr. destruct a. apply on_world_ok in Hrun as (w1 & Hw1 & ->).
  ok_inv Hr. apply on_world_ok in Hrun as (w2 & Hw2 & ->). cbn [st_world set_world] in Hw2.
  change (set_world w2 (set_world w1 s)) with (set_world w2 s) in Hr.
  erewrite bind_run_ok in Hr by (apply proratedCredit_run; by apply tier_inv_world).
  assert (Hc : lock_credit ctx d amt (set_world w2 s) = lock_credit ctx d amt s).
  { unfold lock_credit. cbn [st_world set_world st_params].
    by rewrite (Delegate_epoch _ _ _ _ _ _ _ _ _ Hw2), (DelegateCoins_epoch _ _ _ _ _ _ Hw1). }
  rewrite Hc in Hr. ok_inv Hr. destruct a0. apply mintCredit_ok in Hrun as (Hpos & w3 & -> & Hmint).
  split; [done|]. split; [done|]. change (set_world w3 (set_world w2 s)) with (set_world w3 s) in Hr.
  ok_inv Hr. destruct a0. rewrite AddLockup_run in Hrun. cbv zeta in Hrun. destruct (is_int64 _); [|done].
  cbn [st_total_lockups set_world] in Hrun. rewrite (inv_total s Hi) in Hrun. simplify_eq.
  erewrite bind_run_ok in Hr by done. unfold setTotalCreditAmount, bind, modify, panic_if in Hr.
  destruct (_ && _); [done|]. unfold ret in Hr. simplify_eq. exists w3. split; [done|]. intros x Hx.
  rewrite Hmint. cbn [st_world set_world].
  rewrite (Delegate_others _ _ _ _ _ _ _ _ x MicroCreditDenom Hw2) by done.
  rewrite (DelegateCoins_moves _ _ _ _ _ Hw1), coins_amount_other by done. repeat case_decide; lia.
Qed.
End lock.

Lemma lock_effect_witness :
  lock_credit (at_time (day / 2) 10) alice 200 demo_state = 105 /\
  exists w', (Lock (at_time (day / 2) 10) alice val1 200 demo_state).2
    = set_total_credits (Some 105) (put_lockup alice val1 200 200 (set_world w' demo_state)).
Proof.
  assert (Hc : lock_credit (at_time (day / 2) 10) alice 200 demo_state = 105) by (vm_compute; reflexivity).
  assert (Hok : is_ok (Lock (at_time (day / 2) 10) alice val1 200 demo_state).1 = true) by (vm_compute; reflexivity).
  destruct (Lock (at_time (day / 2) 10) alice val1 200 demo_state) as [[[]|e|] s'] eqn:E; [|discriminate Hok|discriminate Hok].
  destruct (lock_effect (at_time (day / 2) 10) alice val1 200 demo_state s') as (_ & _ & w & Hs & _).
  - exact (tier_inv_params _ _ (empty_tier_inv demo_world)).
  - by vm_compute.
  - exact E.
  - rewrite Hc in Hs. split; [exact Hc|]. exists w. exact Hs.
Defined.
