(* ===== verification/TierUnlock.v ===== *)
(** What unlocking, cancelling and completing an unlock do to the records
    (src/x/tier/keeper/keeper.go).

    An unlock moves its amount from the lockup to an unlocking record, and
    cancelling it restores the lockup. Stake that insurance covers cannot be
    taken out completely, and a second unlock in the same block replaces the
    record of the first. *)
From Stdlib Require Import Ascii ZArith Lia.
From stdpp Require Import base numbers list gmap strings.
From S2P Require Import Prelude Sdk Epochs FeeAllowance TierTypes TierCredit TierState TierKeeper TierModule TierWorld TierInv TierReach TierEpoch TierLock.

Section unlock.
Context `{LegacyDecOps, CoinsOps, DecParser, AddressCodec, ValAddressCodec, MapRange}.
Context {W : Type} `{BankKeeper W, StakingKeeper W, EpochsKeeper W, DistributionKeeper W,
                     FeegrantKeeper W, AcpKeeper W}.
Implicit Types (s : TierState W) (d v x : bytes) (amt : Z) (ctx : Ctx).
Abbreviation TM := (M (TierState W)).

Lemma locked_at_put d v amt t s d' v' : addr20 d -> addr20 v -> addr20 d' -> addr20 v' ->
  locked_at (put_lockup d v amt t s) d' v' = if decide (d' = d /\ v' = v) then amt else locked_at s d' v'.
Proof.
  intros Hd Hv Hd' Hv'. unfold locked_at, put_lockup. simpl. case_decide as Heq.
  - destruct Heq as [-> ->]. by rewrite lookup_insert_eq.
  - rewrite lookup_insert_ne; [done|]. intros Hk. apply LockupKey_inj in Hk as [-> ->]; tauto.
Qed.

Lemma locked_at_del d v t s d' v' : addr20 d -> addr20 v -> addr20 d' -> addr20 v' ->
  locked_at (del_lockup d v t s) d' v' = if decide (d' = d /\ v' = v) then 0 else locked_at s d' v'.
Proof.
  intros Hd Hv Hd' Hv'. unfold locked_at, del_lockup. simpl. case_decide as Heq.
  - destruct Heq as [-> ->]. by rewrite lookup_delete_eq.
  - rewrite lookup_delete_ne; [done|]. intros Hk. apply LockupKey_inj in Hk as [-> ->]; tauto.
Qed.

(** The lockups with one of them changed by [delta], and the total with it. *)
Definition lockups_moved d v (delta : Z) s s' : Prop :=
  (forall d' v', addr20 d' -> addr20 v' ->
     locked_at s' d' v' = locked_at s d' v' + if decide (d' = d /\ v' = v) then delta else 0) /\
  nonneg_or_zero (st_total_lockups s') = nonneg_or_zero (st_total_lockups s) + delta.

Lemma lockups_moved_eq d v delta s s' s1 : lockups_moved d v delta s s1 ->
  st_lockups s' = st_lockups s1 -> st_total_lockups s' = st_total_lockups s1 -> lockups_moved d v delta s s'.
Proof. intros [Hl Ht] E1 E2. split; [intros d' v' ? ?; unfold locked_at; rewrite E1; by apply Hl|by rewrite E2]. Qed.

Lemma subtractLockup_ok d v amt s s' : tier_inv s -> addr20 d -> addr20 v -> 0 < amt ->
  subtractLockup d v amt s = (Ok tt, s') ->
  amt + insured_at s d v <= locked_at s d v /\ lockups_moved d v (- amt) s s' /\
  (s' = put_lockup d v (locked_at s d v - amt) (lockup_sum (st_lockups s) - amt) s \/
   s' = del_lockup d v (lockup_sum (st_lockups s) - amt) s /\ amt = locked_at s d v).
Proof.
  intros Hi Hd Hv Hamt. rewrite subtractLockup_run, (inv_total s Hi).
  destruct (st_lockups s !! LockupKey d v) as [l|] eqn:E; [|done].
  assert (Hl : locked_at s d v = Amount l) by (unfold locked_at; by rewrite E).
  destruct (Z.ltb_spec (Amount l) (amt + insured_at s d v)); [done|]. destruct (is_int64 _); [|done].
  intros Hr. split; [lia|].
  assert (Hsum : amt <= lockup_sum (st_lockups s)).
  { pose proof (insured_at_nonneg s d v Hi). transitivity (Amount l); [lia|].
    apply (map_sum_elem_le (fun _ l => Amount l) _ (LockupKey d v) l); [|done].
    intros k' l' Hk'. apply (inv_lockups s Hi) in Hk'. lia. }
  destruct (Z.eqb_spec amt (Amount l)); simplify_eq; (split; [split|]).
  - intros d' v' Hd' Hv'. rewrite locked_at_del by done. case_decide as Heq; [|lia]. destruct Heq as [-> ->]. lia.
  - unfold put_lockup, del_lockup. cbn [st_total_lockups set_lockups set_total_lockups].
    rewrite (inv_total s Hi), nonneg_or_zero_nonneg; lia.
  - right. auto.
  - intros d' v' Hd' Hv'. rewrite locked_at_put by done. case_decide as Heq; [|lia]. destruct Heq as [-> ->]. lia.
  - unfold put_lockup, del_lockup. cbn [st_total_lockups set_lockups set_total_lockups].
    rewrite (inv_total s Hi), nonneg_or_zero_nonneg; lia.
  - left. by rewrite Hl.
Qed.

Lemma AddLockup_ok d v amt s s' : tier_inv s -> addr20 d -> addr20 v -> 0 < amt ->
  AddLockup d v amt s = (Ok tt, s') -> lockups_moved d v amt s s' /\
  s' = put_lockup d v (amt + locked_at s d v) (lockup_sum (st_lockups s) + amt) s.
Proof.
  intros Hi Hd Hv Hamt. rewrite AddLockup_run, (inv_total s Hi). cbv zeta. destruct (is_int64 _); [|done].
  intros Hr. simplify_eq. pose proof (lockup_sum_nonneg s Hi). split; [split|done].
  - intros d' v' Hd' Hv'. rewrite locked_at_put by done. case_decide as Heq; [|lia]. destruct Heq as [-> ->]. lia.
  - unfold put_lockup, del_lockup. cbn [st_total_lockups set_lockups set_total_lockups].
    rewrite (inv_total s Hi), nonneg_or_zero_nonneg; lia.
Qed.

(** ** Unlocking *)

Definition unlock_record ctx d v amt (ct : Time) (dur : Duration) s : UnlockingLockup :=
  mkUnlockingLockup d v (block_height ctx) amt ct
    (time_add (block_time ctx) (wrap64 (dur * UnlockingEpochs (default Params_zero (st_params s))))).

Lemma Unlock_ok ctx d v amt s h ct ut s' : tier_inv s -> addr20 d -> addr20 v ->
  Unlock ctx d v amt s = (Ok (h, ct, ut), s') ->
  0 < amt /\ amt + insured_at s d v <= locked_at s d v /\ lockups_moved d v (- amt) s s' /\
  exists amt' dur, amt' <= amt /\
    param_EpochDuration (default Params_zero (st_params s)) = Some dur /\
    (h, ct, ut) = (block_height ctx, ct, ul_UnlockTime (unlock_record ctx d v amt' ct dur s)) /\
    st_unlocking s' = <[UnlockingLockupKey d v h := unlock_record ctx d v amt' ct dur s]> (st_unlocking s) /\
    st_params s' = st_params s.
Proof.
  intros Hi Hd Hv Hr. unfold Unlock in Hr. unfold throw_if at 1 in Hr. destruct (Z.leb_spec amt 0); [done|].
  erewrite bind_run_ok in Hr by done. ok_inv Hr. destruct a.
  destruct (subtractLockup_ok d v amt s s0 Hi Hd Hv ltac:(lia) Hrun) as (Hle & Hmv & Hs0). clear Hrun.
  erewrite bind_run_ok in Hr by done. ok_inv Hr. destruct a.
  assert (Hs1 : st_lockups s1 = st_lockups s0 /\ st_total_lockups s1 = st_total_lockups s0 /\
    st_unlocking s1 = st_unlocking s /\ st_params s1 = st_params s).
  { unfold when in Hrun. destruct (negb _); unfold removeInsuranceLockup, modify, ret in Hrun; simplify_eq;
      by destruct Hs0 as [->|[-> _]]. }
  clear Hrun. ok_inv Hr. apply on_world_ok in Hrun as (w2 & _ & ->).
  unfold throw_if in Hr. destruct (a <=? 0); [done|]. erewrite bind_run_ok in Hr by done.
  ok_inv Hr. destruct a0 as [ct' ret']. apply on_world_ok in Hrun as (w3 & _ & ->). cbv zeta in Hr.
  erewrite bind_run_ok in Hr by done. destruct Hs1 as (E1 & E2 & E3 & E4).
  cbn [st_params set_world] in Hr. rewrite E4 in Hr. unfold epochDuration in Hr.
  destruct (param_EpochDuration (default Params_zero (st_params s))) as [dur|] eqn:Edur; [|done].
  do 2 erewrite bind_run_ok in Hr by done. unfold ret in Hr. simplify_eq.
  split; [done|]. split; [done|]. split; [by eapply lockups_moved_eq|].
  exists (if ret' <? amt then ret' else amt), dur. split; [destruct (Z.ltb_spec ret' amt); lia|].
  split; [done|]. split; [done|]. split; [|done]. simpl. by rewrite E3.
Qed.

Lemma Unlock_height ctx d v amt s h ct ut s' :
  Unlock ctx d v amt s = (Ok (h, ct, ut), s') -> h = block_height ctx.
Proof.
  unfold Unlock. intros Hr. do 7 ok_inv Hr.
  match type of Hr with context [match ?x with pair _ _ => _ end] => destruct x end. do 3 ok_inv Hr.
  unfold ret in Hr. by simplify_eq.
Qed.

(** C11: an unlock that succeeds moves a positive amount out of the lockup and
    the total, never more than the part insurance does not cover, and writes one
    unlocking record for the block height: of at most that amount, due after the
    configured number of epochs. No other lockup changes. *)
Theorem unlock_effect ctx d v amt s h ct ut s' : tier_inv s -> addr20 d -> addr20 v ->
  Unlock ctx d v amt s = (Ok (h, ct, ut), s') ->
  0 < amt /\ amt + insured_at s d v <= locked_at s d v /\ lockups_moved d v (- amt) s s' /\
  exists amt' dur, amt' <= amt /\
    param_EpochDuration (default Params_zero (st_params s)) = Some dur /\
    (h, ct, ut) = (block_height ctx, ct, ul_UnlockTime (unlock_record ctx d v amt' ct dur s)) /\
    st_unlocking s' = <[UnlockingLockupKey d v h := unlock_record ctx d v amt' ct dur s]> (st_unlocking s) /\
    st_params s' = st_params s.
Proof. apply Unlock_ok. Qed.

(** ** Cancelling *)

Lemma subtractUnlocking_ok d v h amt s s' :
  subtractUnlockingLockup d v h amt s = (Ok tt, s') ->
  exists u, st_unlocking s !! UnlockingLockupKey d v h = Some u /\ amt <= ul_Amount u /\
    s' = set_unlocking (if amt =? ul_Amount u then delete (UnlockingLockupKey d v h) (st_unlocking s)
      else <[UnlockingLockupKey d v h := mkUnlockingLockup d v h (ul_Amount u - amt)
              (ul_CompletionTime u) (ul_UnlockTime u)]> (st_unlocking s)) s.
Proof.
  unfold subtractUnlockingLockup. erewrite bind_run_ok by done.
  destruct (st_unlocking s !! _) as [u|]; [|done]. unfold throw_if.
  destruct (Z.ltb_spec (ul_Amount u) amt); [done|]. erewrite bind_run_ok by done.
  intros Hr. exists u. destruct (amt =? ul_Amount u);
    unfold removeUnlockingLockup, SetUnlockingLockup, modify in Hr; by simplify_eq.
Qed.

Lemma CancelUnlocking_ok ctx d v h amt s s' : tier_inv s -> addr20 d -> addr20 v -> is_int64 h = true ->
  CancelUnlocking ctx d v h amt s = (Ok tt, s') ->
  lockups_moved d v amt s s' /\
  exists u, st_unlocking s !! UnlockingLockupKey d v h = Some u /\ 0 < amt <= ul_Amount u /\
    st_unlocking s' = (if amt =? ul_Amount u then delete (UnlockingLockupKey d v h) (st_unlocking s)
      else <[UnlockingLockupKey d v h := mkUnlockingLockup d v h (ul_Amount u - amt)
              (ul_CompletionTime u) (ul_UnlockTime u)]> (st_unlocking s)).
Proof.
  intros Hi Hd Hv Hh Hr. unfold CancelUnlocking in Hr. unfold throw_if at 1 in Hr.
  destruct (Z.leb_spec amt 0); [done|]. do 2 erewrite bind_run_ok in Hr by done.
  destruct (GetValidator v _) as [val|]; [|done]. erewrite bind_run_ok in Hr by done.
  destruct (GetUnbondingDelegation _ v _) as [es|]; [|done]. erewrite bind_run_ok in Hr by done.
  destruct (findEntry _ _ es 0) as [[i e]|]; [|done]. unfold throw_if in Hr.
  destruct (_ <? amt); [done|]. erewrite bind_run_ok in Hr by done.
  ok_inv Hr. apply on_world_ok in Hrun as (w1 & _ & ->). cbv zeta in Hr.
  ok_inv Hr. apply on_world_ok in Hrun as (w2 & _ & ->).
  ok_inv Hr. destruct a1. apply subtractUnlocking_ok in Hrun as Hsub.
  destruct Hsub as (u & Hu & Hle & ->). cbn [st_unlocking set_world] in Hu.
  assert (Hi2 : tier_inv (set_world w2 (set_world w1 s))) by by do 2 apply tier_inv_world.
  pose proof (preserves_ok _ _ _ _ _ (subtractUnlocking_preserves d v h amt Hd Hv Hh) Hi2 Hrun) as Hi3.
  destruct (AddLockup_ok d v amt _ s' Hi3 Hd Hv ltac:(lia) Hr) as [Hmv ->].
  split; [by destruct Hmv|]. exists u. split; [done|]. split; [lia|]. done.
Qed.

(** Cancelling a whole unlock restores every lockup and the total, and
    leaves no unlocking record, whatever other modules did in between. *)
Theorem cancel_restores_lockup ctx ctx' d v amt s h ct ut s1 w s2 :
  tier_inv s -> addr20 d -> addr20 v -> is_int64 (block_height ctx) = true ->
  Unlock ctx d v amt s = (Ok (h, ct, ut), s1) ->
  CancelUnlocking ctx' d v h amt (set_world w s1) = (Ok tt, s2) ->
  (forall d' v', addr20 d' -> addr20 v' -> locked_at s2 d' v' = locked_at s d' v') /\
  nonneg_or_zero (st_total_lockups s2) = nonneg_or_zero (st_total_lockups s) /\
  st_unlocking s2 = delete (UnlockingLockupKey d v h) (st_unlocking s).
Proof.
  intros Hi Hd Hv Hh Hun Hcan.
  pose proof (preserves_ok _ _ _ _ _ (Unlock_preserves ctx d v amt Hd Hv Hh) Hi Hun) as Hi1.
  destruct (Unlock_ok _ _ _ _ _ _ _ _ _ Hi Hd Hv Hun) as (_ & _ & [Hm1 Ht1] & amt' & dur & Hle & _ & Hres & Hrec & _).
  injection Hres as Hheight _. rewrite <- Hheight in Hh.
  destruct (CancelUnlocking_ok _ _ _ _ _ _ _ (tier_inv_world w s1 Hi1) Hd Hv Hh Hcan)
    as ([Hm2 Ht2] & u & Hu & Hamt & Hs2).
  cbn [st_unlocking set_world] in Hu, Hs2. rewrite Hrec, lookup_insert_eq in Hu. simplify_eq. simpl in Hamt, Hs2.
  split; [|split].
  - intros d' v' Hd' Hv'. rewrite Hm2 by done. change (locked_at (set_world w s1) d' v') with (locked_at s1 d' v').
    rewrite Hm1 by done. case_decide; lia.
  - rewrite Ht2. cbn [st_total_lockups set_world]. lia.
  - rewrite Hs2. destruct (Z.eqb_spec amt amt'); [|lia]. by rewrite Hrec, delete_insert_eq.
Qed.

(** ** Insured stake *)

Lemma subtractLockup_insured d v s : tier_inv s -> 0 < insured_at s d v ->
  subtractLockup d v (locked_at s d v) s = (Err ErrInvalidAmount, s).
Proof.
  intros Hi Hins. rewrite subtractLockup_run.
  destruct (st_lockups s !! LockupKey d v) as [l|] eqn:E.
  - unfold locked_at. rewrite E. simpl. destruct (Z.ltb_spec (Amount l) (Amount l + insured_at s d v)); [done|lia].
  - pose proof (no_insurance_without_lockup s d v Hi E). lia.
Qed.

(** A lockup that carries insurance can be neither unlocked nor redelegated
    completely: the insured amount is required to stay on top of the requested
    one, so the branches that move or drop its insurance are never taken. *)
Theorem insured_stake_stays ctx d v dst s : tier_inv s -> 0 < insured_at s d v ->
  Unlock ctx d v (locked_at s d v) s = (Err ErrInvalidAmount, s) /\
  Redelegate d v dst (locked_at s d v) s = (Err ErrInvalidAmount, s).
Proof.
  intros Hi Hins. pose proof (subtractLockup_insured d v s Hi Hins) as Hsub.
  unfold Unlock, Redelegate, throw_if. destruct (locked_at s d v <=? 0); [done|].
  split; erewrite bind_run_ok by done; by erewrite bind_run_err by exact Hsub.
Qed.

(** ** Two unlocks in one block *)

(** When a delegator unlocks twice from the same validator in one block,
    both amounts leave the lockup and the total, but the record of the second
    unlock replaces that of the first: only the second amount is ever paid out. *)
Theorem second_unlock_overwrites ctx ctx' d v a1 a2 s r1 s1 w h ct ut s2 :
  tier_inv s -> addr20 d -> addr20 v -> is_int64 (block_height ctx) = true ->
  block_height ctx' = block_height ctx ->
  Unlock ctx d v a1 s = (Ok r1, s1) -> Unlock ctx' d v a2 (set_world w s1) = (Ok (h, ct, ut), s2) ->
  lockups_moved d v (- (a1 + a2)) s s2 /\
  exists u, st_unlocking s2 = <[UnlockingLockupKey d v h := u]> (st_unlocking s) /\ ul_Amount u <= a2.
Proof.
  intros Hi Hd Hv Hh Heq Hun1 Hun2. destruct r1 as [[h1 ct1] ut1].
  pose proof (preserves_ok _ _ _ _ _ (Unlock_preserves ctx d v a1 Hd Hv Hh) Hi Hun1) as Hi1.
  destruct (Unlock_ok _ _ _ _ _ _ _ _ _ Hi Hd Hv Hun1) as (_ & _ & [Hm1 Ht1] & b1 & dur1 & _ & _ & Hr1 & Hrec1 & _).
  destruct (Unlock_ok _ _ _ _ _ _ _ _ _ (tier_inv_world w s1 Hi1) Hd Hv Hun2)
    as (_ & _ & [Hm2 Ht2] & b2 & dur2 & Hle2 & _ & Hr2 & Hrec2 & _).
  injection Hr1 as Hh1 _. injection Hr2 as Hh2 _. cbn [st_unlocking st_total_lockups set_world] in Hrec2, Ht2.
  split; [split|].
  - intros d' v' Hd' Hv'. rewrite Hm2 by done. change (locked_at (set_world w s1) d' v') with (locked_at s1 d' v').
    rewrite Hm1 by done. case_decide; lia.
  - rewrite Ht2. lia.
  - eexists. split; [rewrite Hrec2, Hrec1, Hh2, Heq, <- Hh1, insert_insert_eq; reflexivity|exact Hle2].
Qed.
End unlock.

(** * Runs *)

Definition demo_locked : TierState World := demo_after [demo_params; demo_lock].
Abbreviation unlock50 := (Unlock (W := World) (at_time (day / 2) 0) alice val1 50).
Definition demo_unlocked : TierState World := (unlock50 demo_locked).2.

Lemma demo_locked_inv : tier_inv demo_locked.
Proof. exact (tier_reachable_inv _ demo_locked_reachable). Qed.

Lemma demo_unlock : exists ct ut, unlock50 demo_locked = (Ok (0, ct, ut), demo_unlocked).
Proof.
  destruct (is_ok_run unlock50 demo_locked) as [[[h ct] ut] Hr]; [vm_compute; reflexivity|].
  pose proof (Unlock_height _ _ _ _ _ _ _ _ _ Hr) as Hh. simpl in Hh. subst h. exists ct, ut. exact Hr.
Qed.

Lemma unlock_effect_witness :
  locked_at demo_locked alice val1 = 200 /\ locked_at demo_unlocked alice val1 = 150.
Proof.
  assert (H200 : locked_at demo_locked alice val1 = 200) by (vm_compute; reflexivity).
  destruct demo_unlock as (ct & ut & Hr).
  destruct (unlock_effect (at_time (day / 2) 0) alice val1 50 demo_locked 0 ct ut demo_unlocked
    demo_locked_inv eq_refl eq_refl Hr) as (_ & _ & [Hm _] & _).
  pose proof (Hm alice val1 eq_refl eq_refl) as Ha. rewrite H200, decide_True in Ha by exact (conj eq_refl eq_refl).
  exact (conj H200 Ha).
Defined.

Lemma cancel_restores_lockup_witness : exists s2,
  CancelUnlocking (at_time day 7) alice val1 0 50 demo_unlocked = (Ok tt, s2) /\
  locked_at s2 alice val1 = locked_at demo_locked alice val1.
Proof.
  destruct demo_unlock as (ct & ut & Hr).
  destruct (is_ok_run (CancelUnlocking (at_time day 7) alice val1 0 50) demo_unlocked) as [[] Hc];
    [vm_compute; reflexivity|].
  eexists. split; [exact Hc|].
  destruct (cancel_restores_lockup (at_time (day / 2) 0) (at_time day 7) alice val1 50 demo_locked 0 ct ut
    demo_unlocked (st_world demo_unlocked) _ demo_locked_inv eq_refl eq_refl eq_refl Hr
    ltac:(rewrite set_world_id; exact Hc)) as [Hl _].
  exact (Hl alice val1 eq_refl eq_refl).
Defined.

(** The same lockup with 10 of insurance. *)
Definition demo_insured : TierState World :=
  set_insurance (<[LockupKey alice val1 := mkLockup alice val1 10]> (st_insurance demo_locked)) demo_locked.

Lemma insured_stake_stays_witness :
  Unlock (at_time day 7) alice val1 200 demo_insured = (Err ErrInvalidAmount, demo_insured).
Proof.
  assert (Hi : tier_inv demo_insured).
  { apply setInsurance_inv; [apply demo_locked_inv|done|done|lia|]. exists (mkLockup alice val1 200). vm_compute. reflexivity. }
  assert (H10 : insured_at demo_insured alice val1 = 10) by (vm_compute; reflexivity).
  assert (H200 : locked_at demo_insured alice val1 = 200) by (vm_compute; reflexivity).
  destruct (insured_stake_stays (at_time day 7) alice val1 val2 demo_insured Hi ltac:(rewrite H10; lia)) as [Hu _].
  rewrite H200 in Hu. exact Hu.
Defined.

Lemma second_unlock_overwrites_witness : exists (s2 : TierState World) u,
  locked_at s2 alice val1 = 100 /\
  st_unlocking s2 = <[UnlockingLockupKey alice val1 0 := u]> (st_unlocking demo_locked) /\ ul_Amount u <= 50.
Proof.
  destruct demo_unlock as (ct & ut & Hr).
  destruct (is_ok_run unlock50 demo_unlocked) as [[[h2 ct2] ut2] Hr2]; [vm_compute; reflexivity|].
  pose proof (Unlock_height _ _ _ _ _ _ _ _ _ Hr2) as Hh. simpl in Hh. subst h2.
  set (s2 := (unlock50 demo_unlocked).2) in *.
  destruct (second_unlock_overwrites (at_time (day / 2) 0) (at_time (day / 2) 0) alice val1 50 50 demo_locked
    (0, ct, ut) demo_unlocked (st_world demo_unlocked) 0 ct2 ut2 s2
    demo_locked_inv eq_refl eq_refl eq_refl eq_refl Hr ltac:(rewrite set_world_id; exact Hr2))
    as ([Hm _] & u & Hu & Hle).
  assert (H200 : locked_at demo_locked alice val1 = 200) by (vm_compute; reflexivity).
  pose proof (Hm alice val1 eq_refl eq_refl) as Ha. rewrite H200, decide_True in Ha by exact (conj eq_refl eq_refl).
  exists s2, u. exact (conj Ha (conj Hu Hle)).
Defined.
