(* ===== verification/TierGenesis.v ===== *)
(** Genesis export and import of the tier module (src/x/tier/module/genesis.go).

    Importing an export rebuilds the parameters, lockups, unlocking and insurance
    records, developers, subscriptions and the total of lockups. The totals of
    granted and of outstanding credits are not part of the genesis state. *)
From Stdlib Require Import Ascii ZArith Lia.
From stdpp Require Import base numbers list gmap strings.
From S2P Require Import Prelude Sdk Epochs FeeAllowance TierTypes TierCredit TierState TierKeeper TierModule TierWorld TierInv TierReach TierGranted.

Section genesis.
Context `{LegacyDecOps, CoinsOps, DecParser, AddressCodec, ValAddressCodec, MapRange}.
Context {W : Type} `{BankKeeper W, StakingKeeper W, EpochsKeeper W, DistributionKeeper W,
                     FeegrantKeeper W, AcpKeeper W}.
Implicit Types (s : TierState W) (w : W) (ctx : Ctx).
Abbreviation TM := (M (TierState W)).

(** ** Export *)

Lemma iterate_collect {A V} (items : list (bytes * V)) (parse : bytes -> outcome A) s :
  (forall k v, (k, v) ∈ items -> is_ok (parse k) = true) -> forall acc,
  iterate items parse (fun acc _ x => ret (acc ++ [x])) acc s = (Ok (acc ++ items.*2), s).
Proof.
  unfold iterate. induction items as [|[k v] items IH]; intros Hp acc; simpl; [by rewrite app_nil_r|].
  specialize (Hp k v ltac:(left)) as Hk. destruct (parse k) as [a|e|] eqn:E; [|done|done].
  unfold bind at 1. erewrite bind_run_ok by (unfold of_outcome; reflexivity).
  unfold ret at 1. rewrite IH by (intros; eapply Hp; by right). by rewrite <- app_assoc.
Qed.

Lemma ExportGenesis_run s : tier_inv s ->
  ExportGenesis s = (Ok (mkGenesis (default Params_zero (st_params s)) (store_items (st_lockups s)).*2
    (store_items (st_unlocking s)).*2 (store_items (st_insurance s)).*2 (store_items (st_developers s)).*2
    (store_items (st_subscriptions s)).*2), s).
Proof.
  intros Hi. unfold ExportGenesis. erewrite bind_run_ok by done.
  erewrite bind_run_ok by (unfold GetAllLockups, mustIterateLockups; erewrite bind_run_ok by done;
    apply iterate_collect; intros k l Hk%elem_of_store_items;
    destruct (inv_lockups s Hi k l Hk) as [(? & ? & ->) _]; by rewrite parse_LockupKey).
  erewrite bind_run_ok by (unfold GetAllUnlockingLockups, mustIterateUnlockingLockups; erewrite bind_run_ok by done;
    apply iterate_collect; intros k u Hk%elem_of_store_items;
    destruct (inv_unlocking s Hi k u Hk) as (? & ? & ? & ->); by rewrite parse_UnlockingLockupKey).
  erewrite bind_run_ok by (unfold GetAllInsuranceLockups, mustIterateInsuranceLockups; erewrite bind_run_ok by done;
    apply iterate_collect; intros k l Hk%elem_of_store_items;
    destruct (inv_insurance s Hi k l Hk) as [(? & ? & ->) _]; by rewrite parse_LockupKey).
  erewrite bind_run_ok by (unfold GetAllDevelopers, mustIterateDevelopers; erewrite bind_run_ok by done;
    apply iterate_collect; intros k u Hk%elem_of_store_items;
    destruct (inv_developers s Hi k u Hk) as [? ->]; by rewrite parse_DeveloperKey).
  erewrite bind_run_ok by (unfold GetAllUserSubscriptions, mustIterateUserSubscriptions; erewrite bind_run_ok by done;
    apply iterate_collect; intros k u Hk%elem_of_store_items;
    destruct (inv_subscriptions s Hi k u Hk) as [? ->]; by rewrite parse_UserSubscriptionKey).
  done.
Qed.

(** ** Import *)

(** Writing records under fresh keys of their own, one after the other. *)
Definition fresh {V} (items : list (bytes * V)) (m : gmap bytes V) : Prop :=
  NoDup items.*1 /\ forall k, k ∈ items.*1 -> m !! k = None.

Lemma fresh_cons {V} k (v : V) items m : fresh ((k, v) :: items) m ->
  m !! k = None /\ fresh items (<[k := v]> m).
Proof.
  intros [[Hk Hnd]%NoDup_cons Hf]. simpl in *. split; [apply Hf; left|]. split; [done|].
  intros k' Hk'. rewrite lookup_insert_ne by (intros ->; done). apply Hf. by right.
Qed.

Lemma fresh_store {V} (m : gmap bytes V) : fresh (store_items m) ∅.
Proof. split; [apply store_items_NoDup|]. intros. apply lookup_empty. Qed.

Definition amounts (items : list (bytes * Lockup)) : Z := Zsum ((fun kl => Amount kl.2) <$> items).

Lemma amounts_cons k l items : amounts ((k, l) :: items) = Amount l + amounts items.
Proof. done. Qed.

Lemma import_lockups items : forall s,
  Forall (fun kl => lockup_ok kl.1 kl.2 /\ 0 < Amount kl.2) items -> fresh items (st_lockups s) ->
  nonneg_or_zero (st_total_lockups s) + amounts items <= int64_max ->
  exists t, forM_ (fun l => AddLockup (DelegatorAddress l) (ValidatorAddress l) (Amount l)) items.*2 s
    = (Ok tt, set_lockups (insert_all (st_lockups s) items) (set_total_lockups t s)) /\
  nonneg_or_zero t = nonneg_or_zero (st_total_lockups s) + amounts items.
Proof.
  assert (Hnn : forall t : option Z, 0 <= nonneg_or_zero t).
  { intros [t|]; simpl; [destruct (Z.ltb_spec t 0)|]; lia. }
  induction items as [|[k l] items IH]; intros s Hok Hf Hmax.
  - exists (st_total_lockups s). split; [by destruct s|]. unfold amounts. simpl. lia.
  - apply Forall_cons in Hok as [[(Hd & Hv & Hk) Hpos] Hok]. cbn [fst snd] in *. subst k.
    apply fresh_cons in Hf as [Hn Hf]. rewrite amounts_cons in *.
    assert (Hrest : 0 <= amounts items).
    { apply Zsum_nonneg, Forall_fmap. eapply Forall_impl; [exact Hok|]. intros [k' l'] [_ ?]. simpl in *. lia. }
    pose proof (Hnn (st_total_lockups s)) as Hnn0.
    cbn [forM_ fmap list_fmap]. cbn [snd]. set (t := nonneg_or_zero (st_total_lockups s) + Amount l).
    assert (Hrun : AddLockup (DelegatorAddress l) (ValidatorAddress l) (Amount l) s
      = (Ok tt, put_lockup (DelegatorAddress l) (ValidatorAddress l) (Amount l) t s)).
    { rewrite AddLockup_run. fold t. replace (is_int64 t) with true.
      - unfold locked_at. rewrite Hn. simpl. by rewrite Z.add_0_r.
      - symmetry. apply is_int64_spec. unfold int64_min. lia. }
    erewrite bind_run_ok by exact Hrun.
    destruct (IH (put_lockup (DelegatorAddress l) (ValidatorAddress l) (Amount l) t s)) as (t' & Hr & Ht).
    + done.
    + destruct l. exact Hf.
    + unfold put_lockup. cbn [st_total_lockups set_lockups set_total_lockups].
      rewrite nonneg_or_zero_nonneg by lia. lia.
    + exists t'. split; [rewrite Hr; by destruct l|]. rewrite Ht. unfold put_lockup.
      cbn [st_total_lockups set_lockups set_total_lockups]. rewrite nonneg_or_zero_nonneg by lia. lia.
Qed.

Lemma import_unlocking items : forall s,
  Forall (fun ku : bytes * UnlockingLockup => ku.1 =
    UnlockingLockupKey (ul_DelegatorAddress ku.2) (ul_ValidatorAddress ku.2) (ul_CreationHeight ku.2)) items ->
  fresh items (st_unlocking s) ->
  forM_ (fun u => has <- HasUnlockingLockup (ul_DelegatorAddress u) (ul_ValidatorAddress u) (ul_CreationHeight u) ;;
    when (negb has)
      (SetUnlockingLockup (ul_DelegatorAddress u) (ul_ValidatorAddress u) (ul_CreationHeight u)
         (ul_Amount u) (ul_CompletionTime u) (ul_UnlockTime u))) items.*2 s
  = (Ok tt, set_unlocking (insert_all (st_unlocking s) items) s).
Proof.
  induction items as [|[k u] items IH]; intros s Hok Hf; [by destruct s|].
  apply Forall_cons in Hok as [Hk Hok]. simpl in Hk. subst k. apply fresh_cons in Hf as [Hn Hf].
  cbn [forM_ fmap list_fmap snd].
  erewrite bind_run_ok.
  2: { unfold HasUnlockingLockup, bind, gets. rewrite bool_decide_false by (rewrite Hn; by intros [? ?]). reflexivity. }
  rewrite IH; [by destruct u|done|by destruct u].
Qed.

Lemma import_insurance items : forall s,
  Forall (fun kl => lockup_ok kl.1 kl.2) items -> fresh items (st_insurance s) ->
  forM_ (fun l => AddInsuranceLockup (DelegatorAddress l) (ValidatorAddress l) (Amount l)) items.*2 s
  = (Ok tt, set_insurance (insert_all (st_insurance s) items) s).
Proof.
  induction items as [|[k l] items IH]; intros s Hok Hf; [by destruct s|].
  apply Forall_cons in Hok as [(_ & _ & Hk) Hok]. simpl in Hk. subst k. apply fresh_cons in Hf as [Hn Hf].
  cbn [forM_ fmap list_fmap snd].
  erewrite bind_run_ok.
  2: { unfold AddInsuranceLockup, getInsuranceLockup, setInsuranceLockup, bind, gets, modify. rewrite Hn. reflexivity. }
  rewrite IH; [by destruct l|done|by destruct l].
Qed.

Lemma import_developers items : forall s,
  Forall (fun kd : bytes * Developer => kd.1 = DeveloperKey (dev_Address kd.2)) items ->
  forM_ (fun d => SetDeveloper (dev_Address d) d) items.*2 s
  = (Ok tt, set_developers (insert_all (st_developers s) items) s).
Proof.
  induction items as [|[k d] items IH]; intros s Hok; [by destruct s|].
  apply Forall_cons in Hok as [Hk Hok]. simpl in Hk. subst k. cbn [forM_ fmap list_fmap snd].
  erewrite bind_run_ok by done. by rewrite IH.
Qed.

Lemma import_subscriptions items : forall s,
  Forall (fun ku : bytes * UserSubscription =>
    ku.1 = UserSubscriptionKey (sub_Developer ku.2) (sub_UserDid ku.2)) items ->
  forM_ (fun u => SetUserSubscription (sub_Developer u) (sub_UserDid u) u) items.*2 s
  = (Ok tt, set_subscriptions (insert_all (st_subscriptions s) items) s).
Proof.
  induction items as [|[k u] items IH]; intros s Hok; [by destruct s|].
  apply Forall_cons in Hok as [Hk Hok]. simpl in Hk. subst k. cbn [forM_ fmap list_fmap snd].
  erewrite bind_run_ok by done. by rewrite IH.
Qed.

Lemma store_Forall {V} (P : bytes -> V -> Prop) (m : gmap bytes V) :
  (forall k v, m !! k = Some v -> P k v) -> Forall (fun kv => P kv.1 kv.2) (store_items m).
Proof. intros HP. apply Forall_forall. intros [k v] Hk%elem_of_store_items. by apply HP. Qed.

Lemma genesis_reload s w g : tier_inv s -> lockup_sum (st_lockups s) <= int64_max ->
  ExportGenesis s = (Ok g, s) ->
  exists t, InitGenesis g (empty_tier w)
    = (Ok tt, mkTierState (Some (default Params_zero (st_params s))) (st_lockups s) (st_unlocking s)
        (st_insurance s) t None (st_developers s) (st_subscriptions s) ∅ w) /\
  nonneg_or_zero t = lockup_sum (st_lockups s).
Proof.
  intros Hi Hmax Hexp. rewrite ExportGenesis_run in Hexp by done. injection Hexp as <-.
  unfold InitGenesis. cbn [gen_Params gen_Lockups gen_UnlockingLockups gen_InsuranceLockups gen_Developers
    gen_UserSubscriptions]. erewrite bind_run_ok by done.
  assert (Hamt : amounts (store_items (st_lockups s)) = lockup_sum (st_lockups s)).
  { unfold amounts, lockup_sum. by rewrite <- store_items_sum. }
  set (s1 := set_params _ _).
  destruct (import_lockups (store_items (st_lockups s)) s1) as (t & Hl & Ht).
  { apply (store_Forall (fun k l => lockup_ok k l /\ 0 < Amount l)), Hi. }
  { apply fresh_store. }
  { rewrite Hamt. exact Hmax. }
  erewrite bind_run_ok by exact Hl. rewrite insert_all_store by done. set (s2 := set_lockups _ _).
  erewrite bind_run_ok; [|apply (import_unlocking (store_items (st_unlocking s)) s2)].
  2: { eapply Forall_impl; [apply (store_Forall _ _ (inv_unlocking s Hi))|]. intros [k u] (_ & _ & _ & Hk). exact Hk. }
  2: { apply fresh_store. }
  rewrite insert_all_store by done. set (s3 := set_unlocking _ _).
  erewrite bind_run_ok; [|apply (import_insurance (store_items (st_insurance s)) s3)].
  2: { eapply Forall_impl; [apply (store_Forall _ _ (inv_insurance s Hi))|]. intros [k l] [Hk _]. exact Hk. }
  2: { apply fresh_store. }
  rewrite insert_all_store by done. set (s4 := set_insurance _ _).
  erewrite bind_run_ok; [|apply (import_developers (store_items (st_developers s)) s4)].
  2: { eapply Forall_impl; [apply (store_Forall _ _ (inv_developers s Hi))|]. intros [k d] [_ Hk]. exact Hk. }
  rewrite insert_all_store by done. set (s5 := set_developers _ _).
  rewrite (import_subscriptions (store_items (st_subscriptions s)) s5).
  2: { eapply Forall_impl; [apply (store_Forall _ _ (inv_subscriptions s Hi))|]. intros [k u] [_ Hk]. exact Hk. }
  rewrite insert_all_store by done. exists t. split; [done|]. rewrite Ht, Hamt. simpl. lia.
Qed.

(** C38: importing what was exported rebuilds the parameters, every lockup,
    unlocking and insurance record, every developer and subscription, and a total
    equal to the sum of the lockups. The total of outstanding credits and the
    totals the developers have granted start again from zero. *)
Theorem genesis_roundtrip s w : tier_inv s -> lockup_sum (st_lockups s) <= int64_max ->
  exists g t, ExportGenesis s = (Ok g, s) /\
    InitGenesis g (empty_tier w)
    = (Ok tt, mkTierState (Some (default Params_zero (st_params s))) (st_lockups s) (st_unlocking s)
        (st_insurance s) t None (st_developers s) (st_subscriptions s) ∅ w) /\
    nonneg_or_zero t = nonneg_or_zero (st_total_lockups s).
Proof.
  intros Hi Hmax. pose proof (ExportGenesis_run s Hi) as Hexp.
  destruct (genesis_reload s w _ Hi Hmax Hexp) as (t & Hinit & Ht). do 2 eexists.
  split; [exact Hexp|]. split; [exact Hinit|]. rewrite Ht. symmetry. apply Hi.
Qed.

(** After such an import a subscription with a positive amount can be
    neither removed nor reduced: the granted total it is taken from was lost. *)
Theorem imported_subscription_stuck ctx s w g s' a did u amt period :
  tier_inv s -> lockup_sum (st_lockups s) <= int64_max ->
  ExportGenesis s = (Ok g, s) -> InitGenesis g (empty_tier w) = (Ok tt, s') ->
  extracted_did ctx = [] -> st_subscriptions s !! UserSubscriptionKey a did = Some u ->
  0 < CreditAmount u -> 0 <= amt < CreditAmount u ->
  RemoveUserSubscription ctx a did s' = (Err ErrInvalidAmount, s') /\
  UpdateUserSubscription ctx a did amt period s' = (Err ErrInvalidAmount, s').
Proof.
  intros Hi Hmax Hexp Hinit Hdid Hu Hpos Hamt.
  destruct (genesis_reload s w g Hi Hmax Hexp) as (t & Hinit' & _). rewrite Hinit in Hinit'. injection Hinit' as ->.
  set (s' := mkTierState _ _ _ _ _ _ _ _ _ _).
  assert (Hact : actingDeveloper ctx a s' = (Ok a, s')) by (unfold actingDeveloper; by rewrite decide_True).
  assert (Hfail : forall delta, 0 < delta ->
    updateDeveloperTotalGranted a delta false s' = (Err ErrInvalidAmount, s')).
  { intros delta Hd. rewrite updateGranted_run. cbn [negb andb]. unfold granted_total, s'. cbn [st_dev_granted].
    rewrite lookup_empty. simpl. destruct (Z.ltb_spec (0 - delta) 0); [done|lia]. }
  split.
  - unfold RemoveUserSubscription. erewrite bind_run_ok by exact Hact. erewrite bind_run_ok by done.
    unfold s' at 1. cbn [st_subscriptions]. rewrite Hu. fold s'. by erewrite bind_run_err by (by apply Hfail).
  - unfold UpdateUserSubscription. erewrite bind_run_ok by exact Hact. erewrite bind_run_ok by done.
    unfold s' at 1. cbn [st_subscriptions]. rewrite Hu. fold s'. cbv zeta.
    destruct (Z.ltb_spec (CreditAmount u) amt); [lia|]. destruct (Z.ltb_spec amt (CreditAmount u)); [|lia].
    by erewrite bind_run_err by (apply Hfail; lia).
Qed.
End genesis.

(** * A run *)

Definition demo_subscribed : TierState World := demo_after demo_ops.

Lemma demo_subscribed_inv : tier_inv demo_subscribed.
Proof. exact (tier_reachable_inv _ demo_subscribed_reachable). Qed.

Lemma demo_subscribed_sum : lockup_sum (st_lockups demo_subscribed) <= int64_max.
Proof. vm_compute. discriminate. Qed.

Lemma genesis_roundtrip_witness : exists g s', ExportGenesis demo_subscribed = (Ok g, demo_subscribed) /\
  InitGenesis g (empty_tier demo_world) = (Ok tt, s') /\
  st_lockups s' = st_lockups demo_subscribed /\ st_dev_granted s' = ∅.
Proof.
  destruct (genesis_roundtrip demo_subscribed demo_world demo_subscribed_inv demo_subscribed_sum)
    as (g & t & Hexp & Hinit & _).
  eexists. eexists. split; [exact Hexp|]. split; [exact Hinit|].
  cbn [st_lockups st_dev_granted]. split; reflexivity.
Defined.

Lemma imported_subscription_stuck_witness : exists g s',
  ExportGenesis demo_subscribed = (Ok g, demo_subscribed) /\
  RemoveUserSubscription (at_time day 20) alice (lit "did:key:user") s' = (Err ErrInvalidAmount, s').
Proof.
  pose proof (ExportGenesis_run demo_subscribed demo_subscribed_inv) as Hexp.
  destruct (genesis_reload demo_subscribed demo_world _ demo_subscribed_inv demo_subscribed_sum Hexp) as (t & Hinit & _).
  assert (Hu : exists u, st_subscriptions demo_subscribed !! UserSubscriptionKey alice (lit "did:key:user") = Some u
    /\ CreditAmount u = 50) by (eexists; split; vm_compute; reflexivity).
  destruct Hu as (u & Hu & H50).
  destruct (imported_subscription_stuck (at_time day 20) demo_subscribed demo_world _ _ alice (lit "did:key:user") u
    0 3600 demo_subscribed_inv demo_subscribed_sum Hexp Hinit eq_refl Hu ltac:(lia) ltac:(lia)) as [Hr _].
  eexists. eexists. split; [exact Hexp|exact Hr].
Defined.
