(* ===== verification/TierPayout.v ===== *)
(** What the module pays out: unlocked stake at the end of an epoch, and the
    staking rewards of its delegations (src/x/tier/keeper/keeper.go, rewards.go). *)
From Stdlib Require Import Ascii ZArith Lia.
From stdpp Require Import base numbers list gmap strings.
From S2P Require Import Prelude Sdk Epochs FeeAllowance TierTypes TierCredit TierState TierKeeper TierModule TierWorld TierInv TierReach TierEpoch TierLock TierUnlock.

(** Unlocking records whose times have passed. *)
Definition is_due (now : Time) (u : UnlockingLockup) : bool :=
  negb (time_before now (ul_CompletionTime u) || time_before now (ul_UnlockTime u)).

Definition due_items (now : Time) (items : list (bytes * UnlockingLockup)) : list (bytes * UnlockingLockup) :=
  filter (fun ku => is_due now ku.2 = true) items.

Definition owed (x : bytes) (items : list (bytes * UnlockingLockup)) : Z :=
  Zsum ((fun ku => if decide (ul_DelegatorAddress ku.2 = x) then ul_Amount ku.2 else 0) <$> items).
Definition owed_total (items : list (bytes * UnlockingLockup)) : Z :=
  Zsum ((fun ku => ul_Amount ku.2) <$> items).

Definition unlocking_ok (ku : bytes * UnlockingLockup) : Prop :=
  addr20 (ul_DelegatorAddress ku.2) /\ addr20 (ul_ValidatorAddress ku.2) /\
  is_int64 (ul_CreationHeight ku.2) = true /\
  ku.1 = UnlockingLockupKey (ul_DelegatorAddress ku.2) (ul_ValidatorAddress ku.2) (ul_CreationHeight ku.2).

Section payout.
Context `{LegacyDecOps, CoinsOps, DecParser, AddressCodec, ValAddressCodec, MapRange}.
Context {W : Type} `{BankKeeper W, StakingKeeper W, EpochsKeeper W, DistributionKeeper W,
                     FeegrantKeeper W, AcpKeeper W}.
Context {HBL : BankLaws W} {HBP : BankProgress W}.
Implicit Types (s : TierState W) (d v x : bytes) (amt : Z) (ctx : Ctx).
Abbreviation TM := (M (TierState W)).
Abbreviation stake x w := (GetBalance x DefaultBondDenom w).

(** ** Completing unlocks *)

Lemma completeEntry_run ctx u s :
  let k := UnlockingLockupKey (ul_DelegatorAddress u) (ul_ValidatorAddress u) (ul_CreationHeight u) in
  let pays := is_due (block_time ctx) u && (ul_Amount u <=? stake (modAddr (W := W)) (st_world s)) in
  (is_due (block_time ctx) u = true -> 0 < ul_Amount u) ->
  exists w', completeUnlockingEntry ctx (ul_DelegatorAddress u) (ul_ValidatorAddress u) (ul_CreationHeight u) u s
    = (Ok tt, if pays then set_unlocking (delete k (st_unlocking s)) (set_world w' s) else set_world w' s) /\
  forall x, stake x w' = stake x (st_world s) + (if pays then
      (if decide (ul_DelegatorAddress u = x) then ul_Amount u else 0)
      - (if decide (x = modAddr (W := W)) then ul_Amount u else 0) else 0).
Proof.
  cbv zeta. intros Hdue. unfold completeUnlockingEntry, is_due in *.
  destruct (_ || _); cbn [negb andb] in *.
  { exists (st_world s). split; [by rewrite set_world_id|]. intros x. lia. }
  specialize (Hdue eq_refl). erewrite bind_run_ok by done. rewrite Z.ltb_antisym.
  destruct (Z.leb_spec (ul_Amount u) (stake (modAddr (W := W)) (st_world s))); cbn [negb].
  2: { exists (st_world s). split; [by rewrite set_world_id|]. intros x. lia. }
  unfold NewCoins1. destruct (Z.ltb_spec (ul_Amount u) 0); [lia|]. destruct (Z.eqb_spec (ul_Amount u) 0); [lia|].
  erewrite bind_run_ok by done.
  destruct (UndelegateCoins_progress ModuleName (ul_DelegatorAddress u) DefaultBondDenom (ul_Amount u) (st_world s))
    as [w Hw]; [done|].
  erewrite bind_run_ok; [|unfold on_world, lift; simpl; by rewrite Hw]. exists w. split; [done|]. intros x.
  rewrite (UndelegateCoins_moves _ _ _ _ _ Hw), coins_amount_same. fold (modAddr (W := W)).
  repeat case_decide; try congruence; lia.
Qed.

(** The records that are paid, in the order of their keys, from a balance: those that
    are due and that what is left covers. *)
Fixpoint payable (now : Time) (bal : Z) (items : list (bytes * UnlockingLockup)) : list (bytes * UnlockingLockup) :=
  match items with
  | [] => []
  | ku :: items =>
      if is_due now ku.2 && (ul_Amount ku.2 <=? bal)
      then ku :: payable now (bal - if decide (ul_DelegatorAddress ku.2 = modAddr (W := W)) then 0 else ul_Amount ku.2) items
      else payable now bal items
  end.

Abbreviation complete_body ctx := (fun (_ : unit) (ku : bytes * UnlockingLockup) =>
  completeUnlockingEntry ctx (ul_DelegatorAddress ku.2) (ul_ValidatorAddress ku.2) (ul_CreationHeight ku.2) ku.2 : TM unit).

Lemma due_cons now ku items :
  due_items now (ku :: items) = (if is_due now ku.2 then [ku] else []) ++ due_items now items.
Proof. unfold due_items. rewrite filter_cons. by destruct (is_due now ku.2). Qed.

Lemma owed_nonneg x items : Forall (fun ku : bytes * UnlockingLockup => 0 < ul_Amount ku.2) items ->
  0 <= owed x items <= owed_total items.
Proof.
  unfold owed, owed_total. induction 1 as [|ku items Hku Hit IH]; [done|].
  rewrite !fmap_cons, !Zsum_cons. case_decide; lia.
Qed.

Lemma owed_cons x k u items :
  owed x ((k, u) :: items) = (if decide (ul_DelegatorAddress u = x) then ul_Amount u else 0) + owed x items /\
  owed_total ((k, u) :: items) = ul_Amount u + owed_total items.
Proof. done. Qed.

Lemma payable_due now items : forall bal, payable now bal items `sublist_of` due_items now items.
Proof.
  induction items as [|ku items IH]; intros bal; [done|]. rewrite due_cons. cbn [payable].
  destruct (is_due now ku.2); cbn [andb app]; [|apply IH]. destruct (_ <=? bal); [by apply sublist_skip|by apply sublist_cons].
Qed.

(** When the balance covers everything that is due, everything is paid. *)
Lemma payable_all now items : forall bal, Forall (fun ku => 0 < ul_Amount ku.2) (due_items now items) ->
  owed_total (due_items now items) <= bal -> payable now bal items = due_items now items.
Proof.
  induction items as [|[k u] items IH]; intros bal; [done|]. rewrite due_cons. cbn [payable snd].
  destruct (is_due now u); cbn [andb app]; [|apply IH]. intros [Hu Hpos]%Forall_cons Hbal. cbn [snd] in Hu.
  destruct (owed_cons [] k u (due_items now items)) as [_ Ht]. pose proof (owed_nonneg [] _ Hpos).
  destruct (Z.leb_spec (ul_Amount u) bal); [|lia]. f_equal. apply IH; [done|]. case_decide; lia.
Qed.

Lemma complete_loop ctx items : forall s,
  Forall unlocking_ok items ->
  Forall (fun ku => 0 < ul_Amount ku.2) (due_items (block_time ctx) items) ->
  let paid := payable (block_time ctx) (stake (modAddr (W := W)) (st_world s)) items in
  exists w', foldM (complete_body ctx) tt items s
    = (Ok tt, set_unlocking (foldl (fun m k => delete k m) (st_unlocking s) paid.*1) (set_world w' s)) /\
  forall x, stake x w' = stake x (st_world s) + owed x paid
    - (if decide (x = modAddr (W := W)) then owed_total paid else 0).
Proof.
  cbv zeta. set (now := block_time ctx). induction items as [|[k u] items IH]; intros s Hok Hpos.
  - exists (st_world s). split; [by destruct s|]. intros x. unfold owed, owed_total. simpl. case_decide; lia.
  - apply Forall_cons in Hok as [(_ & _ & _ & Hk) Hok]. cbn [fst snd] in Hk. rewrite due_cons in Hpos.
    cbn [snd foldM payable] in *. destruct (completeEntry_run ctx u s) as (w1 & Hrun & Hs1).
    { fold now. intros Hdue. rewrite Hdue in Hpos. by apply Forall_cons in Hpos as [Hu _]. }
    fold now in Hrun, Hs1. rewrite <- Hk in Hrun. erewrite bind_run_ok by exact Hrun.
    assert (Hrest : Forall (fun ku => 0 < ul_Amount ku.2) (due_items now items)).
    { destruct (is_due now u); [by apply Forall_cons in Hpos as [_ ?]|done]. }
    destruct (is_due now u && (ul_Amount u <=? stake (modAddr (W := W)) (st_world s))).
    + destruct (IH (set_unlocking (delete k (st_unlocking s)) (set_world w1 s)) Hok Hrest) as (w2 & Hrun2 & Hs2).
      cbn [st_world set_unlocking set_world st_unlocking] in Hrun2, Hs2. rewrite (Hs1 (modAddr (W := W))) in Hrun2, Hs2.
      rewrite (decide_True (P := modAddr (W := W) = modAddr (W := W))) in Hrun2, Hs2 by done.
      replace (stake (modAddr (W := W)) (st_world s) + ((if decide (ul_DelegatorAddress u = modAddr (W := W)) then ul_Amount u else 0) - ul_Amount u))
        with (stake (modAddr (W := W)) (st_world s) - if decide (ul_DelegatorAddress u = modAddr (W := W)) then 0 else ul_Amount u)
        in Hrun2, Hs2 by (case_decide; lia).
      exists w2. split; [exact Hrun2|]. intros x. rewrite Hs2, Hs1. set (rest := payable _ _ items).
      destruct (owed_cons x k u rest) as [-> ->]. repeat case_decide; lia.
    + destruct (IH (set_world w1 s) Hok Hrest) as (w2 & Hrun2 & Hs2).
      cbn [st_world set_world st_unlocking] in Hrun2, Hs2. rewrite (Hs1 (modAddr (W := W))), Z.add_0_r in Hrun2, Hs2.
      exists w2. split; [exact Hrun2|]. intros x. rewrite Hs2, Hs1. lia.
Qed.

Lemma delete_paid (m : gmap bytes UnlockingLockup) ks :
  foldl (fun m k => delete k m) m ks = filter (fun ku => ku.1 ∉ ks) m.
Proof.
  apply map_eq. intros k. revert m. induction ks as [|k' ks IH]; intros m; simpl.
  - symmetry. destruct (m !! k) eqn:E; [apply map_lookup_filter_Some; split; [done|apply not_elem_of_nil]|apply map_lookup_filter_None; by left].
  - rewrite IH. apply option_eq. intros u. rewrite !map_lookup_filter_Some, lookup_delete_Some. cbn [fst].
    rewrite not_elem_of_cons. naive_solver.
Qed.

(** C12: the payout at the end of an epoch, when no unlocking record that is due has a
    non-positive amount. It always succeeds. It goes through the records that are
    due in the order of their keys, pays each to its delegator as long as the module's
    account holds that amount, and removes exactly the records it paid; one that it
    cannot pay, and every record that is not due, stays. When the account
    holds the sum of what is due, all of it is paid. *)
Theorem complete_unlocking_pays ctx s :
  let due := due_items (block_time ctx) (store_items (st_unlocking s)) in
  let paid := payable (block_time ctx) (stake (modAddr (W := W)) (st_world s)) (store_items (st_unlocking s)) in
  tier_inv s -> Forall (fun ku => 0 < ul_Amount ku.2) due ->
  (exists w', CompleteUnlocking ctx s
    = (Ok tt, set_unlocking (filter (fun ku => ku.1 ∉ paid.*1) (st_unlocking s)) (set_world w' s)) /\
    forall x, stake x w' = stake x (st_world s) + owed x paid
      - (if decide (x = modAddr (W := W)) then owed_total paid else 0)) /\
  paid `sublist_of` due /\ (owed_total due <= stake (modAddr (W := W)) (st_world s) -> paid = due).
Proof.
  cbv zeta. intros Hi Hpos. split; [|split; [apply payable_due|by apply payable_all]].
  destruct (complete_loop ctx (store_items (st_unlocking s)) s) as (w & Hrun & Hs); [|done|].
  { apply Forall_forall. intros [k u] Hk%elem_of_store_items. exact (inv_unlocking s Hi k u Hk). }
  exists w. split; [|exact Hs]. rewrite <- delete_paid, <- Hrun.
  unfold CompleteUnlocking, iterateUnlockingLockups, mustIterateUnlockingLockups. erewrite bind_run_ok by done.
  apply foldM_ext. intros b [k u] s' Hk%elem_of_store_items.
  destruct (inv_unlocking s Hi k u Hk) as (Hd & Hv & Hh & ->). cbn [fst snd].
  unfold of_outcome, bind. by rewrite parse_UnlockingLockupKey by done.
Qed.

(** ** Rewards *)

Abbreviation pool name := (NewModuleAddress (W := W) name).

(** How the rewards of one validator are split. *)
Record split : Type := mkSplit { to_insurance : Z; to_developers : Z; to_burn : Z }.

Definition reward_split (params : Params) (insured total : Z) : split :=
  let dev := total * DeveloperPoolFee params / 100 in
  let ins := total * InsurancePoolFee params / 100 in
  if insured + ins <=? InsurancePoolThreshold params
  then mkSplit ins dev (total - dev - ins) else mkSplit 0 (dev + ins) (total - dev - ins).

Lemma pay_pool name amt s : 0 < amt <= stake (modAddr (W := W)) (st_world s) -> pool name <> modAddr (W := W) ->
  exists w', on_world (SendCoinsFromModuleToModule ModuleName name [mkCoin DefaultBondDenom amt]) s
    = (Ok tt, set_world w' s) /\
  forall x, stake x w' = stake x (st_world s) - (if decide (x = modAddr (W := W)) then amt else 0)
    + (if decide (x = pool name) then amt else 0).
Proof.
  intros Hamt Hne.
  destruct (SendModules_progress ModuleName name DefaultBondDenom amt (st_world s) Hamt) as [w Hw].
  exists w. split; [unfold on_world, lift; simpl; by rewrite Hw|]. intros x.
  by rewrite (SendModules_moves _ _ _ _ _ Hw), coins_amount_same.
Qed.

Lemma burn_stake amt s : 0 < amt <= stake (modAddr (W := W)) (st_world s) ->
  exists w', on_world (BurnCoins ModuleName [mkCoin DefaultBondDenom amt]) s = (Ok tt, set_world w' s) /\
  forall x, stake x w' = stake x (st_world s) - (if decide (x = modAddr (W := W)) then amt else 0).
Proof.
  intros Hamt. destruct (BurnCoins_progress DefaultBondDenom amt (st_world s) Hamt) as [w Hw].
  exists w. split; [unfold on_world, lift; simpl; by rewrite Hw|]. intros x.
  by rewrite (BurnCoins_takes _ _ _ _ Hw), coins_amount_same.
Qed.

Lemma NewCoins1_pos den amt s : 0 < amt -> NewCoins1 den amt s = (Ok [mkCoin den amt], s).
Proof.
  intros Hamt. unfold NewCoins1. destruct (Z.ltb_spec amt 0); [lia|]. by destruct (Z.eqb_spec amt 0); [lia|].
Qed.

Lemma zero_coins_amount (den : string) (cs : Coins) : IsZero cs = true -> coins_amount den cs = 0.
Proof.
  rewrite IsZero_spec. induction 1 as [|c cs Hc Hcs IH]; [done|].
  rewrite coins_amount_cons, IH, Hc. by case_decide.
Qed.

Lemma reward_split_bounds params insured total : 0 <= total ->
  0 <= DeveloperPoolFee params -> 0 <= InsurancePoolFee params ->
  DeveloperPoolFee params + InsurancePoolFee params <= 100 ->
  let r := reward_split params insured total in
  0 <= to_insurance r /\ 0 <= to_developers r /\ 0 <= to_burn r /\
  to_insurance r + to_developers r + to_burn r = total.
Proof.
  intros Ht Hd Hf Hsum. cbv zeta. unfold reward_split.
  set (dev := total * DeveloperPoolFee params / 100). set (ins := total * InsurancePoolFee params / 100).
  assert (0 <= dev) by (apply Z.div_pos; nia). assert (0 <= ins) by (apply Z.div_pos; nia).
  assert (dev + ins <= total).
  { unfold dev, ins. etransitivity; [apply div_add_le; lia|]. apply Z.div_le_upper_bound; nia. }
  destruct (_ <=? _); simpl; lia.
Qed.

(** ** One validator *)

Abbreviation tier_acc := (modAddr (W := W)).

Lemma payInsurancePool_run params dev ins s :
  0 <= ins <= stake tier_acc (st_world s) -> pool InsurancePoolName <> tier_acc ->
  stake (pool InsurancePoolName) (st_world s) + ins <= int64_max ->
  let fits := stake (pool InsurancePoolName) (st_world s) + ins <=? InsurancePoolThreshold params in
  exists w', payInsurancePool params dev ins s
    = (Ok (Some (if fits then dev else dev + ins)), set_world w' s) /\
  forall x, stake x w' = stake x (st_world s)
    + (if fits then (if decide (x = pool InsurancePoolName) then ins else 0) - (if decide (x = tier_acc) then ins else 0) else 0).
Proof.
  intros Hins Hne Hmax. cbv zeta. unfold payInsurancePool. destruct (Z.eqb_spec ins 0) as [->|Hnz].
  { exists (st_world s). rewrite set_world_id, !Z.add_0_r. split; [by destruct (_ <=? _)|]. intros x.
    repeat case_decide; destruct (_ <=? _); lia. }
  erewrite bind_run_ok by done. destruct (Z.leb_spec (stake (pool InsurancePoolName) (st_world s) + ins)
    (InsurancePoolThreshold params)).
  2: { exists (st_world s). split; [by rewrite set_world_id|]. intros x. lia. }
  erewrite bind_run_ok by (apply NewCoins1_pos; lia).
  destruct (pay_pool InsurancePoolName ins s) as (w & Hw & Hs); [lia|done|].
  erewrite attempt_run_ok by exact Hw. erewrite bind_run_ok by done. cbn [st_world set_world].
  exists w. split; [|intros x; rewrite Hs; lia]. unfold panic_if, bind.
  replace (is_int64 (stake (pool InsurancePoolName) w)) with true; [done|]. symmetry.
  apply is_int64_spec. rewrite Hs, decide_False, decide_True by done.
  pose proof (GetBalance_nonneg (pool InsurancePoolName) DefaultBondDenom (st_world s)).
  unfold int64_min. lia.
Qed.

Lemma payDeveloperPool_run dev s :
  0 <= dev <= stake tier_acc (st_world s) -> pool DeveloperPoolName <> tier_acc ->
  stake (pool DeveloperPoolName) (st_world s) + dev <= int64_max ->
  exists w', payDeveloperPool dev s = (Ok true, set_world w' s) /\
  forall x, stake x w' = stake x (st_world s)
    + (if decide (x = pool DeveloperPoolName) then dev else 0) - (if decide (x = tier_acc) then dev else 0).
Proof.
  intros Hdev Hne Hmax. unfold payDeveloperPool. destruct (Z.eqb_spec dev 0) as [->|Hnz].
  { exists (st_world s). rewrite set_world_id. split; [done|]. intros x. repeat case_decide; lia. }
  erewrite bind_run_ok by (apply NewCoins1_pos; lia).
  destruct (pay_pool DeveloperPoolName dev s) as (w & Hw & Hs); [lia|done|].
  erewrite attempt_run_ok by exact Hw. erewrite bind_run_ok by done. cbn [st_world set_world].
  exists w. split; [|intros x; rewrite Hs; lia]. unfold panic_if, bind.
  replace (is_int64 (stake (pool DeveloperPoolName) w)) with true; [done|]. symmetry.
  apply is_int64_spec. rewrite Hs, decide_False, decide_True by done.
  pose proof (GetBalance_nonneg (pool DeveloperPoolName) DefaultBondDenom (st_world s)).
  unfold int64_min. lia.
Qed.

Lemma burnRewards_run amt s : 0 <= amt <= stake tier_acc (st_world s) ->
  exists w', burnRewards amt s = (Ok tt, set_world w' s) /\
  forall x, stake x w' = stake x (st_world s) - (if decide (x = tier_acc) then amt else 0).
Proof.
  intros Hamt. unfold burnRewards. destruct (Z.eqb_spec amt 0) as [->|Hnz].
  { exists (st_world s). rewrite set_world_id. split; [done|]. intros x. repeat case_decide; lia. }
  erewrite bind_run_ok by (apply NewCoins1_pos; lia).
  destruct (burn_stake amt s) as (w & Hw & Hs); [lia|]. erewrite attempt_run_ok by exact Hw. by exists w.
Qed.

Context {HDL : DistributionLaws W}.

(** When the bank accepts the transfers, the rewards withdrawn from a
    validator are split without remainder: the fees go to the developer pool and,
    while it stays within its threshold, to the insurance pool; everything else
    is burned, and the module's own account keeps what it had. *)
Theorem rewards_split params v s rewards w0 :
  let total := coins_amount DefaultBondDenom rewards in
  let r := reward_split params (stake (pool InsurancePoolName) (st_world s)) total in
  WithdrawDelegationRewards tier_acc v (st_world s) = (Ok rewards, w0) ->
  pool InsurancePoolName <> tier_acc -> pool DeveloperPoolName <> tier_acc ->
  pool InsurancePoolName <> pool DeveloperPoolName ->
  0 <= DeveloperPoolFee params -> 0 <= InsurancePoolFee params ->
  DeveloperPoolFee params + InsurancePoolFee params <= 100 ->
  stake (pool InsurancePoolName) (st_world s) + total <= int64_max ->
  stake (pool DeveloperPoolName) (st_world s) + total <= int64_max ->
  to_insurance r + to_developers r + to_burn r = total /\
  exists w', processValidatorRewards params v s = (Ok tt, set_world w' s) /\
  forall x, stake x w' = stake x (st_world s)
    + (if decide (x = pool InsurancePoolName) then to_insurance r else 0)
    + (if decide (x = pool DeveloperPoolName) then to_developers r else 0).
Proof.
  cbv zeta. set (total := coins_amount DefaultBondDenom rewards). intros Hw Hn1 Hn2 Hn3 Hf1 Hf2 Hf3 Hm1 Hm2.
  destruct (Withdraw_adds _ _ _ _ _ Hw) as [Hnn Hadd]. specialize (Hnn DefaultBondDenom). fold total in Hnn.
  destruct (reward_split_bounds params (stake (pool InsurancePoolName) (st_world s)) total) as (Hb1 & Hb2 & Hb3 & Hb4);
    [done..|]. split; [done|]. revert Hb1 Hb2 Hb3 Hb4.
  assert (Hst0 : forall x, stake x w0 = stake x (st_world s) + if decide (x = tier_acc) then total else 0) by (intros; apply Hadd).
  unfold processValidatorRewards. erewrite attempt_run_ok; [|unfold on_world, lift; simpl; by rewrite Hw].
  destruct (IsZero rewards) eqn:Ez.
  { pose proof (zero_coins_amount DefaultBondDenom rewards Ez) as Hz. fold total in Hz. intros Hb1 Hb2 Hb3 Hb4.
    exists w0. split; [done|]. intros x. rewrite Hst0, Hz in *. repeat case_decide; lia. }
  cbv zeta. fold total. rewrite !quot_div_nonneg by nia. unfold reward_split.
  set (dev := total * DeveloperPoolFee params / 100). set (ins := total * InsurancePoolFee params / 100).
  assert (Hdi : 0 <= dev /\ 0 <= ins /\ dev + ins <= total).
  { unfold dev, ins. split_and!; [apply Z.div_pos; nia|apply Z.div_pos; nia|].
    etransitivity; [apply div_add_le; lia|]. apply Z.div_le_upper_bound; nia. }
  pose proof (GetBalance_nonneg tier_acc DefaultBondDenom (st_world s)) as Hacc.
  set (s0 := set_world w0 s).
  assert (Hpool : stake (pool InsurancePoolName) (st_world s0) = stake (pool InsurancePoolName) (st_world s)).
  { unfold s0. cbn [st_world set_world]. rewrite Hst0, decide_False by done. lia. }
  destruct (payInsurancePool_run params dev ins s0) as (w1 & Hr1 & Hs1).
  { unfold s0. cbn [st_world set_world]. rewrite Hst0, decide_True by done. lia. }
  { done. }
  { rewrite Hpool. lia. }
  rewrite Hpool in Hr1, Hs1. erewrite bind_run_ok by exact Hr1. cbn [st_world set_world s0] in Hs1.
  set (fits := _ <=? _) in *. intros Hb1 Hb2 Hb3 Hb4.
  set (dev' := if fits then dev else dev + ins).
  destruct (payDeveloperPool_run dev' (set_world w1 s0)) as (w2 & Hr2 & Hs2).
  { cbn [st_world set_world]. rewrite Hs1, Hst0. unfold dev'. destruct fits; repeat case_decide; try congruence; lia. }
  { done. }
  { cbn [st_world set_world]. rewrite Hs1, Hst0. unfold dev'. destruct fits; repeat case_decide; try congruence; lia. }
  cbv beta match. erewrite bind_run_ok by exact Hr2. cbn [negb st_world set_world] in *.
  destruct (burnRewards_run (total - dev - ins) (set_world w2 (set_world w1 s0))) as (w3 & Hr3 & Hs3).
  { cbn [st_world set_world]. rewrite Hs2, Hs1, Hst0. unfold dev'. destruct fits; repeat case_decide; try congruence; lia. }
  exists w3. split; [exact Hr3|]. intros x. rewrite Hs3. cbn [st_world set_world]. rewrite Hs2, Hs1, Hst0.
  unfold dev'. destruct fits; simpl; repeat case_decide; try congruence; lia.
Qed.
End payout.

(** * Runs *)

(** The unbonded stake has arrived on the module's account. *)
Definition demo_unbonded : TierState World :=
  set_world (add_balance (module_address ModuleName) DefaultBondDenom 50 (st_world demo_unlocked)) demo_unlocked.

Lemma demo_unbonded_inv : tier_inv demo_unbonded.
Proof.
  destruct demo_unlock as (ct & ut & Hr). apply tier_inv_world.
  exact (preserves_ok _ _ _ _ _ (Unlock_preserves (at_time (day / 2) 0) alice val1 50 eq_refl eq_refl eq_refl)
    demo_locked_inv Hr).
Qed.

Lemma complete_unlocking_pays_witness : exists w',
  CompleteUnlocking (at_time unbonding_time 99) demo_unbonded
    = (Ok tt, set_unlocking ∅ (set_world w' demo_unbonded)) /\
  GetBalance alice DefaultBondDenom (st_world demo_unbonded) = 800 /\ GetBalance alice DefaultBondDenom w' = 850.
Proof.
  set (ctx := at_time unbonding_time 99). set (due := due_items (block_time ctx) (store_items (st_unlocking demo_unbonded))).
  assert (Hdue : owed alice due = 50 /\ owed_total due = 50) by (split; vm_compute; reflexivity).
  assert (H800 : GetBalance alice DefaultBondDenom (st_world demo_unbonded) = 800) by (vm_compute; reflexivity).
  assert (Hne : filter (fun ku : bytes * UnlockingLockup => ku.1 ∉ due.*1) (st_unlocking demo_unbonded) = ∅)
    by (vm_compute; reflexivity).
  destruct (complete_unlocking_pays ctx demo_unbonded) as ((w & Hrun & Hs) & _ & Hall).
  - exact demo_unbonded_inv.
  - apply (bool_decide_eq_true_1 _). vm_compute. reflexivity.
  - fold due in Hall. rewrite Hall in Hrun, Hs by (rewrite (proj2 Hdue); vm_compute; discriminate).
    exists w. rewrite Hne in Hrun. split; [exact Hrun|]. split; [exact H800|].
    specialize (Hs alice). rewrite (proj1 Hdue), H800, decide_False in Hs by (vm_compute; discriminate).
    exact Hs.
Defined.

(** A validator with 1000 of rewards for the module. *)
Definition rewarding_world : World :=
  set_rewards {[ (module_address ModuleName, val1) := [mkCoin DefaultBondDenom 1000] ]} demo_world.

Lemma rewards_split_witness : exists w',
  processValidatorRewards DefaultParams val1 (empty_tier rewarding_world) = (Ok tt, set_world w' (empty_tier rewarding_world)) /\
  GetBalance (module_address InsurancePoolName) DefaultBondDenom w' = 10 /\
  GetBalance (module_address DeveloperPoolName) DefaultBondDenom w' = 20.
Proof.
  set (s := empty_tier rewarding_world).
  destruct (is_ok_run (WithdrawDelegationRewards (modAddr (W := World)) val1) (st_world s)) as [rewards Hw];
    [vm_compute; reflexivity|].
  assert (Hr : rewards = [mkCoin DefaultBondDenom 1000]).
  { assert (Hv : (WithdrawDelegationRewards (modAddr (W := World)) val1 (st_world s)).1
      = Ok [mkCoin DefaultBondDenom 1000]) by (vm_compute; reflexivity).
    rewrite Hw in Hv. injection Hv as Hv. exact Hv. }
  subst rewards.
  destruct (rewards_split DefaultParams val1 s _ _ Hw) as (_ & w & Hrun & Hs).
  1-8: vm_compute; discriminate.
  exists w. split; [exact Hrun|]. split; [specialize (Hs (module_address InsurancePoolName))|
    specialize (Hs (module_address DeveloperPoolName))]; rewrite Hs; vm_compute; reflexivity.
Defined.
