(* ===== verification/TierSub.v ===== *)
(** Subscriptions and the allowances behind them
    (src/x/tier/keeper/subscription.go, keeper.go).

    Removing a developer removes its subscriptions and clears its total, unless
    the transaction carries a bearer token, which redirects the removals to
    another account. The allowance of a subscription is spent once: its limit is
    that of a single period. *)
From Stdlib Require Import Ascii ZArith Lia.
From stdpp Require Import base numbers list gmap strings.
From S2P Require Import Prelude Sdk Epochs FeeAllowance FeegrantKeys TierTypes TierCredit TierState TierKeeper TierModule TierWorld TierInv TierReach TierGranted.

Section subscriptions.
Context `{LegacyDecOps, CoinsOps, DecParser, AddressCodec, ValAddressCodec, MapRange}.
Context {W : Type} `{BankKeeper W, StakingKeeper W, EpochsKeeper W, DistributionKeeper W,
                     FeegrantKeeper W, AcpKeeper W} {HAL : AddressLaws W}.
Implicit Types (s : TierState W) (a b did : bytes) (amt : Z) (ctx : Ctx).
Abbreviation TM := (M (TierState W)).

(** ** The allowance *)

(** Whatever the period, the fees paid from the allowance of a subscription
    add up to at most one period's amount over its whole life: the amount is also
    the limit of the basic allowance inside, which no reset renews. *)
Theorem subscription_spent_once ctx amt period uses :
  0 < amt -> IsValid [mkCoin MicroCreditDenom amt] = true ->
  Forall (fun u => IsValid u.2 = true) uses ->
  spends (newPeriodicAllowance ctx [mkCoin MicroCreditDenom amt] period) uses ->
  total_fee MicroCreditDenom uses <= amt.
Proof.
  intros Hamt Hval Huses Hsp. eapply (spends_total_le _ uses MicroCreditDenom amt); [|done|exact Hsp|].
  - by split_and!.
  - unfold newPeriodicAllowance, limit_of, basic_limit. simpl. f_equal.
    unfold coins_amount. simpl. lia.
Qed.

(** The period of a subscription is its number of seconds up to
    9223372036 seconds; one second more makes it negative, and 2^55 seconds fall back to the epoch. *)
Theorem subscription_period_wraps p s :
  (0 < p <= 9223372036 -> subscriptionPeriod p s = (Ok (p * 1000000000), s)) /\
  (exists d, d < 0 /\ subscriptionPeriod 9223372037 s = (Ok d, s)) /\
  subscriptionPeriod (2 ^ 55) s = (params <- GetParams ;; epochDuration params) s.
Proof.
  split; [|split].
  - intros Hp. unfold subscriptionPeriod. cbv zeta.
    assert (Hp1 : wrap64 p = p) by (apply wrap64_small, is_int64_spec; unfold int64_min, int64_max; lia).
    rewrite Hp1. assert (Hp2 : wrap64 (p * 1000000000) = p * 1000000000)
      by (apply wrap64_small, is_int64_spec; unfold int64_min, int64_max; lia).
    rewrite Hp2. by destruct (Z.eqb_spec (p * 1000000000) 0); [lia|].
  - eexists. split; [|reflexivity]. vm_compute. reflexivity.
  - reflexivity.
Qed.

(** ** Removing a developer *)

(** A removal of an existing subscription fails only by a panic. *)
Lemma RemoveUserSubscription_removes ctx a did s :
  granted_inv s -> addr20 a -> extracted_did ctx = [] ->
  match RemoveUserSubscription ctx a did s with
  | (Panic, _) => True
  | (_, s') => st_subscriptions s' = delete (UserSubscriptionKey a did) (st_subscriptions s)
  end.
Proof.
  intros Hg Ha Hx. pose proof (RemoveUserSubscription_run ctx a did s) as Hr.
  assert (Hact : actingDeveloper ctx a s = (Ok a, s)) by (unfold actingDeveloper; by rewrite decide_True).
  destruct (RemoveUserSubscription ctx a did s) as [[[]|e|] s'] eqn:E; [| |done].
  - destruct Hr as (b & u & Hb & _ & Hs & _). rewrite Hact in Hb. injection Hb as <-. exact Hs.
  - subst s'. rewrite delete_id; [done|]. destruct (st_subscriptions s !! _) as [u|] eqn:Eu; [|done]. exfalso.
    unfold RemoveUserSubscription in E. erewrite bind_run_ok in E by exact Hact.
    erewrite bind_run_ok in E by done. rewrite Eu in E. unfold bind at 1 in E.
    rewrite updateGranted_run in E. cbv zeta in E. cbn [negb andb] in E.
    assert (Hle : CreditAmount u <= granted_total s a).
    { rewrite (granted_sum s Hg). destruct (granted_keys s Hg _ _ Eu) as [Hd Hk].
      destruct (UserSubscriptionKey_inj _ _ _ _ Ha Hd Hk) as [Hdev _].
      pose proof (map_sum_elem_le (fun _ u => if decide (sub_Developer u = a) then CreditAmount u else 0)
        (st_subscriptions s) (UserSubscriptionKey a did) u) as Hsum. cbv beta in Hsum.
      rewrite decide_True in Hsum by done. apply Hsum; [|exact Eu].
      intros k x Hk'. pose proof (granted_nonneg s Hg k x Hk'). by case_decide. }
    destruct (Z.ltb_spec (granted_total s a - CreditAmount u) 0); [lia|].
    destruct (negb (is_uint64 _)); [done|]. destruct (negb (is_int64 _)); [done|].
    erewrite bind_run_ok in E by done. unfold bind, attempt in E. by destruct (on_world _ _) as [[]].
Qed.

Lemma remove_loop ctx a l : addr20 a -> extracted_did ctx = [] -> forall s s',
  granted_inv s -> Forall (fun du : bytes * bytes => du.1 = a) l ->
  forM_ (fun sub => attempt (RemoveUserSubscription ctx sub.1 sub.2) ;;; ret tt) l s = (Ok tt, s') ->
  granted_inv s' /\ forall k,
    st_subscriptions s' !! k = if decide (k ∈ (fun du => UserSubscriptionKey a du.2) <$> l) then None
                               else st_subscriptions s !! k.
Proof.
  intros Ha Hx. induction l as [|[d did] l IH]; intros s s' Hg Hl Hr.
  - simpl in Hr. unfold ret in Hr. simplify_eq. done.
  - apply Forall_cons in Hl as [Hd Hl]. simpl in Hd. subst d. cbn [forM_] in Hr. ok_inv Hr. ok_inv Hrun.
    unfold ret in Hrun. simplify_eq. cbn [fst snd] in Hrun0.
    pose proof (RemoveUserSubscription_removes ctx a did s Hg Ha Hx) as Hrem.
    pose proof (RemoveUserSubscription_granted ctx a did Ha s Hg) as Hg'.
    assert (Hs0 : granted_inv s0 /\ st_subscriptions s0 = delete (UserSubscriptionKey a did) (st_subscriptions s)).
    { unfold attempt in Hrun0. destruct (RemoveUserSubscription ctx a did s) as [[]]; by simplify_eq. }
    destruct Hs0 as [Hg0 Hs0]. destruct (IH _ _ Hg0 Hl Hr) as [Hg1 Hs1]. split; [done|].
    intros k. rewrite Hs1, Hs0, fmap_cons. cbn [snd].
    destruct (decide (k = UserSubscriptionKey a did)) as [->|Hne].
    + rewrite lookup_delete_eq, (decide_True (P := _ ∈ _ :: _)) by left. by case_decide.
    + rewrite lookup_delete_ne by done. destruct (decide (k ∈ _ <$> l)) as [Hin|Hin].
      * by rewrite (decide_True (P := _ ∈ _ :: _)) by (by right).
      * rewrite (decide_False (P := _ ∈ _ :: _)); [done|]. rewrite elem_of_cons. tauto.
Qed.

Lemma prefix_of_key a d did : addr20 a -> addr20 d ->
  a `prefix_of` UserSubscriptionKey d did -> a = d.
Proof.
  intros Ha Hd [rest Hk]. unfold UserSubscriptionKey in Hk. rewrite <- ?app_assoc in Hk.
  symmetry in Hk. apply app_inj_1 in Hk as [? _]; [done|]. unfold addr20 in *. congruence.
Qed.

(** The subscriptions a removal collects: exactly the developer's. *)
Lemma collect_subscriptions a s : granted_inv s -> addr20 a -> exists l,
  mustIterateUserSubscriptionsForDeveloper a (fun acc d u _ => ret (acc ++ [(d, u)])) [] s = (Ok l, s) /\
  Forall (fun du => du.1 = a) l /\
  forall did u, st_subscriptions s !! UserSubscriptionKey a did = Some u -> (a, did) ∈ l.
Proof.
  intros Hg Ha. set (items := store_prefix_items a (st_subscriptions s)).
  assert (Hitems : forall k u, (k, u) ∈ items ->
    sub_Developer u = a /\ k = UserSubscriptionKey a (sub_UserDid u)).
  { intros k u [Hp Hk]%elem_of_store_prefix_items. destruct (granted_keys s Hg k u Hk) as [Hd ->].
    apply prefix_of_key in Hp as <-; done. }
  exists ((fun ku => (a, sub_UserDid ku.2)) <$> items). split; [|split].
  - unfold mustIterateUserSubscriptionsForDeveloper. erewrite bind_run_ok by done. fold items.
    unfold iterate. erewrite (foldM_pure _ (fun acc ku => acc ++ [(a, sub_UserDid ku.2)])).
    + by rewrite foldl_collect.
    + intros acc [k u] Hin. destruct (Hitems k u Hin) as [Hd ->]. cbn [fst snd].
      unfold of_outcome, bind. rewrite parse_UserSubscriptionKey by done. done.
  - apply Forall_fmap, Forall_forall. done.
  - intros did u Hu. apply list_elem_of_fmap. destruct (granted_keys s Hg _ _ Hu) as [Hd Hk].
    destruct (UserSubscriptionKey_inj _ _ _ _ Ha Hd Hk) as [_ Hdid].
    exists (UserSubscriptionKey a did, u). split; [by subst|]. apply elem_of_store_prefix_items.
    split; [|done]. unfold UserSubscriptionKey. by eexists; rewrite <- ?app_assoc.
Qed.

Lemma RemoveDeveloper_inv ctx a s s' : granted_inv s -> addr20 a ->
  RemoveDeveloper ctx a s = (Ok tt, s') ->
  exists l s1, Forall (fun du : bytes * bytes => du.1 = a) l /\
    (forall did u, st_subscriptions s !! UserSubscriptionKey a did = Some u -> (a, did) ∈ l) /\
    forM_ (fun sub => attempt (RemoveUserSubscription ctx sub.1 sub.2) ;;; ret tt) l s = (Ok tt, s1) /\
    s' = set_developers (delete (DeveloperKey a) (st_developers s1)) s1.
Proof.
  intros Hg Ha Hr. unfold RemoveDeveloper in Hr. erewrite bind_run_ok in Hr by done.
  destruct (st_developers s !! DeveloperKey a); [|done].
  destruct (collect_subscriptions a s Hg Ha) as (l & Hl & Hall & Hin). erewrite bind_run_ok in Hr by exact Hl.
  ok_inv Hr. destruct a0. unfold removeDeveloper, modify in Hr. simplify_eq. eauto 10.
Qed.

(** Removing a developer in a transaction without a bearer token removes
    all its subscriptions and its record and leaves nothing granted; every
    subscription of another developer stays. *)
Theorem remove_developer_clears ctx a s s' :
  tier_reachable s -> addr20 a -> extracted_did ctx = [] -> RemoveDeveloper ctx a s = (Ok tt, s') ->
  st_developers s' !! DeveloperKey a = None /\ granted_total s' a = 0 /\
  forall b did, addr20 b -> st_subscriptions s' !! UserSubscriptionKey b did
    = if decide (b = a) then None else st_subscriptions s !! UserSubscriptionKey b did.
Proof.
  intros Hreach Ha Hx Hr. apply tier_reachable_granted in Hreach as Hg.
  destruct (RemoveDeveloper_inv ctx a s s' Hg Ha Hr) as (l & s1 & Hall & Hin & Hloop & ->).
  destruct (remove_loop ctx a l Ha Hx s s1 Hg Hall Hloop) as [Hg1 Hs1].
  assert (Hsubs : forall b did, addr20 b -> st_subscriptions s1 !! UserSubscriptionKey b did
    = if decide (b = a) then None else st_subscriptions s !! UserSubscriptionKey b did).
  { intros b did Hb. rewrite Hs1. case_decide as Hk.
    - apply list_elem_of_fmap in Hk as ([d did'] & Hk & _). simpl in Hk.
      apply UserSubscriptionKey_inj in Hk as [-> _]; [|done|done]. by rewrite decide_True.
    - case_decide as Hab; [|done]. subst b. destruct (st_subscriptions s !! _) as [u|] eqn:Eu; [|done].
      exfalso. apply Hk, list_elem_of_fmap. exists (a, did). split; [done|]. by eapply Hin. }
  simpl. split; [apply lookup_delete_eq|]. split; [|exact Hsubs].
  change (granted_total s1 a = 0). rewrite (granted_sum s1 Hg1). apply map_sum_zero. intros k u Hk.
  destruct (granted_keys s1 Hg1 k u Hk) as [Hd ->]. rewrite Hsubs in Hk by done. by destruct (decide (sub_Developer u = a)).
Qed.

Lemma RemoveUserSubscription_resolves ctx a did b :
  (forall d u w r w', fk_ExpireDIDAllowance ctx d u w = (r, w') ->
     GetAddressFromDID (extracted_did ctx) w' = GetAddressFromDID (extracted_did ctx) w) ->
  preserves (fun s => GetAddressFromDID (extracted_did ctx) (st_world s) = inl b) (RemoveUserSubscription ctx a did).
Proof.
  intros Hex. unfold RemoveUserSubscription, actingDeveloper, GetUserSubscription, updateDeveloperTotalGranted,
    getTotalDevGranted, from_world, of_sum. preserve; try (apply preserves_modify; done).
  intros s Hs. unfold on_world, lift. simpl.
  match goal with |- context [fk_ExpireDIDAllowance ?c ?d ?u ?w] => destruct (fk_ExpireDIDAllowance c d u w) as [r w'] eqn:E end.
  apply Hex in E. destruct r; simpl; [by rewrite E|by rewrite E|done].
Qed.

(** With a bearer token that resolves to another account [b], removing the
    developer [a] drops its record but leaves every one of its subscriptions in
    place: the removals were made in the name of [b]. *)
Theorem remove_developer_orphans ctx a b s s' :
  tier_reachable s -> addr20 a -> addr20 b -> a <> b -> extracted_did ctx <> [] ->
  GetAddressFromDID (extracted_did ctx) (st_world s) = inl b ->
  (forall d u w r w', fk_ExpireDIDAllowance ctx d u w = (r, w') ->
     GetAddressFromDID (extracted_did ctx) w' = GetAddressFromDID (extracted_did ctx) w) ->
  RemoveDeveloper ctx a s = (Ok tt, s') ->
  st_developers s' !! DeveloperKey a = None /\
  forall did, st_subscriptions s' !! UserSubscriptionKey a did = st_subscriptions s !! UserSubscriptionKey a did.
Proof.
  intros Hreach Ha Hb Hab Hx Hres Hex Hr. apply tier_reachable_granted in Hreach as Hg.
  destruct (RemoveDeveloper_inv ctx a s s' Hg Ha Hr) as (l & s1 & _ & _ & Hloop & ->).
  split; [apply lookup_delete_eq|]. intros did. simpl.
  refine (proj2 (preserves_ok (fun s0 => GetAddressFromDID (extracted_did ctx) (st_world s0) = inl b /\
    st_subscriptions s0 !! UserSubscriptionKey a did = st_subscriptions s !! UserSubscriptionKey a did)
    _ s tt s1 _ (conj Hres eq_refl) Hloop)).
  apply preserves_forM_. intros [d did']. apply preserves_bind; [|intros; apply preserves_ret].
  apply preserves_attempt. intros s0 [Hs0 Hs1]. cbn [fst snd].
  pose proof (RemoveUserSubscription_run ctx d did' s0) as Hrem.
  pose proof (RemoveUserSubscription_resolves ctx d did' b Hex s0 Hs0) as Hw.
  destruct (RemoveUserSubscription ctx d did' s0) as [[[]|e|] s2]; [|by subst|done].
  destruct Hrem as (b' & u & Hact & _ & Hs & _). destruct (actingDeveloper_ok _ _ _ _ _ Hact) as (_ & _ & Hb').
  specialize (Hb' Hx). rewrite Hs0 in Hb'. simplify_eq. split; [done|]. rewrite Hs, lookup_delete_ne; [exact Hs1|].
  intros Hk. apply UserSubscriptionKey_inj in Hk as [? _]; congruence.
Qed.
End subscriptions.

(** * Runs *)

Lemma subscription_spent_once_witness :
  total_fee MicroCreditDenom [(witness_ctx 20, ucredits 30); (witness_ctx 60, ucredits 50)] <= 100.
Proof.
  apply (subscription_spent_once (witness_ctx 0) 100 10); [lia|by vm_compute| |].
  - by repeat constructor.
  - eapply (spends_keep _ _ _ []); [by vm_compute..|].
    eapply (spends_keep _ _ _ []); [by vm_compute..|constructor].
Defined.

Abbreviation demo_subs := (demo_after demo_ops).

Lemma remove_developer_clears_witness : exists s',
  RemoveDeveloper (at_time day 20) alice demo_subs = (Ok tt, s') /\
  granted_total demo_subs alice = 50 /\ granted_total s' alice = 0.
Proof.
  destruct (is_ok_run (RemoveDeveloper (at_time day 20) alice) demo_subs) as [[] Hr]; [vm_compute; reflexivity|].
  assert (H50 : granted_total demo_subs alice = 50) by (vm_compute; reflexivity).
  destruct (remove_developer_clears (at_time day 20) alice demo_subs _ demo_subscribed_reachable eq_refl eq_refl Hr)
    as (_ & H0 & _).
  eexists. split; [exact Hr|]. split; [exact H50|exact H0].
Defined.

(** The DID of the token is bob's. *)
Definition did_world : World :=
  mkWorld (w_balances demo_world) (w_validators demo_world) ∅ ∅ tier_epochs ∅ {[ lit "did:key:bob" := bob ]}.
Definition demo_did : TierState World := (run_tier_op (OpWorld did_world) demo_subs).2.

Lemma remove_developer_orphans_witness : exists s',
  RemoveDeveloper (mkCtx day 20 (lit "did:key:bob")) alice demo_did = (Ok tt, s') /\
  st_subscriptions s' !! UserSubscriptionKey alice (lit "did:key:user")
  = st_subscriptions demo_did !! UserSubscriptionKey alice (lit "did:key:user").
Proof.
  assert (Hreach : tier_reachable demo_did).
  { exact (tier_reachable_run demo_subs (OpWorld did_world) demo_subscribed_reachable I eq_refl). }
  destruct (is_ok_run (RemoveDeveloper (mkCtx day 20 (lit "did:key:bob")) alice) demo_did) as [[] Hr];
    [vm_compute; reflexivity|].
  set (s1 := (RemoveDeveloper (mkCtx day 20 (lit "did:key:bob")) alice demo_did).2) in *.
  assert (Hres : GetAddressFromDID (lit "did:key:bob") (st_world demo_did) = inl bob) by (vm_compute; reflexivity).
  destruct (remove_developer_orphans (mkCtx day 20 (lit "did:key:bob")) alice bob demo_did s1 Hreach eq_refl eq_refl)
    as [_ Hs]; [discriminate|discriminate|exact Hres| |exact Hr|].
  - intros d u w r w' Hf. unfold fk_ExpireDIDAllowance, world_feegrant, throw in Hf. injection Hf as _ <-. reflexivity.
  - exists s1. split; [exact Hr|exact (Hs (lit "did:key:user"))].
Defined.
