(* ===== verification/TierSlash.v ===== *)
(** What a slash does to the lockups (src/x/tier/keeper/lockup.go, slashing.go).

    Every lockup with the validator is scaled by the slashing rate and gains the
    covered part as insurance; the other lockups stay. The rate itself is taken
    from the validator's stake after the slash, so that the records end up below
    the stake they stand for. *)
From Stdlib Require Import Ascii ZArith Lia.
From stdpp Require Import base numbers list gmap strings.
From S2P Require Import Prelude Sdk Epochs FeeAllowance TierTypes TierCredit TierState TierKeeper TierModule TierWorld TierInv TierReach TierEpoch TierLock TierUnlock.

(** A fraction of an amount, rounded down. *)
Definition scaled `{LegacyDecOps} (rate amt : Z) : Z := dec_truncate (dec_mul (dec_of_int amt) rate).

(** The insurance of a lockup of [amt] after a slash. *)
Definition insured_after `{LegacyDecOps} (rate cov amt insured : Z) : Z :=
  if scaled rate amt =? amt then insured
  else if scaled rate amt =? 0 then 0 else insured + scaled cov amt.

Section slash.
Context `{LegacyDecOps, CoinsOps, DecParser, AddressCodec, ValAddressCodec, MapRange}.
Context {W : Type} `{BankKeeper W, StakingKeeper W, EpochsKeeper W, DistributionKeeper W,
                     FeegrantKeeper W, AcpKeeper W}.
Implicit Types (s : TierState W) (d v : bytes) (amt rate cov : Z).
Abbreviation TM := (M (TierState W)).

Lemma scaled_zero_rate amt : scaled 0 amt = 0.
Proof. unfold scaled, dec_truncate. by rewrite dec_mul_int, Z.mul_0_r. Qed.

(** Only the record of [d] and [v] changes, as the rates say. *)
Definition adjusted d v rate cov s s' : Prop :=
  (forall k, k <> LockupKey d v ->
     st_lockups s' !! k = st_lockups s !! k /\ st_insurance s' !! k = st_insurance s !! k) /\
  locked_at s' d v = scaled rate (locked_at s d v) /\
  insured_at s' d v = insured_after rate cov (locked_at s d v) (insured_at s d v).

Lemma adjustLockup_run d v rate cov s l : tier_inv s -> lockup_sum (st_lockups s) <= int64_max ->
  0 <= rate <= precision -> 0 <= cov -> st_lockups s !! LockupKey d v = Some l ->
  exists s', adjustLockup d v rate cov s = (Ok tt, s') /\ adjusted d v rate cov s s'.
Proof.
  intros Hi Hmax Hrate Hcov E. unfold adjustLockup. erewrite bind_run_ok by done. rewrite E. cbv zeta.
  destruct (inv_lockups s Hi _ _ E) as [_ Hpos].
  pose proof (slash_amount_range (Amount l) rate ltac:(lia) Hrate) as Hrange.
  fold (scaled rate (Amount l)) (scaled cov (Amount l)) in *.
  assert (Hl : locked_at s d v = Amount l) by (unfold locked_at; by rewrite E).
  unfold adjusted, insured_after. rewrite Hl. set (after := scaled rate (Amount l)) in *.
  destruct (Z.eqb_spec after (Amount l)) as [Heq|Hne].
  { exists s. split; [done|]. split; [done|]. split; [congruence|done]. }
  erewrite bind_run_ok by done.
  assert (Hsum : Amount l <= lockup_sum (st_lockups s)).
  { apply (map_sum_elem_le (fun _ l => Amount l) _ (LockupKey d v) l); [|done].
    intros k' l' Hk'. apply (inv_lockups s Hi) in Hk'. lia. }
  unfold bind at 1. rewrite setTotalLockupsAmount_run, (inv_total s Hi).
  replace (is_int64 _) with true by (symmetry; apply is_int64_spec; unfold int64_min; lia).
  assert (Hc0 : cov <= 0 -> scaled cov (Amount l) = 0).
  { intros Hc. replace cov with 0 by lia. apply scaled_zero_rate. }
  set (covered := scaled cov (Amount l)) in *. clearbody covered.
  unfold locked_at, insured_at. destruct (Z.eqb_spec after 0) as [Hz|Hnz].
  - eexists. split; [done|]. simpl. rewrite !lookup_delete_eq. simpl. split; [|done].
    intros k Hk. by rewrite !lookup_delete_ne by done.
  - erewrite bind_run_ok by done. unfold when. destruct (Z.ltb_spec 0 cov).
    + eexists. split; [done|]. simpl. rewrite !lookup_insert_eq. simpl. split.
      * intros k Hk. by rewrite !lookup_insert_ne by done.
      * split; [done|]. destruct (st_insurance s !! LockupKey d v); simpl; lia.
    + eexists. split; [done|]. simpl. rewrite !lookup_insert_eq. simpl. split.
      * intros k Hk. by rewrite !lookup_insert_ne by done.
      * split; [done|]. rewrite Hc0 by lia. lia.
Qed.

Lemma adjustLockup_sum d v rate cov s s' : tier_inv s -> addr20 d -> addr20 v ->
  0 <= rate <= precision -> tier_inv s' -> adjusted d v rate cov s s' ->
  lockup_sum (st_lockups s') <= lockup_sum (st_lockups s).
Proof.
  intros Hi Hd Hv Hrate Hi' (Hk & Hl & _).
  assert (Hput : forall s0, tier_inv s0 -> lockup_sum (st_lockups s0)
    = lockup_sum (delete (LockupKey d v) (st_lockups s0)) + locked_at s0 d v).
  { intros s0 Hi0. unfold locked_at. destruct (st_lockups s0 !! LockupKey d v) as [l|] eqn:E; simpl.
    - pose proof (map_sum_delete (fun _ l => Amount l) _ _ _ E) as Hm. cbv beta in Hm. unfold lockup_sum. lia.
    - rewrite delete_id by done. lia. }
  rewrite (Hput s Hi), (Hput s' Hi'), Hl.
  replace (delete (LockupKey d v) (st_lockups s')) with (delete (LockupKey d v) (st_lockups s)).
  - pose proof (slash_amount_range (locked_at s d v) rate (locked_at_nonneg s d v Hi) Hrate) as Hr.
    fold (scaled rate (locked_at s d v)) in Hr. lia.
  - apply map_eq. intros k. destruct (decide (k = LockupKey d v)) as [->|Hne].
    + by rewrite !lookup_delete_eq.
    + rewrite !lookup_delete_ne by done. symmetry. by apply Hk.
Qed.

Abbreviation adjust_body v rate cov := (fun (_ : unit) (kl : bytes * Lockup) =>
  if decide (ValidatorAddress kl.2 = v)
  then adjustLockup (DelegatorAddress kl.2) (ValidatorAddress kl.2) rate cov else ret tt : TM unit).

(** The keys of the lockups with a validator. *)
Definition keys_of v (items : list (bytes * Lockup)) : list bytes :=
  (filter (fun kl => ValidatorAddress kl.2 = v) items).*1.

Lemma keys_of_cons v k l items :
  keys_of v ((k, l) :: items) = (if decide (ValidatorAddress l = v) then [k] else []) ++ keys_of v items.
Proof. unfold keys_of. rewrite filter_cons. simpl. by case_decide. Qed.

Lemma adjust_loop v rate cov items : 0 <= rate <= precision -> 0 <= cov -> forall s,
  tier_inv s -> lockup_sum (st_lockups s) <= int64_max -> NoDup items.*1 ->
  Forall (fun kl => st_lockups s !! kl.1 = Some kl.2) items ->
  exists s', foldM (adjust_body v rate cov) tt items s = (Ok tt, s') /\ tier_inv s' /\
  forall d v', addr20 d -> addr20 v' ->
    locked_at s' d v' = (if decide (LockupKey d v' ∈ keys_of v items)
                         then scaled rate (locked_at s d v') else locked_at s d v') /\
    insured_at s' d v' = (if decide (LockupKey d v' ∈ keys_of v items)
                          then insured_after rate cov (locked_at s d v') (insured_at s d v') else insured_at s d v').
Proof.
  intros Hrate Hcov. induction items as [|[k l] items IH]; intros s Hi Hmax Hnd Hin; [by exists s|].
  apply NoDup_cons in Hnd as [Hnk Hnd]. apply Forall_cons in Hin as [Hk Hin]. cbn [fst snd] in *.
  destruct (inv_lockups s Hi k l Hk) as [(Hd & Hv & ->) _]. cbn [foldM snd].
  rewrite keys_of_cons. destruct (decide (ValidatorAddress l = v)) as [<-|Hne].
  - destruct (adjustLockup_run _ _ rate cov s l Hi Hmax Hrate Hcov Hk) as (s1 & Hrun & Hadj).
    pose proof (preserves_ok _ _ _ _ _ (adjustLockup_preserves _ _ rate cov Hd Hv Hrate Hcov) Hi Hrun) as Hi1.
    pose proof (adjustLockup_sum _ _ _ _ _ _ Hi Hd Hv Hrate Hi1 Hadj) as Hsum.
    destruct Hadj as (Hsame & Hl & Hins).
    destruct (IH s1 Hi1 ltac:(lia) Hnd) as (s2 & Hrun2 & Hi2 & Hall).
    { rewrite Forall_forall in Hin |- *. intros [k' l'] Hk'. specialize (Hin _ Hk'). simpl in *.
      destruct (Hsame k') as [-> _]; [|done]. intros ->. apply Hnk, list_elem_of_fmap. by exists (LockupKey (DelegatorAddress l) (ValidatorAddress l), l'). }
    exists s2. erewrite bind_run_ok by exact Hrun. split; [done|]. split; [done|]. intros d v' Hd' Hv'.
    destruct (Hall d v' Hd' Hv') as [Hl2 Hins2]. rewrite Hl2, Hins2. cbn [app].
    destruct (decide (LockupKey d v' = LockupKey (DelegatorAddress l) (ValidatorAddress l))) as [Heq|Hneq].
    + apply LockupKey_inj in Heq as [-> ->]; [|done..]. rewrite !(decide_True (P := _ ∈ _ :: _)) by left.
      rewrite !decide_False; [done|..]; intros Hx; apply Hnk; unfold keys_of in Hx;
        apply list_elem_of_fmap in Hx as (kl & -> & [_ Hx]%list_elem_of_filter); apply list_elem_of_fmap; eauto.
    + unfold locked_at, insured_at. destruct (Hsame _ Hneq) as [-> ->].
      destruct (decide (LockupKey d v' ∈ keys_of _ items)) as [Hx|Hx].
      * by rewrite !(decide_True (P := _ ∈ _ :: _)) by (by right).
      * rewrite !(decide_False (P := _ ∈ _ :: _)); [done|..]; rewrite elem_of_cons; tauto.
  - destruct (IH s Hi Hmax Hnd Hin) as (s2 & Hrun2 & Hi2 & Hall). exists s2. by erewrite bind_run_ok by done.
Qed.

Lemma key_in_store s d v' v : tier_inv s -> addr20 d -> addr20 v' ->
  LockupKey d v' ∈ keys_of v (store_items (st_lockups s)) <->
  v' = v /\ is_Some (st_lockups s !! LockupKey d v').
Proof.
  intros Hi Hd Hv'. unfold keys_of. rewrite list_elem_of_fmap. split.
  - intros ([k l] & Hk & [Hv Hin]%list_elem_of_filter). cbn [fst snd] in *. subst k.
    apply elem_of_store_items in Hin. destruct (inv_lockups s Hi _ _ Hin) as [(Hd2 & Hv2 & Hk2) _].
    apply LockupKey_inj in Hk2 as [_ Hv3]; [|done..]. split; [congruence|eauto].
  - intros [-> [l Hl]]. exists (LockupKey d v, l). split; [done|]. apply list_elem_of_filter.
    rewrite elem_of_store_items. split; [|done]. cbn [snd].
    destruct (inv_lockups s Hi _ _ Hl) as [(Hd2 & Hv2 & Hk2) _]. by apply LockupKey_inj in Hk2 as [_ ->].
Qed.

Lemma adjustLockups_run v rate cov s : tier_inv s -> lockup_sum (st_lockups s) <= int64_max ->
  0 <= rate <= precision -> 0 <= cov ->
  exists s', adjustLockups v rate cov s = (Ok tt, s') /\ tier_inv s' /\
  forall d v', addr20 d -> addr20 v' ->
    locked_at s' d v' = (if decide (v' = v) then scaled rate (locked_at s d v') else locked_at s d v') /\
    insured_at s' d v' = (if decide (v' = v)
      then insured_after rate cov (locked_at s d v') (insured_at s d v') else insured_at s d v').
Proof.
  intros Hi Hmax Hrate Hcov.
  destruct (adjust_loop v rate cov (store_items (st_lockups s)) Hrate Hcov s Hi Hmax) as (s' & Hrun & Hi' & Hall).
  { apply store_items_NoDup. }
  { apply Forall_forall. intros [k l] Hk. by apply elem_of_store_items. }
  exists s'. split; [unfold adjustLockups; by rewrite mustIterateLockups_run|]. split; [done|].
  intros d v' Hd Hv'. destruct (Hall d v' Hd Hv') as [-> ->].
  destruct (decide (v' = v)) as [->|Hne]; destruct (decide (LockupKey d _ ∈ _)) as [Hin|Hin]; try done.
  - assert (Hn : st_lockups s !! LockupKey d v = None).
    { destruct (st_lockups s !! LockupKey d v) eqn:E; [|done]. exfalso. apply Hin, key_in_store; eauto. }
    assert (Hz : locked_at s d v = 0) by (unfold locked_at; by rewrite Hn). rewrite Hz.
    unfold insured_after, scaled, dec_truncate. by rewrite dec_mul_int.
  - by apply key_in_store in Hin as [-> _].
Qed.

(** Adjusting after a slash succeeds for any rate between zero and one: each
    lockup with the validator becomes that fraction of itself, rounded down, and
    gains the covered fraction as insurance; the lockups and the insurance with
    other validators stay, and the records remain consistent. *)
Theorem slash_scales_lockups v rate cov s : tier_inv s -> lockup_sum (st_lockups s) <= int64_max ->
  0 <= rate <= precision -> 0 <= cov ->
  exists s', adjustLockups v rate cov s = (Ok tt, s') /\ tier_inv s' /\
  forall d v', addr20 d -> addr20 v' ->
    locked_at s' d v' = (if decide (v' = v) then scaled rate (locked_at s d v') else locked_at s d v') /\
    insured_at s' d v' = (if decide (v' = v)
      then insured_after rate cov (locked_at s d v') (insured_at s d v') else insured_at s d v').
Proof. apply adjustLockups_run. Qed.

(** ** The rate *)

Lemma overslash_rate (T x : Z) : 0 < x -> 2 * x <= T -> T <= 10 ^ 8 * x ->
  scaled (dec_quo (dec_of_int T - dec_of_int x) (dec_of_int T)) (T + x) < T.
Proof.
  intros Hx Ht Hf. assert (Hp : precision = 10 ^ 18) by done.
  pose proof (dec_quo_nearest (dec_of_int T - dec_of_int x) (dec_of_int T)) as Hq.
  pose proof (dec_quo_unit (dec_of_int T - dec_of_int x) (dec_of_int T)) as Hu.
  unfold dec_of_int in *. set (q := dec_quo _ _) in *.
  specialize (Hq ltac:(lia)). specialize (Hu ltac:(lia) ltac:(lia)).
  unfold scaled, dec_truncate. rewrite dec_mul_int. rewrite quot_div_nonneg by nia.
  apply Z.div_lt_upper_bound; [lia|].
  assert (Hm1 : 2 * (q * T * precision) <= 2 * (T - x) * precision * precision + (precision + 2) * T).
  { assert (2 * (q * (T * precision) * precision - (T * precision - x * precision) * precision * precision)
      <= (precision + 2) * (T * precision)) by lia. nia. }
  assert (Hm2 : (T + x) * (2 * (q * T * precision))
    <= (T + x) * (2 * (T - x) * precision * precision + (precision + 2) * T)) by (apply Z.mul_le_mono_nonneg_l; lia).
  assert (Hm3 : (T + x) * T * (precision + 2) < 2 * (x * x) * (precision * precision)).
  { assert ((T + x) * T <= 2 * (10 ^ 8 * x) * (10 ^ 8 * x)) by nia. rewrite Hp. nia. }
  assert (Hm4 : (2 * precision * T) * ((T + x) * q) < (2 * precision * T) * (precision * T)) by nia.
  apply Z.mul_lt_mono_pos_l in Hm4; [done|nia].
Qed.

(** The slashing rate divides by the stake that is left after the slash.
    When the module holds all of a validator's stake and one lockup all of the
    module's, a slash of [x] that leaves [T] takes that lockup, worth [T + x]
    before, strictly below the [T] that its stake is still worth. *)
Theorem double_sign_overslashes e s v val shares d T x :
  tier_inv s -> lockup_sum (st_lockups s) <= int64_max -> addr20 d -> addr20 v ->
  event_Type e = lit "slash" -> attribute (lit "reason") (event_Attributes e) = lit "double_sign" ->
  ValAddressFromBech32 (attribute (lit "address") (event_Attributes e)) = inl v ->
  LegacyNewDecFromStr (attribute (lit "burned") (event_Attributes e)) = inl (dec_of_int x) ->
  GetValidator v (st_world s) = inl val -> Tokens val = T ->
  GetDelegation (modAddr (W := W)) v (st_world s) = inl shares -> shares <> 0 ->
  TokensFromSharesTruncated val shares = dec_of_int T ->
  0 < x -> 2 * x <= T -> T <= 10 ^ 8 * x -> locked_at s d v = T + x ->
  exists s', handleSlashEvent e s = (Ok tt, s') /\ locked_at s' d v < T.
Proof.
  intros Hi Hmax Hd Hv Ht Hreason Haddr Hburn Hval HT Hdel Hsh Hstake Hx H2x Hf Hl.
  set (rate := dec_quo (dec_of_int T - dec_of_int x) (dec_of_int T)).
  assert (Hp : precision = 10 ^ 18) by done.
  assert (Hrate : 0 <= rate <= precision) by (apply dec_quo_unit; unfold dec_of_int; lia).
  destruct (adjustLockups_run v rate 0 s Hi Hmax Hrate ltac:(lia)) as (s' & Hrun & _ & Hall).
  exists s'. split.
  2: { destruct (Hall d v Hd Hv) as [-> _]. rewrite decide_True, Hl by done. by apply overslash_rate. }
  unfold handleSlashEvent. rewrite bool_decide_true by done. cbn [negb]. cbv zeta.
  rewrite (bool_decide_true (_ = lit "double_sign")) by done.
  erewrite attempt_run_ok; [done|]. unfold handleDoubleSign.
  erewrite bind_run_ok; cycle 1.
  { unfold tierStakeOf. rewrite Haddr, Hburn. do 2 erewrite bind_run_ok by done. unfold throw_if at 1.
    destruct (Z.eqb_spec (dec_of_int x) 0) as [Hz|_]; [unfold dec_of_int in Hz; lia|].
    do 2 erewrite bind_run_ok by done. rewrite Hval. erewrite bind_run_ok by done. cbv zeta. rewrite HT.
    unfold throw_if at 1. destruct (Z.eqb_spec (dec_of_int T) 0) as [Hz|_]; [unfold dec_of_int in Hz; lia|].
    do 2 erewrite bind_run_ok by done. rewrite Hdel. erewrite bind_run_ok by done. unfold throw_if.
    destruct (Z.eqb_spec shares 0) as [Hz|_]; [exfalso; exact (Hsh Hz)|].
    erewrite bind_run_ok by (unfold ret; reflexivity). rewrite Hstake. unfold ret. reflexivity. }
  cbv beta match. unfold Quo at 1. destruct (Z.eqb_spec (dec_of_int T) 0) as [Hz|_]; [unfold dec_of_int in Hz; lia|].
  erewrite bind_run_ok by done. cbv zeta.
  assert (Hq : dec_quo (dec_of_int T) (dec_of_int T) = precision).
  { apply dec_quo_exact; unfold dec_of_int; nia. }
  rewrite Hq, dec_mul_int. fold (dec_of_int x). unfold throw_if.
  destruct (Z.eqb_spec (dec_of_int x) 0) as [Hz|_]; [unfold dec_of_int in Hz; lia|].
  erewrite bind_run_ok by done. unfold Quo.
  destruct (Z.eqb_spec (dec_of_int T) 0) as [Hz|_]; [unfold dec_of_int in Hz; lia|].
  by erewrite bind_run_ok by done.
Qed.
End slash.

(** * Runs *)

Lemma demo_locked_sum : lockup_sum (st_lockups demo_locked) <= int64_max.
Proof. vm_compute. discriminate. Qed.

Lemma slash_scales_lockups_witness : exists s',
  adjustLockups val1 (95 * 10 ^ 16) (5 * 10 ^ 16) demo_locked = (Ok tt, s') /\
  locked_at s' alice val1 = 190 /\ insured_at s' alice val1 = 10.
Proof.
  assert (H200 : locked_at demo_locked alice val1 = 200) by (vm_compute; reflexivity).
  assert (H0 : insured_at demo_locked alice val1 = 0) by (vm_compute; reflexivity).
  assert (Hs : scaled (95 * 10 ^ 16) 200 = 190) by (vm_compute; reflexivity).
  assert (Hc : insured_after (95 * 10 ^ 16) (5 * 10 ^ 16) 200 0 = 10) by (vm_compute; reflexivity).
  destruct (slash_scales_lockups val1 (95 * 10 ^ 16) (5 * 10 ^ 16) demo_locked demo_locked_inv demo_locked_sum)
    as (s' & Hrun & _ & Hall); [unfold precision; lia|lia|].
  exists s'. split; [exact Hrun|]. destruct (Hall alice val1 eq_refl eq_refl) as [Hl Hn].
  rewrite decide_True, H200 in Hl by reflexivity. rewrite decide_True, H200, H0 in Hn by reflexivity.
  rewrite Hs in Hl. rewrite Hc in Hn. exact (conj Hl Hn).
Defined.

Lemma double_sign_overslashes_witness : exists s',
  handleSlashEvent (slash_of "10") (set_world (slashed_world 190) demo_locked) = (Ok tt, s') /\ locked_at s' alice val1 < 190.
Proof.
  refine (double_sign_overslashes (slash_of "10") (set_world (slashed_world 190) demo_locked) val1 (mkValidator val1 190 true)
    (dec_of_int 190) alice 190 10 (tier_inv_world (slashed_world 190) demo_locked demo_locked_inv) demo_locked_sum
    eq_refl eq_refl eq_refl _ _ _ _ eq_refl _ _ eq_refl _ _ _ _); try (vm_compute; reflexivity); try lia.
  - unfold dec_of_int, precision. lia.
Defined.
