(* ===== verification/Chain.v ===== *)
(** The epochs module driving the tier module (src/x/epochs/module/module.go,
    src/app/overrides/epochs.go, src/x/tier/keeper/epoch_hook.go).

    Both modules live in one state here: the epoch store is part of the world
    the tier module calls into, the epochs keeper the tier module reads is the
    model of the epochs module, and the hooks the epochs module runs are the tier
    module's. The theorem is about the epochs module's whole [BeginBlocker] with
    those hooks. *)
From Stdlib Require Import Ascii ZArith Lia.
From stdpp Require Import base numbers list gmap strings.
From S2P Require Import Prelude Sdk Epochs FeeAllowance TierTypes TierCredit TierState TierKeeper TierModule TierWorld TierInv TierReach TierEpoch.

(** * Wiring *)

(** [InvokeSetEpochsHooks]: the hooks in the configured order of their modules,
    or in the order of the module names; nothing is set when there are none. The
    keeper and the configuration are present, and its hooks not set before, as in
    the application. *)
Fixpoint orderedHooks {S} (epochsHooks : gmap bytes (EpochHooks S)) (order : list bytes)
    : list (EpochHooks S) + error :=
  match order with
  | [] => inl []
  | modName :: rest =>
      match epochsHooks !! modName with
      | None => inr (ErrMsg "can't find epoch hooks for module")
      | Some hook =>
          match orderedHooks epochsHooks rest with
          | inl hooks => inl (hook :: hooks)
          | inr e => inr e
          end
      end
  end.

Definition InvokeSetEpochsHooks {S} (HooksOrder : list bytes) (epochsHooks : gmap bytes (EpochHooks S))
    : option (list (EpochHooks S)) + error :=
  let modNames := (store_items epochsHooks).*1 in
  let order := if decide (HooksOrder = []) then modNames else HooksOrder in
  if negb (length order =? length modNames)%nat then inr (ErrMsg "hooks_order does not match the hooks modules")
  else if decide (modNames = []) then inl None
  else match orderedHooks epochsHooks order with
       | inl multiHooks => inl (Some multiHooks)
       | inr e => inr e
       end.

(** [EpochsModuleBasic.DefaultGenesis]: the chain starts with the tier epoch only. *)
Definition EpochsModuleBasic_DefaultGenesis : list EpochInfo :=
  [NewGenesisEpochInfo EpochIdentifier DefaultEpochDuration].

(** * The epoch store as a part of the world *)

#[export] Instance tier_epochs_lens {W} `{Lens W EpochStore} : Lens (TierState W) EpochStore := {|
  lens_get s := lens_get (st_world s);
  lens_set m s := set_world (lens_set m (st_world s)) s;
|}.

#[export] Instance tier_epochs_lens_laws {W} `{HL : Lens W EpochStore} {HLL : LensLaws W EpochStore} :
  LensLaws (TierState W) EpochStore.
Proof. split. intros m s. apply (lens_get_set m (st_world s)). Qed.

(** What the keepers promise about the epoch store: the epochs keeper reads it,
    and the bank and staking modules, each with a store of its own, neither write
    it nor depend on it. *)
Class EpochHost (W : Type) `{BankKeeper W, StakingKeeper W, EpochsKeeper W, Lens W EpochStore} : Prop := {
  host_reads : forall id w, GetEpochInfo id w = (Ok (ek_GetEpochInfo id w), w);
  host_balance : forall x d m w, GetBalance x d (lens_set (m : EpochStore) w) = GetBalance x d w;
  host_SendToAccount : forall es m a amt,
    preserves (fun w => lens_get w = (es : EpochStore)) (SendCoinsFromModuleToAccount m a amt);
  host_SendToModule : forall es a m amt,
    preserves (fun w => lens_get w = (es : EpochStore)) (SendCoinsFromAccountToModule a m amt);
  host_DelegateCoins : forall es a m amt,
    preserves (fun w => lens_get w = (es : EpochStore)) (DelegateCoinsFromAccountToModule a m amt);
  host_UndelegateCoins : forall es m a amt,
    preserves (fun w => lens_get w = (es : EpochStore)) (UndelegateCoinsFromModuleToAccount m a amt);
  host_Mint : forall es m amt, preserves (fun w => lens_get w = (es : EpochStore)) (MintCoins m amt);
  host_Burn : forall es m amt, preserves (fun w => lens_get w = (es : EpochStore)) (BurnCoins m amt);
  host_Delegate : forall es a amt st v b,
    preserves (fun w => lens_get w = (es : EpochStore)) (Delegate a amt st v b);
}.

(** Whether the block at [ctx] starts an epoch of [e]. *)
Definition starts_epoch (ctx : Ctx) (e : EpochInfo) : bool :=
  negb (block_time ctx <? StartTime e) &&
  (negb (EpochCountingStarted e) || (CurrentEpochStartTime e + EpochDuration e <? block_time ctx)).

Section chain.
Context `{LegacyDecOps, CoinsOps, DecParser, AddressCodec, ValAddressCodec, MapRange}.
Context {W : Type} `{BankKeeper W, StakingKeeper W, EpochsKeeper W, DistributionKeeper W,
                     FeegrantKeeper W, AcpKeeper W} {HAL : AddressLaws W}.
Context {HBL : BankLaws W} {HBP : BankProgress W}.
Context `{HL : Lens W EpochStore} {HLL : LensLaws W EpochStore} {HH : EpochHost W}.
Implicit Types (s : TierState W) (x : bytes) (ctx : Ctx) (es : EpochStore).
Abbreviation TM := (M (TierState W)).
Abbreviation credits x s := (GetBalance x MicroCreditDenom (st_world s)).
Abbreviation epochs s := (lens_get (T := EpochStore) (s : TierState W)).
Abbreviation at_epochs es := (fun s : TierState W => epochs s = es).

(** ** The hooks leave the epoch store alone *)

Lemma on_world_epochs {A} es (m : M W A) :
  preserves (fun w => lens_get w = es) m -> preserves (at_epochs es) (on_world m).
Proof.
  intros Hm s Hs. specialize (Hm (st_world s) Hs). unfold on_world, lift. simpl.
  destruct (m (st_world s)) as [[a|e|] w]; done.
Qed.

Lemma from_world_epochs {A} es (f : W -> A) : preserves (at_epochs es) (from_world f).
Proof. apply preserves_gets. Qed.

Lemma of_sum_epochs {A} es (r : A + error) : preserves (at_epochs es) (of_sum r).
Proof. destruct r; [apply preserves_ret|apply preserves_throw]. Qed.

Lemma NewCoins1_epochs es den amt : preserves (at_epochs es) (NewCoins1 den amt).
Proof. unfold NewCoins1. preserve. Qed.

Lemma modify_epochs es (f : TierState W -> TierState W) :
  (forall s, st_world (f s) = st_world s) -> preserves (at_epochs es) (modify f).
Proof. intros Hf. apply preserves_modify. intros s Hs. simpl in *. by rewrite Hf. Qed.

Hint Resolve from_world_epochs of_sum_epochs NewCoins1_epochs : preserves.
Hint Extern 1 (preserves _ (on_world _)) => apply on_world_epochs;
  first [apply host_SendToAccount | apply host_SendToModule | apply host_DelegateCoins
        | apply host_UndelegateCoins | apply host_Mint | apply host_Burn | apply host_Delegate] : preserves.
Hint Extern 2 (preserves _ (modify _)) => apply modify_epochs; done : preserves.

Lemma iterate_epochs {A V B} es (items : list (bytes * V)) (parse : bytes -> outcome A)
    (cb : B -> A -> V -> TM B) acc :
  (forall b a v, preserves (at_epochs es) (cb b a v)) -> preserves (at_epochs es) (iterate items parse cb acc).
Proof. intros Hcb. unfold iterate. preserve. Qed.

Lemma mintCredit_epochs es a amt : preserves (at_epochs es) (mintCredit a amt).
Proof. unfold mintCredit. preserve. Qed.

Lemma setTotalCredit_epochs es t : preserves (at_epochs es) (setTotalCreditAmount t).
Proof. unfold setTotalCreditAmount. preserve. Qed.

Lemma setTotalLockups_epochs es t : preserves (at_epochs es) (setTotalLockupsAmount t).
Proof. unfold setTotalLockupsAmount. preserve. Qed.
Hint Resolve mintCredit_epochs setTotalCredit_epochs setTotalLockups_epochs : preserves.

Lemma burnAllCredits_epochs es : preserves (at_epochs es) burnAllCredits.
Proof.
  unfold burnAllCredits, mustIterateLockups, burnCallback. preserve. apply iterate_epochs. intros. preserve.
Qed.

Lemma resetAllCredits_epochs es : preserves (at_epochs es) resetAllCredits.
Proof.
  unfold resetAllCredits, collectLocked, mustIterateLockups, getInsuranceLockupAmount, GetParams. preserve.
  apply iterate_epochs. intros. preserve.
Qed.

Lemma CompleteUnlocking_epochs es ctx : preserves (at_epochs es) (CompleteUnlocking ctx).
Proof.
  unfold CompleteUnlocking, iterateUnlockingLockups, mustIterateUnlockingLockups. preserve. apply iterate_epochs.
  intros. unfold completeUnlockingEntry, removeUnlockingLockup. preserve.
Qed.

Lemma Lock_epochs es ctx d v amt : preserves (at_epochs es) (Lock ctx d v amt).
Proof.
  unfold Lock, proratedCredit, totalLockedAmountByAddr, totalInsuredAmountByAddr, mustIterateLockups,
    mustIterateInsuranceLockups, AddLockup, GetTotalLockupsAmount, getTotalCreditAmount, GetLockup, setLockup, GetParams.
  preserve; apply iterate_epochs; intros; preserve.
Qed.
Hint Resolve burnAllCredits_epochs resetAllCredits_epochs CompleteUnlocking_epochs Lock_epochs : preserves.

Lemma checkDeveloperCredits_epochs es ctx : preserves (at_epochs es) (checkDeveloperCredits ctx).
Proof.
  unfold checkDeveloperCredits, mustIterateUserSubscriptions. preserve. apply iterate_epochs. intros. case_decide; preserve.
  unfold checkDeveloper, getTotalDevGranted, GetDeveloper, autoLockDeveloperCredits, lock_or_invalid, chooseValidator,
    mustIterateLockups. preserve; apply iterate_epochs; intros; preserve.
Qed.

Lemma tier_hooks_frame : Forall hook_frame [tierEpochHooks (W := W)].
Proof.
  apply Forall_singleton. intros ctx id n s s'. simpl. split; intros Hr.
  - refine (preserves_ok (at_epochs (epochs s)) _ s tt s' _ eq_refl Hr). unfold AfterEpochEnd. preserve.
  - refine (preserves_ok (at_epochs (epochs s)) _ s tt s' _ eq_refl Hr). unfold BeforeEpochStart. preserve.
    apply checkDeveloperCredits_epochs.
Qed.

(** ** What one epoch's callback does to the credits *)

Definition quiet s s' : Prop :=
  st_params s' = st_params s /\ st_lockups s' = st_lockups s /\ st_insurance s' = st_insurance s /\
  st_subscriptions s' = st_subscriptions s /\ st_total_credits s' = st_total_credits s /\
  forall x, credits x s' = credits x s.

(** Every delegator holds exactly what its lockups in [s] earn. *)
Definition resets s s' : Prop :=
  st_params s' = st_params s /\ st_lockups s' = st_lockups s /\ st_insurance s' = st_insurance s /\
  st_subscriptions s' = st_subscriptions s /\ st_total_credits s' = Some (total_credit s) /\
  forall x, credits x s' = if decide (x ∈ delegators s) then credit_of s x else credits x s.

#[local] Instance quiet_preorder : PreOrder quiet.
Proof.
  split; [done|]. intros s1 s2 s3 (? & ? & ? & ? & ? & Hc1) (? & ? & ? & ? & ? & Hc2).
  split_and!; congruence.
Qed.

Lemma earns_same s s' :
  st_params s' = st_params s -> st_lockups s' = st_lockups s -> st_insurance s' = st_insurance s ->
  delegators s' = delegators s /\ (forall x, credit_of s' x = credit_of s x) /\ total_credit s' = total_credit s.
Proof.
  intros Hp Hl Hi. unfold total_credit, delegators, credit_of, locked_of, counted. by rewrite Hp, Hl, Hi.
Qed.

(** The bank lets every delegator receive coins. *)
Definition all_receive s : Prop := forall x, x ∈ delegators s -> receives x.

(** What a block does to the credits: nothing, if it does not start a tier epoch or
    somebody would earn nothing; otherwise they are reset, provided that there are no
    subscriptions, for which developers may lock more stake. *)
Definition effect (starts : bool) s s' : Prop :=
  if starts then (earns_all s -> st_subscriptions s = ∅ -> resets s s') /\ (~ earns_all s -> quiet s s') else quiet s s'.

Lemma quiet_same s s' : quiet s s' -> (all_receive s -> all_receive s') /\ (earns_all s <-> earns_all s').
Proof.
  intros (Hp & Hl & Hi & _). destruct (earns_same s s' Hp Hl Hi) as (Hd & Hc & Ht). unfold all_receive, earns_all.
  rewrite Hd, Ht. split; [done|]. by setoid_rewrite Hc.
Qed.

Lemma quiet_resets s1 s2 s3 : quiet s1 s2 -> resets s2 s3 -> resets s1 s3.
Proof.
  intros (Hp & Hl & Hi & Hs & _ & Hc) (Hp2 & Hl2 & Hi2 & Hs2 & Ht2 & Hc2).
  destruct (earns_same s1 s2 Hp Hl Hi) as (Hd & He & Ht). split_and!; try congruence.
  intros x. by rewrite Hc2, Hd, He, Hc.
Qed.

Lemma resets_quiet s1 s2 s3 : resets s1 s2 -> quiet s2 s3 -> resets s1 s3.
Proof.
  intros (? & ? & ? & ? & ? & Hc) (? & ? & ? & ? & ? & Hc2). split_and!; try congruence. intros x. by rewrite Hc2.
Qed.

Lemma quiet_effect b s1 s2 s3 : quiet s1 s2 -> effect b s2 s3 -> effect b s1 s3.
Proof.
  intros Hq. destruct (quiet_same _ _ Hq) as [_ He]. unfold effect. destruct b; [|by intros; etrans].
  rewrite <- He. replace (st_subscriptions s2) with (st_subscriptions s1) by (symmetry; apply Hq).
  intros [Hr Hs]. split; [intros; eapply quiet_resets; eauto|intros; etrans; eauto].
Qed.

Lemma effect_quiet b s1 s2 s3 : effect b s1 s2 -> quiet s2 s3 -> effect b s1 s3.
Proof.
  unfold effect. destruct b; [|by intros; etrans]. intros [Hr Hs] Hq.
  split; [intros; eapply resets_quiet; eauto|intros; etrans; eauto].
Qed.

Lemma set_epochs_quiet es s : quiet s (lens_set es s).
Proof. split_and!; try done. intros x. apply host_balance. Qed.

Lemma completeEntry_quiet ctx d v h u s s' : completeUnlockingEntry ctx d v h u s = (Ok tt, s') -> quiet s s'.
Proof.
  unfold completeUnlockingEntry. intros Hr. destruct (_ || _); [unfold ret in Hr; by simplify_eq|].
  erewrite bind_run_ok in Hr by done. destruct (_ <? _); [unfold ret in Hr; by simplify_eq|].
  ok_inv Hr. assert (s0 = s /\ coins_amount MicroCreditDenom a = 0) as [-> Ha].
  { unfold NewCoins1 in Hrun. destruct (_ <? 0); [done|]. unfold ret in Hrun. injection Hrun as <- <-. split; [done|].
    destruct (_ =? 0); [done|]. by apply coins_amount_other. }
  ok_inv Hr. unfold on_world, lift in Hrun0. cbn [lens_get world_lens lens_set] in Hrun0.
  destruct (UndelegateCoinsFromModuleToAccount _ _ _ _) as [r w] eqn:E. simplify_eq.
  unfold removeUnlockingLockup, modify in Hr. simplify_eq. destruct a0. split_and!; try done. intros x. simpl.
  rewrite (UndelegateCoins_moves _ _ _ _ _ E), Ha. repeat case_decide; lia.
Qed.

Lemma AfterEpochEnd_quiet ctx id n s s' : AfterEpochEnd ctx id n s = (Ok tt, s') -> quiet s s'.
Proof.
  unfold AfterEpochEnd, CompleteUnlocking, iterateUnlockingLockups, mustIterateUnlockingLockups, iterate.
  destruct (negb _); intros Hr; [unfold ret in Hr; by simplify_eq|]. erewrite bind_run_ok in Hr by done.
  revert Hr. generalize (store_items (st_unlocking s)). generalize tt at 1. intros acc l. revert acc s.
  induction l as [|[k u] l IH]; intros acc s Hr; simpl in Hr; [unfold ret in Hr; by simplify_eq|].
  ok_inv Hr. ok_inv Hrun. unfold of_outcome in Hrun0. destruct (UnlockingLockupKeyToAddressesAtHeight k); simplify_eq.
  destruct a. apply completeEntry_quiet in Hrun. etrans; [exact Hrun|]. by eapply IH.
Qed.

(** Without subscriptions no developer is checked, and the hook goes through. *)
Lemma BeforeEpochStart_resets ctx n s : tier_inv s -> all_receive s -> earns_all s -> st_subscriptions s = ∅ ->
  exists s', BeforeEpochStart ctx EpochIdentifier n s = (Ok tt, s') /\ resets s s'.
Proof.
  intros Hi Hrec [Hpos Htot] Hsub. destruct (burnAllCredits_run s Hi) as (w1 & Hrun1 & Hb1 & _).
  set (s1 := set_total_credits (Some 0) (set_world w1 s)) in *.
  destruct (resetAllCredits_run s1) as (w2 & Hrun2 & Hr1 & _);
    [by apply tier_inv_credits, tier_inv_world|intros x Hx; split; [by apply Hrec|by apply Hpos]|exact Htot|].
  exists (set_total_credits (Some (total_credit s)) (set_world w2 s1)). split.
  - unfold BeforeEpochStart. rewrite bool_decide_true by done. cbn [negb]. erewrite bind_run_ok by exact Hrun1.
    erewrite bind_run_ok by exact Hrun2. unfold checkDeveloperCredits, mustIterateUserSubscriptions, bind, gets, iterate.
    simpl. by rewrite Hsub.
  - split_and!; try done. intros x. simpl. rewrite Hr1. cbn [st_world s1 set_total_credits set_world]. rewrite Hb1.
    change (delegators s1) with (delegators s). change (credit_of s1 x) with (credit_of s x). case_decide; lia.
Qed.

Lemma BeforeEpochStart_earns ctx n s s' : tier_inv s -> all_receive s ->
  BeforeEpochStart ctx EpochIdentifier n s = (Ok tt, s') -> earns_all s.
Proof.
  intros Hi Hrec Hr. unfold BeforeEpochStart in Hr. rewrite bool_decide_true in Hr by done. cbn [negb] in Hr.
  ok_inv Hr. destruct a. apply burnAllCredits_step in Hrun as (w & c & ->). ok_inv Hr. destruct a.
  assert (Hi1 : tier_inv (set_total_credits c (set_world w s))) by by apply tier_inv_credits, tier_inv_world.
  exact (resetAllCredits_earns _ s0 Hi1 Hrec Hrun).
Qed.

Lemma single_hook (sel : EpochHooks (TierState W) -> TM unit) s :
  forM_ (fun h => panicCatchingEpochHook (sel h)) [tierEpochHooks] s
  = (Ok tt, match sel tierEpochHooks s with (Ok _, s') => s' | _ => s end).
Proof. simpl. unfold bind. by rewrite panicCatchingEpochHook_run. Qed.

Lemma after_hooks_quiet ctx id n s : tier_inv s -> exists s',
  MultiEpochHooks_AfterEpochEnd [tierEpochHooks] ctx id n s = (Ok tt, s') /\ quiet s s' /\ tier_inv s'.
Proof.
  intros Hi. eexists. split; [apply (single_hook (fun h => hook_AfterEpochEnd h ctx id n))|]. simpl.
  destruct (AfterEpochEnd ctx id n s) as [[[]|e|] s1] eqn:E; [|done|done]. split; [by eapply AfterEpochEnd_quiet|].
  exact (preserves_ok _ _ _ _ _ (AfterEpochEnd_preserves ctx id n) Hi E).
Qed.

Lemma before_hooks_effect ctx id n s : tier_inv s -> (id = EpochIdentifier -> all_receive s) -> exists s',
  MultiEpochHooks_BeforeEpochStart [tierEpochHooks] ctx id n s = (Ok tt, s') /\ tier_inv s' /\
  effect (bool_decide (id = EpochIdentifier)) s s'.
Proof.
  intros Hi Hrec. eexists. split; [apply (single_hook (fun h => hook_BeforeEpochStart h ctx id n))|]. simpl.
  pose proof (BeforeEpochStart_preserves ctx id n s Hi) as Hp. case_bool_decide as Hid; cbn [effect].
  - subst id. specialize (Hrec eq_refl). unfold effect. destruct (BeforeEpochStart ctx EpochIdentifier n s) as [[[]|err|] s1] eqn:E.
    + split; [done|]. split; [|intros Hn; destruct Hn; by eapply BeforeEpochStart_earns].
      intros He Hs. destruct (BeforeEpochStart_resets ctx n s Hi Hrec He Hs) as (s2 & Hrun & Hs2). congruence.
    + split; [done|]. split; [|done]. intros He Hs. destruct (BeforeEpochStart_resets ctx n s Hi Hrec He Hs) as (s2 & Hrun & _). congruence.
    + split; [done|]. split; [|done]. intros He Hs. destruct (BeforeEpochStart_resets ctx n s Hi Hrec He Hs) as (s2 & Hrun & _). congruence.
  - unfold BeforeEpochStart. rewrite bool_decide_false by done. simpl. done.
Qed.

Lemma epoch_effect ctx e s : tier_inv s -> (Identifier e = EpochIdentifier -> all_receive s) -> exists s',
  beginBlockEpoch [tierEpochHooks] ctx e s = (Ok tt, s') /\ tier_inv s' /\
  effect (bool_decide (Identifier e = EpochIdentifier) && starts_epoch ctx e) s s'.
Proof.
  intros Hi Hrec. unfold beginBlockEpoch, starts_epoch, time_before, time_after, time_add.
  destruct (block_time ctx <? StartTime e); cbn [negb andb].
  { exists s. by rewrite andb_false_r. }
  rewrite (orb_comm (_ <? block_time ctx)).
  destruct (negb (EpochCountingStarted e) || (CurrentEpochStartTime e + EpochDuration e <? block_time ctx)); cbn [negb].
  2: { exists s. by rewrite andb_false_r. }
  rewrite andb_true_r.
  assert (Hset : forall e1 s1, Identifier e1 = Identifier e -> quiet s s1 -> tier_inv s1 -> exists s',
    (SetEpochInfo e1 ;;; MultiEpochHooks_BeforeEpochStart [tierEpochHooks] ctx (Identifier e1) (CurrentEpoch e1)) s1
      = (Ok tt, s') /\ tier_inv s' /\ effect (bool_decide (Identifier e = EpochIdentifier)) s s').
  { intros e1 s1 Hid Hq Hi1. unfold SetEpochInfo. erewrite bind_run_ok by done. set (s2 := lens_set _ s1).
    assert (Hq2 : quiet s s2) by (etrans; [exact Hq|apply set_epochs_quiet]).
    destruct (before_hooks_effect ctx (Identifier e1) (CurrentEpoch e1) s2) as (s3 & Hrun & Hi3 & Heff).
    { by apply tier_inv_world. }
    { rewrite Hid. intros He. by apply (quiet_same s s2 Hq2), Hrec. }
    rewrite Hid in Heff. exists s3. split_and!; [exact Hrun|done|by eapply quiet_effect]. }
  destruct (negb (EpochCountingStarted e)); [by apply Hset|].
  destruct (after_hooks_quiet ctx (Identifier e) (CurrentEpoch e) s Hi) as (s1 & Hrun & Hq & Hi1).
  erewrite bind_run_ok by (erewrite bind_run_ok by exact Hrun; done). by apply Hset.
Qed.

Definition tier_starts ctx (l : list EpochInfo) : bool :=
  existsb (fun e => bool_decide (Identifier e = EpochIdentifier) && starts_epoch ctx e) l.

Lemma tier_starts_absent ctx l : EpochIdentifier ∉ Identifier <$> l -> tier_starts ctx l = false.
Proof.
  intros Hn. apply not_true_iff_false. intros (e & Hin & [Hb%bool_decide_eq_true _]%andb_prop)%existsb_exists.
  apply Hn. rewrite <- Hb. by apply list_elem_of_fmap_2, list_elem_of_In.
Qed.

Lemma epochs_effect ctx (l : list EpochInfo) : forall s, tier_inv s -> all_receive s ->
  NoDup (Identifier <$> l) -> exists s',
  forM_ (beginBlockEpoch [tierEpochHooks] ctx) l s = (Ok tt, s') /\ tier_inv s' /\ effect (tier_starts ctx l) s s'.
Proof.
  assert (Hgen : forall s, tier_inv s -> (EpochIdentifier ∈ Identifier <$> l -> all_receive s) -> NoDup (Identifier <$> l) ->
    exists s', forM_ (beginBlockEpoch [tierEpochHooks] ctx) l s = (Ok tt, s') /\ tier_inv s' /\ effect (tier_starts ctx l) s s');
    [|auto].
  induction l as [|e l IH]; intros s Hi Hrec Hnd; simpl; [by exists s|].
  rewrite fmap_cons in Hrec, Hnd. apply NoDup_cons in Hnd as [Hnin Hnd].
  destruct (epoch_effect ctx e s Hi) as (s1 & Hrun & Hi1 & Heff); [intros Hid; apply Hrec; rewrite Hid; by left|].
  erewrite bind_run_ok by exact Hrun. cbn [tier_starts existsb]. fold (tier_starts ctx l).
  destruct (bool_decide_reflect (Identifier e = EpochIdentifier)) as [Hid|Hid]; cbn [andb orb] in *.
  - rewrite Hid in Hnin. destruct (IH s1 Hi1) as (s2 & Hrun2 & Hi2 & Heff2); [done|done|]. exists s2.
    rewrite tier_starts_absent in Heff2 |- * by done. rewrite orb_false_r. split_and!; [done|done|by eapply effect_quiet].
  - destruct (IH s1 Hi1) as (s2 & Hrun2 & Hi2 & Heff2); [|done|].
    { intros Hin. apply (quiet_same s s1 Heff), Hrec. by right. }
    exists s2. split_and!; [done|done|by eapply quiet_effect].
Qed.

Lemma tier_starts_stored ctx es e : epochs_wf es -> es !! epochKey EpochIdentifier = Some e ->
  tier_starts ctx (store_prefix_items [byte_of_Z 1] es).*2 = starts_epoch ctx e.
Proof.
  intros Hwf He. pose proof (stored_infos_spec es Hwf) as [_ Hl].
  pose proof (epochKey_inj _ _ (Hwf _ _ He)) as Hid. apply eq_true_iff_eq. unfold tier_starts. rewrite existsb_exists. split.
  - intros (e' & Hin & [Hid' Hst]%andb_prop). apply bool_decide_eq_true in Hid'.
    apply list_elem_of_In, Hl in Hin. rewrite Hid', He in Hin. by simplify_eq.
  - intros Hst. exists e. rewrite Hst, bool_decide_true by done. split; [|done]. apply list_elem_of_In, Hl. by rewrite <- Hid.
Qed.

Lemma single_module_wired {S} (name : bytes) (h : EpochHooks S) :
  InvokeSetEpochsHooks [] {[ name := h ]} = inl (Some [h]).
Proof.
  unfold InvokeSetEpochsHooks. replace (store_items {[ name := h ]}) with [(name, h)].
  - rewrite !fmap_cons, !fmap_nil. cbn [fst]. rewrite decide_True by done. cbn [length Nat.eqb negb].
    rewrite decide_False by done. cbn [orderedHooks]. by rewrite lookup_singleton_eq.
  - symmetry. apply Permutation_singleton_r. by rewrite store_items_perm, map_to_list_singleton.
Qed.

(** C8: the epochs module's block, with the hooks wired to the tier module. In any
    consistent state in which the bank lets the delegators receive coins it
    succeeds, moves every epoch by one tick, keeps the tier module's records
    consistent, and lets a lock in the same block see the new epoch. If the block
    starts no tier epoch, or somebody would earn nothing or the total not fit 64 bits,
    no credit, lockup or total moves, whatever unlocks the hook pays out. Otherwise, if
    there are no subscriptions, each delegator ends up with exactly the
    credits its lockups earn, the stored total is their sum, and nobody else's credits
    move. *)
Theorem epoch_block ctx s e (hooks : list (EpochHooks (TierState W))) :
  InvokeSetEpochsHooks [] {[ lit ModuleName := tierEpochHooks ]} = inl (Some hooks) ->
  tier_inv s -> all_receive s -> epochs_wf (epochs s) -> epochs s !! epochKey EpochIdentifier = Some e ->
  exists s', Epochs.BeginBlocker hooks ctx s = (Ok tt, s') /\ tier_inv s' /\
    epochs s' = tick ctx <$> epochs s /\ ek_GetEpochInfo EpochIdentifier (st_world s') = tick ctx e /\
    (starts_epoch ctx e = false \/ ~ earns_all s -> quiet s s') /\
    (starts_epoch ctx e = true -> earns_all s -> st_subscriptions s = ∅ -> resets s s').
Proof.
  rewrite single_module_wired. intros [= <-] Hi Hrec Hwf He.
  destruct (BeginBlocker_run [tierEpochHooks] ctx s tier_hooks_frame Hwf) as (s' & Hrun & Hes & _).
  destruct (epochs_effect ctx (store_prefix_items [byte_of_Z 1] (epochs s)).*2 s) as (s'' & Hrun2 & Hi' & Heff);
    [done|done|by apply stored_infos_spec|].
  assert (s'' = s') as ->.
  { unfold Epochs.BeginBlocker, IterateEpochInfo in Hrun. erewrite bind_run_ok in Hrun by done.
    rewrite iterM_forM_ in Hrun. congruence. }
  exists s'. rewrite (tier_starts_stored ctx (epochs s) e) in Heff by done. split_and!; [done|done|done| |..].
  - pose proof (host_reads EpochIdentifier (st_world s')) as Hread. unfold GetEpochInfo, gets in Hread.
    injection Hread as <-. change (lens_get (st_world s')) with (epochs s'). by rewrite Hes, lookup_fmap, He.
  - unfold effect in Heff. destruct (starts_epoch ctx e); [|done]. intros [?|Hn]; [done|by apply Heff].
  - intros Hst. rewrite Hst in Heff. apply Heff.
Qed.
End chain.

(** * A block at the end of the first day *)

#[export] Instance world_epochs_lens : Lens World EpochStore := {|
  lens_get := w_epochs;
  lens_set m w := mkWorld (w_balances w) (w_validators w) (w_delegations w) (w_unbonding w) m (w_rewards w) (w_dids w);
|}.

#[export] Instance world_epochs_lens_laws : LensLaws World EpochStore.
Proof. by split. Qed.

Lemma preserves_epochs {A} es (m : M World A) :
  (forall w r w', m w = (r, w') -> w_epochs w' = w_epochs w) -> preserves (fun w => lens_get w = (es : EpochStore)) m.
Proof.
  intros Hm w Hw. destruct (m w) as [r w'] eqn:E. specialize (Hm _ _ _ E). simpl in *. destruct r; congruence || done.
Qed.

Lemma credit1_epochs a c w r w' : credit1 a c w = (r, w') -> w_epochs w' = w_epochs w.
Proof. unfold credit1, throw_if, bind, ret, throw, modify. destruct (_ <? 0); intros; by simplify_eq. Qed.

Lemma debit1_epochs a c w r w' : debit1 a c w = (r, w') -> w_epochs w' = w_epochs w.
Proof. unfold debit1, throw_if, bind, gets, ret, throw, modify. destruct (_ || _); intros; by simplify_eq. Qed.

#[export] Instance world_epoch_host : EpochHost World.
Proof.
  split; try done; intros; apply preserves_epochs; intros w r w' Hr; simpl in Hr;
    try exact (transfer_epoch _ _ _ _ _ _ Hr).
  - exact (forM_epoch _ _ (credit1_epochs _) _ _ _ Hr).
  - exact (forM_epoch _ _ (debit1_epochs _) _ _ _ Hr).
  - unfold world_Delegate, bind, ret in Hr. destruct b; simpl in Hr.
    + destruct (transfer _ _ _ w) as [[[]|e|] w1] eqn:E; simplify_eq; exact (transfer_epoch _ _ _ _ _ _ E).
    + by simplify_eq.
Qed.

(** Alice's 200 earned 105 credits in the first epoch; the block a nanosecond
    into the second day gives 210. *)
Lemma epoch_block_witness : exists s',
  Epochs.BeginBlocker [tierEpochHooks] (at_time (day + 1) 20) (demo_after [demo_params; demo_lock]) = (Ok tt, s') /\
  CurrentEpoch (ek_GetEpochInfo EpochIdentifier (st_world s')) = 2 /\
  st_total_credits s' = Some 210 /\ GetBalance alice MicroCreditDenom (st_world s') = 210.
Proof.
  set (s := demo_after [demo_params; demo_lock]).
  assert (He : elements (delegators s) = [alice]) by (vm_compute; reflexivity).
  assert (Hd : forall x, x ∈ delegators s <-> x = alice).
  { intros x. rewrite <- elem_of_elements, He. apply list_elem_of_singleton. }
  assert (Hc : credit_of s alice = 210) by (vm_compute; reflexivity).
  assert (Ht : total_credit s = 210) by (vm_compute; reflexivity).
  assert (Hes : (lens_get s : EpochStore) = tier_epochs) by (vm_compute; reflexivity).
  destruct (epoch_block (at_time (day + 1) 20) s tier_epoch [tierEpochHooks])
    as (s' & Hrun & _ & _ & Hep & _ & Hreset).
  - apply single_module_wired.
  - exact (tier_reachable_inv s demo_locked_reachable).
  - intros x _. exact I.
  - rewrite Hes. intros k e Hk. unfold tier_epochs in Hk. apply lookup_singleton_Some in Hk as [<- <-]. reflexivity.
  - rewrite Hes. apply lookup_singleton_eq.
  - destruct Hreset as (_ & _ & _ & _ & Htot & Hbal); [reflexivity| |vm_compute; reflexivity|].
    { split; [intros x Hx; apply Hd in Hx as ->; rewrite Hc; lia|]. rewrite Ht. unfold int64_max. lia. }
    exists s'. rewrite Hep, Htot, Ht. specialize (Hbal alice).
    rewrite decide_True in Hbal by (by apply Hd). rewrite Hc in Hbal.
    exact (conj Hrun (conj eq_refl (conj eq_refl Hbal))).
Defined.
