(* ===== verification/CoreKeeper.v ===== *)
(** The core module (src/x/core): records of the bearer tokens that transactions
    carry, interchain account connections, the chain configuration and the
    parameters, with the message server, the end blocker and genesis.

    A token is stored under the hexadecimal SHA-256 of its text, and indexed by
    the DID that issued it and by the account it authorises. The keeper sees its
    stores through a lens. A record that is stored decodes again; encoding it
    fails only on a time outside the years 1 to 9999.

    The theorems are in CoreTokens.v. *)
From Stdlib Require Import Ascii ZArith Lia.
From stdpp Require Import base numbers list gmap strings.
From S2P Require Import Prelude Sdk Sha256 Utils.

Definition core_err (code : Z) : error := ErrReg "core" code.
Definition ErrInvalidSigner := core_err 1100.
Definition ErrInvalidInput := core_err 1102.
Definition ErrJWSTokenNotFound := core_err 1103.
Definition ErrJWSTokenAlreadyInvalid := core_err 1104.
Definition ErrUnauthorizedInvalidation := core_err 1105.
Definition ErrFailedToInvalidateToken := core_err 1106.
Definition ErrJWSTokenExpired := core_err 1107.
Definition ErrJWSTokenInvalid := core_err 1108.
Definition ErrConfigSet := core_err 1109.

(** * Data *)

Inductive JWSTokenStatus : Type := STATUS_UNSPECIFIED | STATUS_VALID | STATUS_INVALID.

#[global] Instance JWSTokenStatus_eq_dec : EqDecision JWSTokenStatus.
Proof. solve_decision. Defined.

Record JWSTokenRecord : Type := mkJWSTokenRecord {
  TokenHash : bytes;
  BearerTokenText : bytes;
  IssuerDid : bytes;
  AuthorizedAccount : bytes;
  IssuedAt : Time;
  TokenExpiresAt : Time;
  Status : JWSTokenStatus;
  FirstUsedAt : option Time;
  LastUsedAt : option Time;
  InvalidatedAt : option Time;
  InvalidatedBy : bytes;
}.

Record ICAConnection : Type := mkICAConnection {
  IcaAddress : bytes;
  ControllerAddress : bytes;
  ControllerChainId : bytes;
  ConnectionId : bytes;
}.

Record ChainConfig : Type := mkChainConfig {
  AllowZeroFeeTxs : bool;
  IgnoreBearerAuth : bool;
  AllowAnyRelay : bool;
}.

Record Params : Type := mkCoreParams { TrustedRelayFeeGranters : list bytes }.

Record GenesisState : Type := mkCoreGenesis {
  gen_Params : Params;
  gen_IcaConnections : list ICAConnection;
  gen_JwsTokens : list JWSTokenRecord;
  gen_ChainConfig : ChainConfig;
}.

Record MsgInvalidateJWS : Type := mkMsgInvalidateJWS { inv_Creator : bytes; inv_TokenHash : bytes }.
Record MsgUpdateParams : Type := mkCoreUpdateParams { cup_Authority : bytes; cup_Params : Params }.

Definition DefaultParams : Params := mkCoreParams [].

Definition DefaultGenesis : GenesisState :=
  mkCoreGenesis DefaultParams [] [] (mkChainConfig false false false).

(** The module's store, one map per prefix. *)
Record CoreStore : Type := mkCoreStore {
  core_params : option Params;
  ica_connections : gmap bytes ICAConnection;
  tokens : gmap bytes JWSTokenRecord;
  tokens_by_did : gmap bytes unit;
  tokens_by_account : gmap bytes unit;
  chain_config : option ChainConfig;
}.

Definition set_core_params p (s : CoreStore) : CoreStore :=
  mkCoreStore p (ica_connections s) (tokens s) (tokens_by_did s) (tokens_by_account s) (chain_config s).
Definition set_ica_connections m (s : CoreStore) : CoreStore :=
  mkCoreStore (core_params s) m (tokens s) (tokens_by_did s) (tokens_by_account s) (chain_config s).
Definition set_tokens m (s : CoreStore) : CoreStore :=
  mkCoreStore (core_params s) (ica_connections s) m (tokens_by_did s) (tokens_by_account s) (chain_config s).
Definition set_tokens_by_did m (s : CoreStore) : CoreStore :=
  mkCoreStore (core_params s) (ica_connections s) (tokens s) m (tokens_by_account s) (chain_config s).
Definition set_tokens_by_account m (s : CoreStore) : CoreStore :=
  mkCoreStore (core_params s) (ica_connections s) (tokens s) (tokens_by_did s) m (chain_config s).
Definition set_chain_config c (s : CoreStore) : CoreStore :=
  mkCoreStore (core_params s) (ica_connections s) (tokens s) (tokens_by_did s) (tokens_by_account s) c.

Definition empty_core : CoreStore := mkCoreStore None ∅ ∅ ∅ ∅ None.

(** The times of a record that a protobuf timestamp can hold. *)
Definition opt_time_in_range (t : option Time) : Prop := from_option time_in_range True t.

#[global] Instance opt_time_in_range_dec t : Decision (opt_time_in_range t).
Proof. destruct t; apply _. Defined.

Definition record_marshals (r : JWSTokenRecord) : bool :=
  bool_decide (time_in_range (IssuedAt r) /\ time_in_range (TokenExpiresAt r) /\
    opt_time_in_range (FirstUsedAt r) /\ opt_time_in_range (LastUsedAt r) /\
    opt_time_in_range (InvalidatedAt r)).

(** * Keys *)

(** [HashJWSToken] *)
Definition HashJWSToken (jwsToken : bytes) : bytes := hex_encode (sha256 jwsToken).

Section keys.
Context `{SdkKeys}.

Definition JWSTokenKeyPrefix : bytes := [byte_of_Z 1].
Definition JWSTokenByDIDKeyPrefix : bytes := [byte_of_Z 2].
Definition JWSTokenByAccountKeyPrefix : bytes := [byte_of_Z 3].

Definition JWSTokenKey (tokenHash : bytes) : outcome bytes :=
  h ← MustLengthPrefix tokenHash; Ok (JWSTokenKeyPrefix ++ h).

Definition JWSTokenDIDPrefix (did : bytes) : outcome bytes :=
  d ← MustLengthPrefix did; Ok (JWSTokenByDIDKeyPrefix ++ d).

Definition JWSTokenAccountPrefix (account : bytes) : outcome bytes :=
  a ← MustLengthPrefix account; Ok (JWSTokenByAccountKeyPrefix ++ a).

Definition JWSTokenByDIDKey (did tokenHash : bytes) : outcome bytes :=
  p ← JWSTokenDIDPrefix did; h ← MustLengthPrefix tokenHash; Ok (p ++ h).

Definition JWSTokenByAccountKey (account tokenHash : bytes) : outcome bytes :=
  p ← JWSTokenAccountPrefix account; h ← MustLengthPrefix tokenHash; Ok (p ++ h).

(** A length byte and the slice after it, with the index of its last byte. *)
Definition parseLengthSlice (key : bytes) (start : nat) : outcome (bytes * nat) :=
  l ← ParseLengthPrefixedBytes key start 1;
  match l.1 with
  | [] => Err (ErrMsg "invalid key: missing length")
  | n :: _ => ParseLengthPrefixedBytes key (l.2 + 1) (Z.to_nat (Z_of_byte n))
  end.

Definition ParseJWSTokenKey (key : bytes) : outcome bytes :=
  if decide (key = []) then Err (ErrMsg "empty key")
  else h ← parseLengthSlice key 0; Ok h.1.

Definition ParseJWSTokenByDIDKey (key : bytes) : outcome (bytes * bytes) :=
  if decide (key = []) then Err (ErrMsg "empty key")
  else d ← parseLengthSlice key 0; h ← parseLengthSlice key (d.2 + 1); Ok (d.1, h.1).

Definition ParseJWSTokenByAccountKey (key : bytes) : outcome (bytes * bytes) :=
  if decide (key = []) then Err (ErrMsg "empty key")
  else a ← parseLengthSlice key 0; h ← parseLengthSlice key (a.2 + 1); Ok (a.1, h.1).
End keys.

(** [IsValidVeraAddr] (src/types/utils.go) and [sdk.AccAddressFromBech32] decode
    the same bech32 text. *)
Definition IsValidVeraAddr `{AddressCodec} (addr : bytes) : option error :=
  match StringToBytes addr with inl _ => None | inr e => Some e end.

(** * The keeper *)

(** What [HandleICAChannelOpen] asks the IBC keepers. *)
Inductive ClientState : Type := TendermintClient (chainId : bytes) | OtherClient.

Class IBCKeepers (S : Type) : Type := {
  GetInterchainAccountAddress : bytes -> bytes -> S -> option bytes;
  GetConnection : bytes -> S -> option bytes;
  GetClientState : bytes -> S -> option ClientState;
}.

Section keeper.
Context `{SdkKeys, AddressCodec}.
Context {S : Type} `{Lens S CoreStore}.
Implicit Types (ctx : Ctx) (record : JWSTokenRecord) (tokenHash did account : bytes).

Definition core_get {A} (f : CoreStore -> A) : M S A := gets (fun s => f (lens_get s)).
Definition core_mod (f : CoreStore -> CoreStore) : M S unit :=
  modify (fun s => lens_set (f (lens_get s)) s).

(** ** Parameters and chain configuration *)

Fixpoint validateGranters (seen : gset bytes) (l : list bytes) : option error :=
  match l with
  | [] => None
  | address :: rest =>
      match IsValidVeraAddr address with
      | Some e => Some e
      | None =>
          if decide (address ∈ seen) then Some (ErrMsg "duplicate trusted relay fee granter")
          else validateGranters ({[address]} ∪ seen) rest
      end
  end.

Definition Params_Validate (p : Params) : option error :=
  validateGranters ∅ (TrustedRelayFeeGranters p).

Definition IsTrustedRelayFeeGranter (p : Params) (address : bytes) : bool :=
  existsb (fun trusted => bool_decide (trusted = address)) (TrustedRelayFeeGranters p).

Definition GetParams : M S Params := core_get (fun s => default (mkCoreParams []) (core_params s)).

Definition SetParams (params : Params) : M S unit :=
  match Params_Validate params with
  | Some e => throw e
  | None => core_mod (set_core_params (Some params))
  end.

Definition SetChainConfig (cfg : ChainConfig) : M S unit :=
  bz <- core_get chain_config ;;
  match bz with
  | Some _ => throw ErrConfigSet
  | None => core_mod (set_chain_config (Some cfg))
  end.

Definition GetChainConfig : M S ChainConfig :=
  core_get (fun s => default (gen_ChainConfig DefaultGenesis) (chain_config s)).

(** ** Bearer tokens *)

Definition SetJWSToken record : M S unit :=
  throw_if (bool_decide (TokenHash record = [])) ErrInvalidInput ;;;
  throw_if (bool_decide (IssuerDid record = [])) ErrInvalidInput ;;;
  (if decide (AuthorizedAccount record = []) then
     cfg <- GetChainConfig ;;
     throw_if (negb (IgnoreBearerAuth cfg)) ErrInvalidInput
   else
     match StringToBytes (AuthorizedAccount record) with
     | inr _ => throw ErrInvalidInput
     | inl _ => ret tt
     end) ;;;
  throw_if (negb (record_marshals record)) (ErrMsg "failed to marshal JWS token record") ;;;
  core_mod (fun s => set_tokens (<[TokenHash record := record]> (tokens s)) s) ;;;
  didKey <- of_outcome (JWSTokenByDIDKey (IssuerDid record) (TokenHash record)) ;;
  core_mod (fun s => set_tokens_by_did (<[tail didKey := tt]> (tokens_by_did s)) s) ;;;
  when (negb (bool_decide (AuthorizedAccount record = []))) (
    accountKey <- of_outcome (JWSTokenByAccountKey (AuthorizedAccount record) (TokenHash record)) ;;
    core_mod (fun s => set_tokens_by_account (<[tail accountKey := tt]> (tokens_by_account s)) s)).

Definition GetJWSToken tokenHash : M S (option JWSTokenRecord) :=
  core_get (fun s => tokens s !! tokenHash).

Definition DeleteJWSToken tokenHash : M S unit :=
  found <- GetJWSToken tokenHash ;;
  match found with
  | None => throw ErrJWSTokenNotFound
  | Some record =>
      core_mod (fun s => set_tokens (delete tokenHash (tokens s)) s) ;;;
      didKey <- of_outcome (JWSTokenByDIDKey (IssuerDid record) tokenHash) ;;
      core_mod (fun s => set_tokens_by_did (delete (tail didKey) (tokens_by_did s)) s) ;;;
      when (negb (bool_decide (AuthorizedAccount record = []))) (
        accountKey <- of_outcome (JWSTokenByAccountKey (AuthorizedAccount record) tokenHash) ;;
        core_mod (fun s => set_tokens_by_account (delete (tail accountKey) (tokens_by_account s)) s))
  end.

(** [IterateJWSTokens]: the callback sees each record and may stop the loop. *)
Definition IterateJWSTokens {B} (cb : B -> JWSTokenRecord -> M S (bool * B)) (acc : B) : M S B :=
  records <- core_get (fun s => (store_items (tokens s)).*2) ;;
  iterM (fun _ => cb) 0 acc records.

(** The loops of [GetJWSTokensByDID] and [GetJWSTokensByAccount]: a key that does
    not parse is passed over, and so is one whose record is gone. *)
Definition collectTokens (parse : bytes -> outcome (bytes * bytes)) (keys : list bytes)
    : M S (list JWSTokenRecord) :=
  foldM (fun records key =>
    p <- attempt (of_outcome (parse key)) ;;
    match p with
    | inr _ => ret records
    | inl (_, tokenHash) =>
        found <- GetJWSToken tokenHash ;;
        match found with Some record => ret (records ++ [record]) | None => ret records end
    end) [] keys.

Definition GetJWSTokensByDID did : M S (list JWSTokenRecord) :=
  prefix <- of_outcome (JWSTokenDIDPrefix did) ;;
  keys <- core_get (fun s => (store_prefix_items (tail prefix) (tokens_by_did s)).*1) ;;
  collectTokens ParseJWSTokenByDIDKey keys.

Definition GetJWSTokensByAccount account : M S (list JWSTokenRecord) :=
  prefix <- of_outcome (JWSTokenAccountPrefix account) ;;
  keys <- core_get (fun s => (store_prefix_items (tail prefix) (tokens_by_account s)).*1) ;;
  collectTokens ParseJWSTokenByAccountKey keys.

Definition GetAllJWSTokens : M S (list JWSTokenRecord) :=
  IterateJWSTokens (fun records record => ret (false, records ++ [record])) [].

Definition with_status (status : JWSTokenStatus) (now : Time) (by_ : bytes) record : JWSTokenRecord :=
  let invalid := bool_decide (status = STATUS_INVALID) in
  mkJWSTokenRecord (TokenHash record) (BearerTokenText record) (IssuerDid record)
    (AuthorizedAccount record) (IssuedAt record) (TokenExpiresAt record) status
    (FirstUsedAt record) (LastUsedAt record)
    (if invalid then Some now else InvalidatedAt record)
    (if invalid && negb (bool_decide (by_ = [])) then by_ else InvalidatedBy record).

Definition UpdateJWSTokenStatus ctx tokenHash (status : JWSTokenStatus) (invalidatedBy : bytes) : M S unit :=
  throw_if (bool_decide (tokenHash = [])) ErrInvalidInput ;;;
  found <- GetJWSToken tokenHash ;;
  match found with
  | None => throw ErrJWSTokenNotFound
  | Some record => SetJWSToken (with_status status (block_time ctx) invalidatedBy record)
  end.

Definition with_usage (now : Time) record : JWSTokenRecord :=
  mkJWSTokenRecord (TokenHash record) (BearerTokenText record) (IssuerDid record)
    (AuthorizedAccount record) (IssuedAt record) (TokenExpiresAt record) (Status record)
    (match FirstUsedAt record with None => Some now | Some t => Some t end) (Some now)
    (InvalidatedAt record) (InvalidatedBy record).

Definition RecordJWSTokenUsage ctx tokenHash : M S unit :=
  throw_if (bool_decide (tokenHash = [])) ErrInvalidInput ;;;
  found <- GetJWSToken tokenHash ;;
  match found with
  | None => throw ErrJWSTokenNotFound
  | Some record => SetJWSToken (with_usage (block_time ctx) record)
  end.

Definition CheckAndUpdateExpiredTokens ctx : M S unit :=
  IterateJWSTokens (fun (_ : unit) record =>
    if decide (Status record = STATUS_INVALID) then ret (false, tt)
    else if decide (TokenExpiresAt record = time_zero) then ret (false, tt)
    else
      when (negb (time_after (TokenExpiresAt record) (block_time ctx)))
        (attempt (UpdateJWSTokenStatus ctx (TokenHash record) STATUS_INVALID []) ;;; ret tt) ;;;
      ret (false, tt)) tt.

Definition StoreOrUpdateJWSToken ctx (bearerToken issuerDid authorizedAccount : bytes)
    (issuedAt expiresAt : Time) : M S unit :=
  let tokenHash := HashJWSToken bearerToken in
  found <- GetJWSToken tokenHash ;;
  match found with
  | Some record =>
      throw_if (negb (bool_decide (Status record = STATUS_VALID))) ErrJWSTokenInvalid ;;;
      RecordJWSTokenUsage ctx tokenHash
  | None =>
      throw_if (negb (bool_decide (expiresAt = time_zero)) &&
                negb (time_after expiresAt (block_time ctx))) ErrJWSTokenExpired ;;;
      SetJWSToken (mkJWSTokenRecord tokenHash bearerToken issuerDid authorizedAccount
        issuedAt expiresAt STATUS_VALID (Some (block_time ctx)) (Some (block_time ctx)) None [])
  end.

(** ** End of block *)

Definition EndBlocker ctx : M S unit := attempt (CheckAndUpdateExpiredTokens ctx) ;;; ret tt.

(** ** Interchain accounts *)

Definition SetICAConnection (icaAddress controllerAddress controllerChainID connectionID : bytes) : M S unit :=
  throw_if (bool_decide (icaAddress = [])) ErrInvalidInput ;;;
  core_mod (fun s => set_ica_connections
    (<[icaAddress := mkICAConnection icaAddress controllerAddress controllerChainID connectionID]>
       (ica_connections s)) s).

Definition GetICAConnection (icaAddress : bytes) : M S (option ICAConnection) :=
  core_get (fun s => ica_connections s !! icaAddress).

Definition mustIterateICAConnections {B} (cb : B -> bytes -> ICAConnection -> M S B) (acc : B) : M S B :=
  items <- core_get (fun s => store_items (ica_connections s)) ;;
  foldM (fun b kc => cb b kc.1 kc.2) acc items.

Definition GetAllICAConnections : M S (list ICAConnection) :=
  mustIterateICAConnections (fun connections _ c => ret (connections ++ [c])) [].

(** The port of a controller is this prefix and its address. *)
Definition ControllerPortPrefix : bytes := lit "icacontroller-".

Definition HandleICAChannelOpen `{IBCKeepers S} (connectionID controllerPortID : bytes) : M S unit :=
  icaAddr <- gets (GetInterchainAccountAddress connectionID controllerPortID) ;;
  icaAddr <- of_option icaAddr ErrInvalidInput ;;
  exists_ <- GetICAConnection icaAddr ;;
  throw_if (bool_decide (is_Some exists_)) ErrInvalidInput ;;;
  throw_if (negb (HasPrefix controllerPortID ControllerPortPrefix)) ErrInvalidInput ;;;
  conn <- gets (GetConnection connectionID) ;;
  clientId <- of_option conn ErrInvalidInput ;;
  client <- gets (GetClientState clientId) ;;
  clientState <- of_option client ErrInvalidInput ;;
  match clientState with
  | OtherClient => throw ErrInvalidInput
  | TendermintClient controllerChainID =>
      throw_if (bool_decide (controllerChainID = [])) ErrInvalidInput ;;;
      SetICAConnection icaAddr (TrimPrefix controllerPortID ControllerPortPrefix)
        controllerChainID connectionID
  end.

(** ** Messages *)

Definition MsgInvalidateJWS_ValidateBasic (m : MsgInvalidateJWS) : option error :=
  match StringToBytes (inv_Creator m) with
  | inr e => Some e
  | inl _ => if decide (inv_TokenHash m = []) then Some ErrInvalidInput else None
  end.

Definition InvalidateJWS ctx (req : MsgInvalidateJWS) : M S unit :=
  found <- GetJWSToken (inv_TokenHash req) ;;
  match found with
  | None => throw ErrJWSTokenNotFound
  | Some record =>
      throw_if (bool_decide (Status record = STATUS_INVALID)) ErrJWSTokenAlreadyInvalid ;;;
      let authorized :=
        (negb (bool_decide (extracted_did ctx = [])) && bool_decide (extracted_did ctx = IssuerDid record))
        || bool_decide (inv_Creator req = AuthorizedAccount record) in
      throw_if (negb authorized) ErrUnauthorizedInvalidation ;;;
      r <- attempt (UpdateJWSTokenStatus ctx (inv_TokenHash req) STATUS_INVALID (inv_Creator req)) ;;
      match r with inr _ => throw ErrFailedToInvalidateToken | inl _ => ret tt end
  end.

Definition MsgUpdateParams_ValidateBasic (m : MsgUpdateParams) : option error :=
  match StringToBytes (cup_Authority m) with
  | inr e => Some e
  | inl _ => Params_Validate (cup_Params m)
  end.

Definition UpdateParams (authority : bytes) (req : MsgUpdateParams) : M S unit :=
  throw_if (negb (bool_decide (authority = cup_Authority req))) ErrInvalidSigner ;;;
  SetParams (cup_Params req).

(** ** Genesis *)

Definition GenesisState_Validate (gs : GenesisState) : option error := Params_Validate (gen_Params gs).

(** [if err := f(); err != nil { panic(err) }] *)
Definition or_panic (m : M S unit) : M S unit :=
  r <- attempt m ;; match r with inr _ => panic | inl _ => ret tt end.

Definition InitGenesis (genState : GenesisState) : M S unit :=
  or_panic (SetParams (gen_Params genState)) ;;;
  forM_ (fun c => or_panic (SetICAConnection (IcaAddress c) (ControllerAddress c)
                              (ControllerChainId c) (ConnectionId c))) (gen_IcaConnections genState) ;;;
  forM_ (fun r => or_panic (SetJWSToken r)) (gen_JwsTokens genState) ;;;
  or_panic (SetChainConfig (gen_ChainConfig genState)).

Definition ExportGenesis : M S GenesisState :=
  params <- GetParams ;;
  connections <- GetAllICAConnections ;;
  jwsTokens <- GetAllJWSTokens ;;
  cfg <- GetChainConfig ;;
  ret (mkCoreGenesis params connections jwsTokens cfg).
End keeper.
