(* ===== verification/CoreTokens.v ===== *)
(** The records of bearer tokens and their indexes.

    The invariant [tokens_inv]: every record is stored under its own hash and can
    be stored again, and the two indexes hold exactly one entry per record. Here
    are what storing a record does to the stores, on every path, and the lemma on
    indexed queries; the theorems are in CoreSafety.v. *)
From Stdlib Require Import Ascii ZArith Lia.
From stdpp Require Import base numbers list gmap strings.
From S2P Require Import Prelude Sdk Sha256 Utils FeegrantKeys CoreKeeper.

(** * Keys *)

Lemma prefixed_app_inj a b x y : fits a -> fits b ->
  prefixed a ++ x = prefixed b ++ y -> a = b /\ x = y.
Proof.
  intros [Ha1 Ha2] [Hb1 Hb2]. unfold prefixed. simpl. intros [= Hl Heq].
  apply (f_equal Z_of_byte) in Hl. rewrite !Z_of_byte_of_Z in Hl by lia.
  apply app_inj_1 in Heq; [done|lia].
Qed.

Lemma fits_nonempty b : fits b -> b <> [].
Proof. unfold fits. destruct b; simpl; [lia|done]. Qed.

Lemma HashJWSToken_fits t : fits (HashJWSToken t).
Proof. unfold fits, HashJWSToken. rewrite hex_encode_length, sha256_length. lia. Qed.

(** The index entries of a record. *)
Definition did_index_key (r : JWSTokenRecord) : bytes := prefixed (IssuerDid r) ++ prefixed (TokenHash r).
Definition account_index_key (r : JWSTokenRecord) : bytes :=
  prefixed (AuthorizedAccount r) ++ prefixed (TokenHash r).

Section key_facts.
Context `{SdkKeys}.

Lemma JWSTokenByDIDKey_fits d h : fits d -> fits h ->
  JWSTokenByDIDKey d h = Ok (byte_of_Z 2 :: prefixed d ++ prefixed h).
Proof. intros. unfold JWSTokenByDIDKey, JWSTokenDIDPrefix. by rewrite !MustLengthPrefix_fits. Qed.

Lemma JWSTokenByAccountKey_fits d h : fits d -> fits h ->
  JWSTokenByAccountKey d h = Ok (byte_of_Z 3 :: prefixed d ++ prefixed h).
Proof. intros. unfold JWSTokenByAccountKey, JWSTokenAccountPrefix. by rewrite !MustLengthPrefix_fits. Qed.

Lemma JWSTokenByDIDKey_ok d h k : d <> [] -> h <> [] -> JWSTokenByDIDKey d h = Ok k -> fits d /\ fits h.
Proof.
  intros Hd Hh. unfold JWSTokenByDIDKey, JWSTokenDIDPrefix. intros Hk.
  apply outcome_bind_ok in Hk as (p & Hp & Hk). apply outcome_bind_ok in Hk as (x & Hx & _).
  apply outcome_bind_ok in Hp as (y & Hy & _).
  apply MustLengthPrefix_ok in Hx as [? _]; [|done]. by apply MustLengthPrefix_ok in Hy as [? _].
Qed.

Lemma JWSTokenByAccountKey_ok d h k : d <> [] -> JWSTokenByAccountKey d h = Ok k -> fits d.
Proof.
  intros Hd. unfold JWSTokenByAccountKey, JWSTokenAccountPrefix. intros Hk.
  apply outcome_bind_ok in Hk as (p & Hp & Hk). apply outcome_bind_ok in Hp as (y & Hy & _).
  by apply MustLengthPrefix_ok in Hy as [? _].
Qed.

Lemma parseLengthSlice_prefixed (pre b post : bytes) : fits b ->
  parseLengthSlice (pre ++ prefixed b ++ post) (length pre) = Ok (b, (length pre + length b)%nat).
Proof.
  intros Hb. rewrite <- parseSlice_prefixed with (post := post) by done.
  unfold parseLengthSlice, parseSlice, mbind, outcome_bind.
  rewrite !ParseLengthPrefixedBytes_spec. rewrite decide_True by (unfold prefixed; rewrite !length_app; simpl; lia).
  unfold prefixed. cbn [fst]. rewrite drop_app_length. done.
Qed.

Lemma parse_index_key (a h : bytes) : fits a -> fits h ->
  ParseJWSTokenByDIDKey (prefixed a ++ prefixed h) = Ok (a, h) /\
  ParseJWSTokenByAccountKey (prefixed a ++ prefixed h) = Ok (a, h).
Proof.
  intros Ha Hh.
  assert (Heq : forall {B} (f : bytes * nat -> bytes * nat -> outcome B),
    (d ← parseLengthSlice (prefixed a ++ prefixed h) 0;
     x ← parseLengthSlice (prefixed a ++ prefixed h) (d.2 + 1); f d x)
    = f (a, length a) (h, (length (prefixed a) + length h)%nat)).
  { intros B f. pose proof (parseLengthSlice_prefixed [] a (prefixed h) Ha) as H1.
    cbn [app length Nat.add] in H1.
    pose proof (parseLengthSlice_prefixed (prefixed a) h [] Hh) as H2. rewrite app_nil_r in H2.
    unfold mbind, outcome_bind. rewrite H1. cbn [snd].
    replace (length a + 1)%nat with (length (prefixed a)) by (unfold prefixed; simpl; lia).
    by rewrite H2. }
  unfold ParseJWSTokenByDIDKey, ParseJWSTokenByAccountKey. rewrite !decide_False by done.
  by rewrite !Heq.
Qed.
End key_facts.

(** * The invariant *)

Section tokens.
Context `{SdkKeys, AddressCodec}.
Implicit Types (c : CoreStore) (r : JWSTokenRecord) (h : bytes).

Definition config_of c : ChainConfig := default (gen_ChainConfig DefaultGenesis) (chain_config c).

(** A record that [SetJWSToken] accepts. *)
Definition token_ok (ignoreBearerAuth : bool) r : Prop :=
  fits (TokenHash r) /\ fits (IssuerDid r) /\ record_marshals r = true /\
  if decide (AuthorizedAccount r = []) then ignoreBearerAuth = true
  else fits (AuthorizedAccount r) /\ exists a, StringToBytes (AuthorizedAccount r) = inl a.

Definition put_token r c : CoreStore :=
  mkCoreStore (core_params c) (ica_connections c) (<[TokenHash r := r]> (tokens c))
    (<[did_index_key r := tt]> (tokens_by_did c))
    (if decide (AuthorizedAccount r = []) then tokens_by_account c
     else <[account_index_key r := tt]> (tokens_by_account c))
    (chain_config c).

Record tokens_inv c : Prop := {
  inv_record : forall h r, tokens c !! h = Some r ->
    TokenHash r = h /\ token_ok (IgnoreBearerAuth (config_of c)) r;
  inv_by_did : forall k, is_Some (tokens_by_did c !! k) <->
    exists h r, tokens c !! h = Some r /\ k = did_index_key r;
  inv_by_account : forall k, is_Some (tokens_by_account c !! k) <->
    exists h r, tokens c !! h = Some r /\ AuthorizedAccount r <> [] /\ k = account_index_key r;
}.

Lemma token_ok_fits b r : token_ok b r -> fits (TokenHash r) /\ fits (IssuerDid r).
Proof. unfold token_ok. tauto. Qed.

(** Storing a record under a new hash, or over one with the same names. *)
Lemma put_token_inv c r :
  tokens_inv c -> token_ok (IgnoreBearerAuth (config_of c)) r ->
  (forall r0, tokens c !! TokenHash r = Some r0 ->
     IssuerDid r = IssuerDid r0 /\ AuthorizedAccount r = AuthorizedAccount r0) ->
  tokens_inv (put_token r c).
Proof.
  intros [Hr Hd Ha] Hok Hsame. split; simpl.
  - intros h r' [[<- <-]|[Hne Hl]]%lookup_insert_Some; [done|]. by apply Hr.
  - intros k. rewrite lookup_insert_is_Some', Hd. split.
    + intros [<-|(h & r' & Hl & ->)]; [exists (TokenHash r), r; by rewrite lookup_insert_eq|].
      destruct (decide (h = TokenHash r)) as [->|Hne].
      * exists (TokenHash r), r. rewrite lookup_insert_eq. split; [done|].
        destruct (Hsame r' Hl) as [Hi _]. destruct (Hr _ _ Hl) as [Hh _].
        unfold did_index_key. congruence.
      * exists h, r'. by rewrite lookup_insert_ne.
    + intros (h & r' & [[<- <-]|[Hne Hl]]%lookup_insert_Some & ->); [by left|right; eauto].
  - intros k. destruct (decide (AuthorizedAccount r = [])) as [He|He].
    + rewrite Ha. split; intros (h & r' & Hl & Hne & ->).
      * exists h, r'. destruct (decide (h = TokenHash r)) as [->|]; [|by rewrite lookup_insert_ne].
        destruct (Hsame r' Hl). congruence.
      * apply lookup_insert_Some in Hl as [[<- <-]|[? Hl]]; [done|eauto].
    + rewrite lookup_insert_is_Some', Ha. split.
      * intros [<-|(h & r' & Hl & Hne & ->)]; [exists (TokenHash r), r; by rewrite lookup_insert_eq|].
        destruct (decide (h = TokenHash r)) as [->|Hn].
        -- exists (TokenHash r), r. rewrite lookup_insert_eq. split_and!; [done|done|].
           destruct (Hsame r' Hl) as [_ Hi]. destruct (Hr _ _ Hl) as [Hh _].
           unfold account_index_key. congruence.
        -- exists h, r'. by rewrite lookup_insert_ne.
      * intros (h & r' & [[<- <-]|[Hn Hl]]%lookup_insert_Some & Hne & ->); [by left|right; eauto].
Qed.

(** * Runs of the operations *)

Context {S : Type} `{Lens S CoreStore, !LensLaws S CoreStore}.

Definition cs (s : S) : CoreStore := lens_get s.

Lemma core_mod_run f s : core_mod f s = (Ok tt, lens_set (f (cs s)) s).
Proof. done. Qed.

Lemma cs_set c s : cs (lens_set c s) = c.
Proof. apply lens_get_set. Qed.

Lemma core_get_run {A B} (f : CoreStore -> A) (k : A -> M S B) s : bind (core_get f) k s = k (f (cs s)) s.
Proof. done. Qed.

Lemma MustLengthPrefix_not_err b e : MustLengthPrefix b <> Err e.
Proof. rewrite MustLengthPrefix_spec. by repeat case_decide. Qed.

Lemma index_key_not_err a b e :
  JWSTokenByDIDKey a b <> Err e /\ JWSTokenByAccountKey a b <> Err e.
Proof.
  unfold JWSTokenByDIDKey, JWSTokenDIDPrefix, JWSTokenByAccountKey, JWSTokenAccountPrefix.
  pose proof (MustLengthPrefix_not_err a). pose proof (MustLengthPrefix_not_err b).
  split; destruct (MustLengthPrefix a); simpl; try done; destruct (MustLengthPrefix b); simpl; naive_solver.
Qed.

(** The checks of [SetJWSToken] that come before its writes. *)
Definition acceptable (ignoreBearerAuth : bool) (r : JWSTokenRecord) : Prop :=
  TokenHash r <> [] /\ IssuerDid r <> [] /\ record_marshals r = true /\
  if decide (AuthorizedAccount r = []) then ignoreBearerAuth = true
  else exists a, StringToBytes (AuthorizedAccount r) = inl a.

Definition store_token (r : JWSTokenRecord) : M S unit :=
  core_mod (fun s => set_tokens (<[TokenHash r := r]> (tokens s)) s) ;;;
  didKey <- of_outcome (JWSTokenByDIDKey (IssuerDid r) (TokenHash r)) ;;
  core_mod (fun s => set_tokens_by_did (<[tail didKey := tt]> (tokens_by_did s)) s) ;;;
  when (negb (bool_decide (AuthorizedAccount r = []))) (
    accountKey <- of_outcome (JWSTokenByAccountKey (AuthorizedAccount r) (TokenHash r)) ;;
    core_mod (fun s => set_tokens_by_account (<[tail accountKey := tt]> (tokens_by_account s)) s)).

Lemma SetJWSToken_checks r s :
  (acceptable (IgnoreBearerAuth (config_of (cs s))) r /\ SetJWSToken r s = store_token r s) \/
  (~ acceptable (IgnoreBearerAuth (config_of (cs s))) r /\ exists e, SetJWSToken r s = (Err e, s)).
Proof.
  unfold acceptable, SetJWSToken.
  destruct (decide (TokenHash r = [])) as [Hh|Hh].
  { right. rewrite bool_decide_true by done. split; [naive_solver|eexists; done]. }
  rewrite bool_decide_false by done. erewrite bind_run_ok by done.
  destruct (decide (IssuerDid r = [])) as [Hd|Hd].
  { right. rewrite bool_decide_true by done. split; [naive_solver|eexists; done]. }
  rewrite bool_decide_false by done. erewrite bind_run_ok by done.
  assert (Hm : forall s0, bind (throw_if (negb (record_marshals r)) (ErrMsg "failed to marshal JWS token record"))
    (fun _ => store_token r) s0 = if record_marshals r then store_token r s0
      else (Err (ErrMsg "failed to marshal JWS token record"), s0)).
  { intros s0. by destruct (record_marshals r). }
  destruct (decide (AuthorizedAccount r = [])) as [Ha|Ha].
  - assert (Hc : bind GetChainConfig (fun cfg => throw_if (negb (IgnoreBearerAuth cfg)) ErrInvalidInput) s
      = throw_if (negb (IgnoreBearerAuth (config_of (cs s)))) ErrInvalidInput s) by done.
    destruct (IgnoreBearerAuth _).
    + erewrite bind_run_ok by apply Hc. unfold store_token in Hm. rewrite Hm.
      destruct (record_marshals r); [left; done|right]. split; [naive_solver|eauto].
    + right. split; [naive_solver|]. eexists. by erewrite bind_run_err by apply Hc.
  - destruct (StringToBytes (AuthorizedAccount r)) as [a|e].
    + erewrite bind_run_ok by done. unfold store_token in Hm. rewrite Hm.
      destruct (record_marshals r); [left|right]; (split; [naive_solver|eauto]).
    + right. split; [naive_solver|]. eexists. by erewrite bind_run_err by done.
Qed.

Lemma store_token_run r s : fits (TokenHash r) -> fits (IssuerDid r) ->
  (AuthorizedAccount r = [] \/ fits (AuthorizedAccount r)) ->
  exists s', store_token r s = (Ok tt, s') /\ cs s' = put_token r (cs s).
Proof.
  intros Hh Hd Ha. unfold store_token. erewrite bind_run_ok by apply core_mod_run.
  rewrite JWSTokenByDIDKey_fits by done. erewrite bind_run_ok by done.
  erewrite bind_run_ok by apply core_mod_run. unfold put_token. simpl tail.
  destruct (decide (AuthorizedAccount r = [])) as [He|He].
  - rewrite bool_decide_true by done. eexists. split; [done|]. by rewrite !cs_set.
  - rewrite bool_decide_false by done. destruct Ha as [|Ha]; [done|]. simpl when.
    rewrite JWSTokenByAccountKey_fits by done. erewrite bind_run_ok by done.
    rewrite core_mod_run. eexists. split; [done|]. by rewrite !cs_set.
Qed.

Lemma store_token_fits r s s' : TokenHash r <> [] -> IssuerDid r <> [] ->
  store_token r s = (Ok tt, s') ->
  fits (TokenHash r) /\ fits (IssuerDid r) /\ (AuthorizedAccount r = [] \/ fits (AuthorizedAccount r)).
Proof.
  intros Hh Hd Hr. unfold store_token in Hr. do 3 ok_inv Hr.
  injection Hrun0 as Hk _. apply JWSTokenByDIDKey_ok in Hk as [? ?]; [|done..]. split_and!; [done..|].
  destruct (decide (AuthorizedAccount r = [])) as [|He]; [by left|right].
  rewrite bool_decide_false in Hr by done. simpl in Hr. ok_inv Hr. injection Hrun0 as Hk _.
  by eapply JWSTokenByAccountKey_ok.
Qed.

Lemma store_token_not_err r s e s' : store_token r s <> (Err e, s').
Proof.
  unfold store_token. erewrite bind_run_ok by apply core_mod_run. unfold of_outcome, bind, when.
  destruct (index_key_not_err (IssuerDid r) (TokenHash r) e) as [Hx _].
  destruct (index_key_not_err (AuthorizedAccount r) (TokenHash r) e) as [_ Hy].
  destruct (JWSTokenByDIDKey (IssuerDid r) (TokenHash r)); simpl; [|congruence|done].
  destruct (negb _); [|done].
  destruct (JWSTokenByAccountKey (AuthorizedAccount r) (TokenHash r)); simpl; [done|congruence|done].
Qed.

(** Both directions of what [SetJWSToken] does. *)
Lemma SetJWSToken_run r s : token_ok (IgnoreBearerAuth (config_of (cs s))) r ->
  exists s', SetJWSToken r s = (Ok tt, s') /\ cs s' = put_token r (cs s).
Proof.
  intros (Hh & Hd & Hm & Ha). destruct (SetJWSToken_checks r s) as [[_ ->]|[Hn _]].
  - apply store_token_run; [done..|]. destruct (decide _); [by left|right; tauto].
  - destruct Hn. unfold acceptable.
    split_and!; [by apply fits_nonempty|by apply fits_nonempty|done|].
    destruct (decide (AuthorizedAccount r = [])); [done|]. tauto.
Qed.

Lemma SetJWSToken_result r s o s' : SetJWSToken r s = (o, s') ->
  match o with
  | Ok _ => token_ok (IgnoreBearerAuth (config_of (cs s))) r /\ cs s' = put_token r (cs s)
  | Err _ => s' = s
  | Panic => True
  end.
Proof.
  intros Hr. destruct (SetJWSToken_checks r s) as [[(Hh & Hd & Hm & Ha) Heq]|[_ [e Heq]]];
    rewrite Heq in Hr; [|by simplify_eq].
  destruct o as [[]|e|]; [|by apply store_token_not_err in Hr|done].
  destruct (store_token_fits r s s' Hh Hd Hr) as (Fh & Fd & Fa).
  destruct (store_token_run r s Fh Fd Fa) as (s2 & Hr2 & Hc). rewrite Hr in Hr2. simplify_eq.
  split; [|done]. unfold token_ok. split_and!; [done..|].
  destruct (decide (AuthorizedAccount r = [])); [done|]. destruct Fa; [done|]. done.
Qed.

(** ** Indexed queries *)

Lemma collectTokens_run parse keys l s :
  Forall2 (fun k r => exists x, parse k = Ok (x, TokenHash r) /\ tokens (cs s) !! TokenHash r = Some r) keys l ->
  collectTokens parse keys s = (Ok l, s).
Proof.
  intros Hl. unfold collectTokens.
  match goal with |- foldM ?f _ _ _ = _ =>
    assert (Hloop : forall acc, foldM f acc keys s = (Ok (acc ++ l), s)); [|apply (Hloop [])] end.
  induction Hl as [|k r keys l (x & Hp & Ht) _ IH]; intros acc; simpl; [by rewrite app_nil_r|].
  erewrite bind_run_ok; [rewrite cons_middle, app_assoc; apply IH|].
  erewrite attempt_run_ok by (unfold of_outcome; by rewrite Hp). cbv beta iota.
  unfold GetJWSToken. rewrite core_get_run, Ht. done.
Qed.

Lemma indexed_query (name : JWSTokenRecord -> bytes) (sel : JWSTokenRecord -> Prop)
    (idx : gmap bytes unit) parse x s :
  fits x ->
  (forall k, is_Some (idx !! k) <-> exists h r, tokens (cs s) !! h = Some r /\ sel r /\
     k = prefixed (name r) ++ prefixed (TokenHash r)) ->
  (forall h r, tokens (cs s) !! h = Some r -> TokenHash r = h /\ fits h /\ (sel r -> fits (name r))) ->
  (forall a h, fits a -> fits h -> parse (prefixed a ++ prefixed h) = Ok (a, h)) ->
  exists l, collectTokens parse (store_prefix_items (prefixed x) idx).*1 s = (Ok l, s) /\
    NoDup (TokenHash <$> l) /\
    forall r, r ∈ l <-> tokens (cs s) !! TokenHash r = Some r /\ sel r /\ name r = x.
Proof.
  intros Hx Hidx Hrec Hparse.
  set (key r := prefixed (name r) ++ prefixed (TokenHash r)).
  set (good r := tokens (cs s) !! TokenHash r = Some r /\ sel r /\ name r = x).
  assert (Hkeys : forall k, k ∈ (store_prefix_items (prefixed x) idx).*1 <-> exists r, k = key r /\ good r).
  { intros k. rewrite list_elem_of_fmap. split.
    - intros ([k' []] & -> & [[y Hy] Hl]%elem_of_store_prefix_items).
      destruct (proj1 (Hidx k') ltac:(eauto)) as (h & r & Ht & Hs & Hk).
      destruct (Hrec h r Ht) as (<- & Hfh & Hfn). exists r. split; [done|]. split_and!; [done|done|].
      rewrite Hk in Hy. by apply prefixed_app_inj in Hy as [-> _]; [|auto|].
    - intros (r & -> & Ht & Hs & Hn). exists (key r, tt). split; [done|].
      apply elem_of_store_prefix_items. split; [exists (prefixed (TokenHash r)); unfold key; by rewrite Hn|].
      destruct (proj2 (Hidx (key r)) ltac:(eauto 10)) as [[] ->]. done. }
  pose proof (store_prefix_items_NoDup (prefixed x) idx) as Hnd.
  assert (Hl : exists l, (store_prefix_items (prefixed x) idx).*1 = key <$> l /\ Forall good l).
  { assert (Hall : Forall (fun k => exists r, k = key r /\ good r) (store_prefix_items (prefixed x) idx).*1)
      by (apply Forall_forall; intros k; apply Hkeys).
    clear Hkeys Hnd. induction Hall as [|k ks (r & -> & Hg) _ (l & -> & Hl)]; [by exists []|].
    exists (r :: l). split; [done|by constructor]. }
  destruct Hl as (l & Hkl & Hgood). exists l. rewrite Hkl in *. split_and!.
  - apply collectTokens_run. clear Hkl Hkeys Hnd. induction Hgood as [|r l (Ht & Hs & Hn) _ IH]; [constructor|].
    rewrite fmap_cons. constructor; [|done]. destruct (Hrec _ _ Ht) as (_ & Hfh & Hfn).
    exists (name r). split; [|done]. by apply Hparse; auto.
  - apply NoDup_fmap_1 in Hnd. clear Hkl Hkeys. induction Hgood as [|r l (Ht & Hs & Hn) Hgl IH]; [constructor|].
    apply NoDup_cons in Hnd as [Hni Hnd]. rewrite fmap_cons. constructor; [|auto].
    intros (r' & Heq & Hin)%list_elem_of_fmap. rewrite Forall_forall in Hgl.
    destruct (Hgl r' Hin) as [Ht' _]. rewrite <- Heq, Ht in Ht'. by simplify_eq.
  - intros r. split; [rewrite Forall_forall in Hgood; apply Hgood|].
    intros Hg. assert (Hin : key r ∈ key <$> l) by (apply Hkeys; eauto).
    apply list_elem_of_fmap in Hin as (r' & Heq & Hin). rewrite Forall_forall in Hgood.
    destruct (Hgood r' Hin) as (Ht' & Hs' & Hn'), Hg as (Ht & Hs & Hn).
    destruct (Hrec _ _ Ht) as (_ & Hfh & Hfn), (Hrec _ _ Ht') as (_ & Hfh' & Hfn').
    apply prefixed_app_inj in Heq as [_ Heq]; [|by auto..].
    rewrite <- (app_nil_r (prefixed (TokenHash r))), <- (app_nil_r (prefixed (TokenHash r'))) in Heq.
    apply prefixed_app_inj in Heq as [Heq _]; [|done..]. rewrite Heq, Ht' in Ht. by simplify_eq.
Qed.
End tokens.
