(* ===== verification/CoreReach.v ===== *)
(** What holds in every state of the core module, and what its operations do.

    The invariant [core_inv], that every operation keeps it, that an invalid token
    stays invalid through each of them, and what genesis does to the stores. The
    theorems for reachable states are in CoreSafety.v. *)
From Stdlib Require Import Ascii ZArith Lia.
From stdpp Require Import base numbers list gmap strings.
From S2P Require Import Prelude Sdk Sha256 Utils FeegrantKeys CoreKeeper CoreTokens.

Record core_inv `{SdkKeys, AddressCodec} (c : CoreStore) : Prop := {
  core_tokens : tokens_inv c;
  core_params_ok : forall p, core_params c = Some p -> Params_Validate p = None;
  core_ica : forall k x, ica_connections c !! k = Some x -> IcaAddress x = k /\ k <> [];
}.

Section reach.
Context `{SdkKeys, AddressCodec}.
Context {S : Type} `{Lens S CoreStore, !LensLaws S CoreStore, IBCKeepers S}.
Implicit Types (c : CoreStore) (r : JWSTokenRecord) (s : S).

Definition core_ok (s : S) : Prop := core_inv (cs s).

Lemma core_mod_preserves (I : CoreStore -> Prop) f :
  (forall c, I c -> I (f c)) -> preserves (fun s => I (cs s)) (core_mod f).
Proof. intros Hf s Hs. rewrite core_mod_run. simpl. rewrite cs_set. auto. Qed.

(** ** Steps *)

(** Two records that the indexes do not tell apart. *)
Definition same_names r r' : Prop :=
  TokenHash r' = TokenHash r /\ IssuerDid r' = IssuerDid r /\ AuthorizedAccount r' = AuthorizedAccount r.

Lemma put_token_same c r r' : tokens_inv c -> tokens c !! TokenHash r = Some r -> same_names r r' ->
  put_token r' c = set_tokens (<[TokenHash r := r']> (tokens c)) c.
Proof.
  intros Hi Ht (Hh & Hd & Ha). unfold put_token, set_tokens, did_index_key, account_index_key.
  rewrite Hh, Hd, Ha. f_equal.
  - apply insert_id. destruct (proj2 (inv_by_did c Hi (did_index_key r)) ltac:(eauto)) as [[] Hl]. exact Hl.
  - destruct (decide (AuthorizedAccount r = [])); [done|]. apply insert_id.
    destruct (proj2 (inv_by_account c Hi (account_index_key r)) ltac:(eauto)) as [[] Hl]. exact Hl.
Qed.

(** Whether a token is invalid. *)
Definition invalid_at (h : bytes) c : Prop :=
  exists r, tokens c !! h = Some r /\ Status r = STATUS_INVALID.

(** The invariant of the proofs: consistent records, and one token invalid (or
    no demand, for [None]). *)
Definition kept (o : option bytes) c : Prop :=
  core_inv c /\ from_option (fun h => invalid_at h c) True o.

Lemma kept_put_token o c r : kept o c -> token_ok (IgnoreBearerAuth (config_of c)) r ->
  (forall r0, tokens c !! TokenHash r = Some r0 ->
     IssuerDid r = IssuerDid r0 /\ AuthorizedAccount r = AuthorizedAccount r0) ->
  (o = Some (TokenHash r) -> Status r = STATUS_INVALID) -> kept o (put_token r c).
Proof.
  intros [[Ht Hp Hi] Ho] Hok Hsame Hst. split; [split; [by apply put_token_inv|done|done]|].
  destruct o as [h|]; [|done]. simpl in *. destruct Ho as (r0 & Hl & Hs). unfold invalid_at. simpl.
  destruct (decide (h = TokenHash r)) as [->|Hne].
  - exists r. rewrite lookup_insert_eq. auto.
  - exists r0. by rewrite lookup_insert_ne.
Qed.

Lemma SetJWSToken_kept o r s o' s' : kept o (cs s) ->
  (forall r0, tokens (cs s) !! TokenHash r = Some r0 ->
     IssuerDid r = IssuerDid r0 /\ AuthorizedAccount r = AuthorizedAccount r0) ->
  (o = Some (TokenHash r) -> Status r = STATUS_INVALID) ->
  SetJWSToken r s = (o', s') -> match o' with Panic => True | _ => kept o (cs s') end.
Proof.
  intros Hk Hsame Hst Hr. apply SetJWSToken_result in Hr.
  destruct o' as [[]|e|]; [|by subst|done]. destruct Hr as [Hok ->]. by apply kept_put_token.
Qed.

(** Rewriting a stored record in place. *)
Lemma rewrite_token_kept o h (f : JWSTokenRecord -> JWSTokenRecord) e :
  (forall r, same_names r (f r)) ->
  (forall r, Status r = STATUS_INVALID -> Status (f r) = STATUS_INVALID) ->
  preserves (fun s => kept o (cs s))
    (bind (GetJWSToken h) (fun found => match found with None => throw e | Some r => SetJWSToken (f r) end)).
Proof.
  intros Hf Hinv s Hk. unfold GetJWSToken. rewrite core_get_run.
  destruct (tokens (cs s) !! h) as [r|] eqn:Et; [|done].
  destruct Hk as [Hc Ho]. destruct (inv_record _ (core_tokens _ Hc) _ _ Et) as [Hh _].
  destruct (Hf r) as (Fh & Fd & Fa). destruct (SetJWSToken (f r) s) as [o' s'] eqn:E.
  apply (SetJWSToken_kept o) in E; [by destruct o'|done|..].
  - intros r0 Hr0. rewrite Fh, Hh in Hr0. rewrite Fd, Fa. by simplify_eq.
  - intros ->. simpl in Ho. destruct Ho as (r0 & Hl & Hs). rewrite Fh, Hh in Hl. simplify_eq. auto.
Qed.

Lemma UpdateJWSTokenStatus_kept o ctx h by_ :
  preserves (fun s => kept o (cs s)) (UpdateJWSTokenStatus ctx h STATUS_INVALID by_).
Proof.
  unfold UpdateJWSTokenStatus. apply preserves_bind; [preserve|intros _].
  apply (rewrite_token_kept o h); [done|done].
Qed.

Lemma UpdateJWSTokenStatus_inv ctx h status by_ :
  preserves core_ok (UpdateJWSTokenStatus ctx h status by_).
Proof.
  unfold UpdateJWSTokenStatus. apply preserves_bind; [preserve|intros _].
  intros s Hs. unfold GetJWSToken. rewrite core_get_run.
  destruct (tokens (cs s) !! h) as [r|] eqn:Et; [|done].
  destruct (inv_record _ (core_tokens _ Hs) _ _ Et) as [Hh _].
  destruct (SetJWSToken (with_status status (block_time ctx) by_ r) s) as [o' s'] eqn:E.
  apply (SetJWSToken_kept None) in E; [by destruct o' as [[]|e|]; [apply E|apply E|]|by split|..|done].
  intros r0 Hr0. simpl in *. rewrite Hh in Hr0. by simplify_eq.
Qed.

Lemma RecordJWSTokenUsage_kept o ctx h :
  preserves (fun s => kept o (cs s)) (RecordJWSTokenUsage ctx h).
Proof.
  unfold RecordJWSTokenUsage. apply preserves_bind; [preserve|intros _].
  apply (rewrite_token_kept o h); [done|done].
Qed.

Lemma StoreOrUpdateJWSToken_kept o ctx token did account iat exp :
  preserves (fun s => kept o (cs s)) (StoreOrUpdateJWSToken ctx token did account iat exp).
Proof.
  intros s Hk. unfold StoreOrUpdateJWSToken. cbv zeta. unfold GetJWSToken at 1. rewrite core_get_run.
  destruct (tokens (cs s) !! HashJWSToken token) as [r|] eqn:Et.
  - apply preserves_bind; [preserve|intros _; apply RecordJWSTokenUsage_kept|done].
  - destruct (negb _ && negb _); [done|]. erewrite bind_run_ok by done.
    match goal with |- match SetJWSToken ?r s with _ => _ end => destruct (SetJWSToken r s) as [o' s'] eqn:E end.
    apply (SetJWSToken_kept o) in E; [by destruct o'|done|..]; simpl; [congruence|].
    intros ->. destruct Hk as [_ (r & Hl & _)]. congruence.
Qed.

Lemma CheckAndUpdateExpiredTokens_kept o ctx :
  preserves (fun s => kept o (cs s)) (CheckAndUpdateExpiredTokens ctx).
Proof.
  unfold CheckAndUpdateExpiredTokens, IterateJWSTokens. preserve. apply UpdateJWSTokenStatus_kept.
Qed.

Lemma InvalidateJWS_kept o ctx req : preserves (fun s => kept o (cs s)) (InvalidateJWS ctx req).
Proof. unfold InvalidateJWS. preserve. apply UpdateJWSTokenStatus_kept. Qed.

Lemma SetParams_kept o p : preserves (fun s => kept o (cs s)) (SetParams p).
Proof.
  unfold SetParams. destruct (Params_Validate p) eqn:E; [preserve|]. apply core_mod_preserves.
  intros c [[Ht Hp Hi] Ho]. split; [split|]; [by destruct Ht; split| |done|done].
  simpl. intros p' ?. by simplify_eq.
Qed.

Lemma SetICAConnection_kept o a b chain conn : preserves (fun s => kept o (cs s)) (SetICAConnection a b chain conn).
Proof.
  unfold SetICAConnection. apply preserves_bind_returns with (P := fun _ => a <> []); [preserve|..].
  - intros s [] s' Hr. unfold throw_if in Hr. case_bool_decide; done.
  - intros _ Hne. apply core_mod_preserves. intros x [[Ht Hp Hi] Ho]. split; [split|done].
    + by destruct Ht; split.
    + done.
    + simpl. intros k y [[<- <-]|[_ Hl]]%lookup_insert_Some; [done|by apply Hi].
Qed.

Lemma HandleICAChannelOpen_kept o conn port :
  preserves (fun s => kept o (cs s)) (HandleICAChannelOpen conn port).
Proof. unfold HandleICAChannelOpen. preserve. apply SetICAConnection_kept. Qed.

(** ** Deleting *)

Definition del_token r c : CoreStore :=
  mkCoreStore (core_params c) (ica_connections c) (delete (TokenHash r) (tokens c))
    (delete (did_index_key r) (tokens_by_did c))
    (if decide (AuthorizedAccount r = []) then tokens_by_account c
     else delete (account_index_key r) (tokens_by_account c))
    (chain_config c).

Lemma index_key_hash a b h h' : fits a -> fits b -> fits h -> fits h' ->
  prefixed a ++ prefixed h = prefixed b ++ prefixed h' -> h = h'.
Proof.
  intros Ha Hb Hh Hh' Heq. apply prefixed_app_inj in Heq as [_ Heq]; [|done..].
  rewrite <- (app_nil_r (prefixed h)), <- (app_nil_r (prefixed h')) in Heq.
  by apply prefixed_app_inj in Heq as [? _].
Qed.

Lemma token_account_fits b r : token_ok b r -> AuthorizedAccount r <> [] -> fits (AuthorizedAccount r).
Proof. unfold token_ok. intros (_ & _ & _ & Ha) Hne. rewrite decide_False in Ha by done. tauto. Qed.

Lemma is_Some_delete (m : gmap bytes unit) k i : is_Some (delete k m !! i) <-> i <> k /\ is_Some (m !! i).
Proof. unfold is_Some. setoid_rewrite lookup_delete_Some. naive_solver. Qed.

Lemma del_token_inv c r : tokens_inv c -> tokens c !! TokenHash r = Some r -> tokens_inv (del_token r c).
Proof.
  intros Hi Ht. destruct Hi as [Hr Hd Ha]. destruct (Hr _ _ Ht) as [_ Hok].
  pose proof (token_ok_fits _ _ Hok) as [Hfh Hfd].
  assert (Hother : forall h r', tokens c !! h = Some r' -> h <> TokenHash r ->
    did_index_key r' <> did_index_key r /\
    (AuthorizedAccount r' <> [] -> AuthorizedAccount r <> [] -> account_index_key r' <> account_index_key r)).
  { intros h r' Hl Hne. destruct (Hr _ _ Hl) as [<- Hok']. pose proof (token_ok_fits _ _ Hok') as [Hfh' Hfd'].
    split; [|intros Hna Hna']; intros Heq; apply Hne; eapply index_key_hash; try apply Heq; try done;
      by eapply token_account_fits. }
  split; simpl.
  - intros h r' [_ Hl]%lookup_delete_Some. by apply Hr.
  - intros k. rewrite is_Some_delete, Hd. split.
    + intros [Hne (h & r' & Hl & ->)]. exists h, r'. split; [|done].
      apply lookup_delete_Some. split; [|done]. intros <-. congruence.
    + intros (h & r' & [Hne Hl]%lookup_delete_Some & ->). split; [|eauto]. by eapply Hother.
  - intros k. destruct (decide (AuthorizedAccount r = [])) as [He|He]; rewrite ?is_Some_delete, Ha; split.
    + intros (h & r' & Hl & Hna & ->). exists h, r'. split; [|done].
      apply lookup_delete_Some. split; [|done]. intros <-. congruence.
    + intros (h & r' & [Hne Hl]%lookup_delete_Some & Hna & ->). eauto.
    + intros [Hne (h & r' & Hl & Hna & ->)]. exists h, r'. split; [|done].
      apply lookup_delete_Some. split; [|done]. intros <-. congruence.
    + intros (h & r' & [Hne Hl]%lookup_delete_Some & Hna & ->). split; [|eauto]. by eapply Hother.
Qed.

Lemma DeleteJWSToken_run h r s : core_ok s -> tokens (cs s) !! h = Some r ->
  exists s', DeleteJWSToken h s = (Ok tt, s') /\ cs s' = del_token r (cs s).
Proof.
  intros Hc Ht. destruct (inv_record _ (core_tokens _ Hc) _ _ Ht) as [<- Hok].
  pose proof (token_ok_fits _ _ Hok) as [Hfh Hfd].
  unfold DeleteJWSToken, GetJWSToken. rewrite core_get_run, Ht. cbv beta iota.
  erewrite bind_run_ok by apply core_mod_run. rewrite JWSTokenByDIDKey_fits by done.
  erewrite bind_run_ok by done. erewrite bind_run_ok by apply core_mod_run.
  unfold del_token. destruct (decide (AuthorizedAccount r = [])) as [He|He].
  - rewrite bool_decide_true by done. eexists. split; [done|]. by rewrite !cs_set.
  - rewrite bool_decide_false by done. simpl when.
    rewrite JWSTokenByAccountKey_fits by (by eauto using token_account_fits).
    erewrite bind_run_ok by done. rewrite core_mod_run. eexists. split; [done|]. by rewrite !cs_set.
Qed.

Lemma DeleteJWSToken_preserves h : preserves core_ok (DeleteJWSToken h).
Proof.
  intros s Hs. destruct (tokens (cs s) !! h) as [r|] eqn:Et.
  - destruct (DeleteJWSToken_run h r s Hs Et) as (s' & -> & Hc). unfold core_ok. rewrite Hc.
    destruct Hs as [Ht Hp Hi]. split; [|done|done]. apply del_token_inv; [done|].
    by destruct (inv_record _ Ht _ _ Et) as [-> _].
  - unfold DeleteJWSToken, GetJWSToken. by rewrite core_get_run, Et.
Qed.

(** ** Genesis *)

Definition put_tokens c (l : list JWSTokenRecord) : CoreStore := foldl (fun c r => put_token r c) c l.

Lemma put_tokens_fields l : forall c,
  core_params (put_tokens c l) = core_params c /\ ica_connections (put_tokens c l) = ica_connections c /\
  chain_config (put_tokens c l) = chain_config c /\
  tokens (put_tokens c l) = foldl (fun m r => <[TokenHash r := r]> m) (tokens c) l.
Proof. induction l as [|r l IH]; intros c; [done|]. apply (IH (put_token r c)). Qed.

Lemma load_tokens_run l : forall s b, b = IgnoreBearerAuth (config_of (cs s)) ->
  (Forall (token_ok b) l /\ exists s', forM_ (fun r => or_panic (SetJWSToken r)) l s = (Ok tt, s') /\
     cs s' = put_tokens (cs s) l) \/
  (~ Forall (token_ok b) l /\ exists s', forM_ (fun r => or_panic (SetJWSToken r)) l s = (Panic, s')).
Proof.
  induction l as [|r l IH]; intros s b ->; simpl.
  { left. split; [constructor|eauto]. }
  destruct (SetJWSToken r s) as [[[]|e|] s1] eqn:E.
  - destruct (SetJWSToken_result r s _ _ E) as [Hok Hc].
    assert (Hrun : or_panic (SetJWSToken r) s = (Ok tt, s1)) by (unfold or_panic; by erewrite attempt_run_ok).
    rewrite (bind_run_ok _ _ _ _ _ Hrun).
    destruct (IH s1 (IgnoreBearerAuth (config_of (cs s)))) as [[Hall (s' & Hr & Hc')]|[Hn Hp]].
    + by rewrite Hc.
    + left. split; [by constructor|]. exists s'. split; [done|]. rewrite Hc', Hc. done.
    + right. split; [|done]. by intros [_ ?]%Forall_cons.
  - right. split.
    + intros [Hok _]%Forall_cons. destruct (SetJWSToken_run r s Hok) as (? & ? & _). congruence.
    + exists s1. apply bind_run_panic. unfold or_panic. by erewrite attempt_run_err.
  - right. split.
    + intros [Hok _]%Forall_cons. destruct (SetJWSToken_run r s Hok) as (? & ? & _). congruence.
    + exists s1. apply bind_run_panic. unfold or_panic. apply bind_run_panic. unfold attempt. by rewrite E.
Qed.

Lemma put_tokens_inv l : forall c, tokens_inv c -> Forall (token_ok (IgnoreBearerAuth (config_of c))) l ->
  NoDup (TokenHash <$> l) -> (forall r, r ∈ l -> tokens c !! TokenHash r = None) -> tokens_inv (put_tokens c l).
Proof.
  induction l as [|r l IH]; intros c Hi Hall Hnd Hfresh; [done|].
  apply Forall_cons in Hall as [Hok Hall]. rewrite fmap_cons in Hnd. apply NoDup_cons in Hnd as [Hni Hnd].
  apply (IH (put_token r c)); [|done|done|].
  - apply put_token_inv; [done|done|]. intros r0 Hr0. by rewrite (Hfresh r ltac:(left)) in Hr0.
  - intros r' Hin. simpl. rewrite lookup_insert_ne; [apply Hfresh; by right|].
    intros Heq. apply Hni. rewrite Heq. by apply list_elem_of_fmap_2.
Qed.

Definition put_icas (m : gmap bytes ICAConnection) (l : list ICAConnection) : gmap bytes ICAConnection :=
  foldl (fun m x => <[IcaAddress x := x]> m) m l.

Definition load_icas (l : list ICAConnection) : M S unit :=
  forM_ (fun x => or_panic (SetICAConnection (IcaAddress x) (ControllerAddress x)
                              (ControllerChainId x) (ConnectionId x))) l.

Lemma load_icas_run l : forall s,
  (Forall (fun x => IcaAddress x <> []) l /\ exists s', load_icas l s = (Ok tt, s') /\
     cs s' = set_ica_connections (put_icas (ica_connections (cs s)) l) (cs s)) \/
  (~ Forall (fun x => IcaAddress x <> []) l /\ exists s', load_icas l s = (Panic, s')).
Proof.
  unfold load_icas. induction l as [|x l IH]; intros s; simpl.
  { left. split; [constructor|]. exists s. split; [done|]. by destruct (cs s). }
  destruct (decide (IcaAddress x = [])) as [He|He].
  - right. split; [by intros [? _]%Forall_cons|]. exists s. apply bind_run_panic.
    unfold or_panic, SetICAConnection. rewrite bool_decide_true by done. done.
  - erewrite bind_run_ok; [|unfold or_panic, SetICAConnection; rewrite bool_decide_false by done; done].
    match goal with |- context [forM_ _ l ?s1] => destruct (IH s1) as [[Hall (s' & -> & Hc)]|[Hn [s' ->]]] end.
    + left. split; [by constructor|]. exists s'. split; [done|]. rewrite Hc. rewrite cs_set. by destruct x.
    + right. split; [by intros [_ ?]%Forall_cons|eauto].
Qed.

(** The state a genesis builds, up to its tokens. *)
Definition genesis_base (g : GenesisState) : CoreStore :=
  mkCoreStore (Some (gen_Params g)) (put_icas ∅ (gen_IcaConnections g)) ∅ ∅ ∅ None.

Definition genesis_valid (g : GenesisState) : Prop :=
  Params_Validate (gen_Params g) = None /\ Forall (fun x => IcaAddress x <> []) (gen_IcaConnections g) /\
  Forall (token_ok false) (gen_JwsTokens g).

Lemma InitGenesis_run g s : cs s = empty_core ->
  (genesis_valid g /\ exists s', InitGenesis g s = (Ok tt, s') /\
     cs s' = set_chain_config (Some (gen_ChainConfig g)) (put_tokens (genesis_base g) (gen_JwsTokens g))) \/
  (~ genesis_valid g /\ exists s', InitGenesis g s = (Panic, s')).
Proof.
  intros Hs. unfold InitGenesis, genesis_valid. destruct (Params_Validate (gen_Params g)) eqn:Ep.
  { right. split; [naive_solver|]. eexists. apply bind_run_panic. unfold or_panic, SetParams. by rewrite Ep. }
  erewrite bind_run_ok by (unfold or_panic, SetParams; rewrite Ep; done).
  match goal with |- context [bind (forM_ _ (gen_IcaConnections g)) _ ?s1] => set (s1' := s1) end.
  assert (Hs1 : cs s1' = mkCoreStore (Some (gen_Params g)) ∅ ∅ ∅ ∅ None).
  { unfold s1'. rewrite cs_set. change (lens_get s) with (cs s). by rewrite Hs. }
  destruct (load_icas_run (gen_IcaConnections g) s1') as [[Hica (s2 & Hr2 & Hc2)]|[Hn [s2 Hr2]]].
  2:{ right. split; [naive_solver|]. eexists. by apply bind_run_panic. }
  rewrite (bind_run_ok _ _ _ _ _ Hr2). rewrite Hs1 in Hc2.
  destruct (load_tokens_run (gen_JwsTokens g) s2 false) as [[Hok (s3 & Hr3 & Hc3)]|[Hn [s3 Hr3]]].
  - by rewrite Hc2.
  - left. split; [done|]. rewrite (bind_run_ok _ _ _ _ _ Hr3). rewrite Hc2 in Hc3.
    destruct (put_tokens_fields (gen_JwsTokens g) (genesis_base g)) as (_ & _ & Hcfg & _).
    change (cs s3 = put_tokens (genesis_base g) (gen_JwsTokens g)) in Hc3.
    unfold or_panic, SetChainConfig. unfold attempt, bind, core_get, gets. change (lens_get s3) with (cs s3).
    rewrite Hc3, Hcfg. simpl. eexists. split; [done|]. rewrite cs_set. change (lens_get s3) with (cs s3). by rewrite Hc3.
  - right. split; [naive_solver|]. eexists. by apply bind_run_panic.
Qed.

Lemma tokens_inv_empty p i cfg : tokens_inv (mkCoreStore p i ∅ ∅ ∅ cfg).
Proof.
  split; simpl; [done|..]; intros k; rewrite lookup_empty; (split; [by intros []|]);
    intros (h & r & Hl & _); done.
Qed.

Lemma put_icas_keys l : Forall (fun x => IcaAddress x <> []) l -> forall m,
  (forall k x, m !! k = Some x -> IcaAddress x = k /\ k <> []) ->
  forall k x, put_icas m l !! k = Some x -> IcaAddress x = k /\ k <> [].
Proof.
  induction 1 as [|y l Hy _ IH]; intros m Hm; [done|]. apply (IH (<[IcaAddress y := y]> m)).
  intros k x [[<- <-]|[_ Hl]]%lookup_insert_Some; [done|by apply Hm].
Qed.

Lemma InitGenesis_inv g s s' : cs s = empty_core -> NoDup (TokenHash <$> gen_JwsTokens g) ->
  InitGenesis g s = (Ok tt, s') -> core_ok s'.
Proof.
  intros Hs Hnd Hr. destruct (InitGenesis_run g s Hs) as [[(Hp & Hi & Ht) (s2 & Hr2 & Hc)]|[_ [s2 Hr2]]];
    [|congruence].
  rewrite Hr in Hr2. simplify_eq. unfold core_ok. rewrite Hc.
  destruct (put_tokens_fields (gen_JwsTokens g) (genesis_base g)) as (Fp & Fi & _ & _).
  assert (Hinv : tokens_inv (put_tokens (genesis_base g) (gen_JwsTokens g))).
  { apply put_tokens_inv; [apply tokens_inv_empty|done|done|done]. }
  split; simpl.
  - destruct Hinv as [Hrec Hd Ha]. split; [|exact Hd|exact Ha].
    intros h r Hl. destruct (Hrec h r Hl) as [Hh (? & ? & ? & Hacc)]. split; [done|].
    unfold token_ok. split_and!; [done..|]. destruct (decide _); [|done].
    destruct (put_tokens_fields (gen_JwsTokens g) (genesis_base g)) as (_ & _ & Hcfg & _).
    unfold config_of in Hacc. rewrite Hcfg in Hacc. done.
  - rewrite Fp. intros p ?. simpl in *. by simplify_eq.
  - rewrite Fi. simpl. apply put_icas_keys; [done|]. intros k x Hx. by rewrite lookup_empty in Hx.
Qed.
End reach.
