(* ===== verification/CoreSafety.v ===== *)
(** The theorems of the core module: indexed queries, invalidation, expiry and
    genesis, in every reachable state (src/x/core/keeper, src/x/core/module). *)
From Stdlib Require Import Ascii ZArith Lia.
From stdpp Require Import base numbers list gmap strings.
From S2P Require Import Prelude Sdk Sha256 Utils FeegrantKeys CoreKeeper CoreTokens CoreReach.

(** The operations of the module. *)
Inductive core_op : Type :=
  | OpStoreOrUpdate (ctx : Ctx) (token did account : bytes) (issuedAt expiresAt : Time)
  | OpInvalidate (ctx : Ctx) (req : MsgInvalidateJWS)
  | OpEndBlock (ctx : Ctx)
  | OpUpdateCoreParams (authority : bytes) (req : MsgUpdateParams)
  | OpICAChannelOpen (connectionID controllerPortID : bytes)
  | OpRecordUsage (ctx : Ctx) (tokenHash : bytes)
  | OpUpdateStatus (ctx : Ctx) (tokenHash : bytes) (status : JWSTokenStatus) (invalidatedBy : bytes)
  | OpDelete (tokenHash : bytes).

(** Those the chain runs: the ante handler, the messages, the block and the IBC
    middleware. [DeleteJWSToken] has no caller, and [UpdateJWSTokenStatus] none
    with another status than invalid. *)
Definition chain_op (op : core_op) : bool :=
  match op with
  | OpUpdateStatus _ _ status _ => bool_decide (status = STATUS_INVALID)
  | OpDelete _ => false
  | _ => true
  end.

Section safety.
Context `{SdkKeys, AddressCodec}.
Context {S : Type} `{Lens S CoreStore, !LensLaws S CoreStore, IBCKeepers S}.
Implicit Types (c : CoreStore) (r : JWSTokenRecord) (s : S) (ctx : Ctx).

Definition run_core_op (op : core_op) : M S unit :=
  match op with
  | OpStoreOrUpdate ctx token did account iat exp => StoreOrUpdateJWSToken ctx token did account iat exp
  | OpInvalidate ctx req => InvalidateJWS ctx req
  | OpEndBlock ctx => EndBlocker ctx
  | OpUpdateCoreParams authority req => UpdateParams authority req
  | OpICAChannelOpen conn port => HandleICAChannelOpen conn port
  | OpRecordUsage ctx h => RecordJWSTokenUsage ctx h
  | OpUpdateStatus ctx h status by_ => UpdateJWSTokenStatus ctx h status by_
  | OpDelete h => DeleteJWSToken h
  end.

(** From an empty store or a genesis without repeated tokens; a step is a
    successful operation, since the writes of a failed transaction are dropped,
    or anything another module does. *)
Inductive core_reachable : S -> Prop :=
  | core_reachable_empty s : cs s = empty_core -> core_reachable s
  | core_reachable_genesis s g s' : cs s = empty_core -> NoDup (TokenHash <$> gen_JwsTokens g) ->
      InitGenesis g s = (Ok tt, s') -> core_reachable s'
  | core_reachable_step s op s' :
      core_reachable s -> run_core_op op s = (Ok tt, s') -> core_reachable s'
  | core_reachable_other s s' : core_reachable s -> cs s' = cs s -> core_reachable s'.

(** What the chain does after a state. *)
Inductive core_steps : S -> S -> Prop :=
  | core_steps_refl s : core_steps s s
  | core_steps_step s s1 op s' : core_steps s s1 -> chain_op op = true ->
      run_core_op op s1 = (Ok tt, s') -> core_steps s s'
  | core_steps_other s s1 s' : core_steps s s1 -> cs s' = cs s1 -> core_steps s s'.

Lemma chain_op_kept o op : chain_op op = true ->
  preserves (fun s => kept o (cs s)) (run_core_op op).
Proof.
  destruct op; simpl; intros Hop.
  - apply StoreOrUpdateJWSToken_kept.
  - apply InvalidateJWS_kept.
  - unfold EndBlocker. preserve. apply CheckAndUpdateExpiredTokens_kept.
  - unfold UpdateParams. preserve. apply SetParams_kept.
  - apply HandleICAChannelOpen_kept.
  - apply RecordJWSTokenUsage_kept.
  - apply bool_decide_eq_true in Hop as ->. apply UpdateJWSTokenStatus_kept.
  - done.
Qed.

Lemma core_op_inv op s s' : core_ok s -> run_core_op op s = (Ok tt, s') -> core_ok s'.
Proof.
  intros Hs Hr. destruct op.
  8:{ exact (preserves_ok _ _ _ _ _ (DeleteJWSToken_preserves _) Hs Hr). }
  7:{ exact (preserves_ok _ _ _ _ _ (UpdateJWSTokenStatus_inv _ _ _ _) Hs Hr). }
  all: match type of Hr with run_core_op ?op _ = _ =>
    destruct (preserves_ok _ _ _ _ _ (chain_op_kept None op eq_refl) (conj Hs I) Hr) as [Hk _]; exact Hk end.
Qed.

Lemma core_reachable_ok s : core_reachable s -> core_ok s.
Proof.
  induction 1 as [s Hs|s g s' Hs Hnd Hr|s op s' _ IH Hr|s s' _ IH Hs].
  - unfold core_ok. rewrite Hs. split; [apply tokens_inv_empty|done|].
    intros k x Hx. simpl in Hx. by rewrite lookup_empty in Hx.
  - by eapply InitGenesis_inv.
  - by eapply core_op_inv.
  - unfold core_ok in *. by rewrite Hs.
Qed.

(** In every reachable state the two indexes of the token store are exact:
    asking for the tokens of a DID, or of an account, returns every stored record
    that names it, each once, and no other, and changes nothing. *)
Theorem token_queries_exact s (x : bytes) : core_reachable s -> fits x ->
  (exists l, GetJWSTokensByDID x s = (Ok l, s) /\ NoDup (TokenHash <$> l) /\
     forall r, r ∈ l <-> tokens (cs s) !! TokenHash r = Some r /\ IssuerDid r = x) /\
  (exists l, GetJWSTokensByAccount x s = (Ok l, s) /\ NoDup (TokenHash <$> l) /\
     forall r, r ∈ l <-> tokens (cs s) !! TokenHash r = Some r /\ AuthorizedAccount r = x).
Proof.
  intros Hs Hx. apply core_reachable_ok in Hs as [[Hrec Hd Ha] _ _]. split.
  - destruct (indexed_query IssuerDid (fun _ => True) (tokens_by_did (cs s)) ParseJWSTokenByDIDKey x s)
      as (l & Hr & Hnd & Hl); [done|..].
    + intros k. rewrite Hd. unfold did_index_key. naive_solver.
    + intros h r Ht. destruct (Hrec h r Ht) as [<- Hok]. apply token_ok_fits in Hok. tauto.
    + intros a h Fa Fh. by apply parse_index_key.
    + exists l. unfold GetJWSTokensByDID, JWSTokenDIDPrefix. rewrite MustLengthPrefix_fits by done.
      split; [exact Hr|]. split; [done|]. intros r. rewrite Hl. tauto.
  - destruct (indexed_query AuthorizedAccount (fun r => AuthorizedAccount r <> [])
      (tokens_by_account (cs s)) ParseJWSTokenByAccountKey x s) as (l & Hr & Hnd & Hl); [done|..].
    + intros k. rewrite Ha. done.
    + intros h r Ht. destruct (Hrec h r Ht) as [<- Hok]. pose proof (token_ok_fits _ _ Hok) as [? ?].
      split_and!; [done..|]. by eapply token_account_fits.
    + intros a h Fa Fh. by apply parse_index_key.
    + exists l. unfold GetJWSTokensByAccount, JWSTokenAccountPrefix. rewrite MustLengthPrefix_fits by done.
      split; [exact Hr|]. split; [done|]. intros r. rewrite Hl. split; [tauto|].
      intros [Ht Hn]. split_and!; [done| |done]. rewrite Hn. by apply fits_nonempty.
Qed.

Lemma core_steps_kept o s s' : core_steps s s' -> kept o (cs s) -> kept o (cs s').
Proof.
  induction 1 as [|s s1 op s' _ IH Hop Hr|s s1 s' _ IH Hs]; intros Hk; [done|..].
  - exact (preserves_ok _ _ _ _ _ (chain_op_kept o op Hop) (IH Hk) Hr).
  - rewrite Hs. auto.
Qed.

(** C32: invalidating a token is final. Whatever the chain does after a token has
    become invalid, by a message or by expiring, the token is stored as invalid,
    and using it again is refused without a trace. *)
Theorem invalid_token_stays_invalid s s' ctx token did account issuedAt expiresAt :
  core_reachable s -> invalid_at (HashJWSToken token) (cs s) -> core_steps s s' ->
  invalid_at (HashJWSToken token) (cs s') /\
  StoreOrUpdateJWSToken ctx token did account issuedAt expiresAt s' = (Err ErrJWSTokenInvalid, s').
Proof.
  intros Hs Hinv Hsteps. apply core_reachable_ok in Hs.
  destruct (core_steps_kept (Some (HashJWSToken token)) s s' Hsteps (conj Hs Hinv)) as [_ Hinv'].
  split; [done|]. destruct Hinv' as (r & Hl & Hst). unfold StoreOrUpdateJWSToken. cbv zeta.
  unfold GetJWSToken. rewrite core_get_run, Hl. cbv beta iota. rewrite Hst. done.
Qed.

(** ** Expiry *)

Definition expired_token (now : Time) r : bool :=
  negb (bool_decide (Status r = STATUS_INVALID)) &&
  negb (bool_decide (TokenExpiresAt r = time_zero)) && negb (time_after (TokenExpiresAt r) now).

Definition sweep (now : Time) r : JWSTokenRecord :=
  if expired_token now r then with_status STATUS_INVALID now [] r else r.

Definition sweep_step ctx (_ : unit) r : M S (bool * unit) :=
  if decide (Status r = STATUS_INVALID) then ret (false, tt)
  else if decide (TokenExpiresAt r = time_zero) then ret (false, tt)
  else
    when (negb (time_after (TokenExpiresAt r) (block_time ctx)))
      (attempt (UpdateJWSTokenStatus ctx (TokenHash r) STATUS_INVALID []) ;;; ret tt) ;;;
    ret (false, tt).

Lemma with_status_ok b now r : token_ok b r -> time_in_range now ->
  token_ok b (with_status STATUS_INVALID now [] r).
Proof.
  intros (Hh & Hd & Hm & Ha) Hnow. split_and!; [done|done| |done].
  unfold record_marshals in *. rewrite bool_decide_eq_true in Hm |- *. simpl. tauto.
Qed.

Lemma sweep_step_run ctx r s : tokens_inv (cs s) -> time_in_range (block_time ctx) ->
  tokens (cs s) !! TokenHash r = Some r ->
  exists s', sweep_step ctx tt r s = (Ok (false, tt), s') /\ tokens_inv (cs s') /\
    cs s' = set_tokens (<[TokenHash r := sweep (block_time ctx) r]> (tokens (cs s))) (cs s).
Proof.
  intros Hi Hnow Ht. unfold sweep_step, sweep, expired_token.
  assert (Hsame : cs s = set_tokens (<[TokenHash r := r]> (tokens (cs s))) (cs s)).
  { rewrite insert_id by done. by destruct (cs s). }
  destruct (decide (Status r = STATUS_INVALID)) as [Hst|Hst]; [rewrite bool_decide_true by done; eauto|].
  rewrite bool_decide_false by done.
  destruct (decide (TokenExpiresAt r = time_zero)) as [Hz|Hz]; [rewrite bool_decide_true by done; eauto|].
  rewrite bool_decide_false by done.
  destruct (time_after (TokenExpiresAt r) (block_time ctx)); simpl; [eauto|].
  set (r' := with_status STATUS_INVALID (block_time ctx) [] r).
  destruct (inv_record _ Hi _ _ Ht) as [_ Hok].
  destruct (SetJWSToken_run r' s) as (s' & Hr & Hc); [by apply with_status_ok|].
  assert (Hrun : UpdateJWSTokenStatus ctx (TokenHash r) STATUS_INVALID [] s = (Ok tt, s')).
  { unfold UpdateJWSTokenStatus. apply token_ok_fits in Hok as [Hf _].
    rewrite bool_decide_false by (by apply fits_nonempty). erewrite bind_run_ok by done.
    unfold GetJWSToken. by rewrite core_get_run, Ht. }
  exists s'. split_and!.
  - erewrite bind_run_ok; [done|]. by erewrite attempt_run_ok.
  - rewrite Hc. apply put_token_inv; [done|by apply with_status_ok|].
    intros r0 Hr0. simpl in Hr0. by simplify_eq.
  - rewrite Hc. by apply put_token_same.
Qed.

Lemma sweep_loop ctx l : time_in_range (block_time ctx) -> forall i s, tokens_inv (cs s) ->
  (forall r, r ∈ l -> tokens (cs s) !! TokenHash r = Some r) -> NoDup (TokenHash <$> l) ->
  exists s', iterM (fun _ => sweep_step ctx) i tt l s = (Ok tt, s') /\
    cs s' = set_tokens (insert_all (tokens (cs s))
      ((fun r => (TokenHash r, sweep (block_time ctx) r)) <$> l)) (cs s).
Proof.
  intros Hnow. induction l as [|r l IH]; intros i s Hi Hl Hnd; simpl.
  { exists s. split; [done|]. by destruct (cs s). }
  destruct (sweep_step_run ctx r s Hi Hnow (Hl r ltac:(left))) as (s1 & Hr & Hi1 & Hc).
  erewrite bind_run_ok by exact Hr. rewrite fmap_cons in Hnd. apply NoDup_cons in Hnd as [Hni Hnd].
  destruct (IH (wrap64 (i + 1)) s1 Hi1) as (s' & Hr' & Hc'); [|done|].
  - intros r' Hin. rewrite Hc. simpl. rewrite lookup_insert_ne; [apply Hl; by right|].
    intros Heq. apply Hni. rewrite Heq. by apply list_elem_of_fmap_2.
  - exists s'. split; [exact Hr'|]. by rewrite Hc', Hc.
Qed.

Lemma insert_all_fmap {V} (f : V -> V) (m : gmap bytes V) :
  insert_all m ((fun kv => (kv.1, f kv.2)) <$> store_items m) = f <$> m.
Proof.
  rewrite insert_all_union, <- fmap_reverse.
  rewrite (list_to_map_fmap f (reverse (store_items m))).
  rewrite (list_to_map_proper _ (map_to_list m)), list_to_map_to_list.
  - apply map_eq. intros k. rewrite lookup_union, lookup_fmap. by destruct (m !! k).
  - rewrite fmap_reverse, reverse_Permutation. apply store_items_NoDup.
  - by rewrite reverse_Permutation, store_items_perm.
Qed.

(** The end of a block invalidates exactly the tokens that have expired: a
    token that is not yet invalid and whose expiration time is set and not after
    the block time becomes invalid, marked with that time; every other token, the
    indexes, and everything else in the module stay as they are. *)
Theorem EndBlocker_sweeps s ctx : core_reachable s -> time_in_range (block_time ctx) ->
  exists s', EndBlocker ctx s = (Ok tt, s') /\
    cs s' = set_tokens (sweep (block_time ctx) <$> tokens (cs s)) (cs s).
Proof.
  intros Hs Hnow. apply core_reachable_ok in Hs as [Hi _ _].
  destruct (sweep_loop ctx (store_items (tokens (cs s))).*2 Hnow 0 s Hi) as (s' & Hr & Hc).
  - intros r ([k r'] & -> & Hin)%list_elem_of_fmap. apply elem_of_store_items in Hin.
    simpl. by rewrite (proj1 (inv_record _ Hi _ _ Hin)).
  - rewrite <- list_fmap_compose. rewrite (list_fmap_ext _ fst); [apply store_items_NoDup|].
    intros i [k r] Hin%list_elem_of_lookup_2%elem_of_store_items. by apply (inv_record _ Hi).
  - exists s'. split.
    + unfold EndBlocker, CheckAndUpdateExpiredTokens, IterateJWSTokens.
      erewrite attempt_run_ok; [done|]. rewrite core_get_run. exact Hr.
    + rewrite Hc. f_equal. rewrite <- insert_all_fmap, <- list_fmap_compose. f_equal.
      apply list_fmap_ext. intros i [k r] Hin%list_elem_of_lookup_2%elem_of_store_items. simpl.
      f_equal. by apply (inv_record _ Hi).
Qed.

(** ** Genesis *)

Lemma collect_icas (l : list (bytes * ICAConnection)) s : forall acc,
  foldM (fun b kc => ret (b ++ [kc.2])) acc l s = (Ok (acc ++ l.*2), s).
Proof.
  intros acc. rewrite (foldM_pure _ (fun b kc => b ++ [kc.2])); [|done].
  by rewrite (foldl_collect snd).
Qed.

Lemma core_export_run s :
  ExportGenesis s = (Ok (mkCoreGenesis (default (mkCoreParams []) (core_params (cs s)))
    (store_items (ica_connections (cs s))).*2 (store_items (tokens (cs s))).*2 (config_of (cs s))), s).
Proof.
  unfold ExportGenesis. erewrite bind_run_ok by done.
  erewrite bind_run_ok by (unfold GetAllICAConnections, mustIterateICAConnections;
    rewrite core_get_run; apply collect_icas).
  erewrite bind_run_ok by (unfold GetAllJWSTokens, IterateJWSTokens; rewrite core_get_run;
    apply (iterM_collect 0 [])).
  done.
Qed.

(** The indexes are determined by the records. *)
Lemma tokens_inv_unique c c' : tokens_inv c -> tokens_inv c' -> tokens c = tokens c' ->
  tokens_by_did c = tokens_by_did c' /\ tokens_by_account c = tokens_by_account c'.
Proof.
  assert (Huniq : forall m m' : gmap bytes unit, (forall k, is_Some (m !! k) <-> is_Some (m' !! k)) -> m = m').
  { intros m m' Hm. apply map_eq. intros k. specialize (Hm k). unfold is_Some in Hm.
    destruct (m !! k) as [[]|], (m' !! k) as [[]|]; naive_solver. }
  intros [_ Hd Ha] [_ Hd' Ha'] Ht. split; apply Huniq; intros k.
  - by rewrite Hd, Hd', Ht.
  - by rewrite Ha, Ha', Ht.
Qed.

(** Importing what was exported rebuilds the module exactly, parameters,
    connections, tokens, both indexes and the chain configuration, when every
    token names an account. When a token does not, as the tokens of a trusted relay
    do, the import panics: the tokens are loaded before the configuration that
    would allow them. *)
Theorem core_genesis_roundtrip s s0 : core_reachable s -> cs s0 = empty_core ->
  exists g, ExportGenesis s = (Ok g, s) /\
    ((forall h r, tokens (cs s) !! h = Some r -> AuthorizedAccount r <> []) ->
     exists s1, InitGenesis g s0 = (Ok tt, s1) /\
       cs s1 = mkCoreStore (Some (default (mkCoreParams []) (core_params (cs s))))
         (ica_connections (cs s)) (tokens (cs s)) (tokens_by_did (cs s)) (tokens_by_account (cs s))
         (Some (config_of (cs s)))) /\
    ((exists h r, tokens (cs s) !! h = Some r /\ AuthorizedAccount r = []) ->
     exists s1, InitGenesis g s0 = (Panic, s1)).
Proof.
  intros Hs Hs0. apply core_reachable_ok in Hs as [Hi Hp Hica]. eexists. split; [apply core_export_run|].
  match goal with |- context [InitGenesis ?g s0] => set (g' := g) end.
  assert (Hkeys : forall k r, tokens (cs s) !! k = Some r -> TokenHash r = k)
    by (intros k r Hl; by apply (inv_record _ Hi)).
  assert (Hel : forall r, r ∈ gen_JwsTokens g' <-> exists h, tokens (cs s) !! h = Some r).
  { intros r. simpl. rewrite list_elem_of_fmap. split.
    - intros ([k r'] & -> & Hin). exists k. by apply elem_of_store_items.
    - intros [h Hl]. exists (h, r). split; [done|]. by apply elem_of_store_items. }
  destruct (InitGenesis_run g' s0 Hs0) as [[Hv (s1 & Hr & Hc)]|[Hn [s1 Hr]]]; (split; [intros Hacc|intros Hno]).
  - exists s1. split; [done|]. rewrite Hc.
    destruct (put_tokens_fields (gen_JwsTokens g') (genesis_base g')) as (Fp & Fi & _ & Ft).
    assert (Htok : tokens (put_tokens (genesis_base g') (gen_JwsTokens g')) = tokens (cs s)).
    { rewrite Ft. by apply rebuild_store. }
    assert (Hinv : core_ok s1).
    { eapply InitGenesis_inv; [exact Hs0| |exact Hr]. simpl. rewrite <- list_fmap_compose.
      rewrite (list_fmap_ext _ fst); [apply store_items_NoDup|].
      intros i [k r] Hin%list_elem_of_lookup_2%elem_of_store_items. simpl. by apply Hkeys. }
    destruct Hinv as [Hi1 _ _]. rewrite Hc in Hi1.
    destruct (tokens_inv_unique _ _ Hi1 Hi Htok) as [Hd Ha].
    cbn [tokens_by_did tokens_by_account set_chain_config] in Hd, Ha.
    unfold set_chain_config. rewrite Fp, Fi, Htok, Hd, Ha. simpl. f_equal.
    apply rebuild_store. intros k x Hl. by apply Hica.
  - exfalso. destruct Hno as (h & r & Hl & He). destruct Hv as (_ & _ & Hall).
    rewrite Forall_forall in Hall. destruct (Hall r ltac:(apply Hel; eauto)) as (_ & _ & _ & Hx).
    by rewrite decide_True in Hx.
  - exfalso. apply Hn. split_and!.
    + simpl. destruct (core_params (cs s)) as [p|] eqn:E; [by apply Hp|done].
    + simpl. apply Forall_forall. intros x ([k x'] & -> & Hin%elem_of_store_items)%list_elem_of_fmap.
      simpl. destruct (Hica k x' Hin) as [-> Hne]. done.
    + apply Forall_forall. intros r [h Hl]%Hel. specialize (Hacc h r Hl).
      destruct (inv_record _ Hi _ _ Hl) as [_ (? & ? & ? & Hok)]. split_and!; [done..|].
      rewrite decide_False in Hok |- * by done. done.
  - eauto.
Qed.
End safety.

(** * Witnesses *)

#[local] Instance core_lens : Lens CoreStore CoreStore := {| lens_get s := s; lens_set t _ := t |}.
#[local] Instance core_lens_laws : LensLaws CoreStore CoreStore.
Proof. by split. Qed.
#[local] Instance no_ibc : IBCKeepers CoreStore :=
  {| GetInterchainAccountAddress _ _ _ := None; GetConnection _ _ := None; GetClientState _ _ := None |}.

Definition core_demo_ctx : Ctx := mkCtx 1000 1 [].

(** Two tokens of one DID, one of them invalidated by its account. *)
Definition core_demo_ops : list core_op :=
  [OpStoreOrUpdate core_demo_ctx (lit "token1") (lit "did:key:alice") (lit "bob") 0 5000;
   OpStoreOrUpdate core_demo_ctx (lit "token2") (lit "did:key:alice") (lit "carol") 0 9000;
   OpInvalidate core_demo_ctx (mkMsgInvalidateJWS (lit "bob") (HashJWSToken (lit "token1")))].

Fixpoint run_core_ops (ops : list core_op) : M CoreStore unit :=
  match ops with [] => ret tt | op :: rest => run_core_op op ;;; run_core_ops rest end.

Lemma core_reachable_ops ops : forall s, core_reachable s ->
  is_ok (run_core_ops ops s).1 = true -> core_reachable (run_core_ops ops s).2.
Proof.
  induction ops as [|op ops IH]; intros s Hs; simpl; [done|]. unfold bind.
  destruct (run_core_op op s) as [[[]|e|] s1] eqn:E; [|done|done].
  apply IH. by eapply core_reachable_step.
Qed.

Definition core_demo : CoreStore := (run_core_ops core_demo_ops empty_core).2.

Lemma core_demo_reachable : core_reachable core_demo.
Proof.
  apply core_reachable_ops; [by apply core_reachable_empty|]. vm_compute. reflexivity.
Qed.

Lemma token_queries_exact_witness :
  exists l, GetJWSTokensByDID (lit "did:key:alice") core_demo = (Ok l, core_demo) /\ length l = 2%nat.
Proof.
  destruct (token_queries_exact core_demo (lit "did:key:alice") core_demo_reachable
    ltac:(apply (bool_decide_unpack _); vm_compute; exact I)) as [(l & Hl & _) _].
  exists l. split; [exact Hl|].
  assert (Hlen : match (GetJWSTokensByDID (lit "did:key:alice") core_demo).1 with
    | Ok l => length l = 2%nat | _ => False end) by (vm_compute; reflexivity).
  rewrite Hl in Hlen. exact Hlen.
Defined.

Lemma invalid_token_stays_invalid_witness :
  StoreOrUpdateJWSToken core_demo_ctx (lit "token1") (lit "did:key:alice") (lit "bob") 0 5000 core_demo
    = (Err ErrJWSTokenInvalid, core_demo).
Proof.
  assert (Hst : from_option (fun r => bool_decide (Status r = STATUS_INVALID)) false
    (tokens core_demo !! HashJWSToken (lit "token1")) = true) by (vm_compute; reflexivity).
  apply (invalid_token_stays_invalid core_demo core_demo core_demo_ctx (lit "token1")
    (lit "did:key:alice") (lit "bob") 0 5000 core_demo_reachable); [|apply core_steps_refl].
  unfold invalid_at, cs. simpl lens_get. destruct (tokens core_demo !! _) as [r|]; [|discriminate].
  exists r. split; [reflexivity|]. exact (bool_decide_eq_true_1 _ Hst).
Defined.

Lemma EndBlocker_sweeps_witness :
  exists s', EndBlocker (mkCtx 9000 2 []) core_demo = (Ok tt, s') /\
    cs s' = set_tokens (sweep 9000 <$> tokens core_demo) core_demo.
Proof.
  exact (EndBlocker_sweeps core_demo (mkCtx 9000 2 []) core_demo_reachable
    ltac:(apply (bool_decide_unpack _); vm_compute; exact I)).
Defined.

Lemma core_genesis_roundtrip_witness :
  exists g s1, ExportGenesis core_demo = (Ok g, core_demo) /\ InitGenesis g empty_core = (Ok tt, s1) /\
    tokens s1 = tokens core_demo.
Proof.
  destruct (core_genesis_roundtrip core_demo empty_core core_demo_reachable eq_refl) as (g & Hg & Hok & _).
  destruct Hok as (s1 & Hr & Hc).
  - assert (Hall : bool_decide (map_Forall (fun _ r => AuthorizedAccount r <> []) (tokens core_demo)) = true)
      by (vm_compute; reflexivity).
    exact (bool_decide_eq_true_1 _ Hall).
  - exists g, s1. split; [exact Hg|]. split; [exact Hr|].
    change (tokens (cs s1) = tokens core_demo). rewrite Hc. reflexivity.
Defined.

(** * The middleware of the interchain accounts host *)

(** src/app/ica_host_middleware.go stands between IBC and the host module, and registers
    the controller of an interchain account when the channel of the account opens. *)

(** ** Callbacks *)

(** A channel that is being opened: its hops and ports, and what the host module
    reads besides. *)
Record ChanOpen : Type := mkChanOpen {
  co_ConnectionHops : list bytes;
  co_PortID : bytes;
  co_ChannelID : bytes;
  co_CounterpartyPortId : bytes;
  co_Version : bytes;
  co_IsCheckTx : bool;
}.

Record PacketCall : Type := mkPacketCall { pk_PortID : bytes; pk_Packet : bytes; pk_Ack : bytes; pk_Relayer : bytes }.

(** [porttypes.IBCModule] *)
Record IBCModule (S : Type) : Type := mkIBCModule {
  OnRecvPacket : PacketCall -> M S bytes;
  OnAcknowledgementPacket : PacketCall -> M S unit;
  OnTimeoutPacket : PacketCall -> M S unit;
  OnChanOpenInit : ChanOpen -> M S bytes;
  OnChanOpenTry : ChanOpen -> M S bytes;
  OnChanOpenAck : bytes -> bytes -> bytes -> bytes -> M S unit;
  OnChanOpenConfirm : bytes -> bytes -> M S unit;
  OnChanCloseInit : bytes -> bytes -> M S unit;
  OnChanCloseConfirm : bytes -> bytes -> M S unit;
}.
Arguments mkIBCModule {S}.
Arguments OnRecvPacket {S}. Arguments OnAcknowledgementPacket {S}. Arguments OnTimeoutPacket {S}.
Arguments OnChanOpenInit {S}. Arguments OnChanOpenTry {S}. Arguments OnChanOpenAck {S}.
Arguments OnChanOpenConfirm {S}. Arguments OnChanCloseInit {S}. Arguments OnChanCloseConfirm {S}.

Definition HostPortID : bytes := lit "icahost".

Section middleware.
Context {S : Type} `{!Lens S CoreStore, IBCKeepers S}.

(** Only a channel of the host that opens in a block registers a controller; when this
    fails, the channel opens all the same. *)
Definition ica_OnChanOpenTry (next : IBCModule S) (ch : ChanOpen) : M S bytes :=
  version <- OnChanOpenTry next ch ;;
  match co_ConnectionHops ch with
  | connectionID :: _ =>
      if bool_decide (co_PortID ch = HostPortID) && negb (co_IsCheckTx ch)
      then _ <- attempt (HandleICAChannelOpen connectionID (co_CounterpartyPortId ch)) ;; ret version
      else ret version
  | [] => ret version
  end.

Definition newICAHostMiddleware (next : IBCModule S) : IBCModule S :=
  mkIBCModule (OnRecvPacket next) (OnAcknowledgementPacket next) (OnTimeoutPacket next) (OnChanOpenInit next)
    (ica_OnChanOpenTry next) (OnChanOpenAck next) (OnChanOpenConfirm next) (OnChanCloseInit next) (OnChanCloseConfirm next).
End middleware.

(** ** Controllers are registered once *)

(** The host module keeps out of the store of the core module. *)
Class HostFrame (S : Type) `{!Lens S CoreStore} (next : IBCModule S) : Prop := {
  try_frame : forall ch (s : S), (lens_get (OnChanOpenTry next ch s).2 : CoreStore) = lens_get s;
  init_frame : forall ch (s : S), (lens_get (OnChanOpenInit next ch s).2 : CoreStore) = lens_get s;
  recv_frame : forall pk (s : S), (lens_get (OnRecvPacket next pk s).2 : CoreStore) = lens_get s;
  ack_frame : forall pk (s : S), (lens_get (OnAcknowledgementPacket next pk s).2 : CoreStore) = lens_get s;
  timeout_frame : forall pk (s : S), (lens_get (OnTimeoutPacket next pk s).2 : CoreStore) = lens_get s;
  open_ack_frame : forall a b c d (s : S), (lens_get (OnChanOpenAck next a b c d s).2 : CoreStore) = lens_get s;
  confirm_frame : forall a b (s : S), (lens_get (OnChanOpenConfirm next a b s).2 : CoreStore) = lens_get s;
  close_init_frame : forall a b (s : S), (lens_get (OnChanCloseInit next a b s).2 : CoreStore) = lens_get s;
  close_confirm_frame : forall a b (s : S), (lens_get (OnChanCloseConfirm next a b s).2 : CoreStore) = lens_get s;
}.

Section controllers.
Context {S : Type} `{!Lens S CoreStore, !LensLaws S CoreStore, IBCKeepers S}.
Context (next : IBCModule S) `{!HostFrame S next}.
Implicit Types (s : S) (ch : ChanOpen) (c : ICAConnection).
Abbreviation icas s := (ica_connections (lens_get s : CoreStore)).

(** The connection that the core module is to register for a channel. *)
Definition registered (connectionID controllerPortID : bytes) s (icaAddr : bytes) c : Prop :=
  GetInterchainAccountAddress connectionID controllerPortID s = Some icaAddr /\ icaAddr <> [] /\
  HasPrefix controllerPortID ControllerPortPrefix = true /\
  exists clientId chainId, GetConnection connectionID s = Some clientId /\
    GetClientState clientId s = Some (TendermintClient chainId) /\ chainId <> [] /\
    c = mkICAConnection icaAddr (TrimPrefix controllerPortID ControllerPortPrefix) chainId connectionID.

Lemma HandleICAChannelOpen_registers conn port s icaAddr c :
  registered conn port s icaAddr c -> icas s !! icaAddr = None ->
  HandleICAChannelOpen conn port s = (Ok tt, lens_set (set_ica_connections (<[icaAddr := c]> (icas s)) (lens_get s)) s).
Proof.
  intros (Ha & Hne & Hp & clientId & chainId & Hc & Hcl & Hch & ->) Hnone.
  unfold HandleICAChannelOpen, GetICAConnection, core_get. rewrite bind_run. cbn [gets]. rewrite Ha. cbn [of_option].
  erewrite bind_run_ok by done. rewrite bind_run. cbn [gets]. rewrite Hnone.
  rewrite bool_decide_eq_false_2 by (by intros [? [=]]). erewrite bind_run_ok by done. rewrite Hp. erewrite bind_run_ok by done.
  rewrite bind_run. cbn [gets]. rewrite Hc. erewrite bind_run_ok by done. rewrite bind_run. cbn [gets]. rewrite Hcl.
  cbn [of_option]. erewrite bind_run_ok by done. cbv beta iota. rewrite bool_decide_eq_false_2 by done. erewrite bind_run_ok by done.
  unfold SetICAConnection. rewrite bool_decide_eq_false_2 by done. by erewrite bind_run_ok by done.
Qed.

(** It registers a connection, or fails and leaves the state alone. *)
Lemma HandleICAChannelOpen_cases conn port s :
  (exists icaAddr c, registered conn port s icaAddr c /\ icas s !! icaAddr = None) \/
  exists e, HandleICAChannelOpen conn port s = (Err e, s).
Proof.
  unfold registered, HandleICAChannelOpen, GetICAConnection, SetICAConnection, core_get, core_mod, gets, of_option, throw_if, throw, ret, modify, bind.
  destruct (GetInterchainAccountAddress conn port s) as [icaAddr|]; [|right; by eexists].
  destruct (bool_decide (is_Some (icas s !! icaAddr))) eqn:Ee; [right; by eexists|]. apply bool_decide_eq_false in Ee.
  destruct (HasPrefix port _) eqn:Ep; [|right; by eexists]. cbn [negb].
  destruct (GetConnection conn s) as [cl|] eqn:Ec; [|right; by eexists].
  destruct (GetClientState cl s) as [[chain|]|] eqn:Ecl; [|right; by eexists..].
  destruct (bool_decide_reflect (chain = [])) as [|Hch]; [right; by eexists|].
  destruct (bool_decide_reflect (icaAddr = [])) as [|Hne]; [right; by eexists|].
  left. exists icaAddr. eexists. split; [split_and!; try done; by exists cl, chain|]. by apply eq_None_not_Some.
Qed.

(** Whatever happens, an entry that exists stays as it is. *)
Lemma HandleICAChannelOpen_keeps conn port s a c : icas s !! a = Some c -> icas (HandleICAChannelOpen conn port s).2 !! a = Some c.
Proof.
  intros Hc. unfold HandleICAChannelOpen, GetICAConnection, SetICAConnection, core_get, core_mod, gets, of_option, throw_if, throw, ret, modify, bind.
  destruct (GetInterchainAccountAddress conn port s) as [icaAddr|]; [|done].
  destruct (bool_decide (is_Some (icas s !! icaAddr))) eqn:Ee; [done|]. apply bool_decide_eq_false in Ee.
  destruct (negb (HasPrefix port _)); [done|]. destruct (GetConnection conn s) as [cl|]; [|done].
  destruct (GetClientState cl s) as [[chain|]|]; [|done..]. destruct (bool_decide (chain = [])); [done|].
  destruct (bool_decide (icaAddr = [])); [done|]. cbn [snd]. rewrite lens_get_set. cbn [ica_connections set_ica_connections].
  rewrite lookup_insert_ne; [done|]. intros ->. apply Ee. by eexists.
Qed.

Lemma ica_OnChanOpenTry_keeps ch s a c : icas s !! a = Some c -> icas (ica_OnChanOpenTry next ch s).2 !! a = Some c.
Proof.
  intros Hc. unfold ica_OnChanOpenTry. rewrite bind_run. pose proof (try_frame ch s) as Hf.
  destruct (OnChanOpenTry next ch s) as [[v|e|] s1]; cbn [snd] in *; rewrite <- Hf in Hc; [|done..].
  destruct (co_ConnectionHops ch) as [|conn hops]; [done|]. destruct (_ && _); [|done].
  apply (HandleICAChannelOpen_keeps conn (co_CounterpartyPortId ch)) in Hc. rewrite bind_run. unfold attempt.
  by destruct (HandleICAChannelOpen conn (co_CounterpartyPortId ch) s1) as [[[]|e|] s2].
Qed.

(** Any calls of the stack, in any order. *)
Inductive stack_call : S -> S -> Prop :=
  | sc_try ch s : stack_call s (OnChanOpenTry (newICAHostMiddleware next) ch s).2
  | sc_init ch s : stack_call s (OnChanOpenInit (newICAHostMiddleware next) ch s).2
  | sc_recv pk s : stack_call s (OnRecvPacket (newICAHostMiddleware next) pk s).2
  | sc_ack pk s : stack_call s (OnAcknowledgementPacket (newICAHostMiddleware next) pk s).2
  | sc_timeout pk s : stack_call s (OnTimeoutPacket (newICAHostMiddleware next) pk s).2
  | sc_open_ack w x y z s : stack_call s (OnChanOpenAck (newICAHostMiddleware next) w x y z s).2
  | sc_confirm x y s : stack_call s (OnChanOpenConfirm (newICAHostMiddleware next) x y s).2
  | sc_close_init x y s : stack_call s (OnChanCloseInit (newICAHostMiddleware next) x y s).2
  | sc_close_confirm x y s : stack_call s (OnChanCloseConfirm (newICAHostMiddleware next) x y s).2.

Lemma stack_calls_keep s s2 a c : rtc stack_call s s2 -> icas s !! a = Some c -> icas s2 !! a = Some c.
Proof.
  induction 1 as [|x y z Hxy _ IH]; [done|]. intros Hc. apply IH. clear IH.
  destruct Hxy; cbn [newICAHostMiddleware OnChanOpenTry OnChanOpenInit OnRecvPacket OnAcknowledgementPacket OnTimeoutPacket
    OnChanOpenAck OnChanOpenConfirm OnChanCloseInit OnChanCloseConfirm];
    first [by apply ica_OnChanOpenTry_keeps|rewrite ?init_frame, ?recv_frame, ?ack_frame, ?timeout_frame, ?open_ack_frame,
      ?confirm_frame, ?close_init_frame, ?close_confirm_frame; exact Hc].
Qed.

(** The channel is one of the host, it opens in a block, the host module accepts it, and the
    core module finds everything it registers for the account, which is not
    bound yet. *)
Definition binds ch s (icaAddr : bytes) c : Prop :=
  exists conn hops version s1, co_ConnectionHops ch = conn :: hops /\ co_PortID ch = HostPortID /\
    co_IsCheckTx ch = false /\ OnChanOpenTry next ch s = (Ok version, s1) /\
    registered conn (co_CounterpartyPortId ch) s1 icaAddr c /\ icas s !! icaAddr = None.

Lemma channel_opening ch s :
  let s1 := (OnChanOpenTry (newICAHostMiddleware next) ch s).2 in
  (OnChanOpenTry (newICAHostMiddleware next) ch s).1 = (OnChanOpenTry next ch s).1 /\
  (forall icaAddr c, binds ch s icaAddr c -> icas s1 = <[icaAddr := c]> (icas s)) /\
  ((forall icaAddr c, ~ binds ch s icaAddr c) -> icas s1 = icas s).
Proof.
  cbv zeta.
  cbn [newICAHostMiddleware OnChanOpenTry]. pose proof (try_frame ch s) as Hf. unfold ica_OnChanOpenTry. rewrite bind_run.
  destruct (OnChanOpenTry next ch s) as [[version|e|] s1] eqn:Hn; cbn [fst snd] in *.
  2,3: split_and!; [done|intros a c (? & ? & ? & ? & _ & _ & _ & ? & _); congruence|by rewrite Hf].
  destruct (co_ConnectionHops ch) as [|conn hops] eqn:Hh.
  { split_and!; [done|intros a c (? & ? & ? & ? & ? & _); congruence|intros _; cbn; by rewrite Hf]. }
  destruct (bool_decide_reflect (co_PortID ch = HostPortID)) as [Hp|Hp]; cbn [andb].
  2: split_and!; [done|intros a c (? & ? & ? & ? & _ & ? & _); done|intros _; cbn; by rewrite Hf].
  destruct (co_IsCheckTx ch) eqn:Hck; cbn [negb].
  { split_and!; [done|intros a c (? & ? & ? & ? & _ & _ & ? & _); congruence|intros _; cbn; by rewrite Hf]. }
  rewrite bind_run. unfold attempt. destruct (HandleICAChannelOpen_cases conn (co_CounterpartyPortId ch) s1) as [(a & c & Hreg & Hnone)|[e He]].
  - rewrite (HandleICAChannelOpen_registers _ _ _ _ _ Hreg Hnone). cbn [fst snd ret]. rewrite lens_get_set. cbn [ica_connections set_ica_connections].
    rewrite Hf in Hnone |- *. split_and!; [done| |].
    + intros a' c' (conn' & hops' & v' & s1' & Hh' & _ & _ & Hn' & Hreg' & _). rewrite Hh in Hh'. rewrite Hn in Hn'. simplify_eq.
      destruct Hreg as (? & _ & _ & cl & chain & ? & ? & _ & ->), Hreg' as (? & _ & _ & cl' & chain' & ? & ? & _ & ->). congruence.
    + intros Hno. destruct (Hno a c). by exists conn, hops, version, s1.
  - rewrite He. cbn [fst snd ret]. split_and!; [done| |by rewrite Hf].
    intros a c (conn' & hops' & v' & s1' & Hh' & _ & _ & Hn' & Hreg' & Hnone'). rewrite Hh in Hh'. rewrite Hn in Hn'. simplify_eq.
    rewrite <- Hf in Hnone'. by rewrite (HandleICAChannelOpen_registers _ _ _ _ _ Hreg' Hnone') in He.
Qed.
(** C36: the opening of a channel through the middleware of the host. The channel opens exactly
    as the host module opens it, whether or not a controller can be registered.
    The account of the channel is bound to the controller that the port of the other
    side names if the channel is one of the host and opens in a block, the core module
    finds the account's address, the connection, its Tendermint client and the prefix of
    controller ports, and the account is not bound yet; in every other case no
    binding changes. Once bound, an account stays bound to the same controller, whatever
    calls of the stack follow. *)
Theorem ica_controller_bound ch s :
  let s1 := (OnChanOpenTry (newICAHostMiddleware next) ch s).2 in
  (OnChanOpenTry (newICAHostMiddleware next) ch s).1 = (OnChanOpenTry next ch s).1 /\
  (forall icaAddr c, binds ch s icaAddr c -> icas s1 = <[icaAddr := c]> (icas s)) /\
  ((forall icaAddr c, ~ binds ch s icaAddr c) -> icas s1 = icas s) /\
  (forall s2 icaAddr c, rtc stack_call s1 s2 -> icas s1 !! icaAddr = Some c -> icas s2 !! icaAddr = Some c).
Proof.
  destruct (channel_opening ch s) as (Hv & Hb & Hn). split_and!; [done..|]. intros s2 a c. apply stack_calls_keep.
Qed.
End controllers.

(** ** A concrete host *)

(** Every channel has an account; the other chain is chain-b. *)
#[local] Instance toy_core_lens : Lens CoreStore CoreStore := {| lens_get s := s; lens_set t _ := t |}.
#[local] Instance toy_core_lens_laws : LensLaws CoreStore CoreStore.
Proof. by split. Qed.
#[local] Instance toy_ibc : IBCKeepers CoreStore := {|
  GetInterchainAccountAddress conn port s := Some (lit "ica-" ++ conn ++ port);
  GetConnection conn s := Some (lit "client");
  GetClientState client s := Some (TendermintClient (lit "chain-b"));
|}.

Definition toy_host : IBCModule CoreStore :=
  mkIBCModule (fun _ => ret []) (fun _ => ret tt) (fun _ => ret tt) (fun _ => ret []) (fun ch => ret (co_Version ch))
    (fun _ _ _ _ => ret tt) (fun _ _ => ret tt) (fun _ _ => ret tt) (fun _ _ => ret tt).

#[local] Instance toy_host_frame : HostFrame CoreStore toy_host.
Proof. by split. Qed.

Definition demo_channel : ChanOpen :=
  mkChanOpen [lit "connection-0"] HostPortID (lit "channel-0") (lit "icacontroller-bob") (lit "v1") false.

Lemma ica_controller_bound_witness : exists s2,
  s2 = (OnChanOpenTry (newICAHostMiddleware toy_host) demo_channel empty_core).2 /\
  ControllerAddress <$> ica_connections s2 !! lit "ica-connection-0icacontroller-bob" = Some (lit "bob").
Proof.
  eexists. split; [reflexivity|].
  destruct (ica_controller_bound toy_host demo_channel empty_core) as (_ & Hb & _).
  specialize (Hb (lit "ica-connection-0icacontroller-bob")
    (mkICAConnection (lit "ica-connection-0icacontroller-bob") (lit "bob") (lit "chain-b") (lit "connection-0"))).
  cbn [lens_get toy_core_lens] in Hb. rewrite Hb; [vm_compute; reflexivity|].
  exists (lit "connection-0"), [], (lit "v1"), empty_core. split_and!; [reflexivity..| |vm_compute; reflexivity].
  split; [reflexivity|]. split; [discriminate|]. split; [vm_compute; reflexivity|].
  exists (lit "client"), (lit "chain-b"). split; [reflexivity|]. split; [reflexivity|]. split; [discriminate|]. vm_compute. reflexivity.
Defined.
