(* ===== verification/Bearer.v ===== *)
(** Bearer tokens of the ante handler (src/app/ante/extension_utils.go,
    src/app/ante/types/bearer_token.go).

    A bearer token is a signed JSON text (JWS). Its issuer is a DID that carries
    the key the signature is checked with. The libraries that parse a JWS, decode
    a key from a DID and check the signature are the class [Jose].

    The lemmas say what a token that parses is: the claims it yields are those of
    the payload that was verified, and white space in front does not matter. *)
From Stdlib Require Import Ascii ZArith Lia.
From stdpp Require Import base numbers list strings.
From S2P Require Import Prelude Sdk Utils Json FeegrantKeys CoreKeeper.

(** * The token *)

Record BearerToken : Type := mkBearerToken {
  IssuerID : bytes;
  bt_ProviderToken : bytes;
  bt_AuthorizedAccount : bytes;
  IssuedTime : Z;
  ExpirationTime : Z;
}.

Record ProviderToken : Type := mkProviderToken {
  ProviderName : bytes;
  UserID : bytes;
  ActorDID : bytes;
}.

Definition IssuedAtClaim : string := "iat".
Definition ExpiresClaim : string := "exp".
Definition IssuerClaim : string := "iss".

Definition RequiredClaims : list string := [IssuedAtClaim; IssuerClaim; ExpiresClaim].

(** [json.Unmarshal] into the two structs, by the names of their fields. *)
Definition bearer_fields : list string := ["iss"; "provider_token"; "authorized_account"; "iat"; "exp"].

Definition set_bearer_field (name : string) (v : json) (t : BearerToken) : option BearerToken :=
  let '(mkBearerToken iss prov acc iat exp) := t in
  if decide (name = "iss"%string) then set_string (fun x _ => mkBearerToken x prov acc iat exp) v t
  else if decide (name = "provider_token"%string) then set_string (fun x _ => mkBearerToken iss x acc iat exp) v t
  else if decide (name = "authorized_account"%string) then set_string (fun x _ => mkBearerToken iss prov x iat exp) v t
  else if decide (name = "iat"%string) then set_int64 (fun x _ => mkBearerToken iss prov acc x exp) v t
  else set_int64 (fun x _ => mkBearerToken iss prov acc iat x) v t.

Definition unmarshal_bearer : bytes -> option BearerToken :=
  unmarshal_struct bearer_fields set_bearer_field (mkBearerToken [] [] [] 0 0).

Definition provider_fields : list string := ["provider_name"; "user_id"; "actor_did"].

Definition set_provider_field (name : string) (v : json) (t : ProviderToken) : option ProviderToken :=
  let '(mkProviderToken prov user actor) := t in
  if decide (name = "provider_name"%string) then set_string (fun x _ => mkProviderToken x user actor) v t
  else if decide (name = "user_id"%string) then set_string (fun x _ => mkProviderToken prov x actor) v t
  else set_string (fun x _ => mkProviderToken prov user x) v t.

Definition unmarshal_provider : bytes -> option ProviderToken :=
  unmarshal_struct provider_fields set_provider_field (mkProviderToken [] [] []).

(** * Libraries *)

(** Keys of DIDs (ssi-sdk), the parser of go-jose and the signature check of jwx.
    Only a DID of the method key has a key to decode. Parser and check both read the compact serialisation of RFC 7515, so that they find the same
    payload in a text that is not a JSON object. *)
Class Jose : Type := {
  KeyType : Type;
  PubKey : Type;
  Algorithm : Type;
  GetMethodForDID : bytes -> option error;
  DIDKey_Decode : bytes -> (bytes * KeyType) + error;
  BytesToPubKey : bytes -> KeyType -> PubKey + error;
  secp_ToECDSA : PubKey -> option PubKey;
  ES256K : Algorithm;
  AlgorithmsForKey : PubKey -> list Algorithm + error;
  ParseSigned : bytes -> bytes + error;
  Verify : bytes -> Algorithm -> PubKey -> bytes + error;
  DIDKey_Decode_prefix : forall did k, DIDKey_Decode did = inl k -> HasPrefix did (lit "did:key:") = true;
  jws_payload_agrees : forall text p q alg key, HasPrefix text (lit "{") = false ->
    ParseSigned text = inl p -> Verify text alg key = inl q -> p = q;
}.

(** [time.Unix(sec, 0)]: the seconds are kept from the year 1, in 64 bits. *)
Definition time_Unix (sec : Z) : Time :=
  (wrap64 (sec + 62135596800) - 62135596800) * 1000000000.

(** [Time.Unix]: whole seconds, rounded down. *)
Definition unix_seconds (t : Time) : Z := t / 1000000000.

(** * Parsing and validation *)

Section bearer.
Context `{AddressCodec, Jose}.

(** [IsValidDID] of src/x/acp/did/types.go. *)
Definition IsValidDID (didStr : bytes) : option error := GetMethodForDID didStr.

Fixpoint required (claims : list string) (keys : list bytes) : outcome unit :=
  match claims with
  | [] => Ok tt
  | claim :: rest =>
      if decide (lit claim ∈ keys) then required rest keys else Err (ErrMsg "missing required claim")
  end.

Definition unmarshalJWSPayload (payload : bytes) : outcome BearerToken :=
  match unmarshal_keys payload with
  | None => Err (ErrMsg "json")
  | Some keys =>
      _ ← required RequiredClaims keys;
      match unmarshal_bearer payload with
      | Some token => Ok token
      | None => Err (ErrMsg "could not unmarshal payload")
      end
  end.

Definition validateProviderToken (token : ProviderToken) : outcome unit :=
  _ ← fail_if (bool_decide (ProviderName token = [])) "provider token missing provider_name";
  _ ← fail_if (bool_decide (UserID token = [])) "provider token missing user_id";
  fail_if (bool_decide (ActorDID token = [])) "provider token missing actor_did".

Definition validateBearerTokenValues (token : BearerToken) (trustedRelay : bool) : outcome unit :=
  _ ← (if HasPrefix (IssuerID token) (lit "did:") then check (IsValidDID (IssuerID token))
       else match unmarshal_provider (IssuerID token) with
            | Some _ => Ok tt
            | None => Err (ErrMsg "issuer is neither a valid DID nor a valid provider token")
            end);
  _ ← fail_if (negb (bool_decide (bt_ProviderToken token = [])) && negb trustedRelay)
        "provider token requires a trusted relay";
  _ ← (if trustedRelay then Ok tt else check (IsValidVeraAddr (bt_AuthorizedAccount token)));
  fail_if (ExpirationTime token <? IssuedTime token) "issue time cannot be after expiration time".

(** The key of the issuer, and the algorithm its signatures are checked with. *)
Definition issuer_key (issuer : bytes) : outcome (Algorithm * PubKey) :=
  decoded ← sum_outcome (DIDKey_Decode issuer);
  pubKey ← sum_outcome (BytesToPubKey decoded.1 decoded.2);
  match secp_ToECDSA pubKey with
  | Some ecdsa => Ok (ES256K, ecdsa)
  | None =>
      algs ← sum_outcome (AlgorithmsForKey pubKey);
      match algs with alg :: _ => Ok (alg, pubKey) | [] => Panic end
  end.

Definition jws_space : bytes := [byte_of_Z 32; byte_of_Z 10; byte_of_Z 9; byte_of_Z 13].

Definition parseValidateJWS (bearerJWS : bytes) (trustedRelay : bool) : outcome BearerToken :=
  let bearerJWS := TrimLeft bearerJWS jws_space in
  _ ← fail_if (HasPrefix bearerJWS (lit "{")) "JSON serialization is not supported for security reasons";
  payloadBytes ← sum_outcome (ParseSigned bearerJWS);
  bearer ← unmarshalJWSPayload payloadBytes;
  _ ← validateBearerTokenValues bearer trustedRelay;
  ak ← issuer_key (IssuerID bearer);
  _ ← sum_outcome (Verify bearerJWS ak.1 ak.2);
  Ok bearer.

Definition validateBearerToken (token : BearerToken) (currentTime : Time) (trustedRelay : bool) : outcome unit :=
  _ ← validateBearerTokenValues token trustedRelay;
  fail_if (ExpirationTime token <? unix_seconds currentTime) "token expired".

Definition validateJWSExtension (bearerToken : bytes) (currentTime : Time) (trustedRelay : bool)
    : outcome (bytes * bytes) :=
  token ← parseValidateJWS bearerToken trustedRelay;
  _ ← validateBearerToken token currentTime trustedRelay;
  actorDID ← (if decide (bt_ProviderToken token = []) then Ok (IssuerID token)
              else match unmarshal_provider (bt_ProviderToken token) with
                   | None => Err (ErrMsg "failed to unmarshal provider token")
                   | Some providerToken =>
                       _ ← validateProviderToken providerToken;
                       Ok (ActorDID providerToken)
                   end);
  Ok (actorDID, bt_AuthorizedAccount token).

(** * What a token that parses is *)

Definition verified (token : bytes) (b : BearerToken) : Prop :=
  exists alg key payload, issuer_key (IssuerID b) = Ok (alg, key) /\
    Verify (TrimLeft token jws_space) alg key = inl payload /\ unmarshalJWSPayload payload = Ok b.

Lemma parseValidateJWS_ok token relay b : parseValidateJWS token relay = Ok b ->
  verified token b /\ validateBearerTokenValues b relay = Ok tt.
Proof.
  unfold parseValidateJWS. intros [Hj Hp]%outcome_seq_ok.
  apply outcome_bind_ok in Hp as (p & Hp%sum_outcome_ok & Hb).
  apply outcome_bind_ok in Hb as (b' & Hb & Hv).
  apply outcome_seq_ok in Hv as [Hv Hk]. apply outcome_bind_ok in Hk as ([alg key] & Hk & Hr).
  apply outcome_bind_ok in Hr as (q & Hq%sum_outcome_ok & [= ->]). split; [|done].
  apply fail_if_ok in Hj. rewrite (jws_payload_agrees _ _ _ _ _ Hj Hp Hq) in Hb.
  by exists alg, key, q.
Qed.

Lemma verified_issuer token b : verified token b -> HasPrefix (IssuerID b) (lit "did:key:") = true.
Proof.
  intros (alg & key & _ & Hk & _). unfold issuer_key in Hk.
  apply outcome_bind_ok in Hk as (d & Hd%sum_outcome_ok & _). by eapply DIDKey_Decode_prefix.
Qed.

Lemma validateBearerTokenValues_ok b relay : validateBearerTokenValues b relay = Ok tt ->
  (relay = false -> bt_ProviderToken b = [] /\ IsValidVeraAddr (bt_AuthorizedAccount b) = None) /\
  IssuedTime b <= ExpirationTime b.
Proof.
  unfold validateBearerTokenValues.
  intros [_ [Hp%fail_if_ok [Ha He%fail_if_ok]%outcome_seq_ok]%outcome_seq_ok]%outcome_seq_ok.
  split; [|lia]. intros ->. apply andb_false_iff in Hp as [Hp|Hp]; [|done].
  split; [by apply negb_false_iff, bool_decide_eq_true in Hp|by apply check_ok].
Qed.

(** The DID that a token speaks for. *)
Definition actor_of (b : BearerToken) (did : bytes) : Prop :=
  (bt_ProviderToken b = [] /\ did = IssuerID b) \/
  (bt_ProviderToken b <> [] /\ exists p, unmarshal_provider (bt_ProviderToken b) = Some p /\ did = ActorDID p).

Lemma validateJWSExtension_ok token now relay did account :
  validateJWSExtension token now relay = Ok (did, account) ->
  exists b, parseValidateJWS token relay = Ok b /\ unix_seconds now <= ExpirationTime b /\
    account = bt_AuthorizedAccount b /\ actor_of b did.
Proof.
  unfold validateJWSExtension. intros (b & Hb & Hv)%outcome_bind_ok. exists b.
  apply outcome_seq_ok in Hv as [Hv Ha]. apply outcome_bind_ok in Ha as (d & Hd & [= -> ->]).
  unfold validateBearerToken in Hv. apply outcome_seq_ok in Hv as [_ He%fail_if_ok].
  split_and!; [done|lia|done|]. unfold actor_of. case_decide as Hp; [left; by simplify_eq|right].
  split; [done|]. destruct (unmarshal_provider _) as [p|]; [|done].
  apply outcome_seq_ok in Hd as [_ [= <-]]. eauto.
Qed.

(** White space in front of a token changes nothing but its text. *)
Lemma TrimLeft_app_space w s : Forall (fun c => c ∈ jws_space) w ->
  TrimLeft (w ++ s) jws_space = TrimLeft s jws_space.
Proof. induction 1 as [|c w Hc _ IH]; simpl; [done|]. by rewrite decide_True. Qed.

Lemma parseValidateJWS_space w token relay : Forall (fun c => c ∈ jws_space) w ->
  parseValidateJWS (w ++ token) relay = parseValidateJWS token relay.
Proof. intros Hw. unfold parseValidateJWS. by rewrite TrimLeft_app_space. Qed.

Lemma validateJWSExtension_space w token now relay : Forall (fun c => c ∈ jws_space) w ->
  validateJWSExtension (w ++ token) now relay = validateJWSExtension token now relay.
Proof. intros Hw. unfold validateJWSExtension. by rewrite parseValidateJWS_space. Qed.
End bearer.

(** ** A concrete scheme: a token is the name of a key, a dot and the payload. *)
Definition toy_payload (text : bytes) : bytes + error :=
  let i := Index text (lit ".") in
  if i <? 0 then inr (ErrMsg "no signature") else inl (drop (Z.to_nat i + 1) text).

#[export, refine] Instance jose_impl : Jose := {|
  KeyType := unit;
  PubKey := bytes;
  Algorithm := unit;
  GetMethodForDID did := if HasPrefix did (lit "did:") then None else Some (ErrMsg "not a did");
  DIDKey_Decode did :=
    if HasPrefix did (lit "did:key:") then inl (drop 8 did, tt) else inr (ErrMsg "not a did:key");
  BytesToPubKey bz _ := inl bz;
  secp_ToECDSA _ := None;
  ES256K := tt;
  AlgorithmsForKey _ := inl [tt];
  ParseSigned := toy_payload;
  Verify text _ key :=
    if HasPrefix text (key ++ lit ".") then toy_payload text else inr (ErrMsg "bad signature");
|}.
Proof.
  - intros did k. by destruct (HasPrefix did _).
  - intros text p q alg key _ Hp Hq. destruct (HasPrefix _ _); congruence.
Defined.
