(* ===== verification/Ante.v ===== *)
(** The ante handler (src/app/ante): what runs before the messages of a
    transaction.

    The decorators of this repository are modelled whole: rejection of legacy
    signatures, the bearer token extension, the fee checks and the deduction of
    fees through grants. Those of the SDK stand in the chain as parameters. The
    handler works on a state that holds the stores of the core and feegrant
    modules (lenses) and the accounts and balances (class [FeeKeepers]).

    A keeper that may be nil is a boolean that says whether it is there. *)
From Stdlib Require Import Ascii ZArith Lia.
From stdpp Require Import base numbers list gmap strings.
From S2P Require Import Prelude Sdk Utils Json FeeAllowance FeegrantKeys FeegrantKeeper CoreKeeper Bearer.

(** * Transactions *)

(** A message: its type URL, and its creator when it has one ([GetCreator]). *)
Record Msg : Type := mkMsg { msg_type : bytes; GetCreator : option bytes }.

(** What an [sdk.FeeTx] offers; the granter is nil or the bytes of an address. *)
Record FeeTx : Type := mkFeeTx {
  GetFee : Coins;
  GetGas : Z;
  FeePayer : bytes;
  FeeGranter : option bytes;
}.

Inductive ExtensionOption : Type :=
  | JWSExtensionOption (bearerToken : bytes)
  | OtherExtensionOption.

Definition SIGN_MODE_LEGACY_AMINO_JSON : Z := 127.

#[local] Unset Elimination Schemes.
Inductive SignatureData : Type :=
  | SingleSignatureData (signMode : Z)
  | MultiSignatureData (signatures : list SignatureData)
  | OtherSignatureData.
#[local] Set Elimination Schemes.

(** The interfaces a transaction may implement: [sdk.FeeTx],
    [HasExtensionOptionsTx] and [SigVerifiableTx], whose signatures may fail to
    decode. *)
Record Tx : Type := mkTx {
  GetMsgs : list Msg;
  as_FeeTx : option FeeTx;
  GetExtensionOptions : option (list ExtensionOption);
  GetSignaturesV2 : option (list SignatureData + error);
}.

(** The part of [sdk.Context] the handler reads and writes. The values stored
    under [ExtractedDIDContextKey] and [TrustedRelayFeeGranterContextKey] are empty
    when nothing was stored. *)
Record AnteCtx : Type := mkAnteCtx {
  base_ctx : Ctx;
  IsCheckTx : bool;
  MinGasPrices : list (string * Z);
  TrustedRelayFeeGranter : bytes;
  Priority : Z;
}.

Definition with_did (did : bytes) (c : AnteCtx) : AnteCtx :=
  mkAnteCtx (mkCtx (block_time (base_ctx c)) (block_height (base_ctx c)) did) (IsCheckTx c)
    (MinGasPrices c) (TrustedRelayFeeGranter c) (Priority c).
Definition with_relay (granter : bytes) (c : AnteCtx) : AnteCtx :=
  mkAnteCtx (base_ctx c) (IsCheckTx c) (MinGasPrices c) granter (Priority c).
Definition with_priority (p : Z) (c : AnteCtx) : AnteCtx :=
  mkAnteCtx (base_ctx c) (IsCheckTx c) (MinGasPrices c) (TrustedRelayFeeGranter c) p.

Definition getExtractedDIDFromContext (c : AnteCtx) : bytes := extracted_did (base_ctx c).
Definition getTrustedRelayFeeGranterFromContext (c : AnteCtx) : bytes := TrustedRelayFeeGranter c.

(** Errors of the SDK that the handler returns. *)
Definition ErrTxDecode : error := ErrReg "sdk" 2.
Definition ErrInsufficientFunds : error := ErrReg "sdk" 5.
Definition ErrUnknownAddress : error := ErrReg "sdk" 9.
Definition ErrInsufficientFee : error := ErrReg "sdk" 13.
Definition ErrInvalidGasLimit : error := ErrReg "sdk" 41.

(** * Keepers of the SDK *)

(** Accounts, and the transfer to the fee collector. [AmountOf] on the minimum
    gas prices panics on a denomination that is not well formed; its decimal may
    be nil. *)
Class FeeKeepers (S : Type) : Type := {
  GetModuleAddress : bytes -> option bytes;
  GetAccount : bytes -> S -> option bytes;
  SendCoinsFromAccountToModule : bytes -> bytes -> Coins -> M S unit;
  AmountOf : list (string * Z) -> string -> outcome (option Z);
  balance : bytes -> string -> S -> Z;
}.

Definition FeeCollectorName : bytes := lit "fee_collector".

(** [RoundInt] of a decimal. *)
Definition dec_round (d : Z) : Z := chop_round d.

Definition AnteHandler (S : Type) : Type := AnteCtx -> Tx -> bool -> M S AnteCtx.
Definition AnteDecorator (S : Type) : Type := AnteCtx -> Tx -> bool -> AnteHandler S -> M S AnteCtx.

(** The decorators of the SDK and of ibc-go in the chain. *)
Class SdkDecorators (S : Type) : Type := {
  SetUpContextDecorator : AnteDecorator S;
  ValidateBasicDecorator : AnteDecorator S;
  TxTimeoutHeightDecorator : AnteDecorator S;
  ValidateMemoDecorator : AnteDecorator S;
  ConsumeGasForTxSizeDecorator : AnteDecorator S;
  SetPubKeyDecorator : AnteDecorator S;
  ValidateSigCountDecorator : AnteDecorator S;
  SigGasConsumeDecorator : AnteDecorator S;
  SigVerificationDecorator : AnteDecorator S;
  IncrementSequenceDecorator : AnteDecorator S;
  RedundantRelayDecorator : AnteDecorator S;
}.

(** [sdk.ChainAnteDecorators]: each decorator gets the rest of the chain, whose
    end returns the context. *)
Fixpoint ChainAnteDecorators {S} (chain : list (AnteDecorator S)) : AnteHandler S :=
  match chain with
  | [] => fun ctx _ _ => ret ctx
  | d :: rest => fun ctx tx simulate => d ctx tx simulate (ChainAnteDecorators rest)
  end.

Section ante.
Context `{CoinsOps, SdkKeys, AddressCodec, LegacyDecOps, Jose}.
Context {S : Type} `{Lens S FeegrantStore, AccountKeeper S, Lens S CoreStore, FeeKeepers S, SdkDecorators S}.
Implicit Types (ctx : AnteCtx) (tx : Tx) (simulate : bool).

(** ** panic.go *)

(** A panic is raised again with a text that names the messages. *)
Definition HandlePanicDecorator_AnteHandle : AnteDecorator S := fun ctx tx simulate next =>
  next ctx tx simulate.

(** ** reject_legacy.go *)

Fixpoint hasLegacyAminoSignMode (sigData : SignatureData) : bool :=
  match sigData with
  | SingleSignatureData mode => mode =? SIGN_MODE_LEGACY_AMINO_JSON
  | MultiSignatureData sigs => existsb hasLegacyAminoSignMode sigs
  | OtherSignatureData => false
  end.

Definition RejectLegacyTxDecorator_AnteHandle : AnteDecorator S := fun ctx tx simulate next =>
  match GetSignaturesV2 tx with
  | None => throw ErrTxDecode
  | Some (inr e) => throw e
  | Some (inl sigs) =>
      throw_if (existsb hasLegacyAminoSignMode sigs) ErrInvalidRequest ;;;
      next ctx tx simulate
  end.

(** ** extension.go *)

(** The creator of a message, empty when it has none. *)
Definition creator (m : Msg) : bytes := default [] (GetCreator m).

(** Both loops over the messages: each is created by the account. *)
Fixpoint checkCreators (account : bytes) (msgs : list Msg) : M S unit :=
  match msgs with
  | [] => ret tt
  | m :: rest =>
      throw_if (bool_decide (creator m = [])) ErrInvalidRequest ;;;
      throw_if (negb (bool_decide (creator m = account))) ErrUnauthorized ;;;
      checkCreators account rest
  end.

Definition validateRelay (coreKeeper : bool) (tx : Tx) : M S bytes :=
  if negb coreKeeper then ret []
  else
    chainConfig <- GetChainConfig ;;
    if negb (IgnoreBearerAuth chainConfig) then ret []
    else
      match as_FeeTx tx with
      | None => throw ErrTxDecode
      | Some feeTx =>
          let feeGranter := default [] (FeeGranter feeTx) in
          throw_if (bool_decide (feeGranter = [])) ErrUnauthorized ;;;
          let feeGranterAddress := BytesToString feeGranter in
          params <- CoreKeeper.GetParams ;;
          throw_if (negb (AllowAnyRelay chainConfig) &&
                    negb (IsTrustedRelayFeeGranter params feeGranterAddress)) ErrUnauthorized ;;;
          checkCreators (BytesToString (FeePayer feeTx)) (GetMsgs tx) ;;;
          ret feeGranterAddress
      end.

Definition ExtensionOptionsDecorator_AnteHandle (coreKeeper : bool) : AnteDecorator S :=
  fun ctx tx simulate next =>
  match GetExtensionOptions tx with
  | None | Some [] => next ctx tx simulate
  | Some [OtherExtensionOption] => throw ErrInvalidRequest
  | Some [JWSExtensionOption bearerText] =>
      let currentTime := block_time (base_ctx ctx) in
      relayFeeGranter <- validateRelay coreKeeper tx ;;
      let isRelay := negb (bool_decide (relayFeeGranter = [])) in
      match validateJWSExtension bearerText currentTime isRelay with
      | Panic => panic
      | Err _ => throw ErrInvalidRequest
      | Ok (did, authorizedAccount) =>
          match parseValidateJWS bearerText isRelay with
          | Panic => panic
          | Err _ => throw ErrInvalidRequest
          | Ok bearerToken =>
              when (coreKeeper && negb simulate) (
                r <- attempt (StoreOrUpdateJWSToken (base_ctx ctx) bearerText did authorizedAccount
                  (time_Unix (IssuedTime bearerToken)) (time_Unix (ExpirationTime bearerToken))) ;;
                match r with inr _ => throw ErrUnauthorized | inl _ => ret tt end) ;;;
              throw_if (bool_decide (GetMsgs tx = [])) ErrInvalidRequest ;;;
              when (negb isRelay) (checkCreators authorizedAccount (GetMsgs tx)) ;;;
              let ctx := with_did did ctx in
              let ctx := if isRelay then with_relay relayFeeGranter ctx else ctx in
              next ctx tx simulate
          end
      end
  | Some _ => throw ErrInvalidRequest
  end.

(** ** fee.go *)

Definition TxFeeChecker : Type := AnteCtx -> Tx -> M S (Coins * Z).

(** The fee that the minimum gas price asks for. *)
Definition requiredAmount (minGasPrice gas : Z) (denom : string) : Z :=
  let denomFeeMultiplier :=
    if decide (denom = MicroCreditDenom) then dec_of_int CreditFeeMultiplier else dec_of_int 1 in
  dec_round (dec_ceil (dec_mul (dec_mul minGasPrice (dec_of_int (wrap64 gas))) denomFeeMultiplier)).

Definition checkTxFeeWithMinGasPrices (coreKeeper : bool) : TxFeeChecker := fun ctx tx =>
  match as_FeeTx tx with
  | None => throw ErrTxDecode
  | Some feeTx =>
      match GetFee feeTx with
      | [] =>
          cfg <- (if coreKeeper then GetChainConfig else ret (mkChainConfig false false false)) ;;
          if AllowZeroFeeTxs cfg then ret ([], 0) else throw ErrInsufficientFee
      | [fee] =>
          when (IsCheckTx ctx) (
            price <- of_outcome (AmountOf (MinGasPrices ctx) (coin_denom fee)) ;;
            match price with
            | None => throw ErrInvalidCoins
            | Some price =>
                let minGasPrice := if price =? 0 then DefaultMinGasPrice else price in
                throw_if (coin_amount fee <? requiredAmount minGasPrice (GetGas feeTx) (coin_denom fee))
                  ErrInsufficientFee
            end) ;;;
          ret ([fee], 0)
      | _ => throw ErrInvalidCoins
      end
  end.

(** The keepers of the decorator that may be nil, and its fee checker. *)
Record CustomDeductFeeDecorator : Type := mkCustomDeductFeeDecorator {
  cdfd_feegrantKeeper : bool;
  cdfd_txFeeChecker : TxFeeChecker;
}.

Definition NewCustomDeductFeeDecorator (feegrantKeeper coreKeeper : bool) (tfc : option TxFeeChecker)
    : CustomDeductFeeDecorator :=
  mkCustomDeductFeeDecorator feegrantKeeper
    (match tfc with Some f => f | None => checkTxFeeWithMinGasPrices coreKeeper end).

Definition deductFees (acc : bytes) (fees : Coins) : M S unit :=
  throw_if (negb (IsValid fees)) ErrInsufficientFee ;;;
  r <- attempt (SendCoinsFromAccountToModule acc FeeCollectorName fees) ;;
  match r with inr _ => throw ErrInsufficientFunds | inl _ => ret tt end.

Definition handleFeegrant (feegrantKeeper : bool) ctx (feeGranter : option bytes) (feePayer : bytes)
    (fees : Coins) (msgs : list bytes) : M S bytes :=
  let trustedRelayFeeGranter := getTrustedRelayFeeGranterFromContext ctx in
  if negb (bool_decide (trustedRelayFeeGranter = [])) then
    let feeGranterAddr := default [] feeGranter in
    throw_if (bool_decide (feeGranterAddr = [])) ErrUnauthorized ;;;
    throw_if (negb (bool_decide (BytesToString feeGranterAddr = trustedRelayFeeGranter))) ErrUnauthorized ;;;
    throw_if (bool_decide (feeGranterAddr = feePayer)) ErrUnauthorized ;;;
    throw_if (negb feegrantKeeper) ErrInvalidRequest ;;;
    UseGrantedFees (base_ctx ctx) feeGranterAddr feePayer fees msgs ;;;
    ret feeGranterAddr
  else
    let extractedDID := getExtractedDIDFromContext ctx in
    used <- (if negb (bool_decide (extractedDID = [])) && feegrantKeeper then
               attempt (UseFirstAvailableDIDGrant (base_ctx ctx) extractedDID fees msgs)
             else ret (inr ErrNotFound)) ;;
    match used with
    | inl usedGranter => ret usedGranter
    | inr _ =>
        match feeGranter with
        | Some feeGranterAddr =>
            throw_if (negb feegrantKeeper) ErrInvalidRequest ;;;
            when (negb (bool_decide (feeGranterAddr = feePayer)))
              (UseGrantedFees (base_ctx ctx) feeGranterAddr feePayer fees msgs) ;;;
            ret feeGranterAddr
        | None => ret feePayer
        end
    end.

Definition checkDeductFee (cdfd : CustomDeductFeeDecorator) ctx (sdkTx : Tx) (fees : Coins) : M S unit :=
  match as_FeeTx sdkTx with
  | None => throw ErrTxDecode
  | Some feeTx =>
      throw_if (bool_decide (GetModuleAddress FeeCollectorName = None))
        (ErrMsg "fee collector module account has not been set") ;;;
      deductFeesFrom <- handleFeegrant (cdfd_feegrantKeeper cdfd) ctx (FeeGranter feeTx) (FeePayer feeTx)
        fees (msg_type <$> GetMsgs sdkTx) ;;
      acc <- gets (GetAccount deductFeesFrom) ;;
      deductFeesFromAcc <- of_option acc ErrUnknownAddress ;;
      when (negb (IsZero fees)) (deductFees deductFeesFromAcc fees)
  end.

Definition CustomDeductFeeDecorator_AnteHandle (cdfd : CustomDeductFeeDecorator) : AnteDecorator S :=
  fun ctx tx simulate next =>
  match as_FeeTx tx with
  | None => throw ErrTxDecode
  | Some feeTx =>
      let height := block_height (base_ctx ctx) in
      if height =? 0 then next ctx tx simulate
      else
        throw_if (negb simulate && (0 <? height) && (GetGas feeTx =? 0)) ErrInvalidGasLimit ;;;
        fp <- (if negb simulate then cdfd_txFeeChecker cdfd ctx tx else ret (GetFee feeTx, 0)) ;;
        checkDeductFee cdfd ctx tx fp.1 ;;;
        next (with_priority fp.2 ctx) tx simulate
  end.

(** ** ante.go *)

Definition NewAnteHandler : AnteHandler S :=
  ChainAnteDecorators
    [HandlePanicDecorator_AnteHandle;
     SetUpContextDecorator;
     RejectLegacyTxDecorator_AnteHandle;
     ExtensionOptionsDecorator_AnteHandle true;
     ValidateBasicDecorator;
     TxTimeoutHeightDecorator;
     ValidateMemoDecorator;
     ConsumeGasForTxSizeDecorator;
     CustomDeductFeeDecorator_AnteHandle (NewCustomDeductFeeDecorator true true None);
     SetPubKeyDecorator;
     ValidateSigCountDecorator;
     SigGasConsumeDecorator;
     SigVerificationDecorator;
     IncrementSequenceDecorator;
     RedundantRelayDecorator].
End ante.
