(* ===== verification/AnteFee.v ===== *)
(** Fees: who pays, and how much at least (src/app/ante/fee.go).

    The laws of the keepers and of the SDK's decorators that the theorems on the
    ante handler use, and the theorems on fees: the fee leaves exactly one
    account, which is the fee payer or one whose grant accepted this fee and was
    charged for it; and a node takes a transaction into its mempool exactly when
    the fee covers the minimum gas price. *)
From Stdlib Require Import Ascii ZArith Lia.
From stdpp Require Import base numbers list gmap strings.
From S2P Require Import Prelude Sdk Utils Json FeeAllowance FeegrantKeys FeegrantKeeper FeegrantDID FeegrantPrune FeegrantAddr CoreKeeper Bearer Ante.

(** * Laws *)

(** An account has the address it was asked for; a transfer moves exactly the
    coins; the three parts of the state are apart; a price that is not set is
    zero. *)
Class FeeKeepersLaws (S : Type) `{CoinsOps, Lens S FeegrantStore, Lens S CoreStore, FeeKeepers S} : Prop := {
  GetAccount_address : forall a s b, GetAccount a s = Some b -> b = a;
  Send_moves : forall from m to fees s s', GetModuleAddress m = Some to -> IsValid fees = true ->
    SendCoinsFromAccountToModule from m fees s = (Ok tt, s') ->
    forall a d, balance a d s' = balance a d s
      - (if decide (a = from) then coins_amount d fees else 0)
      + (if decide (a = to) then coins_amount d fees else 0);
  Send_frame : forall from m fees s s', SendCoinsFromAccountToModule from m fees s = (Ok tt, s') ->
    (lens_get s' : FeegrantStore) = lens_get s /\ (lens_get s' : CoreStore) = lens_get s;
  balance_fg : forall (t : FeegrantStore) s a d, balance a d (lens_set t s) = balance a d s;
  balance_core : forall (t : CoreStore) s a d, balance a d (lens_set t s) = balance a d s;
  core_fg : forall (t : FeegrantStore) s, (lens_get (lens_set t s) : CoreStore) = lens_get s;
  fg_core : forall (t : CoreStore) s, (lens_get (lens_set t s) : FeegrantStore) = lens_get s;
  AmountOf_spec : forall prices d o, AmountOf prices d = Ok o ->
    exists p, o = Some p /\ (d ∉ prices.*1 -> p = 0) /\ (forall q, NoDup prices.*1 -> (d, q) ∈ prices -> p = q);
}.

(** Nothing the theorems speak of has changed. *)
Definition untouched {S} `{Lens S FeegrantStore, Lens S CoreStore, FeeKeepers S} (s s' : S) : Prop :=
  (lens_get s' : FeegrantStore) = lens_get s /\ (lens_get s' : CoreStore) = lens_get s /\
  forall a d, balance a d s' = balance a d s.

Definition same_env (c c' : AnteCtx) : Prop :=
  base_ctx c' = base_ctx c /\ IsCheckTx c' = IsCheckTx c /\ MinGasPrices c' = MinGasPrices c /\
  TrustedRelayFeeGranter c' = TrustedRelayFeeGranter c.

(** A decorator that succeeds has handed the transaction on, on a context and a
    state that differ in what it is in charge of (gas meter, keys, sequence
    numbers). *)
Definition passes_on {S} `{Lens S FeegrantStore, Lens S CoreStore, FeeKeepers S} (d : AnteDecorator S) : Prop :=
  forall ctx tx simulate next s c s', d ctx tx simulate next s = (Ok c, s') ->
  exists ctx1 s1, same_env ctx ctx1 /\ untouched s s1 /\ next ctx1 tx simulate s1 = (Ok c, s').

Class SdkDecoratorsLaws (S : Type)
    `{Lens S FeegrantStore, Lens S CoreStore, FeeKeepers S, SdkDecorators S} : Prop := {
  sdk_decorators_pass : Forall passes_on
    [SetUpContextDecorator; ValidateBasicDecorator; TxTimeoutHeightDecorator; ValidateMemoDecorator;
     ConsumeGasForTxSizeDecorator; SetPubKeyDecorator; ValidateSigCountDecorator;
     SigGasConsumeDecorator; SigVerificationDecorator; IncrementSequenceDecorator;
     RedundantRelayDecorator];
}.

(** * The frame of the fee grant keeper *)

Section frame.
Context `{CoinsOps, SdkKeys, AddressCodec}.
Context {S : Type} `{Lens S FeegrantStore, AccountKeeper S}.
Context (I : S -> Prop) (HI : forall (t : FeegrantStore) s, I s -> I (lens_set t s)).

Lemma fg_mod_frame f : preserves I (fg_mod f).
Proof. apply preserves_modify. auto. Qed.
#[local] Hint Resolve fg_mod_frame : preserves.

Lemma fg_get_frame {A} (f : FeegrantStore -> A) : preserves I (fg_get f).
Proof. apply preserves_gets. Qed.
#[local] Hint Resolve fg_get_frame : preserves.

Lemma UseGrantedFees_frame ctx granter grantee fee msgs :
  preserves I (UseGrantedFees ctx granter grantee fee msgs).
Proof.
  unfold UseGrantedFees, UpdateAllowance, revokeAllowance, GetAllowance, getGrant, expiresAt. preserve.
Qed.

End frame.

(** The operations on grants to DIDs leave those to addresses alone. *)
Section did_frame.
Context `{CoinsOps, SdkKeys, AddressCodec}.
Context {S : Type} `{Lens S FeegrantStore, AccountKeeper S}.
Context (I : S -> Prop)
  (HI : forall (t : FeegrantStore) s, grants t = grants (lens_get s) -> I s -> I (lens_set t s)).

Lemma did_grants_frame f : preserves I (fg_mod (fun s => set_did_grants (f s) s)).
Proof. apply preserves_modify. auto. Qed.

Lemma did_queue_frame f : preserves I (fg_mod (fun s => set_did_queue (f s) s)).
Proof. apply preserves_modify. auto. Qed.
#[local] Hint Resolve did_grants_frame did_queue_frame fg_get_frame : preserves.

Lemma UpdateDIDAllowance_frame granter did a : preserves I (UpdateDIDAllowance granter did a).
Proof. unfold UpdateDIDAllowance, getDIDGrant, expiresAt, addToDIDFeeAllowanceQueue. preserve. Qed.

Lemma revokeDIDAllowance_frame granter did : preserves I (revokeDIDAllowance granter did).
Proof. unfold revokeDIDAllowance, GetDIDAllowance, getDIDGrant, expiresAt. preserve. Qed.
#[local] Hint Resolve UpdateDIDAllowance_frame revokeDIDAllowance_frame : preserves.

Lemma UseFirstAvailableDIDGrant_frame ctx did fee msgs :
  preserves I (UseFirstAvailableDIDGrant ctx did fee msgs).
Proof.
  unfold UseFirstAvailableDIDGrant, didGrantsOf.
  assert (Hl : forall l, preserves I (useFirstGrant ctx did fee msgs l)).
  { induction l as [|g l IH]; simpl; preserve. }
  preserve.
Qed.
End did_frame.

(** * Who pays *)

(** The addresses of a transaction are those of accounts. *)
Definition fee_tx_ok (feeTx : FeeTx) : Prop :=
  fits (FeePayer feeTx) /\ forall g, FeeGranter feeTx = Some g -> fits g.

(** The account that pays, and what becomes of the grants. A grant to the DID of
    the context comes first, then the granter of the transaction, then the payer
    itself. *)
Inductive paid_by `{CoinsOps, SdkKeys, AddressCodec} (ctx : AnteCtx) (feeTx : FeeTx) (fees : Coins)
    (msgs : list bytes) (st st' : FeegrantStore) : bytes -> Prop :=
  | paid_by_payer :
      FeeGranter feeTx = None \/ FeeGranter feeTx = Some (FeePayer feeTx) ->
      grants st' = grants st -> swept (block_time (base_ctx ctx)) st st' ->
      paid_by ctx feeTx fees msgs st st' (FeePayer feeTx)
  | paid_by_grant granter st1 :
      FeeGranter feeTx = Some granter -> granter <> FeePayer feeTx ->
      grants st1 = grants st -> swept (block_time (base_ctx ctx)) st st1 ->
      grant_charged (base_ctx ctx) granter (FeePayer feeTx) fees msgs st1 st' ->
      paid_by ctx feeTx fees msgs st st' granter
  | paid_by_did granter did :
      did = getExtractedDIDFromContext ctx -> fits did -> grants st' = grants st ->
      first_use (base_ctx ctx) did fees msgs (did_items did (did_grants st)) st (Ok granter) st' ->
      paid_by ctx feeTx fees msgs st st' granter.

Section fee.
Context `{CoinsOps, SdkKeys, AddressCodec, LegacyDecOps, Jose}.
Context {S : Type} `{Lens S FeegrantStore, !LensLaws S FeegrantStore, AccountKeeper S, !AccountKeeperLaws S}.
Context `{Lens S CoreStore, !LensLaws S CoreStore, FeeKeepers S, !FeeKeepersLaws S}.
Implicit Types (ctx : AnteCtx) (tx : Tx) (s : S).

Definition fgs (s : S) : FeegrantStore := lens_get s.
Definition core_of (s : S) : CoreStore := lens_get s.

(** The rest of the chain while grants are used. *)
Definition rest_same s s' : Prop :=
  core_of s' = core_of s /\ forall a d, balance a d s' = balance a d s.

Lemma rest_same_fg (t : FeegrantStore) s s' : rest_same s s' -> rest_same s (lens_set t s').
Proof.
  unfold rest_same, core_of. intros [Hc Hb]. split; [by rewrite core_fg|]. intros. by rewrite balance_fg.
Qed.

Lemma UseGrantedFees_rest (ctx : Ctx) granter grantee fee msgs s s' :
  UseGrantedFees ctx granter grantee fee msgs s = (Ok tt, s') -> rest_same s s'.
Proof.
  apply (preserves_ok (rest_same s)); [|done]. apply UseGrantedFees_frame. intros. by apply rest_same_fg.
Qed.

(** Trying the grants of the DID leaves the rest and the grants to addresses. *)
Lemma try_did_grant (ctx : Ctx) did fees msgs s o s' : did_inv (fgs s) ->
  attempt (UseFirstAvailableDIDGrant ctx did fees msgs) s = (Ok o, s') -> did <> [] ->
  rest_same s s' /\ grants (fgs s') = grants (fgs s) /\ fits did /\
  match o with
  | inl granter => first_use ctx did fees msgs (did_items did (did_grants (fgs s))) (fgs s) (Ok granter) (fgs s')
  | inr _ => swept (block_time ctx) (fgs s) (fgs s')
  end.
Proof.
  intros Hi Hrun Hne.
  assert (Hfit : fits did).
  { destruct (decide (fits did)) as [|Hn]; [done|]. exfalso. revert Hrun.
    unfold attempt, UseFirstAvailableDIDGrant, didGrantsOf, FeeAllowancePrefixByDID, bind, of_outcome.
    rewrite MustLengthPrefix_spec, decide_False by done. unfold fits in Hn.
    rewrite decide_False; [done|]. destruct did; [done|]. simpl in *. lia. }
  assert (Hpres : preserves (fun x => rest_same s x /\ grants (fgs x) = grants (fgs s))
    (UseFirstAvailableDIDGrant ctx did fees msgs)).
  { apply UseFirstAvailableDIDGrant_frame. intros t x Hg [Hr Hs]. split; [by apply rest_same_fg|].
    unfold fgs in *. by rewrite lens_get_set, Hg. }
  destruct (preserves_ok _ _ _ _ _ (preserves_attempt _ _ Hpres) (conj (conj eq_refl (fun _ _ => eq_refl)) eq_refl) Hrun)
    as [Hr Hg].
  destruct (UseFirstAvailableDIDGrant_run ctx did fees msgs s Hfit Hi) as (o' & s1 & Hu & _ & Hf).
  unfold attempt in Hrun. rewrite Hu in Hrun.
  destruct o' as [granter|e|]; [| |done]; simplify_eq; split_and!; try done. by destruct Hf as (_ & _ & ?).
Qed.

Lemma handleFeegrant_ok ctx feeTx fees msgs s payer s' : fee_tx_ok feeTx -> did_inv (fgs s) ->
  handleFeegrant true ctx (FeeGranter feeTx) (FeePayer feeTx) fees msgs s = (Ok payer, s') ->
  paid_by ctx feeTx fees msgs (fgs s) (fgs s') payer /\ rest_same s s'.
Proof.
  intros [Fp Fg] Hi. unfold handleFeegrant. cbv zeta.
  destruct (bool_decide (getTrustedRelayFeeGranterFromContext ctx = [])) eqn:Er; simpl.
  - intros Hrun. ok_inv Hrun. rename a into used, s0 into s1.
    assert (Htry : rest_same s s1 /\ grants (fgs s1) = grants (fgs s) /\
      match used with
      | inl granter => fits (getExtractedDIDFromContext ctx) /\
          first_use (base_ctx ctx) (getExtractedDIDFromContext ctx) fees msgs
          (did_items (getExtractedDIDFromContext ctx) (did_grants (fgs s))) (fgs s) (Ok granter) (fgs s1)
      | inr _ => swept (block_time (base_ctx ctx)) (fgs s) (fgs s1)
      end).
    { case_bool_decide as Hd; simpl in Hrun0.
      - unfold ret in Hrun0. simplify_eq. split_and!; [done|done|apply swept_refl].
      - apply try_did_grant in Hrun0 as (? & ? & ? & ?); [|done|done]. destruct used; done. }
    destruct Htry as (Hr1 & Hg1 & Hu). destruct used as [granter|e].
    { unfold ret in Hrun. simplify_eq. destruct Hu. split; [|done]. by eapply paid_by_did. }
    destruct (FeeGranter feeTx) as [granter|] eqn:Egr.
    + clear Hrun0. erewrite bind_run_ok in Hrun by done. ok_inv Hrun. unfold ret in Hrun. simplify_eq.
      case_bool_decide as Hp; simpl in Hrun0.
      * unfold ret in Hrun0. simplify_eq. split; [|done]. apply paid_by_payer; [by right|done|done].
      * destruct a. split.
        -- eapply paid_by_grant; [done|done|exact Hg1|exact Hu|]. apply UseGrantedFees_ok; auto.
        -- apply UseGrantedFees_rest in Hrun0 as [Hc Hb]. destruct Hr1 as [Hc1 Hb1].
           split; [congruence|]. intros. by rewrite Hb.
    + unfold ret in Hrun. simplify_eq. split; [|done]. apply paid_by_payer; [by left|done|done].
  - intros Hrun. repeat (ok_inv Hrun). unfold throw_if, ret, throw in *. repeat case_match; simplify_eq.
    destruct (FeeGranter feeTx) as [granter|] eqn:Egr; simpl in *; [|done].
    repeat case_bool_decide; try done. destruct a3. split; [|by eapply UseGrantedFees_rest].
    eapply paid_by_grant; [done|done|done|apply swept_refl|]. apply UseGrantedFees_ok; auto.
Qed.

(** ** The transfer *)

Definition fee_moved (payer collector : bytes) (fees : Coins) s s' : Prop :=
  forall a d, balance a d s' = balance a d s
    - (if decide (a = payer) then coins_amount d fees else 0)
    + (if decide (a = collector) then coins_amount d fees else 0).

Lemma coins_amount_all_zero d (fees : Coins) : Forall (fun c => coin_amount c = 0) fees -> coins_amount d fees = 0.
Proof.
  induction 1 as [|c cs Hc _ IH]; [done|]. rewrite coins_amount_cons, IH. case_decide; lia.
Qed.

Lemma checkDeductFee_ok ctx tx feeTx fees collector cdfd s s' :
  as_FeeTx tx = Some feeTx -> fee_tx_ok feeTx -> cdfd_feegrantKeeper cdfd = true ->
  GetModuleAddress FeeCollectorName = Some collector -> did_inv (fgs s) ->
  checkDeductFee cdfd ctx tx fees s = (Ok tt, s') ->
  core_of s' = core_of s /\ exists payer,
    paid_by ctx feeTx fees (msg_type <$> GetMsgs tx) (fgs s) (fgs s') payer /\
    fee_moved payer collector fees s s'.
Proof.
  intros Htx Hok Hk Hcol Hi. unfold checkDeductFee. rewrite Htx, Hk, Hcol.
  rewrite bool_decide_false by done. erewrite bind_run_ok by done. intros Hrun.
  ok_inv Hrun. rename a into payer, s0 into s1.
  apply handleFeegrant_ok in Hrun0 as [Hpaid [Hc Hb]]; [|done|done].
  ok_inv Hrun. unfold gets in Hrun0. injection Hrun0 as Ha <-. ok_inv Hrun.
  unfold of_option in Hrun0. destruct a as [b|] eqn:Ea; [|done]. unfold ret in Hrun0. simplify_eq.
  apply GetAccount_address in Ha as ->.
  destruct (IsZero fees) eqn:Ez; simpl in Hrun.
  - unfold ret in Hrun. simplify_eq. split; [done|]. exists payer. split; [done|]. intros a d. rewrite Hb.
    apply IsZero_spec in Ez. rewrite coins_amount_all_zero by done. repeat case_decide; lia.
  - unfold deductFees in Hrun. destruct (IsValid fees) eqn:Ev; [|done].
    erewrite bind_run_ok in Hrun by done. unfold attempt, bind in Hrun.
    destruct (SendCoinsFromAccountToModule payer FeeCollectorName fees _) as [[[]|e|] s2] eqn:Es; [|done|done].
    unfold ret in Hrun. simplify_eq. pose proof (Send_frame _ _ _ _ _ Es) as [Hf2 Hc2].
    split; [unfold core_of in *; congruence|]. exists payer. split; [unfold fgs in *; by rewrite Hf2|].
    intros a d. rewrite (Send_moves _ _ collector _ _ _ Hcol Ev Es), Hb. done.
Qed.

Lemma checkTxFee_same ctx tx feeTx core s fees p s' : as_FeeTx tx = Some feeTx ->
  checkTxFeeWithMinGasPrices core ctx tx s = (Ok (fees, p), s') -> fees = GetFee feeTx /\ s' = s.
Proof.
  intros Htx. unfold checkTxFeeWithMinGasPrices. rewrite Htx.
  destruct (GetFee feeTx) as [|fee [|]]; [| |done]; intros Hrun.
  - ok_inv Hrun. destruct (AllowZeroFeeTxs a); [|done]. destruct core; unfold ret, GetChainConfig, core_get, gets in *;
      by simplify_eq.
  - ok_inv Hrun. unfold ret in Hrun. simplify_eq. split; [done|].
    destruct (IsCheckTx ctx); simpl in Hrun0; [|unfold ret in *; by simplify_eq].
    apply bind_ok in Hrun0 as (price & s2 & Hp & Ht). unfold of_outcome in Hp. simplify_eq.
    destruct price; [|done]. unfold throw_if in Ht. case_match; [done|]. unfold ret in *. by simplify_eq.
Qed.

(** A successful decorator has charged the fee and handed the transaction on. *)
Lemma deduct_fee_ok ctx tx feeTx collector simulate next s c s' :
  as_FeeTx tx = Some feeTx -> fee_tx_ok feeTx -> GetModuleAddress FeeCollectorName = Some collector ->
  block_height (base_ctx ctx) <> 0 -> did_inv (fgs s) ->
  CustomDeductFeeDecorator_AnteHandle (NewCustomDeductFeeDecorator true true None) ctx tx simulate next s
    = (Ok c, s') ->
  exists ctx1 s1, same_env ctx ctx1 /\ core_of s1 = core_of s /\ next ctx1 tx simulate s1 = (Ok c, s') /\
    exists payer, paid_by ctx feeTx (GetFee feeTx) (msg_type <$> GetMsgs tx) (fgs s) (fgs s1) payer /\
      fee_moved payer collector (GetFee feeTx) s s1.
Proof.
  intros Htx Hok Hcol Hh Hi. unfold CustomDeductFeeDecorator_AnteHandle. rewrite Htx. cbv zeta.
  destruct (Z.eqb_spec (block_height (base_ctx ctx)) 0); [done|]. intros Hrun.
  ok_inv Hrun. apply throw_if_ok in Hrun0 as [_ ->].
  ok_inv Hrun. destruct a0 as [fees p]. simpl in Hrun.
  assert (fees = GetFee feeTx /\ s0 = s) as [-> ->].
  { destruct simulate; simpl in Hrun0; [unfold ret in *; by simplify_eq|]. by eapply checkTxFee_same. }
  apply bind_ok in Hrun as ([] & s1 & Hded & Hnext).
  destruct (checkDeductFee_ok ctx tx feeTx (GetFee feeTx) collector
    (NewCustomDeductFeeDecorator true true None) s s1 Htx Hok eq_refl Hcol Hi Hded) as [Hc Hp].
  eexists _, s1. split_and!; [|done|exact Hnext|exact Hp]. by split_and!.
Qed.

(** * How much *)

(** The fee a node asks for before it takes a transaction into its mempool is
    exactly gas times price: the one coin offered is enough if and only if it
    covers the gas at the minimum gas price of its denomination, ten times over
    in credits. A price of zero counts as 0.001, and so does the price of a
    denomination the validator has not listed, which is therefore accepted. *)
Theorem min_fee_exact ctx tx feeTx fee p s :
  as_FeeTx tx = Some feeTx -> GetFee feeTx = [fee] -> IsCheckTx ctx = true ->
  0 <= GetGas feeTx <= int64_max -> AmountOf (MinGasPrices ctx) (coin_denom fee) = Ok (Some p) ->
  let price := if p =? 0 then DefaultMinGasPrice else p in
  let factor := if decide (coin_denom fee = MicroCreditDenom) then 10 else 1 in
  checkTxFeeWithMinGasPrices true ctx tx s =
    (if GetGas feeTx * price * factor <=? coin_amount fee * precision
     then Ok ([fee], 0) else Err ErrInsufficientFee, s) /\
  (coin_denom fee ∉ (MinGasPrices ctx).*1 -> price = DefaultMinGasPrice).
Proof.
  intros Htx Hfee Hck Hgas Hp price factor. split.
  - unfold checkTxFeeWithMinGasPrices. rewrite Htx, Hfee, Hck. simpl when. unfold bind at 1. unfold bind at 1.
    unfold of_outcome. rewrite Hp. fold price.
    assert (Hreq : requiredAmount price (GetGas feeTx) (coin_denom fee)
      = - (- (GetGas feeTx * price * factor) / precision)).
    { unfold requiredAmount. rewrite wrap64_small
        by (apply is_int64_spec; unfold int64_min, int64_max in *; lia).
      rewrite dec_mul_int_r. unfold factor, CreditFeeMultiplier.
      destruct (decide _); rewrite dec_mul_int_r; unfold dec_round, dec_ceil; rewrite chop_round_whole; f_equal; f_equal; lia. }
    rewrite Hreq. unfold throw_if, throw, ret.
    destruct (Z.leb_spec (GetGas feeTx * price * factor) (coin_amount fee * precision)) as [Hle|Hgt];
      destruct (Z.ltb_spec (coin_amount fee) (- (- (GetGas feeTx * price * factor) / precision))); try done; exfalso.
    + assert (- coin_amount fee <= - (GetGas feeTx * price * factor) / precision); [|lia].
      apply Z.div_le_lower_bound; unfold precision in *; lia.
    + assert (- (GetGas feeTx * price * factor) / precision < - coin_amount fee); [|lia].
      apply Z.div_lt_upper_bound; unfold precision in *; lia.
  - intros Hnin. apply AmountOf_spec in Hp as (p' & [= <-] & Hz & _). unfold price. by rewrite Hz.
Qed.
End fee.

(** * A concrete chain *)

Record AnteWorld : Type := mkAnteWorld {
  aw_fg : FeegrantStore;
  aw_core : CoreStore;
  aw_balance : bytes -> string -> Z;
}.

#[export] Instance aw_fg_lens : Lens AnteWorld FeegrantStore :=
  {| lens_get := aw_fg; lens_set t s := mkAnteWorld t (aw_core s) (aw_balance s) |}.
#[export] Instance aw_fg_laws : LensLaws AnteWorld FeegrantStore.
Proof. by split. Qed.
#[export] Instance aw_core_lens : Lens AnteWorld CoreStore :=
  {| lens_get := aw_core; lens_set t s := mkAnteWorld (aw_fg s) t (aw_balance s) |}.
#[export] Instance aw_core_laws : LensLaws AnteWorld CoreStore.
Proof. by split. Qed.
#[export] Instance aw_accounts : AccountKeeper AnteWorld :=
  {| HasAccount _ _ := true; CreateAccount _ s := s; BlockedAddr _ := false |}.
#[export] Instance aw_accounts_laws : AccountKeeperLaws AnteWorld.
Proof. by split. Qed.

Definition aw_send `{CoinsOps} (from m : bytes) (fees : Coins) : M AnteWorld unit := fun s =>
  if existsb (fun c => aw_balance s from (coin_denom c) <? coin_amount c) fees
  then (Err (ErrReg "sdk" 5), s)
  else (Ok tt, mkAnteWorld (aw_fg s) (aw_core s) (fun a d => aw_balance s a d
         - (if decide (a = from) then coins_amount d fees else 0)
         + (if decide (a = m) then coins_amount d fees else 0))).

Definition price_of (prices : list (string * Z)) (d : string) : Z :=
  match list_find (fun p => p.1 = d) prices with Some (_, p) => p.2 | None => 0 end.

Lemma price_of_spec prices d : (d ∉ prices.*1 -> price_of prices d = 0) /\
  (forall q, NoDup prices.*1 -> (d, q) ∈ prices -> price_of prices d = q).
Proof.
  unfold price_of. split.
  - intros Hnin. destruct (list_find _ prices) as [[i p]|] eqn:E; [|done].
    apply list_find_Some in E as (Hl & <- & _). destruct Hnin.
    apply list_elem_of_fmap. exists p. split; [done|]. by eapply list_elem_of_lookup_2.
  - intros q Hnd Hin. destruct (list_find _ prices) as [[i p]|] eqn:E.
    * apply list_find_Some in E as (Hl & Hp & _). apply list_elem_of_lookup_2 in Hl. destruct p as [d' p].
      simpl in *. subst. clear -Hnd Hin Hl. induction prices as [|[x y] l IH]; [by apply elem_of_nil in Hin|].
      apply NoDup_cons in Hnd as [Hnin Hnd]. apply elem_of_cons in Hin, Hl.
      destruct Hin as [Hin|Hin], Hl as [Hl|Hl]; simplify_eq; auto; exfalso; apply Hnin.
      -- by apply (list_elem_of_fmap_2 fst) in Hl.
      -- by apply (list_elem_of_fmap_2 fst) in Hin.
    * apply list_find_None in E. rewrite Forall_forall in E. by specialize (E _ Hin).
Qed.

(** Every module has its name as its address. *)
#[export] Instance aw_fees : FeeKeepers AnteWorld := {|
  GetModuleAddress m := Some m;
  GetAccount a _ := Some a;
  SendCoinsFromAccountToModule := aw_send;
  AmountOf prices d := Ok (Some (price_of prices d));
  balance a d s := aw_balance s a d;
|}.

#[export] Instance aw_fees_laws : FeeKeepersLaws AnteWorld.
Proof.
  split; try done.
  - intros a s b [= <-]. done.
  - intros from m to fees s s' [= <-] _. simpl. unfold aw_send. destruct (existsb _ _); [done|].
    intros [= <-] a d. done.
  - intros from m fees s s'. simpl. unfold aw_send. destruct (existsb _ _); [done|]. by intros [= <-].
  - intros prices d o [= <-]. exists (price_of prices d). split; [done|apply price_of_spec].
Qed.

Definition pass_through : AnteDecorator AnteWorld := fun ctx tx simulate next => next ctx tx simulate.

#[export] Instance aw_decorators : SdkDecorators AnteWorld := {|
  SetUpContextDecorator := pass_through; ValidateBasicDecorator := pass_through;
  TxTimeoutHeightDecorator := pass_through; ValidateMemoDecorator := pass_through;
  ConsumeGasForTxSizeDecorator := pass_through; SetPubKeyDecorator := pass_through;
  ValidateSigCountDecorator := pass_through; SigGasConsumeDecorator := pass_through;
  SigVerificationDecorator := pass_through; IncrementSequenceDecorator := pass_through;
  RedundantRelayDecorator := pass_through;
|}.

#[export] Instance aw_decorators_laws : SdkDecoratorsLaws AnteWorld.
Proof.
  split. assert (Hp : passes_on pass_through) by (intros ctx tx simulate next s c s' Hr; by exists ctx, s).
  by repeat constructor.
Qed.

(** 100000 gas at the default price costs 100 uopen. *)
Definition fee_demo_tx : Tx :=
  mkTx [] (Some (mkFeeTx [mkCoin "uopen" 99] 100000 (lit "bob") None)) None None.
Definition fee_demo_ctx : AnteCtx := mkAnteCtx (mkCtx 1000 7 []) true [] [] 0.
Definition fee_demo : AnteWorld := mkAnteWorld (mkFeegrantStore ∅ ∅ ∅ ∅) empty_core (fun _ _ => 0).

Lemma min_fee_exact_witness :
  checkTxFeeWithMinGasPrices true fee_demo_ctx fee_demo_tx fee_demo = (Err ErrInsufficientFee, fee_demo).
Proof.
  destruct (min_fee_exact fee_demo_ctx fee_demo_tx _ (mkCoin "uopen" 99) 0 fee_demo eq_refl eq_refl eq_refl)
    as [Hrun _]; [unfold int64_max; simpl; lia|reflexivity|]. exact Hrun.
Defined.
