(* ===== verification/AnteAuth.v ===== *)
(** What an accepted transaction guarantees (src/app/ante).

    The theorems on the whole ante handler: a transaction that carries a bearer
    token is accepted only for the DID that signed the token, with messages of
    the account the token authorises or through a trusted relay, and leaves a
    valid record of the token; its fee is taken once, from an account that
    agreed to pay. And a weakness: white space in front of an invalidated token
    brings it back. *)
From Stdlib Require Import Ascii ZArith Lia.
From stdpp Require Import base numbers list gmap strings.
From S2P Require Import Prelude Sdk Utils Json FeeAllowance FeegrantKeys FeegrantKeeper FeegrantDID FeegrantPrune FeegrantAddr CoreKeeper CoreTokens CoreReach Bearer Ante AnteFee.

(** The signature data somewhere uses the legacy mode. *)
Inductive legacy_signed : SignatureData -> Prop :=
  | legacy_single : legacy_signed (SingleSignatureData SIGN_MODE_LEGACY_AMINO_JSON)
  | legacy_multi sigs sig : sig ∈ sigs -> legacy_signed sig -> legacy_signed (MultiSignatureData sigs).

Lemma hasLegacyAminoSignMode_spec : forall d, hasLegacyAminoSignMode d = true <-> legacy_signed d.
Proof.
  fix IH 1. intros [mode|sigs|]; simpl.
  - rewrite Z.eqb_eq. split; [intros ->; constructor|by inversion 1].
  - split.
    + intros He. induction sigs as [|x l IHl]; simpl in He; [done|].
      destruct (hasLegacyAminoSignMode x) eqn:Ex.
      * eapply (legacy_multi _ x); [left|by apply IH].
      * simpl in He. specialize (IHl He). inversion IHl; subst. eapply legacy_multi; [by right|done].
    + inversion 1 as [|? sig Hin Hl]; subst. clear H.
      induction sigs as [|x l IHl]; [by apply elem_of_nil in Hin|]. simpl.
      apply elem_of_cons in Hin as [->|Hin].
      * apply IH in Hl. by rewrite Hl.
      * rewrite (IHl Hin). apply orb_true_r.
  - split; [done|by inversion 1].
Qed.

Section auth.
Context `{CoinsOps, SdkKeys, AddressCodec, LegacyDecOps, Jose}.
Context {S : Type} `{Lens S FeegrantStore, !LensLaws S FeegrantStore, AccountKeeper S, !AccountKeeperLaws S}.
Context `{Lens S CoreStore, !LensLaws S CoreStore, FeeKeepers S, !FeeKeepersLaws S}.
Context `{SdkDecorators S, !SdkDecoratorsLaws S}.
Implicit Types (ctx : AnteCtx) (tx : Tx) (s : S).

(** ** The bearer token extension *)

Lemma checkCreators_ok account msgs s a s' : checkCreators account msgs s = (Ok a, s') ->
  Forall (fun m => creator m = account) msgs /\ s' = s.
Proof.
  induction msgs as [|m msgs IH]; simpl; intros Hrun.
  { unfold ret in Hrun. by simplify_eq. }
  ok_inv Hrun. apply throw_if_ok in Hrun0 as [_ ->]. ok_inv Hrun. apply throw_if_ok in Hrun0 as [Hc ->].
  apply negb_false_iff, bool_decide_eq_true in Hc. destruct (IH Hrun) as [HF ->]. auto.
Qed.

(** The transaction of a relay that the module trusts. *)
Definition relayed tx (c : CoreStore) (granter : bytes) : Prop :=
  exists feeTx g, as_FeeTx tx = Some feeTx /\ FeeGranter feeTx = Some g /\ granter = BytesToString g /\
    IgnoreBearerAuth (config_of c) = true /\
    (AllowAnyRelay (config_of c) = true \/
     granter ∈ TrustedRelayFeeGranters (default (mkCoreParams []) (core_params c))) /\
    Forall (fun m => creator m = BytesToString (FeePayer feeTx)) (GetMsgs tx).

Lemma validateRelay_ok tx s granter s' : validateRelay true tx s = (Ok granter, s') ->
  s' = s /\ (granter <> [] -> relayed tx (core_of s) granter).
Proof.
  unfold validateRelay. cbn [negb]. intros Hrun. ok_inv Hrun.
  unfold GetChainConfig, core_get, gets in Hrun0. injection Hrun0 as <- <-.
  change (default _ (chain_config _)) with (config_of (core_of s)) in Hrun.
  destruct (IgnoreBearerAuth (config_of (core_of s))) eqn:Ei; simpl in Hrun;
    [|unfold ret in Hrun; by simplify_eq].
  destruct (as_FeeTx tx) as [feeTx|] eqn:Ef; [|done].
  ok_inv Hrun. apply throw_if_ok in Hrun0 as [Hg ->]. ok_inv Hrun.
  unfold GetParams, core_get, gets in Hrun0. injection Hrun0 as <- <-.
  ok_inv Hrun. apply throw_if_ok in Hrun0 as [Ht ->]. ok_inv Hrun.
  apply checkCreators_ok in Hrun0 as [HF ->]. unfold ret in Hrun. simplify_eq. split; [done|]. intros _.
  destruct (FeeGranter feeTx) as [g|] eqn:Eg; [|done]. exists feeTx, g. split_and!; try done.
  apply andb_false_iff in Ht as [Ht|Ht]; apply negb_false_iff in Ht; [by left|right].
  unfold IsTrustedRelayFeeGranter in Ht. apply existsb_exists in Ht as (x & Hin & Hx).
  apply bool_decide_eq_true in Hx as <-. by apply list_elem_of_In.
Qed.

(** A token that was just used: there is a valid record of it. *)
Definition token_used (now : Time) (token : bytes) (c : CoreStore) : Prop :=
  exists r, tokens c !! HashJWSToken token = Some r /\ Status r = STATUS_VALID /\ LastUsedAt r = Some now.

Lemma StoreOrUpdate_ok (ctx : Ctx) token did account iat exp s s' :
  (forall r, tokens (core_of s) !! HashJWSToken token = Some r -> TokenHash r = HashJWSToken token) ->
  StoreOrUpdateJWSToken ctx token did account iat exp s = (Ok tt, s') ->
  token_used (block_time ctx) token (core_of s').
Proof.
  intros Hkey. unfold StoreOrUpdateJWSToken. cbv zeta. unfold GetJWSToken at 1. rewrite core_get_run.
  change (cs s) with (core_of s). destruct (tokens (core_of s) !! HashJWSToken token) as [r|] eqn:Et; intros Hrun.
  - ok_inv Hrun. apply throw_if_ok in Hrun0 as [Hv ->]. apply negb_false_iff, bool_decide_eq_true in Hv.
    unfold RecordJWSTokenUsage in Hrun. ok_inv Hrun. apply throw_if_ok in Hrun0 as [_ ->].
    unfold GetJWSToken in Hrun. rewrite core_get_run in Hrun. change (cs s) with (core_of s) in Hrun.
    rewrite Et in Hrun. apply SetJWSToken_result in Hrun as [_ Hc]. change (cs s') with (core_of s') in Hc.
    exists (with_usage (block_time ctx) r). rewrite Hc. simpl. rewrite (Hkey r) by done.
    by rewrite lookup_insert_eq.
  - ok_inv Hrun. apply throw_if_ok in Hrun0 as [_ ->]. apply SetJWSToken_result in Hrun as [_ Hc].
    change (cs s') with (core_of s') in Hc. unfold token_used. rewrite Hc. simpl. rewrite lookup_insert_eq. eauto.
Qed.

(** The token is what the transaction rests on: signed by the key of its issuer,
    not expired, speaking for [did], and bound to the account that created the
    messages, or brought by a trusted relay. *)
Definition authenticated ctx tx (token : bytes) (b : BearerToken) (c : CoreStore) ctx' : Prop :=
  verified token b /\ unix_seconds (block_time (base_ctx ctx)) <= ExpirationTime b /\
  actor_of b (extracted_did (base_ctx ctx')) /\ GetMsgs tx <> [] /\
  ((TrustedRelayFeeGranter ctx' = TrustedRelayFeeGranter ctx /\
    extracted_did (base_ctx ctx') = IssuerID b /\
    Forall (fun m => creator m = bt_AuthorizedAccount b) (GetMsgs tx)) \/
   relayed tx c (TrustedRelayFeeGranter ctx')).

(** What the extension decorator leaves alone. *)
Definition kept_env ctx ctx' : Prop :=
  block_time (base_ctx ctx') = block_time (base_ctx ctx) /\
  block_height (base_ctx ctx') = block_height (base_ctx ctx) /\
  IsCheckTx ctx' = IsCheckTx ctx /\ MinGasPrices ctx' = MinGasPrices ctx.

Definition money_same s s' : Prop := fgs s' = fgs s /\ forall a d, balance a d s' = balance a d s.

Lemma StoreOrUpdate_frame (ctx : Ctx) token did account iat exp s :
  preserves (money_same s) (StoreOrUpdateJWSToken ctx token did account iat exp).
Proof.
  assert (Hmod : forall f, preserves (money_same s) (core_mod f)).
  { intros f. apply preserves_modify. intros x [Hf Hb]. unfold money_same, fgs in *. split.
    - by rewrite fg_core.
    - intros. by rewrite balance_core. }
  assert (Hget : forall A (f : CoreStore -> A), preserves (money_same s) (core_get f))
    by (intros; apply preserves_gets).
  unfold StoreOrUpdateJWSToken, RecordJWSTokenUsage, SetJWSToken, GetJWSToken, GetChainConfig. cbv zeta.
  preserve.
Qed.

Lemma extension_ok ctx tx simulate next s c s' : tokens_inv (core_of s) ->
  ExtensionOptionsDecorator_AnteHandle true ctx tx simulate next s = (Ok c, s') ->
  exists ctx1 s1, next ctx1 tx simulate s1 = (Ok c, s') /\ money_same s s1 /\ kept_env ctx ctx1 /\
    match default [] (GetExtensionOptions tx) with
    | [] => ctx1 = ctx /\ s1 = s
    | exts => exists token b, exts = [JWSExtensionOption token] /\
        authenticated ctx tx token b (core_of s) ctx1 /\
        (simulate = false -> token_used (block_time (base_ctx ctx)) token (core_of s1))
    end.
Proof.
  intros Hinv. unfold ExtensionOptionsDecorator_AnteHandle.
  destruct (GetExtensionOptions tx) as [[|[token|] [|]]|] eqn:Ex; simpl default; cbv zeta; try done; intros Hrun.
  { exists ctx, s. by split_and!. }
  2:{ exists ctx, s. by split_and!. }
  ok_inv Hrun. apply validateRelay_ok in Hrun0 as [-> Hrelay]. rename a into granter.
  set (relay := negb (bool_decide (granter = []))) in *.
  destruct (validateJWSExtension token _ relay) as [[did account]|e|] eqn:Ev; [|done|done].
  apply validateJWSExtension_ok in Ev as (b & Hb & Hexp & -> & Hact). rewrite Hb in Hrun.
  destruct (parseValidateJWS_ok _ _ _ Hb) as [Hver Hvals].
  ok_inv Hrun. rename s0 into s1. rename Hrun0 into Hstore.
  ok_inv Hrun. apply throw_if_ok in Hrun0 as [Hne ->]. apply bool_decide_eq_false in Hne.
  ok_inv Hrun. rename Hrun0 into Hcr.
  assert (Hst : money_same s s1 /\ (simulate = false -> token_used (block_time (base_ctx ctx)) token (core_of s1))).
  { destruct simulate; simpl in Hstore; [unfold ret in Hstore; by simplify_eq|].
    apply bind_ok in Hstore as (r & s2 & Hr & Hs2). pose proof (preserves_ok _ _ _ _ _
      (preserves_attempt _ _ (StoreOrUpdate_frame (base_ctx ctx) token did (bt_AuthorizedAccount b)
         (time_Unix (IssuedTime b)) (time_Unix (ExpirationTime b)) s)) (conj eq_refl (fun _ _ => eq_refl)) Hr) as Hm.
    destruct r as [[]|e]; [|done]. unfold ret in Hs2. simplify_eq. split; [done|]. intros _.
    unfold attempt in Hr. destruct (StoreOrUpdateJWSToken _ _ _ _ _ _ s) as [[[]|e|] s3] eqn:Es; simplify_eq.
    eapply StoreOrUpdate_ok; [|exact Es]. intros r Hl. by apply (inv_record _ Hinv). }
  destruct Hst as [Hm Hused].
  assert (s0 = s1 /\ (relay = false -> Forall (fun m => creator m = bt_AuthorizedAccount b) (GetMsgs tx))) as [-> Hcreate].
  { destruct relay; simpl in Hcr; [unfold ret in Hcr; by simplify_eq|]. by apply checkCreators_ok in Hcr as [? ->]. }
  eexists _, s1. split_and!; [exact Hrun|done| |].
  { by destruct relay. }
  exists token, b. split_and!; [done| |done].
  unfold authenticated. split_and!; [done|done|by destruct relay|done|].
  destruct relay eqn:Er; simpl.
  - right. apply Hrelay. unfold relay in Er. by apply negb_true_iff, bool_decide_eq_false in Er.
  - left. split_and!; [done| |auto].
    apply validateBearerTokenValues_ok in Hvals as [Hp _]. destruct (Hp eq_refl) as [Hprov _].
    destruct Hact as [[_ ->]|[? _]]; done.
Qed.

(** ** The whole handler *)

Lemma same_env_refl ctx : same_env ctx ctx.
Proof. done. Qed.

Lemma same_env_trans c1 c2 c3 : same_env c1 c2 -> same_env c2 c3 -> same_env c1 c3.
Proof. unfold same_env. intros (-> & -> & -> & ->). done. Qed.

Lemma untouched_refl s : untouched s s.
Proof. done. Qed.

Lemma untouched_trans s1 s2 s3 : untouched s1 s2 -> untouched s2 s3 -> untouched s1 s3.
Proof. unfold untouched. intros (-> & -> & Hb) (-> & -> & Hb'). split_and!; [done|done|]. intros. by rewrite Hb'. Qed.

(** A run of SDK decorators hands on. *)
Lemma chain_passes (ds rest : list (AnteDecorator S)) : Forall passes_on ds ->
  forall ctx tx simulate s c s', ChainAnteDecorators (ds ++ rest) ctx tx simulate s = (Ok c, s') ->
  exists ctx1 s1, same_env ctx ctx1 /\ untouched s s1 /\ ChainAnteDecorators rest ctx1 tx simulate s1 = (Ok c, s').
Proof.
  induction 1 as [|d ds Hd _ IH]; intros ctx tx simulate s c s' Hrun.
  { exists ctx, s. split_and!; [apply same_env_refl|apply untouched_refl|done]. }
  apply Hd in Hrun as (ctx1 & s1 & He1 & Hu1 & Hrun). apply IH in Hrun as (ctx2 & s2 & He2 & Hu2 & Hrun).
  exists ctx2, s2. split_and!; [by eapply same_env_trans|by eapply untouched_trans|done].
Qed.

(** The decorators of the SDK before and after the fee. *)
Definition before_fee : list (AnteDecorator S) :=
  [ValidateBasicDecorator; TxTimeoutHeightDecorator; ValidateMemoDecorator; ConsumeGasForTxSizeDecorator].
Definition after_fee : list (AnteDecorator S) :=
  [SetPubKeyDecorator; ValidateSigCountDecorator; SigGasConsumeDecorator; SigVerificationDecorator;
   IncrementSequenceDecorator; RedundantRelayDecorator].
Definition fee_decorator : AnteDecorator S :=
  CustomDeductFeeDecorator_AnteHandle (NewCustomDeductFeeDecorator true true None).

Lemma NewAnteHandler_chain : NewAnteHandler =
  ChainAnteDecorators ([HandlePanicDecorator_AnteHandle; SetUpContextDecorator;
    RejectLegacyTxDecorator_AnteHandle; ExtensionOptionsDecorator_AnteHandle true]
    ++ before_fee ++ [fee_decorator] ++ after_fee).
Proof. done. Qed.

Lemma sdk_parts_pass : passes_on SetUpContextDecorator /\ Forall passes_on before_fee /\ Forall passes_on after_fee.
Proof.
  pose proof sdk_decorators_pass as HF. repeat (apply Forall_cons in HF as [? HF]).
  split_and!; [done|by repeat constructor..].
Qed.

(** The handler succeeds when the extension and the fee decorators do, one after
    the other, on transactions without legacy signatures. *)
Lemma NewAnteHandler_steps ctx tx simulate s c s' : NewAnteHandler ctx tx simulate s = (Ok c, s') ->
  (exists sigs, GetSignaturesV2 tx = Some (inl sigs) /\ Forall (fun d => ~ legacy_signed d) sigs) /\
  exists ctx1 s1, same_env ctx ctx1 /\ untouched s s1 /\
    ExtensionOptionsDecorator_AnteHandle true ctx1 tx simulate
      (ChainAnteDecorators (before_fee ++ [fee_decorator] ++ after_fee)) s1 = (Ok c, s').
Proof.
  rewrite NewAnteHandler_chain. simpl app. cbn [ChainAnteDecorators].
  unfold HandlePanicDecorator_AnteHandle. intros Hrun. destruct sdk_parts_pass as (Hset & _ & _).
  apply Hset in Hrun as (ctx1 & s1 & He & Hu & Hrun).
  change (RejectLegacyTxDecorator_AnteHandle ctx1 tx simulate
    (ChainAnteDecorators (ExtensionOptionsDecorator_AnteHandle true :: before_fee ++ [fee_decorator] ++ after_fee)) s1
    = (Ok c, s')) in Hrun.
  unfold RejectLegacyTxDecorator_AnteHandle in Hrun.
  destruct (GetSignaturesV2 tx) as [[sigs|]|] eqn:Es; [|done|done].
  ok_inv Hrun. apply throw_if_ok in Hrun0 as [Hleg ->]. split.
  { exists sigs. split; [done|]. apply Forall_forall. intros d Hd Hl.
    apply not_true_iff_false in Hleg. apply Hleg. apply existsb_exists. exists d.
    split; [by apply list_elem_of_In|]. by apply hasLegacyAminoSignMode_spec. }
  exists ctx1, s1. by split_and!.
Qed.

Lemma fee_steps ctx tx simulate s c s' :
  ChainAnteDecorators (before_fee ++ [fee_decorator] ++ after_fee) ctx tx simulate s = (Ok c, s') ->
  exists ctx1 s1, same_env ctx ctx1 /\ untouched s s1 /\
    fee_decorator ctx1 tx simulate (ChainAnteDecorators after_fee) s1 = (Ok c, s').
Proof. apply chain_passes. apply sdk_parts_pass. Qed.

Lemma after_steps ctx tx simulate s c s' :
  ChainAnteDecorators after_fee ctx tx simulate s = (Ok c, s') -> same_env ctx c /\ untouched s s'.
Proof.
  intros Hrun. rewrite <- (app_nil_r after_fee) in Hrun.
  apply chain_passes in Hrun as (c1 & s1 & He & Hu & Hr); [|apply sdk_parts_pass].
  unfold ChainAnteDecorators, ret in Hr. by simplify_eq.
Qed.

(** Charging the fee leaves the core module alone, whoever pays. *)
Lemma checkDeductFee_core cdfd ctx tx fees s s' :
  checkDeductFee cdfd ctx tx fees s = (Ok tt, s') -> core_of s' = core_of s.
Proof.
  unfold checkDeductFee. destruct (as_FeeTx tx) as [feeTx|]; [|done]. intros Hrun.
  ok_inv Hrun. apply throw_if_ok in Hrun0 as [_ ->]. ok_inv Hrun.
  assert (Hset : forall (t : FeegrantStore) x, core_of x = core_of s -> core_of (lens_set t x) = core_of s)
    by (intros t x Hx; unfold core_of in *; by rewrite core_fg).
  assert (Hp : preserves (fun x => core_of x = core_of s) (handleFeegrant (cdfd_feegrantKeeper cdfd) ctx
    (FeeGranter feeTx) (FeePayer feeTx) fees (msg_type <$> GetMsgs tx))).
  { unfold handleFeegrant. cbv zeta. preserve; first [by apply UseGrantedFees_frame
      | apply UseFirstAvailableDIDGrant_frame; intros; by apply Hset]. }
  apply (preserves_ok _ _ _ _ _ Hp eq_refl) in Hrun0. rewrite <- Hrun0.
  ok_inv Hrun. unfold gets in Hrun1. simplify_eq. ok_inv Hrun.
  destruct (GetAccount _ _); [|done]. unfold of_option, ret in Hrun1. simplify_eq.
  destruct (IsZero fees); simpl in Hrun; [unfold ret in Hrun; by simplify_eq|].
  unfold deductFees in Hrun. ok_inv Hrun. apply throw_if_ok in Hrun1 as [_ ->].
  unfold bind, attempt in Hrun. destruct (SendCoinsFromAccountToModule _ _ _ _) as [[[]|e|] s3] eqn:Es; [|done|done].
  unfold ret in Hrun. simplify_eq. by apply Send_frame in Es as [_ ?].
Qed.

Lemma fee_decorator_core ctx tx simulate next s c s' :
  fee_decorator ctx tx simulate next s = (Ok c, s') ->
  exists ctx1 s1, same_env ctx ctx1 /\ core_of s1 = core_of s /\ next ctx1 tx simulate s1 = (Ok c, s').
Proof.
  unfold fee_decorator, CustomDeductFeeDecorator_AnteHandle.
  destruct (as_FeeTx tx) as [feeTx|] eqn:Ef; [|done]. cbv zeta.
  destruct (block_height (base_ctx ctx) =? 0); intros Hrun; [by exists ctx, s|].
  ok_inv Hrun. apply throw_if_ok in Hrun0 as [_ ->]. ok_inv Hrun. destruct a0 as [fees p].
  assert (s0 = s) as ->.
  { destruct simulate; simpl in Hrun0; [unfold ret in *; by simplify_eq|].
    by destruct (checkTxFee_same ctx tx feeTx true s fees p s0 Ef Hrun0). }
  apply bind_ok in Hrun as ([] & s1 & Hded & Hnext). apply checkDeductFee_core in Hded.
  by exists (with_priority p ctx), s1.
Qed.

(** C2: the ante handler accepts a transaction with extension options only when
    there is exactly one, a bearer token, and then: the token is signed by the key
    of its issuer and has not expired; the messages act for the DID that the
    handler passes on, which is the issuer, every message created by the account
    the token authorises, or else the transaction comes from a trusted relay
    whose worker created every message; no signature uses the legacy mode; and
    the store holds a valid record of the token, last used now. *)
Theorem ante_authenticates ctx tx exts s c s' : tokens_inv (core_of s) ->
  GetExtensionOptions tx = Some exts -> exts <> [] ->
  NewAnteHandler ctx tx false s = (Ok c, s') ->
  exists token b, exts = [JWSExtensionOption token] /\
    authenticated ctx tx token b (core_of s) c /\
    token_used (block_time (base_ctx ctx)) token (core_of s') /\
    HasPrefix (IssuerID b) (lit "did:key:") = true /\
    exists sigs, GetSignaturesV2 tx = Some (inl sigs) /\ Forall (fun d => ~ legacy_signed d) sigs.
Proof.
  intros Hinv Hext Hne Hrun. apply NewAnteHandler_steps in Hrun as [Hsigs (ctx1 & s1 & He1 & (_ & Hc1 & _) & Hrun)].
  change (core_of s1 = core_of s) in Hc1.
  apply extension_ok in Hrun as (ctx2 & s2 & Hrun & _ & _ & Htok); [|by rewrite Hc1].
  rewrite Hext in Htok. simpl default in Htok. destruct exts as [|x l]; [done|].
  destruct Htok as (token & b & Hx & Hauth & Hused).
  apply fee_steps in Hrun as (ctx3 & s3 & He3 & (_ & Hc3 & _) & Hrun).
  apply fee_decorator_core in Hrun as (ctx4 & s4 & He4 & Hc4 & Hrun).
  apply after_steps in Hrun as [He5 (_ & Hc5 & _)].
  assert (Henv : same_env ctx2 c) by (eapply same_env_trans; [exact He3|by eapply same_env_trans]).
  destruct He1 as (Hb1 & _ & _ & Ht1). destruct Henv as (Hb2 & _ & _ & Ht2).
  exists token, b. split; [done|]. rewrite Hc1 in Hauth. unfold authenticated in *.
  rewrite Hb2, Ht2. rewrite Hb1, Ht1 in Hauth. split_and!; try apply Hauth; [|by eapply verified_issuer; apply Hauth|done].
  rewrite <- Hb1. unfold core_of in *. rewrite Hc5, Hc4, Hc3. auto.
Qed.

(** C4: the fee of an accepted transaction leaves exactly one account and reaches
    the fee collector; no other balance changes. The account is the fee payer, or
    one whose grant to the fee payer, or to the DID of the bearer token, accepted
    exactly this fee for these messages and was charged for it; among the grants
    to a DID it is the first that covers the fee. *)
Theorem fee_paid_once ctx tx feeTx collector simulate s c s' :
  as_FeeTx tx = Some feeTx -> fee_tx_ok feeTx -> GetModuleAddress FeeCollectorName = Some collector ->
  block_height (base_ctx ctx) <> 0 -> tokens_inv (core_of s) -> did_inv (fgs s) ->
  NewAnteHandler ctx tx simulate s = (Ok c, s') ->
  exists payer,
    paid_by c feeTx (GetFee feeTx) (msg_type <$> GetMsgs tx) (fgs s) (fgs s') payer /\
    fee_moved payer collector (GetFee feeTx) s s'.
Proof.
  intros Htx Hok Hcol Hh Hinv Hdid Hrun.
  apply NewAnteHandler_steps in Hrun as [_ (ctx1 & s1 & He1 & (Hf1 & Hc1 & Hb1) & Hrun)].
  change (core_of s1 = core_of s) in Hc1. change (fgs s1 = fgs s) in Hf1.
  apply extension_ok in Hrun as (ctx2 & s2 & Hrun & [Hf2 Hb2] & Hk2 & _); [|by rewrite Hc1].
  apply fee_steps in Hrun as (ctx3 & s3 & He3 & (Hf3 & _ & Hb3) & Hrun). change (fgs s3 = fgs s2) in Hf3.
  assert (Hheight : block_height (base_ctx ctx3) = block_height (base_ctx ctx)).
  { destruct He3 as [-> _], Hk2 as (_ & -> & _), He1 as [-> _]. done. }
  apply (deduct_fee_ok _ _ feeTx collector) in Hrun as (ctx4 & s4 & He4 & _ & Hrun & payer & Hpaid & Hmoved);
    [|done|done|done|by rewrite Hheight|by rewrite Hf3, Hf2, Hf1].
  apply after_steps in Hrun as [He5 (Hf5 & _ & Hb5)]. change (fgs s' = fgs s4) in Hf5.
  exists payer. split.
  - rewrite Hf5. rewrite Hf3, Hf2, Hf1 in Hpaid.
    assert (Hb : base_ctx c = base_ctx ctx3) by (destruct He5 as [-> _], He4 as [-> _]; done).
    destruct Hpaid.
    + apply paid_by_payer; [done|done|by rewrite Hb].
    + eapply paid_by_grant; rewrite ?Hb; done.
    + eapply paid_by_did; unfold getExtractedDIDFromContext in *; rewrite ?Hb; done.
  - intros a d. rewrite Hb5, (Hmoved a d), Hb3, Hb2, Hb1. done.
Qed.

(** ** Invalidated tokens *)

Lemma checkCreators_pure account msgs : exists o, forall s, checkCreators account msgs s = (o, s).
Proof.
  induction msgs as [|m msgs [o IH]]; simpl; [by exists (Ok tt)|].
  destruct (bool_decide (creator m = [])); [by exists (Err ErrInvalidRequest)|].
  destruct (bool_decide (creator m = account)); [|by exists (Err ErrUnauthorized)].
  exists o. intros s. erewrite bind_run_ok by done. erewrite bind_run_ok by done. apply IH.
Qed.

(** The checks on relays read the parameters and the configuration only. *)
Lemma validateRelay_same tx s s2 granter s1 :
  core_params (core_of s2) = core_params (core_of s) -> chain_config (core_of s2) = chain_config (core_of s) ->
  validateRelay true tx s = (Ok granter, s1) -> validateRelay true tx s2 = (Ok granter, s2).
Proof.
  intros Hp Hc. unfold validateRelay, GetChainConfig. cbn [negb]. rewrite !core_get_run.
  change (cs s) with (core_of s). change (cs s2) with (core_of s2). rewrite Hc.
  destruct (negb (IgnoreBearerAuth _)); [unfold ret; intros; by simplify_eq|].
  destruct (as_FeeTx tx) as [feeTx|]; [|done].
  destruct (bool_decide _); [done|]. rewrite !(bind_run_ok (throw_if false _) _ _ tt _ eq_refl).
  unfold CoreKeeper.GetParams. rewrite !core_get_run.
  change (cs s) with (core_of s). change (cs s2) with (core_of s2). rewrite Hp.
  destruct (negb _ && negb _); [done|]. rewrite !(bind_run_ok (throw_if false _) _ _ tt _ eq_refl).
  destruct (checkCreators_pure (BytesToString (FeePayer feeTx)) (GetMsgs tx)) as [o Ho].
  unfold bind. rewrite !Ho. destruct o; unfold ret; intros; by simplify_eq.
Qed.

Definition with_token (token : bytes) tx : Tx :=
  mkTx (GetMsgs tx) (as_FeeTx tx) (Some [JWSExtensionOption token]) (GetSignaturesV2 tx).

(** A token that was stored for the first time can be stored under another text. *)
Lemma StoreOrUpdate_again (ctx : Ctx) token token' did account iat exp s s1 s2 :
  tokens (core_of s) !! HashJWSToken token = None -> tokens (core_of s2) !! HashJWSToken token' = None ->
  chain_config (core_of s2) = chain_config (core_of s) ->
  StoreOrUpdateJWSToken ctx token did account iat exp s = (Ok tt, s1) ->
  exists s3, StoreOrUpdateJWSToken ctx token' did account iat exp s2 = (Ok tt, s3).
Proof.
  intros Hn Hn' Hcfg. unfold StoreOrUpdateJWSToken. cbv zeta. unfold GetJWSToken. rewrite !core_get_run.
  change (cs s) with (core_of s). change (cs s2) with (core_of s2). rewrite Hn, Hn'. intros Hrun.
  ok_inv Hrun. apply throw_if_ok in Hrun0 as [Hexp ->]. rewrite Hexp. erewrite bind_run_ok by done.
  apply SetJWSToken_result in Hrun as [(_ & Hd & Hm & Ha) _].
  destruct (SetJWSToken_run (mkJWSTokenRecord (HashJWSToken token') token' did account iat exp STATUS_VALID
    (Some (block_time ctx)) (Some (block_time ctx)) None []) s2) as (s3 & Hs3 & _); [|by exists s3].
  split_and!; [apply HashJWSToken_fits|exact Hd|exact Hm|].
  change (cs s2) with (core_of s2). change (cs s) with (core_of s) in Ha. unfold config_of in *. by rewrite Hcfg.
Qed.

(** White space in front of a token brings it back after it was invalidated.
    The signature is checked without leading blanks, while the record is kept
    under the hash of the whole text: where the token itself is now refused, the
    same token behind a blank passes as before, for the same DID, with a fresh
    record. *)
Theorem blank_revives_token ctx tx token w next s c s' s2 :
  Forall (fun x => x ∈ jws_space) w ->
  tokens (core_of s) !! HashJWSToken token = None ->
  ExtensionOptionsDecorator_AnteHandle true ctx (with_token token tx) false next s = (Ok c, s') ->
  core_params (core_of s2) = core_params (core_of s) -> chain_config (core_of s2) = chain_config (core_of s) ->
  invalid_at (HashJWSToken token) (core_of s2) -> tokens (core_of s2) !! HashJWSToken (w ++ token) = None ->
  ExtensionOptionsDecorator_AnteHandle true ctx (with_token token tx) false next s2 = (Err ErrUnauthorized, s2) /\
  exists ctx1 s1 s3, next ctx1 (with_token token tx) false s1 = (Ok c, s') /\
    ExtensionOptionsDecorator_AnteHandle true ctx (with_token (w ++ token) tx) false next s2
      = next ctx1 (with_token (w ++ token) tx) false s3.
Proof.
  intros Hw Hn Hrun Hp Hc (r & Hl & Hst) Hn'.
  unfold ExtensionOptionsDecorator_AnteHandle in *. cbn [GetExtensionOptions with_token] in *. cbv zeta in *.
  ok_inv Hrun. pose proof (validateRelay_ok _ _ _ _ Hrun0) as [-> _]. rename a into granter.
  pose proof (validateRelay_same _ _ _ _ _ Hp Hc Hrun0) as Hrel.
  change (validateRelay true (with_token token tx)) with (validateRelay true tx) in *.
  change (validateRelay true (with_token (w ++ token) tx)) with (validateRelay true tx).
  rewrite !(bind_run_ok _ _ _ _ _ Hrel).
  rewrite validateJWSExtension_space, parseValidateJWS_space by done.
  destruct (validateJWSExtension token _ _) as [[did account]|e|]; [|done|done].
  destruct (parseValidateJWS token _) as [b|e|]; [|done|done]. cbn [andb negb when] in *.
  change (GetMsgs (with_token token tx)) with (GetMsgs tx) in *.
  change (GetMsgs (with_token (w ++ token) tx)) with (GetMsgs tx).
  split.
  - assert (Hrej : forall d a i e, StoreOrUpdateJWSToken (base_ctx ctx) token d a i e s2 = (Err ErrJWSTokenInvalid, s2)).
    { intros. unfold StoreOrUpdateJWSToken, GetJWSToken. cbv zeta. rewrite core_get_run.
      change (cs s2) with (core_of s2). by rewrite Hl, Hst. }
    by erewrite bind_run_err by (erewrite attempt_run_err by apply Hrej; done).
  - apply bind_ok in Hrun as ([] & s1 & Hstore & Hrun). apply bind_ok in Hstore as (x & s1' & Hatt & Hx).
    unfold attempt in Hatt. destruct (StoreOrUpdateJWSToken _ token _ _ _ _ s) as [[[]|e|] sx] eqn:Es; simplify_eq.
    unfold ret in Hx. simplify_eq.
    destruct (StoreOrUpdate_again (base_ctx ctx) token (w ++ token) did account _ _ s s1 s2 Hn Hn' Hc Es) as [s3 Hs3].
    ok_inv Hrun. apply throw_if_ok in Hrun1 as [Hmsgs ->].
    apply bind_ok in Hrun as ([] & s4 & Hcr & Hnext). eexists _, s4, s3. split; [exact Hnext|].
    erewrite bind_run_ok by (erewrite attempt_run_ok by exact Hs3; done).
    rewrite Hmsgs. erewrite bind_run_ok by done.
    erewrite bind_run_ok; [done|]. destruct (bool_decide (granter = [])); simpl in *; [|done].
    destruct (checkCreators_pure account (GetMsgs tx)) as [o Ho]. rewrite Ho in *. by simplify_eq.
Qed.
End auth.

(** * Witnesses *)

(** Alice's token lets Bob act for her until second 5000. *)
Definition auth_demo_token : bytes :=
  with_quotes "alice.{'iss':'did:key:alice','authorized_account':'bob','iat':10,'exp':5000}".

Definition auth_demo_fee : FeeTx := mkFeeTx [mkCoin "uopen" 30] 1000 (lit "bob") None.

Definition auth_demo_tx : Tx :=
  mkTx [mkMsg (lit "/vera.demo") (Some (lit "bob"))] (Some auth_demo_fee)
    (Some [JWSExtensionOption auth_demo_token]) (Some (inl [SingleSignatureData 1])).

Definition auth_demo_ctx : AnteCtx := mkAnteCtx (mkCtx (1000 * 10 ^ 9) 7 []) false [] [] 0.

(** Carol pays for Alice. *)
Definition auth_demo_op : did_op :=
  OpGrant (mkCtx 0 1 []) (lit "carol") (lit "did:key:alice") (ABasic (mkBasic [mkCoin "uopen" 100] None)).
Definition auth_demo_grants : FeegrantStore := (run_op auth_demo_op empty_store).2.

Definition auth_demo : AnteWorld := mkAnteWorld auth_demo_grants empty_core (fun _ _ => 50).

Lemma auth_demo_inv : did_inv auth_demo_grants.
Proof.
  assert (Hok : is_ok (run_op auth_demo_op empty_store).1 = true) by (vm_compute; reflexivity).
  destruct (is_ok_run _ _ Hok) as [[] Hrun].
  exact (run_op_inv auth_demo_op empty_store _ ltac:(split; unfold fits; simpl; lia) empty_did_inv Hrun).
Qed.

Lemma auth_demo_tokens : tokens_inv (core_of auth_demo).
Proof. exact (tokens_inv_empty None ∅ None). Qed.

Lemma auth_demo_fee_ok : fee_tx_ok auth_demo_fee.
Proof. split; [unfold fits; simpl; lia|discriminate]. Qed.

Lemma auth_demo_run : exists c s',
  NewAnteHandler auth_demo_ctx auth_demo_tx false auth_demo = (Ok c, s').
Proof.
  assert (Hok : is_ok (NewAnteHandler auth_demo_ctx auth_demo_tx false auth_demo).1 = true) by (vm_compute; reflexivity).
  destruct (is_ok_run _ _ Hok) as [c Hrun]. exact (ex_intro _ c (ex_intro _ _ Hrun)).
Qed.

Lemma ante_authenticates_witness :
  exists token b, verified token b /\ [JWSExtensionOption auth_demo_token] = [JWSExtensionOption token].
Proof.
  destruct auth_demo_run as (c & s' & Hrun).
  destruct (ante_authenticates auth_demo_ctx auth_demo_tx [JWSExtensionOption auth_demo_token] auth_demo c s'
    auth_demo_tokens eq_refl ltac:(discriminate) Hrun) as (token & b & Hx & Ha & _).
  exact (ex_intro _ token (ex_intro _ b (conj (proj1 Ha) Hx))).
Defined.

Lemma fee_paid_once_witness :
  exists c s' payer, NewAnteHandler auth_demo_ctx auth_demo_tx false auth_demo = (Ok c, s') /\
    fee_moved payer FeeCollectorName [mkCoin "uopen" 30] auth_demo s'.
Proof.
  destruct auth_demo_run as (c & s' & Hrun).
  destruct (fee_paid_once auth_demo_ctx auth_demo_tx auth_demo_fee FeeCollectorName false auth_demo c s')
    as (payer & _ & Hm); [reflexivity|exact auth_demo_fee_ok|reflexivity|discriminate|exact auth_demo_tokens|
    exact auth_demo_inv|exact Hrun|].
  exact (ex_intro _ c (ex_intro _ s' (ex_intro _ payer (conj Hrun Hm)))).
Defined.

(** The store after the token was used and then invalidated. *)
Definition auth_demo_next : AnteHandler AnteWorld := fun ctx _ _ => ret ctx.
Definition auth_demo_used : AnteWorld :=
  (ExtensionOptionsDecorator_AnteHandle true auth_demo_ctx auth_demo_tx false auth_demo_next auth_demo).2.
Definition auth_demo_invalid : AnteWorld :=
  (UpdateJWSTokenStatus (base_ctx auth_demo_ctx) (HashJWSToken auth_demo_token) STATUS_INVALID [] auth_demo_used).2.

Lemma blank_revives_token_witness :
  exists ctx1 s3, ExtensionOptionsDecorator_AnteHandle true auth_demo_ctx
    (with_token (lit " " ++ auth_demo_token) auth_demo_tx) false auth_demo_next auth_demo_invalid
  = (Ok ctx1, s3).
Proof.
  assert (Hok : is_ok (ExtensionOptionsDecorator_AnteHandle true auth_demo_ctx
    (with_token auth_demo_token auth_demo_tx) false auth_demo_next auth_demo).1 = true) by (vm_compute; reflexivity).
  destruct (is_ok_run _ _ Hok) as [c Hrun]. revert Hrun.
  generalize (ExtensionOptionsDecorator_AnteHandle true auth_demo_ctx (with_token auth_demo_token auth_demo_tx)
    false auth_demo_next auth_demo).2. intros s' Hrun.
  assert (Hinv : from_option (fun r => bool_decide (Status r = STATUS_INVALID)) false
    (tokens (core_of auth_demo_invalid) !! HashJWSToken auth_demo_token) = true) by (vm_compute; reflexivity).
  destruct (blank_revives_token auth_demo_ctx auth_demo_tx auth_demo_token (lit " ") auth_demo_next auth_demo c
    s' auth_demo_invalid) as [_ (ctx1 & s1 & s3 & _ & Hrev)].
  - apply (bool_decide_eq_true_1 _). vm_compute. reflexivity.
  - vm_compute. reflexivity.
  - exact Hrun.
  - vm_compute. reflexivity.
  - vm_compute. reflexivity.
  - unfold invalid_at. destruct (tokens _ !! _) as [r|]; [|discriminate].
    exists r. split; [reflexivity|]. exact (bool_decide_eq_true_1 _ Hinv).
  - vm_compute. reflexivity.
  - exists ctx1, s3. exact Hrev.
Defined.
