(* ===== verification/SubFrame.v ===== *)
(** The tier module as a client of the feegrant module.

    The keeper that the tier module is given (src/x/tier/types/expected_keepers.go,
    src/app/app.go) is the one of FeegrantKeeper.v, on the store inside the rest of
    the chain. Here is that connection, what every operation of the tier module does
    to the grants, and how far other keepers stay out of them. The theorems on
    subscriptions are in Subscribe.v. *)
From Stdlib Require Import Ascii ZArith Lia.
From stdpp Require Import base numbers list gmap strings.
From S2P Require Import Prelude Sdk Epochs FeeAllowance FeegrantKeys FeegrantKeeper FeegrantDID FeegrantPrune TierTypes TierCredit TierState TierKeeper TierModule TierWorld TierInv TierReach TierGranted.

(** * The connection *)

Section wiring.
Context `{CoinsOps, SdkKeys, AddressCodec}.
Context {W : Type} `{Lens W FeegrantStore}.

(** The three methods that the tier module calls. *)
#[export] Instance feegrantKeeper : FeegrantKeeper W := {|
  fk_GrantDIDAllowance := GrantDIDAllowance;
  fk_UpdateDIDAllowance _ := UpdateDIDAllowance;
  fk_ExpireDIDAllowance := ExpireDIDAllowance;
|}.

(** The grants, seen from the state with the stores of the tier module. *)
#[export] Instance tier_fg_lens : Lens (TierState W) FeegrantStore := {|
  lens_get s := lens_get (st_world s);
  lens_set t s := set_world (lens_set t (st_world s)) s;
|}.

#[export] Instance tier_fg_lens_laws `{!LensLaws W FeegrantStore} : LensLaws (TierState W) FeegrantStore.
Proof. split. intros t s. exact (lens_get_set t (st_world s)). Qed.
End wiring.

(** The other keepers that the tier module calls leave the grants alone. *)
Definition apart {W A} `{Lens W FeegrantStore} (m : M W A) : Prop :=
  forall t, preserves (fun w : W => (lens_get w : FeegrantStore) = t) m.

Class FeegrantApart (W : Type) `{Lens W FeegrantStore, BankKeeper W, StakingKeeper W, DistributionKeeper W} : Prop := {
  SendToAccount_apart : forall m a amt, apart (SendCoinsFromModuleToAccount m a amt);
  SendToModule_apart : forall a m amt, apart (SendCoinsFromAccountToModule a m amt);
  SendModules_apart : forall m1 m2 amt, apart (SendCoinsFromModuleToModule m1 m2 amt);
  DelegateCoins_apart : forall a m amt, apart (DelegateCoinsFromAccountToModule a m amt);
  UndelegateCoins_apart : forall m a amt, apart (UndelegateCoinsFromModuleToAccount m a amt);
  MintCoins_apart : forall m amt, apart (MintCoins m amt);
  BurnCoins_apart : forall m amt, apart (BurnCoins m amt);
  Delegate_apart : forall a amt st v b, apart (Delegate a amt st v b);
  ValidateUnbond_apart : forall d v amt, apart (ValidateUnbondAmount d v amt);
  Undelegate_apart : forall d v amt, apart (Undelegate d v amt);
  BeginRedelegation_apart : forall d v v' amt, apart (BeginRedelegation d v v' amt);
  SetUnbonding_apart : forall d v es, apart (SetUnbondingDelegation d v es);
  RemoveUnbonding_apart : forall d v, apart (RemoveUnbondingDelegation d v);
  Withdraw_apart : forall d v, apart (WithdrawDelegationRewards d v);
}.

Create HintDb apart.

#[export] Hint Resolve SendToAccount_apart SendToModule_apart SendModules_apart DelegateCoins_apart
  UndelegateCoins_apart MintCoins_apart BurnCoins_apart Delegate_apart ValidateUnbond_apart
  Undelegate_apart BeginRedelegation_apart SetUnbonding_apart RemoveUnbonding_apart Withdraw_apart : apart.

(** * Operations that leave the grants alone *)

Section frame.
Context `{LegacyDecOps, CoinsOps, SdkKeys, DecParser, AddressCodec, ValAddressCodec, MapRange}.
Context {W : Type} `{Lens W FeegrantStore, BankKeeper W, StakingKeeper W, EpochsKeeper W, DistributionKeeper W,
                     AcpKeeper W, !FeegrantApart W}.
Context (t : FeegrantStore).
Implicit Types (s : TierState W) (d v a did : bytes) (amt : Z) (ctx : Ctx).
Abbreviation TM := (M (TierState W)).

Definition grants_are s : Prop := (lens_get s : FeegrantStore) = t.
Abbreviation Q := grants_are.

Lemma apart_world {A} (m : M W A) : apart m -> preserves Q (on_world m).
Proof.
  intros Hm s Hs. specialize (Hm t (st_world s) Hs). unfold on_world, lift. simpl.
  by destruct (m (st_world s)) as [[a|e|] w].
Qed.

Lemma apart_from {A} (f : W -> A) : preserves Q (from_world f).
Proof. apply preserves_gets. Qed.

Lemma apart_of_sum {A} (r : A + error) : preserves Q (of_sum r).
Proof. destruct r; [apply preserves_ret|apply preserves_throw]. Qed.

Lemma apart_coins den amt : preserves Q (NewCoins1 den amt).
Proof. unfold NewCoins1. preserve. Qed.

Lemma apart_iterate {A V B} (items : list (bytes * V)) (parse : bytes -> outcome A)
    (cb : B -> A -> V -> TM B) acc :
  (forall b k x, preserves Q (cb b k x)) -> preserves Q (iterate items parse cb acc).
Proof. intros Hcb. unfold iterate. preserve. Qed.

#[local] Hint Resolve apart_from apart_of_sum apart_coins : preserves.

Ltac frame := repeat first
  [ solve [eauto 2 with preserves]
  | apply apart_world; solve [eauto 2 with apart]
  | apply apart_iterate; intros
  | preserve_step
  | solve [apply preserves_modify; intros; done] ].

Lemma apart_Lock ctx d v amt : preserves Q (Lock ctx d v amt).
Proof.
  unfold Lock, proratedCredit, mintCredit, AddLockup, GetTotalLockupsAmount, setTotalLockupsAmount,
    getTotalCreditAmount, setTotalCreditAmount, GetLockup, setLockup, GetParams, totalLockedAmountByAddr,
    totalInsuredAmountByAddr, mustIterateLockups, mustIterateInsuranceLockups. frame.
Qed.

#[local] Hint Resolve apart_Lock : preserves.

Lemma apart_choose_lock ctx a amt :
  preserves Q (v <- chooseValidator a ;; lock_or_invalid ctx a v amt).
Proof. unfold chooseValidator, lock_or_invalid, mustIterateLockups. frame. Qed.

#[local] Hint Resolve apart_choose_lock : preserves.

Lemma apart_addLockupForRegistration ctx a amt : preserves Q (addLockupForRegistration ctx a amt).
Proof. unfold addLockupForRegistration, getTotalDevGranted. frame. Qed.

Lemma apart_checkDeveloperCredits ctx : preserves Q (checkDeveloperCredits ctx).
Proof.
  unfold checkDeveloperCredits, mustIterateUserSubscriptions, checkDeveloper, autoLockDeveloperCredits,
    getTotalDevGranted, GetDeveloper. frame.
Qed.

Lemma apart_BeforeEpochStart ctx id n : preserves Q (BeforeEpochStart ctx id n).
Proof.
  pose proof (apart_checkDeveloperCredits ctx).
  unfold BeforeEpochStart, burnAllCredits, resetAllCredits, collectLocked, burnCallback, mintCredit,
    mustIterateLockups, setTotalCreditAmount, getInsuranceLockupAmount, GetParams. frame.
Qed.

Lemma apart_AfterEpochEnd ctx id n : preserves Q (AfterEpochEnd ctx id n).
Proof.
  unfold AfterEpochEnd, CompleteUnlocking, iterateUnlockingLockups, mustIterateUnlockingLockups,
    completeUnlockingEntry, removeUnlockingLockup. frame.
Qed.

Lemma apart_adjustLockups v rate cov : preserves Q (adjustLockups v rate cov).
Proof.
  unfold adjustLockups, mustIterateLockups, adjustLockup, GetLockup, GetTotalLockupsAmount,
    setTotalLockupsAmount, removeLockup, removeInsuranceLockup, setLockup, getInsuranceLockup,
    setInsuranceLockup. frame.
Qed.

#[local] Hint Resolve apart_adjustLockups : preserves.

Lemma apart_handleSlashEvent e : preserves Q (handleSlashEvent e).
Proof. unfold handleSlashEvent, handleDoubleSign, handleMissingSignature, tierStakeOf, Quo. frame. Qed.

Lemma apart_processRewards ctx : preserves Q (processRewards ctx).
Proof. unfold processRewards, processValidatorRewards, payInsurancePool, payDeveloperPool, burnRewards, GetParams. frame. Qed.

Lemma apart_LockAuto ctx d amt : preserves Q (LockAuto ctx d amt).
Proof.
  unfold LockAuto, selectValidatorFromExistingLockups, selectValidatorWithSmallestDelegation,
    mustIterateLockups. frame.
Qed.

Lemma apart_Unlock ctx d v amt : preserves Q (Unlock ctx d v amt).
Proof.
  unfold Unlock, subtractLockup, GetLockup, getInsuranceLockup, GetTotalLockupsAmount,
    setTotalLockupsAmount, removeLockup, setLockup, hasLockup, removeInsuranceLockup, GetParams,
    epochDuration, SetUnlockingLockup. frame.
Qed.

Lemma apart_Redelegate d src dst amt : preserves Q (Redelegate d src dst amt).
Proof.
  unfold Redelegate, subtractLockup, AddLockup, GetLockup, getInsuranceLockup, GetTotalLockupsAmount,
    setTotalLockupsAmount, removeLockup, setLockup, hasLockup, removeInsuranceLockup,
    getInsuranceLockupAmount, AddInsuranceLockup, setInsuranceLockup. frame.
Qed.

Lemma apart_CancelUnlocking ctx d v h amt : preserves Q (CancelUnlocking ctx d v h amt).
Proof.
  unfold CancelUnlocking, subtractUnlockingLockup, GetUnlockingLockup, removeUnlockingLockup,
    SetUnlockingLockup, AddLockup, GetTotalLockupsAmount, setTotalLockupsAmount, GetLockup, setLockup.
  frame. apply apart_world. case_bool_decide; eauto with apart.
Qed.

Lemma apart_developer a auto : preserves Q (CreateDeveloper a auto) /\ preserves Q (UpdateDeveloper a auto).
Proof. unfold CreateDeveloper, UpdateDeveloper, GetDeveloper, SetDeveloper. split; frame. Qed.

(** What the subscription messages do besides calling the feegrant keeper. *)
Lemma apart_actingDeveloper ctx a : preserves Q (actingDeveloper ctx a).
Proof. unfold actingDeveloper. frame. Qed.

Lemma apart_period period : preserves Q (subscriptionPeriod period).
Proof. unfold subscriptionPeriod, GetParams, epochDuration. cbv zeta. frame. Qed.

Lemma apart_validate a amt : preserves Q (validateDeveloperCredits a amt).
Proof. unfold validateDeveloperCredits, getTotalDevGranted. frame. Qed.

Lemma apart_lockAmountFor rates amt : preserves Q (lockAmountFor rates amt).
Proof. unfold lockAmountFor, effectiveRate. frame. Qed.

Lemma apart_updateGranted a delta add : preserves Q (updateDeveloperTotalGranted a delta add).
Proof. unfold updateDeveloperTotalGranted, getTotalDevGranted. frame. Qed.
End frame.

(** * What the subscription messages do to the grants *)

(** The key of a grant determines its granter and its DID, for the odd keys of an
    empty granter or DID too. *)
Lemma dkey_inj granter did granter' did' : fits granter -> fits did -> fits granter' -> fits did' ->
  dkey granter did = dkey granter' did' -> granter = granter' /\ did = did'.
Proof.
  intros Hg Hd Hg' Hd' Heq. assert (did = did') as <-.
  { apply (prefix_of_dkey did did' granter'); [done|done|]. rewrite <- Heq. by exists (prefixed granter). }
  split; [|done]. unfold dkey in Heq. injection Heq as Heq. apply app_inv_head in Heq.
  unfold prefixed in Heq. by injection Heq.
Qed.

Lemma dkey_fits `{SdkKeys} granter did granter' did' : fits granter' -> fits did' ->
  FeeAllowanceByDIDKey granter did = Ok (dkey granter' did') -> fits granter /\ fits did.
Proof.
  intros [Hg Hg'] [Hd Hd'] Hk. destruct (decide (granter = [])) as [->|Hgr], (decide (did = [])) as [->|Hdid].
  3: { unfold FeeAllowanceByDIDKey, FeeAllowancePrefixByDID in Hk. rewrite !MustLengthPrefix_spec in Hk.
    cbn [decide] in Hk. rewrite decide_False in Hk by done. destruct (decide (length granter <= 255)%nat); [|done].
    simpl in Hk. injection Hk as Hl Hk. assert (Hlen : length granter = length did').
    { apply (f_equal Z_of_byte) in Hl. rewrite !Z_of_byte_of_Z in Hl by lia. lia. }
    apply (f_equal length) in Hk. rewrite length_app in Hk. unfold prefixed in Hk. simpl in Hk. lia. }
  3: { destruct (FeeAllowanceByDIDKey_ok granter did _ Hgr Hdid Hk) as (? & ? & _). done. }
  - unfold FeeAllowanceByDIDKey, FeeAllowancePrefixByDID in Hk. rewrite !MustLengthPrefix_spec in Hk.
    simpl in Hk. discriminate Hk.
  - unfold FeeAllowanceByDIDKey, FeeAllowancePrefixByDID in Hk. rewrite !MustLengthPrefix_spec in Hk.
    cbn [decide] in Hk. rewrite (decide_False (P := did = [])) in Hk by done.
    destruct (decide (length did <= 255)%nat); [|done].
    simpl in Hk. injection Hk as Hl Hk. assert (Hlen : length did = length did').
    { apply (f_equal Z_of_byte) in Hl. rewrite !Z_of_byte_of_Z in Hl by lia. lia. }
    apply (f_equal length) in Hk. rewrite !length_app in Hk. unfold prefixed in Hk. simpl in Hk. lia.
Qed.

Section effects.
Context `{LegacyDecOps, CoinsOps, SdkKeys, DecParser, AddressCodec, ValAddressCodec, MapRange}.
Context {W : Type} `{Lens W FeegrantStore, !LensLaws W FeegrantStore, BankKeeper W, StakingKeeper W, EpochsKeeper W,
                     DistributionKeeper W, AcpKeeper W, !FeegrantApart W}.
Implicit Types (s : TierState W) (a b did granter : bytes) (amt : Z) (ctx : Ctx) (st : FeegrantStore).
Abbreviation TM := (M (TierState W)).
Abbreviation fg s := (lens_get s : FeegrantStore).

(** A run that leaves the grants alone. *)
Lemma apart_run {A} (m : TM A) s x s' : (forall t, preserves (grants_are t) m) -> m s = (Ok x, s') -> fg s' = fg s.
Proof. intros Hm Hr. exact (preserves_ok _ m s x s' (Hm (fg s)) eq_refl Hr). Qed.

(** The allowance after it was told to expire: at the stored end of its period, or
    now. *)
Definition set_to_expire ctx (x : Allowance) : option Allowance :=
  match x with
  | APeriodic p => Some (APeriodic (mkPeriodic (mkBasic (SpendLimit (Basic p)) (Some (PeriodReset p)))
                          (Period p) (PeriodSpendLimit p) (PeriodCanSpend p) (PeriodReset p)))
  | ABasic x => Some (ABasic (mkBasic (SpendLimit x) (Some (block_time ctx))))
  | AAllowedMsg _ _ => None
  end.

Lemma getDIDGrant_fits granter did (w : W) g w' : did_inv (lens_get w) ->
  getDIDGrant granter did w = (Ok g, w') -> fits granter /\ fits did.
Proof.
  intros Hi. unfold getDIDGrant, bind, of_outcome. destruct (FeeAllowanceByDIDKey granter did) as [k|e|] eqn:Ek; [|done|done].
  unfold fg_get, gets. destruct (did_grants (lens_get w) !! k) as [g0|] eqn:Eg; [|done]. intros _.
  destruct (did_entries _ Hi _ _ Eg) as (gr & Hgr & Hd & _ & -> & _). exact (dkey_fits _ _ gr _ Hgr Hd Ek).
Qed.

(** Telling a grant to expire replaces it, or does nothing. *)
Lemma ExpireDIDAllowance_run ctx granter did (w : W) : did_inv (lens_get w) ->
  match ExpireDIDAllowance ctx granter did w with
  | (Ok _, w') => fits granter /\ fits did /\ exists g x, did_grants (lens_get w) !! dkey granter did = Some g /\
      set_to_expire ctx (value_of g) = Some x /\ did_entry (dkey granter did) (stored_grant granter did x) /\
      (lens_get w' : FeegrantStore) = put_did (dkey granter did) (stored_grant granter did x) (lens_get w)
  | (Err _, w') => w' = w /\ (fits granter -> fits did -> forall g x,
      did_grants (lens_get w) !! dkey granter did = Some g -> set_to_expire ctx (value_of g) = Some x -> marshals x = false)
  | (Panic, _) => True
  end.
Proof.
  intros Hi. unfold ExpireDIDAllowance, GetDIDAllowance, bind at 1, bind at 1.
  destruct (getDIDGrant granter did w) as [[g0|e|] w0] eqn:Eg; [| |done].
  - destruct (getDIDGrant_fits _ _ _ _ _ Hi Eg) as [Hg Hd]. rewrite getDIDGrant_run in Eg by done.
    destruct (did_grants (lens_get w) !! dkey granter did) as [g|] eqn:El; [|done]. injection Eg as <- <-.
    change (of_outcome (GetDIDGrant (DIDGrant_UnpackInterfaces g)) w) with (Ok (value_of g), w). cbv beta iota.
    assert (Hu : forall x, set_to_expire ctx (value_of g) = Some x ->
      match UpdateDIDAllowance granter did x w with
      | (Ok _, w') => exists g' x, Some g = Some g' /\ set_to_expire ctx (value_of g') = Some x /\
          did_entry (dkey granter did) (stored_grant granter did x) /\
          (lens_get w' : FeegrantStore) = put_did (dkey granter did) (stored_grant granter did x) (lens_get w)
      | (Err _, w') => w' = w /\ marshals x = false
      | (Panic, _) => True
      end).
    { intros x Hx. destruct (UpdateDIDAllowance_run granter did x w Hg Hd Hi) as (o & w' & Hr & Ho). rewrite Hr.
      destruct o as [[]|e|]; [| |done].
      - destruct Ho as (_ & He & Hw). by exists g, x.
      - destruct Ho as [-> [Hn|[Hm|[e' He]]]]; [congruence|done|]. exfalso. unfold set_to_expire in Hx.
        by destruct (value_of g); simplify_eq. }
    destruct (value_of g) as [x|p|i l] eqn:Ev;
      [..|split; [done|]; intros _ _ g0 x [= <-]; by rewrite Ev]; erewrite bind_run_ok by done; cbn [set_to_expire] in Hu;
      specialize (Hu _ eq_refl); (destruct (UpdateDIDAllowance _ _ _ w) as [[[]|e|] w']; [| |done]);
      first [exact (conj Hg (conj Hd Hu))|destruct Hu as [-> Hm]; (split; [done|]); intros _ _ g0 y [= <-]; rewrite Ev;
        cbn [set_to_expire]; intros [= <-]; exact Hm].
  - revert Eg. unfold getDIDGrant, bind, of_outcome, fg_get, gets.
    destruct (FeeAllowanceByDIDKey granter did) as [k|e1|] eqn:Ek; [| |done].
    + destruct (did_grants _ !! k) eqn:El; [done|]. intros [= _ <-]. split; [done|]. intros Hg Hd g x.
      rewrite FeeAllowanceByDIDKey_fits in Ek by done. assert (k = dkey granter did) as -> by (unfold dkey; congruence). by rewrite El.
    + intros [= _ <-]. split; [done|]. intros Hg Hd. by rewrite FeeAllowanceByDIDKey_fits in Ek.
Qed.

(** Granting for a subscription stores the allowance, whether or not there was one. *)
Lemma grantPeriodic_ok ctx granter did limit period s s' : fits granter -> fits did -> did_inv (fg s) ->
  grantPeriodicDIDAllowance ctx granter did limit period s = (Ok tt, s') ->
  exists g, did_entry (dkey granter did) g /\ value_of g = newPeriodicAllowance ctx limit period /\
    fg s' = put_did (dkey granter did) g (fg s).
Proof.
  intros Hg Hd Hi. unfold grantPeriodicDIDAllowance. cbv zeta.
  set (x := newPeriodicAllowance ctx limit period). unfold bind, attempt, on_world, lift.
  cbn [fk_UpdateDIDAllowance fk_GrantDIDAllowance feegrantKeeper].
  change (lens_get (Lens := world_lens) s) with (st_world s).
  destruct (UpdateDIDAllowance_run granter did x (st_world s) Hg Hd Hi) as (o & w' & Hr & Ho). rewrite Hr.
  destruct o as [[]|e|]; [| |done]; intros Hrun.
  - unfold ret in Hrun. injection Hrun as <-. destruct Ho as (_ & He & Hw). by exists (stored_grant granter did x).
  - destruct Ho as [-> _].
    destruct (GrantDIDAllowance ctx granter did x (st_world s)) as [[[]|e1|] w1] eqn:Eg;
      cbv beta iota in Hrun; change (lens_get (Lens := world_lens) (lens_set (st_world s) s)) with (st_world s) in Hrun;
      rewrite Eg in Hrun; [|done|done]. injection Hrun as <-.
    apply GrantDIDAllowance_ok in Eg as (_ & g & He & Hv & _ & Hw); [|done|done]. by exists g.
Qed.
Context {HAL : AddressLaws W}.

Lemma addr20_fits a : addr20 a -> fits a.
Proof. unfold addr20, addressKeyLength, fits. lia. Qed.

Lemma acting_fits ctx a s b s1 : addr20 a -> actingDeveloper ctx a s = (Ok b, s1) -> fits b.
Proof. intros Ha Hb. apply addr20_fits. by eapply actingDeveloper_returns. Qed.

Lemma period_ok p s d s' : subscriptionPeriod p s = (Ok d, s') ->
  s' = s /\ (0 < p <= 9223372036 -> d = p * 1000000000).
Proof.
  unfold subscriptionPeriod. cbv zeta. intros Hr. split.
  - destruct (_ =? 0); [|unfold ret in Hr; by simplify_eq]. unfold GetParams, epochDuration in Hr.
    erewrite bind_run_ok in Hr by done. destruct (param_EpochDuration _); [|done]. unfold ret in Hr. by simplify_eq.
  - intros Hp. assert (Hp1 : wrap64 p = p) by (apply wrap64_small, is_int64_spec; unfold int64_min, int64_max; lia).
    assert (Hp2 : wrap64 (p * 1000000000) = p * 1000000000)
      by (apply wrap64_small, is_int64_spec; unfold int64_min, int64_max; lia).
    rewrite Hp1, Hp2 in Hr. destruct (Z.eqb_spec (p * 1000000000) 0); [lia|]. unfold ret in Hr. by simplify_eq.
Qed.

(** The grant that a subscription of [amt] credits makes at the time of [ctx]. *)
Definition subscription_grant ctx b did amt (p : Z) (g : DIDGrant) : Prop :=
  did_entry (dkey b did) g /\ exists d, (0 < p <= 9223372036 -> d = p * 1000000000) /\
  value_of g = newPeriodicAllowance ctx [mkCoin MicroCreditDenom amt] d.

(** The end of both messages: the coins, the period, the grant. *)
Lemma grant_for_subscription ctx b did amt p s s' : fits b -> fits did -> 0 < amt -> did_inv (fg s) ->
  (limit <- NewCoins1 MicroCreditDenom amt ;; d <- subscriptionPeriod p ;;
   grantPeriodicDIDAllowance ctx b did limit d) s = (Ok tt, s') ->
  exists g, subscription_grant ctx b did amt p g /\ fg s' = put_did (dkey b did) g (fg s).
Proof.
  intros Hb Hd Hamt Hi Hr. ok_inv Hr. unfold NewCoins1 in Hrun. destruct (Z.ltb_spec amt 0); [lia|].
  destruct (Z.eqb_spec amt 0); [lia|]. unfold ret in Hrun. injection Hrun as <- <-.
  ok_inv Hr. apply period_ok in Hrun as [-> Hp].
  apply grantPeriodic_ok in Hr as (g & He & Hv & Hs); [|done..]. exists g. split; [|done]. split; [done|]. by exists a.
Qed.

Lemma AddUserSubscription_grants ctx a did amt p s s' : addr20 a -> fits did -> 0 < amt -> did_inv (fg s) ->
  AddUserSubscription ctx a did amt p s = (Ok tt, s') ->
  exists b g, actingDeveloper ctx a s = (Ok b, s) /\ fits b /\ subscription_grant ctx b did amt p g /\
    fg s' = put_did (dkey b did) g (fg s).
Proof.
  intros Ha Hd Hamt Hi Hr. unfold AddUserSubscription in Hr. ok_inv Hr.
  destruct (actingDeveloper_ok _ _ _ _ _ Hrun) as [-> _]. pose proof (acting_fits _ _ _ _ _ Ha Hrun) as Hb.
  erewrite bind_run_ok in Hr by done. destruct (st_subscriptions s !! _); [done|].
  erewrite bind_run_ok in Hr by done. destruct (st_developers s !! _); [|done].
  apply bind_ok in Hr as (r & s1 & H1' & Hr). apply apart_run in H1'; [|eauto using preserves_attempt, apart_validate].
  apply bind_ok in Hr as ([] & s2 & H2' & Hr). apply apart_run in H2'.
  2: { intros t. unfold GetParams. preserve; first [apply apart_lockAmountFor|apply apart_addLockupForRegistration]. }
  assert (Hf : fg s2 = fg s) by (destruct r; congruence). clear H1' H2'.
  apply bind_ok in Hr as ([] & s3 & H3' & Hr). unfold SetUserSubscription, modify in H3'. injection H3' as H3'.
  assert (Hf3 : fg s3 = fg s) by (rewrite <- H3'; exact Hf). clear H3' Hf.
  apply bind_ok in Hr as (limit & s4 & H4' & Hr). apply bind_ok in Hr as (dur & s5 & H5' & Hr).
  apply bind_ok in Hr as ([] & s6 & H6' & Hr). apply bind_ok in Hr as (x & s7 & H7' & Hr).
  apply apart_run in H7'; [|eauto using preserves_attempt, apart_updateGranted].
  assert (Hs' : fg s' = fg s6) by (destruct x; [unfold ret in Hr; by simplify_eq|done]).
  destruct (grant_for_subscription ctx a0 did amt p s3 s6) as (g & Hg & Hs6); [done..|by rewrite Hf3| |].
  { erewrite bind_run_ok by exact H4'. erewrite bind_run_ok by exact H5'. exact H6'. }
  exists a0, g. split_and!; [done..|]. by rewrite Hs', Hs6, Hf3.
Qed.

Lemma UpdateUserSubscription_grants ctx a did amt p s s' : addr20 a -> fits did -> 0 < amt -> did_inv (fg s) ->
  UpdateUserSubscription ctx a did amt p s = (Ok tt, s') ->
  exists b g, actingDeveloper ctx a s = (Ok b, s) /\ fits b /\ subscription_grant ctx b did amt p g /\
    fg s' = put_did (dkey b did) g (fg s).
Proof.
  intros Ha Hd Hamt Hi Hr. unfold UpdateUserSubscription in Hr. ok_inv Hr.
  destruct (actingDeveloper_ok _ _ _ _ _ Hrun) as [-> _]. pose proof (acting_fits _ _ _ _ _ Ha Hrun) as Hb.
  erewrite bind_run_ok in Hr by done. destruct (st_subscriptions s !! _) as [u|]; [|done]. cbv zeta in Hr.
  apply bind_ok in Hr as ([] & s1 & H1' & Hr).
  assert (Hf1 : fg s1 = fg s).
  { revert H1'. apply apart_run. intros t. repeat case_match; auto using apart_updateGranted, preserves_ret. }
  erewrite bind_run_ok in Hr by done.
  apply grant_for_subscription in Hr as (g & Hg & Hs'); [|done..|cbn in *; by rewrite Hf1].
  exists a0, g. split_and!; [done..|]. rewrite Hs'. cbn in *. by rewrite Hf1.
Qed.

(** Ending a subscription tells its grant to expire. *)
Lemma RemoveUserSubscription_grants ctx a did s : did_inv (fg s) ->
  match RemoveUserSubscription ctx a did s with
  | (Ok _, s') => exists b, actingDeveloper ctx a s = (Ok b, s) /\
      (fg s' = fg s /\ (fits b -> fits did -> forall g x, did_grants (fg s) !! dkey b did = Some g ->
         set_to_expire ctx (value_of g) = Some x -> marshals x = false) \/ fits b /\ fits did /\ exists g x, did_grants (fg s) !! dkey b did = Some g /\
        set_to_expire ctx (value_of g) = Some x /\ did_entry (dkey b did) (stored_grant b did x) /\
        fg s' = put_did (dkey b did) (stored_grant b did x) (fg s))
  | (Err _, s') => s' = s
  | (Panic, _) => True
  end.
Proof.
  intros Hi. pose proof (RemoveUserSubscription_run ctx a did s) as Hrem.
  destruct (RemoveUserSubscription ctx a did s) as [[[]|e|] s'] eqn:Er; [|exact Hrem|done].
  destruct Hrem as (b & u & Hb & Hu & _). exists b. split; [done|].
  unfold RemoveUserSubscription in Er. erewrite bind_run_ok in Er by exact Hb. erewrite bind_run_ok in Er by done.
  rewrite Hu in Er. apply bind_ok in Er as ([] & s1 & H1' & Er). apply apart_run in H1'; [|eauto using apart_updateGranted].
  erewrite bind_run_ok in Er by done. apply bind_ok in Er as (x & s3 & H3' & Er). unfold ret in Er. injection Er as <-.
  unfold attempt, on_world, lift in H3'. cbn [fk_ExpireDIDAllowance feegrantKeeper] in H3'.
  set (s2 := set_subscriptions _ _) in H3'. change (lens_get (Lens := world_lens) s2) with (st_world s2) in H3'.
  assert (Hf2 : fg s2 = fg s) by exact H1'.
  assert (Hi2 : did_inv (lens_get (st_world s2))) by (change (did_inv (fg s2)); by rewrite Hf2).
  pose proof (ExpireDIDAllowance_run ctx b did (st_world s2) Hi2) as Hexp.
  destruct (ExpireDIDAllowance ctx b did (st_world s2)) as [[[]|e|] w']; [| |done]; injection H3' as <- <-.
  - right. change (lens_get (st_world s2) : FeegrantStore) with (fg s2) in Hexp. rewrite Hf2 in Hexp. exact Hexp.
  - left. change (lens_get (st_world s2) : FeegrantStore) with (fg s2) in Hexp. rewrite Hf2 in Hexp.
    destruct Hexp as [-> Hm]. split; [exact Hf2|exact Hm].
Qed.
End effects.
