(* ===== verification/Subscribe.v ===== *)
(** Subscriptions from the tier module to the fee: the grants of the feegrant module
    that a developer makes to its users, and what users can spend of them.

    [slot_step] says what may happen to the grant of one developer to one user, and
    every step of the chain is one of its steps: messages, blocks and hooks of the
    tier module, messages and prunes of the feegrant module, and fees taken by the
    ante handler. From it follow the limits on what a developer pays, and when a
    subscription that was removed stops to pay; with the ante handler it is shown
    that a subscription does pay. *)
From Stdlib Require Import Ascii ZArith Lia.
From stdpp Require Import base numbers list gmap strings.
From S2P Require Import Prelude Sdk Utils Epochs FeeAllowance FeegrantKeys FeegrantKeeper FeegrantDID FeegrantPrune TierTypes TierCredit TierState TierKeeper TierModule TierWorld TierInv TierReach TierGranted SubFrame.

Section subscribe.
Context `{LegacyDecOps, CoinsOps, SdkKeys, DecParser, AddressCodec, ValAddressCodec, MapRange}.
Context {W : Type} `{Lens W FeegrantStore, !LensLaws W FeegrantStore, BankKeeper W, StakingKeeper W, EpochsKeeper W,
                     DistributionKeeper W, AcpKeeper W, !FeegrantApart W} {HAL : AddressLaws W}.
Context `{HAK : AccountKeeper (TierState W)} {HAKL : AccountKeeperLaws (TierState W)}.
Implicit Types (s : TierState W) (g : DIDGrant) (ctx : Ctx) (o : option DIDGrant).
Abbreviation fg s := (lens_get s : FeegrantStore).

(** * Steps of the chain *)

(** A step of the tier module, or of the feegrant module and the ante handler that
    charges its grants. *)
Inductive chain_op : Type :=
  | ChTier (op : tier_op (W := W))
  | ChFeegrant (op : did_op).

Definition run_chain_op (op : chain_op) : M (TierState W) unit :=
  match op with ChTier op => run_tier_op op | ChFeegrant op => run_op op end.

(** * One developer and one user *)

Context (dev did : bytes) (Hdev : addr20 dev) (Hdid : fits did).

Definition ours (granter d : bytes) : bool := bool_decide (granter = dev /\ d = did).

(** Subscriptions are of positive amounts and for DIDs that fit a key, which the
    messages check; steps of other modules leave the grants alone; fees are valid
    coins. *)
Definition chain_op_ok (op : chain_op) s : Prop :=
  match op with
  | ChTier op => tier_op_typed op /\
      match op with
      | OpAddUserSubscription _ _ d amt _ | OpUpdateUserSubscription _ _ d amt _ => fits d /\ 0 < amt
      | OpWorld w => (lens_get w : FeegrantStore) = lens_get (st_world s)
      | _ => True
      end
  | ChFeegrant op => op_ok op /\
      match op with
      | OpUse _ _ _ fee _ | OpUseFirst _ _ fee _ => IsValid fee = true
      | _ => True
      end
  end.

(** What a step is to the two of them. *)
Inductive label : Type :=
  | Paid (ctx : Ctx) (fee : Coins) (msgs : list bytes)
  | Subscribed (ctx : Ctx) (amt period : Z)
  | Granted (a : Allowance)
  | Ending
  | Other.

(** The developer has the user on its list. *)
Definition listed s : bool := bool_decide (is_Some (st_subscriptions s !! UserSubscriptionKey dev did)).

Definition label_of (op : chain_op) s : label :=
  match op with
  | ChFeegrant (OpUse ctx granter d fee msgs) => if ours granter d then Paid ctx fee msgs else Other
  | ChFeegrant (OpUseFirst ctx d fee msgs) =>
      match UseFirstAvailableDIDGrant ctx d fee msgs s with
      | (Ok granter, _) => if ours granter d then Paid ctx fee msgs else Other
      | _ => Other
      end
  | ChTier (OpAddUserSubscription ctx a d amt p) | ChTier (OpUpdateUserSubscription ctx a d amt p) =>
      match actingDeveloper ctx a s with
      | (Ok b, _) => if ours b d then Subscribed ctx amt p else Other
      | _ => Other
      end
  | ChTier (OpRemoveUserSubscription _ _ _) | ChTier (OpRemoveDeveloper _ _) => if listed s then Ending else Other
  | ChFeegrant (OpGrant _ granter d a) | ChFeegrant (OpUpdate granter d a) => if ours granter d then Granted a else Other
  | ChFeegrant (OpExpire _ granter d) => if ours granter d then Ending else Other
  | _ => Other
  end.

(** The grant of the one to the other. *)
Definition slot s : option DIDGrant := did_grants (fg s) !! dkey dev did.

(** The grant stays or goes. *)
Definition stays_or_goes o o' : Prop := o' = o \/ o' = None.

(** Nothing is added: what is there afterwards was there before, with the same limits. *)
Definition no_more o o' : Prop :=
  forall g', o' = Some g' -> exists g, o = Some g /\
    (allowance_wf (value_of g) -> allowance_wf (value_of g')) /\
    forall d, limit_of d (value_of g') = limit_of d (value_of g).

Definition slot_step (l : label) o o' : Prop :=
  match l with
  | Paid ctx fee msgs => IsValid fee = true /\ exists g, o = Some g /\
      acc_err (Accept ctx fee msgs (value_of g)) = None /\ charged_to ctx fee msgs g o'
  | Subscribed ctx amt p => 0 < amt /\ exists g, o' = Some g /\ subscription_grant ctx dev did amt p g
  | Granted a => exists g, o' = Some g /\ value_of g = a
  | Ending => no_more o o'
  | Other => stays_or_goes o o'
  end.

Lemma stays o : stays_or_goes o o.
Proof. by left. Qed.

Lemma no_more_refl o : no_more o o.
Proof. intros g' ->. by exists g'. Qed.
Lemma no_more_trans o1 o2 o3 : no_more o1 o2 -> no_more o2 o3 -> no_more o1 o3.
Proof.
  intros H12 H23 g3 Hg3. destruct (H23 g3 Hg3) as (g2 & Hg2 & Hw & Hl). destruct (H12 g2 Hg2) as (g1 & Hg1 & Hw' & Hl').
  exists g1. split_and!; [done|auto|]. intros d. by rewrite Hl.
Qed.

Lemma fits_dev : fits dev.
Proof. by apply addr20_fits. Qed.

Lemma key_ours granter d : fits granter -> fits d -> ours granter d = false -> dkey dev did <> dkey granter d.
Proof.
  intros Hg Hd Ho Hk. apply dkey_inj in Hk as [<- <-]; [|apply fits_dev|done..]. unfold ours in Ho.
  by rewrite bool_decide_eq_true_2 in Ho.
Qed.
Lemma ours_true granter d : ours granter d = true -> granter = dev /\ d = did.
Proof. unfold ours. by intros ?%bool_decide_eq_true. Qed.

(** * Steps of the feegrant module *)

Lemma slot_put granter d g st : fits granter -> fits d ->
  did_grants (put_did (dkey granter d) g st) !! dkey dev did =
    if ours granter d then Some g else did_grants st !! dkey dev did.
Proof.
  intros Hg Hd. simpl. destruct (ours granter d) eqn:Eo.
  - apply ours_true in Eo as [-> ->]. apply lookup_insert_eq.
  - apply lookup_insert_ne. intros Hk. symmetry in Hk. revert Hk. by apply key_ours.
Qed.

Lemma slot_del granter d st : stays_or_goes (did_grants st !! dkey dev did) (did_grants (del_did (dkey granter d) st) !! dkey dev did).
Proof.
  unfold stays_or_goes. cbn [del_did did_grants]. destruct (decide (dkey granter d = dkey dev did)) as [->|Hne].
  - right. apply lookup_delete_eq.
  - left. by apply lookup_delete_ne.
Qed.

Lemma set_to_expire_no_more ctx g d granter x : set_to_expire ctx (value_of g) = Some x ->
  no_more (Some g) (Some (stored_grant granter d x)).
Proof.
  intros Hx g' [= <-]. exists g. split; [done|]. unfold set_to_expire in Hx.
  change (value_of (stored_grant granter d x)) with x. by destruct (value_of g); simplify_eq.
Qed.

(** A grant that expires is the user's, or not. *)
Lemma slot_expire ctx granter d g x st : fits granter -> fits d -> did_grants st !! dkey granter d = Some g ->
  set_to_expire ctx (value_of g) = Some x ->
  no_more (did_grants st !! dkey dev did) (did_grants (put_did (dkey granter d) (stored_grant granter d x) st) !! dkey dev did).
Proof.
  intros Hg Hd Hl Hx. rewrite slot_put by done. destruct (ours granter d) eqn:Eo; [|apply no_more_refl].
  apply ours_true in Eo as [-> ->]. rewrite Hl. by eapply set_to_expire_no_more.
Qed.

Lemma slot_swept now st st' : swept now st st' -> stays_or_goes (did_grants st !! dkey dev did) (did_grants st' !! dkey dev did).
Proof. intros Hs. destruct (Hs (dkey dev did)) as [->|[-> _]]; [by left|by right]. Qed.

(** A fee charged to a named grant. *)
Lemma UseGrantedFeesByDID_ok ctx granter d fee msgs s s' : fits granter -> fits d -> did_inv (fg s) ->
  UseGrantedFeesByDID ctx granter d fee msgs s = (Ok tt, s') ->
  exists g, did_grants (fg s) !! dkey granter d = Some g /\ acc_err (Accept ctx fee msgs (value_of g)) = None /\
    charged_to ctx fee msgs g (did_grants (fg s') !! dkey granter d) /\
    forall k, k <> dkey granter d -> did_grants (fg s') !! k = did_grants (fg s) !! k.
Proof.
  intros Hg Hd Hi. unfold UseGrantedFeesByDID, bind at 1. rewrite GetDIDAllowance_run by done.
  destruct (did_grants (fg s) !! dkey granter d) as [g|] eqn:El; [|done]. cbv zeta. unfold charged_to.
  destruct (acc_remove (Accept ctx fee msgs (value_of g))) eqn:Er.
  - destruct (revokeDIDAllowance_run granter d s Hg Hd Hi) as (s1 & Hr & Hs1). rewrite El in Hr, Hs1.
    erewrite attempt_run_ok by exact Hr. destruct (acc_err _) eqn:Ee; [done|]. unfold ret. intros [= <-].
    exists g. rewrite Hs1. split_and!; [done|done|rewrite Er; apply lookup_delete_eq|].
    intros k Hk. by apply lookup_delete_ne.
  - destruct (acc_err _) eqn:Ee; [done|]. intros Hr.
    destruct (UpdateDIDAllowance_run granter d (acc_state (Accept ctx fee msgs (value_of g))) s Hg Hd Hi) as (o & s1 & Hr' & Ho).
    rewrite Hr in Hr'. injection Hr' as <- <-. destruct Ho as (_ & He & Hs1). exists g. rewrite Hs1.
    split_and!; [done|done|rewrite Er|intros k Hk; by apply lookup_insert_ne].
    simpl. rewrite lookup_insert_eq. eexists. split_and!; [done|done| |].
    + destruct (did_entries _ Hi _ _ El) as (gr & Hgr & Hgd & Hn & Hk & _).
      apply dkey_inj in Hk as [<- _]; [|done..]. by rewrite Hn.
    + destruct (did_entries _ Hi _ _ El) as (gr & Hgr & Hgd & Hn & Hk & _).
      by apply dkey_inj in Hk as [_ <-].
Qed.

Lemma addr_step op s s' : preserves (did_maps (did_grants (fg s)) (did_queue (fg s))) (run_op (S := TierState W) op) ->
  run_op op s = (Ok tt, s') -> stays_or_goes (slot s) (slot s').
Proof.
  intros Hp Hrun. destruct (preserves_ok _ _ s tt s' Hp (conj eq_refl eq_refl) Hrun) as [Hg _]. unfold slot.
  rewrite Hg. apply stays.
Qed.

Lemma feegrant_step op s s' : chain_op_ok (ChFeegrant op) s -> did_inv (fg s) -> run_op op s = (Ok tt, s') ->
  slot_step (label_of (ChFeegrant op) s) (slot s) (slot s').
Proof.
  intros [Hok Hours] Hi Hrun. unfold slot.
  destruct op as [ctx gr d a|gr d a|gr d|ctx gr d|ctx gr d fee msgs|ctx d fee msgs
    |ctx limit|ctx gr ge a|gr ge|ctx gr ge fee msgs|ctx limit]; cbn [label_of]; simpl in Hok, Hrun.
  - destruct Hok as [Hg Hd]. apply GrantDIDAllowance_ok in Hrun as (_ & g & _ & Hv & _ & ->); [|done..].
    rewrite slot_put by done. destruct (ours gr d); [by exists g|apply stays].
  - destruct Hok as [Hg Hd]. destruct (UpdateDIDAllowance_run gr d a s Hg Hd Hi) as (o & s1 & Hr & Ho).
    rewrite Hrun in Hr. injection Hr as <- <-. destruct Ho as (_ & _ & ->).
    rewrite slot_put by done. destruct (ours gr d); [by eexists|apply stays].
  - destruct Hok as [Hg Hd]. destruct (revokeDIDAllowance_run gr d s Hg Hd Hi) as (s1 & Hr & Hs1).
    rewrite Hrun in Hr. injection Hr as _ <-. rewrite Hs1. destruct (did_grants (fg s) !! dkey gr d); [apply slot_del|apply stays].
  - pose proof (ExpireDIDAllowance_run ctx gr d s Hi) as He. rewrite Hrun in He.
    destruct He as (Hg & Hd & g & x & Hl & Hx & _ & ->). destruct (ours gr d) eqn:Eo; [by eapply slot_expire|].
    rewrite slot_put, Eo by done. apply stays.
  - destruct Hok as [Hg Hd]. apply UseGrantedFeesByDID_ok in Hrun as (g & Hl & He & Hc & Ho); [|done..].
    destruct (ours gr d) eqn:Eo.
    + apply ours_true in Eo as [-> ->]. split; [done|]. by exists g.
    + rewrite Ho by (by apply key_ours). apply stays.
  - ok_inv Hrun. unfold ret in Hrun. injection Hrun as <-.
    destruct (UseFirstAvailableDIDGrant_run ctx d fee msgs s Hok Hi) as (o & s1 & Hr & _ & Hf).
    rewrite Hrun0. rewrite Hrun0 in Hr. injection Hr as <- <-.
    destruct Hf as (pre & k & g & post & Hl & _ & [He _] & -> & Hc & st1 & Hsw & Ho).
    assert (Hin : (dkey a d, g) ∈ did_items d (did_grants (fg s))) by (rewrite Hl; set_solver).
    destruct (did_items_spec d (fg s) _ _ Hok Hi Hin) as (Hg & (gr & Hgr & _ & _ & Hk & _) & Hgd).
    rewrite Hgd in Hk. destruct (ours a d) eqn:Eo.
    + apply ours_true in Eo as [-> ->]. split; [done|]. by exists g.
    + assert (Hne : dkey dev did <> dkey a d).
      { rewrite Hk. intros Heq. apply dkey_inj in Heq as [-> ->]; [|apply fits_dev|done..].
        unfold dkey in Hk. injection Hk as Hk. apply app_inv_head in Hk. unfold prefixed in Hk. injection Hk as _ ->.
        unfold ours in Eo. by rewrite bool_decide_eq_true_2 in Eo. }
      rewrite Ho by done. by eapply slot_swept.
  - destruct Hok as [Ht Hl]. destruct (RemoveExpiredDIDAllowances_run ctx limit s Ht Hl Hi) as (s1 & Hr & _ & Hsw & _).
    rewrite Hr in Hrun. injection Hrun as <-. by eapply slot_swept.
  - exact (addr_step (OpAddrGrant ctx gr ge a) s s' (addr_op_frame _ _ (OpAddrGrant ctx gr ge a)) Hrun).
  - exact (addr_step (OpAddrRevoke gr ge) s s' (addr_op_frame _ _ (OpAddrRevoke gr ge)) Hrun).
  - exact (addr_step (OpAddrUse ctx gr ge fee msgs) s s' (addr_op_frame _ _ (OpAddrUse ctx gr ge fee msgs)) Hrun).
  - exact (addr_step (OpAddrPrune ctx limit) s s' (addr_op_frame _ _ (OpAddrPrune ctx limit)) Hrun).
Qed.

(** * Steps of the tier module *)

(** The steps that call the feegrant keeper, or replace the rest of the chain. *)
Definition calls_feegrant (op : tier_op (W := W)) : bool :=
  match op with
  | OpAddUserSubscription _ _ _ _ _ | OpUpdateUserSubscription _ _ _ _ _ | OpRemoveUserSubscription _ _ _
  | OpRemoveDeveloper _ _ | OpWorld _ => true
  | _ => false
  end.

Lemma apart_tier_op op t : calls_feegrant op = false -> preserves (grants_are t) (run_tier_op op).
Proof.
  destruct op; intros Hc; try discriminate Hc; simpl; unfold msg_UpdateParams, SetParams; preserve;
    first [apply apart_Lock|apply apart_LockAuto|apply apart_Unlock|apply apart_Redelegate|apply apart_CancelUnlocking
      |apply apart_developer|apply apart_handleSlashEvent|apply apart_processRewards
      |apply hook_preserves, apart_BeforeEpochStart|apply hook_preserves, apart_AfterEpochEnd
      |apply preserves_modify; done].
Qed.

(** A predicate on the grants that survives when one of them is told to expire. *)
Definition expire_closed (P : FeegrantStore -> Prop) : Prop :=
  forall ctx granter d g x st, fits granter -> fits d -> did_inv st -> P st -> did_grants st !! dkey granter d = Some g ->
    set_to_expire ctx (value_of g) = Some x -> P (put_did (dkey granter d) (stored_grant granter d x) st).

Lemma removal_keeps P ctx a d : expire_closed P ->
  preserves (fun s => did_inv (fg s) /\ P (fg s)) (RemoveUserSubscription ctx a d).
Proof.
  intros HP s [Hi Hs]. pose proof (RemoveUserSubscription_grants ctx a d s Hi) as Hr.
  destruct (RemoveUserSubscription ctx a d s) as [[[]|e|] s']; [|by rewrite Hr|done].
  destruct Hr as (b & _ & [[-> _]|(Hb & Hd & g & x & Hl & Hx & He & ->)]); [done|].
  split; [by apply put_did_inv|by eapply HP].
Qed.

Lemma developer_removal_keeps P ctx a : expire_closed P ->
  preserves (fun s => did_inv (fg s) /\ P (fg s)) (RemoveDeveloper ctx a).
Proof.
  intros HP. unfold RemoveDeveloper, GetDeveloper, removeDeveloper, mustIterateUserSubscriptionsForDeveloper, iterate.
  preserve; [by apply removal_keeps|apply preserves_modify; done].
Qed.

Lemma no_more_closed o : expire_closed (fun st => no_more o (did_grants st !! dkey dev did)).
Proof. intros ctx granter d g x st Hg Hd Hi Hs Hl Hx. eapply no_more_trans; [exact Hs|by eapply slot_expire]. Qed.

(** A user that is not on the list is not touched by removals. *)
Definition unlisted o s : Prop := did_inv (fg s) /\ listed s = false /\ slot s = o.

Lemma unlisted_removal ctx a d o : preserves (unlisted o) (RemoveUserSubscription ctx a d).
Proof.
  intros s (Hi & Hn & Hs). pose proof (RemoveUserSubscription_grants ctx a d s Hi) as Hg.
  pose proof (RemoveUserSubscription_run ctx a d s) as Hr.
  destruct (RemoveUserSubscription ctx a d s) as [[[]|e|] s']; [|by subst|done].
  destruct Hr as (b & u & Hb & Hu & Hs' & _), Hg as (b' & Hb' & Hg). rewrite Hb in Hb'. injection Hb' as <-.
  assert (Hl' : listed s' = false).
  { unfold listed in *. apply bool_decide_eq_false in Hn. apply bool_decide_eq_false. rewrite Hs'.
    intros [x [_ Hx]%lookup_delete_Some]. by apply Hn. }
  destruct Hg as [[Hfg _]|(Hfb & Hd & g & x & Hl & Hx & He & Hfg)]; unfold unlisted, slot in *; rewrite Hfg; [done|].
  split_and!; [by apply put_did_inv|done|]. rewrite slot_put by done. destruct (ours b d) eqn:Eo; [|done].
  apply ours_true in Eo as [-> ->]. unfold listed in Hn. rewrite Hu in Hn. by rewrite bool_decide_eq_true_2 in Hn.
Qed.

Lemma unlisted_developer_removal ctx a o : preserves (unlisted o) (RemoveDeveloper ctx a).
Proof.
  unfold RemoveDeveloper, GetDeveloper, removeDeveloper, mustIterateUserSubscriptionsForDeveloper, iterate.
  preserve; [apply unlisted_removal|apply preserves_modify; done].
Qed.

(** Both messages that remove. *)
Lemma removed_step (m : M (TierState W) unit) s s' : did_inv (fg s) ->
  (forall P, expire_closed P -> preserves (fun s => did_inv (fg s) /\ P (fg s)) m) ->
  (forall o, preserves (unlisted o) m) -> m s = (Ok tt, s') ->
  did_inv (fg s') /\ slot_step (if listed s then Ending else Other) (slot s) (slot s').
Proof.
  intros Hi H1' H2' Hrun. destruct (listed s) eqn:El.
  - exact (preserves_ok _ _ s tt s' (H1' _ (no_more_closed (slot s))) (conj Hi (no_more_refl _)) Hrun).
  - destruct (preserves_ok _ _ s tt s' (H2' (slot s)) (conj Hi (conj El eq_refl)) Hrun) as (Hi' & _ & Hs'). split; [done|by left].
Qed.

(** Both messages that subscribe. *)
Lemma subscribed_step ctx a d amt p s s' : fits d -> 0 < amt -> did_inv (fg s) ->
  (exists b g, actingDeveloper ctx a s = (Ok b, s) /\ fits b /\ subscription_grant ctx b d amt p g /\
     fg s' = put_did (dkey b d) g (fg s)) ->
  did_inv (fg s') /\ slot_step (match actingDeveloper ctx a s with
      | (Ok b, _) => if ours b d then Subscribed ctx amt p else Other | _ => Other end) (slot s) (slot s').
Proof.
  intros Hd Hamt Hi (b & g & Hb & Hfb & Hg & Hs'). rewrite Hb. unfold slot. rewrite Hs', slot_put by done.
  split; [apply put_did_inv; [done|apply Hg]|]. destruct (ours b d) eqn:Eo; [|apply stays].
  apply ours_true in Eo as [-> ->]. split; [done|]. by exists g.
Qed.

Lemma tier_step op s s' : chain_op_ok (ChTier op) s -> did_inv (fg s) -> run_tier_op op s = (Ok tt, s') ->
  did_inv (fg s') /\ slot_step (label_of (ChTier op) s) (slot s) (slot s').
Proof.
  intros [Hok Hex] Hi Hrun. destruct (calls_feegrant op) eqn:Ec.
  - destruct op as [| | | | | | | |ctx a|ctx a d amt p|ctx a d amt p|ctx a d| | | | |w]; try discriminate Ec;
      simpl in Hok, Hrun.
    + apply (removed_step (RemoveDeveloper ctx a)); auto using developer_removal_keeps, unlisted_developer_removal.
    + destruct Hok as [Ha _], Hex as [Hd Hamt]. apply subscribed_step; [done..|]. by apply AddUserSubscription_grants.
    + destruct Hok as [Ha _], Hex as [Hd Hamt]. apply subscribed_step; [done..|]. by apply UpdateUserSubscription_grants.
    + apply (removed_step (RemoveUserSubscription ctx a d)); auto using removal_keeps, unlisted_removal.
    + unfold modify in Hrun. injection Hrun as <-. unfold slot. change (fg (set_world w s)) with (lens_get w : FeegrantStore).
      rewrite Hex. split; [exact Hi|apply stays].
  - pose proof (apart_run (run_tier_op op) s tt s' (fun t => apart_tier_op op t Ec) Hrun) as Hs'.
    rewrite Hs'. split; [done|]. unfold slot. rewrite Hs'. destruct op; try discriminate Ec; apply stays.
Qed.

Lemma chain_step op s s' : chain_op_ok op s -> did_inv (fg s) -> run_chain_op op s = (Ok tt, s') ->
  did_inv (fg s') /\ slot_step (label_of op s) (slot s) (slot s').
Proof.
  destruct op as [op|op]; intros Hok Hi Hrun; [by apply tier_step|].
  split; [eapply run_op_inv; [apply Hok|exact Hi|exact Hrun]|by apply feegrant_step].
Qed.

(** * Runs *)

(** A run, with the steps and the states they were taken in. *)
Inductive chain_run : TierState W -> list (TierState W * chain_op) -> TierState W -> Prop :=
  | chain_run_nil s : chain_run s [] s
  | chain_run_cons s op s1 h s' : chain_op_ok op s -> run_chain_op op s = (Ok tt, s1) ->
      chain_run s1 h s' -> chain_run s ((s, op) :: h) s'.

Lemma chain_run_step s op h s' : chain_op_ok op s -> is_ok (run_chain_op op s).1 = true ->
  chain_run (run_chain_op op s).2 h s' -> chain_run s ((s, op) :: h) s'.
Proof.
  intros Hok Hr. destruct (run_chain_op op s) as [[[]|e|] s1] eqn:E; [|done|done]. by apply chain_run_cons.
Qed.

Lemma chain_run_did_inv s h s' : did_inv (fg s) -> chain_run s h s' -> did_inv (fg s').
Proof. intros Hi Hr. induction Hr as [|s op s1 h s' Hok Hrun _ IH]; [done|]. apply IH. by eapply chain_step. Qed.

(** The fees in credits that the developer paid for the user. *)
Definition paid (h : list (TierState W * chain_op)) : Z :=
  Zsum ((fun x => match label_of x.2 x.1 with Paid _ fee _ => coins_amount MicroCreditDenom fee | _ => 0 end) <$> h).

(** The credits that were promised: the amounts subscribed, and the limits of the
    allowances that the developer granted by messages of the feegrant module. *)
Definition promised (h : list (TierState W * chain_op)) : Z :=
  Zsum ((fun x => match label_of x.2 x.1 with
    | Subscribed _ amt _ => amt | Granted a => default 0 (limit_of MicroCreditDenom a) | _ => 0 end) <$> h).

(** What is left of the grant. *)
Definition credits_left o : Z :=
  match o with Some g => default 0 (limit_of MicroCreditDenom (value_of g)) | None => 0 end.

(** The grant has a limit, as those of subscriptions have. *)
Definition limited o : Prop :=
  forall g, o = Some g -> allowance_wf (value_of g) /\ is_Some (limit_of MicroCreditDenom (value_of g)).

(** So has every allowance that the developer grants to the user directly. *)
Definition grants_limited (x : TierState W * chain_op) : Prop :=
  match label_of x.2 x.1 with
  | Granted a => allowance_wf a /\ is_Some (limit_of MicroCreditDenom a)
  | _ => True
  end.

Context (Hcredits : forall amt, 0 < amt -> IsValid [mkCoin MicroCreditDenom amt] = true).

Lemma slot_step_limits l o o' : slot_step l o o' -> limited o ->
  match l with Granted a => allowance_wf a /\ is_Some (limit_of MicroCreditDenom a) | _ => True end ->
  limited o' /\ match l with Paid _ fee _ => coins_amount MicroCreditDenom fee | _ => 0 end + credits_left o' <=
    credits_left o + match l with
      | Subscribed _ amt _ => amt | Granted a => default 0 (limit_of MicroCreditDenom a) | _ => 0 end.
Proof.
  intros Hst Hlim Hgr.
  assert (Hnn : 0 <= credits_left o).
  { destruct o as [g|]; [|done]. destruct (Hlim g eq_refl) as [Hw [L HL]]. simpl. rewrite HL. simpl. by eapply limit_nonneg. }
  destruct l as [ctx fee msgs|ctx amt p|a| |].
  - destruct Hst as (Hv & g & -> & He & Hc). destruct (Hlim g eq_refl) as [Hw [L HL]]. simpl. rewrite HL. simpl.
    destruct (accept_charged ctx fee msgs (value_of g) Hw Hv He) as [[(Hn & _)|(r & Hb & Ha & _)] Hw'];
      [by rewrite Hn in HL|]. destruct (Hb MicroCreditDenom) as [Hbd Hr]. rewrite Hbd in HL. injection HL as <-.
    unfold charged_to in Hc. destruct (acc_remove _) eqn:Er.
    + subst o'. split; [done|]. simpl. lia.
    + destruct Hc as (g' & -> & Hval & _). specialize (Ha eq_refl MicroCreditDenom). rewrite <- Hval in Ha.
      simpl. rewrite Ha. simpl. split; [|lia]. intros g1 [= <-]. rewrite Hval. split; [by apply Hw'|].
      rewrite <- Hval, Ha. by eexists.
  - destruct Hst as (Hamt & g & -> & _ & d & _ & Hval). simpl. rewrite Hval.
    assert (HL : limit_of MicroCreditDenom (newPeriodicAllowance ctx [mkCoin MicroCreditDenom amt] d) = Some amt).
    { unfold newPeriodicAllowance, limit_of, basic_limit. simpl. f_equal. rewrite coins_amount_single. by rewrite decide_True. }
    rewrite HL. simpl. split; [|lia]. intros g1 [= <-]. rewrite Hval. split; [|by rewrite HL].
    unfold newPeriodicAllowance. simpl. unfold periodic_wf. simpl. by rewrite Hcredits.
  - destruct Hst as (g & -> & Hv). simpl. rewrite Hv. split; [|lia]. intros g1 [= <-]. by rewrite Hv.
  - destruct o' as [g'|]; [|split; [done|simpl; lia]]. destruct (Hst g' eq_refl) as (g & -> & Hw & Hl). simpl.
    rewrite Hl. split; [|lia]. intros g1 [= <-]. destruct (Hlim g eq_refl) as [Hwg HL]. rewrite Hl. auto.
  - destruct Hst as [->| ->]; [split; [done|lia]|]. split; [done|simpl; lia].
Qed.

(** C9: whatever happens on the chain, the fees in credits that a developer pays for a
    user add up to no more than what was left of its grant at the start, the
    amounts subscribed since, and the limits of the allowances that the developer
    granted to the user by messages of the feegrant module. The grant at the start and
    these allowances have a limit in credits; those of subscriptions always do. *)
Theorem subscription_spending_bounded s h s' :
  did_inv (fg s) -> limited (slot s) -> chain_run s h s' -> Forall grants_limited h ->
  paid h + credits_left (slot s') <= credits_left (slot s) + promised h.
Proof.
  intros Hi Hl Hr. induction Hr as [s|s op s1 h s' Hok Hrun _ IH]; [unfold paid, promised; simpl; lia|].
  intros [Hgr Hgrs]%Forall_cons. destruct (chain_step op s s1 Hok Hi Hrun) as [Hi1 Hst].
  destruct (slot_step_limits _ _ _ Hst Hl Hgr) as [Hl1 Hle].
  specialize (IH Hi1 Hl1 Hgrs). unfold paid, promised in *. rewrite !fmap_cons, !Zsum_cons. cbn [fst snd]. lia.
Qed.

(** * The end of a subscription *)

Lemma tryResetPeriod_Basic t p : Basic (tryResetPeriod t p) = Basic p.
Proof. unfold tryResetPeriod. destruct (time_before _ _); [done|]. by destruct (SafeSub _ _). Qed.

(** An allowance that pays has not expired, and keeps its expiration. *)
Lemma accept_in_time ctx fee msgs : forall x, acc_err (Accept ctx fee msgs x) = None ->
  exists e, ExpiresAt x = inl e /\ expired e (block_time ctx) = false /\
    (acc_remove (Accept ctx fee msgs x) = false -> ExpiresAt (acc_state (Accept ctx fee msgs x)) = inl e).
Proof.
  fix IH 1. intros [b|p|inner l]; simpl.
  - unfold BasicAllowance_Accept. destruct (expired _ _) eqn:Hx; [done|]. intros He. exists (Expiration b).
    split_and!; [done|done|]. destruct (negb _); [|done]. by destruct (SafeSub _ _) as [? [|]].
  - unfold PeriodicAllowance_Accept. destruct (expired _ _) eqn:Hx; [done|]. intros He. exists (Expiration (Basic p)).
    split_and!; [done|done|]. pose proof (tryResetPeriod_Basic (block_time ctx) p) as Hb.
    revert He. destruct (SafeSub _ fee) as [? [|]]; [done|]. simpl. rewrite Hb. destruct (negb _); simpl; [|done].
    by destruct (SafeSub _ fee) as [? [|]].
  - destruct (allMsgTypesAllowed l msgs); simpl; [|done]. destruct inner as [i|]; [|done]. specialize (IH i).
    destruct (acc_err (Accept ctx fee msgs i)) eqn:Ee; simpl; [done|]. intros _. destruct (IH eq_refl) as (e & He & Hx & Hs).
    exists e. destruct (acc_remove (Accept ctx fee msgs i)); simpl; auto.
Qed.

(** The grant, if there is one, ends at [e]. *)
Definition ends_at (e : Time) o : Prop := forall g, o = Some g -> ExpiresAt (value_of g) = inl (Some e).

(** Neither a new subscription or grant nor another end. *)
Definition undisturbed (x : TierState W * chain_op) : Prop :=
  match label_of x.2 x.1 with Paid _ _ _ | Other => True | Subscribed _ _ _ | Granted _ | Ending => False end.

Lemma ends_at_step e op s o o' : slot_step (label_of op s) o o' -> undisturbed (s, op) -> ends_at e o ->
  ends_at e o' /\ forall ctx fee msgs, label_of op s = Paid ctx fee msgs -> block_time ctx <= e.
Proof.
  unfold undisturbed. cbn [fst snd]. intros Hst Hu He. destruct (label_of op s) as [ctx fee msgs|ctx amt p|a| |] eqn:El; [|done|done|done|].
  - destruct Hst as (_ & g & -> & Hacc & Hc). specialize (He g eq_refl).
    destruct (accept_in_time ctx fee msgs (value_of g) Hacc) as (e' & He' & Hx & Hs). rewrite He in He'. injection He' as <-.
    split; [|intros ctx' fee' msgs' [= <- _ _]; unfold expired, time_before in Hx; lia].
    intros g' ->. unfold charged_to in Hc. destruct (acc_remove _); [done|]. destruct Hc as (g1 & [= <-] & -> & _). by apply Hs.
  - split; [|done]. by destruct Hst as [->| ->].
Qed.

Lemma removal_sets_end ctx a s g p s1 : did_inv (fg s) -> actingDeveloper ctx a s = (Ok dev, s) ->
  slot s = Some g -> value_of g = APeriodic p -> RemoveUserSubscription ctx a did s = (Ok tt, s1) ->
  did_inv (fg s1) /\ ends_at (PeriodReset p) (slot s1).
Proof.
  intros Hi Hact Hg Hv Hrun. pose proof (RemoveUserSubscription_grants ctx a did s Hi) as Hr. rewrite Hrun in Hr.
  destruct Hr as (b & Hb & Hr). rewrite Hact in Hb. injection Hb as <-.
  destruct Hr as [[_ Hm]|(_ & _ & g0 & x & Hl & Hx & He & Hfg)].
  - pose proof (fun x => Hm fits_dev Hdid g x Hg) as Hm'. rewrite Hv in Hm'. specialize (Hm' _ eq_refl). clear Hm. rename Hm' into Hm.
    destruct (did_entries _ Hi _ _ Hg) as (_ & _ & _ & _ & _ & _ & Hmar). rewrite Hv in Hmar. simpl in Hmar, Hm.
    apply andb_true_iff in Hmar as [_ Hmar]. rewrite Hmar, andb_true_r in Hm. apply bool_decide_eq_false in Hm.
    apply bool_decide_eq_true in Hmar. done.
  - rewrite Hfg. split; [by apply put_did_inv|]. unfold slot in *. rewrite Hfg, slot_put by (apply fits_dev || done).
    unfold ours. rewrite bool_decide_eq_true_2 by done. rewrite Hg in Hl. injection Hl as <-. rewrite Hv in Hx.
    injection Hx as <-. by intros g' [= <-].
Qed.

(** C29: after its subscription is removed, a user is served until the end of the period
    that was stored with the grant, and never later: unless the developer subscribes
    the user again, grants it another allowance directly, or ends the grant once more,
    every fee that the grant pays is paid at a block time up to that end. The end
    only moves when the grant is used, so that it lies in the past if the
    subscription was idle for a period. *)
Theorem removed_subscription_ends ctx a s g p s1 h s' :
  did_inv (fg s) -> actingDeveloper ctx a s = (Ok dev, s) -> slot s = Some g -> value_of g = APeriodic p ->
  RemoveUserSubscription ctx a did s = (Ok tt, s1) -> chain_run s1 h s' -> Forall undisturbed h ->
  Forall (fun x => forall c fee msgs, label_of x.2 x.1 = Paid c fee msgs -> block_time c <= PeriodReset p) h.
Proof.
  intros Hi Hact Hg Hv Hrem Hr Hu. destruct (removal_sets_end _ _ _ _ _ _ Hi Hact Hg Hv Hrem) as [Hi1 He1].
  clear Hrem.
  induction Hr as [s1|s1 op s2 h s' Hok Hrun _ IH]; [constructor|].
  apply Forall_cons in Hu as [Hu1 Hu]. destruct (chain_step op s1 s2 Hok Hi1 Hrun) as [Hi2 Hst].
  destruct (ends_at_step _ _ _ _ _ Hst Hu1 He1) as [He2 Hpaid]. constructor; [exact Hpaid|by apply IH].
Qed.
End subscribe.

(** * A subscription pays *)

From S2P Require Import CoreKeeper Bearer Ante AnteFee.

(** The bank takes a fee that the payer has, and accounts are not in the fee grants. *)
Class FeeProgress (S : Type) `{Lens S FeegrantStore, FeeKeepers S} : Prop := {
  Send_progress : forall from m to d amt s, GetModuleAddress m = Some to -> 0 < amt <= Ante.balance from d s ->
    exists s', Ante.SendCoinsFromAccountToModule from m [mkCoin d amt] s = (Ok tt, s');
  GetAccount_fg : forall a (t : FeegrantStore) s, GetAccount a (lens_set t s) = GetAccount a s;
}.

Lemma attempt_ok {S A} (m : M S A) (s : S) x s1 : m s = (Ok x, s1) -> attempt m s = (Ok (inl x), s1).
Proof. intros Hm. unfold attempt. by rewrite Hm. Qed.

Section pay.
Context `{LegacyDecOps, CoinsOps, SdkKeys, DecParser, AddressCodec, ValAddressCodec, MapRange, Jose}.
Context {W : Type} `{Lens W FeegrantStore, !LensLaws W FeegrantStore, BankKeeper W, StakingKeeper W, EpochsKeeper W,
                     DistributionKeeper W, AcpKeeper W, !FeegrantApart W} {HAL : AddressLaws W}.
Context `{HAK : AccountKeeper (TierState W)} {HAKL : AccountKeeperLaws (TierState W)}.
Context `{Lens (TierState W) CoreStore, !LensLaws (TierState W) CoreStore, FeeKeepers (TierState W),
          !FeeKeepersLaws (TierState W), !FeeProgress (TierState W)}.
Context (Hcredits : forall amt, 0 < amt -> IsValid [mkCoin MicroCreditDenom amt] = true).
Implicit Types (s : TierState W) (g : DIDGrant) (ctx : Ctx).
Abbreviation fg s := (lens_get s : FeegrantStore).
Abbreviation credits f := [mkCoin MicroCreditDenom f].

(** In its first period the allowance of a subscription covers what was subscribed. *)
Lemma fresh_accepts ctx ctx' amt d f msgs : 0 < f <= amt -> block_time ctx' < time_add (block_time ctx) d ->
  let r := Accept ctx' (credits f) msgs (newPeriodicAllowance ctx (credits amt) d) in
  acc_err r = None /\ exists can rest, acc_state r =
    APeriodic (mkPeriodic (mkBasic rest None) d (credits amt) can (time_add (block_time ctx) d)).
Proof.
  intros Hf Ht. unfold newPeriodicAllowance. cbn [Accept]. unfold PeriodicAllowance_Accept. cbn [Basic Expiration expired].
  rewrite tryResetPeriod_before by exact Ht. cbn [PeriodCanSpend Basic SpendLimit].
  assert (Hneg : (SafeSub (credits amt) (credits f)).2 = false).
  { apply not_true_iff_false. rewrite SafeSub_neg by (apply Hcredits; lia). intros [d' Hd']. rewrite !coins_amount_single in Hd'.
    case_decide; lia. }
  destruct (SafeSub (credits amt) (credits f)) as [rest neg] eqn:Es. cbn [snd] in Hneg. subst neg. cbn [SpendLimit Basic].
  rewrite bool_decide_eq_false_2 by done. cbn [negb]. cbn. split; [done|]. by exists rest, rest.
Qed.

Lemma fresh_covers ctx ctx' dev did amt p g f msgs : subscription_grant ctx dev did amt p g ->
  0 < f <= amt -> 0 < p <= 9223372036 -> block_time ctx' < time_add (block_time ctx) (p * 1000000000) ->
  covers ctx' (credits f) msgs g.
Proof.
  intros (He & d & Hd & Hv) Hf Hp Ht. specialize (Hd Hp). subst d.
  destruct (fresh_accepts ctx ctx' amt _ f msgs Hf Ht) as (Herr & can & rest & Hst). unfold covers. rewrite Hv.
  split; [exact Herr|]. right. rewrite Hst. split; [|by eexists].
  destruct He as (_ & _ & _ & _ & _ & _ & Hm). rewrite Hv in Hm. cbn [marshals newPeriodicAllowance PeriodReset] in Hm |- *.
  by apply andb_true_iff in Hm as [_ ->].
Qed.

(** The only grant to the user that covers the fee is taken. *)
Lemma only_grant_used ctx' dev did fee msgs s g : fits dev -> fits did -> did_inv (fg s) ->
  did_grants (fg s) !! dkey dev did = Some g -> covers ctx' fee msgs g ->
  (forall granter g', granter <> dev -> did_grants (fg s) !! dkey granter did = Some g' -> ~ covers ctx' fee msgs g') ->
  exists s1, UseFirstAvailableDIDGrant ctx' did fee msgs s = (Ok dev, s1) /\
    charged_to ctx' fee msgs g (did_grants (fg s1) !! dkey dev did).
Proof.
  intros Hdev Hdid Hi Hg Hc Hothers.
  destruct (UseFirstAvailableDIDGrant_run ctx' did fee msgs s Hdid Hi) as (o & s1 & Hr & _ & Hf).
  assert (Hitem : (dkey dev did, g) ∈ did_items did (did_grants (fg s))).
  { apply elem_of_store_prefix_items. split; [|done]. unfold dkey. by exists (prefixed dev). }
  destruct o as [granter|e|]; [| |done].
  - destruct Hf as (pre & k & g1 & post & Hl & _ & Hcov & -> & Hch & _).
    assert (Hin : (dkey granter did, g1) ∈ did_items did (did_grants (fg s))) by (rewrite Hl; set_solver).
    apply elem_of_store_prefix_items in Hin as [_ Hin].
    destruct (decide (granter = dev)) as [->|Hne]; [|by destruct (Hothers _ _ Hne Hin)].
    rewrite Hg in Hin. injection Hin as <-. by exists s1.
  - destruct Hf as (_ & Hall & _). rewrite Forall_forall in Hall. by destruct (Hall _ Hitem).
Qed.

Lemma charged_left ctx ctx' dev did amt p g f msgs o : subscription_grant ctx dev did amt p g -> 0 < amt -> 0 < f ->
  covers ctx' (credits f) msgs g -> charged_to ctx' (credits f) msgs g o -> credits_left o = amt - f.
Proof.
  intros (_ & d & _ & Hv) Hamt Hf [Herr _] Hch.
  assert (Hw : allowance_wf (value_of g)).
  { rewrite Hv. unfold newPeriodicAllowance. simpl. unfold periodic_wf. simpl. by rewrite Hcredits. }
  assert (HL : limit_of MicroCreditDenom (value_of g) = Some amt).
  { rewrite Hv. unfold newPeriodicAllowance, limit_of, basic_limit. simpl. f_equal. rewrite coins_amount_single. by rewrite decide_True. }
  destruct (accept_charged ctx' (credits f) msgs (value_of g) Hw (Hcredits f Hf) Herr) as [[(Hn & _)|(r & Hb & Ha & Hz)] _];
    [by rewrite Hn in HL|]. destruct (Hb MicroCreditDenom) as [Hbd _]. rewrite HL in Hbd. injection Hbd as Hbd.
  rewrite coins_amount_single, decide_True in Hbd by done. unfold charged_to in Hch.
  destruct (acc_remove (Accept ctx' (credits f) msgs (value_of g))) eqn:Er.
  - subst o. simpl. pose proof (proj1 Hz eq_refl MicroCreditDenom). lia.
  - destruct Hch as (g' & -> & Hval & _). simpl. rewrite Hval, (Ha eq_refl MicroCreditDenom). simpl. lia.
Qed.

Lemma dkey_granter granter dev did : dkey granter did = dkey dev did -> granter = dev.
Proof. unfold dkey, prefixed. intros [= Hk]. apply app_inv_head in Hk. by injection Hk. Qed.

Lemma GetAccount_same ctx' did fee msgs a s x s1 : UseFirstAvailableDIDGrant ctx' did fee msgs s = (Ok x, s1) ->
  GetAccount a s1 = GetAccount a s.
Proof.
  apply (preserves_ok (fun s1 => GetAccount a s1 = GetAccount a s)); [|done].
  apply UseFirstAvailableDIDGrant_frame. intros t s2 _ Hs. by rewrite GetAccount_fg.
Qed.

(** A fee in credits that the developer's grant covers is taken from the developer. *)
Lemma fee_from_grant (ctx' : AnteCtx) tx feeTx dev did f collector s s1 : as_FeeTx tx = Some feeTx ->
  getTrustedRelayFeeGranterFromContext ctx' = [] -> getExtractedDIDFromContext ctx' = did -> fits did -> 0 < f ->
  GetModuleAddress FeeCollectorName = Some collector -> GetAccount dev s = Some dev ->
  f <= Ante.balance dev MicroCreditDenom s -> did_inv (fg s) ->
  UseFirstAvailableDIDGrant (base_ctx ctx') did (credits f) (msg_type <$> GetMsgs tx) s = (Ok dev, s1) ->
  exists s2, checkDeductFee (NewCustomDeductFeeDecorator true true None) ctx' tx (credits f) s = (Ok tt, s2) /\
    fee_moved dev collector (credits f) s s2 /\ fg s2 = fg s1.
Proof.
  intros Htx Hrel Hex Hfit Hf Hcol Hacc Hbal Hi Huse.
  assert (Hne : did <> []) by (intros ->; unfold fits in Hfit; simpl in Hfit; lia).
  destruct (try_did_grant (base_ctx ctx') did (credits f) (msg_type <$> GetMsgs tx) s (inl dev) s1 Hi) as ([_ Hb] & _);
    [exact (attempt_ok _ _ _ _ Huse)|done|].
  destruct (Send_progress dev FeeCollectorName collector MicroCreditDenom f s1 Hcol) as [s2 Hsend]; [rewrite Hb; lia|].
  exists s2. split; [|split].
  - unfold checkDeductFee. rewrite Htx, Hcol, bool_decide_eq_false_2 by done. erewrite bind_run_ok by done.
    cbn [cdfd_feegrantKeeper NewCustomDeductFeeDecorator]. unfold handleFeegrant. rewrite Hrel, Hex.
    rewrite (bool_decide_eq_true_2 ([] = [])) by done. rewrite (bool_decide_eq_false_2 (did = [])) by done. cbn [negb andb].
    erewrite bind_run_ok by (erewrite bind_run_ok by (exact (attempt_ok _ _ _ _ Huse)); reflexivity).
    erewrite bind_run_ok by done. rewrite (GetAccount_same _ _ _ _ _ _ _ _ Huse), Hacc. erewrite bind_run_ok by done.
    assert (Hz : IsZero (credits f) = false).
    { apply not_true_iff_false. rewrite IsZero_spec. intros Hz%Forall_cons. simpl in Hz. lia. }
    rewrite Hz. unfold when, deductFees. cbn [negb]. rewrite Hcredits by done. cbn [negb]. erewrite bind_run_ok by done.
    erewrite bind_run_ok by (exact (attempt_ok _ _ _ _ Hsend)). done.
  - intros x d. rewrite (Send_moves _ _ collector _ _ _ Hcol (Hcredits f Hf) Hsend), Hb. done.
  - by destruct (Send_frame _ _ _ _ _ Hsend).
Qed.

(** The node's own minimum for a fee in credits, which it asks for only before a block. *)
Definition meets_minimum (ctx' : AnteCtx) (gas f : Z) : Prop :=
  IsCheckTx ctx' = true -> exists price, AmountOf (MinGasPrices ctx') MicroCreditDenom = Ok (Some price) /\
    requiredAmount (if price =? 0 then DefaultMinGasPrice else price) gas MicroCreditDenom <= f.

Lemma minimum_checked (ctx' : AnteCtx) tx feeTx f s : as_FeeTx tx = Some feeTx -> GetFee feeTx = credits f ->
  meets_minimum ctx' (GetGas feeTx) f -> checkTxFeeWithMinGasPrices true ctx' tx s = (Ok (credits f, 0), s).
Proof.
  intros Htx Hfee Hmin. unfold checkTxFeeWithMinGasPrices. rewrite Htx, Hfee. destruct (IsCheckTx ctx') eqn:Ec; [|done].
  destruct (Hmin Ec) as (price & Hp & Hle). cbn [when coin_denom coin_amount]. rewrite bind_run, bind_run. unfold of_outcome.
  rewrite Hp. cbv zeta. rewrite (proj2 (Z.ltb_ge _ _) Hle). done.
Qed.

(** C17: a subscription does pay. A developer has subscribed a user for a period of at most
    9223372036 seconds, has the credits and an account; no other grant to the user covers the fee, and the transaction, which
    carries the user's DID and comes through no trusted relay, offers a fee in credits
    up to the subscribed amount that meets the node's minimum. Then, at any time of the
    first period, the fee step of the ante handler takes exactly this fee from the
    developer, keeps the rest of the amount for further fees, and hands the
    transaction on. *)
Theorem subscription_pays ctx a dev did amt p s s' (ctx' : AnteCtx) tx feeTx f collector next :
  addr20 a -> fits did -> 0 < amt -> did_inv (fg s) -> actingDeveloper ctx a s = (Ok dev, s) ->
  AddUserSubscription ctx a did amt p s = (Ok tt, s') \/ UpdateUserSubscription ctx a did amt p s = (Ok tt, s') ->
  (forall granter g', granter <> dev -> did_grants (fg s) !! dkey granter did = Some g' ->
     ~ covers (base_ctx ctx') (credits f) (msg_type <$> GetMsgs tx) g') ->
  0 < p <= 9223372036 -> block_time (base_ctx ctx') < time_add (block_time ctx) (p * 1000000000) ->
  as_FeeTx tx = Some feeTx -> GetFee feeTx = credits f -> GetGas feeTx <> 0 -> block_height (base_ctx ctx') <> 0 ->
  meets_minimum ctx' (GetGas feeTx) f ->
  getTrustedRelayFeeGranterFromContext ctx' = [] -> getExtractedDIDFromContext ctx' = did ->
  GetModuleAddress FeeCollectorName = Some collector -> GetAccount dev s' = Some dev ->
  0 < f <= amt -> f <= Ante.balance dev MicroCreditDenom s' ->
  exists s2, CustomDeductFeeDecorator_AnteHandle (NewCustomDeductFeeDecorator true true None) ctx' tx false next s'
      = next (with_priority 0 ctx') tx false s2 /\
    fee_moved dev collector (credits f) s' s2 /\ credits_left (slot dev did s2) = amt - f.
Proof.
  intros Ha Hd Hamt Hi Hact Hsub Hoth Hp Ht Htx Hfee Hgas Hh Hmin Hrel Hex Hcol Hacc Hf Hbal.
  assert (Hgr : exists g, fits dev /\ subscription_grant ctx dev did amt p g /\ fg s' = put_did (dkey dev did) g (fg s)).
  { destruct Hsub as [Hs|Hs]; [apply AddUserSubscription_grants in Hs as (b & g & Hb & Hfb & Hg & Hs)
      |apply UpdateUserSubscription_grants in Hs as (b & g & Hb & Hfb & Hg & Hs)]; try done;
      rewrite Hact in Hb; injection Hb as <-; by exists g. }
  destruct Hgr as (g & Hfd & Hg & Hs'). assert (Hi' : did_inv (fg s')) by (rewrite Hs'; apply put_did_inv; [done|apply Hg]).
  assert (Hc : covers (base_ctx ctx') (credits f) (msg_type <$> GetMsgs tx) g) by (by eapply fresh_covers).
  destruct (only_grant_used (base_ctx ctx') dev did (credits f) (msg_type <$> GetMsgs tx) s' g Hfd Hd Hi') as (s1 & Huse & Hch);
    [rewrite Hs'; apply lookup_insert_eq|done| |].
  { intros granter g' Hne. rewrite Hs'. cbn. rewrite lookup_insert_ne; [by apply Hoth|]. intros Hk. by apply Hne, (dkey_granter _ _ did). }
  destruct (fee_from_grant ctx' tx feeTx dev did f collector s' s1) as (s2 & Hrun & Hmv & Hfg); [done..|lia|done|done|lia|done|done|].
  exists s2. split_and!; [|done|unfold slot; rewrite Hfg; exact (charged_left ctx _ dev did amt p g f _ _ Hg Hamt (proj1 Hf) Hc Hch)].
  unfold CustomDeductFeeDecorator_AnteHandle. rewrite Htx. cbv zeta. rewrite (proj2 (Z.eqb_neq _ _) Hh), (proj2 (Z.eqb_neq _ _) Hgas).
  rewrite andb_false_r. cbn [negb]. erewrite bind_run_ok by done.
  erewrite bind_run_ok by (exact (minimum_checked ctx' tx feeTx f s' Htx Hfee Hmin)). cbn [fst snd]. by erewrite bind_run_ok by exact Hrun.
Qed.
End pay.
