(* ===== verification/SubWorld.v ===== *)
(** A concrete chain for subscriptions: that of TierWorld with the stores of the feegrant
    and core modules, and the theorems of Subscribe on it. *)
From Stdlib Require Import Ascii ZArith Lia.
From stdpp Require Import base numbers list gmap strings.
From S2P Require Import Prelude Sdk Utils Epochs FeeAllowance FeegrantKeys FeegrantKeeper FeegrantDID FeegrantPrune TierTypes TierCredit TierState TierKeeper TierModule TierWorld TierInv TierReach TierGranted SubFrame Subscribe CoreKeeper Bearer Ante AnteFee.

(** * Instances *)

Record FullWorld : Type := mkFullWorld { fw_base : World; fw_fg : FeegrantStore; fw_core : CoreStore }.

#[export] Instance fw_base_lens : Lens FullWorld World :=
  {| lens_get := fw_base; lens_set t w := mkFullWorld t (fw_fg w) (fw_core w) |}.
#[export] Instance fw_fg_lens : Lens FullWorld FeegrantStore :=
  {| lens_get := fw_fg; lens_set t w := mkFullWorld (fw_base w) t (fw_core w) |}.
#[export] Instance fw_fg_lens_laws : LensLaws FullWorld FeegrantStore.
Proof. by split. Qed.
#[export] Instance fw_core_lens : Lens (TierState FullWorld) CoreStore := {|
  lens_get s := fw_core (st_world s);
  lens_set t s := set_world (mkFullWorld (fw_base (st_world s)) (fw_fg (st_world s)) t) s;
|}.
#[export] Instance fw_core_lens_laws : LensLaws (TierState FullWorld) CoreStore.
Proof. by split. Qed.

Abbreviation inside m := (lift (T := World) m).

#[export] Instance fw_bank : BankKeeper FullWorld := {|
  GetBalance a d w := TierState.GetBalance a d (fw_base w);
  TierState.SendCoinsFromModuleToAccount m a cs := inside (TierState.SendCoinsFromModuleToAccount m a cs);
  TierState.SendCoinsFromAccountToModule a m cs := inside (TierState.SendCoinsFromAccountToModule a m cs);
  SendCoinsFromModuleToModule m1 m2 cs := inside (SendCoinsFromModuleToModule m1 m2 cs);
  DelegateCoinsFromAccountToModule a m cs := inside (DelegateCoinsFromAccountToModule a m cs);
  UndelegateCoinsFromModuleToAccount m a cs := inside (UndelegateCoinsFromModuleToAccount m a cs);
  MintCoins m cs := inside (MintCoins m cs);
  BurnCoins m cs := inside (BurnCoins m cs);
  NewModuleAddress := module_address;
|}.

#[export] Instance fw_staking : StakingKeeper FullWorld := {|
  GetValidator a w := GetValidator a (fw_base w);
  GetAllValidators w := GetAllValidators (fw_base w);
  IterateValidators w := IterateValidators (fw_base w);
  GetDelegation del val w := GetDelegation del val (fw_base w);
  IterateDelegations del w := IterateDelegations del (fw_base w);
  TokensFromSharesTruncated v shares := shares;
  Delegate a amt st v b := inside (Delegate a amt st v b);
  ValidateUnbondAmount d v amt := inside (ValidateUnbondAmount d v amt);
  Undelegate d v amt := inside (Undelegate d v amt);
  BeginRedelegation d v v' amt := inside (BeginRedelegation d v v' amt);
  GetUnbondingDelegation d v w := GetUnbondingDelegation d v (fw_base w);
  SetUnbondingDelegation d v es := inside (SetUnbondingDelegation d v es);
  RemoveUnbondingDelegation d v := inside (RemoveUnbondingDelegation d v);
|}.

#[export] Instance fw_distribution : DistributionKeeper FullWorld := {|
  WithdrawDelegationRewards d v := inside (WithdrawDelegationRewards d v);
|}.
#[export] Instance fw_epochs : EpochsKeeper FullWorld := {| ek_GetEpochInfo id w := ek_GetEpochInfo id (fw_base w) |}.
#[export] Instance fw_acp : AcpKeeper FullWorld := {| GetAddressFromDID did w := GetAddressFromDID did (fw_base w) |}.

Lemma inside_apart {A} (m : M World A) : apart (W := FullWorld) (inside m).
Proof. intros t w Hw. unfold lift. simpl. by destruct (m (fw_base w)) as [[]]. Qed.

#[export] Instance fw_apart : FeegrantApart FullWorld.
Proof. split; intros; apply inside_apart. Qed.

#[export] Instance fw_address_laws : AddressLaws FullWorld.
Proof.
  split.
  - intros w vs. exact (IterateValidators_addr (fw_base w) vs).
  - intros w vs. exact (GetAllValidators_addr (fw_base w) vs).
  - intros did w a. exact (GetAddressFromDID_addr did (fw_base w) a).
Qed.

#[export] Instance fw_accounts : AccountKeeper (TierState FullWorld) :=
  {| HasAccount _ _ := true; CreateAccount _ s := s; BlockedAddr _ := false |}.
#[export] Instance fw_accounts_laws : AccountKeeperLaws (TierState FullWorld).
Proof. by split. Qed.

Definition fee_module (m : bytes) : bytes := take 20 (m ++ lit "-module-account-address").

#[export] Instance fw_fees : FeeKeepers (TierState FullWorld) := {|
  GetModuleAddress m := Some (fee_module m);
  GetAccount a _ := Some a;
  SendCoinsFromAccountToModule a m cs := on_world (inside (transfer a (fee_module m) cs));
  AmountOf prices d := Ok (Some (price_of prices d));
  balance a d s := TierWorld.balance a d (fw_base (st_world s));
|}.

#[export] Instance fw_fees_laws : FeeKeepersLaws (TierState FullWorld).
Proof.
  split; try done.
  - intros a s b [= <-]. done.
  - intros from m to fees s s' [= <-] _. cbn. unfold on_world, lift. cbn.
    destruct (transfer from (fee_module m) fees (fw_base (st_world s))) as [[[]|e|] w'] eqn:E; [|done|done].
    intros [= <-] a d. cbn. exact (transfer_moves _ _ _ _ _ E a d).
  - intros from m fees s s'. cbn. unfold on_world, lift. cbn.
    destruct (transfer from (fee_module m) fees (fw_base (st_world s))) as [[[]|e|] w']; [|done|done]. by intros [= <-].
  - intros prices d o [= <-]. exists (price_of prices d). split; [done|apply price_of_spec].
Qed.

#[export] Instance fw_fee_progress : FeeProgress (TierState FullWorld).
Proof.
  split; [|done]. intros from m to d amt s [= <-] Hamt. cbn in *.
  destruct (transfer_progress from (fee_module m) d amt (fw_base (st_world s)) Hamt) as [w' Hw].
  unfold on_world, lift. cbn. rewrite Hw. by eexists.
Qed.

Lemma credits_valid amt : 0 < amt -> IsValid [mkCoin MicroCreditDenom amt] = true.
Proof.
  intros Ha. cbn. unfold coins_valid. rewrite !andb_true_iff, !bool_decide_eq_true. split_and!.
  - apply NoDup_singleton.
  - by repeat constructor.
  - by repeat constructor.
Qed.

(** * A run *)

(** Alice locks stake and becomes a developer; she subscribes a user, who pays a fee
    of 30 credits; she ends the subscription, and the user pays once more. *)
Abbreviation Full := (TierState FullWorld).
Definition user : bytes := lit "did:key:user".
Definition noon (seconds height : Z) : Ctx := mkCtx (day / 2 + seconds * 1000000000) height [].

Definition sub_start : Full :=
  let s0 := empty_tier (mkFullWorld demo_world (mkFeegrantStore ∅ ∅ ∅ ∅) empty_core) in
  let s1 := (run_tier_op (OpUpdateParams (lit "gov") (TierTypes.mkMsgUpdateParams (lit "gov") TierTypes.DefaultParams)) s0).2 in
  let s2 := (run_tier_op (OpLock (noon 0 10) alice val1 200) s1).2 in
  (run_tier_op (OpCreateDeveloper alice true) s2).2.

Definition subscribing : chain_op (W := FullWorld) := ChTier (OpAddUserSubscription (noon 0 11) alice user 50 3600).
Definition paying (seconds f : Z) : chain_op (W := FullWorld) :=
  ChFeegrant (OpUseFirst (noon seconds 12) user [mkCoin MicroCreditDenom f] []).
Definition ending : chain_op (W := FullWorld) := ChTier (OpRemoveUserSubscription (noon 20 13) alice user).

Definition after (op : chain_op (W := FullWorld)) (s : Full) : Full := (run_chain_op op s).2.
Definition with_sub : Full := after subscribing sub_start.
Definition with_fee : Full := after (paying 10 30) with_sub.
Definition with_end : Full := after ending with_fee.

Lemma start_fg : (lens_get sub_start : FeegrantStore) = mkFeegrantStore ∅ ∅ ∅ ∅.
Proof. vm_compute. reflexivity. Qed.

Lemma start_inv : did_inv (lens_get sub_start : FeegrantStore).
Proof. rewrite start_fg. exact empty_did_inv. Qed.

Lemma no_start_grants granter : did_grants (lens_get sub_start : FeegrantStore) !! dkey granter user = None.
Proof. rewrite start_fg. apply lookup_empty. Qed.

Lemma start_slot : slot alice user sub_start = None.
Proof. vm_compute. reflexivity. Qed.

Lemma user_fits : fits user.
Proof. unfold fits. cbn. lia. Qed.

Lemma start_run : chain_run sub_start [(sub_start, subscribing); (with_sub, paying 10 30)] with_fee.
Proof.
  apply chain_run_step; [split; [split; [reflexivity|lia]|split; [apply user_fits|lia]]|vm_compute; reflexivity|].
  apply chain_run_step; [split; [apply user_fits|vm_compute; reflexivity]|vm_compute; reflexivity|]. constructor.
Qed.

Lemma end_run : chain_run with_end [(with_end, paying 3600 5)] (after (paying 3600 5) with_end).
Proof.
  apply chain_run_step; [split; [apply user_fits|vm_compute; reflexivity]|vm_compute; reflexivity|]. constructor.
Qed.

Lemma start_grants_limited : Forall (grants_limited alice user) [(sub_start, subscribing); (with_sub, paying 10 30)].
Proof. constructor; [vm_compute; exact I|constructor; [vm_compute; exact I|constructor]]. Qed.

Lemma subscription_spending_bounded_witness :
  paid alice user [(sub_start, subscribing); (with_sub, paying 10 30)] = 30 /\
  promised alice user [(sub_start, subscribing); (with_sub, paying 10 30)] = 50 /\
  30 + credits_left (slot alice user with_fee) <= 0 + 50.
Proof.
  assert (Hp : paid alice user [(sub_start, subscribing); (with_sub, paying 10 30)] = 30) by (vm_compute; reflexivity).
  assert (Hs : promised alice user [(sub_start, subscribing); (with_sub, paying 10 30)] = 50) by (vm_compute; reflexivity).
  pose proof (subscription_spending_bounded alice user eq_refl user_fits credits_valid sub_start
    [(sub_start, subscribing); (with_sub, paying 10 30)] with_fee start_inv) as Hb.
  split; [exact Hp|split; [exact Hs|]]. rewrite Hp, Hs, start_slot in Hb.
  exact (Hb (fun g Hg => ltac:(discriminate Hg)) start_run start_grants_limited).
Defined.

(** What is evaluated about the end of the subscription. *)
Definition fee_grant : option PeriodicAllowance :=
  match slot alice user with_fee with
  | Some g => match value_of g with APeriodic p => Some p | _ => None end
  | None => None
  end.

Lemma fee_grant_reset : PeriodReset <$> fee_grant = Some (day / 2 + 3600 * 1000000000).
Proof. vm_compute. reflexivity. Qed.

Lemma fee_grant_there p : fee_grant = Some p -> exists g, slot alice user with_fee = Some g /\ value_of g = APeriodic p.
Proof.
  unfold fee_grant. destruct (slot alice user with_fee) as [g|]; [|done]. destruct (value_of g) eqn:E; [done| |done].
  intros [= ->]. by exists g.
Qed.

Lemma acting_self (c : Ctx) (s : Full) : extracted_did c = [] -> actingDeveloper c alice s = (Ok alice, s).
Proof. intros Hc. unfold actingDeveloper. by rewrite decide_True. Qed.

Lemma ran (m : M Full unit) (s : Full) : is_ok (m s).1 = true -> m s = (Ok tt, (m s).2).
Proof. by destruct (m s) as [[[]|e|] s']. Qed.

Lemma ending_ok : is_ok (RemoveUserSubscription (noon 20 13) alice user with_fee).1 = true.
Proof. vm_compute. reflexivity. Qed.

Lemma end_undisturbed : Forall (undisturbed alice user) [(with_end, paying 3600 5)].
Proof. constructor; [vm_compute; exact I|constructor]. Qed.

Lemma removed_subscription_ends_witness :
  Forall (fun x => forall c fee msgs, label_of alice user x.2 x.1 = Paid c fee msgs ->
    block_time c <= day / 2 + 3600 * 1000000000) [(with_end, paying 3600 5)].
Proof.
  pose proof fee_grant_reset as Hp. destruct fee_grant as [p|] eqn:Hf; [|discriminate Hp]. injection Hp as Hp.
  destruct (fee_grant_there p Hf) as (g & Hg & Hv). rewrite <- Hp.
  exact (removed_subscription_ends alice user eq_refl user_fits (noon 20 13) alice with_fee g p with_end
    [(with_end, paying 3600 5)] (after (paying 3600 5) with_end)
    (chain_run_did_inv alice user eq_refl user_fits _ _ _ start_inv start_run) (acting_self (noon 20 13) with_fee eq_refl)
    Hg Hv (ran _ _ ending_ok) end_run end_undisturbed).
Defined.

Definition user_tx (f : Z) : Tx := mkTx [] (Some (mkFeeTx [mkCoin MicroCreditDenom f] 100000 (lit "user") None)) None None.
Definition user_ctx : AnteCtx := mkAnteCtx (mkCtx (day / 2 + 10) 12 user) false [] [] 0.

Lemma subscribing_ok : is_ok (AddUserSubscription (noon 0 11) alice user 50 3600 sub_start).1 = true.
Proof. vm_compute. reflexivity. Qed.

Lemma collector_there : GetModuleAddress (S := Full) FeeCollectorName = Some (fee_module FeeCollectorName).
Proof. reflexivity. Qed.
Lemma account_there a (s : Full) : GetAccount a s = Some a.
Proof. reflexivity. Qed.

Lemma alice_can_pay : (30 <=? Ante.balance alice MicroCreditDenom with_sub) = true.
Proof. vm_compute. reflexivity. Qed.

Lemma user_minimum : meets_minimum user_ctx 100000 30.
Proof. intros [=]. Qed.

(** What follows in the chain of decorators lets the transaction pass. *)
Definition passes : AnteHandler Full := fun c _ _ => ret c.

Lemma subscription_pays_witness : exists s2,
  CustomDeductFeeDecorator_AnteHandle (NewCustomDeductFeeDecorator true true None) user_ctx (user_tx 30) false passes with_sub
    = (Ok (with_priority 0 user_ctx), s2) /\
  Ante.balance alice MicroCreditDenom s2 = Ante.balance alice MicroCreditDenom with_sub - 30 /\
  credits_left (slot alice user s2) = 20.
Proof.
  destruct (subscription_pays credits_valid (noon 0 11) alice alice user 50 3600 sub_start with_sub user_ctx (user_tx 30)
    (mkFeeTx [mkCoin MicroCreditDenom 30] 100000 (lit "user") None) 30 (fee_module FeeCollectorName) passes
    eq_refl user_fits eq_refl start_inv (acting_self (noon 0 11) sub_start eq_refl)
    (or_introl (ran _ _ subscribing_ok))
    (fun granter g' _ Hg => ltac:(rewrite no_start_grants in Hg; discriminate Hg))
    ltac:(lia) eq_refl eq_refl eq_refl ltac:(discriminate) ltac:(discriminate) user_minimum eq_refl eq_refl collector_there
    (account_there alice with_sub) ltac:(lia) (proj1 (Z.leb_le _ _) alice_can_pay))
    as (s2 & Hrun & Hmv & Hl).
  exists s2. split; [exact Hrun|]. split; [|exact Hl]. rewrite (Hmv alice MicroCreditDenom).
  rewrite coins_amount_single, decide_True by reflexivity. rewrite decide_True by reflexivity.
  rewrite decide_False by discriminate. lia.
Defined.
