(* ===== verification/Queries.v ===== *)
(** The queries of the modules feegrant, tier, epochs and core
    (src/x/feegrant/keeper/grpc_query.go, src/x/tier/keeper/grpc_query.go,
    src/x/epochs/keeper/grpc_query.go, src/x/core/keeper/query_params.go).

    A request is [None] where the code looks for a nil pointer. Pages come from the
    SDK's pagination, whose laws are in Sdk.v. The theorems say that the listings of
    one account or DID are exactly its records. *)
From Stdlib Require Import Ascii ZArith Lia.
From stdpp Require Import base numbers list gmap strings.
From S2P Require Import Prelude Sdk Epochs FeeAllowance FeegrantKeys FeegrantKeeper FeegrantDID FeegrantPrune TierTypes TierState TierKeeper TierModule TierWorld TierInv TierReach TierGranted Chain CoreKeeper.

(** [status.Error] with a code of google.golang.org/grpc/codes. *)
Definition status_Error (code : Z) : error := ErrReg "grpc" code.
Definition InvalidArgument : Z := 3.
Definition NotFound : Z := 5.
Definition Internal : Z := 13.

(** [if req == nil] *)
Definition not_nil {S A} (req : option A) : M S A := of_option req (status_Error InvalidArgument).

(** An error of the pagination is reported as internal. *)
Definition page {S A} (r : outcome A) : M S A := of_outcome (wrap_err (status_Error Internal) r).

(** * Fee grants *)

Record QueryAllowanceRequest : Type := mkQueryAllowance { qa_Granter : bytes; qa_Grantee : bytes }.
Record QueryDIDAllowanceRequest : Type := mkQueryDIDAllowance { qd_Granter : bytes; qd_GranteeDid : bytes }.

(** Requests for a page: of the grants to or by an address, or to a DID. *)
Record PagedRequest (R : Type) : Type := mkPaged { pr_Subject : bytes; pr_Pagination : R }.
Arguments mkPaged {R}.
Arguments pr_Subject {R}.
Arguments pr_Pagination {R}.

Section feegrant.
Context `{CoinsOps, SdkKeys, AddressCodec, Pagination}.
Context {S : Type} `{Lens S FeegrantStore}.

(** [errors.Is(err, sdkerrors.ErrNotFound)] *)
Definition allowanceQueryError (err : error) : error :=
  if bool_decide (err = FeeAllowance.ErrNotFound) then status_Error NotFound else status_Error Internal.

(** [codectypes.NewAnyWithValue] *)
Definition NewAnyWithValue (a : Allowance) : M S Any :=
  if marshals a then ret (mkAny a true) else throw (status_Error Internal).

Definition Allowance_query (req : option QueryAllowanceRequest) : M S Grant :=
  req <- not_nil req ;;
  granterAddr <- addressOf (qa_Granter req) ;;
  granteeAddr <- addressOf (qa_Grantee req) ;;
  r <- attempt (GetAllowance granterAddr granteeAddr) ;;
  match r with
  | inr err => throw (allowanceQueryError err)
  | inl feeAllowance =>
      feeAllowanceAny <- NewAnyWithValue feeAllowance ;;
      ret (mkGrant (qa_Granter req) (qa_Grantee req) feeAllowanceAny)
  end.

Definition Allowances_query (req : option (PagedRequest PageReq)) : M S (list Grant * PageRes) :=
  req <- not_nil req ;;
  granteeAddr <- addressOf (pr_Subject req) ;;
  prefix <- of_outcome (FeeAllowancePrefixByGrantee granteeAddr) ;;
  grantsStore <- fg_get (fun s => prefix_store prefix (grants s)) ;;
  letp (l, pageRes) <- page (Paginate grantsStore (pr_Pagination req)) ;;
  ret (Grant_UnpackInterfaces <$> l.*2, pageRes).

(** The key is parsed with its prefix put back. *)
Definition byGranter {V} (parse : bytes -> outcome (bytes * bytes)) (prefix granterAddr key : bytes) (_ : V) : outcome bool :=
  r ← parse (prefix ++ key); Ok (bool_decide (r.1 = granterAddr)).

Definition AllowancesByGranter_query (req : option (PagedRequest PageReq)) : M S (list Grant * PageRes) :=
  req <- not_nil req ;;
  granterAddr <- addressOf (pr_Subject req) ;;
  prefixStore <- fg_get (fun s => prefix_store FeeAllowanceKeyPrefix (grants s)) ;;
  letp (l, pageRes) <- page (FilteredPaginate prefixStore (pr_Pagination req)
    (byGranter ParseAddressesFromFeeAllowanceKey FeeAllowanceKeyPrefix granterAddr)) ;;
  ret (Grant_UnpackInterfaces <$> l.*2, pageRes).

Definition DIDAllowance_query (req : option QueryDIDAllowanceRequest) : M S Grant :=
  req <- not_nil req ;;
  granterAddr <- addressOf (qd_Granter req) ;;
  throw_if (bool_decide (qd_GranteeDid req = [])) (status_Error InvalidArgument) ;;;
  r <- attempt (GetDIDAllowance granterAddr (qd_GranteeDid req)) ;;
  match r with
  | inr err => throw (allowanceQueryError err)
  | inl feeAllowance =>
      feeAllowanceAny <- NewAnyWithValue feeAllowance ;;
      ret (mkGrant (qd_Granter req) (qd_GranteeDid req) feeAllowanceAny)
  end.

(** The grant that is shown for a grant to a DID. *)
Definition shown (didGrant : DIDGrant) : Grant :=
  mkGrant (DIDGranter didGrant) (GranteeDid didGrant) (unpackAny (DIDGrantAny didGrant)).

Definition DIDAllowances_query (req : option (PagedRequest PageReq)) : M S (list Grant * PageRes) :=
  req <- not_nil req ;;
  throw_if (bool_decide (pr_Subject req = [])) (status_Error InvalidArgument) ;;;
  prefix <- of_outcome (FeeAllowancePrefixByDID (pr_Subject req)) ;;
  grantsStore <- fg_get (fun s => prefix_store prefix (did_grants s)) ;;
  letp (l, pageRes) <- page (Paginate grantsStore (pr_Pagination req)) ;;
  ret (shown <$> l.*2, pageRes).

Definition DIDAllowancesByGranter_query (req : option (PagedRequest PageReq)) : M S (list Grant * PageRes) :=
  req <- not_nil req ;;
  granterAddr <- addressOf (pr_Subject req) ;;
  prefixStore <- fg_get (fun s => prefix_store DIDFeeAllowanceKeyPrefix (did_grants s)) ;;
  letp (l, pageRes) <- page (FilteredPaginate prefixStore (pr_Pagination req)
    (byGranter ParseGranterDIDFromFeeAllowanceKey DIDFeeAllowanceKeyPrefix granterAddr)) ;;
  ret (shown <$> l.*2, pageRes).
End feegrant.

(** * Tier *)

Record LockupRequest : Type := mkLockupRequest { lq_Delegator : bytes; lq_Validator : bytes }.
Record UnlockingLockupRequest : Type := mkUnlockingLockupRequest {
  uq_Delegator : bytes; uq_Validator : bytes; uq_CreationHeight : Z;
}.

Section tier.
Context `{AddressCodec, ValAddressCodec, Pagination}.
Context {W : Type}.
Abbreviation TM := (M (TierState W)).

(** An address that does not parse is an invalid argument. *)
Definition accArg (text : bytes) : TM bytes :=
  match StringToBytes text with inl a => ret a | inr _ => throw (status_Error InvalidArgument) end.
Definition valArg (text : bytes) : TM bytes :=
  match ValAddressFromBech32 text with inl a => ret a | inr _ => throw (status_Error InvalidArgument) end.

Definition TierParams_query (req : option unit) : TM TierTypes.Params := not_nil req ;;; TierState.GetParams.

Definition Lockup_query (req : option LockupRequest) : TM Lockup :=
  req <- not_nil req ;;
  delAddr <- accArg (lq_Delegator req) ;;
  valAddr <- valArg (lq_Validator req) ;;
  lockup <- GetLockup delAddr valAddr ;;
  of_option lockup (status_Error NotFound).

Definition UnlockingLockup_query (req : option UnlockingLockupRequest) : TM UnlockingLockup :=
  req <- not_nil req ;;
  delAddr <- accArg (uq_Delegator req) ;;
  valAddr <- valArg (uq_Validator req) ;;
  unlockingLockup <- GetUnlockingLockup delAddr valAddr (uq_CreationHeight req) ;;
  of_option unlockingLockup (status_Error NotFound).

(** The pages of the records under an address and a slash. *)
Definition getLockupsPaginated (delAddr : bytes) (req : PageReq) : TM (list Lockup * PageRes) :=
  store <- gets (fun s => prefix_store (delAddr ++ [keySeparator]) (st_lockups s)) ;;
  letp (l, pageRes) <- page (Paginate store req) ;; ret (l.*2, pageRes).

Definition getUnlockingLockupsPaginated (delAddr : bytes) (req : PageReq) : TM (list UnlockingLockup * PageRes) :=
  store <- gets (fun s => prefix_store (delAddr ++ [keySeparator]) (st_unlocking s)) ;;
  letp (l, pageRes) <- page (Paginate store req) ;; ret (l.*2, pageRes).

Definition getDevelopersPaginated (req : PageReq) : TM (list Developer * PageRes) :=
  store <- gets (fun s => store_items (st_developers s)) ;;
  letp (l, pageRes) <- page (Paginate store req) ;; ret (l.*2, pageRes).

Definition getUserSubscriptionsPaginated (developerAddr : bytes) (req : PageReq) : TM (list UserSubscription * PageRes) :=
  store <- gets (fun s => prefix_store (developerAddr ++ [keySeparator]) (st_subscriptions s)) ;;
  letp (l, pageRes) <- page (Paginate store req) ;; ret (l.*2, pageRes).

(** The handlers wrap every error once more as internal. *)
Definition internal {A} (m : TM A) : TM A :=
  r <- attempt m ;; match r with inl a => ret a | inr _ => throw (status_Error Internal) end.

Definition Lockups_query (req : option (PagedRequest PageReq)) : TM (list Lockup * PageRes) :=
  req <- not_nil req ;;
  delAddr <- accArg (pr_Subject req) ;;
  internal (getLockupsPaginated delAddr (pr_Pagination req)).

Definition UnlockingLockups_query (req : option (PagedRequest PageReq)) : TM (list UnlockingLockup * PageRes) :=
  req <- not_nil req ;;
  delAddr <- accArg (pr_Subject req) ;;
  internal (getUnlockingLockupsPaginated delAddr (pr_Pagination req)).

Definition Developers_query (req : option PageReq) : TM (list Developer * PageRes) :=
  req <- not_nil req ;; internal (getDevelopersPaginated req).

Definition Developer_query (req : option bytes) : TM Developer :=
  req <- not_nil req ;;
  address <- accArg req ;;
  developer <- GetDeveloper address ;;
  of_option developer (status_Error NotFound).

Definition UserSubscriptions_query (req : option (PagedRequest PageReq)) : TM (list UserSubscription * PageRes) :=
  req <- not_nil req ;;
  developerAddr <- accArg (pr_Subject req) ;;
  internal (getUserSubscriptionsPaginated developerAddr (pr_Pagination req)).
End tier.

(** * Epochs and core *)

Section others.
Context {S : Type} `{!Lens S EpochStore, !Lens S CoreStore}.

Definition EpochInfos_query : M S (list EpochInfo) := AllEpochInfos.

Definition CurrentEpoch_query (req : option bytes) : M S Z :=
  identifier <- not_nil req ;;
  throw_if (bool_decide (identifier = [])) (status_Error InvalidArgument) ;;;
  info <- GetEpochInfo identifier ;;
  throw_if (negb (bool_decide (Identifier info = identifier))) (ErrMsg "not available identifier") ;;;
  ret (CurrentEpoch info).

Definition CoreParams_query (req : option unit) : M S CoreKeeper.Params := not_nil req ;;; CoreKeeper.GetParams.
End others.

(** * Listings are exact *)

(** The values under a prefix are those of an owner, when the keys say so. *)
Lemma prefix_values_perm {V} (p : bytes) (m : gmap bytes V) (own : V -> Prop) `{forall v, Decision (own v)} :
  (forall k v, m !! k = Some v -> (p `prefix_of` k <-> own v)) ->
  (store_prefix_items p m).*2 ≡ₚ filter own (map_to_list m).*2.
Proof.
  intros Hown. unfold store_prefix_items. rewrite (store_items_perm m).
  assert (Hin : forall kv, kv ∈ map_to_list m -> p `prefix_of` kv.1 <-> own kv.2).
  { intros [k v] Hkv%elem_of_map_to_list. by apply Hown. }
  revert Hin. generalize (map_to_list m) as l. clear. intros l Hin.
  enough ((filter (fun kv => p `prefix_of` kv.1) l).*2 = filter own l.*2) as -> by done.
  induction l as [|kv l IH]; [done|].
  rewrite fmap_cons, !filter_cons. rewrite <- IH by (intros; apply Hin; by right).
  destruct (decide (own kv.2)) as [Ho|Ho].
  - rewrite decide_True by (apply Hin; [by left|done]). done.
  - rewrite decide_False; [done|]. intros Hp. apply Ho, Hin; [by left|done].
Qed.

(** What a query answers when it pages through some entries. *)
Definition listing {V A R} (show : V -> A) (r : outcome (list (bytes * V) * R)) : outcome (list A * R) :=
  match r with
  | Ok (l, res) => Ok (show <$> l.*2, res)
  | Err _ => Err (status_Error Internal)
  | Panic => Panic
  end.

(** The entries that a query pages through are the values of an owner. *)
Lemma paged_values {V} (p : bytes) (m : gmap bytes V) (own : V -> Prop) `{forall v, Decision (own v)} :
  (forall k v, m !! k = Some v -> (p `prefix_of` k <-> own v)) ->
  (prefix_store p m).*2 ≡ₚ filter own (map_to_list m).*2.
Proof. intros Hown. rewrite prefix_store_values. by apply prefix_values_perm. Qed.

Lemma page_show {S V A R} (show : V -> A) (r : outcome (list (bytes * V) * R)) (s : S) :
  (letp (l, res) <- page r ;; ret (show <$> l.*2, res)) s = (listing show r, s).
Proof. by destruct r as [[l res]|e|]. Qed.

Section tier_listings.
Context `{AddressCodec, ValAddressCodec, Pagination}.
Context {W : Type}.
Implicit Types (s : TierState W).

Lemma internal_listing {V A R} (show : V -> A) (r : outcome (list (bytes * V) * R)) (m : M (TierState W) (list A * R)) s :
  m s = (listing show r, s) -> internal m s = (listing show r, s).
Proof. intros Hm. unfold internal, attempt, bind. rewrite Hm. by destruct r as [[l res]|e|]. Qed.

Lemma gets_listing {V R} (store : TierState W -> list (bytes * V)) (r : list (bytes * V) -> outcome (list (bytes * V) * R)) s :
  (items <- gets store ;; letp (l, res) <- page (r items) ;; ret (l.*2, res)) s = (listing id (r (store s)), s).
Proof.
  rewrite <- page_show. erewrite bind_run_ok by done. destruct (r (store s)) as [[l res]|e|]; [|done|done].
  unfold page, of_outcome, bind. cbn. by rewrite list_fmap_id.
Qed.

Lemma own_prefix d d' (rest : bytes) : addr20 d -> addr20 d' ->
  (d ++ [keySeparator]) `prefix_of` (d' ++ [keySeparator] ++ rest) <-> d' = d.
Proof.
  intros Hd Hd'. split.
  - intros [x Hx]. rewrite <- app_assoc in Hx. symmetry in Hx. apply app_inj_1 in Hx as [-> _]; [done|].
    unfold addr20 in *. congruence.
  - intros ->. exists rest. by rewrite <- app_assoc.
Qed.

(** C34: in every consistent state, the listings of the tier module are exact: a query
    answers with the pages of exactly the lockups and the unlocking lockups of the
    delegator asked for, and of exactly the subscriptions of the developer; it fails
    only if the pagination does. *)
Theorem tier_listings_exact s text d pg :
  tier_inv s -> StringToBytes text = inl d -> addr20 d ->
  (exists items, items.*2 ≡ₚ filter (fun x => DelegatorAddress x = d) (map_to_list (st_lockups s)).*2 /\
     Lockups_query (Some (mkPaged text pg)) s = (listing id (Paginate items pg), s)) /\
  (exists items, items.*2 ≡ₚ filter (fun x => ul_DelegatorAddress x = d) (map_to_list (st_unlocking s)).*2 /\
     UnlockingLockups_query (Some (mkPaged text pg)) s = (listing id (Paginate items pg), s)) /\
  (exists items, items.*2 ≡ₚ filter (fun x => sub_Developer x = d) (map_to_list (st_subscriptions s)).*2 /\
     UserSubscriptions_query (Some (mkPaged text pg)) s = (listing id (Paginate items pg), s)).
Proof.
  intros Hi Ht Hd. unfold Lockups_query, UnlockingLockups_query, UserSubscriptions_query, accArg. cbn [not_nil of_option].
  split_and!; eexists (prefix_store (d ++ [keySeparator]) _); (split; [apply paged_values; intros k v Hk|
    rewrite bind_run; cbn [ret pr_Subject pr_Pagination]; rewrite Ht, bind_run; cbn [ret]; apply internal_listing;
    apply gets_listing]).
  - destruct (inv_lockups s Hi k v Hk) as [(H1' & H2' & ->) _]. unfold LockupKey. by rewrite own_prefix.
  - destruct (inv_unlocking s Hi k v Hk) as (H1' & _ & _ & ->). unfold UnlockingLockupKey. by rewrite own_prefix.
  - destruct (inv_subscriptions s Hi k v Hk) as (H1' & ->). unfold UserSubscriptionKey. by rewrite own_prefix.
Qed.
End tier_listings.

Section feegrant_listings.
Context `{CoinsOps, SdkKeys, AddressCodec, Pagination}.
Context {S : Type} `{Lens S FeegrantStore, !LensLaws S FeegrantStore}.
Implicit Types (s : S) (granter did : bytes).
Abbreviation fs s := (lens_get s : FeegrantStore).

Lemma addressOf_text granter s : fits granter -> addressOf (BytesToString granter) s = (Ok granter, s).
Proof. intros Hg. unfold addressOf. by rewrite StringToBytes_BytesToString. Qed.

Lemma fits_not_nil did : fits did -> did <> [].
Proof. intros Hd ->. unfold fits in Hd. simpl in Hd. lia. Qed.

Lemma DIDAllowance_query_run granter did s : fits granter -> fits did -> did_inv (fs s) ->
  DIDAllowance_query (Some (mkQueryDIDAllowance (BytesToString granter) did)) s =
    (match did_grants (fs s) !! dkey granter did with
     | Some g => Ok (mkGrant (BytesToString granter) did (mkAny (value_of g) true))
     | None => Err (status_Error NotFound)
     end, s).
Proof.
  intros Hg Hd Hi. unfold DIDAllowance_query. cbn [not_nil of_option]. erewrite bind_run_ok by done. cbn [qd_Granter qd_GranteeDid].
  erewrite bind_run_ok by (by apply addressOf_text). rewrite bool_decide_eq_false_2 by (by apply fits_not_nil).
  erewrite bind_run_ok by done. unfold attempt, bind at 1. rewrite GetDIDAllowance_run by done.
  destruct (did_grants (fs s) !! dkey granter did) as [g|] eqn:El.
  - destruct (did_entries _ Hi _ _ El) as (_ & _ & _ & _ & _ & _ & Hm). unfold NewAnyWithValue. by rewrite Hm.
  - unfold allowanceQueryError. by rewrite bool_decide_eq_true_2.
Qed.

(** The key under the prefix of a DID is that of a grant to it. *)
Lemma did_prefix_own did st k g : fits did -> did_inv st -> did_grants st !! k = Some g ->
  (byte_of_Z 2 :: prefixed did) `prefix_of` k <-> GranteeDid g = did.
Proof.
  intros Hd Hi Hk. destruct (did_entries _ Hi _ _ Hk) as (gr & Hgr & Hgd & _ & -> & _). split.
  - intros Hp. symmetry. by eapply prefix_of_dkey.
  - intros ->. unfold dkey. by exists (prefixed gr).
Qed.

Lemma parse_stored gr did : fits gr -> fits did ->
  ParseGranterDIDFromFeeAllowanceKey (DIDFeeAllowanceKeyPrefix ++ drop 1 (dkey gr did)) = Ok (gr, did).
Proof.
  intros Hg Hd. unfold dkey, DIDFeeAllowanceKeyPrefix. cbn [drop app].
  apply (parsePair_prefixed [_]); done.
Qed.

Lemma DIDAllowances_query_run did pg s : fits did ->
  DIDAllowances_query (Some (mkPaged did pg)) s =
    (listing shown (Paginate (prefix_store (byte_of_Z 2 :: prefixed did) (did_grants (fs s))) pg), s).
Proof.
  intros Hd. unfold DIDAllowances_query. cbn [not_nil of_option]. erewrite bind_run_ok by done. cbn [pr_Subject pr_Pagination].
  rewrite bool_decide_eq_false_2 by (by apply fits_not_nil). erewrite bind_run_ok by done.
  assert (Hpre : FeeAllowancePrefixByDID did = Ok (byte_of_Z 2 :: prefixed did))
    by (unfold FeeAllowancePrefixByDID; by rewrite MustLengthPrefix_fits).
  rewrite Hpre, bind_run. cbn [of_outcome]. erewrite bind_run_ok by reflexivity. apply page_show.
Qed.

Lemma DIDAllowancesByGranter_query_run granter pg s : fits granter ->
  DIDAllowancesByGranter_query (Some (mkPaged (BytesToString granter) pg)) s =
    (listing shown (FilteredPaginate (prefix_store DIDFeeAllowanceKeyPrefix (did_grants (fs s))) pg
       (byGranter ParseGranterDIDFromFeeAllowanceKey DIDFeeAllowanceKeyPrefix granter)), s).
Proof.
  intros Hg. unfold DIDAllowancesByGranter_query. cbn [not_nil of_option]. erewrite bind_run_ok by done.
  cbn [pr_Subject pr_Pagination]. erewrite bind_run_ok by (by apply addressOf_text). erewrite bind_run_ok by done. apply page_show.
Qed.

(** The filter on the keys selects the grants of the granter. *)
Lemma byGranter_exact granter s : fits granter -> did_inv (fs s) ->
  Forall (fun kv => byGranter ParseGranterDIDFromFeeAllowanceKey DIDFeeAllowanceKeyPrefix granter kv.1 kv.2 =
    Ok (bool_decide (DIDGranter kv.2 = BytesToString granter))) (prefix_store DIDFeeAllowanceKeyPrefix (did_grants (fs s))).
Proof.
  intros Hg Hi. apply Forall_forall. intros [k g] Hin. unfold prefix_store in Hin.
  apply list_elem_of_fmap in Hin as ([k0 g0] & [= -> ->] & [_ Hst]%elem_of_store_prefix_items).
  destruct (did_entries _ Hi _ _ Hst) as (gr & Hgr & Hgd & Hn & -> & _).
  cbn [fst snd]. unfold byGranter. change (length DIDFeeAllowanceKeyPrefix) with 1%nat. rewrite parse_stored by done.
  cbn [fst mbind outcome_bind]. rewrite Hn. apply (f_equal Ok). apply bool_decide_ext. split; [by intros ->|]. intros Heq.
  pose proof (StringToBytes_BytesToString gr Hgr) as H1'. rewrite Heq, StringToBytes_BytesToString in H1' by done. congruence.
Qed.

(** Every key of a grant to a DID starts with the byte of these grants. *)
Lemma did_grants_all s : did_inv (fs s) ->
  (prefix_store DIDFeeAllowanceKeyPrefix (did_grants (fs s))).*2 ≡ₚ (map_to_list (did_grants (fs s))).*2.
Proof.
  intros Hi. rewrite (paged_values _ _ (fun _ => True)).
  - enough (Hall : forall l : list DIDGrant, filter (fun _ => True) l = l) by (by rewrite Hall).
    intros l. induction l as [|g l IH]; [done|]. rewrite filter_cons_True by done. by rewrite IH.
  - intros k g Hk. destruct (did_entries _ Hi _ _ Hk) as (gr & _ & _ & _ & -> & _). split; [done|]. intros _.
    unfold dkey, DIDFeeAllowanceKeyPrefix. by eexists.
Qed.

(** Grants to DIDs are shown as they are. In every consistent state the query for
    one grant returns exactly the stored allowance, or that there is none; the listing
    for a DID pages through exactly the grants to it; and the listing for a granter
    pages through all grants with a filter that selects exactly the granter's. *)
Theorem did_listings_exact s granter did pg :
  did_inv (fs s) -> fits granter -> fits did ->
  DIDAllowance_query (Some (mkQueryDIDAllowance (BytesToString granter) did)) s =
    (match did_grants (fs s) !! dkey granter did with
     | Some g => Ok (mkGrant (BytesToString granter) did (mkAny (value_of g) true))
     | None => Err (status_Error NotFound)
     end, s) /\
  (exists items, items.*2 ≡ₚ filter (fun g => GranteeDid g = did) (map_to_list (did_grants (fs s))).*2 /\
     DIDAllowances_query (Some (mkPaged did pg)) s = (listing shown (Paginate items pg), s)) /\
  (exists items by_granter, items.*2 ≡ₚ (map_to_list (did_grants (fs s))).*2 /\
     Forall (fun kv => by_granter kv.1 kv.2 = Ok (bool_decide (DIDGranter kv.2 = BytesToString granter))) items /\
     DIDAllowancesByGranter_query (Some (mkPaged (BytesToString granter) pg)) s =
       (listing shown (FilteredPaginate items pg by_granter), s)).
Proof.
  intros Hi Hg Hd. split; [by apply DIDAllowance_query_run|]. split.
  - eexists. split; [|by apply DIDAllowances_query_run]. apply paged_values. intros k g Hk. by apply (did_prefix_own did (fs s)).
  - do 2 eexists. split_and!; [|by apply byGranter_exact|by apply DIDAllowancesByGranter_query_run]. by apply did_grants_all.
Qed.
End feegrant_listings.

Section epoch_query.
Context {S : Type} `{!Lens S EpochStore}.

(** The query for the current epoch answers for the timers that exist and for no
    other, if every timer is kept under its own identifier. *)
Theorem current_epoch_exact (s : S) identifier :
  (forall k e, (lens_get s : EpochStore) !! k = Some e -> k = epochKey (Identifier e)) -> identifier <> [] ->
  CurrentEpoch_query (Some identifier) s =
    (match (lens_get s : EpochStore) !! epochKey identifier with
     | Some e => Ok (CurrentEpoch e)
     | None => Err (ErrMsg "not available identifier")
     end, s).
Proof.
  intros Hk Hne. unfold CurrentEpoch_query. cbn [not_nil of_option]. erewrite bind_run_ok by done.
  rewrite bool_decide_eq_false_2 by done. erewrite bind_run_ok by done. unfold GetEpochInfo. erewrite bind_run_ok by done.
  destruct ((lens_get s : EpochStore) !! epochKey identifier) as [e|] eqn:E; cbn [default from_option id].
  - apply Hk in E. unfold epochKey in E. injection E as <-. by rewrite bool_decide_eq_true_2.
  - rewrite bool_decide_eq_false_2; [done|]. cbn. congruence.
Qed.
End epoch_query.

(** * Queries on concrete states *)

#[local] Abbreviation asked := (mkPaged (R := nat)).

Lemma tier_listings_exact_witness : exists items : list (bytes * Lockup),
  Lockups_query (Some (asked alice 10%nat)) (demo_after demo_ops) =
    (listing id (Paginate (Pagination := pagination_impl) items 10%nat), demo_after demo_ops) /\
  items.*2 = [mkLockup alice val1 200].
Proof.
  pose proof (tier_listings_exact (demo_after demo_ops) alice alice (10%nat : PageReq (Pagination := pagination_impl))
    (tier_reachable_inv _ demo_subscribed_reachable) eq_refl eq_refl) as ((items & Hp & Hq) & _).
  exists items. split; [exact Hq|]. clear Hq.
  assert (Hv : filter (fun x => DelegatorAddress x = alice) (map_to_list (st_lockups (demo_after demo_ops))).*2 =
    [mkLockup alice val1 200]) by (vm_compute; reflexivity).
  rewrite Hv in Hp. exact (proj1 (Permutation_singleton_r _ _) Hp).
Defined.

Definition carols : Grant := mkGrant (lit "carol") (lit "did:b") (mkAny lasting true).

Lemma did_listings_exact_witness :
  DIDAllowance_query (S := FeegrantStore) (Some (mkQueryDIDAllowance (lit "carol") (lit "did:b"))) two_grants = (Ok carols, two_grants) /\
  DIDAllowancesByGranter_query (S := FeegrantStore) (Some (asked (lit "carol") 10%nat)) two_grants = (Ok ([carols], tt), two_grants) /\
  exists items : list (bytes * DIDGrant), DIDAllowances_query (S := FeegrantStore) (Some (asked (lit "did:b") 10%nat)) two_grants =
    (listing shown (Paginate (Pagination := pagination_impl) items 10%nat), two_grants).
Proof.
  assert (Hc : fits (lit "carol")) by (unfold fits; cbn; lia).
  assert (Hd : fits (lit "did:b")) by (unfold fits; cbn; lia).
  pose proof (fun Hi => did_listings_exact (S := FeegrantStore) two_grants (lit "carol") (lit "did:b")
    (10%nat : PageReq (Pagination := pagination_impl)) Hi Hc Hd) as Hex.
  destruct (Hex two_grants_inv) as (H1 & (items & _ & H2) & _).
  split; [exact (eq_trans H1 ltac:(vm_compute; reflexivity))|]. split; [vm_compute; reflexivity|]. exists items. exact H2.
Defined.

Lemma current_epoch_exact_witness : CurrentEpoch_query (Some EpochIdentifier) demo_world = (Ok 1, demo_world).
Proof.
  rewrite (current_epoch_exact demo_world EpochIdentifier); [vm_compute; reflexivity| |discriminate].
  intros k e Hk. change (tier_epochs !! k = Some e) in Hk. unfold tier_epochs in Hk. apply lookup_singleton_Some in Hk as [<- <-]. reflexivity.
Defined.
