(* ===== verification/AcpTypes.v ===== *)
(** The data of the acp module (src/x/acp/types) and the libraries it is built on.

    Objects, relationships and policies belong to the acp_core library, whose
    engine evaluates the policies, and which keeps its records in the module's
    store; the module adds its own metadata to them. Timestamps and durations come
    from the protobuf library. Both are classes here. The rest is the module's
    own: block timestamps, commitments, amendment events, commands and their
    results, and the mapping of the library's records. *)
From Stdlib Require Import Ascii ZArith Lia.
From stdpp Require Import base numbers list gmap strings.
From S2P Require Import Prelude Sdk Sha256 Utils.

(** * acp_core's data *)

Record Object : Type := mkObject { Resource : bytes; ObjectId : bytes }.

#[global] Instance Object_eq_dec : EqDecision Object.
Proof. solve_decision. Defined.

Inductive Subject : Type :=
  | SubjectActor (id : bytes)
  | SubjectActorSet (object : Object) (relation : bytes)
  | SubjectAllActors
  | SubjectObject (object : Object).

Record Relationship : Type := mkRelationship {
  rel_Object : Object; rel_Relation : bytes; rel_Subject : Subject;
}.

Record Operation : Type := mkOperation { op_Object : Object; op_Permission : bytes }.

(** The module reads the id of a policy and passes the rest on. *)
Record Policy : Type := mkPolicy { Policy_Id : bytes; Policy_Content : bytes }.

(** Whom the engine acts for. *)
Inductive Principal : Type :=
  | RootPrincipal
  | DIDPrincipal (did : bytes).

(** [coretypes.RecordMetadata]: the creator, and the bytes that the caller of the
    engine supplied. *)
Record CoreMetadata : Type := mkCoreMetadata { Creator_Identifier : bytes; Supplied_Blob : bytes }.

Record CorePolicyRecord : Type := mkCorePolicyRecord {
  cp_Policy : Policy; cp_Metadata : CoreMetadata; cp_MarshalType : Z; cp_Definition : bytes;
}.

Record CoreRelationshipRecord : Type := mkCoreRelationshipRecord {
  cr_PolicyId : bytes; cr_Archived : bool; cr_Relationship : Relationship; cr_Metadata : CoreMetadata;
}.

(** * The protobuf library *)

Record ProtoTimestamp : Type := mkProtoTimestamp { ts_Seconds : Z; ts_Nanos : Z }.
Record ProtoDuration : Type := mkProtoDuration { dur_Seconds : Z; dur_Nanos : Z }.

(** The conversions check their arguments; timestamps hold the times of the years
    1 to 9999, and what was converted converts back. *)
Class ProtoTypes : Type := {
  TimestampProto : Time -> ProtoTimestamp + error;
  TimestampFromProto : ProtoTimestamp -> Time + error;
  TimestampString : ProtoTimestamp -> bytes;
  DurationProto : Z -> ProtoDuration;
  DurationFromProto : ProtoDuration -> Z + error;
  TimestampProto_range : forall t, time_in_range t -> exists p, TimestampProto t = inl p;
  TimestampProto_back : forall t p, TimestampProto t = inl p -> TimestampFromProto p = inl t;
  DurationProto_back : forall d, int64_min <= d <= int64_max -> DurationFromProto (DurationProto d) = inl d;
}.

(** * Time (time.pb.go, time.go) *)

Record Timestamp : Type := mkTimestamp {
  ProtoTs : ProtoTimestamp;
  BlockHeight : Z;
}.

(** The variants of a validity, and a message in which none is set. *)
Inductive Duration : Type :=
  | Duration_ProtoDuration (d : ProtoDuration)
  | Duration_BlockCount (blocks : Z)
  | Duration_unset.

(** What a handler reads from its context: the block, the transaction, and the
    principal that was injected for the engine. *)
Record AcpCtx : Type := mkAcpCtx {
  acp_ctx :> Ctx;
  TxBytes : bytes;
  principal : option Principal;
}.

Definition uint64 (z : Z) : Z := z mod 2 ^ 64.

Lemma uint64_small z : 0 <= z < 2 ^ 64 -> uint64 z = z.
Proof. intros Hz. unfold uint64. by apply Z.mod_small. Qed.

Section Time.
Context `{ProtoTypes}.

Definition NewBlockCountDuration (blocks : Z) : Duration := Duration_BlockCount blocks.
Definition NewDurationFromTimeDuration (duration : Z) : Duration :=
  Duration_ProtoDuration (DurationProto duration).

Definition NewTimestamp (time : ProtoTimestamp) (height : Z) : Timestamp := mkTimestamp time height.

Definition TimestampFromCtx (ctx : AcpCtx) : outcome Timestamp :=
  ts ← sum_outcome (TimestampProto (block_time ctx));
  Ok (NewTimestamp ts (uint64 (block_height ctx))).

(** Whether [now] is after [ts] plus the duration. A missing duration is a nil
    pointer, which the method dereferences. *)
Definition IsAfter (ts : Timestamp) (duration : option Duration) (now : Timestamp) : outcome bool :=
  match duration with
  | Some (Duration_BlockCount blocks) => Ok (uint64 (BlockHeight ts + blocks) <? BlockHeight now)
  | Some (Duration_ProtoDuration d) =>
      goTs ← sum_outcome (TimestampFromProto (ProtoTs ts));
      goNow ← sum_outcome (TimestampFromProto (ProtoTs now));
      goDuration ← sum_outcome (DurationFromProto d);
      Ok (time_after goNow (time_add goTs goDuration))
  | Some Duration_unset | None => Panic
  end.
End Time.

(** * Records (record.pb.go, commitment.pb.go, registration.pb.go) *)

Record RecordMetadata : Type := mkRecordMetadata {
  CreationTs : option Timestamp;
  TxHash : bytes;
  TxSigner : bytes;
  OwnerDid : bytes;
}.

Record PolicyRecord : Type := mkPolicyRecord {
  pr_Policy : Policy; pr_Metadata : RecordMetadata; pr_RawPolicy : bytes; pr_MarshalType : Z;
}.

Record RelationshipRecord : Type := mkRelationshipRecord {
  rr_PolicyId : bytes; rr_Relationship : Relationship; rr_Archived : bool; rr_Metadata : RecordMetadata;
}.

Record RegistrationProof : Type := mkRegistrationProof {
  pf_Object : option Object;
  MerkleProof : list bytes;
  LeafCount : Z;
  LeafIndex : Z;
}.

Record RegistrationsCommitment : Type := mkRegistrationsCommitment {
  cm_Id : Z;
  cm_PolicyId : bytes;
  Commitment : bytes;
  Expired : bool;
  Validity : option Duration;
  cm_Metadata : RecordMetadata;
}.

Record AmendmentEvent : Type := mkAmendmentEvent {
  ev_Id : Z;
  ev_PolicyId : bytes;
  ev_Object : Object;
  NewOwner : bytes;
  PreviousOwner : bytes;
  CommitmentId : Z;
  HijackFlag : bool;
  ev_Metadata : RecordMetadata;
}.

(** * Commands (policy_cmd.pb.go, policy_cmd.go) *)

Inductive PolicyCmd : Type :=
  | SetRelationshipCmd (relationship : Relationship)
  | DeleteRelationshipCmd (relationship : Relationship)
  | RegisterObjectCmd (object : Object)
  | ArchiveObjectCmd (object : Object)
  | CommitRegistrationsCmd (commitment : bytes)
  | RevealRegistrationCmd (commitmentId : Z) (proof : option RegistrationProof)
  | FlagHijackAttemptCmd (eventId : Z)
  | UnarchiveObjectCmd (object : Object)
  | PolicyCmd_unset.

Inductive PolicyCmdResult : Type :=
  | SetRelationshipResult (recordExisted : bool) (record : RelationshipRecord)
  | DeleteRelationshipResult (recordFound : bool)
  | RegisterObjectResult (record : RelationshipRecord)
  | ArchiveObjectResult (found : bool) (relationshipsRemoved : Z)
  | CommitRegistrationsResult (commitment : RegistrationsCommitment)
  | RevealRegistrationResult (record : RelationshipRecord) (event : option AmendmentEvent)
  | FlagHijackAttemptResult (event : AmendmentEvent)
  | UnarchiveObjectResult (record : RelationshipRecord) (relationshipModified : bool).

(** * Parameters and genesis (params.go, constants.go, genesis.go) *)

Record Params : Type := mkAcpParams {
  PolicyCommandMaxExpirationDelta : Z;
  RegistrationsCommitmentValidity : option Duration;
}.

Definition DefaultPolicyCommandMaxExpirationDelta : Z := 60 * 60 * 12.

(** Ten minutes. *)
Definition DefaultRegistrationCommitmentLifetime `{ProtoTypes} : Duration :=
  NewDurationFromTimeDuration (10 * 60 * 1000000000).

Definition NewParams (policyCmdExpirationDelta : Z) (validity : option Duration) : Params :=
  mkAcpParams policyCmdExpirationDelta validity.

Definition DefaultParams `{ProtoTypes} : Params :=
  NewParams DefaultPolicyCommandMaxExpirationDelta (Some DefaultRegistrationCommitmentLifetime).

Definition Params_Validate (p : Params) : option error := None.

Record GenesisState : Type := mkAcpGenesis { gen_Params : Params }.

Definition DefaultGenesis `{ProtoTypes} : GenesisState := mkAcpGenesis DefaultParams.

Definition GenesisState_Validate (gs : GenesisState) : option error := Params_Validate (gen_Params gs).

(** * Metadata (mapper.go, src/x/acp/utils) *)

(** The protobuf encoding of the metadata that the module hands to the engine,
    and acp_core's check that a principal is a DID. *)
Class AcpCodec : Type := {
  RecordMetadata_Marshal : RecordMetadata -> bytes + error;
  RecordMetadata_Unmarshal : bytes -> RecordMetadata + error;
  NewDIDPrincipal : bytes -> Principal + error;
  RecordMetadata_roundtrip : forall m bz,
    RecordMetadata_Marshal m = inl bz -> RecordMetadata_Unmarshal bz = inl m;
  NewDIDPrincipal_ok : forall did p, NewDIDPrincipal did = inl p -> p = DIDPrincipal did;
}.

Definition HashTx (txBytes : bytes) : bytes := sha256 txBytes.

Section Metadata.
Context `{ProtoTypes, AcpCodec}.

Definition InjectPrincipal (ctx : AcpCtx) (actorDID : bytes) : outcome AcpCtx :=
  p ← sum_outcome (NewDIDPrincipal actorDID);
  Ok (mkAcpCtx (acp_ctx ctx) (TxBytes ctx) (Some p)).

Definition BuildRecordMetadata (ctx : AcpCtx) (actorDID msgCreator : bytes) : outcome RecordMetadata :=
  ts ← TimestampFromCtx ctx;
  Ok (mkRecordMetadata (Some ts) (HashTx (TxBytes ctx)) msgCreator actorDID).

Definition BuildACPSuppliedMetadata (ctx : AcpCtx) (actorDID msgCreator : bytes) : outcome bytes :=
  metadata ← BuildRecordMetadata ctx actorDID msgCreator;
  sum_outcome (RecordMetadata_Marshal metadata).

Definition BuildACPSuppliedMetadataWithTime (ctx : AcpCtx) (ts : option Timestamp)
    (actorDID msgCreator : bytes) : outcome bytes :=
  sum_outcome (RecordMetadata_Marshal (mkRecordMetadata ts (HashTx (TxBytes ctx)) msgCreator actorDID)).

Definition ExtractRecordMetadata (md : CoreMetadata) : outcome RecordMetadata :=
  sum_outcome (RecordMetadata_Unmarshal (Supplied_Blob md)).

Definition MapRelationshipRecord (rec : CoreRelationshipRecord) : outcome RelationshipRecord :=
  metadata ← ExtractRecordMetadata (cr_Metadata rec);
  Ok (mkRelationshipRecord (cr_PolicyId rec) (cr_Relationship rec) (cr_Archived rec) metadata).

Definition MapPolicy (rec : CorePolicyRecord) : outcome PolicyRecord :=
  metadata ← ExtractRecordMetadata (cp_Metadata rec);
  Ok (mkPolicyRecord (cp_Policy rec) metadata (cp_Definition rec) (cp_MarshalType rec)).
End Metadata.
