(* ===== verification/AcpState.v ===== *)
(** The stores of the acp module and the commitments of src/x/acp/commitment.

    The module's store holds the records of the policy engine, the tables of
    commitments and amendment events, the access decisions, the ids of signed
    commands that were processed, and the parameters ([AcpStore]). The engine, the
    tables of raccoondb and the Merkle trees are libraries: classes with the
    behaviour their documentation states. *)
From Stdlib Require Import Ascii ZArith Lia.
From stdpp Require Import base numbers list gmap strings.
From S2P Require Import Prelude Sdk Sha256 Utils AcpTypes.

(** * Libraries *)

(** raccoondb: a table of records under ids that it assigns itself, and the
    records of an index bucket. [rows] is what a table holds. *)
Class Raccoon : Type := {
  Table : Type -> Type;
  rows : forall {R}, Table R -> gmap Z R;
  NewTable : forall {R}, Table R;
  Table_Insert : forall {R}, (R -> Z -> R) -> R -> Table R -> (R * Table R) + error;
  Table_Update : forall {R}, (R -> Z) -> R -> Table R -> Table R + error;
  Table_GetByID : forall {R}, Z -> Table R -> option R + error;
  Index_Iterate : forall {R K} `{EqDecision K}, (R -> K) -> K -> Table R -> list R;
  NewTable_rows : forall R, rows (NewTable (R := R)) = ∅;
  Table_Insert_rows : forall R (setter : R -> Z -> R) r t r' t',
    Table_Insert setter r t = inl (r', t') ->
    exists id, rows t !! id = None /\ r' = setter r id /\ rows t' = <[id := r']> (rows t);
  Table_Update_rows : forall R (getter : R -> Z) r t t',
    Table_Update getter r t = inl t' -> rows t' = <[getter r := r]> (rows t);
  Table_Update_ok : forall R (getter : R -> Z) r t,
    is_Some (rows t !! getter r) -> exists t', Table_Update getter r t = inl t';
  Table_GetByID_rows : forall R id (t : Table R), Table_GetByID id t = inl (rows t !! id);
  Index_Iterate_rows : forall R K `{EqDecision K} (f : R -> K) k t,
    Index_Iterate f k t ≡ₚ (filter (fun x => f x.2 = k) (map_to_list (rows t))).*2;
}.

(** The Merkle trees of the consensus library: the root of a list of leaves has 32
    bytes, and the proof it makes for a leaf verifies against the root. *)
Class Merkle : Type := {
  HashFromByteSlices : list bytes -> bytes;
  ProofAunts : list bytes -> nat -> list bytes;
  Proof_Verify : Z -> Z -> bytes -> list bytes -> bytes -> bytes -> option error;
  HashFromByteSlices_length : forall leaves, length (HashFromByteSlices leaves) = 32%nat;
  ProofAunts_verify : forall leaves i leaf, leaves !! i = Some leaf ->
    Z.of_nat (length leaves) <= int64_max ->
    Proof_Verify (Z.of_nat (length leaves)) (Z.of_nat i) (sha256 (byte_of_Z 0 :: leaf))
      (ProofAunts leaves i) (HashFromByteSlices leaves) leaf = None;
}.

(** acp_core's engine over its records [E]. *)
Class ACPEngine (E : Type) : Type := {
  RelationshipSelector : Type;
  engine_CreatePolicy : AcpCtx -> bytes -> Z -> bytes -> M E CorePolicyRecord;
  engine_EditPolicy : AcpCtx -> bytes -> bytes -> Z -> M E (Z * CorePolicyRecord);
  engine_GetPolicy : AcpCtx -> bytes -> M E (option CorePolicyRecord);
  engine_ListPolicies : AcpCtx -> M E (list (option CorePolicyRecord));
  engine_ValidatePolicy : AcpCtx -> bytes -> Z -> M E (bool * bytes * option Policy);
  engine_SetRelationship : AcpCtx -> bytes -> Relationship -> bytes -> M E (bool * CoreRelationshipRecord);
  engine_DeleteRelationship : AcpCtx -> bytes -> Relationship -> M E bool;
  engine_FilterRelationships : AcpCtx -> bytes -> RelationshipSelector -> M E (list CoreRelationshipRecord);
  engine_RegisterObject : AcpCtx -> bytes -> Object -> bytes -> M E CoreRelationshipRecord;
  engine_ArchiveObject : AcpCtx -> bytes -> Object -> M E Z;
  engine_UnarchiveObject : AcpCtx -> bytes -> Object -> M E (bool * CoreRelationshipRecord);
  engine_GetObjectRegistration : AcpCtx -> bytes -> Object -> M E (option CoreRelationshipRecord);
  engine_RevealRegistration : AcpCtx -> bytes -> Object -> bytes -> ProtoTimestamp -> M E CoreRelationshipRecord;
  engine_AmendRegistration : AcpCtx -> bytes -> Object -> bytes -> ProtoTimestamp -> bytes ->
    M E CoreRelationshipRecord;
  engine_VerifyAccessRequest : AcpCtx -> bytes -> list Operation -> bytes -> M E bool;
}.

(** * The store *)

Record DecisionParams : Type := mkDecisionParams {
  DecisionExpirationDelta : Z;
  ProofExpirationDelta : Z;
  TicketExpirationDelta : Z;
}.

Record AccessDecision : Type := mkAccessDecision {
  ad_Id : bytes;
  ad_PolicyId : bytes;
  ad_Creator : bytes;
  CreatorAccSequence : Z;
  Operations : list Operation;
  ad_Actor : bytes;
  ad_Params : DecisionParams;
  CreationTime : Timestamp;
  IssuedHeight : Z;
}.

Record AcpStore (E : Type) `{Raccoon} : Type := mkAcpStore {
  acp_params : option Params;
  acp_engine : E;
  decisions : gmap bytes AccessDecision;
  commitments : Table RegistrationsCommitment;
  amendments : Table AmendmentEvent;
  spc_seen : gmap bytes bytes;
}.
Arguments mkAcpStore {E _}.
Arguments acp_params {E _}. Arguments acp_engine {E _}. Arguments decisions {E _}.
Arguments commitments {E _}. Arguments amendments {E _}. Arguments spc_seen {E _}.

Section Store.
Context {E : Type} `{Raccoon}.

Definition set_acp_params p (s : AcpStore E) : AcpStore E :=
  mkAcpStore p (acp_engine s) (decisions s) (commitments s) (amendments s) (spc_seen s).
Definition set_acp_engine e (s : AcpStore E) : AcpStore E :=
  mkAcpStore (acp_params s) e (decisions s) (commitments s) (amendments s) (spc_seen s).
Definition set_decisions d (s : AcpStore E) : AcpStore E :=
  mkAcpStore (acp_params s) (acp_engine s) d (commitments s) (amendments s) (spc_seen s).
Definition set_commitments c (s : AcpStore E) : AcpStore E :=
  mkAcpStore (acp_params s) (acp_engine s) (decisions s) c (amendments s) (spc_seen s).
Definition set_amendments a (s : AcpStore E) : AcpStore E :=
  mkAcpStore (acp_params s) (acp_engine s) (decisions s) (commitments s) a (spc_seen s).
Definition set_spc_seen m (s : AcpStore E) : AcpStore E :=
  mkAcpStore (acp_params s) (acp_engine s) (decisions s) (commitments s) (amendments s) m.
End Store.

(** * Commitments (commitment.go) *)

Definition ErrorType_INTERNAL : error := ErrMsg "INTERNAL".
Definition ErrorType_UNAUTHORIZED : error := ErrMsg "UNAUTHORIZED".
Definition ErrorType_BAD_INPUT : error := ErrMsg "BAD_INPUT".
Definition ErrorType_OPERATION_FORBIDDEN : error := ErrMsg "OPERATION_FORBIDDEN".
Definition ErrorType_NOT_FOUND : error := ErrMsg "NOT_FOUND".

Definition leafPrefix : ascii := byte_of_Z 0.
Definition commitmentBytes : Z := 32.

(** An actor is its id: the pointers that reach this code are never nil. *)
Definition GenerateLeafValue (policyId actor : bytes) (o : Object) : bytes :=
  policyId ++ Resource o ++ ObjectId o ++ actor.

Definition produceLeafHash (policyId actor : bytes) (o : Object) : bytes :=
  sha256 (leafPrefix :: GenerateLeafValue policyId actor o).

Definition objEq (a b : Object) : bool :=
  bool_decide (ObjectId a = ObjectId b) && bool_decide (Resource a = Resource b).

Section Trees.
Context `{Merkle}.

Record RegistrationCommitmentTree : Type := mkRegistrationCommitmentTree {
  tree_objs : list Object;
  tree_commitment : bytes;
  tree_leaves : list bytes;
}.

Definition NewObjectCommitmentTree (policyId actor : bytes) (objs : list Object)
    : outcome RegistrationCommitmentTree :=
  if decide (objs = []) then Err ErrorType_BAD_INPUT
  else
    let leaves := GenerateLeafValue policyId actor <$> objs in
    Ok (mkRegistrationCommitmentTree objs (HashFromByteSlices leaves) leaves).

Definition proofForIdx (t : RegistrationCommitmentTree) (idx : Z) : outcome RegistrationProof :=
  if (Z.of_nat (length (tree_objs t)) <=? idx) || (idx <? 0) then Err ErrorType_BAD_INPUT
  else Ok (mkRegistrationProof (tree_objs t !! Z.to_nat idx) (ProofAunts (tree_leaves t) (Z.to_nat idx))
             (Z.of_nat (length (tree_objs t))) idx).

(** [slices.IndexFunc]: the first object that is equal, -1 when there is none. *)
Fixpoint indexFrom (i : Z) (obj : Object) (objs : list Object) : Z :=
  match objs with
  | [] => -1
  | o :: rest => if objEq obj o then i else indexFrom (i + 1) obj rest
  end.

Definition findIdx (t : RegistrationCommitmentTree) (obj : Object) : outcome Z :=
  let i := indexFrom 0 obj (tree_objs t) in
  if i =? -1 then Err ErrorType_BAD_INPUT else Ok i.

Definition GetProofForObj (t : RegistrationCommitmentTree) (obj : Object) : outcome RegistrationProof :=
  idx ← findIdx t obj; proofForIdx t idx.

Definition GenerateCommitmentWithoutValidation (policyId actor : bytes) (objs : list Object)
    : outcome bytes :=
  t ← NewObjectCommitmentTree policyId actor objs; Ok (tree_commitment t).

Definition ProofForObject (policyId actor : bytes) (idx : Z) (objs : list Object)
    : outcome RegistrationProof :=
  t ← NewObjectCommitmentTree policyId actor objs; proofForIdx t idx.

(** A proof that does not verify is no error: the answer is no. *)
Definition VerifyProof (root policyId actor : bytes) (opening : option RegistrationProof) : outcome bool :=
  if decide (actor = []) then Err ErrorType_BAD_INPUT
  else if decide (Z.of_nat (length root) <> 32) then Err ErrorType_BAD_INPUT
  else
    match opening with
    | Some (mkRegistrationProof (Some object) merkleProof leafCount leafIndex) =>
        if decide (ObjectId object = [] \/ Resource object = []) then Err ErrorType_BAD_INPUT
        else
          match Proof_Verify (wrap64 leafCount) (wrap64 leafIndex) (produceLeafHash policyId actor object)
                  merkleProof root (GenerateLeafValue policyId actor object) with
          | Some _ => Ok false
          | None => Ok true
          end
    | _ => Err ErrorType_BAD_INPUT
    end.
End Trees.
