(* ===== verification/AcpKeeper.v ===== *)
(** The services of the acp module: commitments to registrations
    (src/x/acp/commitment/service.go, repository.go), registrations and their
    amendment (src/x/acp/registration), and the parameters.

    An actor commits to objects it has not named yet by publishing the root of a
    Merkle tree, and may reveal them later while the commitment is valid. If the
    object has been registered since by somebody else, the registration is amended
    and the object goes to the actor of the older commitment. *)
From Stdlib Require Import Ascii ZArith Lia.
From stdpp Require Import base numbers list gmap strings.
From S2P Require Import Prelude Sdk Sha256 Utils AcpTypes AcpState.

Definition ErrPolicyNotFound : error := ErrorType_NOT_FOUND.

Definition with_commitment_id (c : RegistrationsCommitment) (id : Z) : RegistrationsCommitment :=
  mkRegistrationsCommitment id (cm_PolicyId c) (Commitment c) (Expired c) (Validity c) (cm_Metadata c).
Definition with_expired (c : RegistrationsCommitment) : RegistrationsCommitment :=
  mkRegistrationsCommitment (cm_Id c) (cm_PolicyId c) (Commitment c) true (Validity c) (cm_Metadata c).
Definition with_event_id (ev : AmendmentEvent) (id : Z) : AmendmentEvent :=
  mkAmendmentEvent id (ev_PolicyId ev) (ev_Object ev) (NewOwner ev) (PreviousOwner ev)
    (CommitmentId ev) (HijackFlag ev) (ev_Metadata ev).
Definition with_hijack (ev : AmendmentEvent) : AmendmentEvent :=
  mkAmendmentEvent (ev_Id ev) (ev_PolicyId ev) (ev_Object ev) (NewOwner ev) (PreviousOwner ev)
    (CommitmentId ev) true (ev_Metadata ev).

Section services.
Context `{ProtoTypes, AcpCodec, Raccoon, Merkle}.
Context {E : Type} `{ACPEngine E}.
Context {S : Type} `{Lens S (AcpStore E)}.
Implicit Types (ctx : AcpCtx) (policyId actor msgCreator : bytes) (commitmentId eventId : Z).

Definition acp_get {A} (f : AcpStore E -> A) : M S A := gets (fun s => f (lens_get s)).
Definition acp_mod (f : AcpStore E -> AcpStore E) : M S unit :=
  modify (fun s => lens_set (f (lens_get s)) s).

Definition on_engine {A} (m : M E A) : M S A := fun s =>
  let '(o, e) := m (acp_engine (lens_get s)) in (o, lens_set (set_acp_engine e (lens_get s)) s).

(** ** keeper/params.go *)

Definition GetParams : M S Params := acp_get (fun s => default (mkAcpParams 0 None) (acp_params s)).
Definition SetParams (params : Params) : M S unit := acp_mod (set_acp_params (Some params)).

(** ** commitment/repository.go *)

Definition commitment_create (reg : RegistrationsCommitment) : M S RegistrationsCommitment :=
  t <- acp_get commitments ;;
  match Table_Insert with_commitment_id reg t with
  | inr _ => throw ErrorType_INTERNAL
  | inl (reg', t') => acp_mod (set_commitments t') ;;; ret reg'
  end.

Definition commitment_update (reg : RegistrationsCommitment) : M S unit :=
  t <- acp_get commitments ;;
  match Table_Update cm_Id reg t with
  | inr _ => throw ErrorType_INTERNAL
  | inl t' => acp_mod (set_commitments t')
  end.

Definition commitment_GetById (id : Z) : M S (option RegistrationsCommitment) :=
  t <- acp_get commitments ;;
  match Table_GetByID id t with inr _ => throw ErrorType_INTERNAL | inl o => ret o end.

Definition FilterByCommitment (commitment : bytes) : M S (list RegistrationsCommitment) :=
  acp_get (fun s => Index_Iterate Commitment commitment (commitments s)).

Definition GetNonExpiredCommitments : M S (list RegistrationsCommitment) :=
  acp_get (fun s => Index_Iterate Expired false (commitments s)).

(** ** types/commitment.go, commitment/service.go *)

Definition IsExpiredAgainst (c : RegistrationsCommitment) (ts : Timestamp) : outcome bool :=
  match CreationTs (cm_Metadata c) with None => Panic | Some created => IsAfter created (Validity c) ts end.

Fixpoint checkUnregistered ctx policyId (objects : list Object) : M S unit :=
  match objects with
  | [] => ret tt
  | obj :: rest =>
      status <- on_engine (engine_GetObjectRegistration ctx policyId obj) ;;
      throw_if (bool_decide (is_Some status)) ErrorType_BAD_INPUT ;;;
      checkUnregistered ctx policyId rest
  end.

Definition BuildCommitment ctx policyId actor (objects : list Object) : M S bytes :=
  rec <- on_engine (engine_GetPolicy ctx policyId) ;;
  throw_if (bool_decide (rec = None)) ErrPolicyNotFound ;;;
  checkUnregistered ctx policyId objects ;;;
  of_outcome (GenerateCommitmentWithoutValidation policyId actor objects).

Definition FlagExpiredCommitments ctx : M S (list RegistrationsCommitment) :=
  now <- of_outcome (TimestampFromCtx ctx) ;;
  iter <- GetNonExpiredCommitments ;;
  processed <- foldM (fun processed commitment =>
    expired <- of_outcome (IsExpiredAgainst commitment now) ;;
    ret (if expired : bool then processed ++ [with_expired commitment] else processed)) [] iter ;;
  forM_ commitment_update processed ;;;
  ret processed.

Definition SetNewCommitment ctx policyId (commitment : bytes) actor (params : Params) msgCreator
    : M S RegistrationsCommitment :=
  rec <- on_engine (engine_GetPolicy ctx policyId) ;;
  throw_if (bool_decide (rec = None)) ErrPolicyNotFound ;;;
  throw_if (negb (Z.of_nat (length commitment) =? commitmentBytes)) ErrorType_BAD_INPUT ;;;
  metadata <- of_outcome (BuildRecordMetadata ctx actor msgCreator) ;;
  commitment_create (mkRegistrationsCommitment 0 policyId commitment false
    (RegistrationsCommitmentValidity params) metadata).

Definition ValidateOpening ctx commitmentId (proof : option RegistrationProof) actor
    : M S (RegistrationsCommitment * bool) :=
  opt <- commitment_GetById commitmentId ;;
  commitment <- of_option opt ErrorType_NOT_FOUND ;;
  now <- of_outcome (wrap_err ErrorType_INTERNAL (TimestampFromCtx ctx)) ;;
  after <- of_outcome (wrap_err ErrorType_INTERNAL (IsExpiredAgainst commitment now)) ;;
  throw_if after ErrorType_OPERATION_FORBIDDEN ;;;
  ok <- of_outcome (VerifyProof (Commitment commitment) (cm_PolicyId commitment) actor proof) ;;
  ret (commitment, ok).

(** ** registration/repository.go *)

Definition event_create (reg : AmendmentEvent) : M S AmendmentEvent :=
  t <- acp_get amendments ;;
  match Table_Insert with_event_id reg t with
  | inr _ => throw ErrorType_INTERNAL
  | inl (reg', t') => acp_mod (set_amendments t') ;;; ret reg'
  end.

Definition event_update (reg : AmendmentEvent) : M S unit :=
  t <- acp_get amendments ;;
  match Table_Update ev_Id reg t with
  | inr _ => throw ErrorType_INTERNAL
  | inl t' => acp_mod (set_amendments t')
  end.

Definition event_GetById (id : Z) : M S (option AmendmentEvent) :=
  t <- acp_get amendments ;;
  match Table_GetByID id t with inr _ => throw ErrorType_INTERNAL | inl o => ret o end.

Definition ListEventsByPolicy policyId : M S (list AmendmentEvent) :=
  acp_get (fun s => Index_Iterate ev_PolicyId policyId (amendments s)).

Definition ListHijackEventsByPolicy policyId : M S (list AmendmentEvent) :=
  iter <- ListEventsByPolicy policyId ;;
  ret (filter (fun ev => HijackFlag ev) iter).

(** ** registration/service.go *)

Definition UnarchiveObject ctx policyId (object : Object) : M S (bool * CoreRelationshipRecord) :=
  on_engine (engine_UnarchiveObject ctx policyId object).

Definition ArchiveObject ctx policyId (object : Object) : M S Z :=
  on_engine (engine_ArchiveObject ctx policyId object).

Definition RegisterObject ctx policyId (object : Object) actor msgCreator : M S CoreRelationshipRecord :=
  metadata <- of_outcome (BuildACPSuppliedMetadata ctx actor msgCreator) ;;
  on_engine (engine_RegisterObject ctx policyId object metadata).

(** A pointer that the code dereferences. *)
Definition deref {A} (o : option A) : M S A := match o with Some a => ret a | None => panic end.

Definition with_root ctx : AcpCtx := mkAcpCtx (acp_ctx ctx) (TxBytes ctx) (Some RootPrincipal).

Definition amendRegistration ctx (commitment : RegistrationsCommitment) (record : CoreRelationshipRecord)
    actor msgCreator : M S (CoreRelationshipRecord * AmendmentEvent) :=
  let object := rel_Object (cr_Relationship record) in
  registrationMetadata <- of_outcome (ExtractRecordMetadata (cr_Metadata record)) ;;
  registered <- deref (CreationTs registrationMetadata) ;;
  committed <- deref (CreationTs (cm_Metadata commitment)) ;;
  throw_if (BlockHeight registered <? BlockHeight committed) ErrorType_OPERATION_FORBIDDEN ;;;
  amendMetadata <- of_outcome (BuildACPSuppliedMetadataWithTime ctx (CreationTs (cm_Metadata commitment))
    actor msgCreator) ;;
  let ctx := with_root ctx in
  result <- on_engine (engine_AmendRegistration ctx (cm_PolicyId commitment) object actor
    (ProtoTs committed) amendMetadata) ;;
  eventMetadata <- of_outcome (BuildRecordMetadata ctx actor msgCreator) ;;
  event <- event_create (mkAmendmentEvent 0 (cm_PolicyId commitment) object actor
    (Creator_Identifier (cr_Metadata record)) (cm_Id commitment) false eventMetadata) ;;
  ret (result, event).

(** The opening was valid, so the proof has an object. *)
Definition RevealRegistration ctx commitmentId (proof : option RegistrationProof) actor (msgSigner : bytes)
    : M S (CoreRelationshipRecord * option AmendmentEvent) :=
  letp (commitment, ok) <- ValidateOpening ctx commitmentId proof actor ;;
  throw_if (negb ok) ErrorType_UNAUTHORIZED ;;;
  opening <- deref proof ;;
  object <- deref (pf_Object opening) ;;
  registration <- on_engine (engine_GetObjectRegistration ctx (cm_PolicyId commitment) object) ;;
  match registration with
  | None =>
      metadata <- of_outcome (BuildACPSuppliedMetadataWithTime ctx (CreationTs (cm_Metadata commitment))
        actor msgSigner) ;;
      committed <- deref (CreationTs (cm_Metadata commitment)) ;;
      result <- on_engine (engine_RevealRegistration ctx (cm_PolicyId commitment) object metadata
        (ProtoTs committed)) ;;
      ret (result, None)
  | Some record =>
      letp (result, event) <- amendRegistration ctx commitment record actor msgSigner ;;
      ret (result, Some event)
  end.

Definition FlagHijackEvent eventId actor : M S AmendmentEvent :=
  opt <- event_GetById eventId ;;
  event <- of_option opt ErrorType_NOT_FOUND ;;
  throw_if (negb (bool_decide (OwnerDid (ev_Metadata event) = actor))) ErrorType_UNAUTHORIZED ;;;
  let event := with_hijack event in
  event_update event ;;;
  ret event.
End services.
