(* ===== verification/AcpBearer.v ===== *)
(** Bearer tokens and signed payloads of policy commands
    (src/x/acp/bearer_token, src/x/acp/signed_policy_cmd).

    A bearer token authorises one account to act for the DID that issued it. A
    signed payload carries the command itself and can be sent by anyone; it is
    valid for a number of blocks. Both are signed by the key of the actor's DID. *)
From Stdlib Require Import Ascii ZArith Lia.
From stdpp Require Import base numbers list gmap strings.
From S2P Require Import Prelude Sdk Sha256 Utils Json CoreKeeper Bearer AcpTypes AcpState.

(** * src/x/acp/bearer_token *)

Definition AuthorizedAccountClaim : string := "authorized_account".

Definition requiredClaims : list string :=
  [IssuedAtClaim; IssuerClaim; AuthorizedAccountClaim; ExpiresClaim].

Record BearerToken : Type := mkAcpBearerToken {
  ab_IssuerID : bytes;
  ab_AuthorizedAccount : bytes;
  ab_IssuedTime : Z;
  ab_ExpirationTime : Z;
}.

Definition token_fields : list string := ["iss"; "authorized_account"; "iat"; "exp"].

Definition set_token_field (name : string) (v : json) (t : BearerToken) : option BearerToken :=
  let '(mkAcpBearerToken iss acc iat exp) := t in
  if decide (name = "iss"%string) then set_string (fun x _ => mkAcpBearerToken x acc iat exp) v t
  else if decide (name = "authorized_account"%string) then set_string (fun x _ => mkAcpBearerToken iss x iat exp) v t
  else if decide (name = "iat"%string) then set_int64 (fun x _ => mkAcpBearerToken iss acc x exp) v t
  else set_int64 (fun x _ => mkAcpBearerToken iss acc iat x) v t.

Definition unmarshal_token : bytes -> option BearerToken :=
  unmarshal_struct token_fields set_token_field (mkAcpBearerToken [] [] 0 0).

Definition ErrInvalidBearerToken : error := ErrorType_BAD_INPUT.
Definition ErrMsgUnauthorized : error := ErrorType_UNAUTHORIZED.

Section bearer.
Context `{AddressCodec, Jose}.
Implicit Types (token : BearerToken) (currentTime : Time).

Definition unmarshalJWSPayload (payload : bytes) : outcome BearerToken :=
  match unmarshal_keys payload with
  | None => Err (ErrMsg "json")
  | Some keys =>
      _ ← wrap_err ErrInvalidBearerToken (required requiredClaims keys);
      match unmarshal_token payload with
      | Some token => Ok token
      | None => Err ErrInvalidBearerToken
      end
  end.

Definition validateBearerTokenValues token : outcome unit :=
  _ ← wrap_err ErrInvalidBearerToken (check (IsValidDID (ab_IssuerID token)));
  _ ← wrap_err ErrInvalidBearerToken (check (IsValidVeraAddr (ab_AuthorizedAccount token)));
  wrap_err ErrInvalidBearerToken
    (fail_if (ab_ExpirationTime token <? ab_IssuedTime token) "issue time cannot be after expiration time").

Definition validateBearerToken token currentTime : outcome unit :=
  _ ← validateBearerTokenValues token;
  wrap_err ErrInvalidBearerToken
    (fail_if (ab_ExpirationTime token <? unix_seconds currentTime) "token expired").

Definition parseValidateJWS (bearerJWS : bytes) : outcome BearerToken :=
  let bearerJWS := TrimLeft bearerJWS jws_space in
  _ ← wrap_err ErrInvalidBearerToken (fail_if (HasPrefix bearerJWS (lit "{")) "JSON serialization");
  payloadBytes ← wrap_err ErrInvalidBearerToken (sum_outcome (ParseSigned bearerJWS));
  bearer ← unmarshalJWSPayload payloadBytes;
  _ ← validateBearerTokenValues bearer;
  ak ← wrap_err ErrInvalidBearerToken (issuer_key (ab_IssuerID bearer));
  _ ← wrap_err ErrInvalidBearerToken (sum_outcome (Verify bearerJWS ak.1 ak.2));
  Ok bearer.

(** The DID of the actor, when the token is good and names the creator. *)
Definition AuthorizeMsg (bearerToken creator : bytes) currentTime : outcome bytes :=
  token ← parseValidateJWS bearerToken;
  _ ← validateBearerToken token currentTime;
  if decide (creator = ab_AuthorizedAccount token) then Ok (ab_IssuerID token)
  else Err ErrMsgUnauthorized.
End bearer.

(** * src/x/acp/signed_policy_cmd *)

Record SignedPolicyCmdPayload : Type := mkSignedPolicyCmdPayload {
  sp_Actor : bytes;
  sp_IssuedHeight : Z;
  sp_IssuedAt : option ProtoTimestamp;
  ExpirationDelta : Z;
  sp_PolicyId : bytes;
  sp_Cmd : option PolicyCmd;
}.

Inductive ContentType : Type := ContentType_UNKNOWN | ContentType_JWS.

Definition ErrExpirationDeltaTooLarge : error := ErrMsg "expiration delta greater than threshold".
Definition ErrCommandExpired : error := ErrMsg "PolicyCmdPayload expiration height is stale".
Definition ErrPayloadAlreadyProcessed : error := ErrMsg "PolicyCmdPayload already processed".

(** The JSON form of a payload, read by the protobuf library. The fields are
    unsigned 64-bit integers. *)
Class PayloadJson : Type := {
  payload_UnmarshalString : bytes -> SignedPolicyCmdPayload + error;
  payload_uint64 : forall text p, payload_UnmarshalString text = inl p ->
    0 <= sp_IssuedHeight p < 2 ^ 64 /\ 0 <= ExpirationDelta p < 2 ^ 64;
}.

Section signed.
Context `{Jose, PayloadJson}.

(** [jwsVerifier.Verify] *)
Definition jws_Verify (jwsStr : bytes) : outcome SignedPolicyCmdPayload :=
  payloadBytes ← sum_outcome (ParseSigned jwsStr);
  payload ← sum_outcome (payload_UnmarshalString payloadBytes);
  ak ← issuer_key (sp_Actor payload);
  _ ← sum_outcome (Verify jwsStr ak.1 ak.2);
  Ok payload.

Definition ComputePayloadID (jwsPayload : bytes) : bytes := sha256 jwsPayload.

(** The last block at which a payload is valid, in 64 bits. *)
Definition maxHeight (payload : SignedPolicyCmdPayload) : Z :=
  uint64 (sp_IssuedHeight payload + ExpirationDelta payload).

Definition payloadSpec (params : Params) (currentHeight : Z) (payload : SignedPolicyCmdPayload) : outcome unit :=
  if PolicyCommandMaxExpirationDelta params <? ExpirationDelta payload then Err ErrExpirationDeltaTooLarge
  else if maxHeight payload <? currentHeight then Err ErrCommandExpired
  else Ok tt.

Definition ValidateAndExtractCmd (params : Params) (payload : bytes) (contentType : ContentType)
    (currentHeight : Z) : outcome SignedPolicyCmdPayload :=
  cmd ← (match contentType with
         | ContentType_JWS => jws_Verify payload
         | ContentType_UNKNOWN => Err (ErrMsg "unknown variant")
         end);
  _ ← payloadSpec params currentHeight cmd;
  Ok cmd.
End signed.
