(* ===== verification/AcpMsgs.v ===== *)
(** The commands and messages of the acp module: the handler of
    src/x/acp/keeper/policy_cmd, the actors of src/x/acp/did and
    src/x/acp/keeper/utils.go, the capabilities of src/x/acp/capability, and the
    message server of src/x/acp/keeper.

    A command reaches the handler in four ways: directly from an account, with a
    bearer token, as a signed payload from anyone, and from a module that holds
    the capability of the policy. *)
From Stdlib Require Import Ascii ZArith Lia.
From stdpp Require Import base numbers list gmap strings.
From S2P Require Import Prelude Sdk Sha256 Utils CoreKeeper Bearer AcpTypes AcpState AcpKeeper AcpBearer.

(** * Accounts and their DIDs (src/x/acp/did, keeper/utils.go, keeper/actor.go) *)

Inductive AccountKey : Type :=
  | Secp256k1Key (bz : bytes)
  | Secp256r1Key (bz : bytes)
  | Ed25519Key (bz : bytes)
  | OtherKey (bz : bytes).

Inductive DIDKeyType : Type := SECP256k1 | P256 | Ed25519.

Record Account : Type := mkAccount {
  acc_Address : bytes; acc_PubKey : option AccountKey; acc_Sequence : Z;
}.

(** The key encodings of the DID library, and the accounts of the chain. *)
Class DIDKeys : Type := {
  CreateDIDKey : DIDKeyType -> bytes -> bytes + error;
  ECDH_Bytes : bytes -> bytes + error;
}.

Class AcpAccounts (S : Type) : Type := {
  GetAccount : bytes -> S -> option Account;
}.

Definition DIDFromPubKey `{DIDKeys} (pk : option AccountKey) : outcome bytes :=
  match pk with
  | None => Err (ErrMsg "account public key is nil")
  | Some (Secp256k1Key bz) => sum_outcome (CreateDIDKey SECP256k1 bz)
  | Some (Secp256r1Key bz) => pkBytes ← sum_outcome (ECDH_Bytes bz); sum_outcome (CreateDIDKey P256 pkBytes)
  | Some (Ed25519Key bz) => sum_outcome (CreateDIDKey Ed25519 bz)
  | Some (OtherKey _) => Err (ErrMsg "failed to issue did for key")
  end.

Definition IssueDID `{DIDKeys} (acc : Account) : outcome bytes := DIDFromPubKey (acc_PubKey acc).
Definition IssueModuleDID (moduleName : bytes) : bytes := lit "did:module:" ++ moduleName.
Definition IssueInterchainAccountDID (icaAddr : bytes) : bytes := lit "did:ica:" ++ icaAddr.

(** [AccAddressFromBech32] of src/types/utils.go; [ascii_space] is what TrimSpace
    removes of ASCII. *)
Definition ascii_space : bytes := byte_of_Z <$> [9; 10; 11; 12; 13; 32].
Definition AccAddressFromBech32 `{AddressCodec} (address : bytes) : outcome bytes :=
  if decide (TrimLeft address ascii_space = []) then Err (ErrMsg "empty address string is not allowed")
  else sum_outcome (StringToBytes address).

(** * Messages (tx.pb.go) *)

Record MsgUpdateParams : Type := mkAcpUpdateParams { aup_Authority : bytes; aup_Params : Params }.
Record MsgCreatePolicy : Type := mkMsgCreatePolicy { mcp_Creator : bytes; mcp_Policy : bytes; mcp_MarshalType : Z }.
Record MsgEditPolicy : Type := mkMsgEditPolicy {
  mep_Creator : bytes; mep_PolicyId : bytes; mep_Policy : bytes; mep_MarshalType : Z;
}.
Record AccessRequest : Type := mkAccessRequest { ar_Operations : list Operation; ar_Actor : option bytes }.
Record MsgCheckAccess : Type := mkMsgCheckAccess {
  mca_Creator : bytes; mca_PolicyId : bytes; mca_AccessRequest : option AccessRequest;
}.
Record MsgSignedPolicyCmd : Type := mkMsgSignedPolicyCmd {
  msp_Creator : bytes; msp_Payload : bytes; msp_Type : ContentType;
}.
Record MsgBearerPolicyCmd : Type := mkMsgBearerPolicyCmd {
  mbp_Creator : bytes; mbp_BearerToken : bytes; mbp_PolicyId : bytes; mbp_Cmd : option PolicyCmd;
}.
Record MsgDirectPolicyCmd : Type := mkMsgDirectPolicyCmd {
  mdp_Creator : bytes; mdp_PolicyId : bytes; mdp_Cmd : option PolicyCmd;
}.

Definition ErrInvalidSigner : error := ErrReg "acp" 1100.

Definition MsgCreatePolicy_ValidateBasic `{AddressCodec} (m : MsgCreatePolicy) : option error :=
  match StringToBytes (mcp_Creator m) with inl _ => None | inr _ => Some (ErrReg "sdk" 7) end.

Definition MsgUpdateParams_ValidateBasic `{AddressCodec} (m : MsgUpdateParams) : option error :=
  match StringToBytes (aup_Authority m) with
  | inl _ => Params_Validate (aup_Params m)
  | inr e => Some e
  end.

(** * The command handler (policy_cmd/types.go, policy_cmd/handler.go) *)

Record PolicyCmdCtx : Type := mkPolicyCmdCtx {
  pc_Ctx : AcpCtx;
  pc_PolicyId : bytes;
  PrincipalDID : bytes;
  pc_Now : Timestamp;
  pc_Params : Params;
  Signer : bytes;
}.

Section handler.
Context `{ProtoTypes, AcpCodec, Raccoon, Merkle}.
Context {E : Type} `{ACPEngine E}.
Context {S : Type} `{Lens S (AcpStore E)}.
Implicit Types (ctx : PolicyCmdCtx) (object : Object).

Definition NewPolicyCmdCtx (c : AcpCtx) (policyId actorDID signer : bytes) (params : Params)
    : outcome PolicyCmdCtx :=
  ts ← TimestampFromCtx c;
  Ok (mkPolicyCmdCtx c policyId actorDID ts params signer).

Definition setRelationship ctx (relationship : Relationship) : M S PolicyCmdResult :=
  metadata <- of_outcome (BuildACPSuppliedMetadata (pc_Ctx ctx) (PrincipalDID ctx) (Signer ctx)) ;;
  letp (recordExisted, record) <- on_engine
    (engine_SetRelationship (pc_Ctx ctx) (pc_PolicyId ctx) relationship metadata) ;;
  rec <- of_outcome (MapRelationshipRecord record) ;;
  ret (SetRelationshipResult recordExisted rec).

Definition deleteRelationship ctx (relationship : Relationship) : M S PolicyCmdResult :=
  recordFound <- on_engine (engine_DeleteRelationship (pc_Ctx ctx) (pc_PolicyId ctx) relationship) ;;
  ret (DeleteRelationshipResult recordFound).

Definition registerObject ctx object : M S PolicyCmdResult :=
  record <- RegisterObject (pc_Ctx ctx) (pc_PolicyId ctx) object (PrincipalDID ctx) (Signer ctx) ;;
  r <- of_outcome (MapRelationshipRecord record) ;;
  ret (RegisterObjectResult r).

Definition archiveObject ctx object : M S PolicyCmdResult :=
  removed <- ArchiveObject (pc_Ctx ctx) (pc_PolicyId ctx) object ;;
  ret (ArchiveObjectResult true removed).

Definition commitRegistrations ctx (commitment : bytes) : M S PolicyCmdResult :=
  c <- SetNewCommitment (pc_Ctx ctx) (pc_PolicyId ctx) commitment (PrincipalDID ctx) (pc_Params ctx) (Signer ctx) ;;
  ret (CommitRegistrationsResult c).

Definition revealRegistration ctx (commitmentId : Z) (proof : option RegistrationProof) : M S PolicyCmdResult :=
  letp (rec, ev) <- RevealRegistration (pc_Ctx ctx) commitmentId proof (PrincipalDID ctx) (Signer ctx) ;;
  r <- of_outcome (MapRelationshipRecord rec) ;;
  ret (RevealRegistrationResult r ev).

Definition flagHijackAttempt ctx (eventId : Z) : M S PolicyCmdResult :=
  event <- FlagHijackEvent eventId (PrincipalDID ctx) ;;
  ret (FlagHijackAttemptResult event).

Definition unarchiveObject ctx object : M S PolicyCmdResult :=
  letp (modified, record) <- UnarchiveObject (pc_Ctx ctx) (pc_PolicyId ctx) object ;;
  r <- of_outcome (MapRelationshipRecord record) ;;
  ret (UnarchiveObjectResult r modified).

(** A message without a command is a nil pointer. *)
Definition Dispatch ctx (cmd : option PolicyCmd) : M S PolicyCmdResult :=
  injected <- of_outcome (InjectPrincipal (pc_Ctx ctx) (PrincipalDID ctx)) ;;
  let ctx := mkPolicyCmdCtx injected (pc_PolicyId ctx) (PrincipalDID ctx) (pc_Now ctx) (pc_Params ctx) (Signer ctx) in
  c <- deref cmd ;;
  match c with
  | SetRelationshipCmd relationship => setRelationship ctx relationship
  | DeleteRelationshipCmd relationship => deleteRelationship ctx relationship
  | RegisterObjectCmd object => registerObject ctx object
  | ArchiveObjectCmd object => archiveObject ctx object
  | CommitRegistrationsCmd commitment => commitRegistrations ctx commitment
  | FlagHijackAttemptCmd eventId => flagHijackAttempt ctx eventId
  | RevealRegistrationCmd commitmentId proof => revealRegistration ctx commitmentId proof
  | UnarchiveObjectCmd object => unarchiveObject ctx object
  | PolicyCmd_unset => throw (ErrMsg "unsuported command")
  end.
End handler.

(** * Capabilities (capability/types.go, capability/manager.go) *)

Definition ModuleName : bytes := lit "acp".

(** The scoped keepers of ibc-go's capability module: a capability has a name and
    the modules that own it. The first argument is the module whose keeper it is. *)
Class CapabilityKeeper (S : Type) : Type := {
  Capability : Type;
  NewCapability : bytes -> bytes -> M S Capability;
  ClaimCapability : bytes -> Capability -> bytes -> M S unit;
  GetCapability : bytes -> bytes -> S -> option Capability;
  AuthenticateCapability : bytes -> Capability -> bytes -> S -> bool;
  LookupModules : bytes -> bytes -> S -> list bytes + error;
}.

Record PolicyCapability {S} `{CapabilityKeeper S} : Type := mkPolicyCapability {
  cap_policyId : bytes;
  cap_capability : Capability;
}.
Arguments PolicyCapability S {_}.
Arguments mkPolicyCapability {S _}.
Arguments cap_policyId {S _}. Arguments cap_capability {S _}.

(** The name of the capability of a policy. *)
Definition CapabilityName (policyId : bytes) : bytes := lit "/acp/module_policies/" ++ policyId.

Definition ErrInvalidCapability : error := ErrorType_UNAUTHORIZED.

Section capability.
Context {S : Type} `{CapabilityKeeper S}.
Implicit Types (module policyId : bytes) (cap : PolicyCapability S).

Definition GetCapabilityName cap : bytes := CapabilityName (cap_policyId cap).

Definition Fetch module policyId : M S (PolicyCapability S) :=
  sdkCap <- gets (GetCapability module (CapabilityName policyId)) ;;
  match sdkCap with
  | None => throw (ErrMsg "fetching capability for policy")
  | Some c => ret (mkPolicyCapability policyId c)
  end.

Definition Claim module cap : M S unit := ClaimCapability module (cap_capability cap) (GetCapabilityName cap).

Definition Issue module policyId : M S (PolicyCapability S) :=
  c <- NewCapability module (CapabilityName policyId) ;;
  ret (mkPolicyCapability policyId c).

Definition isOwnedByAcpModule module cap : M S bool :=
  r <- gets (LookupModules module (GetCapabilityName cap)) ;;
  mods <- of_outcome (sum_outcome r) ;;
  ret (bool_decide (ModuleName ∈ mods)).

Definition Validate module cap : M S unit :=
  ok <- gets (AuthenticateCapability module (cap_capability cap) (GetCapabilityName cap)) ;;
  throw_if (negb ok) ErrInvalidCapability ;;;
  ownedByAcp <- isOwnedByAcpModule module cap ;;
  throw_if (negb ownedByAcp) ErrInvalidCapability.

Definition GetOwnerModule module cap : M S bytes :=
  r <- gets (LookupModules module (GetCapabilityName cap)) ;;
  mods <- of_outcome (sum_outcome r) ;;
  match filter (fun name => name <> ModuleName) mods with
  | [] => throw ErrInvalidCapability
  | m :: _ => ret m
  end.
End capability.
