(* ===== verification/AcpServer.v ===== *)
(** The keeper of the acp module (src/x/acp/keeper): actors, module policies, the
    record of processed signed commands, access decisions
    (src/x/acp/access_decision), the messages, the queries of stored records, the
    end of a block and genesis. *)
From Stdlib Require Import Ascii ZArith Lia.
From stdpp Require Import base numbers list gmap strings.
From S2P Require Import Prelude Sdk Sha256 Utils CoreKeeper Bearer AcpTypes AcpState AcpKeeper AcpBearer AcpMsgs.

(** * The id of a decision (types/access_decision.go, src/utils/sort.go) *)

(** [sort.Stable] of the standard library: it only moves the elements around, sorts
    them when the comparison is an order, and keeps the order of equal elements. *)
Class GoSort : Type := {
  sort_Stable : forall {A}, (A -> A -> bool) -> list A -> list A;
  sort_Stable_perm : forall A (less : A -> A -> bool) l, sort_Stable less l ≡ₚ l;
  sort_Stable_equal : forall A (less : A -> A -> bool) l,
    (forall x y, x ∈ l -> y ∈ l -> less x y = false) -> sort_Stable less l = l;
}.

(** The comparison of two strings in Go. *)
Definition string_lt (a b : bytes) : bool := negb (bytes_leb b a).

Definition operation_less (left right : Operation) : bool :=
  string_lt (Resource (op_Object left)) (Resource (op_Object right)) &&
  string_lt (ObjectId (op_Object left)) (ObjectId (op_Object right)) &&
  string_lt (op_Permission left) (op_Permission right).

Definition hashParams (p : DecisionParams) : bytes :=
  sha256 (show_nat (DecisionExpirationDelta p) ++ show_nat (ProofExpirationDelta p) ++
          show_nat (TicketExpirationDelta p)).

Definition operation_text (op : Operation) : bytes :=
  Resource (op_Object op) ++ ObjectId (op_Object op) ++ op_Permission op.

Definition hashDecision `{ProtoTypes, GoSort} (d : AccessDecision) : bytes :=
  let operations := sort_Stable operation_less (Operations d) in
  sha256 (ad_PolicyId d ++ ad_Creator d ++ ad_Actor d ++ show_nat (CreatorAccSequence d) ++
          show_nat (IssuedHeight d) ++ TimestampString (ProtoTs (CreationTime d)) ++
          concat (operation_text <$> operations) ++ hashParams (ad_Params d)).

Definition ProduceId `{ProtoTypes, GoSort} (d : AccessDecision) : bytes := base32_encode (hashDecision d).

Definition with_decision_id (id : bytes) (d : AccessDecision) : AccessDecision :=
  mkAccessDecision id (ad_PolicyId d) (ad_Creator d) (CreatorAccSequence d) (Operations d) (ad_Actor d)
    (ad_Params d) (CreationTime d) (IssuedHeight d).

(** * The keeper *)

Definition defaultExpirationDelta : Z := 100.
Definition defaultProofExpirationDelta : Z := 50.

(** [StaticParamsRepository.GetDefaults] *)
Definition GetDefaults : DecisionParams :=
  mkDecisionParams defaultExpirationDelta defaultProofExpirationDelta defaultExpirationDelta.

Section keeper.
Context `{ProtoTypes, AcpCodec, Raccoon, Merkle, GoSort, AddressCodec, DIDKeys, Jose, PayloadJson}.
Context {E : Type} `{ACPEngine E}.
Context {S : Type} `{Lens S (AcpStore E)} `{Lens S CoreStore} `{AcpAccounts S, CapabilityKeeper S}.
Implicit Types (ctx : AcpCtx) (policyId actorDID addr : bytes) (cap : PolicyCapability S).

(** ** Actors (utils.go, actor.go) *)

Definition IssueDIDFromAccountAddr ctx addr : M S bytes :=
  sdkAddr <- of_outcome (wrap_err ErrorType_BAD_INPUT (AccAddressFromBech32 addr)) ;;
  found <- gets (GetAccount sdkAddr) ;;
  acc <- of_option found ErrorType_NOT_FOUND ;;
  ica <- GetICAConnection addr ;;
  match ica with
  | Some _ => ret (IssueInterchainAccountDID addr)
  | None => of_outcome (wrap_err ErrorType_BAD_INPUT (IssueDID acc))
  end.

Definition GetActorDID ctx (accountAddr : bytes) : M S bytes :=
  if decide (extracted_did ctx = []) then IssueDIDFromAccountAddr ctx accountAddr
  else ret (extracted_did ctx).

(** ** The record of signed commands (keeper.go) *)

Definition hasSeenSignedPolicyCmd (payloadID : bytes) (currentHeight : Z) : M S bool :=
  opt <- acp_get (fun s => spc_seen s !! payloadID) ;;
  match opt with
  | None => ret false
  | Some bz =>
      if decide (length bz <> 8%nat) then
        acp_mod (fun s => set_spc_seen (delete payloadID (spc_seen s)) s) ;;; ret false
      else if be_uint64 bz <? currentHeight then
        acp_mod (fun s => set_spc_seen (delete payloadID (spc_seen s)) s) ;;; ret false
      else ret true
  end.

Definition markSignedPolicyCmdSeen (payloadID : bytes) (expireHeight : Z) : M S unit :=
  has <- acp_get (fun s => bool_decide (is_Some (spc_seen s !! payloadID))) ;;
  throw_if has (ErrMsg "signed policy cmd already processed") ;;;
  acp_mod (fun s => set_spc_seen (<[payloadID := be_bytes 8 expireHeight]> (spc_seen s)) s).

(** ** Module policies (module_acp.go) *)

Definition CreateModulePolicy ctx (policy : bytes) (marshalType : Z) (module : bytes)
    : M S (PolicyRecord * PolicyCapability S) :=
  let moduleDID := IssueModuleDID module in
  metadata <- of_outcome (BuildACPSuppliedMetadata ctx moduleDID module) ;;
  ctx <- of_outcome (InjectPrincipal ctx moduleDID) ;;
  coreResult <- on_engine (engine_CreatePolicy ctx policy marshalType metadata) ;;
  rec <- of_outcome (MapPolicy coreResult) ;;
  cap <- Issue ModuleName (Policy_Id (pr_Policy rec)) ;;
  ret (rec, cap).

Definition EditModulePolicy ctx cap (policy : bytes) (marshalType : Z) : M S (PolicyRecord * Z) :=
  Validate ModuleName cap ;;;
  module <- GetOwnerModule ModuleName cap ;;
  ctx <- of_outcome (InjectPrincipal ctx (IssueModuleDID module)) ;;
  letp (removed, coreRecord) <- on_engine (engine_EditPolicy ctx (cap_policyId cap) policy marshalType) ;;
  rec <- of_outcome (MapPolicy coreRecord) ;;
  ret (rec, removed).

Definition dispatchModulePolicyCmd ctx cap (cmd : option PolicyCmd) actorDID (txSigner : bytes)
    : M S PolicyCmdResult :=
  Validate ModuleName cap ;;;
  GetOwnerModule ModuleName cap ;;;
  params <- GetParams ;;
  cmdCtx <- of_outcome (NewPolicyCmdCtx ctx (cap_policyId cap) actorDID txSigner params) ;;
  Dispatch cmdCtx cmd.

Definition ModulePolicyCmdForActorDID ctx cap (cmd : option PolicyCmd) actorDID (txSigner : bytes)
    : M S PolicyCmdResult :=
  dispatchModulePolicyCmd ctx cap cmd actorDID txSigner.

Definition ModulePolicyCmdForActorAccount ctx cap (cmd : option PolicyCmd) (actorAcc txSigner : bytes)
    : M S PolicyCmdResult :=
  actorDID <- IssueDIDFromAccountAddr ctx actorAcc ;;
  dispatchModulePolicyCmd ctx cap cmd actorDID txSigner.

(** ** Messages *)

Definition CreatePolicy ctx (msg : MsgCreatePolicy) : M S PolicyRecord :=
  actorID <- GetActorDID ctx (mcp_Creator msg) ;;
  metadata <- of_outcome (BuildACPSuppliedMetadata ctx actorID (mcp_Creator msg)) ;;
  ctx <- of_outcome (InjectPrincipal ctx actorID) ;;
  coreResult <- on_engine (engine_CreatePolicy ctx (mcp_Policy msg) (mcp_MarshalType msg) metadata) ;;
  of_outcome (MapPolicy coreResult).

Definition EditPolicy ctx (msg : MsgEditPolicy) : M S (Z * PolicyRecord) :=
  actorID <- GetActorDID ctx (mep_Creator msg) ;;
  ctx <- of_outcome (InjectPrincipal ctx actorID) ;;
  letp (removed, record) <- on_engine
    (engine_EditPolicy ctx (mep_PolicyId msg) (mep_Policy msg) (mep_MarshalType msg)) ;;
  rec <- of_outcome (MapPolicy record) ;;
  ret (removed, rec).

Definition DirectPolicyCmd ctx (msg : MsgDirectPolicyCmd) : M S PolicyCmdResult :=
  actorID <- GetActorDID ctx (mdp_Creator msg) ;;
  params <- GetParams ;;
  cmdCtx <- of_outcome (NewPolicyCmdCtx ctx (mdp_PolicyId msg) actorID (mdp_Creator msg) params) ;;
  Dispatch cmdCtx (mdp_Cmd msg).

Definition BearerPolicyCmd ctx (msg : MsgBearerPolicyCmd) : M S PolicyCmdResult :=
  actorID <- of_outcome (AuthorizeMsg (mbp_BearerToken msg) (mbp_Creator msg) (block_time ctx)) ;;
  params <- GetParams ;;
  cmdCtx <- of_outcome (NewPolicyCmdCtx ctx (mbp_PolicyId msg) actorID (mbp_Creator msg) params) ;;
  Dispatch cmdCtx (mbp_Cmd msg).

Definition SignedPolicyCmd ctx (msg : MsgSignedPolicyCmd) : M S PolicyCmdResult :=
  params <- GetParams ;;
  payload <- of_outcome (ValidateAndExtractCmd params (msp_Payload msg) (msp_Type msg) (uint64 (block_height ctx))) ;;
  cmdCtx <- of_outcome (NewPolicyCmdCtx ctx (sp_PolicyId payload) (sp_Actor payload) (msp_Creator msg) params) ;;
  let id := ComputePayloadID (msp_Payload msg) in
  let expireHeight := uint64 (sp_IssuedHeight payload + ExpirationDelta payload) in
  seen <- hasSeenSignedPolicyCmd id (uint64 (block_height ctx)) ;;
  throw_if seen ErrPayloadAlreadyProcessed ;;;
  markSignedPolicyCmdSeen id expireHeight ;;;
  Dispatch cmdCtx (sp_Cmd payload).

Definition UpdateParams (authority : bytes) (req : MsgUpdateParams) : M S unit :=
  throw_if (negb (bool_decide (authority = aup_Authority req))) ErrInvalidSigner ;;;
  SetParams (aup_Params req).

(** ** Access decisions (access_decision/commands.go, msg_server_check_access.go) *)

Definition decision_Set (d : AccessDecision) : M S unit :=
  acp_mod (fun s => set_decisions (<[ad_Id d := d]> (decisions s)) s).

Definition buildDecision policyId (operations : list Operation) (actor : bytes) (creationTime : Timestamp)
    (creator : Account) (currentHeight : Z) (params : DecisionParams) : AccessDecision :=
  let decision := mkAccessDecision [] policyId (BytesToString (acc_Address creator)) (acc_Sequence creator)
    operations actor params creationTime currentHeight in
  with_decision_id (ProduceId decision) decision.

(** [EvaluateAccessRequestsCommand.Execute], after [validate]; an access request
    without operations is a nil slice. *)
Definition Execute ctx policyId (operations : list Operation) (actor : bytes) (creationTime : Timestamp)
    (creator : Account) (currentHeight : Z) : M S AccessDecision :=
  throw_if (bool_decide (operations = [])) ErrorType_BAD_INPUT ;;;
  throw_if (currentHeight =? 0) ErrorType_BAD_INPUT ;;;
  valid <- on_engine (engine_VerifyAccessRequest ctx policyId operations actor) ;;
  throw_if (negb valid) ErrorType_UNAUTHORIZED ;;;
  let decision := buildDecision policyId operations actor creationTime creator currentHeight GetDefaults in
  decision_Set decision ;;;
  ret decision.

Definition CheckAccess ctx (msg : MsgCheckAccess) : M S AccessDecision :=
  record <- on_engine (engine_GetPolicy ctx (mca_PolicyId msg)) ;;
  rec <- of_option record ErrPolicyNotFound ;;
  creatorAddr <- of_outcome (wrap_err ErrorType_BAD_INPUT (sum_outcome (StringToBytes (mca_Creator msg)))) ;;
  found <- gets (GetAccount creatorAddr) ;;
  creatorAcc <- of_option found ErrorType_NOT_FOUND ;;
  ts <- of_outcome (TimestampFromCtx ctx) ;;
  request <- deref (mca_AccessRequest msg) ;;
  actor <- deref (ar_Actor request) ;;
  Execute ctx (Policy_Id (cp_Policy rec)) (ar_Operations request) actor ts creatorAcc (uint64 (block_height ctx)).

(** ** Queries of stored records *)

(** A request that is nil is refused by every query. *)
Definition AccessDecision_query (id : bytes) : M S (option AccessDecision) :=
  acp_get (fun s => decisions s !! id).

Definition RegistrationsCommitment_query (id : Z) : M S RegistrationsCommitment :=
  opt <- commitment_GetById id ;;
  of_option opt ErrorType_NOT_FOUND.

Definition RegistrationsCommitmentByCommitment (commitment : bytes) : M S (list RegistrationsCommitment) :=
  FilterByCommitment commitment.

Definition HijackAttemptsByPolicy policyId : M S (list AmendmentEvent) :=
  ListHijackEventsByPolicy policyId.

Definition ObjectOwner ctx policyId (object : Object) : M S (option RelationshipRecord) :=
  result <- on_engine (engine_GetObjectRegistration ctx policyId object) ;;
  match result with
  | None => ret None
  | Some record => rec <- of_outcome (MapRelationshipRecord record) ;; ret (Some rec)
  end.

Definition Policy_query ctx (id : bytes) : M S PolicyRecord :=
  response <- on_engine (engine_GetPolicy ctx id) ;;
  record <- of_option response ErrPolicyNotFound ;;
  of_outcome (MapPolicy record).

(** The actor may be given as an account; when it cannot be resolved it is taken
    as it is. *)
Definition VerifyAccessRequest ctx policyId (operations : list Operation) (actor : bytes) : M S bool :=
  r <- attempt (GetActorDID ctx actor) ;;
  let actor := match r with inl did => did | inr _ => actor end in
  on_engine (engine_VerifyAccessRequest ctx policyId operations actor).

(** [utils.MapFailableSlice] with the mapping of relationships. *)
Fixpoint mapRecords (l : list CoreRelationshipRecord) : outcome (list RelationshipRecord) :=
  match l with
  | [] => Ok []
  | r :: rest => m ← MapRelationshipRecord r; ms ← mapRecords rest; Ok (m :: ms)
  end.

Definition FilterRelationships ctx policyId (selector : RelationshipSelector (E := E))
    : M S (list RelationshipRecord) :=
  records <- on_engine (engine_FilterRelationships ctx policyId selector) ;;
  of_outcome (mapRecords records).

Definition ValidatePolicy ctx (policy : bytes) (marshalType : Z) : M S (bool * bytes * option Policy) :=
  on_engine (engine_ValidatePolicy ctx policy marshalType).

(** [GenerateCommitment]: the commitment, its text, and a proof per object. *)
Fixpoint commitmentProofs policyId (actor : bytes) (objects : list Object) (todo : nat) (i : Z)
    : outcome (list RegistrationProof) :=
  match todo with
  | O => Ok []
  | Datatypes.S todo' =>
      proof ← ProofForObject policyId actor i objects;
      proofs ← commitmentProofs policyId actor objects todo' (i + 1);
      Ok (proof :: proofs)
  end.

Definition GenerateCommitment ctx policyId (actor : bytes) (objects : list Object)
    : M S (bytes * bytes * list RegistrationProof) :=
  comm <- BuildCommitment ctx policyId actor objects ;;
  proofs <- of_outcome (commitmentProofs policyId actor objects (length objects) 0) ;;
  ret (comm, hex_encode comm, proofs).

(** ** The end of a block and genesis (abci.go, module/module.go, module/genesis.go) *)

Definition EndBlocker ctx : M S (list RegistrationsCommitment) := FlagExpiredCommitments ctx.

(** The error is only logged. *)
Definition EndBlock ctx : M S unit := attempt (EndBlocker ctx) ;;; ret tt.

Definition InitGenesis (genState : GenesisState) : M S unit := SetParams (gen_Params genState).

Definition ExportGenesis : M S GenesisState := params <- GetParams ;; ret (mkAcpGenesis params).
End keeper.
