(* ===== verification/AcpQuery.v ===== *)
(** The paginated list of policy ids (src/x/acp/keeper/query_policy_ids.go).

    A page is asked for by an offset, or by the key that came with the page
    before, and a limit. The theorem: following the keys of any limit ends after
    as many pages as are needed and has shown every id once, in order; but a limit
    close to 2^64 makes the end of a page wrap around, and the slice panics. *)
From Stdlib Require Import Ascii ZArith Lia.
From stdpp Require Import base numbers list gmap strings.
From S2P Require Import Prelude Sdk AcpTypes AcpState AcpKeeper AcpServer.

(** The constants of the SDK's query package: a limit may take any value of 64
    bits. *)
Class PageLimits : Type := {
  DefaultLimit : Z;
  PaginationMaxLimit : Z;
  DefaultLimit_pos : 0 < DefaultLimit < 2 ^ 63;
  PaginationMaxLimit_uint64 : PaginationMaxLimit = uint64_max;
}.

Record PageRequest : Type := mkPageRequest { page_Key : bytes; page_Offset : Z; page_Limit : Z }.
Record PageResponse : Type := mkPageResponse { NextKey : bytes; Total : Z }.

(** [items[offset:end]] *)
Definition slice {A} (items : list A) (from to : Z) : outcome (list A) :=
  if (from <=? to) && (to <=? Z.of_nat (length items))
  then Ok (take (Z.to_nat (to - from)) (drop (Z.to_nat from) items)) else Panic.

Section pages.
Context `{PageLimits}.

(** The rest of [paginateSlice], once the offset and the limit are known. *)
Definition page_at (items : list bytes) (offset limit : Z) : outcome (list bytes * PageResponse) :=
  let total := Z.of_nat (length items) in
  let limit := if PaginationMaxLimit <? limit then PaginationMaxLimit else limit in
  if total <=? offset then Ok ([], mkPageResponse [] total)
  else
    let end_ := uint64 (offset + limit) in
    let end_ := if total <? end_ then total else end_ in
    result ← slice items offset end_;
    Ok (result, mkPageResponse (if end_ <? total then be_bytes 8 end_ else []) total).

Definition paginateSlice (items : list bytes) (pageReq : option PageRequest)
    : outcome (list bytes * PageResponse) :=
  let total := Z.of_nat (length items) in
  match pageReq with
  | None => Ok (items, mkPageResponse [] total)
  | Some req =>
      if decide (page_Key req <> [] /\ length (page_Key req) <> 8%nat) then Ok ([], mkPageResponse [] total)
      else
        let offset := if decide (page_Key req = []) then page_Offset req else be_uint64 (page_Key req) in
        if page_Limit req =? 0 then
          if 0 <? offset then page_at items offset DefaultLimit
          else Ok (items, mkPageResponse [] total)
        else page_at items offset (page_Limit req)
  end.

(** [PolicyIds]; [utils.MapNullableSlice] leaves out the policies that are nil. *)
Definition PolicyIds `{Raccoon} {E} `{ACPEngine E} {S} `{Lens S (AcpStore E)} (ctx : AcpCtx)
    (pagination : option PageRequest) : M S (list bytes * PageResponse) :=
  records <- on_engine (engine_ListPolicies ctx) ;;
  of_outcome (paginateSlice ((fun p => Policy_Id (cp_Policy p)) <$> omap id records) pagination).

(** A client that follows the keys with a limit of its own. *)
Fixpoint follow_pages (fuel : nat) (items : list bytes) (limit : Z) (key : bytes) : outcome (list bytes) :=
  match fuel with
  | O => Err (ErrMsg "too many pages")
  | Datatypes.S fuel =>
      page ← paginateSlice items (Some (mkPageRequest key 0 limit));
      if decide (NextKey page.2 = []) then Ok page.1
      else rest ← follow_pages fuel items limit (NextKey page.2); Ok (page.1 ++ rest)
  end.

(** A page inside the list, and where the next one starts. *)
Lemma page_at_run items offset limit :
  let total := Z.of_nat (length items) in
  0 <= offset < total -> 0 < limit -> total + limit < 2 ^ 64 ->
  page_at items offset limit =
    Ok (take (Z.to_nat limit) (drop (Z.to_nat offset) items),
        mkPageResponse (if offset + limit <? total then be_bytes 8 (offset + limit) else []) total).
Proof.
  intros total Ho Hl Hs. unfold page_at. rewrite PaginationMaxLimit_uint64. fold total.
  destruct (Z.ltb_spec uint64_max limit); [unfold uint64_max in *; lia|].
  destruct (Z.leb_spec total offset); [lia|]. cbv zeta.
  assert (uint64 (offset + limit) = offset + limit) as -> by (unfold uint64; apply Z.mod_small; lia).
  unfold slice. fold total. destruct (Z.ltb_spec total (offset + limit)).
  - destruct (Z.ltb_spec (offset + limit) total); [lia|].
    rewrite (proj2 (Z.leb_le offset total)), Z.leb_refl by lia. cbn [andb mbind outcome_bind].
    rewrite Z.ltb_irrefl. do 2 f_equal.
    rewrite !take_ge by (rewrite length_drop; lia). done.
  - rewrite (proj2 (Z.leb_le offset (offset + limit))), (proj2 (Z.leb_le (offset + limit) total)) by lia.
    cbn [andb mbind outcome_bind]. by replace (offset + limit - offset) with limit by lia.
Qed.

(** The request that a key stands for. *)
Definition key_offset (key : bytes) (offset : Z) : Prop :=
  (key = [] /\ offset = 0) \/ (key = be_bytes 8 offset /\ 0 <= offset < 2 ^ 64).

Lemma paginateSlice_key items limit key offset : key_offset key offset -> 0 < limit ->
  paginateSlice items (Some (mkPageRequest key 0 limit)) = page_at items offset limit.
Proof.
  intros Hk Hl. unfold paginateSlice. cbn [page_Key page_Offset page_Limit].
  destruct (Z.eqb_spec limit 0); [lia|]. destruct Hk as [[-> ->]|[-> Ho]].
  - destruct (decide _) as [[? _]|_]; [done|]. by destruct (decide _).
  - destruct (decide _) as [[_ Hn]|_]; [by rewrite be_bytes_length in Hn|].
    destruct (decide _) as [E|_]; [by apply (f_equal length) in E; rewrite be_bytes_length in E|].
    by rewrite be_uint64_be_bytes.
Qed.

Lemma follow_pages_from items limit : 0 < limit -> Z.of_nat (length items) + limit < 2 ^ 64 ->
  forall fuel key offset, key_offset key offset -> offset < Z.of_nat (length items) ->
  (Z.of_nat (length items) - offset - 1) / limit < Z.of_nat fuel ->
  follow_pages fuel items limit key = Ok (drop (Z.to_nat offset) items).
Proof.
  intros Hl Hs. induction fuel as [|fuel IH]; intros key offset Hk Ho Hf.
  { assert (0 <= (Z.of_nat (length items) - offset - 1) / limit) by (apply Z.div_pos; lia). lia. }
  assert (0 <= offset) by (destruct Hk as [[_ ->]|[_ ?]]; lia).
  cbn [follow_pages]. rewrite (paginateSlice_key _ _ _ offset), page_at_run by (done || lia).
  cbn [mbind outcome_bind NextKey fst snd]. destruct (Z.ltb_spec (offset + limit) (Z.of_nat (length items))).
  - destruct (decide _) as [E|_]; [by apply (f_equal length) in E; rewrite be_bytes_length in E|].
    rewrite (IH _ (offset + limit)).
    + cbn [mbind outcome_bind]. rewrite Z2Nat.inj_add, <- drop_drop by lia. by rewrite take_drop.
    + right. split; [done|lia].
    + lia.
    + replace (Z.of_nat (length items) - offset - 1)
        with (Z.of_nat (length items) - (offset + limit) - 1 + 1 * limit) in Hf by lia.
      rewrite Z.div_add in Hf by lia. lia.
  - destruct (decide _); [|done]. f_equal. apply take_ge. rewrite length_drop. lia.
Qed.

(** C35: following the keys of the pages ends, after one page per [limit] ids,
    and has shown every id exactly once and in order. A limit so large that the end
    of the page passes 2^64 makes the query panic instead of ending the list. *)
Theorem pagination_complete (items : list bytes) (limit : Z) : 0 < limit <= uint64_max ->
  (Z.of_nat (length items) + limit < 2 ^ 64 ->
   forall fuel, Z.of_nat (length items) / limit < Z.of_nat fuel -> follow_pages fuel items limit [] = Ok items) /\
  (forall offset, 0 < offset < Z.of_nat (length items) -> Z.of_nat (length items) < 2 ^ 63 ->
   2 ^ 64 <= offset + limit -> paginateSlice items (Some (mkPageRequest [] offset limit)) = Panic).
Proof.
  intros Hl. split.
  - intros Hs fuel Hf. destruct (decide (items = [])) as [->|Hne].
    { destruct fuel; [simpl in Hf; rewrite Z.div_0_l in Hf; lia|]. cbn [follow_pages].
      rewrite (paginateSlice_key _ _ _ 0) by (lia || by left). done. }
    assert (0 < Z.of_nat (length items)) by (destruct items; [done|simpl; lia]).
    apply (follow_pages_from items limit (proj1 Hl) Hs fuel [] 0); [by left|done|].
    assert ((Z.of_nat (length items) - 0 - 1) / limit <= Z.of_nat (length items) / limit)
      by (apply Z.div_le_mono; lia). lia.
  - intros offset Ho Hlen Hover. unfold paginateSlice. cbn [page_Key page_Offset page_Limit].
    destruct (decide _) as [[? _]|_]; [done|]. destruct (decide _); [|done].
    destruct (Z.eqb_spec limit 0); [lia|]. unfold page_at. rewrite PaginationMaxLimit_uint64.
    destruct (Z.ltb_spec uint64_max limit); [lia|]. destruct (Z.leb_spec (Z.of_nat (length items)) offset); [lia|].
    cbv zeta. assert (uint64 (offset + limit) = offset + limit - 2 ^ 64) as ->.
    { unfold uint64, uint64_max in *. symmetry. apply (Zmod_unique_full _ _ 1); [left; lia|lia]. }
    unfold uint64_max in *. destruct (Z.ltb_spec (Z.of_nat (length items)) (offset + limit - 2 ^ 64)); [lia|].
    unfold slice. by destruct (Z.leb_spec offset (offset + limit - 2 ^ 64)); [lia|].
Qed.
End pages.

#[export, refine] Instance page_limits_impl : PageLimits := {| DefaultLimit := 100; PaginationMaxLimit := uint64_max |}.
Proof. - lia. - done. Defined.

Lemma pagination_complete_witness :
  follow_pages 3 [lit "a"; lit "b"; lit "c"; lit "d"; lit "e"] 2 [] = Ok [lit "a"; lit "b"; lit "c"; lit "d"; lit "e"] /\
  paginateSlice [lit "a"; lit "b"] (Some (mkPageRequest [] 1 uint64_max)) = Panic.
Proof.
  split.
  - apply (pagination_complete [lit "a"; lit "b"; lit "c"; lit "d"; lit "e"] 2);
      [vm_compute; split; congruence|reflexivity|reflexivity].
  - apply (pagination_complete [lit "a"; lit "b"] uint64_max);
      [vm_compute; split; congruence|vm_compute; split; reflexivity|reflexivity|vm_compute; congruence].
Defined.
