(* ===== verification/AcpReach.v ===== *)
(** What holds in every state of the acp module.

    [kept]: each operation but a signed command leaves the record of processed
    commands alone, and in every reachable state a stored commitment is found under
    its own id and has a creation time. *)
From Stdlib Require Import Ascii ZArith Lia.
From stdpp Require Import base numbers list gmap strings.
From S2P Require Import Prelude Sdk Sha256 Utils CoreKeeper Bearer AcpTypes AcpState AcpKeeper AcpBearer AcpMsgs AcpServer.

(** Capabilities and accounts live outside the module's store. *)
Class AcpFrame (S E : Type) `{Raccoon, !Lens S (AcpStore E), CapabilityKeeper S} : Prop := {
  acp_lens : forall (t : AcpStore E) (s : S), lens_get (lens_set t s) = t;
  NewCapability_frame : forall m name (s : S), lens_get (T := AcpStore E) (NewCapability m name s).2 = lens_get s;
  ClaimCapability_frame : forall m c name (s : S), lens_get (T := AcpStore E) (ClaimCapability m c name s).2 = lens_get s;
}.

Section reach.
Context `{ProtoTypes, AcpCodec, Raccoon, Merkle, GoSort, AddressCodec, DIDKeys, Jose, PayloadJson}.
Context {E : Type} `{ACPEngine E}.
Context {S : Type} `{!Lens S (AcpStore E)} `{!Lens S CoreStore} `{AcpAccounts S, CapabilityKeeper S, !AcpFrame S E}.
Implicit Types (ctx : AcpCtx) (s : S) (seen : gmap bytes bytes) (c : RegistrationsCommitment).

Definition acp (s : S) : AcpStore E := lens_get s.

(** Every commitment is stored under its id, with its creation time. *)
Definition comm_ok (t : Table RegistrationsCommitment) : Prop :=
  forall id c, rows t !! id = Some c -> cm_Id c = id /\ is_Some (CreationTs (cm_Metadata c)).

Definition kept seen (s : S) : Prop :=
  spc_seen (acp s) = seen /\ comm_ok (commitments (acp s)).

Lemma acp_get_run {A} (f : AcpStore E -> A) s : acp_get f s = (Ok (f (acp s)), s).
Proof. done. Qed.

Lemma acp_mod_run f s : acp_mod f s = (Ok tt, lens_set (f (acp s)) s).
Proof. done. Qed.

Lemma acp_set (t : AcpStore E) s : acp (lens_set t s) = t.
Proof. apply acp_lens. Qed.

Lemma acp_get_kept {A} seen (f : AcpStore E -> A) : preserves (kept seen) (acp_get f).
Proof. apply preserves_gets. Qed.

Lemma acp_mod_kept seen (f : AcpStore E -> AcpStore E) :
  (forall t, spc_seen (f t) = spc_seen t) -> (forall t, comm_ok (commitments t) -> comm_ok (commitments (f t))) ->
  preserves (kept seen) (acp_mod f).
Proof.
  intros Hs Hc. apply preserves_modify. intros s [Hk1 Hk2]. unfold kept. rewrite acp_set.
  split; [by rewrite Hs|by apply Hc].
Qed.

Lemma on_engine_kept {A} seen (m : M E A) : preserves (kept seen) (on_engine (S := S) m).
Proof.
  intros s Hs. unfold on_engine. destruct (m _) as [[a|e|] e'] eqn:Em; try done;
    unfold kept; by rewrite acp_set.
Qed.

Lemma deref_kept {A} seen (o : option A) : preserves (kept seen) (deref (S := S) o).
Proof. destruct o; [apply preserves_ret|apply preserves_panic]. Qed.

#[local] Hint Resolve acp_get_kept on_engine_kept deref_kept : preserves.

Lemma comm_ok_insert t t' id c : comm_ok t -> rows t' = <[id := c]> (rows t) -> cm_Id c = id ->
  is_Some (CreationTs (cm_Metadata c)) -> comm_ok t'.
Proof.
  intros Ht Hr Hid Hts k c'. rewrite Hr. intros [[<- <-]|[_ Hl]]%lookup_insert_Some; [done|]. by apply Ht.
Qed.

Lemma commitment_create_kept seen c : is_Some (CreationTs (cm_Metadata c)) ->
  preserves (kept seen) (commitment_create (S := S) c).
Proof.
  intros Hts s [Hs Hc]. unfold commitment_create. unfold bind at 1. rewrite acp_get_run.
  destruct (Table_Insert _ c _) as [[c' t']|e] eqn:Ei; [|done].
  apply Table_Insert_rows in Ei as (id & _ & -> & Hrows). unfold bind. rewrite acp_mod_run. simpl.
  unfold kept. rewrite acp_set. split; [done|]. by eapply comm_ok_insert.
Qed.

Lemma commitment_update_kept seen c : is_Some (CreationTs (cm_Metadata c)) ->
  preserves (kept seen) (commitment_update (S := S) c).
Proof.
  intros Hts s [Hs Hc]. unfold commitment_update. unfold bind at 1. rewrite acp_get_run.
  destruct (Table_Update _ c _) as [t'|e] eqn:Ei; [|done].
  apply Table_Update_rows in Ei. rewrite acp_mod_run. unfold kept. rewrite acp_set.
  split; [done|]. by eapply comm_ok_insert.
Qed.

(** The index of commitments that are not flagged. *)
Lemma non_expired_spec t c : c ∈ Index_Iterate Expired false t <->
  exists id, rows t !! id = Some c /\ Expired c = false.
Proof.
  rewrite Index_Iterate_rows, list_elem_of_fmap. split.
  - intros ([id c'] & -> & Hin). apply list_elem_of_filter in Hin as [He Hin%elem_of_map_to_list]. eauto.
  - intros (id & Hl & He). exists (id, c). split; [done|]. apply list_elem_of_filter.
    split; [done|]. by apply elem_of_map_to_list.
Qed.

(** Which of a list of commitments have expired, as long as each can tell. *)
Fixpoint expired_of (now : Timestamp) (l : list RegistrationsCommitment) : outcome (list RegistrationsCommitment) :=
  match l with
  | [] => Ok []
  | c :: l' =>
      expired ← IsExpiredAgainst c now;
      rest ← expired_of now l';
      Ok (if expired : bool then c :: rest else rest)
  end.

Lemma flag_loop_run now l : forall acc s,
  foldM (fun processed c =>
    expired <- of_outcome (IsExpiredAgainst c now) ;;
    ret (if expired : bool then processed ++ [with_expired c] else processed)) acc l s
  = (rest ← expired_of now l; Ok (acc ++ (with_expired <$> rest)), s).
Proof.
  induction l as [|c l IH]; intros acc s; cbn [foldM expired_of].
  { simpl. by rewrite app_nil_r. }
  unfold bind at 1. unfold bind at 1. unfold of_outcome.
  destruct (IsExpiredAgainst c now) as [b| |]; simpl; [|done|done]. rewrite IH.
  destruct (expired_of now l) as [rest| |]; simpl; [|done|done]. destruct b; [|done].
  by rewrite fmap_cons, <- app_assoc.
Qed.

Lemma expired_of_incl now l l' : expired_of now l = Ok l' -> forall c, c ∈ l' -> c ∈ l.
Proof.
  revert l'. induction l as [|x l IH]; intros l' Hl c Hc; cbn [expired_of] in Hl; simplify_eq; [done|].
  apply outcome_bind_ok in Hl as (b & _ & Hl). apply outcome_bind_ok in Hl as (rest & Hr & [= <-]).
  destruct b; [apply elem_of_cons in Hc as [->|Hc]|]; [by left| |]; right; by eapply IH.
Qed.

Lemma FlagExpired_kept seen ctx : preserves (kept seen) (FlagExpiredCommitments (S := S) ctx).
Proof.
  intros s Hs. unfold FlagExpiredCommitments. rewrite bind_run, of_outcome_run.
  destruct (TimestampFromCtx ctx) as [now| |]; [|done|done].
  unfold GetNonExpiredCommitments. rewrite bind_run, acp_get_run. cbv beta iota. rewrite bind_run, flag_loop_run.
  destruct (expired_of now _) as [l| |] eqn:El; [|done|done]. cbn [mbind outcome_bind app].
  assert (Hp : preserves (kept seen) (forM_ (commitment_update (S := S)) (with_expired <$> l) ;;; ret (with_expired <$> l))).
  { apply preserves_bind; [|intros ?; apply preserves_ret]. destruct Hs as [_ Hc].
    assert (Hin : forall c, c ∈ l -> is_Some (CreationTs (cm_Metadata c))).
    { intros c Hin. eapply expired_of_incl, non_expired_spec in Hin as (id & Hl & _); [|done]. by eapply Hc. }
    clear El. induction l as [|c l IH]; simpl; [apply preserves_ret|]. apply preserves_bind.
    - apply commitment_update_kept. simpl. apply Hin. by left.
    - intros _. apply IH. intros c' Hc'. apply Hin. by right. }
  exact (Hp s Hs).
Qed.

(** ** Commands *)

Lemma metadata_ts ctx actor creator :
  forall m, BuildRecordMetadata ctx actor creator = Ok m -> is_Some (CreationTs m).
Proof. intros m (ts & _ & [= <-])%outcome_bind_ok. by eexists. Qed.

Lemma bind_outcome_kept {A B} seen (o : outcome A) (k : A -> M S B) :
  (forall a, o = Ok a -> preserves (kept seen) (k a)) -> preserves (kept seen) (bind (of_outcome o) k).
Proof. intros Hk s Hs. unfold bind, of_outcome. destruct o; [by apply Hk|done|done]. Qed.

Lemma SetNewCommitment_kept seen ctx policyId commitment actor params creator :
  preserves (kept seen) (SetNewCommitment (S := S) ctx policyId commitment actor params creator).
Proof.
  unfold SetNewCommitment. do 3 (apply preserves_bind; [eauto with preserves|intros ?]).
  apply bind_outcome_kept. intros m Hm. apply commitment_create_kept. simpl. by eapply metadata_ts.
Qed.

Lemma events_mod_kept seen t : preserves (kept seen) (acp_mod (S := S) (set_amendments t)).
Proof. by apply acp_mod_kept. Qed.

Lemma params_mod_kept seen p : preserves (kept seen) (acp_mod (S := S) (set_acp_params p)).
Proof. by apply acp_mod_kept. Qed.

Lemma decisions_mod_kept seen (f : gmap bytes AccessDecision -> gmap bytes AccessDecision) :
  preserves (kept seen) (acp_mod (S := S) (fun t => set_decisions (f (decisions t)) t)).
Proof. by apply acp_mod_kept. Qed.

#[local] Hint Resolve SetNewCommitment_kept events_mod_kept params_mod_kept decisions_mod_kept : preserves.

Lemma Dispatch_kept seen (cmdCtx : PolicyCmdCtx) cmd : preserves (kept seen) (Dispatch (S := S) cmdCtx cmd).
Proof.
  unfold Dispatch. apply preserves_bind; [eauto with preserves|intros ctx']. cbv zeta.
  apply preserves_bind; [eauto with preserves|intros c].
  destruct c; unfold setRelationship, deleteRelationship, registerObject, archiveObject, commitRegistrations,
    revealRegistration, flagHijackAttempt, unarchiveObject, RegisterObject, ArchiveObject, UnarchiveObject,
    RevealRegistration, ValidateOpening, amendRegistration, FlagHijackEvent, event_create, event_update,
    event_GetById, commitment_GetById; preserve.
Qed.

#[local] Hint Resolve Dispatch_kept FlagExpired_kept : preserves.

(** ** The operations of the module *)

Inductive acp_op : Type :=
  | OpCreatePolicy (msg : MsgCreatePolicy)
  | OpEditPolicy (msg : MsgEditPolicy)
  | OpDirectPolicyCmd (msg : MsgDirectPolicyCmd)
  | OpBearerPolicyCmd (msg : MsgBearerPolicyCmd)
  | OpSignedPolicyCmd (msg : MsgSignedPolicyCmd)
  | OpCheckAccess (msg : MsgCheckAccess)
  | OpUpdateParams (authority : bytes) (req : MsgUpdateParams)
  | OpCreateModulePolicy (policy : bytes) (marshalType : Z) (module : bytes)
  | OpEditModulePolicy (cap : PolicyCapability S) (policy : bytes) (marshalType : Z)
  | OpModuleCmdForDID (cap : PolicyCapability S) (cmd : option PolicyCmd) (actorDID txSigner : bytes)
  | OpModuleCmdForAccount (cap : PolicyCapability S) (cmd : option PolicyCmd) (actorAcc txSigner : bytes)
  | OpEndBlock.

Definition run_acp_op ctx (op : acp_op) : M S unit :=
  match op with
  | OpCreatePolicy msg => CreatePolicy ctx msg ;;; ret tt
  | OpEditPolicy msg => EditPolicy ctx msg ;;; ret tt
  | OpDirectPolicyCmd msg => DirectPolicyCmd ctx msg ;;; ret tt
  | OpBearerPolicyCmd msg => BearerPolicyCmd ctx msg ;;; ret tt
  | OpSignedPolicyCmd msg => SignedPolicyCmd ctx msg ;;; ret tt
  | OpCheckAccess msg => CheckAccess ctx msg ;;; ret tt
  | OpUpdateParams authority req => UpdateParams authority req
  | OpCreateModulePolicy policy marshalType module => CreateModulePolicy ctx policy marshalType module ;;; ret tt
  | OpEditModulePolicy cap policy marshalType => EditModulePolicy ctx cap policy marshalType ;;; ret tt
  | OpModuleCmdForDID cap cmd actorDID txSigner => ModulePolicyCmdForActorDID ctx cap cmd actorDID txSigner ;;; ret tt
  | OpModuleCmdForAccount cap cmd actorAcc txSigner => ModulePolicyCmdForActorAccount ctx cap cmd actorAcc txSigner ;;; ret tt
  | OpEndBlock => EndBlock ctx
  end.

(** After an operation that does not panic its writes are in place, or the
    transaction runner has dropped them. *)
Definition acp_after ctx (op : acp_op) s s' : Prop :=
  s' = s \/ exists o, run_acp_op ctx op s = (o, s') /\ o <> Panic.

(** Runs of the chain from a block height to another: heights do not fall. *)
Inductive acp_run : Z -> S -> Z -> S -> Prop :=
  | acp_run_refl h s : acp_run h s h s
  | acp_run_step h s h1 s1 s2 ctx op : acp_run h s h1 s1 ->
      h1 <= block_height ctx <= int64_max -> acp_after ctx op s1 s2 ->
      acp_run h s (block_height ctx) s2.

Definition is_signed (op : acp_op) : Prop := match op with OpSignedPolicyCmd _ => True | _ => False end.

Lemma IssueDID_kept seen ctx addr : preserves (kept seen) (IssueDIDFromAccountAddr (S := S) ctx addr).
Proof. unfold IssueDIDFromAccountAddr, GetICAConnection, core_get. preserve. Qed.

Lemma GetActorDID_kept seen ctx addr : preserves (kept seen) (GetActorDID (S := S) ctx addr).
Proof. unfold GetActorDID. destruct (decide _); [apply IssueDID_kept|apply preserves_ret]. Qed.

Lemma Validate_kept seen cap : preserves (kept seen) (Validate (S := S) ModuleName cap).
Proof. unfold Validate, isOwnedByAcpModule. preserve. Qed.

Lemma GetOwnerModule_kept seen cap : preserves (kept seen) (GetOwnerModule (S := S) ModuleName cap).
Proof. unfold GetOwnerModule. preserve. Qed.

Lemma Issue_kept seen policyId : preserves (kept seen) (Issue (S := S) ModuleName policyId).
Proof.
  unfold Issue. apply preserves_bind; [|intros ?; apply preserves_ret]. intros s Hs.
  pose proof (NewCapability_frame ModuleName (CapabilityName policyId) s) as Hf.
  destruct (NewCapability _ _ _) as [[a|e|] s'] eqn:En; simpl in Hf; try done;
    unfold kept, acp; by rewrite Hf.
Qed.

#[local] Hint Resolve IssueDID_kept GetActorDID_kept Validate_kept GetOwnerModule_kept Issue_kept : preserves.

Lemma run_acp_op_kept seen ctx op : ~ is_signed op -> preserves (kept seen) (run_acp_op ctx op).
Proof.
  intros Hop. destruct op; simpl in *; try done;
    unfold CreatePolicy, EditPolicy, DirectPolicyCmd, BearerPolicyCmd, CheckAccess, Execute, decision_Set,
      UpdateParams, CreateModulePolicy, EditModulePolicy, ModulePolicyCmdForActorDID,
      ModulePolicyCmdForActorAccount, dispatchModulePolicyCmd, EndBlock, EndBlocker, GetParams, SetParams; preserve.
Qed.
End reach.
