(* ===== verification/AcpWorld.v ===== *)
(** A concrete chain around the acp module: tables that are maps, a toy policy
    engine in which the owner of an object may do everything with it, capabilities
    as lists of modules. It shows that the laws of the classes can hold together,
    and the witnesses run on it. *)
From Stdlib Require Import Ascii ZArith Lia.
From stdpp Require Import base numbers list gmap strings countable.
From S2P Require Import Prelude Sdk Sha256 Utils CoreKeeper Bearer AcpTypes AcpState AcpKeeper AcpBearer AcpMsgs AcpServer AcpReach.

(** * Libraries *)

#[export, refine] Instance proto_impl : ProtoTypes := {|
  TimestampProto t :=
    if decide (time_in_range t) then inl (mkProtoTimestamp (t / 1000000000) (t mod 1000000000))
    else inr (ErrMsg "timestamp: out of range");
  TimestampFromProto p := inl (ts_Seconds p * 1000000000 + ts_Nanos p);
  TimestampString p := show_nat (ts_Seconds p) ++ lit "." ++ show_nat (ts_Nanos p);
  DurationProto d := mkProtoDuration (d / 1000000000) (d mod 1000000000);
  DurationFromProto p := inl (dur_Seconds p * 1000000000 + dur_Nanos p);
|}.
Proof.
  - intros t Ht. destruct (decide _); [by eexists|done].
  - intros t p. destruct (decide _); [|done]. intros [= <-]. f_equal. simpl. pose proof (Z.div_mod t 1000000000). lia.
  - intros d _. f_equal. simpl. pose proof (Z.div_mod d 1000000000). lia.
Defined.

(** Metadata as the bits of its number in an enumeration. *)
Definition metadata_tuple (m : RecordMetadata) :=
  ((fun t => (ts_Seconds (ProtoTs t), ts_Nanos (ProtoTs t), BlockHeight t)) <$> CreationTs m,
   TxHash m, TxSigner m, OwnerDid m).

Definition tuple_metadata (x : option (Z * Z * Z) * bytes * bytes * bytes) : RecordMetadata :=
  let '(ts, h, s, o) := x in
  mkRecordMetadata ((fun t : Z * Z * Z => mkTimestamp (mkProtoTimestamp t.1.1 t.1.2) t.2) <$> ts) h s o.

Fixpoint bits_of (p : positive) : bytes :=
  match p with xH => [] | xO p => "0"%char :: bits_of p | xI p => "1"%char :: bits_of p end.
Fixpoint of_bits (b : bytes) : positive :=
  match b with [] => xH | c :: b => if decide (c = "0"%char) then xO (of_bits b) else xI (of_bits b) end.

Lemma of_bits_of p : of_bits (bits_of p) = p.
Proof. induction p; simpl; congruence. Qed.

#[export, refine] Instance codec_impl : AcpCodec := {|
  RecordMetadata_Marshal m := inl (bits_of (encode (metadata_tuple m)));
  RecordMetadata_Unmarshal bz :=
    match decode (of_bits bz) with
    | Some x => inl (tuple_metadata x)
    | None => inr (ErrMsg "unmarshal")
    end;
  NewDIDPrincipal did := if HasPrefix did (lit "did:") then inl (DIDPrincipal did) else inr (ErrMsg "not a did");
|}.
Proof.
  - intros m bz [= <-]. rewrite of_bits_of, decode_encode. f_equal.
    destruct m as [[[[sec nan] h]|] tx sg ow]; done.
  - intros did p. destruct (HasPrefix did _); [|done]. by intros [= <-].
Defined.

(** ** Tables *)

Definition largest_id {R} (t : gmap Z R) : Z := map_fold (fun id _ m => Z.max id m) 0 t.

Lemma largest_id_le {R} (t : gmap Z R) id r : t !! id = Some r -> id <= largest_id t.
Proof.
  unfold largest_id. revert id r. apply (map_fold_weak_ind (fun m t => forall id r, t !! id = Some r -> id <= m)).
  - intros id r. by rewrite lookup_empty.
  - intros i x m b _ IH id r [[<- <-]|[_ Hl]]%lookup_insert_Some; [lia|]. specialize (IH _ _ Hl). lia.
Qed.

#[export, refine] Instance raccoon_impl : Raccoon := {|
  Table := gmap Z;
  rows R t := t;
  NewTable R := ∅;
  Table_Insert R setter r t :=
    let id := largest_id t + 1 in inl (setter r id, <[id := setter r id]> t);
  Table_Update R getter r t := inl (<[getter r := r]> t);
  Table_GetByID R id t := inl (t !! id);
  Index_Iterate R K _ f k t := (filter (fun x => f x.2 = k) (map_to_list t)).*2;
|}.
Proof.
  - done.
  - intros R setter r t r' t' [= <- <-]. exists (largest_id t + 1). split; [|done].
    destruct (t !! (largest_id t + 1)) eqn:Hl; [|done]. apply largest_id_le in Hl. lia.
  - intros R getter r t t' [= <-]. done.
  - intros R getter r t _. by eexists.
  - done.
  - done.
Defined.

(** ** Trees: the aunts of a leaf are all the leaves *)

#[export, refine] Instance merkle_impl : Merkle := {|
  HashFromByteSlices leaves := sha256 (concat leaves);
  ProofAunts leaves _ := leaves;
  Proof_Verify total index leafHash aunts root leaf :=
    if decide (total = Z.of_nat (length aunts) /\ 0 <= index /\ aunts !! Z.to_nat index = Some leaf /\
               leafHash = sha256 (byte_of_Z 0 :: leaf) /\ root = sha256 (concat aunts))
    then None else Some (ErrMsg "invalid proof");
|}.
Proof.
  - intros leaves. apply sha256_length.
  - intros leaves i leaf Hl _. rewrite decide_True; [done|]. rewrite Nat2Z.id. split_and!; try done. lia.
Defined.

(** Insertion sort. *)
Fixpoint sort_insert {A} (less : A -> A -> bool) (x : A) (l : list A) : list A :=
  match l with
  | [] => [x]
  | y :: l' => if less y x then y :: sort_insert less x l' else x :: l
  end.

Lemma sort_insert_perm {A} (less : A -> A -> bool) x l : sort_insert less x l ≡ₚ x :: l.
Proof. induction l as [|y l IH]; simpl; [done|]. destruct (less y x); [|done]. rewrite IH. by constructor. Qed.

#[export, refine] Instance sort_impl : GoSort := {| sort_Stable A less l := foldr (sort_insert less) [] l |}.
Proof.
  - intros A less l. induction l as [|x l IH]; simpl; [done|]. by rewrite sort_insert_perm, IH.
  - intros A less l. induction l as [|x l IH]; simpl; [done|]. intros Heq. rewrite IH by (intros; apply Heq; by right).
    destruct l as [|y l]; simpl; [done|]. rewrite Heq; [done|right; left|left].
Defined.

#[export] Instance did_keys_impl : DIDKeys := {|
  CreateDIDKey _ bz := inl (lit "did:key:" ++ bz);
  ECDH_Bytes bz := inl bz;
|}.

(** A payload names its actor, up to a blank; the rest is fixed. *)
#[export, refine] Instance payload_impl : PayloadJson := {|
  payload_UnmarshalString text :=
    inl (mkSignedPolicyCmdPayload (filter (fun c => c <> " "%char) text) 5 (Some (mkProtoTimestamp 0 0)) 10 (lit "policy1")
      (Some (SetRelationshipCmd (mkRelationship (mkObject (lit "file") (lit "x")) (lit "reader")
        (SubjectActor (lit "did:key:r"))))));
|}.
Proof. intros text p [= <-]. simpl. lia. Defined.

(** * The engine *)

Record ToyEngine : Type := mkToyEngine {
  te_policies : gmap bytes CorePolicyRecord;
  te_registrations : gmap (bytes * bytes * bytes) (bytes * bytes);
  te_relationships : list (bytes * Relationship);
}.

Definition object_key (policyId : bytes) (o : Object) : bytes * bytes * bytes := (policyId, Resource o, ObjectId o).

(** Whom the engine acts for. *)
Definition acting (ctx : AcpCtx) : bytes :=
  match principal ctx with Some (DIDPrincipal did) => did | _ => [] end.

Definition owner_record (policyId : bytes) (o : Object) (owner blob : bytes) : CoreRelationshipRecord :=
  mkCoreRelationshipRecord policyId false (mkRelationship o (lit "owner") (SubjectActor owner))
    (mkCoreMetadata owner blob).

Definition toy_register (policyId : bytes) (o : Object) (owner blob : bytes) : M ToyEngine CoreRelationshipRecord :=
  fun e => (Ok (owner_record policyId o owner blob),
            mkToyEngine (te_policies e)
              (<[object_key policyId o := (owner, blob)]> (te_registrations e))
              (te_relationships e)).

Definition toy_register_new (policyId : bytes) (o : Object) (owner blob : bytes) : M ToyEngine CoreRelationshipRecord :=
  registered <- gets (fun e => te_registrations e !! object_key policyId o) ;;
  throw_if (bool_decide (is_Some registered)) ErrorType_OPERATION_FORBIDDEN ;;;
  toy_register policyId o owner blob.

Definition toy_owner (policyId : bytes) (o : Object) (e : ToyEngine) : bytes :=
  match te_registrations e !! object_key policyId o with
  | Some r => r.1
  | None => []
  end.

#[global] Instance Subject_eq_dec : EqDecision Subject.
Proof. solve_decision. Defined.
#[global] Instance Relationship_eq_dec : EqDecision Relationship.
Proof. solve_decision. Defined.

(** Owners and the subjects of a relationship with the object pass. *)
Definition toy_allowed (policyId actor : bytes) (e : ToyEngine) (op : Operation) : bool :=
  bool_decide (toy_owner policyId (op_Object op) e = actor) ||
  existsb (fun pr => bool_decide (pr.1 = policyId) && bool_decide (rel_Object pr.2 = op_Object op) &&
                     bool_decide (rel_Subject pr.2 = SubjectActor actor)) (te_relationships e).

Definition toy_relate (ctx : AcpCtx) (policyId : bytes) (r : Relationship)
    (f : list (bytes * Relationship) -> list (bytes * Relationship)) : M ToyEngine unit :=
  owner <- gets (toy_owner policyId (rel_Object r)) ;;
  throw_if (negb (bool_decide (owner = acting ctx))) ErrorType_UNAUTHORIZED ;;;
  modify (fun e => mkToyEngine (te_policies e) (te_registrations e) (f (te_relationships e))).

Definition toy_policy (id : bytes) (definition : bytes) (marshalType : Z) (creator blob : bytes) : CorePolicyRecord :=
  mkCorePolicyRecord (mkPolicy id definition) (mkCoreMetadata creator blob) marshalType definition.

#[export] Instance engine_impl : ACPEngine ToyEngine := {|
  RelationshipSelector := unit;
  engine_CreatePolicy ctx policy marshalType blob := fun e =>
    let id := lit "policy" ++ show_nat (Z.of_nat (size (te_policies e)) + 1) in
    let rec := toy_policy id policy marshalType (acting ctx) blob in
    (Ok rec, mkToyEngine (<[id := rec]> (te_policies e)) (te_registrations e) (te_relationships e));
  engine_EditPolicy ctx id policy marshalType := throw ErrorType_UNAUTHORIZED;
  engine_GetPolicy ctx id := gets (fun e => te_policies e !! id);
  engine_ListPolicies ctx := gets (fun e => Some <$> (map_to_list (te_policies e)).*2);
  engine_ValidatePolicy ctx policy marshalType := ret (true, [], None);
  engine_SetRelationship ctx policyId r blob :=
    toy_relate ctx policyId r (fun l => (policyId, r) :: l) ;;;
    ret (false, mkCoreRelationshipRecord policyId false r (mkCoreMetadata (acting ctx) blob));
  engine_DeleteRelationship ctx policyId r :=
    toy_relate ctx policyId r (filter (fun pr => pr <> (policyId, r))) ;;; ret true;
  engine_FilterRelationships ctx policyId _ := ret [];
  engine_RegisterObject ctx policyId o blob := toy_register_new policyId o (acting ctx) blob;
  engine_ArchiveObject ctx policyId o := throw ErrorType_UNAUTHORIZED;
  engine_UnarchiveObject ctx policyId o := throw ErrorType_UNAUTHORIZED;
  engine_GetObjectRegistration ctx policyId o := 
    gets (fun e => (fun r => owner_record policyId o r.1 r.2) <$> te_registrations e !! object_key policyId o);
  engine_RevealRegistration ctx policyId o blob _ := toy_register_new policyId o (acting ctx) blob;
  engine_AmendRegistration ctx policyId o newOwner _ blob := toy_register policyId o newOwner blob;
  engine_VerifyAccessRequest ctx policyId operations actor :=
    gets (fun e => forallb (toy_allowed policyId actor e) operations);
|}.

(** * The chain *)

(** [X] is the state of the modules that use this one. *)
Record AcpWorld (X : Type) : Type := mkAcpWorld {
  aw_acp : AcpStore ToyEngine;
  aw_acp_core : CoreStore;
  aw_caps : gmap bytes (list bytes);
  aw_client : X;
}.
Arguments mkAcpWorld {X}. Arguments aw_acp {X}. Arguments aw_acp_core {X}. Arguments aw_caps {X}.
Arguments aw_client {X}.

#[export] Instance aw_acp_lens X : Lens (AcpWorld X) (AcpStore ToyEngine) :=
  {| lens_get := aw_acp; lens_set t s := mkAcpWorld t (aw_acp_core s) (aw_caps s) (aw_client s) |}.
#[export] Instance aw_acp_core_lens X : Lens (AcpWorld X) CoreStore :=
  {| lens_get := aw_acp_core; lens_set t s := mkAcpWorld (aw_acp s) t (aw_caps s) (aw_client s) |}.

(** Every address but a DID has an account, whose key is the address. *)
#[export] Instance aw_acp_accounts X : AcpAccounts (AcpWorld X) :=
  {| GetAccount a _ := if HasPrefix a (lit "did:") then None else Some (mkAccount a (Some (Secp256k1Key a)) 7) |}.

Definition toy_owners {X} (name : bytes) (s : AcpWorld X) : list bytes := default [] (aw_caps s !! name).
Definition set_owners {X} (name : bytes) (l : list bytes) (s : AcpWorld X) : AcpWorld X :=
  mkAcpWorld (aw_acp s) (aw_acp_core s) (<[name := l]> (aw_caps s)) (aw_client s).

(** A capability is its name. *)
#[export] Instance aw_acp_caps X : CapabilityKeeper (AcpWorld X) := {|
  Capability := bytes;
  NewCapability m name := fun s =>
    if decide (is_Some (aw_caps s !! name)) then (Err (ErrMsg "capability name already taken"), s)
    else (Ok name, set_owners name [m] s);
  ClaimCapability m c name := fun s =>
    if decide (m ∈ toy_owners name s \/ c <> name) then (Err (ErrMsg "capability cannot be claimed"), s)
    else (Ok tt, set_owners name (toy_owners name s ++ [m]) s);
  GetCapability m name s := if decide (m ∈ toy_owners name s) then Some name else None;
  AuthenticateCapability m c name s := bool_decide (c = name /\ m ∈ toy_owners name s);
  LookupModules m name s := inl (toy_owners name s);
|}.

#[export] Instance aw_acp_frame X : AcpFrame (AcpWorld X) ToyEngine.
Proof.
  split; [done|..].
  - intros m name s. simpl. by destruct (decide _).
  - intros m c name s. simpl. by destruct (decide _).
Qed.

Definition acp_start {X} (params : option Params) (x : X) : AcpWorld X :=
  mkAcpWorld (mkAcpStore params (mkToyEngine ∅ ∅ []) ∅ NewTable NewTable ∅) empty_core ∅ x.

(** [did:key:k] owns a file of the only policy. *)
Definition demo_file : Object := mkObject (lit "file") (lit "x").
Definition demo_world : AcpWorld unit :=
  let blob := match RecordMetadata_Marshal (mkRecordMetadata None [] [] []) with inl bz => bz | inr _ => [] end in
  mkAcpWorld
    (mkAcpStore (Some (mkAcpParams 100 (Some (Duration_BlockCount 10))))
       (mkToyEngine {[lit "policy1" := toy_policy (lit "policy1") [] 0 (lit "did:key:k") blob]}
          {[object_key (lit "policy1") demo_file := (lit "did:key:k", blob)]} [])
       ∅ NewTable NewTable ∅) empty_core ∅ tt.
Definition demo_ctx (h : Z) : AcpCtx := mkAcpCtx (mkCtx (h * 5000000000) h []) [] None.
