(* ===== verification/AcpTicket.v ===== *)
(** Access tickets (src/x/acp/access_ticket). A client that holds an access decision
    makes a ticket of it: the decision, a proof that the chain stores it, and a
    signature of the actor. A service that trusts a node checks the ticket against
    the node, without asking the acp module. No ticket that is issued passes this check,
    and the id of a decision leaves open what it decides. *)
From Stdlib Require Import Ascii ZArith Lia.
From stdpp Require Import base numbers list gmap strings.
From S2P Require Import Prelude Sdk Sha256 Utils CoreKeeper Bearer AcpTypes AcpState AcpKeeper AcpBearer AcpMsgs AcpServer AcpWorld GoText.

(** * Tickets *)

(** A decision as it is read from the wire, where messages inside it may be
    missing. *)
Record TicketDecision : Type := mkTicketDecision {
  td_Id : bytes;
  td_PolicyId : bytes;
  td_Creator : bytes;
  td_CreatorAccSequence : Z;
  td_Operations : list (option Object * bytes);
  td_Actor : bytes;
  td_Params : option DecisionParams;
  td_CreationTime : option Timestamp;
  td_IssuedHeight : Z;
}.

Record AccessTicket : Type := mkAccessTicket {
  VersionDenominator : bytes;
  DecisionId : bytes;
  tk_Decision : option TicketDecision;
  DecisionProof : bytes;
  tk_Signature : bytes;
}.

Definition AccessTicketV1 : bytes := lit "v1".

Definition ErrExternal : error := ErrMsg "external error".
Definition ErrDecisionNotFound : error := ErrMsg "decision not found".
Definition ErrExpiredDecision : error := ErrMsg "expired decision".
Definition ErrExpiredTicket : error := ErrMsg "expired ticket".
Definition ErrInvalidDecisionProof : error := ErrMsg "invalid DecisionProof bytes".
Definition ErrInvalidSignature : error := ErrMsg "invalid signature for ticket".
Definition ErrDecisionTampered : error := ErrMsg "AccessDecision fingerprint different from DecisionId".

(** * Libraries and the node *)

(** CometBFT's answer to a query, with the proof of the value. *)
Record ProofOp : Type := mkProofOp { po_Type : bytes; po_Key : bytes; po_Data : bytes }.

Record ResponseQuery : Type := mkResponseQuery {
  rq_Height : Z;
  rq_Value : option bytes;
  rq_ProofOps : option (list ProofOp);
}.

(** The protobuf encodings, and CometBFT's [ProofRuntime.VerifyValue] with the two
    kinds of operators of a Cosmos store. A key path is a list of parts, each after a
    slash; every operator that has a key uses up one part, and none is left over. *)
Class TicketCodec : Type := {
  AccessTicket_Marshal : AccessTicket -> bytes + error;
  AccessTicket_Unmarshal : bytes -> AccessTicket + error;
  AccessTicket_roundtrip : forall t bz, AccessTicket_Marshal t = inl bz -> AccessTicket_Unmarshal bz = inl t;
  AccessDecision_Unmarshal : bytes -> TicketDecision + error;
  ResponseQuery_Marshal : ResponseQuery -> bytes + error;
  ResponseQuery_Unmarshal : bytes -> ResponseQuery + error;
  ResponseQuery_roundtrip : forall r bz, ResponseQuery_Marshal r = inl bz -> ResponseQuery_Unmarshal bz = inl r;
  VerifyValue : option (list ProofOp) -> bytes -> bytes -> option bytes -> outcome unit;
  VerifyValue_keys : forall ops root path value, VerifyValue (Some ops) root ("/"%char :: path) value = Ok tt ->
    length (filter (fun k => k <> []) (po_Key <$> ops)) = length (Split "/" path);
}.

(** The keys of the SDK that sign tickets. A signature of a key verifies. *)
Class TicketKeys `{Jose} : Type := {
  is_SECP256k1 : KeyType -> bool;
  PrivKey : Type;
  key_PubKey : PrivKey -> bytes;
  key_Sign : PrivKey -> bytes -> bytes + error;
  VerifySignature : bytes -> bytes -> bytes -> bool;
  key_Sign_verifies : forall sk digest sig, key_Sign sk digest = inl sig -> VerifySignature (key_PubKey sk) digest sig = true;
}.

(** The client of a node. The node moves on between calls. *)
Class CometClient (N : Type) : Type := {
  http_New : bytes -> option error;
  ABCIQueryWithOptions : bytes -> bytes -> Z -> bool -> M N ResponseQuery;
  ABCIInfo : M N Z;
  Block_AppHash : Z -> M N bytes;
}.

(** * The operations *)

(** [strings.Cut] at the first separator. *)
Fixpoint Cut (sep : ascii) (s : bytes) : option (bytes * bytes) :=
  match s with
  | [] => None
  | c :: s' =>
      if decide (c = sep) then Some ([], s')
      else (fun p => (c :: p.1, p.2)) <$> Cut sep s'
  end.

Definition separator : ascii := ".".
Definition iavlQuerySuffix : bytes := lit "key".
Definition AccessDecisionRepositoryKeyPrefix : bytes := lit "access_decision/".

(** ** Keys (types.go) *)

Definition ABCIQueryKey (decisionId : bytes) : bytes := AccessDecisionRepositoryKeyPrefix ++ decisionId.
Definition KVKey (decisionId : bytes) : bytes :=
  lit "/" ++ lit "acp" ++ lit "/" ++ AccessDecisionRepositoryKeyPrefix ++ decisionId.
Definition ABCIQueryPath : bytes := lit "/" ++ lit "store" ++ lit "/" ++ lit "acp" ++ lit "/" ++ iavlQuerySuffix.

(** ** Signatures (signer.go) *)

Definition hashTicket (ticket : AccessTicket) : bytes :=
  sha256 (VersionDenominator ticket ++ DecisionId ticket ++ DecisionProof ticket).

(** ** The expirations, in 64 bits (spec.go) *)

Definition computeDecisionExpiration (d : AccessDecision) : Z := uint64 (IssuedHeight d + DecisionExpirationDelta (ad_Params d)).
Definition computeTicketExpiration (d : AccessDecision) : Z := uint64 (IssuedHeight d + TicketExpirationDelta (ad_Params d)).
Definition computeProofExpiration (d : AccessDecision) : Z := uint64 (IssuedHeight d + ProofExpirationDelta (ad_Params d)).

(** What [ProduceId] reads of a decision; it panics at a message that is missing. *)
Definition read_operations (ops : list (option Object * bytes)) : option (list Operation) :=
  mapM (fun op => (fun o => mkOperation o op.2) <$> op.1) ops.

Definition read_decision (w : TicketDecision) : outcome AccessDecision :=
  match read_operations (td_Operations w), td_Params w, td_CreationTime w with
  | Some ops, Some params, Some ts =>
      Ok (mkAccessDecision (td_Id w) (td_PolicyId w) (td_Creator w) (td_CreatorAccSequence w) ops (td_Actor w)
        params ts (td_IssuedHeight w))
  | _, _, _ => Panic
  end.

Section tickets.
Context `{ProtoTypes, GoSort, TicketCodec, Jose, !TicketKeys}.
Context {N : Type} `{CometClient N}.

(** ** The string form (types.go) *)

Definition Marshaler_Marshal (ticket : AccessTicket) : outcome bytes :=
  let version := VersionDenominator ticket in
  ticketBytes ← sum_outcome (AccessTicket_Marshal ticket);
  Ok (version ++ [separator] ++ base64_encode ticketBytes).

Definition Marshaler_Unmarshal (ticket : bytes) : outcome AccessTicket :=
  match Cut separator ticket with
  | None => Err (ErrMsg "invalid ticket: separator not found")
  | Some (version, encodedTicket) =>
      _ ← fail_if (negb (bool_decide (version = AccessTicketV1))) "invalid ticket: invalid version";
      match base64_decode encodedTicket with
      | None => Err (ErrMsg "invalid ticket: encoded ticket")
      | Some ticketBytes => wrap_err (ErrMsg "invalid ticket: encoded ticket") (sum_outcome (AccessTicket_Unmarshal ticketBytes))
      end
  end.

Definition signer_Sign (key : PrivKey) (ticket : AccessTicket) : outcome bytes :=
  sum_outcome (key_Sign key (hashTicket ticket)).

Definition signer_Verify (key : bytes) (ticket : AccessTicket) : outcome unit :=
  if VerifySignature key (hashTicket ticket) (tk_Signature ticket) then Ok tt else Err ErrInvalidSignature.

(** ** Queries to the node (abci_service.go) *)

Definition QueryDecision (decisionId : bytes) (prove : bool) (height : Z) : M N ResponseQuery :=
  res <- ABCIQueryWithOptions ABCIQueryPath (ABCIQueryKey decisionId) height prove ;;
  _ <- of_option (rq_Value res) ErrDecisionNotFound ;;
  ret res.

(** An error of the node is reported as external. *)
Definition external {A} (m : M N A) : M N A :=
  r <- attempt m ;; match r with inl a => ret a | inr _ => throw ErrExternal end.

Definition GetCurrentHeight : M N Z := external ABCIInfo.
Definition GetBlockHeader (height : Z) : M N bytes := external (Block_AppHash height).

(** ** The checks of a ticket (spec.go) *)

Definition verifyProof (decisionId decisionProof : bytes) : M N unit :=
  abciQuery <- of_outcome (wrap_err ErrInvalidDecisionProof (sum_outcome (ResponseQuery_Unmarshal decisionProof))) ;;
  let height := wrap64 (rq_Height abciQuery + 1) in
  root <- GetBlockHeader height ;;
  let key := KVKey decisionId in
  of_outcome (wrap_err ErrInvalidDecisionProof (VerifyValue (rq_ProofOps abciQuery) root key (rq_Value abciQuery))).

Definition validateDecision (ticket : AccessTicket) : outcome unit :=
  match tk_Decision ticket with
  | None => Panic
  | Some w =>
      decision ← read_decision w;
      let decisionHash := ProduceId decision in
      if negb (bool_decide (decisionHash = DecisionId ticket)) then Err ErrDecisionTampered
      else if negb (bool_decide (decisionHash = td_Id w)) then Err ErrDecisionTampered
      else Ok tt
  end.

Definition SatisfiesRaw (ticket : AccessTicket) : M N unit :=
  verifyProof (DecisionId ticket) (DecisionProof ticket) ;;;
  w <- deref (tk_Decision ticket) ;;
  letp (pubBytes, keytype) <- of_outcome (sum_outcome (DIDKey_Decode (td_Actor w))) ;;
  throw_if (negb (is_SECP256k1 keytype)) (ErrMsg "unsupported key type") ;;;
  of_outcome (signer_Verify pubBytes ticket) ;;;
  of_outcome (validateDecision ticket) ;;;
  decision <- of_outcome (read_decision w) ;;
  heightInt <- GetCurrentHeight ;;
  let height := uint64 heightInt in
  throw_if (computeDecisionExpiration decision <? height) ErrExpiredDecision ;;;
  throw_if (computeProofExpiration decision <? height) ErrExpiredDecision ;;;
  throw_if (computeTicketExpiration decision <? height) ErrExpiredTicket.

Definition Satisfies (ticket : bytes) : M N unit :=
  tkt <- of_outcome (Marshaler_Unmarshal ticket) ;;
  SatisfiesRaw tkt.

Definition UnmarshalAndVerify (trustedNodeAddr ticketStr : bytes) : M N AccessTicket :=
  match http_New trustedNodeAddr with
  | Some _ => throw ErrExternal
  | None =>
      ticket <- of_outcome (Marshaler_Unmarshal ticketStr) ;;
      SatisfiesRaw ticket ;;;
      ret ticket
  end.

(** ** Issuing (issuer_v1.go) *)

Definition buildProof (decisionId : bytes) : M N bytes :=
  decision <- QueryDecision decisionId true 0 ;;
  of_outcome (sum_outcome (ResponseQuery_Marshal decision)).

Definition retrieveDecision (decisionId : bytes) : M N TicketDecision :=
  response <- QueryDecision decisionId false 0 ;;
  of_outcome (sum_outcome (AccessDecision_Unmarshal (default [] (rq_Value response)))).

Definition IssueRaw (decisionId : bytes) (privKey : PrivKey) : M N AccessTicket :=
  decision <- retrieveDecision decisionId ;;
  proof <- buildProof decisionId ;;
  let ticket := mkAccessTicket AccessTicketV1 decisionId (Some decision) proof [] in
  signature <- of_outcome (signer_Sign privKey ticket) ;;
  ret (mkAccessTicket AccessTicketV1 decisionId (Some decision) proof signature).

Definition Issue (decisionId : bytes) (privKey : PrivKey) : M N bytes :=
  ticket <- IssueRaw decisionId privKey ;;
  of_outcome (Marshaler_Marshal ticket).
End tickets.

(** * What the checks establish *)

Section facts.
Context `{ProtoTypes, GoSort, TicketCodec, Jose, !TicketKeys}.
Context {N : Type} `{CometClient N}.
Implicit Types (t : AccessTicket) (w : TicketDecision) (d : AccessDecision) (n : N).

Lemma external_ok {A} (m : M N A) n a n' : external m n = (Ok a, n') <-> m n = (Ok a, n').
Proof. unfold external, attempt, bind, ret, throw. destruct (m n) as [[x|e|] n1]; naive_solver. Qed.

Lemma of_outcome_bind_ok {A B} (o : outcome A) (k : A -> M N B) n b n' :
  (x <- of_outcome o ;; k x) n = (Ok b, n') <-> exists a, o = Ok a /\ k a n = (Ok b, n').
Proof. unfold bind, of_outcome. destruct o; naive_solver. Qed.

Lemma throw_if_bind_ok {B} (c : bool) e (k : M N B) n b n' :
  (throw_if c e ;;; k) n = (Ok b, n') <-> c = false /\ k n = (Ok b, n').
Proof. unfold bind, throw_if, throw, ret. destruct c; naive_solver. Qed.

Lemma throw_if_ok_iff (c : bool) e n n' : throw_if c e n = (Ok tt, n') <-> c = false /\ n' = n.
Proof. unfold throw_if, throw, ret. destruct c; naive_solver. Qed.

Lemma verifyProof_ok id proof n n' : verifyProof id proof n = (Ok tt, n') <->
  exists resp root, ResponseQuery_Unmarshal proof = inl resp /\
    Block_AppHash (wrap64 (rq_Height resp + 1)) n = (Ok root, n') /\
    VerifyValue (rq_ProofOps resp) root (KVKey id) (rq_Value resp) = Ok tt.
Proof.
  unfold verifyProof. rewrite of_outcome_bind_ok. setoid_rewrite wrap_err_ok. setoid_rewrite sum_outcome_ok. split.
  - intros (resp & Hr & Hrun). unfold GetBlockHeader in Hrun. apply bind_ok in Hrun as (root & n1 & Hroot & Hv).
    apply (proj1 (external_ok _ _ _ _)) in Hroot. unfold of_outcome in Hv. injection Hv as Hv ->. apply wrap_err_ok in Hv. by exists resp, root.
  - intros (resp & root & Hr & Hroot & Hv). exists resp. split; [done|]. rewrite bind_run.
    unfold GetBlockHeader. rewrite (proj2 (external_ok _ _ _ _) Hroot). unfold of_outcome. by rewrite Hv.
Qed.

Lemma validateDecision_ok t w : tk_Decision t = Some w ->
  validateDecision t = Ok tt <-> exists d, read_decision w = Ok d /\ ProduceId d = DecisionId t /\ td_Id w = DecisionId t.
Proof.
  intros Hw. unfold validateDecision. rewrite Hw. destruct (read_decision w) as [d| |]; simpl; [|naive_solver..].
  destruct (bool_decide (ProduceId d = DecisionId t)) eqn:E1; simpl.
  - apply bool_decide_eq_true in E1. destruct (bool_decide (ProduceId d = td_Id w)) eqn:E2; simpl.
    + apply bool_decide_eq_true in E2. naive_solver congruence.
    + apply bool_decide_eq_false in E2. split; [done|]. intros (d' & [= <-] & Hp & Hi). congruence.
  - apply bool_decide_eq_false in E1. naive_solver.
Qed.

(** Whether a decision is still good at a height. *)
Definition in_time d (height : Z) : Prop :=
  height <= computeDecisionExpiration d /\ height <= computeProofExpiration d /\ height <= computeTicketExpiration d.

(** The checks that do not depend on the height of the chain. *)
Definition authentic t w d : Prop :=
  tk_Decision t = Some w /\ read_decision w = Ok d /\ ProduceId d = DecisionId t /\ td_Id w = DecisionId t /\
  exists pub kt, DIDKey_Decode (td_Actor w) = inl (pub, kt) /\ is_SECP256k1 kt = true /\
    VerifySignature pub (hashTicket t) (tk_Signature t) = true.

Lemma SatisfiesRaw_sound t n n' : SatisfiesRaw t n = (Ok tt, n') ->
  exists w d n1 height, verifyProof (DecisionId t) (DecisionProof t) n = (Ok tt, n1) /\
    authentic t w d /\ ABCIInfo n1 = (Ok height, n') /\ in_time d (uint64 height).
Proof.
  unfold SatisfiesRaw. intros Hr. apply bind_ok in Hr as ([] & n1 & Hp & Hr). apply bind_ok in Hr as (w & n2 & Hw & Hr).
  assert (Hd : tk_Decision t = Some w /\ n2 = n1) by (destruct (tk_Decision t); unfold deref, ret, panic in Hw; naive_solver).
  destruct Hd as [Hd ->]. apply of_outcome_bind_ok in Hr as ([pub kt] & Hk%sum_outcome_ok & Hr).
  apply throw_if_bind_ok in Hr as [Hty%negb_false_iff Hr]. apply of_outcome_bind_ok in Hr as ([] & Hsig & Hr).
  apply of_outcome_bind_ok in Hr as ([] & (d & Hrd & Hid & Hid')%(validateDecision_ok t w Hd) & Hr).
  apply of_outcome_bind_ok in Hr as (d' & Hrd' & Hr). rewrite Hrd in Hrd'. injection Hrd' as <-.
  unfold GetCurrentHeight in Hr. apply bind_ok in Hr as (height & n2 & Hh & Hr). apply (proj1 (external_ok _ _ _ _)) in Hh. cbv zeta in Hr.
  apply throw_if_bind_ok in Hr as [Hx1%Z.ltb_ge Hr]. apply throw_if_bind_ok in Hr as [Hx2%Z.ltb_ge Hr].
  apply throw_if_ok_iff in Hr as [Hx3%Z.ltb_ge ->]. unfold signer_Verify in Hsig.
  destruct (VerifySignature pub _ _) eqn:Hver; [|done].
  exists w, d, n1, height. split_and!; [done| |done|done]. split_and!; try done. by exists pub, kt.
Qed.

Lemma SatisfiesRaw_complete t w d n n1 height n' :
  verifyProof (DecisionId t) (DecisionProof t) n = (Ok tt, n1) -> authentic t w d -> ABCIInfo n1 = (Ok height, n') ->
  in_time d (uint64 height) -> SatisfiesRaw t n = (Ok tt, n').
Proof.
  unfold SatisfiesRaw. intros Hp (Hd & Hrd & Hid & Hid' & pub & kt & Hk & Hty & Hver) Hh (Hx1 & Hx2 & Hx3).
  rewrite bind_run, Hp, Hd. cbn [deref]. erewrite bind_run_ok by done.
  apply of_outcome_bind_ok. exists (pub, kt). rewrite sum_outcome_ok. split; [done|].
  apply throw_if_bind_ok. rewrite Hty. split; [done|]. apply of_outcome_bind_ok. exists tt.
  split; [unfold signer_Verify; by rewrite Hver|]. apply of_outcome_bind_ok. exists tt.
  split; [apply (validateDecision_ok t w Hd); eauto|]. apply of_outcome_bind_ok. exists d. split; [done|].
  rewrite bind_run. unfold GetCurrentHeight. rewrite (proj2 (external_ok _ _ _ _) Hh). cbv zeta.
  rewrite throw_if_bind_ok, throw_if_bind_ok, throw_if_ok_iff, !Z.ltb_ge. done.
Qed.

(** * The string form and issuing *)

Lemma ticket_string_roundtrip t text :
  VersionDenominator t = AccessTicketV1 -> Marshaler_Marshal t = Ok text -> Marshaler_Unmarshal text = Ok t.
Proof.
  intros Hv Hm. unfold Marshaler_Marshal in Hm. rewrite Hv in Hm.
  apply outcome_bind_ok in Hm as (bz & Hbz%sum_outcome_ok & Ht). injection Ht as Ht. rewrite <- Ht. unfold Marshaler_Unmarshal.
  assert (Hcut : Cut separator (AccessTicketV1 ++ [separator] ++ base64_encode bz) = Some (AccessTicketV1, base64_encode bz))
    by reflexivity.
  setoid_rewrite Hcut. rewrite bool_decide_eq_true_2 by done. cbn [negb fail_if mbind outcome_bind].
  rewrite base64_roundtrip. cbv beta iota. by rewrite (AccessTicket_roundtrip _ _ Hbz).
Qed.

Lemma IssueRaw_ok id sk n t n' : IssueRaw id sk n = (Ok t, n') ->
  exists n1 resp, VersionDenominator t = AccessTicketV1 /\ DecisionId t = id /\
    ABCIQueryWithOptions ABCIQueryPath (ABCIQueryKey id) 0 true n1 = (Ok resp, n') /\
    ResponseQuery_Unmarshal (DecisionProof t) = inl resp /\
    VerifySignature (key_PubKey sk) (hashTicket t) (tk_Signature t) = true.
Proof.
  intros Hr. unfold IssueRaw in Hr. apply bind_ok in Hr as (w & n1 & _ & Hr).
  apply bind_ok in Hr as (proof & n2 & Hp & Hr). cbv zeta in Hr.
  apply of_outcome_bind_ok in Hr as (sig & Hs%sum_outcome_ok & Hr). unfold ret in Hr. injection Hr as <- <-.
  unfold buildProof in Hp. apply bind_ok in Hp as (resp & n3 & Hq & Hm). unfold of_outcome in Hm.
  injection Hm as Hm%sum_outcome_ok ->. unfold QueryDecision in Hq. apply bind_ok in Hq as (resp' & n4 & Hq & Hv).
  exists n1, resp. cbn. apply key_Sign_verifies in Hs. apply ResponseQuery_roundtrip in Hm.
  destruct (rq_Value resp'); unfold bind, of_option, ret, throw in Hv; [|done]. injection Hv as -> ->. done.
Qed.

(** The text of a ticket reads back. A ticket that is issued names the decision asked
    for, is of the only version there is, and the signature in it verifies with the
    key of the issuer. *)
Theorem issued_ticket_reads_back id sk n text n' :
  Issue id sk n = (Ok text, n') ->
  exists t, IssueRaw id sk n = (Ok t, n') /\ Marshaler_Unmarshal text = Ok t /\ DecisionId t = id /\
    VerifySignature (key_PubKey sk) (hashTicket t) (tk_Signature t) = true.
Proof.
  intros Hr. unfold Issue in Hr. apply bind_ok in Hr as (t & n1 & Ht & Hm). unfold of_outcome in Hm. injection Hm as Hm ->.
  destruct (IssueRaw_ok _ _ _ _ _ Ht) as (n2 & resp & Hv & Hid & _ & _ & Hsig).
  exists t. split_and!; [done|by apply ticket_string_roundtrip|done|done].
Qed.
End facts.

(** * Proofs of a store do not fit the key path *)

(** How a Cosmos node proves a value: one operator for the tree of the module's store,
    with the key that was asked for, and one for the store among the stores, with the
    name of the module. *)
Class StoreProofs (N : Type) `{CometClient N} : Prop :=
  store_proof_keys : forall key height n resp n', ABCIQueryWithOptions ABCIQueryPath key height true n = (Ok resp, n') ->
    exists ops, rq_ProofOps resp = Some ops /\ po_Key <$> ops = [key; lit "acp"].

Section refused.
Context `{ProtoTypes, GoSort, TicketCodec, Jose, !TicketKeys}.
Context {N : Type} `{CometClient N, !StoreProofs N}.

Lemma Split_part sep p rest : sep ∉ p -> Split sep (p ++ sep :: rest) = p :: Split sep rest.
Proof.
  induction p as [|c p IH]; intros Hp; cbn [app Split]; [by rewrite decide_True|].
  rewrite not_elem_of_cons in Hp. rewrite decide_False by naive_solver. by rewrite IH by naive_solver.
Qed.

Lemma Split_KVKey id : (3 <= length (Split "/" (lit "acp/access_decision/" ++ id)))%nat.
Proof.
  change (lit "acp/access_decision/" ++ id) with (lit "acp" ++ "/"%char :: (lit "access_decision" ++ "/"%char :: id)).
  rewrite !Split_part by (apply (bool_decide_unpack _); vm_compute; exact I).
  destruct (Split "/" id) eqn:E; [by destruct (Split_nonempty "/" id)|cbn; lia].
Qed.

(** C31: no ticket that is issued is ever accepted, by whatever node it is checked and
    in whatever state. The key path of a decision has three
    parts, because the prefix of the decisions ends in a slash; the proof of a node
    has the keys of two operators. *)
Theorem issued_ticket_refused id sk (n n' : N) t :
  IssueRaw id sk n = (Ok t, n') -> forall m : N, is_ok (SatisfiesRaw t m).1 = false.
Proof.
  intros (n1 & resp & _ & Hid & Hq & Hun & _)%IssueRaw_ok m. unfold SatisfiesRaw. rewrite bind_run.
  destruct (verifyProof (DecisionId t) (DecisionProof t) m) as [[[]|e|] m1] eqn:Hv; [exfalso|done|done].
  apply verifyProof_ok in Hv as (resp' & root & Hun' & _ & Hver). rewrite Hun in Hun'. injection Hun' as <-.
  destruct (store_proof_keys _ _ _ _ _ Hq) as (ops & Hops & Hkeys). rewrite Hops in Hver.
  change (KVKey (DecisionId t)) with ("/"%char :: (lit "acp/access_decision/" ++ DecisionId t)) in Hver.
  apply VerifyValue_keys in Hver. rewrite Hkeys in Hver. pose proof (Split_KVKey (DecisionId t)).
  rewrite filter_cons_True, filter_cons_True in Hver by done. rewrite filter_nil in Hver. cbn [length] in Hver. lia.
Qed.
End refused.

(** * The id of a decision does not bind it *)

Definition with_decision (w : TicketDecision) (t : AccessTicket) : AccessTicket :=
  mkAccessTicket (VersionDenominator t) (DecisionId t) (Some w) (DecisionProof t) (tk_Signature t).

Definition with_operations (ops : list (option Object * bytes)) (w : TicketDecision) : TicketDecision :=
  mkTicketDecision (td_Id w) (td_PolicyId w) (td_Creator w) (td_CreatorAccSequence w) ops (td_Actor w) (td_Params w)
    (td_CreationTime w) (td_IssuedHeight w).

(** The last digit of the creator's sequence number goes to the front of the height. *)
Definition redate (w : TicketDecision) : TicketDecision :=
  let q := td_CreatorAccSequence w / 10 in
  let r := td_CreatorAccSequence w mod 10 in
  mkTicketDecision (td_Id w) (td_PolicyId w) (td_Creator w) q (td_Operations w) (td_Actor w) (td_Params w)
    (td_CreationTime w) (r * 10 ^ Z.of_nat (length (show_nat (td_IssuedHeight w))) + td_IssuedHeight w).

Section forged.
Context `{ProtoTypes, GoSort, TicketCodec, Jose, !TicketKeys}.
Context {N : Type} `{CometClient N}.
Implicit Types (t : AccessTicket) (w : TicketDecision) (d : AccessDecision) (n : N).

Lemma read_redate w d : read_decision w = Ok d -> exists d', read_decision (redate w) = Ok d' /\
  ad_Params d' = ad_Params d /\ IssuedHeight d' = td_IssuedHeight (redate w) /\
  (10 <= td_CreatorAccSequence w -> td_CreatorAccSequence w mod 10 <> 0 -> 0 <= td_IssuedHeight w ->
   ProduceId d' = ProduceId d).
Proof.
  unfold read_decision. cbn [redate td_Operations td_Params td_CreationTime].
  destruct (read_operations _) as [ops|]; [|done]. destruct (td_Params w) as [ps|]; [|done].
  destruct (td_CreationTime w) as [ts|]; [|done]. intros [= <-]. eexists. split_and!; [done|done|done|].
  intros Hs Hr Hh. unfold ProduceId, hashDecision.
  cbn [ad_PolicyId ad_Creator ad_Actor CreatorAccSequence IssuedHeight Operations ad_Params CreationTime].
  cbn [redate td_PolicyId td_Creator td_Actor td_CreatorAccSequence td_IssuedHeight].
  apply (f_equal base32_encode), (f_equal sha256). do 3 apply (f_equal (app _)).
  set (s := td_CreatorAccSequence w) in *. set (h := td_IssuedHeight w) in *.
  pose proof (Z.mod_pos_bound s 10 ltac:(lia)). pose proof (Z.div_mod s 10 ltac:(lia)) as Hdm.
  assert (1 <= s / 10) by (apply Z.div_le_lower_bound; lia).
  rewrite show_nat_cons by lia.
  assert (Hsnoc : show_nat s = show_nat (s / 10) ++ [digit (s mod 10)]) by (rewrite Hdm at 1; apply show_nat_snoc; lia).
  rewrite Hsnoc. by rewrite <- app_assoc.
Qed.

(** Who holds a ticket can postpone its expiration. If the creator of the decision had
    sent ten transactions before and the number does not end in zero, its last digit
    can be moved to the front of the height at which the decision was issued: the id
    stays the same, because it hashes the two numbers without a separator. The
    height more than doubles, and the ticket with this decision is accepted
    at every height up to the new expiration, wherever its proof is accepted. *)
Theorem redated_ticket_accepted t w d n n1 height n2 :
  authentic t w d -> 10 <= td_CreatorAccSequence w -> td_CreatorAccSequence w mod 10 <> 0 -> 0 <= td_IssuedHeight w ->
  verifyProof (DecisionId t) (DecisionProof t) n = (Ok tt, n1) -> ABCIInfo n1 = (Ok height, n2) -> 0 <= height ->
  Forall (fun delta => height <= td_IssuedHeight (redate w) + delta < 2 ^ 64)
    [DecisionExpirationDelta (ad_Params d); ProofExpirationDelta (ad_Params d); TicketExpirationDelta (ad_Params d)] ->
  2 * td_IssuedHeight w < td_IssuedHeight (redate w) /\
  SatisfiesRaw (with_decision (redate w) t) n = (Ok tt, n2).
Proof.
  intros (Hw & Hrd & Hid & Hid' & Hkey) Hs Hr Hh Hp Hi H0' Hall. split.
  { cbn [redate td_IssuedHeight]. destruct (show_nat_spec (td_IssuedHeight w) Hh) as (_ & _ & Hlt & _).
    pose proof (Z.mod_pos_bound (td_CreatorAccSequence w) 10 ltac:(lia)). nia. }
  destruct (read_redate w d Hrd) as (d' & Hrd' & Hps & Hih & Hsame). rewrite !Forall_cons in Hall.
  destruct Hall as (Hx1 & Hx2 & Hx3 & _). apply (SatisfiesRaw_complete _ (redate w) d' n n1 height); [done| |done|].
  - split_and!; [done|done| |done|].
    + rewrite Hsame by done. done.
    + exact Hkey.
  - unfold in_time, computeDecisionExpiration, computeProofExpiration, computeTicketExpiration.
    rewrite Hps, Hih, !uint64_small by lia. lia.
Qed.

Lemma bind_ext {A B} (m : M N A) (k k' : A -> M N B) n : (forall a n1, k a n1 = k' a n1) -> bind m k n = bind m k' n.
Proof. intros Hk. unfold bind. by destruct (m n) as [[a|e|] n1]. Qed.

Lemma read_split w res a b perm :
  td_Operations w = [(Some (mkObject res (a ++ perm ++ res ++ b)), perm)] ->
  match read_decision (with_operations [(Some (mkObject res a), perm); (Some (mkObject res b), perm)] w), read_decision w with
  | Ok d', Ok d => ProduceId d' = ProduceId d /\ IssuedHeight d' = IssuedHeight d /\ ad_Params d' = ad_Params d
  | Panic, Panic => True
  | _, _ => False
  end.
Proof.
  intros Ho. unfold read_decision. cbn [with_operations td_Operations]. rewrite Ho. cbn [read_operations mapM mbind option_bind fmap option_fmap option_map fst snd mret option_ret].
  cbn [with_operations td_Params td_CreationTime]. destruct (td_Params w) as [ps|]; [|done].
  destruct (td_CreationTime w) as [ts|]; [|done]. split_and!; [|done|done].
  unfold ProduceId, hashDecision. 
  cbn [ad_PolicyId ad_Creator ad_Actor CreatorAccSequence IssuedHeight Operations ad_Params CreationTime].
  apply (f_equal base32_encode), (f_equal sha256). do 6 apply (f_equal (app _)). apply (f_equal (fun x => x ++ _)).
  rewrite !sort_Stable_equal; [|intros x y ->%list_elem_of_singleton ->%list_elem_of_singleton|].
  - cbn. unfold operation_text. cbn. rewrite !app_nil_r. by rewrite <- !app_assoc.
  - unfold operation_less, string_lt. cbn [op_Object Resource]. by rewrite (bytes_le_refl res : bytes_leb res res = true).
  - intros x y Hx Hy. assert (Resource (op_Object x) = res /\ Resource (op_Object y) = res) as [Hrx Hry] by set_solver.
    unfold operation_less, string_lt. rewrite Hrx, Hry. by rewrite (bytes_le_refl res : bytes_leb res res = true).
Qed.

(** C40: who may read one object can make a ticket for two others. The operations of a
    decision are hashed without separators, so the decision on one object whose name
    is made of the name of an object, a permission, the resource and the name of
    another object has the id of the decision on these two. Everybody may register
    an object of such a name, and be permitted everything on it. *)
Theorem ticket_covers_other_objects t w res a b perm n :
  tk_Decision t = Some w -> td_Operations w = [(Some (mkObject res (a ++ perm ++ res ++ b)), perm)] ->
  SatisfiesRaw (with_decision (with_operations [(Some (mkObject res a), perm); (Some (mkObject res b), perm)] w) t) n =
  SatisfiesRaw t n.
Proof.
  intros Hw Ho. pose proof (read_split w res a b perm Ho) as Hrd. unfold SatisfiesRaw, validateDecision.
  cbn [with_decision DecisionId DecisionProof tk_Decision]. rewrite Hw. set (w' := with_operations _ w) in *.
  apply bind_ext. intros [] n1. cbn [deref]. rewrite !bind_run. cbn [ret]. change (td_Actor w') with (td_Actor w).
  apply bind_ext. intros [pub kt] n2. apply bind_ext. intros [] n3.
  change (signer_Verify pub (with_decision w' t)) with (signer_Verify pub t). apply bind_ext. intros [] n4.
  change (td_Id w') with (td_Id w).
  destruct (read_decision w') as [d'|e'|], (read_decision w) as [d|e|]; try done.
  destruct Hrd as (Hp & Hh & Hps). cbn [mbind outcome_bind]. rewrite Hp. apply bind_ext. intros [] n5.
  rewrite !bind_run. cbn [of_outcome]. apply bind_ext. intros height n6.
  unfold computeDecisionExpiration, computeProofExpiration, computeTicketExpiration. by rewrite Hh, Hps.
Qed.
End forged.

(** * A concrete node *)

(** The decision of an actor on one object of its own. *)
Definition two_names : bytes := lit "areadfileb".

Definition demo_decision : AccessDecision :=
  buildDecision (lit "policy1") [mkOperation (mkObject (lit "file") two_names) (lit "read")] (lit "did:key:k")
    (mkTimestamp (mkProtoTimestamp 7 0) 40) (mkAccount (lit "carol") None 12) 40 GetDefaults.

Definition on_wire (d : AccessDecision) : TicketDecision :=
  mkTicketDecision (ad_Id d) (ad_PolicyId d) (ad_Creator d) (CreatorAccSequence d)
    ((fun op => (Some (op_Object op), op_Permission op)) <$> Operations d) (ad_Actor d) (Some (ad_Params d))
    (Some (CreationTime d)) (IssuedHeight d).

Definition demo_id : bytes := ad_Id demo_decision.

(** The proof of the node, and one whose keys fit the path. *)
Definition node_answer : ResponseQuery :=
  mkResponseQuery 40 (Some (lit "D")) (Some [mkProofOp [] (ABCIQueryKey demo_id) []; mkProofOp [] (lit "acp") []]).
Definition fitting_answer : ResponseQuery :=
  mkResponseQuery 40 (Some (lit "D"))
    (Some [mkProofOp [] demo_id []; mkProofOp [] (lit "access_decision") []; mkProofOp [] (lit "acp") []]).

Definition demo_ticket (proof : bytes) : AccessTicket :=
  let unsigned := mkAccessTicket AccessTicketV1 demo_id (Some (on_wire demo_decision)) proof [] in
  mkAccessTicket AccessTicketV1 demo_id (Some (on_wire demo_decision)) proof (lit "k" ++ hashTicket unsigned).

#[global] Instance ProofOp_eq_dec : EqDecision ProofOp.
Proof. solve_decision. Defined.
#[global] Instance ResponseQuery_eq_dec : EqDecision ResponseQuery.
Proof. solve_decision. Defined.
#[global] Instance DecisionParams_eq_dec : EqDecision DecisionParams.
Proof. solve_decision. Defined.
#[global] Instance ProtoTimestamp_eq_dec : EqDecision ProtoTimestamp.
Proof. solve_decision. Defined.
#[global] Instance Timestamp_eq_dec : EqDecision Timestamp.
Proof. solve_decision. Defined.
#[global] Instance TicketDecision_eq_dec : EqDecision TicketDecision.
Proof. solve_decision. Defined.
#[global] Instance AccessTicket_eq_dec : EqDecision AccessTicket.
Proof. solve_decision. Defined.

(** Encodings of these messages only; a value is proved by a root that is its own
    text. *)
#[export, refine] Instance ticket_codec_impl : TicketCodec := {|
  AccessTicket_Marshal t := if decide (t = demo_ticket (lit "R")) then inl (lit "T") else inr (ErrMsg "marshal");
  AccessTicket_Unmarshal bz := if decide (bz = lit "T") then inl (demo_ticket (lit "R")) else inr (ErrMsg "unmarshal");
  AccessDecision_Unmarshal bz := if decide (bz = lit "D") then inl (on_wire demo_decision) else inr (ErrMsg "unmarshal");
  ResponseQuery_Marshal r :=
    if decide (r = node_answer) then inl (lit "R") else if decide (r = fitting_answer) then inl (lit "F") else inr (ErrMsg "marshal");
  ResponseQuery_Unmarshal bz :=
    if decide (bz = lit "R") then inl node_answer else if decide (bz = lit "F") then inl fitting_answer
    else inr (ErrMsg "unmarshal");
  VerifyValue ops root path value :=
    if decide (length (filter (fun k => k <> []) (po_Key <$> default [] ops)) = length (Split "/" (drop 1 path)) /\ Some root = value)
    then Ok tt else Err (ErrMsg "proof");
|}.
Proof.
  - intros t bz. destruct (decide _) as [->|]; [|done]. intros [= <-]. by rewrite decide_True.
  - intros r bz. destruct (decide (r = _)) as [->|]; [intros [= <-]; by rewrite decide_True|].
    destruct (decide (r = _)) as [->|]; [|done]. intros [= <-]. by rewrite decide_False, decide_True.
  - intros ops root path value. cbn [default from_option drop]. destruct (decide _) as [[Hl _]|]; [|done]. done.
Defined.

#[export, refine] Instance ticket_keys_impl : TicketKeys := {|
  is_SECP256k1 _ := true;
  PrivKey := bytes;
  key_PubKey sk := sk;
  key_Sign sk digest := inl (sk ++ digest);
  VerifySignature pub digest sig := bool_decide (sig = pub ++ digest);
|}.
Proof. intros sk digest sig [= <-]. by apply bool_decide_eq_true. Defined.

(** A node is at a height and stores the decision. *)
#[export] Instance comet_impl : CometClient Z := {|
  http_New _ := None;
  ABCIQueryWithOptions path key height prove := fun n =>
    (Ok (mkResponseQuery 40 (Some (lit "D")) (Some [mkProofOp [] key []; mkProofOp [] (lit "acp") []])), n);
  ABCIInfo := gets id;
  Block_AppHash _ := ret (lit "D");
|}.

#[export] Instance store_proofs_impl : StoreProofs Z.
Proof. intros key height n resp n' [= <- _]. by eexists. Qed.

(** ** Witnesses *)

Lemma demo_issued : IssueRaw demo_id (lit "k") 41 = (Ok (demo_ticket (lit "R")), 41).
Proof.
  unfold IssueRaw, retrieveDecision, buildProof, QueryDecision. unfold bind at 1 2 3. cbn [ABCIQueryWithOptions comet_impl].
  reflexivity.
Qed.

Lemma issued_ticket_reads_back_witness : exists t,
  Issue demo_id (lit "k") 41 = (Ok (lit "v1.VA=="), 41) /\ Marshaler_Unmarshal (lit "v1.VA==") = Ok t /\ DecisionId t = demo_id.
Proof.
  assert (Hi : Issue demo_id (lit "k") 41 = (Ok (lit "v1.VA=="), 41)).
  { unfold Issue. rewrite (bind_run_ok _ _ _ _ _ demo_issued). unfold Marshaler_Marshal. cbn [AccessTicket_Marshal ticket_codec_impl].
    rewrite decide_True by done. reflexivity. }
  destruct (issued_ticket_reads_back demo_id (lit "k" : PrivKey (TicketKeys := ticket_keys_impl)) 41 (lit "v1.VA==") 41 Hi) as (t & _ & Ht & Hid & _).
  exists t. split; [exact Hi|]. split; [exact Ht|exact Hid].
Defined.

Lemma issued_ticket_refused_witness :
  IssueRaw demo_id (lit "k") 41 = (Ok (demo_ticket (lit "R")), 41) /\ is_ok (SatisfiesRaw (demo_ticket (lit "R")) 41).1 = false.
Proof. split; [exact demo_issued|exact (issued_ticket_refused demo_id (lit "k" : PrivKey (TicketKeys := ticket_keys_impl)) 41 41 _ demo_issued 41)]. Defined.

Lemma buildDecision_id policyId ops actor ts creator h params :
  ProduceId (buildDecision policyId ops actor ts creator h params) = ad_Id (buildDecision policyId ops actor ts creator h params).
Proof. reflexivity. Qed.

Lemma demo_authentic proof : authentic (demo_ticket proof) (on_wire demo_decision) demo_decision.
Proof.
  split_and!; [reflexivity|reflexivity|apply buildDecision_id|reflexivity|].
  exists (lit "k"), tt. split_and!; [vm_compute; reflexivity|reflexivity|]. apply bool_decide_eq_true_2. reflexivity.
Qed.

Lemma demo_proof (n : Z) : verifyProof demo_id (lit "F") n = (Ok tt, n).
Proof.
  apply verifyProof_ok. exists fitting_answer, (lit "D"). split_and!; [reflexivity|reflexivity|].
  cbn [VerifyValue ticket_codec_impl]. apply decide_True. split; [vm_compute; reflexivity|reflexivity].
Qed.

(** At height 250, when the decision of height 40 has expired. *)
Lemma redated_ticket_accepted_witness :
  SatisfiesRaw (demo_ticket (lit "F")) 250 = (Err ErrExpiredDecision, 250) /\
  SatisfiesRaw (with_decision (redate (on_wire demo_decision)) (demo_ticket (lit "F"))) 250 = (Ok tt, 250).
Proof.
  split.
  - unfold SatisfiesRaw. rewrite (bind_run_ok _ _ _ _ _ (demo_proof 250)). vm_compute. reflexivity.
  - apply (redated_ticket_accepted (demo_ticket (lit "F")) (on_wire demo_decision) demo_decision 250 250 250 250
      (demo_authentic _)); [vm_compute; discriminate..|exact (demo_proof 250)|reflexivity|vm_compute; discriminate|].
    repeat constructor; vm_compute; try discriminate; reflexivity.
Defined.

(** Whoever may read an object of this name has a ticket for the objects a and b. *)
Lemma ticket_covers_other_objects_witness :
  SatisfiesRaw (with_decision (with_operations [(Some (mkObject (lit "file") (lit "a")), lit "read");
    (Some (mkObject (lit "file") (lit "b")), lit "read")] (on_wire demo_decision)) (demo_ticket (lit "F"))) 80 = (Ok tt, 80).
Proof.
  rewrite (ticket_covers_other_objects (demo_ticket (lit "F")) (on_wire demo_decision) (lit "file") (lit "a") (lit "b") (lit "read") 80
    eq_refl eq_refl).
  apply (SatisfiesRaw_complete _ (on_wire demo_decision) demo_decision 80 80 80); [exact (demo_proof 80)|apply demo_authentic|reflexivity|].
  unfold in_time. vm_compute. repeat split; discriminate.
Defined.
