(* ===== verification/AcpSigned.v ===== *)
(** Signed commands are executed once (src/x/acp/keeper/keeper.go,
    msg_server_signed_policy_cmd.go).

    The keeper remembers the hash of the text of a command until the command
    expires. The theorem: whatever the chain does afterwards, the same text is
    refused for good. But the hash is that of the text: another text that parses
    to the same signed payload, as a JSON serialisation with a blank more does,
    runs the command again. *)
From Stdlib Require Import Ascii ZArith Lia.
From stdpp Require Import base numbers list gmap strings.
From S2P Require Import Prelude Sdk Sha256 Utils CoreKeeper Bearer AcpTypes AcpState AcpKeeper AcpBearer AcpMsgs AcpServer AcpReach AcpWorld.

Section signed.
Context `{ProtoTypes, AcpCodec, Raccoon, Merkle, GoSort, AddressCodec, DIDKeys, Jose, PayloadJson}.
Context {E : Type} `{ACPEngine E}.
Context {S : Type} `{!Lens S (AcpStore E)} `{!Lens S CoreStore} `{AcpAccounts S, CapabilityKeeper S, !AcpFrame S E}.
Implicit Types (ctx : AcpCtx) (s : S) (msg : MsgSignedPolicyCmd) (p : SignedPolicyCmdPayload).

(** The entry of a processed command. *)
Definition seen_until (text : bytes) p s : Prop :=
  spc_seen (acp s) !! ComputePayloadID text = Some (be_bytes 8 (maxHeight p)).

Definition seen_at (id : bytes) (v : option bytes) s : Prop :=
  spc_seen (acp s) !! id = v /\ comm_ok (commitments (acp s)).

Lemma seen_at_kept {A} id (v : option bytes) (m : M S A) : (forall seen, preserves (kept seen) m) -> preserves (seen_at id v) m.
Proof.
  intros Hm s [Hv Hc]. specialize (Hm (spc_seen (acp s)) s (conj eq_refl Hc)).
  destruct (m s) as [[a|e|] s']; [| |done]; destruct Hm as [Hk Hc']; split; try done; by rewrite Hk.
Qed.

Lemma seen_mod_at (id : bytes) (v : option bytes) (f : gmap bytes bytes -> gmap bytes bytes) :
  (forall m : gmap bytes bytes, f m !! id = m !! id) ->
  preserves (seen_at id v) (acp_mod (S := S) (fun t => set_spc_seen (f (spc_seen t)) t)).
Proof.
  intros Hf. apply preserves_modify. intros s [Hv Hc]. unfold seen_at. rewrite acp_set. simpl. by rewrite Hf.
Qed.

Lemma maxHeight_range p : 0 <= maxHeight p < 256 ^ Z.of_nat 8.
Proof. unfold maxHeight, uint64. replace (256 ^ Z.of_nat 8) with (2 ^ 64) by done. apply Z.mod_pos_bound. lia. Qed.

Lemma height_uint64 h : 0 <= h <= int64_max -> uint64 h = h.
Proof. intros Hh. unfold uint64. apply Z.mod_small. unfold int64_max in *. lia. Qed.

(** Another text does not touch the entry. *)
Lemma signed_other ctx msg (id : bytes) (v : option bytes) : id <> ComputePayloadID (msp_Payload msg) ->
  preserves (seen_at id v) (SignedPolicyCmd (S := S) ctx msg).
Proof.
  intros Hid. unfold SignedPolicyCmd, hasSeenSignedPolicyCmd, markSignedPolicyCmdSeen, GetParams.
  repeat first
    [ apply seen_at_kept; intros seen; apply Dispatch_kept
    | apply seen_at_kept; intros seen; apply acp_get_kept
    | apply (seen_mod_at id v (delete _)); intros m; by apply lookup_delete_ne
    | apply (seen_mod_at id v (insert _ _)); intros m; by apply lookup_insert_ne
    | solve [eauto 2 with preserves] | preserve_step ].
Qed.

Lemma SignedPolicyCmd_comm ctx msg :
  preserves (fun s => comm_ok (commitments (acp s))) (SignedPolicyCmd (S := S) ctx msg).
Proof.
  assert (Hk : forall A (m : M S A), (forall seen, preserves (kept seen) m) ->
    preserves (fun s => comm_ok (commitments (acp s))) m).
  { intros A m Hm s Hc. specialize (Hm _ s (conj eq_refl Hc)). destruct (m s) as [[a|e|] s']; [| |done]; apply Hm. }
  assert (Hmod : forall f : gmap bytes bytes -> gmap bytes bytes,
    preserves (fun s => comm_ok (commitments (acp s))) (acp_mod (S := S) (fun t => set_spc_seen (f (spc_seen t)) t))).
  { intros f. apply preserves_modify. intros s Hc. by rewrite acp_set. }
  unfold SignedPolicyCmd, hasSeenSignedPolicyCmd, markSignedPolicyCmdSeen, GetParams.
  repeat first
    [ apply Hk; intros seen; apply Dispatch_kept
    | apply Hk; intros seen; apply acp_get_kept
    | apply (Hmod (delete _)) | apply (Hmod (insert _ _))
    | solve [eauto 2 with preserves] | preserve_step ].
Qed.

Lemma extract_ok params text ty h p : ValidateAndExtractCmd params text ty h = Ok p ->
  jws_Verify text = Ok p /\ h <= maxHeight p.
Proof.
  intros (q & Hq & Hs)%outcome_bind_ok. apply outcome_seq_ok in Hs as [Hs [= ->]].
  split; [by destruct ty|]. unfold payloadSpec in Hs. destruct (Z.ltb_spec (PolicyCommandMaxExpirationDelta params) (ExpirationDelta p)); [done|].
  destruct (Z.ltb_spec (maxHeight p) h); [done|lia].
Qed.

(** A text whose entry is in force leaves no trace. *)
Lemma signed_entry ctx msg x s : 0 <= block_height ctx <= int64_max ->
  spc_seen (acp s) !! ComputePayloadID (msp_Payload msg) = Some (be_bytes 8 x) ->
  block_height ctx <= x < 256 ^ Z.of_nat 8 ->
  exists o, SignedPolicyCmd ctx msg s = (o, s) /\ is_ok o = false.
Proof.
  intros Hh Hs Hx. unfold SignedPolicyCmd, GetParams. rewrite bind_run, acp_get_run. cbv beta iota.
  rewrite bind_run, of_outcome_run, height_uint64 by done.
  destruct (ValidateAndExtractCmd _ _ _ _) as [q|e|] eqn:Ee; [|by eexists|by eexists].
  rewrite bind_run, of_outcome_run. unfold NewPolicyCmdCtx, TimestampFromCtx.
  destruct (TimestampProto _) as [ts|e]; simpl; [|by eexists]. rewrite bind_run. unfold hasSeenSignedPolicyCmd.
  rewrite bind_run, acp_get_run. cbv beta iota. rewrite Hs. rewrite be_bytes_length.
  destruct (decide _) as [?|_]; [congruence|]. rewrite be_uint64_be_bytes by lia.
  destruct (Z.ltb_spec x (block_height ctx)); [lia|]. by eexists.
Qed.

(** The entry is there, or the command has expired by the height. *)
Definition spent (text : bytes) p (h : Z) s : Prop :=
  (seen_until text p s \/ maxHeight p < h) /\ comm_ok (commitments (acp s)).

Lemma spent_step text p ctx op s s' : 0 <= block_height ctx <= int64_max ->
  spent text p (block_height ctx) s -> acp_after ctx op s s' -> spent text p (block_height ctx) s'.
Proof.
  intros Hh [Hs Hc] [->|(o & Hrun & Ho)]; [done|].
  assert (Hother : preserves (seen_at (ComputePayloadID text) (spc_seen (acp s) !! ComputePayloadID text)) (run_acp_op ctx op) ->
    spent text p (block_height ctx) s').
  { intros Hp. specialize (Hp s (conj eq_refl Hc)). rewrite Hrun in Hp.
    assert (seen_at (ComputePayloadID text) (spc_seen (acp s) !! ComputePayloadID text) s') as [He Hc'] by (by destruct o).
    split; [|done]. destruct Hs as [Hs|?]; [left|by right]. unfold seen_until. by rewrite He. }
  destruct op as [| | | |msg| | | | | | |];
    try (apply Hother, seen_at_kept; intros seen; apply run_acp_op_kept; tauto).
  destruct (decide (ComputePayloadID text = ComputePayloadID (msp_Payload msg))) as [Eid|Hid].
  2:{ apply Hother. apply preserves_bind; [|intros ?; apply preserves_ret]. by apply signed_other. }
  destruct (Z.lt_ge_cases (maxHeight p) (block_height ctx)) as [Hlt|Hge].
  - split; [by right|]. assert (Hp : preserves (fun s => comm_ok (commitments (acp s))) (SignedPolicyCmd (S := S) ctx msg)).
    { apply SignedPolicyCmd_comm. }
    assert (Hp' : preserves (fun s => comm_ok (commitments (acp s))) (run_acp_op ctx (OpSignedPolicyCmd msg)))
      by (apply preserves_bind; [done|intros ?; apply preserves_ret]).
    specialize (Hp' s Hc). rewrite Hrun in Hp'. by destruct o.
  - destruct Hs as [Hs|?]; [|lia]. unfold seen_until in Hs. rewrite Eid in Hs.
    destruct (signed_entry ctx msg (maxHeight p) s Hh Hs) as (o' & He & Hno).
    { split; [done|]. apply maxHeight_range. }
    simpl in Hrun. rewrite bind_run, He in Hrun. destruct o'; [done| |]; injection Hrun as <- <-;
      (split; [left; unfold seen_until; by rewrite Eid|done]).
Qed.

Lemma spent_run text p h s h' s' : 0 <= h -> spent text p h s -> acp_run h s h' s' ->
  0 <= h' /\ spent text p h' s'.
Proof.
  intros Hh Hsp Hrun. induction Hrun as [|h s h1 s1 s2 ctx op _ IH Hle Hafter]; [done|].
  destruct (IH Hh Hsp) as [Hh1 [Hs1 Hc1]]. split; [lia|].
  eapply spent_step; [lia| |done]. split; [|done]. destruct Hs1; [by left|right; lia].
Qed.

(** The states of a chain that started without commitments. *)
Definition acp_reachable s : Prop :=
  exists s0 h, rows (commitments (acp s0)) = ∅ /\ acp_run 0 s0 h s.

Lemma acp_reachable_comm s : acp_reachable s -> comm_ok (commitments (acp s)).
Proof.
  intros (s0 & h & Hr & Hrun).
  assert (comm_ok (commitments (acp s0))) as Hc by (intros id c; by rewrite Hr, lookup_empty). clear Hr.
  induction Hrun as [|h s h1 s1 s2 ctx op _ IH _ [->|(o & Hop & Hno)]]; [done|by apply IH|].
  specialize (IH Hc). destruct op as [| | | |msg| | | | | | |].
  5:{ assert (Hp : preserves (fun s => comm_ok (commitments (acp s))) (run_acp_op ctx (OpSignedPolicyCmd msg)))
        by (apply preserves_bind; [apply SignedPolicyCmd_comm|intros ?; apply preserves_ret]).
      specialize (Hp s1 IH). rewrite Hop in Hp. by destruct o. }
  all: epose proof (run_acp_op_kept _ ctx _ _ s1 (conj eq_refl IH)) as Hp; rewrite Hop in Hp;
    destruct o; [| |done]; apply Hp.
  Unshelve. all: tauto.
Qed.

(** A signed command is a dispatch after the entry is written. *)
Definition marked (text : bytes) p s : S :=
  lens_set (set_spc_seen (<[ComputePayloadID text := be_bytes 8 (maxHeight p)]> (spc_seen (acp s))) (acp s)) s.

Lemma marked_seen text p s : seen_until text p (marked text p s).
Proof. unfold seen_until, marked. rewrite acp_set. simpl. apply lookup_insert_eq. Qed.

(** The state after an entry that no longer counts is dropped. *)
Definition swept (id : bytes) s s' : Prop :=
  s' = s \/ s' = lens_set (set_spc_seen (delete id (spc_seen (acp s))) (acp s)) s.

Lemma signed_ok ctx msg s r s' : SignedPolicyCmd ctx msg s = (Ok r, s') ->
  exists p cmdCtx s0, jws_Verify (msp_Payload msg) = Ok p /\
    ValidateAndExtractCmd (default (mkAcpParams 0 None) (acp_params (acp s))) (msp_Payload msg) (msp_Type msg)
      (uint64 (block_height ctx)) = Ok p /\
    NewPolicyCmdCtx ctx (sp_PolicyId p) (sp_Actor p) (msp_Creator msg)
      (default (mkAcpParams 0 None) (acp_params (acp s))) = Ok cmdCtx /\
    swept (ComputePayloadID (msp_Payload msg)) s s0 /\
    Dispatch cmdCtx (sp_Cmd p) (marked (msp_Payload msg) p s0) = (Ok r, s').
Proof.
  unfold SignedPolicyCmd, GetParams. rewrite bind_run, acp_get_run. cbv beta iota. rewrite bind_run, of_outcome_run.
  destruct (ValidateAndExtractCmd _ _ _ _) as [p| |] eqn:Ee; [|done|done]. rewrite bind_run, of_outcome_run.
  destruct (NewPolicyCmdCtx _ _ _ _ _) as [cmdCtx| |] eqn:Ec; [|done|done]. cbv zeta. rewrite bind_run.
  intros Hrun. pose proof (extract_ok _ _ _ _ _ Ee) as [Hv _].
  assert (Hmark : forall s0, (throw_if false ErrPayloadAlreadyProcessed ;;;
      markSignedPolicyCmdSeen (ComputePayloadID (msp_Payload msg)) (maxHeight p) ;;; Dispatch cmdCtx (sp_Cmd p)) s0 = (Ok r, s') ->
      Dispatch cmdCtx (sp_Cmd p) (marked (msp_Payload msg) p s0) = (Ok r, s')).
  { intros s0. unfold markSignedPolicyCmdSeen. rewrite bind_run. simpl. rewrite bind_run, bind_run, acp_get_run.
    cbv beta iota. rewrite bind_run. by destruct (bool_decide _). }
  exists p, cmdCtx. unfold hasSeenSignedPolicyCmd in Hrun. rewrite bind_run, acp_get_run in Hrun. cbv beta iota in Hrun.
  destruct (spc_seen (acp s) !! _) as [bz|]; [|exists s; repeat split; try done; [by left|by apply Hmark]].
  destruct (decide (length bz <> 8%nat)).
  { eexists. repeat split; try done; [by right|]. apply Hmark. exact Hrun. }
  destruct (be_uint64 bz <? _); [|done].
  eexists. repeat split; try done; [by right|]. apply Hmark. exact Hrun.
Qed.
(** A command that has been executed is spent. *)
Lemma signed_spent ctx msg s r s' : 0 <= block_height ctx <= int64_max ->
  comm_ok (commitments (acp s)) -> SignedPolicyCmd ctx msg s = (Ok r, s') ->
  exists p, jws_Verify (msp_Payload msg) = Ok p /\ spent (msp_Payload msg) p (block_height ctx) s'.
Proof.
  intros Hh Hc (p & cmdCtx & s0 & Hv & _ & _ & Hs0 & Hrun)%signed_ok. exists p. split; [done|].
  assert (Hc0 : comm_ok (commitments (acp (marked (msp_Payload msg) p s0)))).
  { unfold marked. rewrite acp_set. simpl. destruct Hs0 as [->| ->]; [done|]. by rewrite acp_set. }
  pose proof (Dispatch_kept _ cmdCtx (sp_Cmd p) _ (conj eq_refl Hc0)) as Hk. rewrite Hrun in Hk.
  destruct Hk as [Hk Hc']. split; [left|done]. unfold seen_until. rewrite Hk. apply marked_seen.
Qed.

(** A spent text is refused without a trace. *)
Lemma spent_refused ctx msg p s : 0 <= block_height ctx <= int64_max ->
  jws_Verify (msp_Payload msg) = Ok p -> spent (msp_Payload msg) p (block_height ctx) s ->
  exists o, SignedPolicyCmd ctx msg s = (o, s) /\ is_ok o = false.
Proof.
  intros Hh Hv [Hs _]. destruct (Z.lt_ge_cases (maxHeight p) (block_height ctx)) as [Hlt|Hge].
  - unfold SignedPolicyCmd, GetParams. rewrite bind_run, acp_get_run. cbv beta iota.
    rewrite bind_run, of_outcome_run, height_uint64 by done.
    destruct (ValidateAndExtractCmd _ _ _ _) as [q|e|] eqn:Ee; [|by eexists|by eexists].
    apply extract_ok in Ee as [Hq Hle]. rewrite Hv in Hq. injection Hq as <-. lia.
  - destruct Hs as [Hs|?]; [|lia]. eapply signed_entry; [done|exact Hs|]. split; [lia|apply maxHeight_range].
Qed.

(** C5: replay protection of signed commands. Once a signed command was executed,
    then in every state the chain comes to from there, whichever operations of the
    module run and whoever submits it, the same text is refused and changes
    nothing: while the command is valid because its hash is on record, afterwards
    because it has expired. *)
Theorem signed_cmd_at_most_once ctx msg s r s' h s'' ctx' msg' :
  acp_reachable s -> 0 <= block_height ctx <= int64_max ->
  SignedPolicyCmd ctx msg s = (Ok r, s') -> acp_run (block_height ctx) s' h s'' ->
  msp_Payload msg' = msp_Payload msg -> h <= block_height ctx' <= int64_max ->
  exists o, SignedPolicyCmd ctx' msg' s'' = (o, s'') /\ is_ok o = false.
Proof.
  intros Hr Hh Hrun Hruns Hm Hh'. apply acp_reachable_comm in Hr.
  destruct (signed_spent _ _ _ _ _ Hh Hr Hrun) as (p & Hv & Hsp).
  destruct (spent_run _ _ _ _ _ _ (proj1 Hh) Hsp Hruns) as [Hh0 [Hs Hc]].
  rewrite <- Hm in Hv, Hs. eapply spent_refused; [lia|exact Hv|]. split; [|done].
  destruct Hs; [by left|right; lia].
Qed.

(** A text that is new runs its command. *)
Lemma SignedPolicyCmd_dispatch ctx msg p cmdCtx s :
  ValidateAndExtractCmd (default (mkAcpParams 0 None) (acp_params (acp s))) (msp_Payload msg) (msp_Type msg)
    (uint64 (block_height ctx)) = Ok p ->
  NewPolicyCmdCtx ctx (sp_PolicyId p) (sp_Actor p) (msp_Creator msg)
    (default (mkAcpParams 0 None) (acp_params (acp s))) = Ok cmdCtx ->
  spc_seen (acp s) !! ComputePayloadID (msp_Payload msg) = None ->
  SignedPolicyCmd ctx msg s = Dispatch cmdCtx (sp_Cmd p) (marked (msp_Payload msg) p s).
Proof.
  intros Hv Hc Hs. unfold SignedPolicyCmd, GetParams. rewrite bind_run, acp_get_run. cbv beta iota.
  rewrite bind_run, of_outcome_run, Hv. rewrite bind_run, of_outcome_run, Hc. cbv zeta. rewrite bind_run.
  unfold hasSeenSignedPolicyCmd. rewrite bind_run, acp_get_run. cbv beta iota. rewrite Hs. simpl.
  unfold markSignedPolicyCmdSeen. rewrite bind_run. simpl. rewrite bind_run, bind_run, acp_get_run.
  cbv beta iota. rewrite Hs. done.
Qed.

(** The protection is that of the text. A text that has not been processed
    itself, verifies to a payload and is in its time is executed by dispatching the
    payload's command, whatever texts with the same payload were executed before:
    any other encoding of a signed command runs it again. *)
Theorem signed_cmd_dispatched ctx msg p cmdCtx s :
  ValidateAndExtractCmd (default (mkAcpParams 0 None) (acp_params (acp s))) (msp_Payload msg) (msp_Type msg)
    (uint64 (block_height ctx)) = Ok p ->
  NewPolicyCmdCtx ctx (sp_PolicyId p) (sp_Actor p) (msp_Creator msg)
    (default (mkAcpParams 0 None) (acp_params (acp s))) = Ok cmdCtx ->
  spc_seen (acp s) !! ComputePayloadID (msp_Payload msg) = None ->
  SignedPolicyCmd ctx msg s = Dispatch cmdCtx (sp_Cmd p) (marked (msp_Payload msg) p s).
Proof. apply SignedPolicyCmd_dispatch. Qed.
End signed.

(** ** Witnesses *)

Definition demo_signed (text : string) : MsgSignedPolicyCmd := mkMsgSignedPolicyCmd (lit "relayer") (lit text) ContentType_JWS.

(** The command runs at height 7, the reader is removed, and the text is refused. *)
Lemma signed_cmd_at_most_once_witness :
  is_ok (SignedPolicyCmd (demo_ctx 7) (demo_signed "k.did:key:k") demo_world).1 = true /\
  is_ok (SignedPolicyCmd (demo_ctx 9) (demo_signed "k.did:key:k")
    (SignedPolicyCmd (demo_ctx 7) (demo_signed "k.did:key:k") demo_world).2).1 = false.
Proof.
  assert (Hok : is_ok (SignedPolicyCmd (demo_ctx 7) (demo_signed "k.did:key:k") demo_world).1 = true) by (vm_compute; reflexivity).
  split; [exact Hok|].
  destruct (SignedPolicyCmd (demo_ctx 7) (demo_signed "k.did:key:k") demo_world) as [[r|e|] s'] eqn:Er; try discriminate Hok.
  destruct (signed_cmd_at_most_once (demo_ctx 7) (demo_signed "k.did:key:k") demo_world r s' 7 s'
    (demo_ctx 9) (demo_signed "k.did:key:k")) as (o & Ho & Hno).
  - exists demo_world, 0. split; [reflexivity|constructor].
  - vm_compute. split; discriminate.
  - exact Er.
  - constructor.
  - reflexivity.
  - vm_compute. split; discriminate.
  - cbn [snd]. rewrite Ho. exact Hno.
Defined.

(** The same payload with a blank more runs after it. *)
Definition demo_before : AcpWorld unit := (SignedPolicyCmd (demo_ctx 7) (demo_signed "k.did:key:k") demo_world).2.

Lemma signed_cmd_dispatched_witness :
  is_ok (SignedPolicyCmd (demo_ctx 7) (demo_signed "k.did:key:k") demo_world).1 = true /\
  is_ok (SignedPolicyCmd (demo_ctx 8) (demo_signed "k.did:key:k ") demo_before).1 = true.
Proof.
  split; [vm_compute; reflexivity|].
  assert (He : jws_Verify (lit "k.did:key:k ") = jws_Verify (lit "k.did:key:k")) by (vm_compute; reflexivity).
  destruct (jws_Verify (lit "k.did:key:k ")) as [p| |] eqn:Ep; [|vm_compute in Ep; discriminate Ep..].
  assert (Hx : match NewPolicyCmdCtx (demo_ctx 8) (sp_PolicyId p) (sp_Actor p) (lit "relayer")
    (default (mkAcpParams 0 None) (acp_params (acp demo_before))) with
    | Ok c => is_ok (Dispatch (S := AcpWorld unit) c (sp_Cmd p) (marked (lit "k.did:key:k ") p demo_before)).1
    | _ => false end = true).
  { vm_compute in Ep. injection Ep as <-. vm_compute. reflexivity. }
  destruct (NewPolicyCmdCtx (demo_ctx 8) _ _ _ _) as [c| |] eqn:Ec; [|discriminate Hx..].
  rewrite (signed_cmd_dispatched (demo_ctx 8) (demo_signed "k.did:key:k ") p c demo_before).
  - cbn [msp_Payload demo_signed]. exact Hx.
  - vm_compute in Ep. injection Ep as <-. vm_compute. reflexivity.
  - exact Ec.
  - vm_compute. reflexivity.
Defined.
