(* ===== verification/AcpBuilder.v ===== *)
(** The building of signed commands (src/x/acp/signed_policy_cmd/builder.go, types.go),
    which clients run. A builder fills in a payload, checks it and signs it; the
    chain reads it as AcpBearer models it and runs it as AcpServer does. *)
From Stdlib Require Import Ascii ZArith Lia.
From stdpp Require Import base numbers list gmap strings.
From S2P Require Import Prelude Sdk Sha256 Utils GoText CoreKeeper Bearer AcpTypes AcpState AcpKeeper AcpBearer AcpMsgs AcpServer AcpReach AcpWorld AcpTicket AcpSigned.

Definition ErrBuilderMissingArgument : error := ErrMsg "missing argument".
Definition ErrSignerRequired : error := ErrMsg "no signer set for builder".

(** * Commands *)

Definition blank (s : bytes) : bool := bool_decide (TrimSpace s = []).

(** The object has a resource and an id. *)
Definition named (obj : Object) : bool := negb (blank (Resource obj)) && negb (blank (ObjectId obj)).

Definition validSubject (subj : Subject) : bool :=
  match subj with
  | SubjectActor id => negb (blank id)
  | SubjectObject o => named o
  | SubjectActorSet _ relation => negb (blank relation)
  | SubjectAllActors => true
  end.

(** The objects, relationships and subjects of a command are present; an object that is
    missing is refused like one with empty fields. *)
Definition validatePolicyCmd (cmd : PolicyCmd) : outcome unit :=
  match cmd with
  | SetRelationshipCmd rel =>
      _ ← fail_if (negb (named (rel_Object rel))) "set_relationship: object resource and id are required";
      _ ← fail_if (blank (rel_Relation rel)) "set_relationship: relation is required";
      fail_if (negb (validSubject (rel_Subject rel))) "set_relationship: invalid subject"
  | DeleteRelationshipCmd rel =>
      _ ← fail_if (negb (named (rel_Object rel))) "delete_relationship: object resource and id are required";
      fail_if (blank (rel_Relation rel)) "delete_relationship: relation is required"
  | RegisterObjectCmd obj => fail_if (negb (named obj)) "register_object: object resource and id are required"
  | ArchiveObjectCmd obj => fail_if (negb (named obj)) "archive_object: object resource and id are required"
  | UnarchiveObjectCmd obj => fail_if (negb (named obj)) "unarchive_object: object resource and id are required"
  | CommitRegistrationsCmd commitment =>
      fail_if (bool_decide (commitment = [])) "commit_registrations: commitment is required"
  | RevealRegistrationCmd commitmentId proof =>
      _ ← fail_if (bool_decide (proof = None)) "reveal_registration: proof is required";
      fail_if (commitmentId =? 0) "reveal_registration: registrations_commitment_id must be > 0"
  | FlagHijackAttemptCmd eventId => fail_if (eventId =? 0) "flag_hijack_attempt: event_id must be > 0"
  | PolicyCmd_unset => Err (ErrMsg "unknown command variant")
  end.

(** * Libraries *)

(** The JSON form of a payload as the protobuf library writes it, and go-jose's signer
    for a key: the algorithms it offers, and the full serialisation of a text signed
    with one of them. The texts of a payload are valid UTF-8, which proto3
    requires of strings, and numbers fit their 64 bits. *)
Class PayloadSigning `{PayloadJson} : Type := {
  SigningKey : Type;
  SigningAlgorithm : Type;
  payload_MarshalToString : SignedPolicyCmdPayload -> bytes + error;
  opaque_Algs : SigningKey -> list SigningAlgorithm;
  sign_FullSerialize : SigningKey -> SigningAlgorithm -> bytes -> bytes + error;
  payload_json_roundtrip : forall p text, 0 <= sp_IssuedHeight p < 2 ^ 64 -> 0 <= ExpirationDelta p < 2 ^ 64 ->
    payload_MarshalToString p = inl text -> payload_UnmarshalString text = inl p;
}.

(** The clock of the machine, next to the node. *)
Class SystemClock (N : Type) : Type := { TimestampNow : M N ProtoTimestamp }.

(** * The builder *)

Section builder.
Context `{Jose, PayloadJson, !PayloadSigning}.
Context {N : Type} `{CometClient N, SystemClock N}.

Record CmdBuilder : Type := mkCmdBuilder {
  cb_cmd : SignedPolicyCmdPayload;
  cb_params : Params;
  cb_cmdErr : option error;
  cb_signer : option SigningKey;
}.

(** A method of the builder talks to the node and changes the builder. *)
Abbreviation BM := (M (N * CmdBuilder)).
Implicit Types (b : CmdBuilder) (p : SignedPolicyCmdPayload).

Definition on_node {A} (m : M N A) : BM A := fun s => let '(r, n) := m s.1 in (r, (n, s.2)).
Definition getb {A} (f : CmdBuilder -> A) : BM A := gets (fun s => f s.2).
Definition set_cmd (f : SignedPolicyCmdPayload -> SignedPolicyCmdPayload) : BM unit :=
  modify (fun s => (s.1, mkCmdBuilder (f (cb_cmd s.2)) (cb_params s.2) (cb_cmdErr s.2) (cb_signer s.2))).

Definition NewCmdBuilder (params : Params) : CmdBuilder :=
  mkCmdBuilder (mkSignedPolicyCmdPayload [] 0 None 0 [] None) params None None.

Definition SetSigner (signer : option SigningKey) : BM unit :=
  modify (fun s => (s.1, mkCmdBuilder (cb_cmd s.2) (cb_params s.2) (cb_cmdErr s.2) signer)).
Definition GetSigner : BM (option SigningKey) := getb cb_signer.

Definition with_height (h : Z) p := mkSignedPolicyCmdPayload (sp_Actor p) h (sp_IssuedAt p) (ExpirationDelta p) (sp_PolicyId p) (sp_Cmd p).
Definition with_issued (ts : option ProtoTimestamp) p := mkSignedPolicyCmdPayload (sp_Actor p) (sp_IssuedHeight p) ts (ExpirationDelta p) (sp_PolicyId p) (sp_Cmd p).
Definition with_delta (d : Z) p := mkSignedPolicyCmdPayload (sp_Actor p) (sp_IssuedHeight p) (sp_IssuedAt p) d (sp_PolicyId p) (sp_Cmd p).
Definition with_actor (did : bytes) p := mkSignedPolicyCmdPayload did (sp_IssuedHeight p) (sp_IssuedAt p) (ExpirationDelta p) (sp_PolicyId p) (sp_Cmd p).
Definition with_policy (id : bytes) p := mkSignedPolicyCmdPayload (sp_Actor p) (sp_IssuedHeight p) (sp_IssuedAt p) (ExpirationDelta p) id (sp_Cmd p).
Definition with_cmd (cmd : option PolicyCmd) p := mkSignedPolicyCmdPayload (sp_Actor p) (sp_IssuedHeight p) (sp_IssuedAt p) (ExpirationDelta p) (sp_PolicyId p) cmd.

Definition builder_IssuedAt (ts : option ProtoTimestamp) : BM unit := set_cmd (with_issued ts).
Definition builder_Actor (did : bytes) : BM unit := set_cmd (with_actor did).
Definition builder_ExpirationDelta (delta : Z) : BM unit := set_cmd (with_delta delta).
Definition builder_PolicyID (id : bytes) : BM unit := set_cmd (with_policy id).
Definition builder_PolicyCmd (cmd : option PolicyCmd) : BM unit := set_cmd (with_cmd cmd).

(** [abciLogicalClock.GetTimestampNow] *)
Definition GetTimestampNow : M N Z := height <- ABCIInfo ;; ret (uint64 height).

Definition Build : BM SignedPolicyCmdPayload :=
  height <- on_node GetTimestampNow ;;
  set_cmd (with_height height) ;;;
  issuedAt <- getb (fun b => sp_IssuedAt (cb_cmd b)) ;;
  (match issuedAt with
   | Some _ => ret tt
   | None => now <- on_node TimestampNow ;; set_cmd (with_issued (Some now))
   end) ;;;
  maxDelta <- getb (fun b => PolicyCommandMaxExpirationDelta (cb_params b)) ;;
  delta <- getb (fun b => ExpirationDelta (cb_cmd b)) ;;
  when (delta =? 0) (set_cmd (with_delta maxDelta)) ;;;
  b <- getb id ;;
  throw_if (bool_decide (sp_PolicyId (cb_cmd b) = [])) ErrBuilderMissingArgument ;;;
  throw_if (PolicyCommandMaxExpirationDelta (cb_params b) <? ExpirationDelta (cb_cmd b)) ErrExpirationDeltaTooLarge ;;;
  of_outcome (check (IsValidDID (sp_Actor (cb_cmd b)))) ;;;
  cmd <- of_option (sp_Cmd (cb_cmd b)) ErrBuilderMissingArgument ;;
  of_outcome (check (cb_cmdErr b)) ;;;
  of_outcome (validatePolicyCmd cmd) ;;;
  ret (cb_cmd b).

Definition SignPayload (cmd : SignedPolicyCmdPayload) (skey : SigningKey) : outcome bytes :=
  payload ← sum_outcome (payload_MarshalToString cmd);
  match opaque_Algs skey with
  | [] => Panic
  | alg :: _ => sum_outcome (sign_FullSerialize skey alg payload)
  end.

Definition BuildJWS : BM bytes :=
  signer <- getb cb_signer ;;
  signer <- of_option signer ErrSignerRequired ;;
  payload <- Build ;;
  of_outcome (SignPayload payload signer).
End builder.

(** * What is built runs *)

Section runs.
Context `{ProtoTypes, AcpCodec, Raccoon, Merkle, GoSort, AddressCodec, DIDKeys, Jose, PayloadJson, !PayloadSigning}.
Context {N : Type} `{CometClient N, SystemClock N}.
Context {E : Type} `{ACPEngine E}.
Context {S : Type} `{!Lens S (AcpStore E)} `{!Lens S CoreStore} `{AcpAccounts S, CapabilityKeeper S, !AcpFrame S E}.
Implicit Types (n : N) (b : CmdBuilder) (p : SignedPolicyCmdPayload).

(** What the builder leaves as it is, and what it fills in. *)
Definition completes b p : Prop :=
  sp_Actor p = sp_Actor (cb_cmd b) /\ sp_PolicyId p = sp_PolicyId (cb_cmd b) /\ sp_Cmd p = sp_Cmd (cb_cmd b) /\
  ExpirationDelta p = (if ExpirationDelta (cb_cmd b) =? 0 then PolicyCommandMaxExpirationDelta (cb_params b)
                       else ExpirationDelta (cb_cmd b)).

Lemma on_node_ok {A} (m : M N A) (st : N * CmdBuilder) a st' : on_node m st = (Ok a, st') ->
  exists n', m st.1 = (Ok a, n') /\ st' = (n', st.2).
Proof. unfold on_node. destruct (m st.1) as [r n'] eqn:Em. intros [= -> <-]. eauto. Qed.

Lemma set_cmd_ok f (st : N * CmdBuilder) u st' : set_cmd f st = (Ok u, st') ->
  st' = (st.1, mkCmdBuilder (f (cb_cmd st.2)) (cb_params st.2) (cb_cmdErr st.2) (cb_signer st.2)).
Proof. unfold set_cmd, modify. by intros [= _ <-]. Qed.

Lemma getb_bind {A B} (f : CmdBuilder -> A) (k : A -> M (N * CmdBuilder) B) st : (x <- getb f ;; k x) st = k (f st.2) st.
Proof. reflexivity. Qed.

(** The payload that [Build] returns: it is issued at the height of the node, and its
    command and lifetime are in order. *)
Lemma Build_ok n b p st : Build (n, b) = (Ok p, st) ->
  completes b p /\ (exists height n1, ABCIInfo n = (Ok height, n1) /\ sp_IssuedHeight p = uint64 height) /\
  ExpirationDelta p <= PolicyCommandMaxExpirationDelta (cb_params b) /\
  IsValidDID (sp_Actor p) = None /\ (exists cmd, sp_Cmd p = Some cmd /\ validatePolicyCmd cmd = Ok tt).
Proof.
  unfold Build. intros Hr. apply bind_ok in Hr as (h & st1 & Hh & Hr). apply on_node_ok in Hh as (n1 & Hh & ->).
  apply bind_ok in Hh as (height & n2 & Hinfo & Hh). unfold ret in Hh. injection Hh as <- <-. cbn [snd fst] in *.
  apply bind_ok in Hr as ([] & st2 & ->%set_cmd_ok & Hr). cbn [fst snd] in Hr. rewrite getb_bind in Hr. cbn [snd cb_cmd] in Hr.
  apply bind_ok in Hr as ([] & st3 & Hnow & Hr).
  assert (Hst : exists n3 ts, st3 = (n3, mkCmdBuilder (with_issued ts (with_height (uint64 height) (cb_cmd b))) (cb_params b) (cb_cmdErr b) (cb_signer b))).
  { destruct (sp_IssuedAt _) as [t|] eqn:Et.
    - unfold ret in Hnow. injection Hnow as <-. exists n2, (Some t). do 2 f_equal. cbn in Et. destruct (cb_cmd b); cbn in *. by subst.
    - apply bind_ok in Hnow as (now & st4 & Hn & ->%set_cmd_ok). apply on_node_ok in Hn as (n4 & _ & ->). by eexists _, _. }
  destruct Hst as (n3 & ts & ->). clear Hnow. rewrite !getb_bind in Hr. cbn [snd cb_params cb_cmd] in Hr.
  apply bind_ok in Hr as ([] & st4 & Hd & Hr). set (p0 := with_issued ts (with_height (uint64 height) (cb_cmd b))) in *.
  set (p1 := if ExpirationDelta p0 =? 0 then with_delta (PolicyCommandMaxExpirationDelta (cb_params b)) p0 else p0).
  assert (Hst : st4 = (n3, mkCmdBuilder p1 (cb_params b) (cb_cmdErr b) (cb_signer b))).
  { unfold p1. destruct (ExpirationDelta p0 =? 0); [by apply set_cmd_ok in Hd|]. unfold when, ret in Hd. by injection Hd. }
  subst st4. clear Hd. rewrite getb_bind in Hr. cbn [snd id cb_cmd cb_params cb_cmdErr] in Hr.
  apply bind_ok in Hr as ([] & ? & _ & Hr).
  apply bind_ok in Hr as ([] & st5 & Hmax & Hr). apply bind_ok in Hr as ([] & st6 & Hdid & Hr).
  apply bind_ok in Hr as (cmd & st7 & Hcmd & Hr). apply bind_ok in Hr as ([] & st8 & _ & Hr).
  apply bind_ok in Hr as ([] & st9 & Hval & Hr). unfold ret in Hr. injection Hr as <- _.
  unfold of_outcome in Hdid, Hval. injection Hdid as Hdid%check_ok _. injection Hval as Hval _.
  assert (Hc : sp_Cmd p1 = Some cmd) by (destruct (sp_Cmd p1); unfold of_option, ret, throw in Hcmd; congruence).
  assert (Hle : ExpirationDelta p1 <= PolicyCommandMaxExpirationDelta (cb_params b))
    by (unfold throw_if, throw in Hmax; destruct (Z.ltb_spec (PolicyCommandMaxExpirationDelta (cb_params b)) (ExpirationDelta p1)); [done|lia]).
  split_and!; [| |done|done|by exists cmd].
  - unfold completes, p1. destruct (ExpirationDelta p0 =? 0) eqn:Ed; cbn in Ed |- *; rewrite Ed; done.
  - exists height, n2. split; [done|]. unfold p1. by destruct (ExpirationDelta p0 =? 0).
Qed.

(** The key signs for a DID: what it signs can be read, and verifies with the key that
    the chain takes from the DID. *)
Definition signs_for (sk : SigningKey) (did : bytes) : Prop :=
  forall alg payload text, head (opaque_Algs sk) = Some alg -> sign_FullSerialize sk alg payload = inl text ->
    ParseSigned text = inl payload /\ exists ak q, issuer_key did = Ok ak /\ Verify text ak.1 ak.2 = inl q.

Lemma signed_reads_back p sk text : signs_for sk (sp_Actor p) ->
  0 <= sp_IssuedHeight p < 2 ^ 64 -> 0 <= ExpirationDelta p < 2 ^ 64 ->
  SignPayload p sk = Ok text -> jws_Verify text = Ok p.
Proof.
  intros Hsk Hh Hd Hs. unfold SignPayload in Hs. apply outcome_bind_ok in Hs as (json & Hj%sum_outcome_ok & Hs).
  destruct (opaque_Algs sk) as [|alg algs] eqn:Ea; [done|]. apply sum_outcome_ok in Hs.
  destruct (Hsk alg json text) as (Hp & ak & q & Hk & Hv); [by rewrite Ea|done|].
  unfold jws_Verify. rewrite Hp. cbn [sum_outcome mbind outcome_bind]. rewrite (payload_json_roundtrip p json Hh Hd Hj).
  cbn [sum_outcome mbind outcome_bind]. rewrite Hk. cbn [mbind outcome_bind]. by rewrite Hv.
Qed.

(** C28: a command that the builder signs does run. If the key of the builder signs for the
    actor, the chain allows commands to live as long as the builder does, and the text
    arrives at a height up to the end of its lifetime and for the first time, then the
    chain executes exactly the command that was given to the builder, for its
    actor and policy. *)
Theorem built_command_runs n b text st sk (ctx : AcpCtx) creator (s : S) :
  BuildJWS (n, b) = (Ok text, st) -> cb_signer b = Some sk -> signs_for sk (sp_Actor (cb_cmd b)) ->
  0 <= ExpirationDelta (cb_cmd b) -> 0 <= PolicyCommandMaxExpirationDelta (cb_params b) < 2 ^ 64 ->
  PolicyCommandMaxExpirationDelta (cb_params b) <=
    PolicyCommandMaxExpirationDelta (default (mkAcpParams 0 None) (acp_params (acp s))) ->
  exists p, completes b p /\ (exists height n1, ABCIInfo n = (Ok height, n1) /\ sp_IssuedHeight p = uint64 height) /\
    forall cmdCtx, uint64 (block_height ctx) <= sp_IssuedHeight p + ExpirationDelta p < 2 ^ 64 ->
      spc_seen (acp s) !! ComputePayloadID text = None ->
      NewPolicyCmdCtx ctx (sp_PolicyId (cb_cmd b)) (sp_Actor (cb_cmd b)) creator
        (default (mkAcpParams 0 None) (acp_params (acp s))) = Ok cmdCtx ->
      SignedPolicyCmd ctx (mkMsgSignedPolicyCmd creator text ContentType_JWS) s =
        Dispatch cmdCtx (sp_Cmd (cb_cmd b)) (marked text p s).
Proof.
  intros Hr Hb Hsk Hd0 Hmax Hpar. unfold BuildJWS in Hr. rewrite getb_bind in Hr. cbn [snd] in Hr. rewrite Hb in Hr.
  erewrite bind_run_ok in Hr by done. apply bind_ok in Hr as (p & st1 & Hbuild & Hsign).
  unfold of_outcome in Hsign. injection Hsign as Hsign ->.
  destruct (Build_ok _ _ _ _ Hbuild) as (Hc & Hh & Hle & _ & _). exists p. split; [done|]. split; [done|].
  intros cmdCtx Hin Hseen Hctx. destruct Hc as (Ha & Hpol & Hcmd & Hdel). destruct Hh as (height & n1 & _ & Hh).
  assert (Hrange : 0 <= ExpirationDelta p < 2 ^ 64) by (rewrite Hdel in Hle |- *; destruct (_ =? 0); lia).
  assert (Hissued : 0 <= sp_IssuedHeight p < 2 ^ 64) by (rewrite Hh; apply Z.mod_pos_bound; lia).
  rewrite <- Hcmd. apply SignedPolicyCmd_dispatch; [|by rewrite Hpol, Ha|done].
  unfold ValidateAndExtractCmd. cbn [msp_Payload msp_Type].
  rewrite (signed_reads_back p sk text); [|by rewrite Ha|done|done|done]. cbn [mbind outcome_bind]. unfold payloadSpec, maxHeight.
  rewrite (uint64_small (_ + _)) by lia.
  rewrite (proj2 (Z.ltb_ge _ _)) by lia. by rewrite (proj2 (Z.ltb_ge _ _)) by lia.
Qed.
End runs.

(** * A concrete builder *)

#[global] Instance RegistrationProof_eq_dec : EqDecision RegistrationProof.
Proof. solve_decision. Defined.
#[global] Instance PolicyCmd_eq_dec : EqDecision PolicyCmd.
Proof. solve_decision. Defined.
#[global] Instance SignedPolicyCmdPayload_eq_dec : EqDecision SignedPolicyCmdPayload.
Proof. solve_decision. Defined.

(** A payload is written as its actor if it reads back, and a key signs by its name. *)
#[export, refine] Instance payload_signing_impl : PayloadSigning := {|
  SigningKey := bytes;
  SigningAlgorithm := unit;
  payload_MarshalToString p :=
    match payload_UnmarshalString (sp_Actor p) with
    | inl q => if decide (q = p) then inl (sp_Actor p) else inr (ErrMsg "marshal")
    | inr e => inr e
    end;
  opaque_Algs _ := [tt];
  sign_FullSerialize sk _ payload := inl (sk ++ lit "." ++ payload);
|}.
Proof.
  intros p text _ _ Hm. destruct (payload_UnmarshalString (sp_Actor p)) as [q|e] eqn:Eq; [|done].
  destruct (decide (q = p)) as [->|]; [|done]. by injection Hm as <-.
Defined.

#[export] Instance clock_impl : SystemClock Z := {| TimestampNow := ret (mkProtoTimestamp 0 0) |}.

Definition demo_builder : @CmdBuilder payload_impl payload_signing_impl :=
  @mkCmdBuilder payload_impl payload_signing_impl
    (mkSignedPolicyCmdPayload (lit "did:key:k") 0 None 10 (lit "policy1")
      (Some (SetRelationshipCmd (mkRelationship demo_file (lit "reader") (SubjectActor (lit "did:key:r"))))))
    (mkAcpParams 100 None) None (Some (lit "k")).

Lemma demo_signs : signs_for (lit "k" : @SigningKey payload_impl payload_signing_impl) (lit "did:key:k").
Proof.
  intros alg payload text _ [= <-]. split; [reflexivity|]. exists (tt, lit "k"), payload. split; reflexivity.
Qed.

(** Built at height 5 and run at height 7. *)
Lemma built_command_runs_witness :
  (BuildJWS (5, demo_builder)).1 = Ok (lit "k.did:key:k") /\
  exists p cmdCtx, SignedPolicyCmd (demo_ctx 7) (mkMsgSignedPolicyCmd (lit "relayer") (lit "k.did:key:k") ContentType_JWS) demo_world =
    Dispatch (S := AcpWorld unit) cmdCtx (sp_Cmd (cb_cmd demo_builder)) (marked (lit "k.did:key:k") p demo_world).
Proof.
  assert (Hb : (BuildJWS (5, demo_builder)).1 = Ok (lit "k.did:key:k")) by (vm_compute; reflexivity).
  split; [exact Hb|]. destruct (BuildJWS (5, demo_builder)) as [r st] eqn:Er. cbn [fst] in Hb. rewrite Hb in Er.
  destruct (built_command_runs (S := AcpWorld unit) 5 demo_builder (lit "k.did:key:k") st
    (lit "k" : @SigningKey payload_impl payload_signing_impl) (demo_ctx 7) (lit "relayer") demo_world
    Er eq_refl demo_signs) as (p & Hc & (height & n1 & Hh & Hp) & Hrun); [vm_compute; try discriminate; try (split; [discriminate|reflexivity])..|].
  destruct (NewPolicyCmdCtx (demo_ctx 7) (lit "policy1") (lit "did:key:k") (lit "relayer")
    (default (mkAcpParams 0 None) (acp_params (acp demo_world)))) as [c|e|] eqn:Ec; [|vm_compute in Ec; discriminate Ec..].
  exists p, c. apply Hrun; [|vm_compute; reflexivity|exact Ec].
  destruct Hc as (_ & _ & _ & Hd). rewrite Hd, Hp. injection Hh as <- _. vm_compute. split; [discriminate|reflexivity].
Defined.
