(* ===== verification/AcpCommit.v ===== *)
(** Commitments to registrations (src/x/acp/commitment): what is generated opens,
    to which objects it opens, and what the end of a block flags. *)
From Stdlib Require Import Ascii ZArith Lia.
From stdpp Require Import base numbers list gmap strings.
From S2P Require Import Prelude Sdk Sha256 Utils CoreKeeper Bearer AcpTypes AcpState AcpKeeper AcpBearer AcpMsgs AcpServer AcpReach AcpSigned AcpWorld.

(** * Openings *)

Section openings.
Context `{Merkle}.
Implicit Types (policyId actor root : bytes) (objs : list Object) (obj : Object).

Lemma objEq_spec a b : objEq a b = true <-> a = b.
Proof.
  unfold objEq. rewrite andb_true_iff, !bool_decide_eq_true. destruct a, b; simpl. split; [intros [-> ->]|intros [= -> ->]]; done.
Qed.

(** The search finds the first occurrence. *)
Lemma indexFrom_spec obj objs i : 0 <= i ->
  (indexFrom i obj objs = -1 /\ obj ∉ objs) \/
  exists k, indexFrom i obj objs = i + Z.of_nat k /\ objs !! k = Some obj.
Proof.
  revert i. induction objs as [|o objs IH]; intros i Hi; simpl.
  { left. split; [done|apply not_elem_of_nil]. }
  destruct (objEq obj o) eqn:Eo.
  { apply objEq_spec in Eo as ->. right. exists 0%nat. split; [lia|done]. }
  assert (obj <> o) by (intros ->; rewrite (proj2 (objEq_spec o o)) in Eo; done).
  destruct (IH (i + 1)) as [[-> Hn]|(k & -> & Hk)]; [lia| |].
  - left. split; [done|]. by apply not_elem_of_cons.
  - right. exists (S k). split; [lia|done].
Qed.

(** An actor and an object that the verifier looks at. *)
Definition openable actor obj : Prop := actor <> [] /\ ObjectId obj <> [] /\ Resource obj <> [].
#[local] Instance openable_dec actor obj : Decision (openable actor obj).
Proof. unfold openable. apply _. Defined.

(** Objects with the same text in the leaf of a tree. *)
Definition spelled_alike obj obj' : Prop := Resource obj ++ ObjectId obj = Resource obj' ++ ObjectId obj'.

Lemma leaf_alike policyId actor obj obj' : spelled_alike obj obj' ->
  GenerateLeafValue policyId actor obj' = GenerateLeafValue policyId actor obj.
Proof. intros Heq. unfold GenerateLeafValue. by rewrite (app_assoc (Resource obj)), Heq, <- app_assoc. Qed.

Definition with_object obj (p : RegistrationProof) : RegistrationProof :=
  mkRegistrationProof (Some obj) (MerkleProof p) (LeafCount p) (LeafIndex p).

Lemma proofForIdx_verifies policyId actor objs t k obj : Z.of_nat (length objs) <= int64_max ->
  NewObjectCommitmentTree policyId actor objs = Ok t -> objs !! k = Some obj ->
  exists proof, proofForIdx t (Z.of_nat k) = Ok proof /\ pf_Object proof = Some obj /\
    forall obj', spelled_alike obj obj' -> VerifyProof (tree_commitment t) policyId actor (Some (with_object obj' proof)) =
      if decide (openable actor obj') then Ok true else Err ErrorType_BAD_INPUT.
Proof.
  intros Hlen. unfold NewObjectCommitmentTree. destruct (decide _) as [|Hne]; [done|]. intros [= <-] Hk.
  pose proof (lookup_lt_Some _ _ _ Hk) as Hlt. unfold proofForIdx. simpl.
  destruct (Z.leb_spec (Z.of_nat (length objs)) (Z.of_nat k)); [lia|].
  destruct (Z.ltb_spec (Z.of_nat k) 0); [lia|]. simpl. eexists. split; [done|]. rewrite Nat2Z.id, Hk. split; [done|].
  intros obj' Heq. unfold VerifyProof, with_object, openable. cbn [MerkleProof LeafCount LeafIndex].
  destruct (decide (actor = [])) as [->|Ha]; [by rewrite decide_False by naive_solver|].
  rewrite HashFromByteSlices_length. rewrite decide_False by lia.
  destruct (decide (ObjectId obj' = [] \/ Resource obj' = [])) as [He|He]; [by rewrite decide_False by naive_solver|].
  rewrite decide_True by naive_solver. rewrite !wrap64_small by (apply is_int64_spec; unfold int64_min; lia).
  assert (Hleaf : (GenerateLeafValue policyId actor <$> objs) !! k = Some (GenerateLeafValue policyId actor obj))
    by (by rewrite list_lookup_fmap, Hk).
  pose proof (ProofAunts_verify _ _ _ Hleaf) as Hv. rewrite length_fmap in Hv. unfold produceLeafHash, leafPrefix.
  rewrite (leaf_alike _ _ _ _ Heq). by rewrite Hv.
Qed.

(** C33: what is committed to can be revealed. From a non-empty list of objects, not more
    than an int64 counts, the module makes a commitment of 32 bytes. For each object of
    the list the tree has a proof, and the verifier answers yes to it, for the policy
    and the actor it was made for, if the actor and the resource and id of the object are
    not empty; it refuses it as malformed otherwise, although the commitment was
    made. Moreover the same proof opens the commitment to every object with non-empty
    parts that is spelled like the committed one. For an object that is not in the
    list the tree itself makes no proof. *)
Theorem commitment_opens policyId actor objs obj root :
  GenerateCommitmentWithoutValidation policyId actor objs = Ok root -> Z.of_nat (length objs) <= int64_max ->
  Z.of_nat (length root) = commitmentBytes /\
  exists t, NewObjectCommitmentTree policyId actor objs = Ok t /\
    (obj ∈ objs -> exists proof, GetProofForObj t obj = Ok proof /\ pf_Object proof = Some obj /\
       VerifyProof root policyId actor (Some proof) =
         (if decide (openable actor obj) then Ok true else Err ErrorType_BAD_INPUT) /\
       forall obj', spelled_alike obj obj' -> openable actor obj' ->
         VerifyProof root policyId actor (Some (with_object obj' proof)) = Ok true) /\
    (obj ∉ objs -> GetProofForObj t obj = Err ErrorType_BAD_INPUT).
Proof.
  intros (t & Ht & [= <-])%outcome_bind_ok Hlen.
  assert (Htree : tree_objs t = objs /\ length (tree_commitment t) = 32%nat).
  { unfold NewObjectCommitmentTree in Ht. destruct (decide _); [done|]. injection Ht as <-.
    split; [done|]. apply HashFromByteSlices_length. }
  destruct Htree as [Hto ->]. split; [done|]. exists t. split; [done|].
  unfold GetProofForObj, findIdx. rewrite Hto.
  destruct (indexFrom_spec obj objs 0) as [[-> Hn]|(k & -> & Hk)]; [lia|split; done|].
  split; [intros _|intros Hn; by apply list_elem_of_lookup_2 in Hk].
  destruct (proofForIdx_verifies _ _ _ _ _ _ Hlen Ht Hk) as (proof & Hp & Ho & Hv).
  exists proof. cbv zeta. rewrite (proj2 (Z.eqb_neq (0 + Z.of_nat k) (-1))) by lia. rewrite Z.add_0_l.
  split_and!; [done|done| |].
  - rewrite <- (Hv obj eq_refl). f_equal. f_equal. destruct proof. cbn in Ho. by subst.
  - intros obj' Heq Hopen. rewrite (Hv obj' Heq). by rewrite decide_True.
Qed.

(** A commitment does not bind the resource. A leaf is the concatenation of the
    policy, the resource, the object and the actor, so a proof for an object opens
    the commitment just as well to any other object whose resource and id spell the
    same text, one that the actor need not have committed to. *)
Theorem opening_ambiguous root policyId actor obj obj' aunts n i :
  Resource obj ++ ObjectId obj = Resource obj' ++ ObjectId obj' ->
  Resource obj' <> [] -> ObjectId obj' <> [] ->
  VerifyProof root policyId actor (Some (mkRegistrationProof (Some obj) aunts n i)) = Ok true ->
  VerifyProof root policyId actor (Some (mkRegistrationProof (Some obj') aunts n i)) = Ok true.
Proof.
  intros Heq Hr Hi. unfold VerifyProof. destruct (decide (actor = [])); [done|]. destruct (decide (_ <> 32)); [done|].
  unfold produceLeafHash. rewrite (leaf_alike _ _ _ _ Heq). destruct (decide (ObjectId obj = [] \/ _)); [done|].
  by rewrite decide_False by tauto.
Qed.
End openings.

(** * The end of a block *)

Section flags.
Context `{ProtoTypes, AcpCodec, Raccoon, Merkle, GoSort, AddressCodec, DIDKeys, Jose, PayloadJson}.
Context {E : Type} `{ACPEngine E}.
Context {S : Type} `{!Lens S (AcpStore E)} `{!Lens S CoreStore} `{AcpAccounts S, CapabilityKeeper S, !AcpFrame S E}.
Implicit Types (ctx : AcpCtx) (s : S) (c : RegistrationsCommitment) (now : Timestamp).

Definition is_over now c : bool := match IsExpiredAgainst c now with Ok true => true | _ => false end.

Definition flagged now c : RegistrationsCommitment :=
  if negb (Expired c) && is_over now c then with_expired c else c.

(** Whether the validity of a commitment can be judged. *)
Definition judged now c : Prop := exists b, IsExpiredAgainst c now = Ok b.

Lemma expired_of_judged now l : (forall c, c ∈ l -> judged now c) ->
  expired_of now l = Ok (filter (fun c => is_over now c) l).
Proof.
  induction l as [|c l IH]; intros Hl; [done|]. cbn [expired_of].
  destruct (Hl c) as [b Hb]; [by left|]. rewrite Hb. simpl. rewrite IH by (intros; apply Hl; by right). simpl.
  rewrite filter_cons. assert (is_over now c = b) as -> by (unfold is_over; rewrite Hb; by destruct b). by destruct b.
Qed.

(** Writing back a list of rows. *)
Definition put_rows (m : gmap Z RegistrationsCommitment) (l : list RegistrationsCommitment) :=
  foldl (fun m c => <[cm_Id c := c]> m) m l.

Lemma put_rows_other l : forall m id, (forall c, c ∈ l -> cm_Id c <> id) -> put_rows m l !! id = m !! id.
Proof.
  induction l as [|c l IH]; intros m id Hl; [done|]. simpl. unfold put_rows in IH. rewrite IH.
  - apply lookup_insert_ne, Hl. by left.
  - intros c' Hc'. apply Hl. by right.
Qed.

Lemma put_rows_elem l c : (forall c', c' ∈ l -> cm_Id c' = cm_Id c -> c' = c) -> c ∈ l ->
  forall m, put_rows m l !! cm_Id c = Some c.
Proof.
  induction l as [|x l IH]; intros Hu Hc m; [by apply elem_of_nil in Hc|]. simpl.
  destruct (decide (cm_Id c ∈ cm_Id <$> l)) as [(c' & Hid & Hin)%list_elem_of_fmap|Hnin].
  - assert (c' = c) as -> by (apply Hu; [by right|done]). apply IH; [|done]. intros c' Hc'. apply Hu. by right.
  - apply elem_of_cons in Hc as [<-|Hc]; [|by destruct Hnin; apply list_elem_of_fmap_2].
    change (put_rows (<[cm_Id c:=c]> m) l !! cm_Id c = Some c).
    rewrite put_rows_other; [apply lookup_insert_eq|]. intros c' Hc' He. apply Hnin. rewrite <- He.
    by apply list_elem_of_fmap_2.
Qed.

Lemma update_run l : forall s,
  (forall c, c ∈ l -> is_Some (rows (commitments (acp s)) !! cm_Id c)) ->
  exists s', forM_ (commitment_update (S := S)) l s = (Ok tt, s') /\
    acp s' = set_commitments (commitments (acp s')) (acp s) /\
    rows (commitments (acp s')) = put_rows (rows (commitments (acp s))) l.
Proof.
  induction l as [|c l IH]; intros s Hl; simpl.
  { exists s. by destruct (acp s). }
  destruct (Table_Update_ok _ cm_Id c (commitments (acp s))) as [t Ht]; [apply Hl; by left|].
  pose proof (Table_Update_rows _ _ _ _ _ Ht) as Hr.
  set (s1 := lens_set (set_commitments t (acp s)) s).
  assert (Hs1 : acp s1 = set_commitments t (acp s)) by apply acp_set.
  destruct (IH s1) as (s' & Hrun & Hacp & Hrows).
  { intros c' Hc'. rewrite Hs1. simpl. rewrite Hr. apply lookup_insert_is_Some'. right. apply Hl. by right. }
  exists s'. rewrite Hs1 in Hacp, Hrows. simpl in Hrows. rewrite Hr in Hrows. split; [|by split].
  unfold commitment_update. rewrite bind_run, bind_run, acp_get_run. cbv beta iota. rewrite Ht, acp_mod_run. exact Hrun.
Qed.

(** The end of a block flags what has expired. In a reachable state in which the
    validity of every live commitment can be judged the end of the block succeeds;
    it flags exactly the commitments whose validity is over at the block's time, and
    changes nothing else in the module's store. *)
Theorem end_block_flags ctx now s :
  acp_reachable s -> TimestampFromCtx ctx = Ok now ->
  (forall id c, rows (commitments (acp s)) !! id = Some c -> Expired c = false -> judged now c) ->
  exists s', EndBlock ctx s = (Ok tt, s') /\
    acp s' = set_commitments (commitments (acp s')) (acp s) /\
    rows (commitments (acp s')) = flagged now <$> rows (commitments (acp s)).
Proof.
  intros Hc%acp_reachable_comm Hnow Hj. unfold EndBlock, EndBlocker, FlagExpiredCommitments.
  rewrite bind_run. unfold attempt. rewrite bind_run, of_outcome_run, Hnow. unfold GetNonExpiredCommitments.
  rewrite bind_run, acp_get_run. cbv beta iota. rewrite bind_run, flag_loop_run.
  set (live := Index_Iterate Expired false (commitments (acp s))).
  assert (Hlive : forall c, c ∈ live <-> rows (commitments (acp s)) !! cm_Id c = Some c /\ Expired c = false).
  { intros c. unfold live. rewrite non_expired_spec. split; [|naive_solver].
    intros (id & Hl & He). by destruct (Hc _ _ Hl) as [<- _]. }
  rewrite expired_of_judged by (intros c [Hl He]%Hlive; by eapply Hj). cbn [mbind outcome_bind app].
  set (l := with_expired <$> _).
  assert (Hl : forall c', c' ∈ l -> exists c, c' = with_expired c /\ rows (commitments (acp s)) !! cm_Id c' = Some c /\
    Expired c = false /\ is_over now c).
  { intros c' (c & -> & [He Hin]%list_elem_of_filter)%list_elem_of_fmap. exists c. by apply Hlive in Hin as [? ?]. }
  destruct (update_run l s) as (s' & Hrun & Hacp & Hrows); [naive_solver|].
  exists s'. rewrite bind_run, Hrun. split_and!; [done|done|]. rewrite Hrows. apply map_eq. intros id.
  rewrite lookup_fmap. destruct (rows (commitments (acp s)) !! id) as [c|] eqn:Eid; simpl.
  2:{ rewrite put_rows_other; [done|]. intros c' (? & _ & Hr & _)%Hl <-. congruence. }
  destruct (Hc _ _ Eid) as [<- _]. unfold flagged. destruct (Expired c) eqn:Ee; simpl.
  { rewrite put_rows_other; [done|]. intros c' (c0 & _ & Hr & He & _)%Hl Hid. congruence. }
  destruct (is_over now c) eqn:Hb.
  - apply (put_rows_elem l (with_expired c)).
    + intros c' (c0 & -> & Hr & _)%Hl Hid. simpl in *. congruence.
    + apply list_elem_of_fmap. exists c. split; [done|]. apply list_elem_of_filter. rewrite Hb. split; [done|]. by apply Hlive.
  - rewrite put_rows_other; [done|]. intros c' (c0 & -> & Hr & _ & Hb')%Hl Hid. simpl in *.
    rewrite Hid, Eid in Hr. injection Hr as <-. by rewrite Hb in Hb'.
Qed.
Lemma expired_of_panic now l c0 : (forall c, c ∈ l -> judged now c \/ IsExpiredAgainst c now = Panic) ->
  c0 ∈ l -> IsExpiredAgainst c0 now = Panic -> expired_of now l = Panic.
Proof.
  induction l as [|c l IH]; intros Hl Hin Hp; [by apply elem_of_nil in Hin|]. cbn [expired_of].
  destruct (Hl c) as [[b Hb]|Hb]; [by left| |]; rewrite Hb; [|done].
  apply elem_of_cons in Hin as [->|Hin]; [congruence|]. simpl.
  rewrite IH; [done| |done|done]. intros c' Hc'. apply Hl. by right.
Qed.

(** A commitment without a validity halts the chain. The parameters are stored
    without a check, and a commitment takes its validity from them. While one such
    commitment is live, with the others able to be judged, the end of every block
    panics. *)
Theorem unset_validity_halts ctx now s id c :
  TimestampFromCtx ctx = Ok now ->
  rows (commitments (acp s)) !! id = Some c -> Expired c = false -> Validity c = None ->
  (forall id' c', rows (commitments (acp s)) !! id' = Some c' -> Expired c' = false ->
     judged now c' \/ Validity c' = None) ->
  (EndBlock ctx s).1 = Panic.
Proof.
  intros Hnow Hid He Hv Hall.
  assert (Hpanic : forall c', Validity c' = None -> IsExpiredAgainst c' now = Panic)
    by (intros c' Hc'; unfold IsExpiredAgainst; rewrite Hc'; by destruct (CreationTs _)).
  unfold EndBlock, EndBlocker, FlagExpiredCommitments. rewrite bind_run. unfold attempt.
  rewrite bind_run, of_outcome_run, Hnow. unfold GetNonExpiredCommitments.
  rewrite bind_run, acp_get_run. cbv beta iota. rewrite bind_run, flag_loop_run.
  rewrite (expired_of_panic now _ c); [done| | |by apply Hpanic].
  - intros c' (id' & Hl & He')%non_expired_spec. destruct (Hall _ _ Hl He'); [by left|right; by apply Hpanic].
  - apply non_expired_spec. eauto.
Qed.
End flags.

(** ** Witnesses *)

Definition demo_objects : list Object := [mkObject (lit "file") (lit "1x"); mkObject (lit "file") (lit "2")].
Definition demo_root : bytes :=
  match GenerateCommitmentWithoutValidation (lit "policy1") (lit "did:key:k") demo_objects with Ok r => r | _ => [] end.

Lemma commitment_opens_witness : exists t proof,
  NewObjectCommitmentTree (lit "policy1") (lit "did:key:k") demo_objects = Ok t /\
  GetProofForObj t (mkObject (lit "file") (lit "2")) = Ok proof /\
  VerifyProof demo_root (lit "policy1") (lit "did:key:k") (Some proof) = Ok true.
Proof.
  destruct (commitment_opens (lit "policy1") (lit "did:key:k") demo_objects (mkObject (lit "file") (lit "2")) demo_root)
    as (_ & t & Ht & Hin & _).
  - vm_compute. reflexivity.
  - vm_compute. discriminate.
  - destruct Hin as (proof & Hp & _ & Hv & _); [right; left|]. rewrite decide_True in Hv by (split_and!; discriminate).
    exists t, proof. split; [exact Ht|]. split; [exact Hp|exact Hv].
Defined.

(** A commitment to [1x] of the resource [file] opens to [x] of [file1]. *)
Lemma opening_ambiguous_witness :
  VerifyProof demo_root (lit "policy1") (lit "did:key:k")
    (Some (mkRegistrationProof (Some (mkObject (lit "file1") (lit "x")))
       (ProofAunts (GenerateLeafValue (lit "policy1") (lit "did:key:k") <$> demo_objects) 0) 2 0)) = Ok true.
Proof.
  apply (opening_ambiguous demo_root _ _ (mkObject (lit "file") (lit "1x")));
    [reflexivity|discriminate|discriminate|vm_compute; reflexivity].
Defined.

(** A chain on which [k] commits at height 5. *)
Definition demo_commit (w : AcpWorld unit) : AcpWorld unit :=
  (run_acp_op (demo_ctx 5) (OpDirectPolicyCmd (mkMsgDirectPolicyCmd (lit "k") (lit "policy1")
     (Some (CommitRegistrationsCmd demo_root)))) w).2.

Definition demo_rows (w : AcpWorld unit) : list (Z * bool) :=
  (fun x => (x.1, Expired x.2)) <$> map_to_list (rows (commitments (acp w))).

Lemma end_block_flags_witness :
  demo_rows (demo_commit demo_world) = [(1, false)] /\
  exists s', EndBlock (demo_ctx 16) (demo_commit demo_world) = (Ok tt, s') /\ demo_rows s' = [(1, true)].
Proof.
  split; [vm_compute; reflexivity|].
  destruct (TimestampFromCtx (demo_ctx 16)) as [now| |] eqn:En; [|discriminate En..].
  destruct (end_block_flags (demo_ctx 16) now (demo_commit demo_world)) as (s' & Hrun & _ & Hrows).
  - exists demo_world, 5. split; [reflexivity|]. apply (acp_run_step 0 _ 0 demo_world _ (demo_ctx 5)
      (OpDirectPolicyCmd (mkMsgDirectPolicyCmd (lit "k") (lit "policy1") (Some (CommitRegistrationsCmd demo_root))))).
    + constructor.
    + vm_compute. split; discriminate.
    + right. eexists. split; [apply surjective_pairing|]. vm_compute. discriminate.
  - exact En.
  - intros id c Hl He. assert (Hin : (id, c) ∈ map_to_list (rows (commitments (acp (demo_commit demo_world)))))
      by (apply elem_of_map_to_list; exact Hl).
    vm_compute in Hin. apply list_elem_of_singleton in Hin. injection Hin as -> ->.
    vm_compute in En. injection En as <-. vm_compute. eexists. reflexivity.
  - exists s'. split; [exact Hrun|]. unfold demo_rows. rewrite Hrows. vm_compute in En. injection En as <-.
    vm_compute. reflexivity.
Defined.

(** The authority stores parameters without a validity before the commitment. *)
Definition demo_no_validity : AcpWorld unit :=
  demo_commit (run_acp_op (demo_ctx 4)
    (OpUpdateParams (lit "gov") (mkAcpUpdateParams (lit "gov") (mkAcpParams 100 None))) demo_world).2.

Lemma unset_validity_halts_witness :
  Params_Validate (mkAcpParams 100 None) = None /\ (EndBlock (demo_ctx 6) demo_no_validity).1 = Panic.
Proof.
  split; [reflexivity|].
  destruct (TimestampFromCtx (demo_ctx 6)) as [now| |] eqn:En; [|discriminate En..].
  assert (Hl : exists c, map_to_list (rows (commitments (acp demo_no_validity))) = [(1, c)] /\
    Expired c = false /\ Validity c = None) by (eexists; split; [vm_compute; reflexivity|split; reflexivity]).
  destruct Hl as (c & Hl & He & Hv).
  apply (unset_validity_halts (demo_ctx 6) now demo_no_validity 1 c); [exact En| |exact He|exact Hv|].
  - apply elem_of_map_to_list. rewrite Hl. left.
  - intros id' c' Hc'%elem_of_map_to_list _. rewrite Hl in Hc'. apply list_elem_of_singleton in Hc'.
    injection Hc' as -> ->. right. exact Hv.
Defined.
