(* ===== verification/AcpReveal.v ===== *)
(** Revealing a commitment (src/x/acp/registration/service.go, amendment of
    registrations): who owns the object afterwards, and what is recorded. *)
From Stdlib Require Import Ascii ZArith Lia.
From stdpp Require Import base numbers list gmap strings.
From S2P Require Import Prelude Sdk Sha256 Utils CoreKeeper Bearer AcpTypes AcpState AcpKeeper AcpBearer AcpMsgs AcpServer AcpReach AcpWorld AcpCommit.

(** What the engine documents of registrations: reading one changes nothing, and
    the record that revealing or amending returns is the registration of the object
    from then on. It belongs to the principal, or to the new owner of the amendment,
    and carries the metadata that was supplied. *)
Class EngineLaws (E : Type) `{ACPEngine E} : Prop := {
  GetObjectRegistration_read : forall ctx p o (e : E), (engine_GetObjectRegistration ctx p o e).2 = e;
  RevealRegistration_law : forall ctx ctx' p o blob ts r (e e' : E),
    engine_RevealRegistration ctx p o blob ts e = (Ok r, e') ->
    (engine_GetObjectRegistration ctx' p o e').1 = Ok (Some r) /\ Supplied_Blob (cr_Metadata r) = blob /\
    forall did, principal ctx = Some (DIDPrincipal did) -> rel_Subject (cr_Relationship r) = SubjectActor did;
  AmendRegistration_law : forall ctx ctx' p o owner ts blob r (e e' : E),
    engine_AmendRegistration ctx p o owner ts blob e = (Ok r, e') ->
    (engine_GetObjectRegistration ctx' p o e').1 = Ok (Some r) /\ Supplied_Blob (cr_Metadata r) = blob /\
    rel_Subject (cr_Relationship r) = SubjectActor owner;
  GetObjectRegistration_object : forall ctx p o r (e : E),
    (engine_GetObjectRegistration ctx p o e).1 = Ok (Some r) -> rel_Object (cr_Relationship r) = o;
}.

Section reveal.
Context `{ProtoTypes, AcpCodec, Raccoon, Merkle, GoSort, AddressCodec, DIDKeys, Jose, PayloadJson}.
Context {E : Type} `{ACPEngine E, !EngineLaws E}.
Context {S : Type} `{!Lens S (AcpStore E)} `{!Lens S CoreStore} `{AcpAccounts S, CapabilityKeeper S, !AcpFrame S E}.
Implicit Types (ctx : AcpCtx) (s : S) (c : RegistrationsCommitment) (obj : Object) (proof : RegistrationProof).

(** The registration of an object, as it is read in a context. *)
Definition registration ctx s (policyId : bytes) obj : outcome (option CoreRelationshipRecord) :=
  (engine_GetObjectRegistration ctx policyId obj (acp_engine (acp s))).1.

(** The opening of commitment [c] to [obj] that the module accepts. *)
Definition opens ctx s (cid : Z) proof (actor : bytes) c obj : Prop :=
  rows (commitments (acp s)) !! cid = Some c /\ pf_Object proof = Some obj /\
  (exists now, TimestampFromCtx ctx = Ok now /\ IsExpiredAgainst c now = Ok false) /\
  VerifyProof (Commitment c) (cm_PolicyId c) actor (Some proof) = Ok true.

Lemma ValidateOpening_ok ctx cid (proof : option RegistrationProof) actor s c ok s' :
  ValidateOpening ctx cid proof actor s = (Ok (c, ok), s') ->
  s' = s /\ rows (commitments (acp s)) !! cid = Some c /\
  (exists now, TimestampFromCtx ctx = Ok now /\ IsExpiredAgainst c now = Ok false) /\
  VerifyProof (Commitment c) (cm_PolicyId c) actor proof = Ok ok.
Proof.
  unfold ValidateOpening, commitment_GetById. rewrite bind_run, bind_run, acp_get_run. cbv beta iota.
  rewrite Table_GetByID_rows. simpl. destruct (rows (commitments (acp s)) !! cid) as [c0|]; [|done].
  rewrite bind_run. simpl. rewrite bind_run, of_outcome_run.
  destruct (wrap_err _ (TimestampFromCtx ctx)) as [now| |] eqn:En; [|done|done]. rewrite bind_run, of_outcome_run.
  destruct (wrap_err _ (IsExpiredAgainst c0 now)) as [[]| |] eqn:Ee; try done.
  apply wrap_err_ok in En, Ee. rewrite bind_run. simpl. rewrite bind_run, of_outcome_run.
  destruct (VerifyProof _ _ _ _) as [b| |] eqn:Ev; [|done|done]. intros [= <- <- <-]. eauto 6.
Qed.
Lemma on_engine_ok {A} (m : M E A) s a s' : on_engine m s = (Ok a, s') ->
  exists e, m (acp_engine (acp s)) = (Ok a, e) /\ acp s' = set_acp_engine e (acp s).
Proof.
  unfold on_engine. fold (acp s). destruct (m (acp_engine (acp s))) as [o e] eqn:Em. intros [= -> <-].
  exists e. split; [done|]. apply acp_set.
Qed.

Lemma read_ok ctx policyId obj s r s' :
  on_engine (engine_GetObjectRegistration ctx policyId obj) s = (Ok r, s') ->
  registration ctx s policyId obj = Ok r /\ acp s' = acp s.
Proof.
  intros (e & Hr & ->)%on_engine_ok. pose proof (GetObjectRegistration_read ctx policyId obj (acp_engine (acp s))) as He.
  unfold registration. rewrite Hr in *. simpl in He. subst e. by destruct (acp s).
Qed.

Lemma deref_ok {A} (o : option A) s a s' : deref (S := S) o s = (Ok a, s') -> o = Some a /\ s' = s.
Proof. destruct o; [|done]. by intros [= -> ->]. Qed.

Lemma of_outcome_ok {A} (o : outcome A) s a s' : of_outcome o s = (Ok a, s') -> o = Ok a /\ s' = s.
Proof. rewrite of_outcome_run. by intros [= -> ->]. Qed.

Lemma event_create_ok ev s ev' s' : event_create ev s = (Ok ev', s') -> exists id,
  rows (amendments (acp s)) !! id = None /\ ev' = with_event_id ev id /\
  acp s' = set_amendments (amendments (acp s')) (acp s) /\
  rows (amendments (acp s')) = <[id := ev']> (rows (amendments (acp s))).
Proof.
  unfold event_create. rewrite bind_run, acp_get_run. cbv beta iota.
  destruct (Table_Insert _ _ _) as [[r t]|e] eqn:Et; [|done]. rewrite bind_run, acp_mod_run. intros [= <- <-].
  apply Table_Insert_rows in Et as (id & Hid & -> & Hr). exists id. by rewrite !acp_set.
Qed.

Lemma metadata_blob ctx ts actor creator blob :
  BuildACPSuppliedMetadataWithTime ctx ts actor creator = Ok blob -> forall r, Supplied_Blob (cr_Metadata r) = blob ->
  exists rec, MapRelationshipRecord r = Ok rec /\ CreationTs (rr_Metadata rec) = ts /\ OwnerDid (rr_Metadata rec) = actor.
Proof.
  unfold BuildACPSuppliedMetadataWithTime, MapRelationshipRecord, ExtractRecordMetadata. intros Hb r ->.
  destruct (RecordMetadata_Marshal _) as [bz|] eqn:Em; [|done]. injection Hb as ->.
  apply RecordMetadata_roundtrip in Em. rewrite Em. simpl. eexists. split; [done|]. done.
Qed.

(** The object is the actor's, as of the time of the commitment. *)
Definition taken ctx s c obj (actor : bytes) (r : CoreRelationshipRecord) : Prop :=
  registration ctx s (cm_PolicyId c) obj = Ok (Some r) /\ rel_Subject (cr_Relationship r) = SubjectActor actor /\
  exists rec, MapRelationshipRecord r = Ok rec /\
    CreationTs (rr_Metadata rec) = CreationTs (cm_Metadata c) /\ OwnerDid (rr_Metadata rec) = actor.

(** The amendment that a reveal over the registration [old] leaves. *)
Definition amended s s' c obj (actor : bytes) (old : CoreRelationshipRecord) (ev : AmendmentEvent) : Prop :=
  (exists md t t', ExtractRecordMetadata (cr_Metadata old) = Ok md /\ CreationTs md = Some t /\
     CreationTs (cm_Metadata c) = Some t' /\ BlockHeight t' <= BlockHeight t) /\
  rows (amendments (acp s)) !! ev_Id ev = None /\
  rows (amendments (acp s')) = <[ev_Id ev := ev]> (rows (amendments (acp s))) /\
  PreviousOwner ev = Creator_Identifier (cr_Metadata old) /\ NewOwner ev = actor /\ ev_Object ev = obj /\
  CommitmentId ev = cm_Id c /\ HijackFlag ev = false.

Lemma amend_ok ctx c old actor signer s r ev s' :
  amendRegistration ctx c old actor signer s = (Ok (r, ev), s') ->
  (forall ctx', taken ctx' s' c (rel_Object (cr_Relationship old)) actor r) /\
  amended s s' c (rel_Object (cr_Relationship old)) actor old ev /\
  commitments (acp s') = commitments (acp s).
Proof.
  intros Hrun. unfold amendRegistration in Hrun. cbv zeta in Hrun.
  ok_inv Hrun. apply of_outcome_ok in Hrun0 as [Hmd ->]. ok_inv Hrun. apply deref_ok in Hrun0 as [Ht ->].
  ok_inv Hrun. apply deref_ok in Hrun0 as [Ht' ->]. ok_inv Hrun. apply throw_if_ok in Hrun0 as [Hle ->].
  ok_inv Hrun. apply of_outcome_ok in Hrun0 as [Hblob ->].
  ok_inv Hrun. apply on_engine_ok in Hrun0 as (e & He & Hs). ok_inv Hrun. apply of_outcome_ok in Hrun0 as [_ ->].
  ok_inv Hrun. apply event_create_ok in Hrun0 as (id & Hid & -> & Hacp & Hrows).
  injection Hrun as <- <- <-. rewrite Hs in Hid, Hacp, Hrows. apply Z.ltb_ge in Hle. split_and!.
  - intros ctx'. destruct (AmendRegistration_law _ ctx' _ _ _ _ _ _ _ _ He) as (Hreg & Hb & Hsub).
    split; [|split; [done|]]; [by unfold registration; rewrite Hacp|]. eapply metadata_blob; [exact Hblob|done].
  - split_and!; [|done..]. by eexists _, _, _.
  - by rewrite Hacp.
Qed.
Lemma RevealRegistration_ok ctx cid proof actor signer s r ev s' :
  principal ctx = Some (DIDPrincipal actor) ->
  RevealRegistration ctx cid (Some proof) actor signer s = (Ok (r, ev), s') ->
  exists c obj, opens ctx s cid proof actor c obj /\ (forall ctx', taken ctx' s' c obj actor r) /\
    commitments (acp s') = commitments (acp s) /\
    match ev with
    | None => registration ctx s (cm_PolicyId c) obj = Ok None /\ amendments (acp s') = amendments (acp s)
    | Some ev => exists old, registration ctx s (cm_PolicyId c) obj = Ok (Some old) /\ amended s s' c obj actor old ev
    end.
Proof.
  intros Hp Hrun. unfold RevealRegistration in Hrun.
  ok_inv Hrun. destruct a as [c ok]. apply ValidateOpening_ok in Hrun0 as (-> & Hc & Hnow & Hv).
  ok_inv Hrun. apply throw_if_ok in Hrun0 as [Hok ->]. apply negb_false_iff in Hok as ->.
  ok_inv Hrun. apply deref_ok in Hrun0 as [[= <-] ->]. ok_inv Hrun. apply deref_ok in Hrun0 as [Ho ->].
  rename a0 into obj. exists c, obj. split; [by split_and!|].
  ok_inv Hrun. apply read_ok in Hrun0 as [Hreg Hs]. destruct a0 as [old|].
  - ok_inv Hrun. destruct a0 as [r' ev']. injection Hrun as <- <- <-.
    apply amend_ok in Hrun0 as (Ht & Ha & Hcs). pose proof (GetObjectRegistration_object _ _ _ _ _ Hreg) as Hobj.
    rewrite Hobj in *. unfold amended in Ha. rewrite Hs in Ha, Hcs. eauto 6.
  - ok_inv Hrun. apply of_outcome_ok in Hrun0 as [Hblob ->]. ok_inv Hrun. apply deref_ok in Hrun0 as [_ ->].
    ok_inv Hrun. injection Hrun as <- <- <-. apply on_engine_ok in Hrun0 as (e & He & Hs').
    rewrite Hs in Hs'. rewrite !Hs'. split_and!; [|done|done|done]. intros ctx'.
    destruct (RevealRegistration_law _ ctx' _ _ _ _ _ _ _ He) as (Hr & Hb & Hsub).
    split; [by unfold registration; rewrite Hs'|]. split; [by apply Hsub|]. eapply metadata_blob; [exact Hblob|done].
Qed.

(** C13: what revealing does. When a reveal succeeds, the commitment was on record, not
    expired, and the proof opened it to the object for the acting principal;
    afterwards the object is registered to the principal as of the time of the
    commitment, and no commitment has changed. If the object was free nothing else is
    recorded; if it was registered, then not before the block of the commitment, and
    an amendment event with the previous owner and the new one is added under a new id. *)
Theorem reveal_effect (cmdCtx : PolicyCmdCtx) cid proof s rec ev s' :
  Dispatch cmdCtx (Some (RevealRegistrationCmd cid (Some proof))) s = (Ok (RevealRegistrationResult rec ev), s') ->
  exists c obj r ctx,
    InjectPrincipal (pc_Ctx cmdCtx) (PrincipalDID cmdCtx) = Ok ctx /\
    opens ctx s cid proof (PrincipalDID cmdCtx) c obj /\
    (forall ctx', taken ctx' s' c obj (PrincipalDID cmdCtx) r) /\ MapRelationshipRecord r = Ok rec /\
    commitments (acp s') = commitments (acp s) /\
    match ev with
    | None => registration ctx s (cm_PolicyId c) obj = Ok None /\ amendments (acp s') = amendments (acp s)
    | Some ev => exists old, registration ctx s (cm_PolicyId c) obj = Ok (Some old) /\
        amended s s' c obj (PrincipalDID cmdCtx) old ev
    end.
Proof.
  intros Hrun. unfold Dispatch in Hrun. ok_inv Hrun. apply of_outcome_ok in Hrun0 as [Hinj ->]. cbv zeta in Hrun.
  ok_inv Hrun. apply deref_ok in Hrun0 as [[= <-] ->]. unfold revealRegistration in Hrun.
  ok_inv Hrun. destruct a0 as [r ev']. ok_inv Hrun. apply of_outcome_ok in Hrun1 as [Hmap ->].
  injection Hrun as <- <- <-. simpl in Hrun0.
  assert (Hp : principal a = Some (DIDPrincipal (PrincipalDID cmdCtx))).
  { unfold InjectPrincipal in Hinj. destruct (NewDIDPrincipal _) as [p|] eqn:Ep; [|done].
    apply NewDIDPrincipal_ok in Ep as ->. by injection Hinj as <-. }
  destruct (RevealRegistration_ok _ _ _ _ _ _ _ _ _ Hp Hrun0) as (c & obj & Ho & Ht & Hc & He).
  by exists c, obj, r, a.
Qed.

(** An older registration stands. If the object was registered in a block before
    that of the commitment, revealing is refused and the module's store is as it was. *)
Theorem older_registration_stands ctx cid proof actor signer s c obj old md t t' :
  opens ctx s cid proof actor c obj -> registration ctx s (cm_PolicyId c) obj = Ok (Some old) ->
  ExtractRecordMetadata (cr_Metadata old) = Ok md -> CreationTs md = Some t ->
  CreationTs (cm_Metadata c) = Some t' -> BlockHeight t < BlockHeight t' ->
  exists s', RevealRegistration ctx cid (Some proof) actor signer s = (Err ErrorType_OPERATION_FORBIDDEN, s') /\
    acp s' = acp s.
Proof.
  intros (Hc & Ho & (now & Hnow & He) & Hv) Hreg Hmd Ht Ht' Hlt.
  set (s1 := lens_set (set_acp_engine (acp_engine (acp s)) (acp s)) s).
  exists s1. split; [|unfold s1; rewrite acp_set; by destruct (acp s)].
  unfold RevealRegistration, ValidateOpening, commitment_GetById.
  rewrite bind_run, bind_run, bind_run, acp_get_run. cbv beta iota. rewrite Table_GetByID_rows, Hc. cbn [ret].
  rewrite bind_run. cbn [of_option ret]. rewrite bind_run, of_outcome_run, Hnow. cbn [wrap_err].
  rewrite bind_run, of_outcome_run, He. cbn [wrap_err]. rewrite bind_run. cbn [throw_if ret].
  rewrite bind_run, of_outcome_run, Hv. cbn [ret]. rewrite bind_run. cbn [throw_if negb ret].
  rewrite bind_run. cbn [deref ret]. rewrite bind_run, Ho. cbn [deref ret]. rewrite bind_run.
  unfold on_engine at 1. fold (acp s).
  pose proof (GetObjectRegistration_read ctx (cm_PolicyId c) obj (acp_engine (acp s))) as Hread.
  unfold registration in Hreg. destruct (engine_GetObjectRegistration _ _ _ _) as [o e]. simpl in Hread, Hreg. subst.
  fold s1. unfold amendRegistration. rewrite bind_run, bind_run, of_outcome_run, Hmd, bind_run, Ht.
  cbn [deref ret]. rewrite bind_run, Ht'. cbn [deref ret]. rewrite bind_run.
  apply Z.ltb_lt in Hlt. by rewrite Hlt.
Qed.
End reveal.

(** ** Witnesses *)

#[export] Instance toy_engine_laws : EngineLaws ToyEngine.
Proof.
  assert (Hreg : forall ctx' p o owner blob (e : ToyEngine) r e', toy_register p o owner blob e = (Ok r, e') ->
    (engine_GetObjectRegistration ctx' p o e').1 = Ok (Some r) /\ Supplied_Blob (cr_Metadata r) = blob /\
    rel_Subject (cr_Relationship r) = SubjectActor owner).
  { intros ctx' p o owner blob e r e' [= <- <-]. simpl. by rewrite lookup_insert_eq. }
  split; [done| | |].
  - intros ctx ctx' p o blob ts r e e' Hrun. simpl in Hrun. unfold toy_register_new in Hrun. rewrite bind_run in Hrun.
    simpl in Hrun. destruct (bool_decide _); [done|]. destruct (Hreg ctx' _ _ _ _ _ _ _ Hrun) as (Hg & Hb & Hs).
    split_and!; [done|done|]. intros did Hd. rewrite Hs. unfold acting. by rewrite Hd.
  - intros ctx ctx' p o owner ts blob r e e' Hrun. exact (Hreg ctx' _ _ _ _ _ _ _ Hrun).
  - intros ctx p o r e. simpl. destruct (te_registrations e !! _); [|done]. by intros [= <-].
Qed.

Definition demo_register (h : Z) (w : AcpWorld unit) : AcpWorld unit :=
  (run_acp_op (demo_ctx h) (OpDirectPolicyCmd (mkMsgDirectPolicyCmd (lit "r") (lit "policy1")
     (Some (RegisterObjectCmd (mkObject (lit "file") (lit "2")))))) w).2.

Definition demo_opening : RegistrationProof :=
  mkRegistrationProof (Some (mkObject (lit "file") (lit "2")))
    (ProofAunts (GenerateLeafValue (lit "policy1") (lit "did:key:k") <$> demo_objects) 1) 2 1.

Definition demo_cmd (h : Z) : PolicyCmdCtx :=
  mkPolicyCmdCtx (demo_ctx h) (lit "policy1") (lit "did:key:k") (mkTimestamp (mkProtoTimestamp 0 0) h)
    (mkAcpParams 100 None) (lit "k").

(** [k] commits, [r] registers the object, [k] reveals. *)
Definition demo_squatted : AcpWorld unit := demo_register 6 (demo_commit demo_world).

Lemma reveal_effect_witness : exists rec ev s' c obj r,
  Dispatch (demo_cmd 7) (Some (RevealRegistrationCmd 1 (Some demo_opening))) demo_squatted
    = (Ok (RevealRegistrationResult rec (Some ev)), s') /\
  toy_owner (lit "policy1") (mkObject (lit "file") (lit "2")) (acp_engine (acp demo_squatted)) = lit "did:key:r" /\
  taken (demo_ctx 7) s' c obj (lit "did:key:k") r /\ PreviousOwner ev = lit "did:key:r".
Proof.
  assert (Hk : match (Dispatch (demo_cmd 7) (Some (RevealRegistrationCmd 1 (Some demo_opening))) demo_squatted).1 with
    | Ok (RevealRegistrationResult _ (Some ev)) => bool_decide (PreviousOwner ev = lit "did:key:r")
    | _ => false end = true) by (vm_compute; reflexivity).
  destruct (Dispatch (demo_cmd 7) (Some (RevealRegistrationCmd 1 (Some demo_opening))) demo_squatted)
    as [[res|e|] s'] eqn:Er; [|discriminate Hk..].
  destruct res as [| | | | |rec [ev|]| |]; try discriminate Hk.
  destruct (reveal_effect (demo_cmd 7) 1 demo_opening demo_squatted rec (Some ev) s' Er)
    as (c & obj & r & ctx & _ & _ & Ht & _).
  exists rec, ev, s', c, obj, r. split; [reflexivity|]. split; [vm_compute; reflexivity|]. split; [apply Ht|].
  cbn [fst] in Hk. apply bool_decide_eq_true in Hk. exact Hk.
Defined.

(** [r] had registered the object at height 4, [k] committed at 5. *)
Definition demo_older : AcpWorld unit := demo_commit (demo_register 4 demo_world).

Lemma older_registration_stands_witness : exists s',
  RevealRegistration (demo_ctx 7) 1 (Some demo_opening) (lit "did:key:k") (lit "k") demo_older
    = (Err ErrorType_OPERATION_FORBIDDEN, s') /\ acp s' = acp demo_older.
Proof.
  assert (Hc : exists c, rows (commitments (acp demo_older)) !! 1 = Some c) by (eexists; vm_compute; reflexivity).
  destruct Hc as [c Hc]. pose proof Hc as Hc'. vm_compute in Hc'. injection Hc' as Ec.
  eapply (older_registration_stands (demo_ctx 7) 1 demo_opening (lit "did:key:k") (lit "k") demo_older c
    (mkObject (lit "file") (lit "2"))).
  - split; [exact Hc|]. split; [reflexivity|]. rewrite <- Ec. split; [|vm_compute; reflexivity].
    eexists. split; vm_compute; reflexivity.
  - rewrite <- Ec. vm_compute. reflexivity.
  - vm_compute. reflexivity.
  - reflexivity.
  - rewrite <- Ec. reflexivity.
  - vm_compute. reflexivity.
Defined.
