(* ===== verification/AcpClient.v ===== *)
(** What a module that uses the acp module can rely on: none of the operations of
    the acp module touches the store of its client.

    [T] is the client's store inside the state of the chain ([own]). The frame of
    each operation is proved once here, for the bulletin and the orbis module, with
    the rules ([ends], [yields]) that follow a client's handler through its calls. *)
From Stdlib Require Import Ascii ZArith Lia.
From stdpp Require Import base numbers list gmap strings.
From S2P Require Import Prelude Sdk Sha256 Utils CoreKeeper Bearer AcpTypes AcpState AcpKeeper AcpBearer AcpMsgs AcpServer AcpReach.

(** The acp module and the capabilities live outside of the client's store. *)
Class ClientFrame (S E T : Type) `{Raccoon, !Lens S (AcpStore E), CapabilityKeeper S, !Lens S T} : Prop := {
  client_lens : forall (t : T) (s : S), lens_get (lens_set t s) = t;
  client_acp : forall (t : AcpStore E) (s : S), lens_get (T := T) (lens_set t s) = lens_get s;
  client_NewCapability : forall m name (s : S), lens_get (T := T) (NewCapability m name s).2 = lens_get s;
  client_ClaimCapability : forall m c name (s : S), lens_get (T := T) (ClaimCapability m c name s).2 = lens_get s;
}.

Section client.
Context `{ProtoTypes, AcpCodec, Raccoon, Merkle, GoSort, AddressCodec, DIDKeys, Jose, PayloadJson}.
Context {E : Type} `{ACPEngine E}.
Context {S : Type} `{!Lens S (AcpStore E)} `{!Lens S CoreStore} `{AcpAccounts S, CapabilityKeeper S}.
Context {T : Type} `{!Lens S T} `{!ClientFrame S E T}.
Implicit Types (ctx : AcpCtx) (s : S) (t : T).

Definition own (s : S) : T := lens_get s.

(** ** Frames *)

(** An operation that does not touch the client's store. *)
Definition own_is t (s : S) : Prop := own s = t.

Lemma acp_get_framed {A} t (f : AcpStore E -> A) : preserves (own_is t) (acp_get f).
Proof. apply preserves_gets. Qed.

Lemma acp_mod_framed t (f : AcpStore E -> AcpStore E) : preserves (own_is t) (acp_mod f).
Proof. apply preserves_modify. intros s <-. apply client_acp. Qed.

Lemma on_engine_framed {A} t (m : M E A) : preserves (own_is t) (on_engine (S := S) m).
Proof.
  intros s <-. unfold on_engine. destruct (m _) as [[a|e|] e']; [| |done]; apply client_acp.
Qed.

Lemma deref_framed {A} t (o : option A) : preserves (own_is t) (deref (S := S) o).
Proof. destruct o; [apply preserves_ret|apply preserves_panic]. Qed.

Lemma NewCapability_framed t m name : preserves (own_is t) (NewCapability m name).
Proof.
  intros s <-. pose proof (client_NewCapability (E := E) (T := T) m name s) as Hf.
  by destruct (NewCapability m name s) as [[a|e|] s'].
Qed.

Lemma ClaimCapability_framed t m c name : preserves (own_is t) (ClaimCapability m c name).
Proof.
  intros s <-. pose proof (client_ClaimCapability (E := E) (T := T) m c name s) as Hf.
  by destruct (ClaimCapability m c name s) as [[a|e|] s'].
Qed.

Lemma core_get_framed {A} t (f : CoreStore -> A) : preserves (own_is t) (core_get (S := S) f).
Proof. apply preserves_gets. Qed.

#[local] Hint Resolve acp_get_framed acp_mod_framed on_engine_framed deref_framed NewCapability_framed
  ClaimCapability_framed core_get_framed : preserves.

Lemma Dispatch_framed t (cmdCtx : PolicyCmdCtx) cmd : preserves (own_is t) (Dispatch (S := S) cmdCtx cmd).
Proof.
  unfold Dispatch. apply preserves_bind; [eauto with preserves|intros ctx']. cbv zeta.
  apply preserves_bind; [eauto with preserves|intros c].
  destruct c; unfold setRelationship, AcpMsgs.deleteRelationship, registerObject, archiveObject, commitRegistrations,
    revealRegistration, flagHijackAttempt, unarchiveObject, RegisterObject, ArchiveObject, UnarchiveObject,
    RevealRegistration, ValidateOpening, amendRegistration, FlagHijackEvent, SetNewCommitment, commitment_create,
    event_create, event_update, event_GetById, commitment_GetById; preserve.
Qed.

Lemma IssueDID_framed t ctx addr : preserves (own_is t) (IssueDIDFromAccountAddr (S := S) ctx addr).
Proof. unfold IssueDIDFromAccountAddr, GetICAConnection. preserve. Qed.

Lemma GetActorDID_framed t ctx addr : preserves (own_is t) (GetActorDID (S := S) ctx addr).
Proof. unfold GetActorDID. destruct (decide _); [apply IssueDID_framed|apply preserves_ret]. Qed.

#[local] Hint Resolve Dispatch_framed IssueDID_framed GetActorDID_framed : preserves.

Lemma VerifyAccessRequest_framed t ctx policyId ops actor :
  preserves (own_is t) (VerifyAccessRequest (S := S) ctx policyId ops actor).
Proof. unfold VerifyAccessRequest. preserve. Qed.

Lemma DirectPolicyCmd_framed t ctx msg : preserves (own_is t) (DirectPolicyCmd (S := S) ctx msg).
Proof. unfold DirectPolicyCmd, AcpKeeper.GetParams. preserve. Qed.

Lemma run_acp_op_framed t ctx op : preserves (own_is t) (run_acp_op (S := S) ctx op).
Proof.
  destruct op; simpl;
    unfold CreatePolicy, EditPolicy, DirectPolicyCmd, BearerPolicyCmd, SignedPolicyCmd, hasSeenSignedPolicyCmd,
      markSignedPolicyCmdSeen, CheckAccess, Execute, decision_Set, AcpServer.UpdateParams, CreateModulePolicy,
      EditModulePolicy, ModulePolicyCmdForActorDID, ModulePolicyCmdForActorAccount, dispatchModulePolicyCmd,
      Validate, isOwnedByAcpModule, GetOwnerModule, Issue, EndBlock, EndBlocker, FlagExpiredCommitments,
      GetNonExpiredCommitments, commitment_update, AcpKeeper.GetParams, AcpKeeper.SetParams; preserve.
Qed.

Lemma CreateModulePolicy_framed t ctx policy ty module : preserves (own_is t) (CreateModulePolicy (S := S) ctx policy ty module).
Proof. unfold CreateModulePolicy, Issue. preserve. Qed.

Lemma Claim_framed t module (cap : PolicyCapability S) : preserves (own_is t) (Claim module cap).
Proof. apply ClaimCapability_framed. Qed.

Lemma Fetch_framed t module policyId : preserves (own_is t) (Fetch (S := S) module policyId).
Proof. unfold Fetch. preserve. Qed.

Lemma module_cmd_framed t ctx cap cmd did signer :
  preserves (own_is t) (ModulePolicyCmdForActorDID (S := S) ctx cap cmd did signer).
Proof.
  unfold ModulePolicyCmdForActorDID, dispatchModulePolicyCmd, Validate, isOwnedByAcpModule, GetOwnerModule,
    AcpKeeper.GetParams. preserve.
Qed.

(** ** The effects of a handler *)

(** How a run that does not panic ends: its outcome and the client's store. *)
Definition ends {A} (Q : outcome A -> T -> Prop) (r : outcome A * S) : Prop :=
  r.1 = Panic \/ Q r.1 (own r.2).

Lemma ends_bind {A B} (Q : outcome B -> T -> Prop) (m : M S A) (k : A -> M S B) s :
  (forall t, preserves (own_is t) m) -> (forall e, Q (Err e) (own s)) ->
  (forall a s1, own s1 = own s -> ends Q (k a s1)) -> ends Q (bind m k s).
Proof.
  intros Hm He Hk. specialize (Hm (own s) s eq_refl). rewrite bind_run.
  destruct (m s) as [[a|e|] s1]; [by apply Hk| |by left]. right. simpl. unfold own_is in Hm. by rewrite Hm.
Qed.

Lemma own_set t s : own (lens_set t s) = t.
Proof. apply client_lens. Qed.

Lemma ends_throw_if {B} (Q : outcome B -> T -> Prop) c e (k : unit -> M S B) s :
  Q (Err e) (own s) -> (c = false -> ends Q (k tt s)) -> ends Q (bind (throw_if c e) k s).
Proof. intros He Hk. destruct c; [by right|by apply Hk]. Qed.

(** How a run that succeeds ends: its result and the client's store. *)
Definition yields {A} (Q : A -> T -> Prop) (r : outcome A * S) : Prop := forall a s', r = (Ok a, s') -> Q a (own s').

Lemma yields_ret {A} (Q : A -> T -> Prop) a s : Q a (own s) -> yields Q (ret a s).
Proof. by intros Hq a' s' [= <- <-]. Qed.

Lemma yields_err {A} (Q : A -> T -> Prop) e s : yields Q (Err e, s).
Proof. done. Qed.

Lemma yields_bind {A B} (Q : B -> T -> Prop) (m : M S A) (k : A -> M S B) s :
  (forall t, preserves (own_is t) m) -> (forall a s1, m s = (Ok a, s1) -> own s1 = own s -> yields Q (k a s1)) ->
  yields Q (bind m k s).
Proof.
  intros Hm Hk b s'. specialize (Hm (own s) s eq_refl). rewrite bind_run.
  destruct (m s) as [[a|e|] s1] eqn:Em; [|done|done]. exact (Hk a s1 eq_refl Hm b s').
Qed.

Lemma yields_throw_if {B} (Q : B -> T -> Prop) c e (k : unit -> M S B) s :
  (c = false -> yields Q (k tt s)) -> yields Q (bind (throw_if c e) k s).
Proof. intros Hk. destruct c; [done|]. by apply Hk. Qed.

Lemma yields_of_outcome {A B} (Q : B -> T -> Prop) (o : outcome A) (k : A -> M S B) s :
  (forall a, o = Ok a -> yields Q (k a s)) -> yields Q (bind (of_outcome o) k s).
Proof. intros Hk. destruct o; [by apply Hk|done|done]. Qed.

Lemma yields_of_option {A B} (Q : B -> T -> Prop) (o : option A) e (k : A -> M S B) s :
  (forall a, o = Some a -> yields Q (k a s)) -> yields Q (bind (of_option o e) k s).
Proof. intros Hk. destruct o; [by apply Hk|done]. Qed.

Lemma yields_then {A B} (P : A -> T -> Prop) (Q : B -> T -> Prop) (m : M S A) (k : A -> M S B) s :
  yields P (m s) -> (forall a s1, P a (own s1) -> yields Q (k a s1)) -> yields Q (bind m k s).
Proof.
  intros Hm Hk b s'. rewrite bind_run. destruct (m s) as [[a|e|] s1] eqn:Em; [|done|done].
  apply Hk. by apply (Hm a s1).
Qed.

Lemma framed_ok {A} (m : M S A) s a s' : (forall t, preserves (own_is t) m) -> m s = (Ok a, s') -> own s' = own s.
Proof. intros Hm Hrun. specialize (Hm (own s) s eq_refl). by rewrite Hrun in Hm. Qed.
End client.

#[export] Hint Resolve acp_get_framed acp_mod_framed on_engine_framed deref_framed NewCapability_framed
  ClaimCapability_framed core_get_framed Dispatch_framed IssueDID_framed GetActorDID_framed
  VerifyAccessRequest_framed DirectPolicyCmd_framed run_acp_op_framed CreateModulePolicy_framed Claim_framed
  Fetch_framed module_cmd_framed : preserves.
