(* ===== verification/Bulletin.v ===== *)
(** The bulletin module (src/x/bulletin): namespaces with collaborators, and posts.

    A namespace is an object of the module's own policy, which the acp module keeps;
    its owner registers it and adds collaborators, who may post. The module's store
    ([BulletinStore]) holds the records under keys made of the parts with a slash in
    between. The module holds the keeper of the acp module itself, so its operations
    call those of AcpServer.v. *)
From Stdlib Require Import Ascii ZArith Lia.
From stdpp Require Import base numbers list gmap strings.
From S2P Require Import Prelude Sdk Sha256 Utils CoreKeeper Bearer AcpTypes AcpState AcpKeeper AcpBearer AcpMsgs AcpServer.

(** * Data *)

Record Namespace : Type := mkNamespace {
  ns_Id : bytes; ns_Creator : bytes; ns_OwnerDid : bytes; CreatedAt : Time;
}.

Record Collaborator : Type := mkCollaborator {
  co_Address : bytes; co_Did : bytes; co_Namespace : bytes;
}.

Record Post : Type := mkPost {
  po_Id : bytes; po_Namespace : bytes; CreatorDid : bytes; po_Payload : bytes;
}.

Record Params : Type := mkBulletinParams { }.

Record GenesisState : Type := mkBulletinGenesis {
  gen_Params : Params;
  gen_PolicyId : bytes;
  gen_Namespaces : list Namespace;
  gen_Collaborators : list Collaborator;
  gen_Posts : list Post;
}.

Record MsgUpdateParams : Type := mkBulletinUpdateParams { bup_Authority : bytes; bup_Params : Params }.
Record MsgRegisterNamespace : Type := mkMsgRegisterNamespace { rn_Creator : bytes; rn_Namespace : bytes }.
Record MsgCreatePost : Type := mkMsgCreatePost {
  cp_Creator : bytes; cp_Namespace : bytes; cp_Payload : bytes; cp_Artifact : bytes;
}.
Record MsgAddCollaborator : Type := mkMsgAddCollaborator {
  ac_Creator : bytes; ac_Namespace : bytes; ac_Collaborator : bytes;
}.
Record MsgRemoveCollaborator : Type := mkMsgRemoveCollaborator {
  rc_Creator : bytes; rc_Namespace : bytes; rc_Collaborator : bytes;
}.

Definition NewParams : Params := mkBulletinParams.
Definition DefaultParams : Params := NewParams.
Definition Params_Validate (p : Params) : option error := None.
Definition DefaultGenesis : GenesisState := mkBulletinGenesis DefaultParams [] [] [] [].
Definition GenesisState_Validate (gs : GenesisState) : option error := Params_Validate (gen_Params gs).

Definition ModuleName : bytes := lit "bulletin".
Definition CollaboratorRelation : bytes := lit "collaborator".
Definition CreatePostPermission : bytes := lit "create_post".
Definition NamespaceIdPrefix : bytes := lit "bulletin/".
Definition NamespaceResource : bytes := lit "namespace".

Definition bulletin_err (code : Z) : error := ErrReg "bulletin" code.
Definition ErrInvalidSigner := bulletin_err 1100.
Definition ErrInvalidPolicyId := bulletin_err 1101.
Definition ErrNamespaceAlreadyExists := bulletin_err 1102.
Definition ErrNamespaceNotFound := bulletin_err 1103.
Definition ErrInvalidNamespaceId := bulletin_err 1104.
Definition ErrInvalidPostCreator := bulletin_err 1106.
Definition ErrPostAlreadyExists := bulletin_err 1107.
Definition ErrPostNotFound := bulletin_err 1108.
Definition ErrInvalidPostPayload := bulletin_err 1109.
Definition ErrCollaboratorAlreadyExists := bulletin_err 1111.
Definition ErrCollaboratorNotFound := bulletin_err 1112.
Definition ErrCouldNotEnsurePolicy := bulletin_err 1113.

(** [BasePolicy]: whoever is a collaborator may create posts. *)
Definition BasePolicy : bytes := lit "
description: Base policy that defines permissions for bulletin namespaces
name: Bulletin Policy
resources:
- name: namespace
  permissions:
  - expr: collaborator
    name: create_post
  - expr: collaborator
    name: update_post
  relations:
  - name: collaborator
    types:
    - actor
".

(** * Messages *)

Section messages.
Context `{AddressCodec}.

(** [sdk.AccAddressFromBech32] fails, wrapped as an invalid address. *)
Definition checkAddress (address : bytes) : option error :=
  match StringToBytes address with inl _ => None | inr _ => Some (ErrReg "sdk" 7) end.

Definition first_error (a b : option error) : option error := match a with Some e => Some e | None => b end.

Definition checkNamespace (namespace : bytes) : option error :=
  if decide (namespace = []) then Some ErrInvalidNamespaceId else None.

Definition MsgRegisterNamespace_ValidateBasic (msg : MsgRegisterNamespace) : option error :=
  first_error (checkAddress (rn_Creator msg)) (checkNamespace (rn_Namespace msg)).

Definition MsgCreatePost_ValidateBasic (msg : MsgCreatePost) : option error :=
  first_error (checkAddress (cp_Creator msg))
    (first_error (checkNamespace (cp_Namespace msg))
       (if decide (cp_Payload msg = []) then Some ErrInvalidPostPayload else None)).

Definition MsgAddCollaborator_ValidateBasic (msg : MsgAddCollaborator) : option error :=
  first_error (checkAddress (ac_Creator msg))
    (first_error (checkNamespace (ac_Namespace msg)) (checkAddress (ac_Collaborator msg))).

Definition MsgRemoveCollaborator_ValidateBasic (msg : MsgRemoveCollaborator) : option error :=
  first_error (checkAddress (rc_Creator msg))
    (first_error (checkNamespace (rc_Namespace msg)) (checkAddress (rc_Collaborator msg))).

Definition MsgUpdateParams_ValidateBasic (m : MsgUpdateParams) : option error :=
  match StringToBytes (bup_Authority m) with
  | inl _ => Params_Validate (bup_Params m)
  | inr e => Some e
  end.
End messages.

(** * Keys (types/keys.go) *)

Definition SanitizeKeyPart (part : bytes) : bytes := ReplaceAll part "/" "|".
Definition UnsanitizeKeyPart (part : bytes) : bytes := ReplaceAll part "|" "/".

Definition PostKey (namespaceId postId : bytes) : bytes :=
  SanitizeKeyPart namespaceId ++ "/"%char :: SanitizeKeyPart postId.

Definition CollaboratorKey (namespaceId collaboratorDID : bytes) : bytes :=
  SanitizeKeyPart namespaceId ++ "/"%char :: SanitizeKeyPart collaboratorDID.

(** A key with another number of parts makes the parsers panic. *)
Definition ParsePostKey (key : bytes) : outcome (bytes * bytes) :=
  match Split "/" key with
  | [namespaceId; postId] => Ok (UnsanitizeKeyPart namespaceId, UnsanitizeKeyPart postId)
  | _ => Panic
  end.

Definition ParseCollaboratorKey (key : bytes) : outcome (bytes * bytes) :=
  match Split "/" key with
  | [namespaceId; actorDID] => Ok (UnsanitizeKeyPart namespaceId, UnsanitizeKeyPart actorDID)
  | _ => Panic
  end.

Definition GeneratePostId (namespaceId payload : bytes) : bytes := hex_encode (sha256 (namespaceId ++ payload)).

Definition getNamespaceId (namespace : bytes) : bytes :=
  if HasPrefix namespace NamespaceIdPrefix then namespace else NamespaceIdPrefix ++ namespace.

(** * The store *)

Record BulletinStore : Type := mkBulletinStore {
  bl_params : option Params;
  bl_policy : option bytes;
  namespaces : gmap bytes Namespace;
  collaborators : gmap bytes Collaborator;
  posts : gmap bytes Post;
}.

Definition set_bl_params p (s : BulletinStore) : BulletinStore :=
  mkBulletinStore p (bl_policy s) (namespaces s) (collaborators s) (posts s).
Definition set_bl_policy p (s : BulletinStore) : BulletinStore :=
  mkBulletinStore (bl_params s) p (namespaces s) (collaborators s) (posts s).
Definition set_namespaces m (s : BulletinStore) : BulletinStore :=
  mkBulletinStore (bl_params s) (bl_policy s) m (collaborators s) (posts s).
Definition set_collaborators m (s : BulletinStore) : BulletinStore :=
  mkBulletinStore (bl_params s) (bl_policy s) (namespaces s) m (posts s).
Definition set_posts m (s : BulletinStore) : BulletinStore :=
  mkBulletinStore (bl_params s) (bl_policy s) (namespaces s) (collaborators s) m.

(** acp_core's name for policies written in YAML. *)
Class PolicyMarshaling : Type := { PolicyMarshalingType_YAML : Z }.

Section keeper.
Context `{ProtoTypes, AcpCodec, Raccoon, Merkle, GoSort, AddressCodec, DIDKeys, Jose, PayloadJson, PolicyMarshaling}.
Context {E : Type} `{ACPEngine E}.
Context {S : Type} `{!Lens S (AcpStore E)} `{!Lens S CoreStore} `{AcpAccounts S, CapabilityKeeper S} `{!Lens S BulletinStore}.
Implicit Types (ctx : AcpCtx) (policyId namespaceId postId did ownerDID signer : bytes).

Definition bl_get {A} (f : BulletinStore -> A) : M S A := gets (fun s => f (lens_get s)).
Definition bl_mod (f : BulletinStore -> BulletinStore) : M S unit :=
  modify (fun s => lens_set (f (lens_get s)) s).

(** ** keeper/params.go *)

Definition GetParams : M S Params := bl_get (fun s => default mkBulletinParams (bl_params s)).
Definition SetParams (params : Params) : M S unit := bl_mod (set_bl_params (Some params)).

(** ** keeper/keeper.go, keeper/bulletin.go *)

Definition SetPolicyId policyId : M S unit := bl_mod (set_bl_policy (Some policyId)).
Definition GetPolicyId : M S bytes := bl_get (fun s => default [] (bl_policy s)).
Definition hasPolicy : M S bool := bl_get (fun s => bool_decide (is_Some (bl_policy s))).

(** [MustMarshal] of a time outside of the years 1 to 9999 panics. *)
Definition SetNamespace (namespace : Namespace) : M S unit :=
  panic_if (negb (bool_decide (time_in_range (CreatedAt namespace)))) ;;;
  bl_mod (fun s => set_namespaces (<[ns_Id namespace := namespace]> (namespaces s)) s).
Definition GetNamespace namespaceId : M S (option Namespace) := bl_get (fun s => namespaces s !! namespaceId).
Definition hasNamespace namespaceId : M S bool :=
  bl_get (fun s => bool_decide (is_Some (namespaces s !! namespaceId))).

Definition SetCollaborator (c : Collaborator) : M S unit :=
  bl_mod (fun s => set_collaborators (<[CollaboratorKey (co_Namespace c) (co_Did c) := c]> (collaborators s)) s).
Definition DeleteCollaborator namespaceId did : M S unit :=
  bl_mod (fun s => set_collaborators (delete (CollaboratorKey namespaceId did) (collaborators s)) s).
Definition getCollaborator namespaceId did : M S (option Collaborator) :=
  bl_get (fun s => collaborators s !! CollaboratorKey namespaceId did).

Definition SetPost (post : Post) : M S unit :=
  bl_mod (fun s => set_posts (<[PostKey (po_Namespace post) (po_Id post) := post]> (posts s)) s).
Definition getPost namespaceId postId : M S (option Post) :=
  bl_get (fun s => posts s !! PostKey namespaceId postId).

(** The iterations collect what they pass. *)
Definition GetAllNamespaces : M S (list Namespace) := bl_get (fun s => (store_items (namespaces s)).*2).
Definition GetAllCollaborators : M S (list Collaborator) := bl_get (fun s => (store_items (collaborators s)).*2).
Definition GetAllPosts : M S (list Post) := bl_get (fun s => (store_items (posts s)).*2).
Definition GetNamespacePosts namespaceId : M S (list Post) :=
  bl_get (fun s => (store_prefix_items (SanitizeKeyPart namespaceId ++ ["/"%char]) (posts s)).*2).

Definition EnsurePolicy ctx : M S bytes :=
  has <- hasPolicy ;;
  if has : bool then GetPolicyId
  else
    letp (_, polCap) <- CreateModulePolicy ctx BasePolicy PolicyMarshalingType_YAML ModuleName ;;
    Claim ModuleName polCap ;;;
    let policyId := cap_policyId polCap in
    SetPolicyId policyId ;;;
    ret policyId.

(** ** keeper/acp_utils.go *)

Definition NewActorRelationship (resource objectId relation actor : bytes) : Relationship :=
  mkRelationship (mkObject resource objectId) relation (SubjectActor actor).

Definition addRelationship ctx (relation : Relationship) policyId ownerDID signer : M S unit :=
  polCap <- Fetch ModuleName policyId ;;
  ModulePolicyCmdForActorDID ctx polCap (Some (SetRelationshipCmd relation)) ownerDID signer ;;;
  ret tt.

Definition deleteRelationship ctx (relation : Relationship) policyId ownerDID signer : M S unit :=
  polCap <- Fetch ModuleName policyId ;;
  ModulePolicyCmdForActorDID ctx polCap (Some (DeleteRelationshipCmd relation)) ownerDID signer ;;;
  ret tt.

Definition AddCollaborator ctx policyId namespaceId (collaboratorDID : bytes) ownerDID signer : M S unit :=
  existing <- getCollaborator namespaceId collaboratorDID ;;
  throw_if (bool_decide (is_Some existing)) ErrCollaboratorAlreadyExists ;;;
  addRelationship ctx (NewActorRelationship NamespaceResource namespaceId CollaboratorRelation collaboratorDID)
    policyId ownerDID signer.

Definition deleteCollaborator ctx policyId namespaceId (collaboratorDID : bytes) ownerDID signer : M S unit :=
  existing <- getCollaborator namespaceId collaboratorDID ;;
  throw_if (bool_decide (existing = None)) ErrCollaboratorNotFound ;;;
  deleteRelationship ctx (NewActorRelationship NamespaceResource namespaceId CollaboratorRelation collaboratorDID)
    policyId ownerDID signer.

Definition RegisterNamespace ctx policyId namespaceId ownerDID signer : M S unit :=
  polCap <- Fetch ModuleName policyId ;;
  ModulePolicyCmdForActorDID ctx polCap (Some (RegisterObjectCmd (mkObject NamespaceResource namespaceId)))
    ownerDID signer ;;;
  ret tt.

Definition hasPermission ctx policyId namespaceId (permission actorDID : bytes) : M S bool :=
  VerifyAccessRequest ctx policyId [mkOperation (mkObject NamespaceResource namespaceId) permission] actorDID.
(** ** keeper/msg_server.go *)

Definition UpdateParams (authority : bytes) (req : MsgUpdateParams) : M S unit :=
  throw_if (negb (bool_decide (authority = bup_Authority req))) ErrInvalidSigner ;;;
  SetParams (bup_Params req).

Definition RegisterNamespace_msg ctx (msg : MsgRegisterNamespace) : M S Namespace :=
  r <- attempt (EnsurePolicy ctx) ;;
  match r with
  | inr _ => throw ErrCouldNotEnsurePolicy
  | inl policyId =>
      let namespaceId := getNamespaceId (rn_Namespace msg) in
      exists_ <- hasNamespace namespaceId ;;
      throw_if exists_ ErrNamespaceAlreadyExists ;;;
      ownerDID <- GetActorDID ctx (rn_Creator msg) ;;
      RegisterNamespace ctx policyId namespaceId ownerDID (rn_Creator msg) ;;;
      let namespace := mkNamespace namespaceId (rn_Creator msg) ownerDID (block_time ctx) in
      SetNamespace namespace ;;;
      ret namespace
  end.

(** The policy id and the namespace of a message, if both exist. *)
Definition existingNamespace (namespace : bytes) : M S (bytes * bytes) :=
  policyId <- GetPolicyId ;;
  throw_if (bool_decide (policyId = [])) ErrInvalidPolicyId ;;;
  let namespaceId := getNamespaceId namespace in
  exists_ <- hasNamespace namespaceId ;;
  throw_if (negb exists_) ErrNamespaceNotFound ;;;
  ret (policyId, namespaceId).

Definition CreatePost ctx (msg : MsgCreatePost) : M S unit :=
  letp (policyId, namespaceId) <- existingNamespace (cp_Namespace msg) ;;
  creatorDID <- GetActorDID ctx (cp_Creator msg) ;;
  permitted <- hasPermission ctx policyId namespaceId CreatePostPermission creatorDID ;;
  throw_if (negb permitted) ErrInvalidPostCreator ;;;
  let postId := GeneratePostId namespaceId (cp_Payload msg) in
  existing <- getPost namespaceId postId ;;
  throw_if (bool_decide (is_Some existing)) ErrPostAlreadyExists ;;;
  SetPost (mkPost postId namespaceId creatorDID (cp_Payload msg)).

Definition AddCollaborator_msg ctx (msg : MsgAddCollaborator) : M S unit :=
  letp (policyId, namespaceId) <- existingNamespace (ac_Namespace msg) ;;
  ownerDID <- GetActorDID ctx (ac_Creator msg) ;;
  collaboratorDID <- IssueDIDFromAccountAddr ctx (ac_Collaborator msg) ;;
  AddCollaborator ctx policyId namespaceId collaboratorDID ownerDID (ac_Creator msg) ;;;
  SetCollaborator (mkCollaborator (ac_Collaborator msg) collaboratorDID namespaceId).

Definition RemoveCollaborator ctx (msg : MsgRemoveCollaborator) : M S unit :=
  letp (policyId, namespaceId) <- existingNamespace (rc_Namespace msg) ;;
  ownerDID <- GetActorDID ctx (rc_Creator msg) ;;
  collaboratorDID <- IssueDIDFromAccountAddr ctx (rc_Collaborator msg) ;;
  deleteCollaborator ctx policyId namespaceId collaboratorDID ownerDID (rc_Creator msg) ;;;
  DeleteCollaborator namespaceId collaboratorDID.

(** ** keeper/grpc_query.go *)

Definition Namespace_query (namespace : bytes) : M S Namespace :=
  n <- GetNamespace (getNamespaceId namespace) ;;
  of_option n ErrNamespaceNotFound.

Definition Post_query (namespace id : bytes) : M S Post :=
  let namespaceId := getNamespaceId namespace in
  exists_ <- hasNamespace namespaceId ;;
  throw_if (negb exists_) ErrNamespaceNotFound ;;;
  post <- getPost namespaceId id ;;
  of_option post ErrPostNotFound.

Definition BulletinPolicyId : M S bytes :=
  policyId <- GetPolicyId ;;
  throw_if (bool_decide (policyId = [])) ErrInvalidPolicyId ;;;
  ret policyId.

(** ** module/genesis.go *)

Definition must {A} (m : M S A) : M S A :=
  r <- attempt m ;; match r with inr _ => panic | inl a => ret a end.

Definition InitGenesis ctx (genState : GenesisState) : M S unit :=
  must (SetParams (gen_Params genState)) ;;;
  if decide (gen_PolicyId genState = []) then ret tt
  else
    policyId <- must (EnsurePolicy ctx) ;;
    SetPolicyId policyId ;;;
    forM_ (fun n =>
      must (RegisterNamespace ctx policyId (ns_Id n) (ns_OwnerDid n) (ns_Creator n)) ;;;
      SetNamespace n) (gen_Namespaces genState) ;;;
    forM_ (fun c =>
      namespace <- GetNamespace (co_Namespace c) ;;
      n <- deref namespace ;;
      must (AddCollaborator ctx policyId (co_Namespace c) (co_Did c) (ns_OwnerDid n) (co_Address c)) ;;;
      SetCollaborator c) (gen_Collaborators genState) ;;;
    forM_ SetPost (gen_Posts genState).

Definition ExportGenesis : M S GenesisState :=
  params <- GetParams ;;
  policyId <- GetPolicyId ;;
  ns <- GetAllNamespaces ;;
  cs <- GetAllCollaborators ;;
  ps <- GetAllPosts ;;
  ret (mkBulletinGenesis params policyId ns cs ps).
End keeper.

(** ** Paginated queries *)

(** The callback of [IterateGlob]: a key that goes on after the namespace with a
    sub-namespace or the id of a post. *)
Definition globKey (key : bytes) : option bytes :=
  match key with
  | [] => None
  | c :: rest =>
      if decide (c = "|"%char \/ c = "/"%char)
      then Some (UnsanitizeKeyPart (if HasSuffix rest (lit "/") then take (length rest - 1) rest else rest))
      else None
  end.

Definition globAccepts (glob : bytes) {V} (key : bytes) (_ : V) : outcome bool :=
  match globKey key with None => Ok false | Some keyStr => Glob glob keyStr end.

Section queries.
Context `{Pagination}.
Context {S : Type} `{!Lens S BulletinStore}.

Definition requireNamespace (namespaceId : bytes) : M S unit :=
  exists_ <- hasNamespace namespaceId ;; throw_if (negb exists_) ErrNamespaceNotFound.

Definition Namespaces_query (req : PageReq) : M S (list Namespace * PageRes) :=
  items <- bl_get (fun s => store_items (namespaces s)) ;;
  letp (l, res) <- of_outcome (Paginate items req) ;; ret (l.*2, res).

Definition NamespaceCollaborators (namespace : bytes) (req : PageReq) : M S (list Collaborator * PageRes) :=
  let namespaceId := getNamespaceId namespace in
  requireNamespace namespaceId ;;;
  items <- bl_get (fun s => prefix_store (SanitizeKeyPart namespaceId ++ lit "/") (collaborators s)) ;;
  letp (l, res) <- of_outcome (Paginate items req) ;; ret (l.*2, res).

Definition NamespacePosts (namespace : bytes) (req : PageReq) : M S (list Post * PageRes) :=
  let namespaceId := getNamespaceId namespace in
  requireNamespace namespaceId ;;;
  items <- bl_get (fun s => prefix_store (SanitizeKeyPart namespaceId ++ lit "/") (posts s)) ;;
  letp (l, res) <- of_outcome (Paginate items req) ;; ret (l.*2, res).

Definition Posts_query (req : PageReq) : M S (list Post * PageRes) :=
  items <- bl_get (fun s => store_items (posts s)) ;;
  letp (l, res) <- of_outcome (Paginate items req) ;; ret (l.*2, res).

Definition IterateGlob (namespace glob : bytes) (req : PageReq) : M S (list Post * PageRes) :=
  throw_if (bool_decide (namespace = [])) (ErrMsg "invalid namespace") ;;;
  items <- bl_get (fun s => prefix_store (SanitizeKeyPart (getNamespaceId namespace)) (posts s)) ;;
  letp (l, res) <- of_outcome (FilteredPaginate items req (globAccepts glob)) ;; ret (l.*2, res).
End queries.
