(* ===== verification/BulletinSafety.v ===== *)
(** What the bulletin module guarantees: its store is well-formed in every
    reachable state, posts and namespaces stay, and a post is written only by whom
    the acp module permits. *)
From Stdlib Require Import Ascii ZArith Lia.
From stdpp Require Import base numbers list gmap strings.
From S2P Require Import Prelude Sdk Sha256 Utils CoreKeeper Bearer AcpTypes AcpState AcpKeeper AcpBearer AcpMsgs AcpServer AcpReach AcpWorld AcpClient Bulletin.

(** The module's store in the state of the chain. *)
Abbreviation bl := (own (T := BulletinStore)).
Abbreviation bl_is := (own_is (T := BulletinStore)).

Section bulletin.
Context `{ProtoTypes, AcpCodec, Raccoon, Merkle, GoSort, AddressCodec, DIDKeys, Jose, PayloadJson, PolicyMarshaling}.
Context {E : Type} `{ACPEngine E}.
Context {S : Type} `{!Lens S (AcpStore E)} `{!Lens S CoreStore} `{AcpAccounts S, CapabilityKeeper S} `{!Lens S BulletinStore}.
Context `{!ClientFrame S E BulletinStore}.
Implicit Types (ctx : AcpCtx) (s : S) (b : BulletinStore) (P : BulletinStore -> Prop).

Lemma hasPermission_framed b ctx policyId namespaceId permission did :
  preserves (bl_is b) (hasPermission (S := S) ctx policyId namespaceId permission did).
Proof. unfold hasPermission, VerifyAccessRequest. preserve. Qed.
#[local] Hint Resolve hasPermission_framed : preserves.

(** ** The effects of the operations *)

Lemma bl_mod_run f s : bl_mod f s = (Ok tt, lens_set (f (bl s)) s).
Proof. done. Qed.

Lemma ends_mod (Q : outcome unit -> BulletinStore -> Prop) f s : Q (Ok tt) (f (bl s)) -> ends Q (bl_mod f s).
Proof. intros Hq. right. rewrite bl_mod_run. simpl. by rewrite own_set. Qed.

(** The policy is there, or has just been made. *)
Definition ensured b b' : Prop := b' = b \/ bl_policy b = None /\ exists id, b' = set_bl_policy (Some id) b.

Lemma EnsurePolicy_ends ctx s :
  ends (fun o b' => ensured (bl s) b' /\ match o with Ok id => bl_policy b' = Some id | _ => True end) (EnsurePolicy ctx s).
Proof.
  unfold EnsurePolicy, hasPolicy, GetPolicyId, bl_get. rewrite bind_run. simpl. fold (bl s).
  destruct (bl_policy (bl s)) as [id|] eqn:Ep; simpl.
  { right. simpl. fold (bl s). rewrite Ep. split; [by left|done]. }
  apply ends_bind; [eauto with preserves|intros e; split; [by left|done]|]. intros [rec cap] s1 Hs1.
  apply ends_bind; [eauto with preserves|intros e; rewrite Hs1; split; [by left|done]|]. intros _ s2 Hs2.
  right. unfold SetPolicyId. rewrite bind_run, bl_mod_run. simpl. rewrite own_set, Hs2, Hs1.
  split; [right; by eauto|done].
Qed.

Lemma Fetch_cmd_framed b ctx policyId cmd did signer :
  preserves (bl_is b) (polCap <- Fetch (S := S) ModuleName policyId ;;
    ModulePolicyCmdForActorDID ctx polCap cmd did signer ;;; ret tt).
Proof. preserve. Qed.

Lemma RegisterNamespace_ends ctx msg s :
  ends (fun o b' => exists b1, ensured (bl s) b1 /\
    match o with
    | Ok n => is_Some (bl_policy b1) /\ namespaces b1 !! ns_Id n = None /\ ns_Id n = getNamespaceId (rn_Namespace msg) /\
        b' = set_namespaces (<[ns_Id n := n]> (namespaces b1)) b1
    | _ => b' = b1
    end) (RegisterNamespace_msg ctx msg s).
Proof.
  unfold RegisterNamespace_msg. rewrite bind_run. unfold attempt.
  pose proof (EnsurePolicy_ends ctx s) as He. destruct (EnsurePolicy ctx s) as [[id|e|] s1]; [| |by left].
  2:{ destruct He as [?|[He _]]; [done|]. right. by exists (bl s1). }
  destruct He as [?|[He Hid]]; [done|]. cbn [fst snd] in He, Hid. cbv zeta.
  unfold hasNamespace, bl_get. rewrite bind_run. cbn [gets]. fold (bl s1).
  assert (Hsame : forall e : error, exists b1, ensured (bl s) b1 /\ bl s1 = b1) by eauto.
  apply ends_throw_if; [by eauto|]. intros Hn%bool_decide_eq_false.
  apply ends_bind; [eauto with preserves|by eauto|]. intros owner s2 Hs2.
  apply ends_bind; [intros b; apply Fetch_cmd_framed|rewrite Hs2; by eauto|]. intros _ s3 Hs3. rewrite bind_run.
  unfold SetNamespace. rewrite bind_run. cbn [CreatedAt]. destruct (negb _); [by left|]. cbn [panic_if ret].
  rewrite bl_mod_run. right. cbn [fst snd ret]. rewrite own_set, Hs3, Hs2. exists (bl s1). split; [done|].
  split; [by eexists|]. split; [by apply eq_None_not_Some|done].
Qed.
(** The checks at the start of the other handlers. *)
Lemma existingNamespace_ends {B} (Q : outcome B -> BulletinStore -> Prop) namespace (k : bytes * bytes -> M S B) s :
  (forall e, Q (Err e) (bl s)) ->
  (forall policyId, bl_policy (bl s) = Some policyId -> is_Some (namespaces (bl s) !! getNamespaceId namespace) ->
     ends Q (k (policyId, getNamespaceId namespace) s)) ->
  ends Q (bind (existingNamespace namespace) k s).
Proof.
  intros He Hk. unfold existingNamespace, GetPolicyId, hasNamespace, bl_get. rewrite bind_run, bind_run. cbn [gets].
  fold (bl s). rewrite bind_run. destruct (bl_policy (bl s)) as [id|] eqn:Ep; [|by right; apply He].
  cbn [from_option Datatypes.id]. destruct (bool_decide (id = [])); [by right; apply He|]. cbn [throw_if ret]. cbv zeta.
  rewrite bind_run. cbn [gets]. fold (bl s). rewrite bind_run.
  destruct (bool_decide _) eqn:En; [|by right; apply He]. cbn [negb throw_if ret].
  apply bool_decide_eq_true in En. by apply Hk.
Qed.

Lemma CreatePost_ends ctx msg s :
  ends (fun o b' => match o with
    | Ok _ => exists did,
        let ns := getNamespaceId (cp_Namespace msg) in
        let p := mkPost (GeneratePostId ns (cp_Payload msg)) ns did (cp_Payload msg) in
        is_Some (namespaces (bl s) !! ns) /\ posts (bl s) !! PostKey ns (po_Id p) = None /\
        b' = set_posts (<[PostKey ns (po_Id p) := p]> (posts (bl s))) (bl s)
    | _ => b' = bl s
    end) (CreatePost ctx msg s).
Proof.
  unfold CreatePost. apply existingNamespace_ends; [done|]. intros policyId Hp Hn.
  apply ends_bind; [eauto with preserves|done|]. intros did s1 Hs1.
  apply ends_bind; [eauto with preserves|by rewrite Hs1|]. intros ok s2 Hs2.
  apply ends_throw_if; [by rewrite Hs2, Hs1|]. intros _. cbv zeta. unfold getPost, bl_get. rewrite bind_run.
  cbn [gets]. fold (bl s2). rewrite Hs2, Hs1. apply ends_throw_if; [by rewrite Hs2, Hs1|].
  intros Hnone%bool_decide_eq_false. apply ends_mod. exists did. rewrite Hs2, Hs1. cbn [po_Namespace po_Id].
  split; [done|]. split; [by apply eq_None_not_Some|done].
Qed.

Lemma AddCollaborator_ends ctx msg s :
  ends (fun o b' => match o with
    | Ok _ => exists c, co_Namespace c = getNamespaceId (ac_Namespace msg) /\
        is_Some (namespaces (bl s) !! co_Namespace c) /\
        collaborators (bl s) !! CollaboratorKey (co_Namespace c) (co_Did c) = None /\
        b' = set_collaborators (<[CollaboratorKey (co_Namespace c) (co_Did c) := c]> (collaborators (bl s))) (bl s)
    | _ => b' = bl s
    end) (AddCollaborator_msg ctx msg s).
Proof.
  unfold AddCollaborator_msg. apply existingNamespace_ends; [done|]. intros policyId Hp Hn.
  apply ends_bind; [eauto with preserves|done|]. intros owner s1 Hs1.
  apply ends_bind; [eauto with preserves|by rewrite Hs1|]. intros did s2 Hs2.
  unfold AddCollaborator, getCollaborator, bl_get. rewrite bind_run, bind_run. cbn [gets]. fold (bl s2).
  rewrite Hs2, Hs1. destruct (bool_decide _) eqn:Ec; [by right; simpl; rewrite Hs2, Hs1|].
  apply bool_decide_eq_false in Ec. cbn [throw_if]. rewrite bind_run. cbn [ret]. rewrite <- bind_run.
  apply ends_bind; [intros b; apply Fetch_cmd_framed|by rewrite Hs2, Hs1|]. intros _ s3 Hs3.
  apply ends_mod. rewrite Hs3, Hs2, Hs1.
  exists (mkCollaborator (ac_Collaborator msg) did (getNamespaceId (ac_Namespace msg))). cbn [co_Namespace co_Did].
  split; [done|]. split; [done|]. split; [by apply eq_None_not_Some|done].
Qed.

Lemma RemoveCollaborator_ends ctx msg s :
  ends (fun o b' => match o with
    | Ok _ => exists did, let key := CollaboratorKey (getNamespaceId (rc_Namespace msg)) did in
        is_Some (collaborators (bl s) !! key) /\
        b' = set_collaborators (delete key (collaborators (bl s))) (bl s)
    | _ => b' = bl s
    end) (RemoveCollaborator ctx msg s).
Proof.
  unfold RemoveCollaborator. apply existingNamespace_ends; [done|]. intros policyId Hp Hn.
  apply ends_bind; [eauto with preserves|done|]. intros owner s1 Hs1.
  apply ends_bind; [eauto with preserves|by rewrite Hs1|]. intros did s2 Hs2.
  unfold deleteCollaborator, getCollaborator, bl_get. rewrite bind_run, bind_run. cbn [gets]. fold (bl s2).
  rewrite Hs2, Hs1. destruct (bool_decide _) eqn:Ec; [by right; simpl; rewrite Hs2, Hs1|].
  apply bool_decide_eq_false in Ec. cbn [throw_if]. rewrite bind_run. cbn [ret]. rewrite <- bind_run.
  apply ends_bind; [intros b; apply Fetch_cmd_framed|by rewrite Hs2, Hs1|]. intros _ s3 Hs3.
  apply ends_mod. rewrite Hs3, Hs2, Hs1. exists did. split; [by apply not_eq_None_Some|done].
Qed.
(** ** The board *)

(** What may happen to the store, whoever acts: records appear under their own keys
    where nothing was, for namespaces that exist; only collaborators disappear. *)
Inductive board_step : BulletinStore -> BulletinStore -> Prop :=
  | step_params p b : board_step b (set_bl_params p b)
  | step_policy id b : bl_policy b = None -> board_step b (set_bl_policy (Some id) b)
  | step_namespace n b : is_Some (bl_policy b) -> namespaces b !! ns_Id n = None ->
      NamespaceIdPrefix `prefix_of` ns_Id n ->
      board_step b (set_namespaces (<[ns_Id n := n]> (namespaces b)) b)
  | step_collaborator c b : is_Some (namespaces b !! co_Namespace c) ->
      collaborators b !! CollaboratorKey (co_Namespace c) (co_Did c) = None ->
      board_step b (set_collaborators (<[CollaboratorKey (co_Namespace c) (co_Did c) := c]> (collaborators b)) b)
  | step_remove ns did b : is_Some (collaborators b !! CollaboratorKey ns did) ->
      board_step b (set_collaborators (delete (CollaboratorKey ns did) (collaborators b)) b)
  | step_post p b : is_Some (namespaces b !! po_Namespace p) ->
      po_Id p = GeneratePostId (po_Namespace p) (po_Payload p) ->
      posts b !! PostKey (po_Namespace p) (po_Id p) = None ->
      board_step b (set_posts (<[PostKey (po_Namespace p) (po_Id p) := p]> (posts b)) b).

(** The messages of the module, and anything that the acp module does. *)
Inductive bulletin_op : Type :=
  | OpRegisterNamespace (msg : MsgRegisterNamespace)
  | OpCreatePost (msg : MsgCreatePost)
  | OpAddCollaborator (msg : MsgAddCollaborator)
  | OpRemoveCollaborator (msg : MsgRemoveCollaborator)
  | OpBulletinParams (authority : bytes) (req : MsgUpdateParams)
  | OpAcp (op : acp_op (S := S)).

Definition run_bulletin_op ctx (op : bulletin_op) : M S unit :=
  match op with
  | OpRegisterNamespace msg => RegisterNamespace_msg ctx msg ;;; ret tt
  | OpCreatePost msg => CreatePost ctx msg
  | OpAddCollaborator msg => AddCollaborator_msg ctx msg
  | OpRemoveCollaborator msg => RemoveCollaborator ctx msg
  | OpBulletinParams authority req => UpdateParams authority req
  | OpAcp op => run_acp_op ctx op
  end.

Lemma getNamespaceId_prefix namespace : NamespaceIdPrefix `prefix_of` getNamespaceId namespace.
Proof.
  unfold getNamespaceId, HasPrefix. destruct (bool_decide _) eqn:Ep; [by apply bool_decide_eq_true in Ep|].
  by eexists.
Qed.

Lemma ensured_steps b b' : ensured b b' -> rtc board_step b b'.
Proof. intros [->|[Hn [id ->]]]; [done|]. apply rtc_once. by constructor. Qed.

Lemma run_bulletin_steps ctx op s o s' :
  run_bulletin_op ctx op s = (o, s') -> o <> Panic -> rtc board_step (bl s) (bl s').
Proof.
  intros Hrun Ho. destruct op as [msg|msg|msg|msg|authority req|op]; simpl in Hrun.
  - pose proof (RegisterNamespace_ends ctx msg s) as He. rewrite bind_run in Hrun.
    destruct (RegisterNamespace_msg ctx msg s) as [[n|e|] s1]; injection Hrun as <- <-; [| |done];
      destruct He as [?|(b1 & Hb1%ensured_steps & He)]; try done; simpl in He; [|by rewrite He].
    destruct He as (Hp & Hn & Hid & He). eapply rtc_r; [exact Hb1|]. rewrite He. constructor; [done|done|].
    rewrite Hid. apply getNamespaceId_prefix.
  - pose proof (CreatePost_ends ctx msg s) as He. rewrite Hrun in He. destruct He as [?|He]; [done|].
    cbn [fst snd] in He.
    destruct o as [u|e|]; [|by rewrite He|done]. destruct He as (did & Hn & Hnone & He). simpl in He. rewrite He.
    apply rtc_once. by apply (step_post (mkPost _ _ did _)).
  - pose proof (AddCollaborator_ends ctx msg s) as He. rewrite Hrun in He. destruct He as [?|He]; [done|].
    cbn [fst snd] in He.
    destruct o as [u|e|]; [|by rewrite He|done]. destruct He as (c & Hc & Hn & Hnone & He). simpl in He. rewrite He.
    apply rtc_once. by constructor.
  - pose proof (RemoveCollaborator_ends ctx msg s) as He. rewrite Hrun in He. destruct He as [?|He]; [done|].
    cbn [fst snd] in He.
    destruct o as [u|e|]; [|by rewrite He|done]. destruct He as (did & Hsome & He). simpl in He. rewrite He.
    apply rtc_once. by constructor.
  - unfold UpdateParams in Hrun. rewrite bind_run in Hrun. destruct (negb _); simpl in Hrun.
    { by injection Hrun as <- <-. }
    unfold SetParams in Hrun. rewrite bl_mod_run in Hrun. injection Hrun as <- <-. rewrite own_set.
    apply rtc_once. constructor.
  - pose proof (run_acp_op_framed (bl s) ctx op s eq_refl) as Hf. rewrite Hrun in Hf. destruct o; [| |done];
      unfold bl_is in Hf; by rewrite Hf.
Qed.
(** A chain with the two modules: an operation ran, or its writes were dropped. *)
Inductive bulletin_run : S -> S -> Prop :=
  | bulletin_run_refl s : bulletin_run s s
  | bulletin_run_step s s1 s2 ctx op : bulletin_run s s1 ->
      (s2 = s1 \/ exists o, run_bulletin_op ctx op s1 = (o, s2) /\ o <> Panic) -> bulletin_run s s2.

Lemma bulletin_run_steps s s' : bulletin_run s s' -> rtc board_step (bl s) (bl s').
Proof.
  induction 1 as [s|s s1 s2 ctx op _ IH [->|(o & Hrun & Ho)]]; [done|done|].
  etrans; [exact IH|]. by eapply run_bulletin_steps.
Qed.

(** C14: the bulletin module implements the board. Whatever sequence of messages and of
    operations of the acp module runs, whoever sends them and however each ends, it
    takes the module's store through steps of the board. *)
Theorem bulletin_refines s s' : bulletin_run s s' -> rtc board_step (bl s) (bl s').
Proof. apply bulletin_run_steps. Qed.

(** ** Well-formed stores *)

Record board_ok b : Prop := {
  board_namespaces : forall id n, namespaces b !! id = Some n -> ns_Id n = id /\ NamespaceIdPrefix `prefix_of` id;
  board_collaborators : forall k c, collaborators b !! k = Some c ->
    k = CollaboratorKey (co_Namespace c) (co_Did c) /\ is_Some (namespaces b !! co_Namespace c);
  board_posts : forall k p, posts b !! k = Some p ->
    k = PostKey (po_Namespace p) (po_Id p) /\ po_Id p = GeneratePostId (po_Namespace p) (po_Payload p) /\
    is_Some (namespaces b !! po_Namespace p);
  board_policy : namespaces b <> ∅ -> is_Some (bl_policy b);
}.

Lemma board_step_ok b b' : board_step b b' -> board_ok b -> board_ok b'.
Proof.
  intros Hstep [Hns Hco Hpo Hpol]. destruct Hstep as [p b|id b Hp|n b Hp Hn Hpre|c b Hn Hc|ns did b Hc|p b Hn Hid Hp];
    constructor; simpl; try done.
  - intros id n' [[<- <-]|[_ Hl]]%lookup_insert_Some; [done|by apply Hns].
  - intros k c Hc. destruct (Hco k c Hc) as [? Hc']. split; [done|]. apply lookup_insert_is_Some'. by right.
  - intros k p Hk. destruct (Hpo k p Hk) as (? & ? & Hc'). split_and!; [done|done|]. apply lookup_insert_is_Some'. by right.
  - intros k c' [[<- <-]|[_ Hl]]%lookup_insert_Some; [done|by apply Hco].
  - intros k c' [_ Hl]%lookup_delete_Some. by apply Hco.
  - intros k p' [[<- <-]|[_ Hl]]%lookup_insert_Some; [done|by apply Hpo].
Qed.

Definition bulletin_reachable s : Prop :=
  exists s0 p, bl s0 = mkBulletinStore p None ∅ ∅ ∅ /\ bulletin_run s0 s.

Lemma reachable_board s : bulletin_reachable s -> board_ok (bl s).
Proof.
  intros (s0 & p & H0' & Hrun%bulletin_run_steps). rewrite H0' in Hrun.
  assert (Hok : board_ok (mkBulletinStore p None ∅ ∅ ∅)) by (constructor; simpl; [..|done]; intros; simplify_map_eq).
  clear H0'. induction Hrun as [|x y z Hstep _ IH]; [done|]. apply IH. by eapply board_step_ok.
Qed.

(** Nothing that was published changes or disappears. *)
Definition published b b' : Prop :=
  posts b ⊆ posts b' /\ namespaces b ⊆ namespaces b' /\ (forall id, bl_policy b = Some id -> bl_policy b' = Some id).

Lemma board_step_published b b' : board_step b b' -> published b b'.
Proof.
  unfold published. destruct 1 as [p b|id b Hp|n b Hp Hn Hpre|c b Hn Hc|ns did b Hc|p b Hn Hid Hp]; simpl; split_and!;
    try done; try (by apply insert_subseteq). intros id'. congruence.
Qed.

(** Publication is for good. In every reachable state a stored post has the id that
    its namespace and payload determine and belongs to a registered namespace, and
    whatever runs afterwards, the post, its namespace and the module's policy are
    still there, unchanged. *)
Theorem posts_stay s s' : bulletin_reachable s -> bulletin_run s s' ->
  (forall k p, posts (bl s) !! k = Some p ->
     k = PostKey (po_Namespace p) (po_Id p) /\ po_Id p = GeneratePostId (po_Namespace p) (po_Payload p) /\
     exists n, namespaces (bl s) !! po_Namespace p = Some n /\
       posts (bl s') !! k = Some p /\ namespaces (bl s') !! po_Namespace p = Some n) /\
  (forall id, bl_policy (bl s) = Some id -> bl_policy (bl s') = Some id).
Proof.
  intros Hr%reachable_board Hrun%bulletin_run_steps.
  assert (Hpub : published (bl s) (bl s')).
  { clear Hr. induction Hrun as [|x y z Hstep%board_step_published _ IH]; [done|].
    destruct Hstep as (H1' & H2' & H3'), IH as (H4' & H5' & H6'). split_and!; [by etrans|by etrans|eauto]. }
  destruct Hpub as (Hp & Hn & Hid). split; [|done]. intros k p Hk.
  destruct (board_posts _ Hr k p Hk) as (? & ? & [n Hns]). split_and!; [done|done|]. exists n.
  split_and!; [done|by eapply lookup_weaken|by eapply lookup_weaken].
Qed.
(** ** Authorisation *)

Lemma existingNamespace_ok namespace s r s' : existingNamespace namespace s = (Ok r, s') ->
  s' = s /\ r.2 = getNamespaceId namespace /\ bl_policy (bl s) = Some r.1 /\ is_Some (namespaces (bl s) !! r.2).
Proof.
  unfold existingNamespace, GetPolicyId, hasNamespace, bl_get. rewrite bind_run. cbn [gets]. fold (bl s).
  rewrite bind_run. destruct (bl_policy (bl s)) as [id|] eqn:Ep; [|done]. cbn [from_option Datatypes.id].
  destruct (bool_decide (id = [])); [done|]. cbn [throw_if ret]. cbv zeta. rewrite bind_run. cbn [gets]. fold (bl s).
  rewrite bind_run. destruct (bool_decide (is_Some _)) eqn:En; [|done]. apply bool_decide_eq_true in En.
  cbn [negb throw_if ret]. by intros [= <- <-].
Qed.

(** Who may post. A message that creates a post succeeds only if the namespace is
    registered, the acp module permits its author to create posts in that namespace,
    and the post is new; then the store gains exactly this post, in the name of the
    author. If it fails the store is as it was. *)
Theorem post_authorised ctx msg s o s' : CreatePost ctx msg s = (o, s') -> o <> Panic ->
  match o with
  | Ok _ => exists policyId did s1 s2,
      let ns := getNamespaceId (cp_Namespace msg) in
      let p := mkPost (GeneratePostId ns (cp_Payload msg)) ns did (cp_Payload msg) in
      bl_policy (bl s) = Some policyId /\ is_Some (namespaces (bl s) !! ns) /\
      GetActorDID ctx (cp_Creator msg) s = (Ok did, s1) /\
      VerifyAccessRequest ctx policyId [mkOperation (mkObject NamespaceResource ns) CreatePostPermission] did s1
        = (Ok true, s2) /\
      posts (bl s) !! PostKey ns (po_Id p) = None /\
      bl s' = set_posts (<[PostKey ns (po_Id p) := p]> (posts (bl s))) (bl s)
  | _ => bl s' = bl s
  end.
Proof.
  intros Hrun Hp. destruct o as [u|e|]; [| |done].
  2:{ pose proof (CreatePost_ends ctx msg s) as He. rewrite Hrun in He. by destruct He as [?|He]. }
  unfold CreatePost in Hrun. ok_inv Hrun. apply existingNamespace_ok in Hrun0 as (-> & Hns & Hpol & Hex).
  destruct a as [policyId ns]. simpl in Hns, Hpol, Hex. subst ns.
  ok_inv Hrun. rename Hrun0 into Hdid. pose proof (framed_ok _ _ _ _ (fun b => GetActorDID_framed b _ _) Hdid) as Hs0.
  ok_inv Hrun. rename Hrun0 into Hperm. pose proof (framed_ok _ _ _ _ (fun b => hasPermission_framed b _ _ _ _ _) Hperm) as Hs1.
  ok_inv Hrun. apply throw_if_ok in Hrun0 as [Hok ->]. apply negb_false_iff in Hok as ->. cbv zeta in Hrun.
  unfold getPost, bl_get in Hrun. rewrite bind_run in Hrun. cbn [gets] in Hrun. ok_inv Hrun.
  apply throw_if_ok in Hrun0 as [Hnew%bool_decide_eq_false ->]. unfold SetPost in Hrun. rewrite bl_mod_run in Hrun.
  injection Hrun as _ <-. fold (bl s1) in Hnew. rewrite own_set. rewrite Hs1, Hs0 in *.
  exists policyId, a, s0, s1. split_and!; try done. by apply eq_None_not_Some.
Qed.
(** ** Keys *)

Lemma sanitized_no_slash part : "/"%char ∉ SanitizeKeyPart part.
Proof.
  unfold SanitizeKeyPart, ReplaceAll. intros (c & Hc & _)%list_elem_of_fmap. by destruct (decide (c = "/"%char)).
Qed.

Lemma before_slash (a a' r r' : bytes) : "/"%char ∉ a -> "/"%char ∉ a' ->
  a ++ "/"%char :: r = a' ++ "/"%char :: r' -> a = a' /\ r = r'.
Proof.
  revert a'. induction a as [|c a IH]; intros [|c' a'] Ha Ha' Heq; simpl in Heq; [by injection Heq as ->|injection Heq as Hc Heq..].
  - destruct Ha'. rewrite <- Hc. by left.
  - destruct Ha. rewrite Hc. by left.
  - apply not_elem_of_cons in Ha as [_ Ha]. apply not_elem_of_cons in Ha' as [_ Ha'].
    destruct (IH a' Ha Ha' Heq) as [-> ->]. by rewrite Hc.
Qed.

Lemma PostKey_under ns ns' id :
  SanitizeKeyPart ns ++ ["/"%char] `prefix_of` PostKey ns' id <-> SanitizeKeyPart ns' = SanitizeKeyPart ns.
Proof.
  unfold PostKey. split.
  - intros [r Hr]. rewrite <- app_assoc in Hr. apply before_slash in Hr as [-> _]; [done|apply sanitized_no_slash..].
  - intros ->. exists (SanitizeKeyPart id). by rewrite <- app_assoc.
Qed.

Lemma sanitize_inj a a' : "|"%char ∉ a -> "|"%char ∉ a' -> SanitizeKeyPart a = SanitizeKeyPart a' -> a = a'.
Proof.
  unfold SanitizeKeyPart, ReplaceAll. revert a'. induction a as [|c a IH]; intros [|c' a'] Ha Ha' Heq; try done.
  injection Heq as Hc Heq. f_equal; [|apply IH; set_solver].
  destruct (decide (c = "/"%char)), (decide (c' = "/"%char)); set_solver.
Qed.

(** The posts of a namespace. In every reachable state the listing of a namespace
    holds exactly the stored posts whose namespace has the same key, each once; as
    long as no id of a namespace has a bar in it, these are the posts of the
    namespace and no others. *)
Theorem namespace_posts_exact s ns : bulletin_reachable s ->
  exists l, GetNamespacePosts ns s = (Ok l, s) /\ NoDup l /\
    (forall p, p ∈ l <-> (exists k, posts (bl s) !! k = Some p) /\ SanitizeKeyPart (po_Namespace p) = SanitizeKeyPart ns) /\
    ((forall id, is_Some (namespaces (bl s) !! id) -> "|"%char ∉ id) -> "|"%char ∉ ns ->
     forall p, p ∈ l <-> (exists k, posts (bl s) !! k = Some p) /\ po_Namespace p = ns).
Proof.
  intros Hr%reachable_board. set (items := store_prefix_items (SanitizeKeyPart ns ++ ["/"%char]) (posts (bl s))).
  exists items.*2. split; [done|].
  assert (Hin : forall p, p ∈ items.*2 <->
    (exists k, posts (bl s) !! k = Some p) /\ SanitizeKeyPart (po_Namespace p) = SanitizeKeyPart ns).
  { intros p. rewrite list_elem_of_fmap. split.
    - intros ([k p'] & -> & [Hpre Hk]%elem_of_store_prefix_items). simpl. split; [by eexists|].
      destruct (board_posts _ Hr _ _ Hk) as (-> & _). by apply PostKey_under in Hpre.
    - intros [[k Hk] Hs]. exists (k, p). split; [done|]. apply elem_of_store_prefix_items. split; [|done].
      destruct (board_posts _ Hr _ _ Hk) as (-> & _). by apply PostKey_under. }
  split_and!; [|done|].
  - apply (NoDup_fmap_1 (fun p => PostKey (po_Namespace p) (po_Id p))).
    assert (Hkeys : (fun p => PostKey (po_Namespace p) (po_Id p)) <$> items.*2 = items.*1).
    { rewrite <- list_fmap_compose. apply list_fmap_ext. intros i [k p] Hi. simpl.
      apply list_elem_of_lookup_2, elem_of_store_prefix_items in Hi as [_ Hk].
      by destruct (board_posts _ Hr _ _ Hk) as [-> _]. }
    rewrite Hkeys. apply store_prefix_items_NoDup.
  - intros Hbar Hns p. rewrite Hin. split; intros [[k Hk] Hs]; (split; [by eexists|]); [|by subst].
    apply sanitize_inj; [|done|done]. destruct (board_posts _ Hr _ _ Hk) as (_ & _ & Hn). by apply Hbar.
Qed.

(** Namespaces whose ids differ only in slashes and bars share their records of
    collaborators. When a collaborator is removed from one of them, the record of the
    other namespace is gone: its owner can no longer remove the collaborator there,
    although nothing has been revoked. *)
Theorem colliding_namespace_blocks_removal ctx msg s s' ns :
  RemoveCollaborator ctx msg s = (Ok tt, s') ->
  SanitizeKeyPart ns = SanitizeKeyPart (getNamespaceId (rc_Namespace msg)) ->
  exists did, is_Some (collaborators (bl s) !! CollaboratorKey ns did) /\
    (exists s1 s2, IssueDIDFromAccountAddr ctx (rc_Collaborator msg) s1 = (Ok did, s2)) /\
    forall ctx' policyId owner signer,
      deleteCollaborator ctx' policyId ns did owner signer s' = (Err ErrCollaboratorNotFound, s').
Proof.
  intros Hrun Hsan. unfold RemoveCollaborator in Hrun.
  ok_inv Hrun. apply existingNamespace_ok in Hrun0 as (-> & Hns & _). destruct a as [policyId ns']. simpl in Hns. subst ns'.
  ok_inv Hrun. pose proof (framed_ok _ _ _ _ (fun b => GetActorDID_framed b _ _) Hrun0) as Hs0.
  ok_inv Hrun. pose proof (framed_ok _ _ _ _ (fun b => IssueDID_framed b _ _) Hrun1) as Hs1. rename a0 into did.
  ok_inv Hrun. unfold deleteCollaborator, getCollaborator, bl_get in Hrun2. rewrite bind_run in Hrun2.
  cbn [gets] in Hrun2. ok_inv Hrun2. apply throw_if_ok in Hrun3 as [Hsome%bool_decide_eq_false ->].
  fold (bl s1) in Hsome. pose proof (framed_ok _ _ _ _ (fun b => Fetch_cmd_framed b _ _ _ _ _) Hrun2) as Hs3.
  unfold DeleteCollaborator in Hrun. rewrite bl_mod_run in Hrun. injection Hrun as <-.
  assert (Hkey : CollaboratorKey ns did = CollaboratorKey (getNamespaceId (rc_Namespace msg)) did)
    by (unfold CollaboratorKey; by rewrite Hsan).
  exists did. rewrite Hkey. split_and!.
  - rewrite <- Hs0, <- Hs1. by apply not_eq_None_Some.
  - by eexists _, _.
  - intros ctx' pol owner signer. unfold deleteCollaborator, getCollaborator, bl_get. rewrite bind_run. cbn [gets].
    rewrite Hkey. rewrite client_lens. simpl. by rewrite lookup_delete_eq.
Qed.
End bulletin.

(** ** Witnesses: the chain of AcpWorld.v with the module on top *)

#[export] Instance yaml_impl : PolicyMarshaling := {| PolicyMarshalingType_YAML := 1 |}.

#[export] Instance board_lens : Lens (AcpWorld BulletinStore) BulletinStore :=
  {| lens_get := aw_client; lens_set t s := mkAcpWorld (aw_acp s) (aw_acp_core s) (aw_caps s) t |}.

#[export] Instance board_frame : ClientFrame (AcpWorld BulletinStore) ToyEngine BulletinStore.
Proof.
  split; [done|done|..].
  - intros m name s. simpl. by destruct (decide _).
  - intros m c name s. simpl. by destruct (decide _).
Qed.

Definition board0 : AcpWorld BulletinStore :=
  acp_start (Some (mkAcpParams 100 (Some (Duration_BlockCount 10)))) (mkBulletinStore None None ∅ ∅ ∅).

Definition board_after (h : Z) (op : bulletin_op) (w : AcpWorld BulletinStore) : AcpWorld BulletinStore :=
  (run_bulletin_op (demo_ctx h) op w).2.

Lemma board_after_run (h : Z) op s w : bulletin_run s w ->
  match (run_bulletin_op (demo_ctx h) op w).1 with Panic => false | _ => true end = true -> bulletin_run s (board_after h op w).
Proof.
  intros Hr Hp. eapply (bulletin_run_step s w _ (demo_ctx h) op); [done|]. right. eexists.
  split; [apply surjective_pairing|]. by destruct (run_bulletin_op _ _ _).1.
Qed.

Definition reg (creator ns : string) := OpRegisterNamespace (S := AcpWorld BulletinStore) (mkMsgRegisterNamespace (lit creator) (lit ns)).
Definition post (creator ns payload : string) :=
  OpCreatePost (S := AcpWorld BulletinStore) (mkMsgCreatePost (lit creator) (lit ns) (lit payload) []).
Definition add (creator ns collaborator : string) :=
  OpAddCollaborator (S := AcpWorld BulletinStore) (mkMsgAddCollaborator (lit creator) (lit ns) (lit collaborator)).

(** [k] registers a namespace and posts to it. *)
Definition board2 : AcpWorld BulletinStore := board_after 6 (post "k" "news" "hello") (board_after 5 (reg "k" "news") board0).

Lemma bulletin_refines_witness : size (posts (bl board2)) = 1%nat /\ rtc board_step (bl board0) (bl board2).
Proof.
  split; [vm_compute; reflexivity|]. apply bulletin_refines. unfold board2.
  apply board_after_run; [apply board_after_run; [constructor|]|]; vm_compute; reflexivity.
Defined.

Definition news_key : bytes := PostKey (lit "bulletin/news") (GeneratePostId (lit "bulletin/news") (lit "hello")).

Lemma posts_stay_witness : exists p, posts (bl board2) !! news_key = Some p /\
  posts (bl (board_after 7 (add "k" "news" "r") board2)) !! news_key = Some p.
Proof.
  destruct (posts_stay board2 (board_after 7 (add "k" "news" "r") board2)) as [Hposts _].
  - exists board0, None. split; [reflexivity|]. unfold board2.
    apply board_after_run; [apply board_after_run; [constructor|]|]; vm_compute; reflexivity.
  - apply board_after_run; [constructor|vm_compute; reflexivity].
  - assert (Hp : is_Some (posts (bl board2) !! news_key)) by (vm_compute; eexists; reflexivity).
    destruct Hp as [p Hp]. exists p. split; [exact Hp|]. destruct (Hposts _ _ Hp) as (_ & _ & n & _ & Hp' & _). exact Hp'.
Defined.

Lemma post_authorised_witness : exists policyId did s1 s2,
  GetActorDID (demo_ctx 6) (lit "k") (board_after 5 (reg "k" "news") board0) = (Ok did, s1) /\
  VerifyAccessRequest (demo_ctx 6) policyId
    [mkOperation (mkObject NamespaceResource (lit "bulletin/news")) CreatePostPermission] did s1 = (Ok true, s2).
Proof.
  set (w := board_after 5 (reg "k" "news") board0). set (msg := mkMsgCreatePost (lit "k") (lit "news") (lit "hello") []).
  assert (Hok : is_ok (CreatePost (demo_ctx 6) msg w).1 = true) by (vm_compute; reflexivity).
  destruct (CreatePost (demo_ctx 6) msg w) as [o s'] eqn:Er.
  pose proof (post_authorised (demo_ctx 6) msg w o s' Er) as Hp. destruct o as [u|e|]; [|discriminate Hok..].
  destruct Hp as (policyId & did & s1 & s2 & _ & _ & Hd & Hv & _); [discriminate|].
  exists policyId, did, s1, s2. split; [exact Hd|exact Hv].
Defined.

Lemma namespace_posts_exact_witness : exists l, GetNamespacePosts (lit "bulletin/news") board2 = (Ok l, board2) /\
  forall p, p ∈ l <-> (exists k, posts (bl board2) !! k = Some p) /\ po_Namespace p = lit "bulletin/news".
Proof.
  destruct (namespace_posts_exact board2 (lit "bulletin/news")) as (l & Hl & _ & _ & Hp).
  - exists board0, None. split; [reflexivity|]. unfold board2.
    apply board_after_run; [apply board_after_run; [constructor|]|]; vm_compute; reflexivity.
  - exists l. split; [exact Hl|]. apply Hp.
    + intros id [n Hn]. assert (Hin : (id, n) ∈ map_to_list (namespaces (bl board2))) by (apply elem_of_map_to_list; exact Hn).
      vm_compute in Hin. apply list_elem_of_singleton in Hin. injection Hin as -> _. vm_compute.
      apply (bool_decide_unpack (_ ∉ _)). vm_compute. exact I.
    + apply (bool_decide_unpack (_ ∉ _)). vm_compute. exact I.
Defined.

(** [k] owns a/b with the collaborator [r], [m] owns a|b and removes [r] there:
    [k] cannot remove [r] any more, who still posts. *)
Definition board_collision : AcpWorld BulletinStore :=
  board_after 7 (add "k" "a/b" "r") (board_after 6 (reg "m" "a|b") (board_after 5 (reg "k" "a/b") board0)).

Lemma colliding_namespace_blocks_removal_witness :
  let removal := mkMsgRemoveCollaborator (lit "m") (lit "a|b") (lit "r") in
  let w := (RemoveCollaborator (demo_ctx 8) removal board_collision).2 in
  (exists did, forall ctx policyId owner signer,
    deleteCollaborator ctx policyId (lit "bulletin/a/b") did owner signer w = (Err ErrCollaboratorNotFound, w)) /\
  is_ok (run_bulletin_op (demo_ctx 9) (post "r" "a/b" "still here") w).1 = true.
Proof.
  intros removal w. split; [|vm_compute; reflexivity].
  assert (Hok : is_ok (RemoveCollaborator (demo_ctx 8) removal board_collision).1 = true) by (vm_compute; reflexivity).
  unfold w. destruct (RemoveCollaborator (demo_ctx 8) removal board_collision) as [[[]|e|] s'] eqn:Er; [|discriminate Hok..].
  destruct (colliding_namespace_blocks_removal (demo_ctx 8) removal board_collision s' (lit "bulletin/a/b") Er)
    as (did & _ & _ & Hd); [vm_compute; reflexivity|]. exists did. exact Hd.
Defined.
