(* ===== verification/OrbisTypes.v ===== *)
(** The data of the orbis module (src/x/orbis/types): rings of nodes that hold a
    threshold key, documents and key derivations bound to a ring, what is known of
    the nodes, the messages with their basic validation, and the ids, which are
    hashes of a canonical encoding.

    Proto messages are records; an optional field is an option. A Go slice of
    strings is a list, nil and empty alike, since the stored form does not tell
    them apart. Validations return [outcome unit]: nothing, or the error. *)
From Stdlib Require Import Ascii ZArith Lia.
From stdpp Require Import base numbers list gmap strings sorting.
From S2P Require Import Prelude Sdk Sha256 Utils Json GoText.

(** * Data *)

Record UpgradeInfo : Type := mkUpgradeInfo {
  CurrentVersion : Z; NextVersion : option Z; ActivationTime : option Z;
}.

Record DemeritConfig : Type := mkDemeritConfig {
  NodeOfflineDemerits : Z; ResetIntervalSeconds : Z;
  InvalidCryptoResponseDemerits : Z; UnauthorizedRequestDemerits : Z;
}.

Record ReportingConfig : Type := mkReportingConfig {
  rep_DemeritConfig : DemeritConfig; BackupNodeKeys : list bytes; rep_KickThreshold : Z;
}.

Record RingConfirmation : Type := mkRingConfirmation {
  cf_NodeKey : bytes; cf_RingPk : bytes; cf_PetPk : option bytes;
}.

Record Ring : Type := mkRing {
  rg_Id : bytes;
  CreatorDid : bytes;
  RingPk : bytes;
  PeerNodeKeys : list bytes;
  Threshold : Z;
  NewPeerNodeKeys : list bytes;
  NewThreshold : option Z;
  PssInterval : Z;
  BlockNumberNonce : Z;
  rg_PolicyId : bytes;
  Confirmations : list RingConfirmation;
  rg_UpgradeInfo : UpgradeInfo;
  rg_Reporting : ReportingConfig;
  TrustedAuthRelayDids : list bytes;
  AllowTrustedAuthRelays : bool;
  RequiresPet : bool;
  rg_PetPk : option bytes;
}.

Record Document : Type := mkDocument {
  doc_Id : bytes; doc_CreatorDid : bytes; doc_RingId : bytes; doc_Document : bytes; doc_Proof : bytes;
  doc_PolicyId : bytes; doc_Resource : bytes; doc_Permission : bytes;
  doc_Tier : option bytes; doc_Timestamp : option Z; doc_PetTag : option bytes; doc_PetTagProof : option bytes;
}.

Record KeyDerivation : Type := mkKeyDerivation {
  kd_Id : bytes; kd_CreatorDid : bytes; kd_RingId : bytes; Derivation : bytes;
  kd_PolicyId : bytes; kd_Resource : bytes; kd_Permission : bytes;
}.

Record NodeInfo : Type := mkNodeInfo {
  PeerId : bytes; ControllerKey : bytes;
  WhitelistedPolicyIds : list bytes; WhitelistedRingIds : list bytes;
}.

Record ReportEnvelope : Type := mkReportEnvelope {
  Domain : bytes; ReportType : bytes; ChainId : bytes; rp_RingId : bytes; rp_RingPk : bytes;
  RingStateSha256 : bytes; ReporterNodeKey : bytes; AccusedNodeKey : bytes; AccusedPeerId : bytes;
  ObservedAt : Z; ExpiresAt : Z; Payload : bytes; SessionId : bytes;
}.

Record ReportingDefaults : Type := mkReportingDefaults {
  def_DemeritConfig : DemeritConfig; def_KickThreshold : Z;
}.

Record Params : Type := mkOrbisParams { DefaultReporting : ReportingDefaults }.

(** ** Genesis *)

Record NodeInfoEntry : Type := mkNodeInfoEntry { nie_NodeKey : bytes; nie_NodeInfo : option NodeInfo }.
Record NodeDemeritEntry : Type := mkNodeDemeritEntry {
  nde_RingId : bytes; nde_NodeKey : bytes; nde_Points : Z; nde_WindowStartedAt : Z;
}.
Record AcceptedReportPairEntry : Type := mkAcceptedReportPairEntry {
  arp_ReportId : bytes; arp_SessionId : bytes; arp_ExpiresAt : Z;
}.

Record GenesisState : Type := mkOrbisGenesis {
  gen_Params : Params;
  gen_Rings : list Ring;
  gen_Documents : list Document;
  gen_KeyDerivations : list KeyDerivation;
  gen_NodeInfos : list NodeInfoEntry;
  gen_NodeDemerits : list NodeDemeritEntry;
  gen_AcceptedReportPairs : list AcceptedReportPairEntry;
}.

#[global] Instance DemeritConfig_eq_dec : EqDecision DemeritConfig.
Proof. solve_decision. Defined.
#[global] Instance ReportingConfig_eq_dec : EqDecision ReportingConfig.
Proof. solve_decision. Defined.

(** ** Changes of a ring, field by field *)

Definition set_pk (pk : bytes) (pet : option bytes) (r : Ring) : Ring :=
  mkRing (rg_Id r) (CreatorDid r) pk (PeerNodeKeys r) (Threshold r) (NewPeerNodeKeys r) (NewThreshold r)
    (PssInterval r) (BlockNumberNonce r) (rg_PolicyId r) (Confirmations r) (rg_UpgradeInfo r) (rg_Reporting r)
    (TrustedAuthRelayDids r) (AllowTrustedAuthRelays r) (RequiresPet r) pet.

Definition set_committee (peers : list bytes) (threshold : Z) (r : Ring) : Ring :=
  mkRing (rg_Id r) (CreatorDid r) (RingPk r) peers threshold (NewPeerNodeKeys r) (NewThreshold r)
    (PssInterval r) (BlockNumberNonce r) (rg_PolicyId r) (Confirmations r) (rg_UpgradeInfo r) (rg_Reporting r)
    (TrustedAuthRelayDids r) (AllowTrustedAuthRelays r) (RequiresPet r) (rg_PetPk r).

Definition set_reshare (peers : list bytes) (threshold : option Z) (r : Ring) : Ring :=
  mkRing (rg_Id r) (CreatorDid r) (RingPk r) (PeerNodeKeys r) (Threshold r) peers threshold
    (PssInterval r) (BlockNumberNonce r) (rg_PolicyId r) (Confirmations r) (rg_UpgradeInfo r) (rg_Reporting r)
    (TrustedAuthRelayDids r) (AllowTrustedAuthRelays r) (RequiresPet r) (rg_PetPk r).

Definition set_pss (interval : Z) (r : Ring) : Ring :=
  mkRing (rg_Id r) (CreatorDid r) (RingPk r) (PeerNodeKeys r) (Threshold r) (NewPeerNodeKeys r) (NewThreshold r)
    interval (BlockNumberNonce r) (rg_PolicyId r) (Confirmations r) (rg_UpgradeInfo r) (rg_Reporting r)
    (TrustedAuthRelayDids r) (AllowTrustedAuthRelays r) (RequiresPet r) (rg_PetPk r).

Definition set_nonce (nonce : Z) (r : Ring) : Ring :=
  mkRing (rg_Id r) (CreatorDid r) (RingPk r) (PeerNodeKeys r) (Threshold r) (NewPeerNodeKeys r) (NewThreshold r)
    (PssInterval r) nonce (rg_PolicyId r) (Confirmations r) (rg_UpgradeInfo r) (rg_Reporting r)
    (TrustedAuthRelayDids r) (AllowTrustedAuthRelays r) (RequiresPet r) (rg_PetPk r).

Definition set_confirmations (l : list RingConfirmation) (r : Ring) : Ring :=
  mkRing (rg_Id r) (CreatorDid r) (RingPk r) (PeerNodeKeys r) (Threshold r) (NewPeerNodeKeys r) (NewThreshold r)
    (PssInterval r) (BlockNumberNonce r) (rg_PolicyId r) l (rg_UpgradeInfo r) (rg_Reporting r)
    (TrustedAuthRelayDids r) (AllowTrustedAuthRelays r) (RequiresPet r) (rg_PetPk r).

Definition set_upgrade (u : UpgradeInfo) (r : Ring) : Ring :=
  mkRing (rg_Id r) (CreatorDid r) (RingPk r) (PeerNodeKeys r) (Threshold r) (NewPeerNodeKeys r) (NewThreshold r)
    (PssInterval r) (BlockNumberNonce r) (rg_PolicyId r) (Confirmations r) u (rg_Reporting r)
    (TrustedAuthRelayDids r) (AllowTrustedAuthRelays r) (RequiresPet r) (rg_PetPk r).

Definition set_reporting (c : ReportingConfig) (r : Ring) : Ring :=
  mkRing (rg_Id r) (CreatorDid r) (RingPk r) (PeerNodeKeys r) (Threshold r) (NewPeerNodeKeys r) (NewThreshold r)
    (PssInterval r) (BlockNumberNonce r) (rg_PolicyId r) (Confirmations r) (rg_UpgradeInfo r) c
    (TrustedAuthRelayDids r) (AllowTrustedAuthRelays r) (RequiresPet r) (rg_PetPk r).

Definition set_relays (dids : list bytes) (r : Ring) : Ring :=
  mkRing (rg_Id r) (CreatorDid r) (RingPk r) (PeerNodeKeys r) (Threshold r) (NewPeerNodeKeys r) (NewThreshold r)
    (PssInterval r) (BlockNumberNonce r) (rg_PolicyId r) (Confirmations r) (rg_UpgradeInfo r) (rg_Reporting r)
    dids (AllowTrustedAuthRelays r) (RequiresPet r) (rg_PetPk r).

(** * Names and errors (keys.go, acp.go, errors.go) *)

Definition ModuleName : bytes := lit "orbis".
Definition ACPResourceRingPolicy : bytes := lit "ring_policy".
Definition ACPResourceRing : bytes := lit "ring".
Definition ACPPermissionCreateRing : bytes := lit "create_ring".
Definition ACPPermissionUpdateRing : bytes := lit "update_ring".

Definition orbis_err (code : Z) : error := ErrReg "orbis" code.
Definition ErrInvalidSigner := orbis_err 1200.
Definition ErrInvalidRingId := orbis_err 1202.
Definition ErrInvalidDocumentId := orbis_err 1203.
Definition ErrInvalidKeyDerivationId := orbis_err 1204.
Definition ErrInvalidRing := orbis_err 1205.
Definition ErrRingAlreadyExists := orbis_err 1206.
Definition ErrRingNotFound := orbis_err 1207.
Definition ErrDocumentAlreadyExists := orbis_err 1208.
Definition ErrDocumentNotFound := orbis_err 1209.
Definition ErrKeyDerivationAlreadyExists := orbis_err 1210.
Definition ErrKeyDerivationNotFound := orbis_err 1211.
Definition ErrInvalidDocument := orbis_err 1212.
Definition ErrInvalidKeyDerivation := orbis_err 1213.
Definition ErrReshareInProgress := orbis_err 1216.
Definition ErrInvalidThresholdSignature := orbis_err 1217.
Definition ErrInvalidSignatureScheme := orbis_err 1218.
Definition ErrInvalidSignaturePayload := orbis_err 1219.
Definition ErrNodeInfoAlreadyExists := orbis_err 1220.
Definition ErrNodeInfoNotFound := orbis_err 1221.
Definition ErrInvalidNodeInfo := orbis_err 1222.
Definition ErrUnauthorizedNodeInfoUpdate := orbis_err 1223.
Definition ErrRingAlreadyFinalized := orbis_err 1225.
Definition ErrInvalidRingFinalizer := orbis_err 1226.
Definition ErrDuplicateConfirmation := orbis_err 1227.
Definition ErrRingNotFinalized := orbis_err 1228.
Definition ErrUnauthorizedRingUpdate := orbis_err 1229.
Definition ErrUnauthorizedRingCreate := orbis_err 1230.
Definition ErrNodeWhitelistEntryExists := orbis_err 1231.
Definition ErrNodeWhitelistEntryNotFound := orbis_err 1232.
Definition ErrRingPssIntervalUnchanged := orbis_err 1233.
Definition ErrRingUpgradeNotScheduled := orbis_err 1234.
Definition ErrRingUpgradeAlreadyActive := orbis_err 1235.
Definition ErrNodeInfoUnchanged := orbis_err 1236.
Definition ErrRingUpgradeUnchanged := orbis_err 1237.
Definition ErrInvalidRingCanceller := orbis_err 1238.
Definition ErrInvalidReport := orbis_err 1239.
Definition ErrReportAlreadyAccepted := orbis_err 1240.
Definition ErrRingTrustedAuthRelayNotFound := orbis_err 1241.
Definition ErrRingAuthRelaysDisabled := orbis_err 1242.
Definition ErrRingAuthRelayExists := orbis_err 1243.
Definition ErrReshareNotInProgress := orbis_err 1244.
Definition ErrNodeKeyBalanceEmpty := orbis_err 1245.

(** * Validation *)

Definition reject_if (b : bool) (e : error) : outcome unit := if b then Err e else Ok tt.

Lemma reject_if_ok b e : reject_if b e = Ok tt <-> b = false.
Proof. by destruct b. Qed.

(** A loop over a list with the set of what was seen: each element passes a check
    and is new. *)
Fixpoint each_unique (ok : bytes -> outcome unit) (dup : error) (seen : list bytes) (l : list bytes) : outcome unit :=
  match l with
  | [] => Ok tt
  | x :: l' =>
      _ ← ok x;
      _ ← reject_if (bool_decide (x ∈ seen)) dup;
      each_unique ok dup (x :: seen) l'
  end.

Lemma each_unique_seen ok dup seen l : each_unique ok dup seen l = Ok tt <->
  Forall (fun x => ok x = Ok tt) l /\ NoDup l /\ (forall x, x ∈ l -> x ∉ seen).
Proof.
  revert seen. induction l as [|x l IH]; intros seen; cbn [each_unique].
  { split; [|done]. intros _. split_and!; [constructor|constructor|]. intros x Hx. by apply elem_of_nil in Hx. }
  rewrite !outcome_seq_ok, reject_if_ok, bool_decide_eq_false, IH, Forall_cons, NoDup_cons. split.
  - intros (Ho & Hx & Hl & Hnd & Hs). split_and!; try done.
    + intros Hin. by apply (Hs x Hin); left.
    + intros y [->|Hy]%elem_of_cons; [done|]. specialize (Hs y Hy). by rewrite not_elem_of_cons in Hs; destruct Hs.
  - intros ((Ho & Hl) & (Hx & Hnd) & Hs). split_and!; try done.
    + apply Hs. by left.
    + intros y Hy. rewrite not_elem_of_cons. split; [by intros ->|]. apply Hs. by right.
Qed.

Lemma each_unique_ok ok dup l : each_unique ok dup [] l = Ok tt <-> Forall (fun x => ok x = Ok tt) l /\ NoDup l.
Proof.
  rewrite each_unique_seen. split; [naive_solver|]. intros [Hl Hnd]. split_and!; [done|done|]. intros x _. apply not_elem_of_nil.
Qed.

(** Only the elements count, not their order. *)
Lemma each_unique_perm ok dup l l' : l ≡ₚ l' -> each_unique ok dup [] l = Ok tt -> each_unique ok dup [] l' = Ok tt.
Proof. intros Hp. rewrite !each_unique_ok. by rewrite Hp. Qed.

(** ** Parameters (params.go, pss.go) *)

Definition DefaultDemeritConfig : DemeritConfig := mkDemeritConfig 1 86400 1 1.
Definition DefaultReportingDefaults : ReportingDefaults := mkReportingDefaults DefaultDemeritConfig 3.
Definition ReportingConfigFromDefaults (defaults : ReportingDefaults) : ReportingConfig :=
  mkReportingConfig (def_DemeritConfig defaults) [] (def_KickThreshold defaults).
Definition DefaultReportingConfig : ReportingConfig := ReportingConfigFromDefaults DefaultReportingDefaults.
Definition NewParams (defaultReporting : ReportingDefaults) : Params := mkOrbisParams defaultReporting.
Definition DefaultParams : Params := NewParams DefaultReportingDefaults.

Definition ValidateDemeritConfig (config : DemeritConfig) : outcome unit :=
  _ ← reject_if (NodeOfflineDemerits config =? 0) ErrInvalidRing;
  _ ← reject_if (InvalidCryptoResponseDemerits config =? 0) ErrInvalidRing;
  _ ← reject_if (UnauthorizedRequestDemerits config =? 0) ErrInvalidRing;
  reject_if (ResetIntervalSeconds config =? 0) ErrInvalidRing.

Definition ValidateReportingDefaults (defaults : ReportingDefaults) : outcome unit :=
  _ ← ValidateDemeritConfig (def_DemeritConfig defaults);
  reject_if (def_KickThreshold defaults =? 0) ErrInvalidRing.

Definition ValidateReportingConfig (config : ReportingConfig) : outcome unit :=
  _ ← ValidateDemeritConfig (rep_DemeritConfig config);
  reject_if (rep_KickThreshold config =? 0) ErrInvalidRing.

Definition Params_Validate (p : Params) : outcome unit := ValidateReportingDefaults (DefaultReporting p).

Definition MinPSSIntervalSeconds : Z := 86400.
Definition ValidatePSSInterval (pssInterval : Z) : outcome unit :=
  reject_if (pssInterval <? MinPSSIntervalSeconds) ErrInvalidRing.

(** ** Relays (trusted_auth_relay.go) *)

(** [key.DIDKey.Decode] of the DID library: the type of the key in a did:key. *)
Class DIDDecode : Type := { DIDKey_Decode : bytes -> bytes + error }.

Section relays.
Context `{DIDDecode}.

Definition validateRelayDID (relayDID : bytes) : outcome unit :=
  _ ← reject_if (bool_decide (relayDID = []) || negb (bool_decide (TrimSpace relayDID = relayDID))) ErrInvalidRing;
  match DIDKey_Decode relayDID with
  | inr _ => Err ErrInvalidRing
  | inl keyType => reject_if (negb (bool_decide (keyType = lit "Ed25519"))) ErrInvalidRing
  end.

Definition ValidateTrustedAuthRelayDIDs (relayDIDs : list bytes) : outcome unit :=
  each_unique validateRelayDID ErrInvalidRing [] relayDIDs.

Definition ValidateTrustedAuthRelayConfig (allow : bool) (relayDIDs : list bytes) : outcome unit :=
  _ ← reject_if (negb allow && negb (bool_decide (relayDIDs = []))) ErrInvalidRing;
  ValidateTrustedAuthRelayDIDs relayDIDs.
End relays.

(** ** Genesis (genesis.go) *)

Definition DefaultGenesis : GenesisState := mkOrbisGenesis DefaultParams [] [] [] [] [] [].

Fixpoint each {A} (ok : A -> outcome unit) (l : list A) : outcome unit :=
  match l with
  | [] => Ok tt
  | x :: l' => _ ← ok x; each ok l'
  end.

Lemma each_ok {A} (ok : A -> outcome unit) l : each ok l = Ok tt <-> Forall (fun x => ok x = Ok tt) l.
Proof.
  induction l as [|x l IH]; [done|]. cbn [each]. rewrite outcome_seq_ok, IH, Forall_cons. done.
Qed.

(** [ReportingConfig{}] *)
Definition zero_reporting : ReportingConfig := mkReportingConfig (mkDemeritConfig 0 0 0 0) [] 0.

Definition Genesis_validateRing `{DIDDecode} (r : Ring) : outcome unit :=
  _ ← ValidateTrustedAuthRelayConfig (AllowTrustedAuthRelays r) (TrustedAuthRelayDids r);
  if decide (rg_Reporting r = zero_reporting) then Ok tt
  else
    _ ← ValidateReportingConfig (rg_Reporting r);
    each_unique (fun _ => Ok tt) (ErrMsg "duplicate backup node key") [] (BackupNodeKeys (rg_Reporting r)).

(** The loops with a set of what was seen. *)
Fixpoint Genesis_validateDemerits (knownRings : list bytes) (seen : list (bytes * bytes))
    (l : list NodeDemeritEntry) : outcome unit :=
  match l with
  | [] => Ok tt
  | entry :: l' =>
      let key := (nde_RingId entry, nde_NodeKey entry) in
      _ ← reject_if (bool_decide (nde_RingId entry = [])) (ErrMsg "node_demerits ring_id cannot be empty");
      _ ← reject_if (bool_decide (nde_NodeKey entry = [])) (ErrMsg "node_demerits node_key cannot be empty");
      _ ← reject_if (nde_Points entry =? 0) (ErrMsg "node_demerits points must be at least 1");
      _ ← reject_if (negb (bool_decide (nde_RingId entry ∈ knownRings))) (ErrMsg "node_demerits references unknown ring");
      _ ← reject_if (bool_decide (key ∈ seen)) (ErrMsg "duplicate node_demerits entry");
      Genesis_validateDemerits knownRings (key :: seen) l'
  end.

Fixpoint Genesis_validatePairs (seenReports seenSessions : list bytes) (l : list AcceptedReportPairEntry) : outcome unit :=
  match l with
  | [] => Ok tt
  | entry :: l' =>
      _ ← reject_if (bool_decide (arp_ReportId entry = [])) (ErrMsg "accepted_report_pairs report_id cannot be empty");
      _ ← reject_if (bool_decide (arp_SessionId entry = [])) (ErrMsg "accepted_report_pairs session_id cannot be empty");
      _ ← reject_if (arp_ExpiresAt entry =? 0) (ErrMsg "accepted_report_pairs expires_at cannot be zero");
      _ ← reject_if (bool_decide (arp_ReportId entry ∈ seenReports)) (ErrMsg "duplicate report_id");
      _ ← reject_if (bool_decide (arp_SessionId entry ∈ seenSessions)) (ErrMsg "duplicate session_id");
      Genesis_validatePairs (arp_ReportId entry :: seenReports) (arp_SessionId entry :: seenSessions) l'
  end.

Definition GenesisState_Validate `{DIDDecode} (gs : GenesisState) : outcome unit :=
  _ ← Params_Validate (gen_Params gs);
  _ ← each Genesis_validateRing (gen_Rings gs);
  _ ← Genesis_validateDemerits (rg_Id <$> gen_Rings gs) [] (gen_NodeDemerits gs);
  Genesis_validatePairs [] [] (gen_AcceptedReportPairs gs).

(** * Messages (tx.pb.go, message_*.go) *)

Record MsgUpdateParams : Type := mkOrbisUpdateParams { oup_Authority : bytes; oup_Params : Params }.
Record MsgCreateRing : Type := mkMsgCreateRing {
  mcr_Creator : bytes; mcr_PeerNodeKeys : list bytes; mcr_Threshold : Z; mcr_PssInterval : Z; mcr_PolicyId : bytes;
  mcr_Nonce : option bytes; mcr_CurrentVersion : Z; mcr_Reporting : option ReportingConfig;
  mcr_TrustedAuthRelayDids : list bytes; mcr_AllowTrustedAuthRelays : bool; mcr_RequiresPet : bool;
}.
Record MsgFinalizeRing : Type := mkMsgFinalizeRing {
  mfr_Creator : bytes; mfr_RingId : bytes; mfr_RingPk : bytes; mfr_PetPk : option bytes;
}.
Record MsgCancelPendingRing : Type := mkMsgCancelPendingRing { mcp_Creator : bytes; mcp_RingId : bytes }.
Record MsgStartRingReshareByAcp : Type := mkMsgStartRingReshareByAcp {
  msr_Creator : bytes; msr_RingId : bytes; msr_NewPeerNodeKeys : list bytes; msr_NewThreshold : option Z;
}.
Record MsgCancelRingReshareByAcp : Type := mkMsgCancelRingReshareByAcp { mcs_Creator : bytes; mcs_RingId : bytes }.
Record MsgSetRingPssIntervalByAcp : Type := mkMsgSetRingPssIntervalByAcp {
  mps_Creator : bytes; mps_RingId : bytes; mps_PssInterval : Z;
}.
Record MsgScheduleRingUpgradeByAcp : Type := mkMsgScheduleRingUpgradeByAcp {
  msu_Creator : bytes; msu_RingId : bytes; msu_NextVersion : Z; msu_ActivationTime : Z;
}.
Record MsgCancelRingUpgradeByAcp : Type := mkMsgCancelRingUpgradeByAcp { mcu_Creator : bytes; mcu_RingId : bytes }.
Record MsgSetRingReportingByAcp : Type := mkMsgSetRingReportingByAcp {
  mrr_Creator : bytes; mrr_RingId : bytes; mrr_Reporting : ReportingConfig;
}.
Record MsgAddRingTrustedAuthRelayByAcp : Type := mkMsgAddRingTrustedAuthRelayByAcp {
  mar_Creator : bytes; mar_RingId : bytes; mar_RelayDid : bytes;
}.
Record MsgRemoveRingTrustedAuthRelayByAcp : Type := mkMsgRemoveRingTrustedAuthRelayByAcp {
  mrm_Creator : bytes; mrm_RingId : bytes; mrm_RelayDid : bytes;
}.
Record MsgFinalizeRingReshareByThresholdSignature : Type := mkMsgFinalizeRingReshare {
  mfs_Creator : bytes; mfs_RingId : bytes; mfs_SignatureScheme : bytes; mfs_Signature : bytes;
}.
Record MsgSubmitReport : Type := mkMsgSubmitReport {
  mrp_Creator : bytes; mrp_Report : ReportEnvelope; mrp_ReportId : bytes;
  mrp_SignatureScheme : bytes; mrp_Signature : bytes;
}.
Record MsgStoreDocument : Type := mkMsgStoreDocument {
  msd_Creator : bytes; msd_RingId : bytes; msd_Document : bytes; msd_Proof : bytes;
  msd_PolicyId : bytes; msd_Resource : bytes; msd_Permission : bytes;
  msd_Tier : option bytes; msd_Timestamp : option Z; msd_PetTag : option bytes; msd_PetTagProof : option bytes;
}.
Record MsgStoreKeyDerivation : Type := mkMsgStoreKeyDerivation {
  msk_Creator : bytes; msk_RingId : bytes; msk_Derivation : bytes;
  msk_PolicyId : bytes; msk_Resource : bytes; msk_Permission : bytes;
}.
Record MsgCreateNodeInfo : Type := mkMsgCreateNodeInfo {
  mcn_Creator : bytes; mcn_PeerId : bytes; mcn_ControllerKey : bytes;
  mcn_WhitelistedPolicyIds : list bytes; mcn_WhitelistedRingIds : list bytes;
}.
Record MsgUpdateNodePeerId : Type := mkMsgUpdateNodePeerId {
  mun_Creator : bytes; mun_NodeKey : bytes; mun_PeerId : bytes;
}.
Record MsgTransferNodeController : Type := mkMsgTransferNodeController {
  mtn_Creator : bytes; mtn_NodeKey : bytes; mtn_ControllerKey : bytes;
}.
(** The target of a whitelist message, when it is set. *)
Inductive WhitelistTarget : Type := Target_PolicyId (id : bytes) | Target_RingId (id : bytes).
Record MsgAddNodeToWhitelist : Type := mkMsgAddNodeToWhitelist {
  maw_Creator : bytes; maw_NodeKey : bytes; maw_Target : option WhitelistTarget;
}.
Record MsgRemoveNodeFromWhitelist : Type := mkMsgRemoveNodeFromWhitelist {
  mrw_Creator : bytes; mrw_NodeKey : bytes; mrw_Target : option WhitelistTarget;
}.
Record MsgDrainNodeKey : Type := mkMsgDrainNodeKey { mdn_Creator : bytes; mdn_NodeKey : bytes }.

Section basic.
Context `{AddressCodec, DIDDecode}.

(** [sdk.AccAddressFromBech32] fails, wrapped as an invalid address. *)
Definition validCreator (creator : bytes) : outcome unit :=
  match StringToBytes creator with inl _ => Ok tt | inr _ => Err (ErrReg "sdk" 7) end.

Definition required (field : bytes) (e : error) : outcome unit := reject_if (bool_decide (field = [])) e.

Definition MsgUpdateParams_ValidateBasic (m : MsgUpdateParams) : outcome unit :=
  _ ← sum_outcome (StringToBytes (oup_Authority m));
  Params_Validate (oup_Params m).

Definition MsgCreateRing_ValidateBasic (msg : MsgCreateRing) : outcome unit :=
  _ ← validCreator (mcr_Creator msg);
  _ ← reject_if (bool_decide (mcr_PeerNodeKeys msg = [])) ErrInvalidRing;
  _ ← reject_if ((mcr_Threshold msg =? 0) || (Z.of_nat (length (mcr_PeerNodeKeys msg)) <? mcr_Threshold msg)) ErrInvalidRing;
  _ ← required (mcr_PolicyId msg) ErrInvalidRing;
  _ ← ValidatePSSInterval (mcr_PssInterval msg);
  _ ← match mcr_Reporting msg with Some config => ValidateReportingConfig config | None => Ok tt end;
  ValidateTrustedAuthRelayConfig (mcr_AllowTrustedAuthRelays msg) (mcr_TrustedAuthRelayDids msg).

Definition MsgFinalizeRing_ValidateBasic (msg : MsgFinalizeRing) : outcome unit :=
  _ ← validCreator (mfr_Creator msg);
  _ ← required (mfr_RingId msg) ErrInvalidRingId;
  required (mfr_RingPk msg) ErrInvalidRing.

Definition MsgCancelPendingRing_ValidateBasic (msg : MsgCancelPendingRing) : outcome unit :=
  _ ← validCreator (mcp_Creator msg);
  required (mcp_RingId msg) ErrInvalidRingId.

Definition MsgStartRingReshareByAcp_ValidateBasic (msg : MsgStartRingReshareByAcp) : outcome unit :=
  _ ← validCreator (msr_Creator msg);
  _ ← required (msr_RingId msg) ErrInvalidRingId;
  _ ← reject_if (bool_decide (msr_NewPeerNodeKeys msg = []) && bool_decide (msr_NewThreshold msg = None)) ErrInvalidRing;
  reject_if (bool_decide (msr_NewThreshold msg = Some 0)) ErrInvalidRing.

Definition MsgCancelRingReshareByAcp_ValidateBasic (msg : MsgCancelRingReshareByAcp) : outcome unit :=
  _ ← validCreator (mcs_Creator msg);
  required (mcs_RingId msg) ErrInvalidRingId.

Definition MsgSetRingPssIntervalByAcp_ValidateBasic (msg : MsgSetRingPssIntervalByAcp) : outcome unit :=
  _ ← validCreator (mps_Creator msg);
  _ ← required (mps_RingId msg) ErrInvalidRingId;
  ValidatePSSInterval (mps_PssInterval msg).

Definition MsgScheduleRingUpgradeByAcp_ValidateBasic (msg : MsgScheduleRingUpgradeByAcp) : outcome unit :=
  _ ← validCreator (msu_Creator msg);
  _ ← required (msu_RingId msg) ErrInvalidRingId;
  _ ← reject_if (msu_NextVersion msg =? 0) ErrInvalidRing;
  reject_if (msu_ActivationTime msg =? 0) ErrInvalidRing.

Definition MsgCancelRingUpgradeByAcp_ValidateBasic (msg : MsgCancelRingUpgradeByAcp) : outcome unit :=
  _ ← validCreator (mcu_Creator msg);
  required (mcu_RingId msg) ErrInvalidRingId.

Definition MsgSetRingReportingByAcp_ValidateBasic (msg : MsgSetRingReportingByAcp) : outcome unit :=
  _ ← validCreator (mrr_Creator msg);
  _ ← required (mrr_RingId msg) ErrInvalidRingId;
  ValidateReportingConfig (mrr_Reporting msg).

Definition MsgAddRingTrustedAuthRelayByAcp_ValidateBasic (msg : MsgAddRingTrustedAuthRelayByAcp) : outcome unit :=
  _ ← validCreator (mar_Creator msg);
  _ ← required (mar_RingId msg) ErrInvalidRingId;
  ValidateTrustedAuthRelayDIDs [mar_RelayDid msg].

Definition MsgRemoveRingTrustedAuthRelayByAcp_ValidateBasic (msg : MsgRemoveRingTrustedAuthRelayByAcp) : outcome unit :=
  _ ← validCreator (mrm_Creator msg);
  _ ← required (mrm_RingId msg) ErrInvalidRingId;
  ValidateTrustedAuthRelayDIDs [mrm_RelayDid msg].

Definition MsgFinalizeRingReshare_ValidateBasic (msg : MsgFinalizeRingReshareByThresholdSignature) : outcome unit :=
  _ ← validCreator (mfs_Creator msg);
  _ ← required (mfs_RingId msg) ErrInvalidRingId;
  _ ← required (mfs_SignatureScheme msg) ErrInvalidSignatureScheme;
  required (mfs_Signature msg) ErrInvalidSignaturePayload.

Definition MsgSubmitReport_ValidateBasic (msg : MsgSubmitReport) : outcome unit :=
  _ ← validCreator (mrp_Creator msg);
  _ ← required (mrp_ReportId msg) ErrInvalidReport;
  _ ← required (mrp_SignatureScheme msg) ErrInvalidSignatureScheme;
  _ ← required (mrp_Signature msg) ErrInvalidSignaturePayload;
  _ ← required (Domain (mrp_Report msg)) ErrInvalidReport;
  _ ← required (ReportType (mrp_Report msg)) ErrInvalidReport;
  required (rp_RingId (mrp_Report msg)) ErrInvalidRingId.

Definition MsgStoreDocument_ValidateBasic (msg : MsgStoreDocument) : outcome unit :=
  _ ← validCreator (msd_Creator msg);
  _ ← required (msd_RingId msg) ErrInvalidRingId;
  _ ← required (msd_Document msg) ErrInvalidDocument;
  _ ← required (msd_Proof msg) ErrInvalidDocument;
  _ ← required (msd_PolicyId msg) ErrInvalidDocument;
  _ ← required (msd_Resource msg) ErrInvalidDocument;
  required (msd_Permission msg) ErrInvalidDocument.

Definition MsgStoreKeyDerivation_ValidateBasic (msg : MsgStoreKeyDerivation) : outcome unit :=
  _ ← validCreator (msk_Creator msg);
  _ ← required (msk_RingId msg) ErrInvalidRingId;
  _ ← required (msk_Derivation msg) ErrInvalidKeyDerivation;
  _ ← required (msk_PolicyId msg) ErrInvalidKeyDerivation;
  _ ← required (msk_Resource msg) ErrInvalidKeyDerivation;
  required (msk_Permission msg) ErrInvalidKeyDerivation.

Definition MsgCreateNodeInfo_ValidateBasic (msg : MsgCreateNodeInfo) : outcome unit :=
  _ ← validCreator (mcn_Creator msg);
  _ ← required (mcn_PeerId msg) ErrInvalidNodeInfo;
  required (mcn_ControllerKey msg) ErrInvalidNodeInfo.

Definition MsgUpdateNodePeerId_ValidateBasic (msg : MsgUpdateNodePeerId) : outcome unit :=
  _ ← validCreator (mun_Creator msg);
  _ ← required (mun_NodeKey msg) ErrInvalidNodeInfo;
  required (mun_PeerId msg) ErrInvalidNodeInfo.

Definition MsgTransferNodeController_ValidateBasic (msg : MsgTransferNodeController) : outcome unit :=
  _ ← validCreator (mtn_Creator msg);
  _ ← required (mtn_NodeKey msg) ErrInvalidNodeInfo;
  required (mtn_ControllerKey msg) ErrInvalidNodeInfo.

Definition validTarget (target : option WhitelistTarget) : outcome unit :=
  match target with
  | Some (Target_PolicyId id) => required id ErrInvalidNodeInfo
  | Some (Target_RingId id) => required id ErrInvalidNodeInfo
  | None => Err ErrInvalidNodeInfo
  end.

Definition MsgAddNodeToWhitelist_ValidateBasic (msg : MsgAddNodeToWhitelist) : outcome unit :=
  _ ← validCreator (maw_Creator msg);
  _ ← required (maw_NodeKey msg) ErrInvalidNodeInfo;
  validTarget (maw_Target msg).

Definition MsgRemoveNodeFromWhitelist_ValidateBasic (msg : MsgRemoveNodeFromWhitelist) : outcome unit :=
  _ ← validCreator (mrw_Creator msg);
  _ ← required (mrw_NodeKey msg) ErrInvalidNodeInfo;
  validTarget (mrw_Target msg).

Definition MsgDrainNodeKey_ValidateBasic (msg : MsgDrainNodeKey) : outcome unit :=
  _ ← validCreator (mdn_Creator msg);
  required (mdn_NodeKey msg) ErrInvalidNodeInfo.
End basic.
