(* ===== verification/OrbisIds.v ===== *)
(** The ids of rings, documents and key derivations (src/x/orbis/types/keys.go): the
    hash of a domain name and of everything that the object is made of.

    A document is given as JSON, of which only the contents count: [decodeIDByteFields]
    reads an object with exactly the wanted fields, each an array of bytes. The
    theorems show that an id binds what it was made from, up to a collision of
    SHA-256, and that ids of different kinds are different. *)
From Stdlib Require Import Ascii ZArith Lia.
From stdpp Require Import base numbers list gmap strings sorting.
From S2P Require Import Prelude Sdk Sha256 Utils Json GoText Canonical OrbisTypes.

(** [slices.Sort] on strings. *)
Definition sort_strings : list bytes -> list bytes := merge_sort bytes_le.

(** * The hasher *)

Abbreviation idHasher := bytes.

Definition writeBytes (value : bytes) (h : idHasher) : idHasher := h ++ enc_bytes value.
Definition writeString (value : bytes) (h : idHasher) : idHasher := writeBytes value h.
Definition newIDHasher (domain : bytes) : idHasher := writeString domain [].
Definition writeOptionalString (value : option bytes) (h : idHasher) : idHasher :=
  match value with
  | None => h ++ [byte_of_Z 0]
  | Some v => writeString v (h ++ [byte_of_Z 1])
  end.
Definition writeUint32 (value : Z) (h : idHasher) : idHasher := h ++ enc_u32 value.
Definition writeUint64 (value : Z) (h : idHasher) : idHasher := h ++ enc_u64 value.
Definition writeBool (value : bool) (h : idHasher) : idHasher := h ++ [byte_of_Z (if value then 1 else 0)].
Definition writeStringSlice (values : list bytes) (h : idHasher) : idHasher :=
  foldl (fun h value => writeString value h) (h ++ enc_u32 (Z.of_nat (length values))) values.
Definition writeOptionalUint64 (value : option Z) (h : idHasher) : idHasher :=
  match value with
  | None => h ++ [byte_of_Z 0]
  | Some v => (h ++ [byte_of_Z 1]) ++ enc_u64 v
  end.
Definition sum (h : idHasher) : bytes := hex_encode (sha256 h).

(** * Ids *)

(** What goes into the hash of a ring. *)
Definition ring_preimage (peerNodeKeys : list bytes) (threshold pssInterval : Z) (policyID : bytes)
    (nonce : option bytes) (currentVersion : Z) (allowTrustedAuthRelays : bool)
    (trustedAuthRelayDIDs : list bytes) (requiresPet : bool) : idHasher :=
  let h := newIDHasher (lit "orbis/ring") in
  let h := writeStringSlice (sort_strings peerNodeKeys) h in
  let h := writeUint32 threshold h in
  let h := writeUint64 pssInterval h in
  let h := writeString policyID h in
  let h := writeOptionalString nonce h in
  let h := writeUint64 currentVersion h in
  let h := writeBool allowTrustedAuthRelays h in
  let h := writeStringSlice (sort_strings trustedAuthRelayDIDs) h in
  writeBool requiresPet h.

Definition GenerateRingID peerNodeKeys threshold pssInterval policyID nonce currentVersion
    allowTrustedAuthRelays trustedAuthRelayDIDs requiresPet : bytes :=
  sum (ring_preimage peerNodeKeys threshold pssInterval policyID nonce currentVersion
         allowTrustedAuthRelays trustedAuthRelayDIDs requiresPet).

Definition key_derivation_preimage (ringID derivation policyID resource permission : bytes) : idHasher :=
  let h := newIDHasher (lit "orbis/key_derivation/v1") in
  let h := writeString ringID h in
  let h := writeString derivation h in
  let h := writeString policyID h in
  let h := writeString resource h in
  writeString permission h.

Definition GenerateKeyDerivationID (ringID derivation policyID resource permission : bytes) : bytes :=
  sum (key_derivation_preimage ringID derivation policyID resource permission).

(** ** Byte fields in JSON *)

(** An element of the array: an unsigned number without sign, point or exponent. *)
Definition id_byte (v : json) : option ascii :=
  match v with
  | JNum literal =>
      match span_digits literal with
      | (_ :: _, []) => if digits_value literal <=? 255 then Some (byte_of_Z (digits_value literal)) else None
      | _ => None
      end
  | _ => None
  end.

(** [idBytes.UnmarshalJSON] *)
Definition idBytes_UnmarshalJSON (v : json) : option bytes :=
  match v with
  | JArr l => mapM id_byte l
  | _ => None
  end.

(** The fields as a map, once it is known that no name is repeated. *)
Fixpoint field_value (key : bytes) (fields : list (bytes * json)) : option json :=
  match fields with
  | [] => None
  | (k, v) :: rest => if decide (k = key) then Some v else field_value key rest
  end.

(** The values of the wanted fields, in the order they are asked for. *)
Definition decodeIDByteFields (raw : bytes) (want : list bytes) : option (list bytes) :=
  match json_parse raw with
  | Some (JObj fields) =>
      if decide (NoDup fields.*1 /\ length fields = length want)
      then mapM (fun key => v ← field_value key fields; idBytes_UnmarshalJSON v) want
      else None
  | _ => None
  end.

Definition secret_fields : list bytes := [lit "enc_cmt"; lit "encrypted_data"; lit "nonce"].
Definition proof_fields : list bytes := [lit "challenge"; lit "response"].
Definition tag_fields : list bytes := [lit "ephemeral_point"; lit "masked_fingerprint"].

(** ** Documents *)

(** Absent tags leave no trace in the hash. *)
Definition writeOptionalPetTag (petTag petTagProof : option bytes) (h : idHasher) : outcome idHasher :=
  match petTag, petTagProof with
  | None, None => Ok h
  | Some tag, Some proof =>
      match decodeIDByteFields tag tag_fields, decodeIDByteFields proof proof_fields with
      | None, _ => Err (ErrMsg "malformed pet_tag")
      | Some _, None => Err (ErrMsg "malformed pet_tag_proof")
      | Some tagValues, Some proofValues => Ok (foldl (fun h v => writeBytes v h) h (tagValues ++ proofValues))
      end
  | _, _ => Err (ErrMsg "pet_tag and pet_tag_proof must be present or absent together")
  end.

Definition document_preimage (ringID : bytes) (secret proof : list bytes) (policyID resource permission : bytes)
    (tier : option bytes) (timestamp : option Z) : idHasher :=
  let h := newIDHasher (lit "orbis/document/v1") in
  let h := writeString ringID h in
  let h := foldl (fun h v => writeBytes v h) h (secret ++ proof) in
  let h := writeString policyID h in
  let h := writeString resource h in
  let h := writeString permission h in
  let h := writeOptionalString tier h in
  writeOptionalUint64 timestamp h.

Definition GenerateDocumentID (ringID document proof policyID resource permission : bytes) (tier : option bytes)
    (timestamp : option Z) (petTag petTagProof : option bytes) : outcome bytes :=
  match decodeIDByteFields document secret_fields with
  | None => Err (ErrMsg "malformed document")
  | Some secret =>
      match decodeIDByteFields proof proof_fields with
      | None => Err (ErrMsg "malformed proof")
      | Some pf =>
          h ← writeOptionalPetTag petTag petTagProof
                (document_preimage ringID secret pf policyID resource permission tier timestamp);
          Ok (sum h)
      end
  end.

(** * What an id binds *)

Lemma writes_app (l : list bytes) h : foldl (fun h v => writeBytes v h) h l = h ++ concat (enc_bytes <$> l).
Proof.
  revert h. induction l as [|v l IH]; intros h; simpl; [by rewrite app_nil_r|]. rewrite IH. unfold writeBytes.
  by rewrite <- app_assoc.
Qed.

Lemma writeStringSlice_app l h : writeStringSlice l h = h ++ enc_strings l.
Proof. unfold writeStringSlice, enc_strings, writeString. by rewrite writes_app, <- app_assoc. Qed.

Lemma writeOptionalString_app o h : writeOptionalString o h = h ++ enc_option enc_bytes o.
Proof. destruct o; [|done]. unfold writeOptionalString, writeString, writeBytes. by rewrite <- app_assoc. Qed.

Lemma writeOptionalUint64_app o h : writeOptionalUint64 o h = h ++ enc_option enc_u64 o.
Proof. destruct o; [|done]. unfold writeOptionalUint64. by rewrite <- app_assoc. Qed.

(** The objects with an id, by what the id is made of. *)
Inductive identified : Type :=
  | IdRing (peers : list bytes) (threshold pss : Z) (policyID : bytes) (nonce : option bytes) (version : Z)
      (allow : bool) (relays : list bytes) (pet : bool)
  | IdDocument (ringID : bytes) (secret proof : list bytes) (policyID resource permission : bytes)
      (tier : option bytes) (timestamp : option Z) (tag : option (list bytes * list bytes))
  | IdKeyDerivation (ringID derivation policyID resource permission : bytes).

Definition tag_bytes (tag : option (list bytes * list bytes)) : bytes :=
  match tag with None => [] | Some (t, p) => concat (enc_bytes <$> (t ++ p)) end.

Definition preimage (x : identified) : bytes :=
  match x with
  | IdRing peers threshold pss policyID nonce version allow relays pet =>
      ring_preimage peers threshold pss policyID nonce version allow relays pet
  | IdDocument ringID secret proof policyID resource permission tier timestamp tag =>
      document_preimage ringID secret proof policyID resource permission tier timestamp ++ tag_bytes tag
  | IdKeyDerivation ringID derivation policyID resource permission =>
      key_derivation_preimage ringID derivation policyID resource permission
  end.

(** [generated x id]: the code gives [x] this id. *)
Inductive generated : identified -> bytes -> Prop :=
  | generated_ring peers threshold pss policyID nonce version allow relays pet :
      generated (IdRing peers threshold pss policyID nonce version allow relays pet)
        (GenerateRingID peers threshold pss policyID nonce version allow relays pet)
  | generated_document ringID document proof policyID resource permission tier timestamp petTag petTagProof secret pf tag id :
      GenerateDocumentID ringID document proof policyID resource permission tier timestamp petTag petTagProof = Ok id ->
      decodeIDByteFields document secret_fields = Some secret ->
      decodeIDByteFields proof proof_fields = Some pf ->
      match petTag, petTagProof with
      | Some t, Some p => exists ts ps, decodeIDByteFields t tag_fields = Some ts /\
                            decodeIDByteFields p proof_fields = Some ps /\ tag = Some (ts, ps)
      | _, _ => tag = None
      end ->
      generated (IdDocument ringID secret pf policyID resource permission tier timestamp tag) id
  | generated_key_derivation ringID derivation policyID resource permission :
      generated (IdKeyDerivation ringID derivation policyID resource permission)
        (GenerateKeyDerivationID ringID derivation policyID resource permission).

(** The order of the members of a ring and of its relays does not matter. *)
Definition same_object (x y : identified) : Prop :=
  match x, y with
  | IdRing peers threshold pss policyID nonce version allow relays pet,
    IdRing peers' threshold' pss' policyID' nonce' version' allow' relays' pet' =>
      peers ≡ₚ peers' /\ relays ≡ₚ relays' /\
      (threshold, pss, policyID, nonce, version, allow, pet) = (threshold', pss', policyID', nonce', version', allow', pet')
  | _, _ => x = y
  end.

(** Numbers of their width, and no string of 4 gigabytes. *)
Definition id_parts_ok (x : identified) : Prop :=
  match x with
  | IdRing peers threshold pss policyID nonce version allow relays pet =>
      are_short peers /\ are_short relays /\ is_u32 threshold /\ is_u64 pss /\ is_short policyID /\
      opt is_short nonce /\ is_u64 version
  | IdDocument ringID secret proof policyID resource permission tier timestamp tag =>
      is_short ringID /\ Forall is_short secret /\ Forall is_short proof /\ is_short policyID /\ is_short resource /\
      is_short permission /\ opt is_short tier /\ opt is_u64 timestamp /\
      opt (fun tp => Forall is_short tp.1 /\ Forall is_short tp.2) tag
  | IdKeyDerivation ringID derivation policyID resource permission =>
      is_short ringID /\ is_short derivation /\ is_short policyID /\ is_short resource /\ is_short permission
  end.

(** The wanted fields of a document, a proof and a tag. *)
Definition fields_counted (x : identified) : Prop :=
  match x with
  | IdDocument _ secret proof _ _ _ _ _ tag => length secret = 3%nat /\ length proof = 2%nat /\
      opt (fun tp => length tp.1 = 2%nat /\ length tp.2 = 2%nat) tag
  | _ => True
  end.

Lemma decodeIDByteFields_length raw want l : decodeIDByteFields raw want = Some l -> length l = length want.
Proof.
  unfold decodeIDByteFields. destruct (json_parse raw) as [[]|]; try done. destruct (decide _); [|done].
  intros Hl%length_mapM. done.
Qed.

Lemma generated_preimage x id : generated x id -> id = hex_encode (sha256 (preimage x)) /\ fields_counted x.
Proof.
  destruct 1 as [| |]; [done| |done]. rename H0 into Hs, H1 into Hp, H2 into Ht.
  unfold GenerateDocumentID in H. rewrite Hs, Hp in H. cbn [preimage fields_counted].
  apply decodeIDByteFields_length in Hs, Hp. cbn [secret_fields proof_fields length] in Hs, Hp.
  destruct petTag as [t|], petTagProof as [p|]; simpl in H; try done.
  - destruct Ht as (ts & ps & Hts & Hps & ->). rewrite Hts, Hps in H. simpl in H. injection H as <-.
    rewrite writes_app. apply decodeIDByteFields_length in Hts, Hps. split; [done|].
    split_and!; [done..|]. by intros tp [= <-].
  - subst tag. injection H as <-. cbn [tag_bytes]. rewrite app_nil_r. split; [done|]. by split_and!.
Qed.

Lemma sorted_perm l l' : sort_strings l = sort_strings l' -> l ≡ₚ l'.
Proof.
  intros Heq. rewrite <- (merge_sort_Permutation bytes_le l), <- (merge_sort_Permutation bytes_le l').
  unfold sort_strings in Heq. by rewrite Heq.
Qed.

Lemma are_short_sorted l : are_short l -> are_short (sort_strings l).
Proof.
  unfold are_short, is_short, sort_strings. intros [Hl Hf]. by rewrite merge_sort_Permutation.
Qed.

Lemma ring_preimage_enc peers threshold pss policyID nonce version allow relays pet :
  ring_preimage peers threshold pss policyID nonce version allow relays pet =
  enc_bytes (lit "orbis/ring") ++ enc_strings (sort_strings peers) ++ enc_u32 threshold ++ enc_u64 pss ++
  enc_bytes policyID ++ enc_option enc_bytes nonce ++ enc_u64 version ++ enc_bool allow ++
  enc_strings (sort_strings relays) ++ enc_bool pet ++ [].
Proof.
  unfold ring_preimage, newIDHasher, writeString, writeBytes, writeUint32, writeUint64, writeBool.
  rewrite !writeStringSlice_app, writeOptionalString_app, app_nil_r. by rewrite <- !app_assoc.
Qed.

Lemma document_preimage_enc ringID secret proof policyID resource permission tier timestamp tag :
  document_preimage ringID secret proof policyID resource permission tier timestamp ++ tag_bytes tag =
  enc_bytes (lit "orbis/document/v1") ++ enc_bytes ringID ++ concat (enc_bytes <$> (secret ++ proof)) ++
  enc_bytes policyID ++ enc_bytes resource ++ enc_bytes permission ++ enc_option enc_bytes tier ++
  enc_option enc_u64 timestamp ++ tag_bytes tag.
Proof.
  unfold document_preimage, newIDHasher, writeString, writeBytes.
  rewrite writeOptionalUint64_app, writeOptionalString_app, (writes_app (secret ++ proof)). by rewrite <- !app_assoc.
Qed.

Lemma key_derivation_preimage_enc ringID derivation policyID resource permission :
  key_derivation_preimage ringID derivation policyID resource permission =
  enc_bytes (lit "orbis/key_derivation/v1") ++ enc_bytes ringID ++ enc_bytes derivation ++ enc_bytes policyID ++
  enc_bytes resource ++ enc_bytes permission ++ [].
Proof.
  unfold key_derivation_preimage, newIDHasher, writeString, writeBytes. rewrite app_nil_r. by rewrite <- !app_assoc.
Qed.

(** Two lists, written one after the other, of known lengths. *)
Lemma two_lists_inj (a b a' b' : list bytes) r r' : length a = length a' -> length b = length b' ->
  Forall is_short a -> Forall is_short b -> Forall is_short a' -> Forall is_short b' ->
  concat (enc_bytes <$> (a ++ b)) ++ r = concat (enc_bytes <$> (a' ++ b')) ++ r' -> a = a' /\ b = b' /\ r = r'.
Proof.
  intros Hla Hlb Ha Hb Ha' Hb' Heq. apply concat_prefixed in Heq as [Heq ->];
    [|by apply Forall_app..|by rewrite !length_app, Hla, Hlb]. by apply app_inj_1 in Heq as [-> ->].
Qed.

Lemma ring_preimage_inj x y :
  match x, y with IdRing _ _ _ _ _ _ _ _ _, IdRing _ _ _ _ _ _ _ _ _ => True | _, _ => False end ->
  id_parts_ok x -> id_parts_ok y -> preimage x = preimage y -> same_object x y.
Proof.
  destruct x, y; try done. intros _ (H1 & H2 & H3 & H4 & H5 & H6 & H7) (H1' & H2' & H3' & H4' & H5' & H6' & H7').
  apply are_short_sorted in H1, H2, H1', H2'. cbn [preimage same_object]. rewrite !ring_preimage_enc. intros Heq.
  apply app_inv_head in Heq. do 9 peel Heq. apply sorted_perm in E, E6. by subst.
Qed.

Lemma document_preimage_inj x y :
  match x, y with IdDocument _ _ _ _ _ _ _ _ _, IdDocument _ _ _ _ _ _ _ _ _ => True | _, _ => False end ->
  id_parts_ok x -> id_parts_ok y -> fields_counted x -> fields_counted y -> preimage x = preimage y -> x = y.
Proof.
  destruct x, y; try done. intros _ (H1 & H2 & H3 & H4 & H5 & H6 & H7 & H8 & H9)
    (H1' & H2' & H3' & H4' & H5' & H6' & H7' & H8' & H9') (C1 & C2 & C3) (C1' & C2' & C3').
  cbn [preimage]. rewrite !document_preimage_enc. intros Heq. apply app_inv_head in Heq. peel Heq.
  apply two_lists_inj in Heq as (-> & -> & Heq); [|congruence|congruence|done..].
  do 5 peel Heq. subst. f_equal. destruct tag as [[t p]|], tag0 as [[t' p']|]; cbn [tag_bytes] in Heq; [|exfalso..|done].
  - specialize (C3 _ eq_refl). specialize (C3' _ eq_refl). specialize (H9 _ eq_refl). specialize (H9' _ eq_refl).
    simpl in C3, C3', H9, H9'. rewrite <- (app_nil_r (concat _)), <- (app_nil_r (concat (enc_bytes <$> (t' ++ p')))) in Heq.
    apply two_lists_inj in Heq as (-> & -> & _); [done|lia|lia|naive_solver..].
  - destruct (C3 _ eq_refl) as [Ht _]. destruct t; [discriminate Ht|discriminate Heq].
  - destruct (C3' _ eq_refl) as [Ht _]. destruct t'; [discriminate Ht|discriminate Heq].
Qed.

Lemma key_derivation_preimage_inj x y :
  match x, y with IdKeyDerivation _ _ _ _ _, IdKeyDerivation _ _ _ _ _ => True | _, _ => False end ->
  id_parts_ok x -> id_parts_ok y -> preimage x = preimage y -> x = y.
Proof.
  destruct x, y; try done. intros _ (H1 & H2 & H3 & H4 & H5) (H1' & H2' & H3' & H4' & H5').
  cbn [preimage]. rewrite !key_derivation_preimage_enc. intros Heq. apply app_inv_head in Heq. do 5 peel Heq. by subst.
Qed.

Lemma preimage_inj x y : id_parts_ok x -> id_parts_ok y -> fields_counted x -> fields_counted y ->
  preimage x = preimage y -> same_object x y.
Proof.
  intros Hx Hy Cx Cy Heq.
  destruct x, y; try (by apply ring_preimage_inj); try (by apply document_preimage_inj); try (by apply key_derivation_preimage_inj);
    cbn [preimage] in Heq; rewrite ?ring_preimage_enc, ?document_preimage_enc, ?key_derivation_preimage_enc in Heq;
    apply (prefixed (enc := enc_bytes) (ok := is_short)) in Heq as [Heq _]; (discriminate Heq || by vm_compute).
Qed.

(** C30: ids bind. Two objects for which the code computes the same id - rings,
    documents, key derivations, in any combination - are the same object, made of the
    same parts: otherwise SHA-256 maps their different encodings to the same digest. *)
Theorem ids_bind x y id : generated x id -> generated y id -> id_parts_ok x -> id_parts_ok y ->
  same_object x y \/ (preimage x <> preimage y /\ sha256 (preimage x) = sha256 (preimage y)).
Proof.
  intros [-> Cx]%generated_preimage [Hid Cy]%generated_preimage Hx Hy. apply hex_encode_inj in Hid.
  destruct (decide (preimage x = preimage y)) as [Heq|Hne]; [left; by apply preimage_inj|by right].
Qed.

(** ** The vectors of docid_crossimpl_test.go *)

Definition demo_document : bytes :=
  with_quotes "{'enc_cmt':[1,2,3],'encrypted_data':[4,5,6],'nonce':[0,0,0,0,0,0,0,0,0,0,0,0]}".
Definition demo_document' : bytes :=
  with_quotes "{ 'nonce' : [0,0,0,0,0,0,0,0,0,0,0,0],
  'enc_cmt': [1, 2, 3] ,'encrypted_data':[4,5,6] }".
Definition demo_proof : bytes := with_quotes "{'challenge':[7,8],'response':[9,10]}".
Definition demo_id document proof : outcome bytes :=
  GenerateDocumentID (lit "ring-1") document proof (lit "policy-b") (lit "document") (lit "read")
    (Some (lit "gold")) (Some 1700000000) None None.

Example document_vector : demo_id demo_document demo_proof
  = Ok (lit "e555cfcb145edf3d4cd8acbae93e05dc3a48eb0162b3af90f42064ab837c9a06").
Proof. vm_compute. reflexivity. Qed.

Example document_rejections :
  (is_ok (demo_id (lit "{}") demo_proof), is_ok (demo_id demo_document (lit "not json")),
   is_ok (demo_id demo_document (demo_proof ++ lit "  trailing")),
   is_ok (demo_id (with_quotes "{'enc_cmt':[1,2,3],'ENC_CMT':[9,9,9],'encrypted_data':[4,5,6],'nonce':[0]}") demo_proof),
   is_ok (demo_id (with_quotes "{'enc_cmt':[1,2,3],'enc_cmt':[9,9,9],'encrypted_data':[4,5,6],'nonce':[0]}") demo_proof),
   is_ok (demo_id (with_quotes "{'enc_cmt':[1,null,3],'encrypted_data':[4,5,6],'nonce':[0]}") demo_proof),
   is_ok (demo_id (with_quotes "{'enc_cmt':null,'encrypted_data':[4,5,6],'nonce':[0]}") demo_proof))
  = (false, false, false, false, false, false, false).
Proof. vm_compute. reflexivity. Qed.

Definition demo_object : identified :=
  IdDocument (lit "ring-1") [byte_of_Z <$> [1; 2; 3]; byte_of_Z <$> [4; 5; 6]; byte_of_Z <$> replicate 12 0]
    [byte_of_Z <$> [7; 8]; byte_of_Z <$> [9; 10]] (lit "policy-b") (lit "document") (lit "read")
    (Some (lit "gold")) (Some 1700000000) None.

Lemma ids_bind_witness : exists id,
  generated demo_object id /\ demo_id demo_document' demo_proof = Ok id /\
  (same_object demo_object demo_object \/
   preimage demo_object <> preimage demo_object /\ sha256 (preimage demo_object) = sha256 (preimage demo_object)).
Proof.
  exists (lit "e555cfcb145edf3d4cd8acbae93e05dc3a48eb0162b3af90f42064ab837c9a06").
  assert (Hg : generated demo_object (lit "e555cfcb145edf3d4cd8acbae93e05dc3a48eb0162b3af90f42064ab837c9a06")).
  { apply (generated_document _ demo_document demo_proof _ _ _ _ _ None None); [vm_compute; reflexivity..|reflexivity]. }
  assert (Hg' : generated demo_object (lit "e555cfcb145edf3d4cd8acbae93e05dc3a48eb0162b3af90f42064ab837c9a06")).
  { apply (generated_document _ demo_document' demo_proof _ _ _ _ _ None None); [vm_compute; reflexivity..|reflexivity]. }
  assert (Hok : id_parts_ok demo_object).
  { assert (Hall : forall o : option Z, o = Some 1700000000 -> opt is_u64 o) by (intros o -> a [= <-]; vm_compute; split; [discriminate|reflexivity]).
    unfold demo_object, id_parts_ok.
    split; [vm_compute; reflexivity|]. split; [repeat apply Forall_cons_2; [vm_compute; reflexivity..|apply Forall_nil_2]|].
    split; [repeat apply Forall_cons_2; [vm_compute; reflexivity..|apply Forall_nil_2]|].
    do 3 (split; [vm_compute; reflexivity|]). split; [intros a [= <-]; vm_compute; reflexivity|].
    split; [by apply Hall|]. intros a [=]. }
  split; [exact Hg|]. split; [vm_compute; reflexivity|].
  exact (ids_bind demo_object demo_object _ Hg Hg' Hok Hok).
Defined.
