(* ===== verification/OrbisRing.v ===== *)
(** Rings of the orbis module, without the store: what makes a ring valid
    (keeper/validation.go), upgrades of its protocol (keeper/ring_upgrade.go), the
    information on nodes (keeper/node_info.go) and demerits (keeper/demerits.go). *)
From Stdlib Require Import Ascii ZArith Lia.
From stdpp Require Import base numbers list gmap strings sorting.
From S2P Require Import Prelude Sdk Sha256 Utils Json GoText Canonical OrbisTypes OrbisIds.

(** ** keeper/ring.go *)

Definition canonicalStrings (values : list bytes) : list bytes := sort_strings values.

(** ** keeper/validation.go *)

Definition requireRingFinalized (ring : Ring) : outcome unit :=
  reject_if (bool_decide (RingPk ring = [])) ErrRingNotFinalized.

Definition compressedPubKeyLen : nat := 33.

(** [hex.DecodeString] of a key of 33 bytes. *)
Definition decodePubKey (keyHex : bytes) : option bytes :=
  match hex_decode keyHex with
  | Some decoded => if decide (length decoded = compressedPubKeyLen) then Some decoded else None
  | None => None
  end.

Definition validatePeerNodeKeyFormat (key : bytes) : outcome unit :=
  _ ← reject_if (bool_decide (key = [])) ErrInvalidRing;
  reject_if (bool_decide (decodePubKey (TrimPrefix key (lit "0x")) = None)) ErrInvalidRing.

Definition validateUniquePeerNodeKeys (nodeKeys : list bytes) : outcome unit :=
  each_unique validatePeerNodeKeyFormat ErrInvalidRing [] nodeKeys.

Definition validateEffectiveReshareThreshold (threshold : Z) (committeeSize : nat) : outcome unit :=
  reject_if (Z.of_nat committeeSize mod 2 ^ 32 <? threshold) ErrInvalidRing.

Definition validateReportingConfig (config : ReportingConfig) : outcome unit :=
  _ ← ValidateReportingConfig config;
  if decide (BackupNodeKeys config = []) then Ok tt else validateUniquePeerNodeKeys (BackupNodeKeys config).

Definition validateRingPSSInterval (ring : Ring) : outcome unit := ValidatePSSInterval (PssInterval ring).

(** A reshare is pending. *)
Definition reshareInProgress (ring : Ring) : bool :=
  negb (bool_decide (NewPeerNodeKeys ring = [])) || negb (bool_decide (NewThreshold ring = None)).

(** ** keeper/ring_upgrade.go *)

Definition MinRingUpgradeLeadSeconds : Z := 600.

Definition validateUpgradeInfo (info : UpgradeInfo) : outcome unit :=
  match NextVersion info, ActivationTime info with
  | None, None => Ok tt
  | Some next, Some activation =>
      _ ← reject_if (next <=? CurrentVersion info) ErrInvalidRing;
      reject_if (activation =? 0) ErrInvalidRing
  | _, _ => Err ErrInvalidRing
  end.

Definition unix (t : Time) : Z := t / 1000000000.

(** [currentBlockUnixTime], with the error that its callers wrap. *)
Definition blockUnixTime (e : error) (blockTime : Time) : outcome Z :=
  if unix blockTime <? 0 then Err e else Ok (unix blockTime).

Definition clearRingUpgrade (ring : Ring) : Ring :=
  set_upgrade (mkUpgradeInfo (CurrentVersion (rg_UpgradeInfo ring)) None None) ring.

Definition setRingUpgrade (nextVersion activationTime : Z) (ring : Ring) : Ring :=
  set_upgrade (mkUpgradeInfo (CurrentVersion (rg_UpgradeInfo ring)) (Some nextVersion) (Some activationTime)) ring.

Definition normalizeMaturedRingUpgrade (currentTime : Z) (ring : Ring) : Ring :=
  match NextVersion (rg_UpgradeInfo ring), ActivationTime (rg_UpgradeInfo ring) with
  | Some next, Some activation =>
      if currentTime <? activation then ring
      else clearRingUpgrade (set_upgrade (mkUpgradeInfo next (Some next) (Some activation)) ring)
  | _, _ => ring
  end.

Definition maybeNormalizeMaturedRingUpgrade (blockTime : Time) (ring : Ring) : outcome Ring :=
  match NextVersion (rg_UpgradeInfo ring) with
  | None => Ok ring
  | Some _ => currentTime ← blockUnixTime ErrInvalidRing blockTime; Ok (normalizeMaturedRingUpgrade currentTime ring)
  end.

Definition validateRingUpgradeSchedule (nextVersion activationTime currentTime : Z) (existing : Ring) : outcome unit :=
  _ ← reject_if (nextVersion <=? CurrentVersion (rg_UpgradeInfo existing)) ErrInvalidRing;
  _ ← reject_if (uint64_max - MinRingUpgradeLeadSeconds <? currentTime) ErrInvalidRing;
  reject_if (activationTime <? currentTime + MinRingUpgradeLeadSeconds) ErrInvalidRing.

Section ring.
Context `{DIDDecode}.

Definition validateRing (ring : Ring) : outcome unit :=
  let size := Z.of_nat (length (PeerNodeKeys ring)) in
  _ ← reject_if (bool_decide (rg_Id ring = [])) ErrInvalidRingId;
  _ ← reject_if (bool_decide (PeerNodeKeys ring = [])) ErrInvalidRing;
  _ ← reject_if ((Threshold ring =? 0) || (size <? Threshold ring)) ErrInvalidRing;
  _ ← reject_if (bool_decide (rg_PolicyId ring = [])) ErrInvalidRing;
  _ ← validateUpgradeInfo (rg_UpgradeInfo ring);
  _ ← validateReportingConfig (rg_Reporting ring);
  _ ← ValidateTrustedAuthRelayConfig (AllowTrustedAuthRelays ring) (TrustedAuthRelayDids ring);
  _ ← validateUniquePeerNodeKeys (PeerNodeKeys ring);
  _ ← (if decide (NewPeerNodeKeys ring = []) then Ok tt else validateUniquePeerNodeKeys (NewPeerNodeKeys ring));
  _ ← reject_if (bool_decide (NewThreshold ring = Some 0)) ErrInvalidRing;
  if reshareInProgress ring then
    let targetCommitteeSize :=
      if decide (NewPeerNodeKeys ring = []) then length (PeerNodeKeys ring) else length (NewPeerNodeKeys ring) in
    validateEffectiveReshareThreshold (default (Threshold ring) (NewThreshold ring)) targetCommitteeSize
  else Ok tt.

Definition validateStartRingReshare (newPeerNodeKeys : list bytes) (newThreshold : option Z) (existing : Ring)
    : outcome unit :=
  _ ← reject_if (reshareInProgress existing) ErrReshareInProgress;
  let committeeChanged :=
    negb (bool_decide (newPeerNodeKeys = [])) && negb (bool_decide (newPeerNodeKeys = PeerNodeKeys existing)) in
  let thresholdChanged :=
    match newThreshold with Some t => negb (t =? Threshold existing) | None => false end in
  _ ← reject_if (negb committeeChanged && negb thresholdChanged) ErrInvalidRing;
  _ ← (if decide (newPeerNodeKeys = []) then Ok tt else validateUniquePeerNodeKeys newPeerNodeKeys);
  _ ← reject_if (match newThreshold with Some t => t <? 1 | None => false end) ErrInvalidRing;
  _ ← reject_if (bool_decide (newPeerNodeKeys = []) &&
        match newThreshold with
        | Some t => Z.of_nat (length (PeerNodeKeys existing)) mod 2 ^ 32 <? t
        | None => false
        end) ErrInvalidRing;
  if decide (newPeerNodeKeys = []) then Ok tt
  else validateEffectiveReshareThreshold (default (Threshold existing) newThreshold) (length newPeerNodeKeys).

Definition ringForReshareFinalization (currentRing : Ring) : outcome Ring :=
  _ ← reject_if (negb (reshareInProgress currentRing)) ErrInvalidRing;
  let peers := if decide (NewPeerNodeKeys currentRing = []) then PeerNodeKeys currentRing
               else NewPeerNodeKeys currentRing in
  let finalized :=
    set_reshare [] None (set_committee peers (default (Threshold currentRing) (NewThreshold currentRing)) currentRing) in
  _ ← validateRing finalized;
  Ok finalized.
End ring.

Definition validateDocument (document : Document) : outcome unit :=
  _ ← required (doc_Id document) ErrInvalidDocumentId;
  _ ← required (doc_RingId document) ErrInvalidRingId;
  _ ← required (doc_Document document) ErrInvalidDocument;
  _ ← required (doc_Proof document) ErrInvalidDocument;
  _ ← required (doc_PolicyId document) ErrInvalidDocument;
  _ ← required (doc_Resource document) ErrInvalidDocument;
  required (doc_Permission document) ErrInvalidDocument.

Definition validateKeyDerivation (keyDerivation : KeyDerivation) : outcome unit :=
  _ ← required (kd_Id keyDerivation) ErrInvalidKeyDerivationId;
  _ ← required (kd_RingId keyDerivation) ErrInvalidRingId;
  _ ← required (Derivation keyDerivation) ErrInvalidKeyDerivation;
  _ ← required (kd_PolicyId keyDerivation) ErrInvalidKeyDerivation;
  _ ← required (kd_Resource keyDerivation) ErrInvalidKeyDerivation;
  required (kd_Permission keyDerivation) ErrInvalidKeyDerivation.

(** ** keeper/node_info.go *)

Definition nodeInfoAllowsRing (nodeInfo : NodeInfo) (ring : Ring) : bool :=
  bool_decide (rg_PolicyId ring ∈ WhitelistedPolicyIds nodeInfo) ||
  bool_decide (rg_Id ring ∈ WhitelistedRingIds nodeInfo).

Definition maxNodeWhitelistLen : nat := 256.

Definition validateUniqueNonEmptyStrings (values : list bytes) : outcome unit :=
  each_unique (fun value => reject_if (bool_decide (value = [])) ErrInvalidNodeInfo) ErrInvalidNodeInfo [] values.

Definition normalizeAndValidateNodeInfo (nodeInfo : NodeInfo) : outcome NodeInfo :=
  _ ← reject_if (bool_decide (PeerId nodeInfo = [])) ErrInvalidNodeInfo;
  _ ← reject_if (bool_decide (ControllerKey nodeInfo = [])) ErrInvalidNodeInfo;
  _ ← reject_if (maxNodeWhitelistLen <? length (WhitelistedPolicyIds nodeInfo))%nat ErrInvalidNodeInfo;
  _ ← reject_if (maxNodeWhitelistLen <? length (WhitelistedRingIds nodeInfo))%nat ErrInvalidNodeInfo;
  _ ← validateUniqueNonEmptyStrings (WhitelistedPolicyIds nodeInfo);
  _ ← validateUniqueNonEmptyStrings (WhitelistedRingIds nodeInfo);
  let keyHex := ToLower (TrimPrefix (ControllerKey nodeInfo) (lit "0x")) in
  _ ← reject_if (bool_decide (decodePubKey keyHex = None)) ErrInvalidNodeInfo;
  Ok (mkNodeInfo (PeerId nodeInfo) keyHex (WhitelistedPolicyIds nodeInfo) (WhitelistedRingIds nodeInfo)).

(** [secp256k1.PubKey.Address] of the SDK. *)
Class NodeAddress : Type := { secp256k1_Address : bytes -> bytes }.

Definition nodeKeyAccAddress `{NodeAddress} (nodeKey : bytes) : outcome bytes :=
  match decodePubKey (TrimPrefix nodeKey (lit "0x")) with
  | None => Err ErrInvalidNodeInfo
  | Some decoded => Ok (secp256k1_Address decoded)
  end.

(** ** keeper/demerits.go *)

Definition NodeOfflineReportType : bytes := lit "node_offline".
Definition InvalidCryptoResponseReportType : bytes := lit "invalid_crypto_response".
Definition UnauthorizedRequestReportType : bytes := lit "unauthorized_request".

Definition DemeritAmountForReportType (ring : option Ring) (reportType : bytes) : outcome Z :=
  match ring with
  | None => Err ErrRingNotFound
  | Some ring =>
      let config := rep_DemeritConfig (rg_Reporting ring) in
      if decide (reportType = NodeOfflineReportType) then Ok (NodeOfflineDemerits config)
      else if decide (reportType = InvalidCryptoResponseReportType) then Ok (InvalidCryptoResponseDemerits config)
      else if decide (reportType = UnauthorizedRequestReportType) then Ok (UnauthorizedRequestDemerits config)
      else Err ErrInvalidReport
  end.
