(* ===== verification/OrbisSign.v ===== *)
(** Threshold signatures of rings: their verification (keeper/threshold_signature.go
    and the calls of src/x/orbis/jubjub), and the document that is signed to finish a
    reshare (keeper/reshare_sign_bytes.go, with the generated encoders of
    types/tx.pb.go).

    The two signature schemes are libraries: blst, and a compiled module that is
    called through its memory. [reshare_sign_bytes_bind] shows what a signature
    over the document commits to. *)
From Stdlib Require Import Ascii ZArith Lia.
From stdpp Require Import base numbers list gmap strings sorting.
From S2P Require Import Prelude Sdk Sha256 Utils Json GoText Canonical OrbisTypes OrbisIds OrbisRing.

(** * Libraries *)

(** blst: a compressed signature is checked against a compressed key, with the key in
    front of the message. *)
Class Blst : Type := {
  P2Affine_VerifyCompressed : bytes -> bytes -> bytes -> bytes -> bool;
  P1Affine : Type;
  P1Affine_Uncompress : bytes -> option P1Affine;
  P1Affine_KeyValidate : P1Affine -> bool;
}.

(** The compiled module: whether an instance can be made, the size of its buffer,
    whether its memory takes the bytes, and its functions on what the buffer holds. *)
Class JubjubWasm : Type := {
  wasm_instance : outcome unit;
  wasm_bufLen : Z;
  wasm_Write : bytes -> bool;
  wasm_Call : bytes -> bytes -> list Z -> outcome Z;
}.

(** * src/x/orbis/jubjub *)

Definition ElementSize : nat := 32.
Definition ScalarSize : nat := 32.

Section crypto.
Context `{Blst, JubjubWasm}.

Definition writeInputs (buf : bytes) : outcome unit :=
  _ ← fail_if (wasm_bufLen <? Z.of_nat (length buf) mod 2 ^ 32) "input exceeds wasm shared buffer capacity";
  fail_if (negb (wasm_Write buf)) "wasm memory write out of range".

Definition callVerifyLikeI32 (fnName input : bytes) (args : list Z) : outcome Z :=
  _ ← wasm_instance;
  _ ← (if decide (input = []) then Ok tt else writeInputs input);
  wasm_Call fnName input args.

(** The buffer holds the key, the signature and the message; [Verify] has checked the
    lengths of the first two. *)
Definition CallVerify (pk msg sig : bytes) : outcome bool :=
  result ← callVerifyLikeI32 (lit "verify") (pk ++ sig ++ msg) [Z.of_nat (length msg)];
  Ok (result =? 1).

Definition CallIsIdentityPubkey (pk : bytes) : outcome bool :=
  result ← callVerifyLikeI32 (lit "is_identity_pubkey") pk [];
  Ok (result =? 1).

Definition jubjubfrost_Verify (publicKeyBytes msg signatureBytes : bytes) : outcome bool :=
  _ ← fail_if (negb (bool_decide (length publicKeyBytes = ElementSize))) "jubjub: invalid encoding";
  _ ← fail_if (negb (bool_decide (length signatureBytes = (ElementSize + ScalarSize)%nat))) "jubjub: invalid scalar";
  CallVerify publicKeyBytes msg signatureBytes.

(** * keeper/threshold_signature.go *)

Definition ThresholdSignatureSchemeBLS : bytes := lit "bls12_381_g1_pk_g2_sig_aug_v1".
Definition ThresholdSignatureSchemeJubjubFROST : bytes := lit "jubjub_frost".
Definition bls12381PublicKeySize : nat := 48.
Definition bls12381SignatureSize : nat := 96.
Definition bls12381G2SignatureAugDST : bytes := lit "BLS_SIG_BLS12381G2_XMD:SHA-256_SSWU_RO_AUG_".
Definition jubjubPublicKeySize : nat := ElementSize.
Definition jubjubSignatureSize : nat := ElementSize + ScalarSize.

Definition decodeHexBytes (value : bytes) : option bytes :=
  let value := TrimSpace value in
  if decide (value = []) then None else hex_decode value.

Definition normalizeThresholdSignatureScheme (scheme : bytes) : bytes := ToLower (TrimSpace scheme).

Definition verifyBLS12381ThresholdSignature (ringPK message signature : bytes) : outcome unit :=
  match decodeHexBytes ringPK with
  | None => Err ErrInvalidThresholdSignature
  | Some publicKey =>
      _ ← reject_if (negb (bool_decide (length publicKey = bls12381PublicKeySize))) ErrInvalidThresholdSignature;
      _ ← reject_if (negb (bool_decide (length signature = bls12381SignatureSize))) ErrInvalidThresholdSignature;
      reject_if (negb (P2Affine_VerifyCompressed signature publicKey message bls12381G2SignatureAugDST))
        ErrInvalidThresholdSignature
  end.

Definition verifyJubjubFROSTThresholdSignature (ringPK message signature : bytes) : outcome unit :=
  match decodeHexBytes ringPK with
  | None => Err ErrInvalidThresholdSignature
  | Some publicKey =>
      _ ← reject_if (negb (bool_decide (length publicKey = jubjubPublicKeySize))) ErrInvalidThresholdSignature;
      _ ← reject_if (negb (bool_decide (length signature = jubjubSignatureSize))) ErrInvalidThresholdSignature;
      isIdentity ← wrap_err ErrInvalidThresholdSignature (CallIsIdentityPubkey publicKey);
      _ ← reject_if isIdentity ErrInvalidThresholdSignature;
      ok ← wrap_err ErrInvalidThresholdSignature (jubjubfrost_Verify publicKey message signature);
      reject_if (negb ok) ErrInvalidThresholdSignature
  end.

Definition verifyThresholdSignature (scheme ringPK message signature : bytes) : outcome unit :=
  let scheme := normalizeThresholdSignatureScheme scheme in
  if decide (scheme = ThresholdSignatureSchemeBLS) then verifyBLS12381ThresholdSignature ringPK message signature
  else if decide (scheme = ThresholdSignatureSchemeJubjubFROST) then
    verifyJubjubFROSTThresholdSignature ringPK message signature
  else Err ErrInvalidThresholdSignature.

Definition verifyThresholdSignatureForRingUpdate (ring : Ring) (message scheme signature : bytes) : outcome unit :=
  verifyThresholdSignature scheme (RingPk ring) message signature.

(** A key that cannot be read passes: it is of no known scheme. *)
Definition rejectIdentityRingPublicKey (ringPK : bytes) : outcome unit :=
  match decodeHexBytes ringPK with
  | None => Ok tt
  | Some publicKey =>
      if decide (length publicKey = jubjubPublicKeySize) then
        match CallIsIdentityPubkey publicKey with
        | Ok true => Err ErrInvalidRing
        | Panic => Panic
        | _ => Ok tt
        end
      else if decide (length publicKey = bls12381PublicKeySize) then
        match P1Affine_Uncompress publicKey with
        | Some point => reject_if (negb (P1Affine_KeyValidate point)) ErrInvalidRing
        | None => Ok tt
        end
      else Ok tt
  end.
End crypto.

(** * The generated encoders (types/tx.pb.go) *)

(** [encodeVarintTx]: seven bits per byte, the low ones first, at most ten bytes for
    64 bits. *)
Fixpoint varint (fuel : nat) (v : Z) : bytes :=
  match fuel with
  | O => [byte_of_Z v]
  | S fuel => if v <? 128 then [byte_of_Z v] else byte_of_Z (v mod 128 + 128) :: varint fuel (v / 128)
  end.
Definition encodeVarint (v : Z) : bytes := varint 9 v.

(** A field with its tag; zero values are left out, unless the field is repeated or
    optional. *)
Definition field_string (tag : Z) (v : bytes) : bytes :=
  byte_of_Z tag :: encodeVarint (Z.of_nat (length v)) ++ v.
Definition field_bytes (tag : Z) (v : bytes) : bytes := if decide (v = []) then [] else field_string tag v.
Definition field_strings (tag : Z) (l : list bytes) : bytes := concat (field_string tag <$> l).
Definition field_uint (tag : Z) (v : Z) : bytes := if v =? 0 then [] else byte_of_Z tag :: encodeVarint v.
Definition field_option (tag : Z) (o : option Z) : bytes :=
  match o with None => [] | Some v => byte_of_Z tag :: encodeVarint v end.
Definition field_bool (tag : Z) (b : bool) : bytes := if b then [byte_of_Z tag; byte_of_Z 1] else [].

Record RingReshareSignState : Type := mkRingReshareSignState {
  ss_RingPk : bytes; ss_PeerNodeKeys : list bytes; ss_Threshold : Z; ss_NewPeerNodeKeys : list bytes;
  ss_NewThreshold : option Z; ss_BlockNumberNonce : Z; ss_PolicyId : bytes;
  ss_TrustedAuthRelayDids : list bytes; ss_AllowTrustedAuthRelays : bool;
}.

Definition RingReshareSignState_Marshal (m : RingReshareSignState) : bytes :=
  field_bytes 10 (ss_RingPk m) ++ field_strings 18 (ss_PeerNodeKeys m) ++ field_uint 24 (ss_Threshold m) ++
  field_strings 34 (ss_NewPeerNodeKeys m) ++ field_option 40 (ss_NewThreshold m) ++
  field_uint 56 (ss_BlockNumberNonce m) ++ field_bytes 66 (ss_PolicyId m) ++
  field_strings 74 (ss_TrustedAuthRelayDids m) ++ field_bool 80 (ss_AllowTrustedAuthRelays m).

Record RingReshareFinalizeSignDoc : Type := mkSignDoc {
  sd_Domain : bytes; sd_ChainId : bytes; sd_RingId : bytes; sd_RingPk : bytes;
  sd_CurrentRingSha256 : bytes; sd_FinalizedRingSha256 : bytes; sd_BlockNumberNonce : Z;
}.

Definition RingReshareFinalizeSignDoc_Marshal (m : RingReshareFinalizeSignDoc) : bytes :=
  field_bytes 10 (sd_Domain m) ++ field_bytes 18 (sd_ChainId m) ++ field_bytes 26 (sd_RingId m) ++
  field_bytes 34 (sd_RingPk m) ++ field_bytes 42 (sd_CurrentRingSha256 m) ++
  field_bytes 50 (sd_FinalizedRingSha256 m) ++ field_uint 56 (sd_BlockNumberNonce m).

(** * keeper/reshare_sign_bytes.go *)

Definition RingReshareFinalizeSignDocDomain : bytes := lit "orbis-ring-reshare-finalize".

Definition ringReshareSignState (ring : Ring) : RingReshareSignState :=
  mkRingReshareSignState (RingPk ring) (PeerNodeKeys ring) (Threshold ring) (NewPeerNodeKeys ring)
    (NewThreshold ring) (BlockNumberNonce ring) (rg_PolicyId ring)
    (TrustedAuthRelayDids ring) (AllowTrustedAuthRelays ring).

Definition ringReshareSignStateHash (ring : Ring) : bytes :=
  sha256 (RingReshareSignState_Marshal (ringReshareSignState ring)).

Definition ringReshareFinalizeSignBytes (chainID : bytes) (currentRing finalizedRing : Ring) : bytes :=
  RingReshareFinalizeSignDoc_Marshal
    (mkSignDoc RingReshareFinalizeSignDocDomain chainID (rg_Id currentRing) (RingPk currentRing)
       (ringReshareSignStateHash currentRing) (ringReshareSignStateHash finalizedRing)
       (BlockNumberNonce currentRing)).

(** * What the signed document binds *)

Lemma varint_prefixed fuel (a b : Z) r r' : 0 <= a < 128 * 128 ^ Z.of_nat fuel -> 0 <= b < 128 * 128 ^ Z.of_nat fuel ->
  varint fuel a ++ r = varint fuel b ++ r' -> a = b /\ r = r'.
Proof.
  revert a b r r'. induction fuel as [|fuel IH]; intros a b r r' Ha Hb Heq; cbn [varint] in Heq.
  { simpl in Ha, Hb. injection Heq as Heq ->. split; [|done].
    rewrite <- (Z_of_byte_of_Z a), <- (Z_of_byte_of_Z b) by lia. by rewrite Heq. }
  rewrite Nat2Z.inj_succ, Z.pow_succ_r in Ha, Hb by lia.
  pose proof (Z.mod_pos_bound a 128). pose proof (Z.mod_pos_bound b 128).
  destruct (Z.ltb_spec a 128), (Z.ltb_spec b 128); simpl in Heq; injection Heq as Hc Heq;
    apply (f_equal Z_of_byte) in Hc; rewrite !Z_of_byte_of_Z in Hc by lia; [done|lia|lia|].
  apply IH in Heq as [Hd ->]; [|split; [apply Z.div_pos|apply Z.div_lt_upper_bound]; lia..].
  split; [|done]. rewrite (Z.div_mod a 128), (Z.div_mod b 128) by lia. lia.
Qed.

#[export] Instance encodeVarint_prefixed : Prefixed is_u64 encodeVarint.
Proof. intros a b r r' Ha Hb. unfold is_u64 in *. apply varint_prefixed; simpl; lia. Qed.

(** A length that a uint64 holds. *)
Definition fits {A} (l : list A) : Prop := Z.of_nat (length l) < 2 ^ 64.

#[export] Instance field_string_prefixed tag : Prefixed fits (field_string tag).
Proof.
  intros a b r r' Ha Hb. unfold field_string, fits in *. simpl. intros [= Heq]. rewrite <- !app_assoc in Heq.
  apply (prefixed (enc := encodeVarint)) in Heq as [Hl Heq]; [|unfold is_u64; lia..].
  apply app_inj_1 in Heq; [done|lia].
Qed.

(** What follows a field starts with another tag, or is empty. *)
Definition no_tag (tag : Z) (r : bytes) : Prop := forall r0, r <> byte_of_Z tag :: r0.

Lemma field_bytes_inj tag a b r r' : fits a -> fits b -> no_tag tag r -> no_tag tag r' ->
  field_bytes tag a ++ r = field_bytes tag b ++ r' -> a = b /\ r = r'.
Proof.
  intros Ha Hb Hr Hr'. unfold field_bytes. destruct (decide (a = [])) as [->|], (decide (b = [])) as [->|]; simpl; intros Heq.
  - done.
  - by apply Hr in Heq.
  - symmetry in Heq. by apply Hr' in Heq.
  - by apply (prefixed (enc := field_string tag)) in Heq.
Qed.

Lemma field_strings_inj tag l l' r r' : Forall fits l -> Forall fits l' -> no_tag tag r -> no_tag tag r' ->
  field_strings tag l ++ r = field_strings tag l' ++ r' -> l = l' /\ r = r'.
Proof.
  intros Hl Hl' Hr Hr'. unfold field_strings. revert l' Hl'.
  induction Hl as [|a l Ha Hl IH]; intros [|b l'] Hl' Heq.
  - done.
  - by apply Hr in Heq.
  - symmetry in Heq. by apply Hr' in Heq.
  - apply Forall_cons in Hl' as [Hb Hl']. rewrite !fmap_cons in Heq. cbn [concat] in Heq. rewrite <- !app_assoc in Heq.
    apply (prefixed (enc := field_string tag)) in Heq as [-> Heq]; [|done..]. by apply IH in Heq as [-> ->].
Qed.

Lemma field_uint_inj tag a b r r' : is_u64 a -> is_u64 b -> no_tag tag r -> no_tag tag r' ->
  field_uint tag a ++ r = field_uint tag b ++ r' -> a = b /\ r = r'.
Proof.
  intros Ha Hb Hr Hr'. unfold field_uint. destruct (Z.eqb_spec a 0) as [->|], (Z.eqb_spec b 0) as [->|]; simpl; intros Heq.
  - done.
  - by apply Hr in Heq.
  - symmetry in Heq. by apply Hr' in Heq.
  - injection Heq as Heq. by apply (prefixed (enc := encodeVarint)) in Heq.
Qed.

Lemma field_option_inj tag a b r r' : opt is_u64 a -> opt is_u64 b -> no_tag tag r -> no_tag tag r' ->
  field_option tag a ++ r = field_option tag b ++ r' -> a = b /\ r = r'.
Proof.
  intros Ha Hb Hr Hr'. destruct a as [a|], b as [b|]; simpl; intros Heq.
  - injection Heq as Heq. apply (prefixed (enc := encodeVarint)) in Heq as [-> ->]; [done|by apply Ha|by apply Hb].
  - symmetry in Heq. by apply Hr' in Heq.
  - by apply Hr in Heq.
  - done.
Qed.

Lemma no_tag_nil tag : no_tag tag [].
Proof. done. Qed.

Lemma no_tag_cons tag t r : byte_of_Z t <> byte_of_Z tag -> no_tag tag (byte_of_Z t :: r).
Proof. intros Hne r0 [= Heq _]. done. Qed.

Lemma no_tag_field_bytes tag t v r : byte_of_Z t <> byte_of_Z tag -> no_tag tag r -> no_tag tag (field_bytes t v ++ r).
Proof. unfold field_bytes. intros. destruct (decide _); [done|]. by apply no_tag_cons. Qed.

Lemma no_tag_field_strings tag t l r : byte_of_Z t <> byte_of_Z tag -> no_tag tag r -> no_tag tag (field_strings t l ++ r).
Proof. intros. destruct l; [done|]. by apply no_tag_cons. Qed.

Lemma no_tag_field_uint tag t v r : byte_of_Z t <> byte_of_Z tag -> no_tag tag r -> no_tag tag (field_uint t v ++ r).
Proof. unfold field_uint. intros. destruct (v =? 0); [done|]. by apply no_tag_cons. Qed.

Lemma no_tag_field_uint_end tag t v : byte_of_Z t <> byte_of_Z tag -> no_tag tag (field_uint t v).
Proof. intros. rewrite <- (app_nil_r (field_uint t v)). by apply no_tag_field_uint. Qed.

Lemma no_tag_field_option tag t o r : byte_of_Z t <> byte_of_Z tag -> no_tag tag r -> no_tag tag (field_option t o ++ r).
Proof. intros. destruct o; [by apply no_tag_cons|done]. Qed.

Lemma no_tag_field_bool tag t b : byte_of_Z t <> byte_of_Z tag -> no_tag tag (field_bool t b).
Proof. intros. destruct b; [by apply no_tag_cons|done]. Qed.

Create HintDb tags.
#[local] Hint Resolve no_tag_nil no_tag_field_bytes no_tag_field_strings no_tag_field_uint no_tag_field_uint_end no_tag_field_option
  no_tag_field_bool : tags.
#[local] Hint Extern 2 (byte_of_Z _ <> byte_of_Z _) => (vm_compute; discriminate) : tags.

(** The fields of a sign state have their width. *)
Definition sign_state_ok (m : RingReshareSignState) : Prop :=
  fits (ss_RingPk m) /\ Forall fits (ss_PeerNodeKeys m) /\ is_u64 (ss_Threshold m) /\ Forall fits (ss_NewPeerNodeKeys m) /\
  opt is_u64 (ss_NewThreshold m) /\ is_u64 (ss_BlockNumberNonce m) /\ fits (ss_PolicyId m) /\
  Forall fits (ss_TrustedAuthRelayDids m).

(** Cut one field off both sides. *)
Ltac cut_field lemma H E :=
  apply lemma in H as [E H]; [|solve [assumption|eauto 12 with tags]..].

Lemma RingReshareSignState_Marshal_inj m m' : sign_state_ok m -> sign_state_ok m' ->
  RingReshareSignState_Marshal m = RingReshareSignState_Marshal m' -> m = m'.
Proof.
  destruct m, m'. unfold sign_state_ok, RingReshareSignState_Marshal.
  cbn [ss_RingPk ss_PeerNodeKeys ss_Threshold ss_NewPeerNodeKeys ss_NewThreshold ss_BlockNumberNonce ss_PolicyId
       ss_TrustedAuthRelayDids ss_AllowTrustedAuthRelays].
  intros (? & ? & ? & ? & ? & ? & ? & ?) (? & ? & ? & ? & ? & ? & ? & ?) Heq.
  cut_field field_bytes_inj Heq E1. cut_field field_strings_inj Heq E2. cut_field field_uint_inj Heq E3.
  cut_field field_strings_inj Heq E4. cut_field field_option_inj Heq E5. cut_field field_uint_inj Heq E6.
  cut_field field_bytes_inj Heq E7. cut_field field_strings_inj Heq E8. subst. f_equal.
  by destruct ss_AllowTrustedAuthRelays0, ss_AllowTrustedAuthRelays1.
Qed.

Lemma sha256_fits msg : fits (sha256 msg).
Proof. unfold fits. by rewrite sha256_length. Qed.

Lemma RingReshareFinalizeSignDoc_Marshal_inj m m' :
  (forall d, d = m \/ d = m' -> fits (sd_Domain d) /\ fits (sd_ChainId d) /\ fits (sd_RingId d) /\ fits (sd_RingPk d) /\
     fits (sd_CurrentRingSha256 d) /\ fits (sd_FinalizedRingSha256 d) /\ is_u64 (sd_BlockNumberNonce d)) ->
  RingReshareFinalizeSignDoc_Marshal m = RingReshareFinalizeSignDoc_Marshal m' -> m = m'.
Proof.
  intros Hok. destruct (Hok m (or_introl eq_refl)) as (? & ? & ? & ? & ? & ? & ?).
  destruct (Hok m' (or_intror eq_refl)) as (? & ? & ? & ? & ? & ? & ?). clear Hok. destruct m, m'.
  unfold RingReshareFinalizeSignDoc_Marshal.
  cbn [sd_Domain sd_ChainId sd_RingId sd_RingPk sd_CurrentRingSha256 sd_FinalizedRingSha256 sd_BlockNumberNonce] in *.
  intros Heq. cut_field field_bytes_inj Heq E1. cut_field field_bytes_inj Heq E2. cut_field field_bytes_inj Heq E3.
  cut_field field_bytes_inj Heq E4. cut_field field_bytes_inj Heq E5. cut_field field_bytes_inj Heq E6.
  assert (Heq' : field_uint 56 sd_BlockNumberNonce0 ++ [] = field_uint 56 sd_BlockNumberNonce1 ++ []) by by rewrite !app_nil_r.
  cut_field field_uint_inj Heq' E7. by subst.
Qed.

(** What a document commits to: the chain, the ring with its key and its nonce, and the
    two states of the ring, before and after. *)
Definition committed (chainID : bytes) (current finalized : Ring) : bytes * bytes * bytes * Z * RingReshareSignState * RingReshareSignState :=
  (chainID, rg_Id current, RingPk current, BlockNumberNonce current, ringReshareSignState current, ringReshareSignState finalized).

Definition sign_doc_ok (chainID : bytes) (current finalized : Ring) : Prop :=
  fits chainID /\ fits (rg_Id current) /\ sign_state_ok (ringReshareSignState current) /\
  sign_state_ok (ringReshareSignState finalized).

(** The encoding of the state of a ring. *)
Definition state_bytes (r : Ring) : bytes := RingReshareSignState_Marshal (ringReshareSignState r).

(** A signature that finishes a reshare cannot be used for another one. If the
    documents for two reshares are the same, they are about the same chain, ring, key
    and nonce, and lead from the same state of the ring to the same state: otherwise
    SHA-256 maps the different encodings of two of the states to the same digest. *)
Theorem reshare_sign_bytes_bind chain cur fin chain' cur' fin' :
  sign_doc_ok chain cur fin -> sign_doc_ok chain' cur' fin' ->
  ringReshareFinalizeSignBytes chain cur fin = ringReshareFinalizeSignBytes chain' cur' fin' ->
  committed chain cur fin = committed chain' cur' fin' \/
  (state_bytes cur <> state_bytes cur' /\ sha256 (state_bytes cur) = sha256 (state_bytes cur')) \/
  (state_bytes fin <> state_bytes fin' /\ sha256 (state_bytes fin) = sha256 (state_bytes fin')).
Proof.
  intros (Hc & Hi & Hs & Hf) (Hc' & Hi' & Hs' & Hf') Heq.
  pose proof Hs as (? & _ & _ & _ & _ & ? & _). pose proof Hs' as (? & _ & _ & _ & _ & ? & _).
  apply RingReshareFinalizeSignDoc_Marshal_inj in Heq.
  2:{ intros d [->| ->]; cbn; split_and!; try done; first [apply sha256_fits|vm_compute; reflexivity]. }
  pose proof (f_equal sd_ChainId Heq) as Ec. pose proof (f_equal sd_RingId Heq) as Ei.
  pose proof (f_equal sd_RingPk Heq) as Ek. pose proof (f_equal sd_BlockNumberNonce Heq) as En.
  pose proof (f_equal sd_CurrentRingSha256 Heq) as Hcur. pose proof (f_equal sd_FinalizedRingSha256 Heq) as Hfin.
  cbn [sd_ChainId sd_RingId sd_RingPk sd_CurrentRingSha256 sd_FinalizedRingSha256 sd_BlockNumberNonce] in *. clear Heq.
  destruct (decide (state_bytes cur = state_bytes cur')) as [E1|]; [|by right; left].
  destruct (decide (state_bytes fin = state_bytes fin')) as [E2|]; [|by right; right].
  apply RingReshareSignState_Marshal_inj in E1, E2; try done. left. unfold committed. congruence.
Qed.
