(* ===== verification/OrbisReport.v ===== *)
(** Fault reports of the orbis module (keeper/report.go), without the store: the
    canonical writer and decoder, the envelope with its id, and the payloads.

    A report accuses a node of a ring. Its payload carries the evidence: for an
    invalid response a statement that the accused node signed, in one of twelve
    forms. The chain reads these statements only to bind them to the envelope; what
    authenticates a report is the ring's threshold signature over the envelope.

    A decoder is a computation on the bytes that are left. Every error of this file
    is [ErrInvalidReport]: the labels of the fields only go into its text. *)
From Stdlib Require Import Ascii ZArith Lia.
From stdpp Require Import base numbers list gmap strings sorting.
From S2P Require Import Prelude Sdk Sha256 Utils Json GoText Canonical OrbisTypes OrbisIds OrbisRing.

(** * The canonical writer *)

(** The bytes so far, and whether something was too long. *)
Record reportCanonicalWriter : Type := mkWriter { w_bytes : bytes; w_err : bool }.

Definition newReportCanonicalWriter : reportCanonicalWriter := mkWriter [] false.

Definition append (bz : bytes) (w : reportCanonicalWriter) : reportCanonicalWriter := mkWriter (w_bytes w ++ bz) (w_err w).
Definition setErr (w : reportCanonicalWriter) : reportCanonicalWriter := mkWriter (w_bytes w) true.

Definition len {A} (l : list A) : Z := Z.of_nat (length l).

Definition w_writeU32 (value : Z) : reportCanonicalWriter -> reportCanonicalWriter := append (enc_u32 value).
Definition w_writeU64 (value : Z) : reportCanonicalWriter -> reportCanonicalWriter := append (enc_u64 value).
Definition w_writeBool (value : bool) : reportCanonicalWriter -> reportCanonicalWriter := append (enc_bool value).

Definition w_writeBytes (value : bytes) (w : reportCanonicalWriter) : reportCanonicalWriter :=
  if 2 ^ 32 - 1 <? len value then setErr w
  else append value (w_writeU32 (len value) w).
Definition w_writeString (value : bytes) (w : reportCanonicalWriter) : reportCanonicalWriter := w_writeBytes value w.

Definition w_writeStringSlice (values : list bytes) (w : reportCanonicalWriter) : reportCanonicalWriter :=
  if 2 ^ 32 - 1 <? len values then setErr w
  else foldl (fun w value => w_writeString value w) (w_writeU32 (len values) w) values.

Definition w_writeOptional {A} (write : A -> reportCanonicalWriter -> reportCanonicalWriter) (value : option A)
    (w : reportCanonicalWriter) : reportCanonicalWriter :=
  match value with
  | None => append (enc_byte 0) w
  | Some v => write v (append (enc_byte 1) w)
  end.

Definition w_writeDemeritConfig (value : DemeritConfig) (w : reportCanonicalWriter) : reportCanonicalWriter :=
  let w := w_writeU64 (NodeOfflineDemerits value) w in
  let w := w_writeU64 (ResetIntervalSeconds value) w in
  let w := w_writeU64 (InvalidCryptoResponseDemerits value) w in
  w_writeU64 (UnauthorizedRequestDemerits value) w.

Definition w_writeReportingConfig (value : ReportingConfig) (w : reportCanonicalWriter) : reportCanonicalWriter :=
  let w := w_writeDemeritConfig (rep_DemeritConfig value) w in
  let w := w_writeStringSlice (BackupNodeKeys value) w in
  w_writeU64 (rep_KickThreshold value) w.

Definition w_finish (w : reportCanonicalWriter) : outcome bytes :=
  if w_err w then Err ErrInvalidReport else Ok (w_bytes w).

(** * The canonical decoder *)

Abbreviation Decoder := (M bytes).

Definition truncated {A} : Decoder A := throw ErrInvalidReport.

Definition readFixed (n : nat) : Decoder bytes := fun d =>
  if decide (length d < n)%nat then (Err ErrInvalidReport, d) else (Ok (take n d), drop n d).

Definition readByte : Decoder Z := bz <- readFixed 1 ;; ret (be_uint64 bz).
Definition readFixed32 : Decoder bytes := readFixed 32.
Definition readU32 : Decoder Z := bz <- readFixed 4 ;; ret (be_uint64 bz).
Definition readU64 : Decoder Z := bz <- readFixed 8 ;; ret (be_uint64 bz).

Definition readByteBool : Decoder bool :=
  value <- readByte ;;
  if value =? 0 then ret false else if value =? 1 then ret true else truncated.

Definition readBytes : Decoder bytes :=
  size <- readU32 ;;
  left <- gets (fun d => len d) ;;
  if left <? size then truncated else readFixed (Z.to_nat size).

Definition readString : Decoder bytes :=
  value <- readBytes ;;
  if utf8_Valid value then ret value else truncated.

Definition readOptional {A} (read : Decoder A) : Decoder (option A) :=
  tag <- readByte ;;
  if tag =? 0 then ret None
  else if tag =? 1 then value <- read ;; ret (Some value)
  else truncated.

(** [readOptionalBytes] returns nil for an absent value. *)
Definition readOptionalBytes : Decoder bytes := value <- readOptional readBytes ;; ret (default [] value).
Definition readOptionalU64 : Decoder (option Z) := readOptional readU64.

Definition finish : Decoder unit := fun d => if decide (d = []) then (Ok tt, d) else (Err ErrInvalidReport, d).

(** A decoder that is run on its own bytes. *)
Definition decode {A} (m : Decoder A) (bz : bytes) : outcome A := (m bz).1.

(** A list of reasons to reject a statement. *)
Definition reject_any (reasons : list bool) : outcome unit := reject_if (existsb Datatypes.id reasons) ErrInvalidReport.

(** * Names and bounds *)

Definition ReportDomain : bytes := lit "orbis-mpc-fault-report".
Definition ReportSessionDomain : bytes := lit "orbis-mpc-fault-report-session".
Definition ReportTTLSeconds : Z := 120.
Definition PreReencryptResponseDomain : bytes := lit "orbis-pre-reencrypt-response-v1".
Definition SignResponseDomain : bytes := lit "orbis-sign-response-v1".
Definition PetBlindRevealResponseDomain : bytes := lit "orbis-pet-blind-reveal-response-v2".
Definition PetBlindDecryptResponseDomain : bytes := lit "orbis-pet-blind-decrypt-response-v2".
Definition DkgCommitmentDomain : bytes := lit "orbis-dkg-commitment-v1".
Definition DkgShareDomain : bytes := lit "orbis-dkg-share-v1".
Definition DkgPublicOriginFaultDomain : bytes := lit "orbis-dkg-public-origin-fault-v1".
Definition DkgLeaderEquivocationDomain : bytes := lit "orbis-dkg-leader-equivocation-v1".
Definition DkgLeaderBatchMismatchDomain : bytes := lit "orbis-dkg-leader-batch-mismatch-v1".
Definition DkgControlMessageFaultDomain : bytes := lit "orbis-dkg-control-message-fault-v1".
Definition DkgLeaderPublicFaultDomain : bytes := lit "orbis-dkg-leader-public-fault-v1".
Definition RelayRequestDomain : bytes := lit "orbis-relay-request-v1".
Definition relayCheckMaxDriftSecs : Z := 30.
Definition reportObservedAtGraceSecs : Z := 10.

Definition preResponseMaxElementLen : Z := 512.
Definition preResponseMaxDerivationLen : Z := 4096.
Definition signResponseMaxElementLen : Z := 4096.
Definition signResponseMaxMessageLen : Z := 1024 * 1024.
Definition signResponseMaxCommitmentsLen : Z := 1024 * 1024.
Definition dkgStatementMaxLen : Z := 1024 * 1024.
Definition dkgCommitmentMaxLen : Z := 1024 * 1024.
Definition dkgShareMaxElementLen : Z := 4096.
Definition dkgNonceLen : Z := 16.
Definition petBlindMaxElementLen : Z := 512.

Definition offlineOriginProtocolPRE : bytes := lit "pre".
Definition offlineOriginProtocolSign : bytes := lit "sign".
Definition offlineOriginProtocolPSSRefresh : bytes := lit "pss_refresh".
Definition offlineOriginProtocolPSSReshare : bytes := lit "pss_reshare".
Definition originProtocolReport : bytes := lit "report".

Definition evidenceKindPRE : bytes := lit "pre".
Definition evidenceKindSign : bytes := lit "sign".
Definition evidenceKindPetBlindReveal : bytes := lit "pet_blind_reveal".
Definition evidenceKindPetBlindDecrypt : bytes := lit "pet_blind_decrypt".
Definition evidenceKindDkgShare : bytes := lit "dkg_share".
Definition evidenceKindDkgInvalidRefreshCommitment : bytes := lit "dkg_invalid_refresh_commitment".
Definition evidenceKindDkgEquivocation : bytes := lit "dkg_equivocation".
Definition evidenceKindDkgPublicOriginFault : bytes := lit "dkg_public_origin_fault".
Definition evidenceKindDkgLeaderEquivocation : bytes := lit "dkg_leader_equivocation".
Definition evidenceKindDkgControlMessageFault : bytes := lit "dkg_control_message_fault".
Definition evidenceKindDkgLeaderPublicFault : bytes := lit "dkg_leader_public_fault".
Definition evidenceKindDkgLeaderBatchMismatch : bytes := lit "dkg_leader_batch_mismatch".

Definition faultKindInvalidPayload : bytes := lit "invalid_payload".
Definition faultKindOriginEquivocation : bytes := lit "origin_equivocation".
Definition faultKindLeaderPrepareFault : bytes := lit "leader_prepare_fault".
Definition faultKindAckEquivocation : bytes := lit "ack_equivocation".
Definition faultKindOversizedRepairPage : bytes := lit "oversized_repair_page".
Definition faultKindInvalidManifest : bytes := lit "invalid_manifest".
Definition faultKindChunkIndexOutOfRange : bytes := lit "chunk_index_out_of_range".
Definition faultKindOversizedChunk : bytes := lit "oversized_chunk".
Definition faultKindDuplicateChunkOrigin : bytes := lit "duplicate_chunk_origin".

Definition committeeScopeCurrent : Z := 1.
Definition committeeScopePendingNew : Z := 2.

(** Equality of names, as conditions. *)
Definition same (a b : bytes) : bool := bool_decide (a = b).
Definition differs (a b : bytes) : bool := negb (same a b).
Definition blank (a : bytes) : bool := same a [].

Definition isValidReportCommitteeScope (scope : Z) : bool :=
  (scope =? committeeScopeCurrent) || (scope =? committeeScopePendingNew).

Definition isValidOfflineOriginProtocol (originProtocol : bytes) : bool :=
  same originProtocol offlineOriginProtocolPRE || same originProtocol offlineOriginProtocolSign ||
  same originProtocol offlineOriginProtocolPSSRefresh || same originProtocol offlineOriginProtocolPSSReshare.

Definition isValidInvalidCryptoOriginProtocol (evidenceKind originProtocol : bytes) : bool :=
  if same originProtocol offlineOriginProtocolPRE then same evidenceKind evidenceKindPRE
  else if same originProtocol offlineOriginProtocolSign || same originProtocol offlineOriginProtocolPSSRefresh ||
          same originProtocol offlineOriginProtocolPSSReshare || same originProtocol originProtocolReport
  then same evidenceKind evidenceKindSign
  else false.

Definition isValidInvalidCryptoDkgOriginProtocol (originProtocol : bytes) : bool :=
  same originProtocol offlineOriginProtocolPSSRefresh || same originProtocol offlineOriginProtocolPSSReshare.

Definition isDkgPublicOriginPhase (phase : bytes) : bool :=
  same phase (lit "commitments") || same phase (lit "commitment_audit") || same phase (lit "refresh_health_check") ||
  same phase (lit "reshare_participant_set").

Definition isDkgControlAckMessageKind (messageKind : bytes) : bool :=
  same messageKind (lit "prepared") || same messageKind (lit "activated") || same messageKind (lit "begun").

Definition absDiffUint64 (a b : Z) : Z := if b <? a then a - b else b - a.

(** * Statements *)

Record reportPayload : Type := mkReportPayload {
  pl_originProtocol : bytes; pl_originProtocolVersion : Z;
  pl_accusedCommitteeScope : Z; pl_signingCommitteeScope : Z; pl_attemptID : bytes;
}.

Record invalidCryptoResponseStatement : Type := mkStatement {
  st_chainID : bytes; st_ringID : bytes; st_ringPk : bytes; st_ringStateSha256 : bytes; st_protocolVersion : Z;
  st_requestID : bytes; st_signedAt : Z; st_responderNodeKey : bytes; st_originProtocol : bytes;
  st_accusedCommitteeScope : Z; st_signingCommitteeScope : Z;
  st_endpointOrigin : bytes; st_attemptID : bytes;
}.

(** A commitment: the statement about it, and the fields it is compared by. *)
Record dkgCommitmentStatement : Type := mkCommitmentStatement {
  dc_statement : invalidCryptoResponseStatement;
  dc_fromNodeID : Z; dc_commitment : bytes; dc_sessionNonce : bytes; dc_cryptoBackend : bytes;
}.

Record relayRequestStatement : Type := mkRelayRequest {
  rr_chainID : bytes; rr_ringID : bytes; rr_ringPk : bytes; rr_ringStateSha256 : bytes; rr_protocolVersion : Z;
  rr_requestID : bytes; rr_signedAt : Z; rr_relayerNodeKey : bytes; rr_originProtocol : bytes;
  rr_accusedCommitteeScope : Z; rr_signingCommitteeScope : Z;
}.

(** The statement with where it came from and its attempt. *)
Definition with_origin (endpointOrigin attemptID : bytes) (s : invalidCryptoResponseStatement)
    : invalidCryptoResponseStatement :=
  mkStatement (st_chainID s) (st_ringID s) (st_ringPk s) (st_ringStateSha256 s) (st_protocolVersion s)
    (st_requestID s) (st_signedAt s) (st_responderNodeKey s) (st_originProtocol s)
    (st_accusedCommitteeScope s) (st_signingCommitteeScope s) endpointOrigin attemptID.

(** * Decoding payloads *)

Definition expectDomain (domain : bytes) : Decoder unit :=
  found <- readString ;;
  throw_if (differs found domain) ErrInvalidReport.

Definition readScope : Decoder Z :=
  scope <- readByte ;;
  throw_if (negb (isValidReportCommitteeScope scope)) ErrInvalidReport ;;;
  ret scope.

Definition decodeNodeOfflinePayload : Decoder reportPayload :=
  originProtocol <- readString ;;
  originProtocolVersion <- readU64 ;;
  accusedScope <- readScope ;;
  signingScope <- readScope ;;
  finish ;;;
  ret (mkReportPayload originProtocol originProtocolVersion accusedScope signingScope []).

(** What most statements start with, after their domain. *)
Definition readHeader : Decoder invalidCryptoResponseStatement :=
  chainID <- readString ;;
  ringID <- readString ;;
  ringPk <- readString ;;
  ringStateSha256 <- readString ;;
  protocolVersion <- readU64 ;;
  requestID <- readString ;;
  signedAt <- readU64 ;;
  responderNodeKey <- readString ;;
  originProtocol <- readString ;;
  ret (mkStatement chainID ringID ringPk ringStateSha256 protocolVersion requestID signedAt responderNodeKey
         originProtocol committeeScopeCurrent committeeScopeCurrent [] []).

Definition with_scopes (accusedScope signingScope : Z) (s : invalidCryptoResponseStatement)
    : invalidCryptoResponseStatement :=
  mkStatement (st_chainID s) (st_ringID s) (st_ringPk s) (st_ringStateSha256 s) (st_protocolVersion s)
    (st_requestID s) (st_signedAt s) (st_responderNodeKey s) (st_originProtocol s)
    accusedScope signingScope (st_endpointOrigin s) (st_attemptID s).

Definition decodeDkgStatementHeader (expectedDomain : bytes) : Decoder invalidCryptoResponseStatement :=
  expectDomain expectedDomain ;;;
  statement <- readHeader ;;
  accusedScope <- readScope ;;
  signingScope <- readScope ;;
  ret (with_scopes accusedScope signingScope statement).

(** A contribution that an endpoint signed; only its origin is used. *)
Definition decodeEndpointSignedContribution : Decoder bytes :=
  origin <- readBytes ;;
  signature <- readBytes ;;
  data <- readBytes ;;
  throw_if (negb (len origin =? 32) || negb (len signature =? 64) || (len data =? 0) || (dkgStatementMaxLen <? len data))
    ErrInvalidReport ;;;
  ret origin.

Definition decodeControlMessageArtifact : Decoder unit :=
  signature <- readBytes ;;
  data <- readBytes ;;
  _ <- readU64 ;;
  throw_if (negb (len signature =? 64)) ErrInvalidReport ;;;
  throw_if ((len data =? 0) || (dkgStatementMaxLen <? len data)) ErrInvalidReport.

(** A second part behind a presence byte. *)
Definition readSecond {A} (read : Decoder A) : Decoder (option A) := readOptional read.

(** The conditions on identities and scopes that the statements about leaders share. *)
Definition dkg_scope_faults (s : invalidCryptoResponseStatement) : list bool :=
  [ blank (st_requestID s) || blank (st_responderNodeKey s);
    negb (isValidInvalidCryptoDkgOriginProtocol (st_originProtocol s));
    negb (st_signingCommitteeScope s =? committeeScopeCurrent);
    same (st_originProtocol s) offlineOriginProtocolPSSRefresh &&
      negb (st_accusedCommitteeScope s =? committeeScopeCurrent) ].

Definition leader_scope_fault (s : invalidCryptoResponseStatement) : bool :=
  same (st_originProtocol s) offlineOriginProtocolPSSReshare &&
  negb (st_accusedCommitteeScope s =? committeeScopePendingNew).

Definition decodeDkgPublicOriginFaultStatement : Decoder invalidCryptoResponseStatement :=
  statement <- decodeDkgStatementHeader DkgPublicOriginFaultDomain ;;
  attemptID <- readBytes ;;
  phase <- readString ;;
  faultKind <- readString ;;
  contributionAOrigin <- decodeEndpointSignedContribution ;;
  contributionB <- readSecond decodeEndpointSignedContribution ;;
  finish ;;;
  let second := bool_decide (is_Some contributionB) in
  of_outcome (reject_any
    ([ negb (len attemptID =? 32) ] ++ dkg_scope_faults statement ++
     [ negb (isDkgPublicOriginPhase phase);
       same faultKind faultKindInvalidPayload && second;
       same faultKind faultKindOriginEquivocation && negb second;
       same faultKind faultKindOriginEquivocation && same phase (lit "commitments");
       differs faultKind faultKindInvalidPayload && differs faultKind faultKindOriginEquivocation;
       match contributionB with Some contributionBOrigin => differs contributionAOrigin contributionBOrigin | None => false end ])) ;;;
  ret (with_origin contributionAOrigin attemptID statement).

(** The equivocation of a leader, and its batch mismatch, which differs in the domain. *)
Definition decodeDkgLeaderDeliveries (domain : bytes) : Decoder invalidCryptoResponseStatement :=
  statement <- decodeDkgStatementHeader domain ;;
  attemptID <- readBytes ;;
  phase <- readString ;;
  deliveryIDA <- readBytes ;;
  deliveryAOrigin <- decodeEndpointSignedContribution ;;
  deliveryIDB <- readBytes ;;
  deliveryBOrigin <- decodeEndpointSignedContribution ;;
  finish ;;;
  of_outcome (reject_any
    ([ negb (len attemptID =? 32); negb (len deliveryIDA =? 16) || negb (len deliveryIDB =? 16) ] ++
     dkg_scope_faults statement ++
     [ leader_scope_fault statement; negb (isDkgPublicOriginPhase phase);
       differs deliveryAOrigin deliveryBOrigin; same deliveryIDA deliveryIDB ])) ;;;
  ret (with_origin deliveryAOrigin attemptID statement).

Definition decodeDkgLeaderEquivocationStatement : Decoder invalidCryptoResponseStatement :=
  decodeDkgLeaderDeliveries DkgLeaderEquivocationDomain.
Definition decodeDkgLeaderBatchMismatchStatement : Decoder invalidCryptoResponseStatement :=
  decodeDkgLeaderDeliveries DkgLeaderBatchMismatchDomain.

Definition decodeDkgLeaderPublicFaultStatement : Decoder invalidCryptoResponseStatement :=
  statement <- decodeDkgStatementHeader DkgLeaderPublicFaultDomain ;;
  attemptID <- readBytes ;;
  phase <- readString ;;
  faultKind <- readString ;;
  deliveryID <- readBytes ;;
  deliveryOrigin <- decodeEndpointSignedContribution ;;
  finish ;;;
  of_outcome (reject_any
    ([ negb (len attemptID =? 32); negb (len deliveryID =? 16) ] ++ dkg_scope_faults statement ++
     [ leader_scope_fault statement; negb (isDkgPublicOriginPhase phase);
       differs faultKind faultKindInvalidManifest && differs faultKind faultKindChunkIndexOutOfRange &&
       differs faultKind faultKindOversizedChunk && differs faultKind faultKindDuplicateChunkOrigin ])) ;;;
  ret (with_origin deliveryOrigin attemptID statement).

Definition decodeDkgControlMessageFaultStatement : Decoder invalidCryptoResponseStatement :=
  statement <- decodeDkgStatementHeader DkgControlMessageFaultDomain ;;
  attemptID <- readBytes ;;
  messageKind <- readString ;;
  faultKind <- readString ;;
  decodeControlMessageArtifact ;;;
  artifactB <- readSecond decodeControlMessageArtifact ;;
  finish ;;;
  let second := bool_decide (is_Some artifactB) in
  of_outcome (reject_any
    ([ negb (len attemptID =? 32) ] ++ dkg_scope_faults statement ++
     [ (same faultKind faultKindLeaderPrepareFault || same faultKind faultKindOversizedRepairPage) &&
         leader_scope_fault statement;
       same faultKind faultKindLeaderPrepareFault && differs messageKind (lit "prepare");
       same faultKind faultKindLeaderPrepareFault && second;
       same faultKind faultKindAckEquivocation && negb (isDkgControlAckMessageKind messageKind);
       same faultKind faultKindAckEquivocation && negb second;
       same faultKind faultKindOversizedRepairPage && differs messageKind (lit "public_phase_response");
       same faultKind faultKindOversizedRepairPage && second;
       differs faultKind faultKindLeaderPrepareFault && differs faultKind faultKindAckEquivocation &&
       differs faultKind faultKindOversizedRepairPage ])) ;;;
  ret (with_origin (st_endpointOrigin statement) attemptID statement).

(** The size bounds of a list of elements that must not be empty. *)
Definition element_faults (bound : Z) (blobs : list bytes) : list bool :=
  (fun blob => (len blob =? 0) || (bound <? len blob)) <$> blobs.

Definition decodePreReencryptResponseStatement : Decoder invalidCryptoResponseStatement :=
  expectDomain PreReencryptResponseDomain ;;;
  statement <- readHeader ;;
  throw_if (negb (isValidInvalidCryptoOriginProtocol evidenceKindPRE (st_originProtocol statement))) ErrInvalidReport ;;;
  objectID <- readString ;;
  throw_if (blank (st_requestID statement) || blank (st_responderNodeKey statement) || blank objectID) ErrInvalidReport ;;;
  rdrPk <- readBytes ;;
  derivation <- readOptionalBytes ;;
  throw_if (preResponseMaxDerivationLen <? len derivation) ErrInvalidReport ;;;
  _ <- readU32 ;;
  share <- readBytes ;;
  challenge <- readBytes ;;
  proof <- readBytes ;;
  cryptoBackend <- readString ;;
  throw_if (blank cryptoBackend) ErrInvalidReport ;;;
  _ <- readOptionalU64 ;;
  _ <- readByteBool ;;
  finish ;;;
  of_outcome (reject_any (element_faults preResponseMaxElementLen [rdrPk; share; challenge; proof])) ;;;
  ret statement.

Definition decodeSignResponseStatement : Decoder invalidCryptoResponseStatement :=
  expectDomain SignResponseDomain ;;;
  statement <- readHeader ;;
  throw_if (negb (isValidInvalidCryptoOriginProtocol evidenceKindSign (st_originProtocol statement))) ErrInvalidReport ;;;
  accusedScope <- readScope ;;
  signingScope <- readScope ;;
  _ <- readU32 ;;
  message <- readBytes ;;
  signingCommitments <- readBytes ;;
  derivation <- readOptionalBytes ;;
  metadata <- readOptionalBytes ;;
  sigShare <- readBytes ;;
  cryptoBackend <- readString ;;
  finish ;;;
  of_outcome (reject_any
    [ blank (st_requestID statement) || blank (st_responderNodeKey statement); blank cryptoBackend;
      len message =? 0; signResponseMaxMessageLen <? len message;
      signResponseMaxCommitmentsLen <? len signingCommitments;
      signResponseMaxElementLen <? len derivation; signResponseMaxElementLen <? len metadata;
      len sigShare =? 0; signResponseMaxElementLen <? len sigShare ]) ;;;
  ret (with_scopes accusedScope signingScope statement).

(** The statements of the blind equality test name the attempt where others name the
    request, and come without a protocol. *)
Definition readPetHeader (domain : bytes) : Decoder (Z -> bytes -> bytes -> invalidCryptoResponseStatement) :=
  expectDomain domain ;;;
  chainID <- readString ;;
  ringID <- readString ;;
  ringPk <- readString ;;
  ringStateSha256 <- readString ;;
  protocolVersion <- readU64 ;;
  attemptID <- readString ;;
  ret (fun signedAt responderNodeKey originProtocol =>
         mkStatement chainID ringID ringPk ringStateSha256 protocolVersion attemptID signedAt responderNodeKey
           originProtocol committeeScopeCurrent committeeScopeCurrent [] []).

Definition decodePetBlindRevealStatement : Decoder invalidCryptoResponseStatement :=
  header <- readPetHeader PetBlindRevealResponseDomain ;;
  _ <- readFixed32 ;;
  _ <- readFixed32 ;;
  responderNodeKey <- readString ;;
  let attemptID := st_requestID (header 0 responderNodeKey evidenceKindPetBlindReveal) in
  throw_if (blank attemptID || blank responderNodeKey) ErrInvalidReport ;;;
  throw_if (petBlindMaxElementLen <? len attemptID) ErrInvalidReport ;;;
  _ <- readU32 ;;
  commitment <- readBytes ;;
  blindedR <- readBytes ;;
  blindedDiff <- readBytes ;;
  _ <- readFixed32 ;;
  challenge <- readBytes ;;
  proof <- readBytes ;;
  signedAt <- readU64 ;;
  finish ;;;
  of_outcome (reject_any
    (element_faults petBlindMaxElementLen [commitment; blindedR; challenge; proof] ++
     [ petBlindMaxElementLen <? len blindedDiff ])) ;;;
  ret (header signedAt responderNodeKey evidenceKindPetBlindReveal).

Definition decodePetBlindDecryptStatement : Decoder invalidCryptoResponseStatement :=
  header <- readPetHeader PetBlindDecryptResponseDomain ;;
  _ <- readFixed32 ;;
  _ <- readFixed32 ;;
  responderNodeKey <- readString ;;
  let attemptID := st_requestID (header 0 responderNodeKey evidenceKindPetBlindDecrypt) in
  throw_if (blank attemptID || blank responderNodeKey) ErrInvalidReport ;;;
  _ <- readU32 ;;
  aggregateR <- readBytes ;;
  aggregateDiff <- readBytes ;;
  partial <- readBytes ;;
  challenge <- readBytes ;;
  proof <- readBytes ;;
  signedAt <- readU64 ;;
  publicPolynomial <- readBytes ;;
  finish ;;;
  of_outcome (reject_any
    (element_faults petBlindMaxElementLen [aggregateR; partial; challenge; proof] ++
     [ petBlindMaxElementLen <? len aggregateDiff; len publicPolynomial =? 0; dkgCommitmentMaxLen <? len publicPolynomial ])) ;;;
  ret (header signedAt responderNodeKey evidenceKindPetBlindDecrypt).

Definition current_scopes (s : invalidCryptoResponseStatement) : bool :=
  (st_accusedCommitteeScope s =? committeeScopeCurrent) && (st_signingCommitteeScope s =? committeeScopeCurrent).

Definition decodeDkgCommitment : Decoder dkgCommitmentStatement :=
  expectDomain DkgCommitmentDomain ;;;
  statement <- readHeader ;;
  throw_if (negb (isValidInvalidCryptoDkgOriginProtocol (st_originProtocol statement))) ErrInvalidReport ;;;
  accusedScope <- readScope ;;
  signingScope <- readScope ;;
  let statement := with_scopes accusedScope signingScope statement in
  fromNodeID <- readU32 ;;
  commitment <- readBytes ;;
  sessionNonce <- readBytes ;;
  attemptID <- readBytes ;;
  cryptoBackend <- readString ;;
  finish ;;;
  of_outcome (reject_any
    [ blank (st_requestID statement) || blank (st_responderNodeKey statement); negb (current_scopes statement);
      fromNodeID =? 0; len commitment =? 0; dkgCommitmentMaxLen <? len commitment;
      negb (len sessionNonce =? dkgNonceLen); negb (len attemptID =? 32); blank cryptoBackend ]) ;;;
  ret (mkCommitmentStatement (with_origin [] attemptID statement) fromNodeID commitment sessionNonce cryptoBackend).

Definition decodeDkgCommitmentStatement (statementBytes : bytes) : outcome dkgCommitmentStatement :=
  _ ← reject_if (dkgStatementMaxLen <? len statementBytes) ErrInvalidReport;
  decode decodeDkgCommitment statementBytes.

(** Statements that agree in all that binds them to a report and a ceremony. *)
Definition same_binding (a b : invalidCryptoResponseStatement) : bool :=
  same (st_chainID a) (st_chainID b) && same (st_ringID a) (st_ringID b) && same (st_ringPk a) (st_ringPk b) &&
  same (st_ringStateSha256 a) (st_ringStateSha256 b) && (st_protocolVersion a =? st_protocolVersion b) &&
  same (st_requestID a) (st_requestID b) && same (st_responderNodeKey a) (st_responderNodeKey b) &&
  same (st_originProtocol a) (st_originProtocol b) &&
  (st_accusedCommitteeScope a =? st_accusedCommitteeScope b) &&
  (st_signingCommitteeScope a =? st_signingCommitteeScope b).

Definition decodeDkgShare : Decoder (invalidCryptoResponseStatement * Z * bytes * bytes) :=
  expectDomain DkgShareDomain ;;;
  chainID <- readString ;;
  ringID <- readString ;;
  ringPk <- readString ;;
  ringStateSha256 <- readString ;;
  protocolVersion <- readU64 ;;
  requestID <- readString ;;
  signedAt <- readU64 ;;
  responderNodeKey <- readString ;;
  receiverNodeKey <- readString ;;
  originProtocol <- readString ;;
  throw_if (negb (isValidInvalidCryptoDkgOriginProtocol originProtocol)) ErrInvalidReport ;;;
  accusedScope <- readScope ;;
  signingScope <- readScope ;;
  let statement := mkStatement chainID ringID ringPk ringStateSha256 protocolVersion requestID signedAt
                     responderNodeKey originProtocol accusedScope signingScope [] [] in
  fromNodeID <- readU32 ;;
  toNodeID <- readU32 ;;
  commitmentStatementBytes <- readBytes ;;
  commitmentSignature <- readBytes ;;
  shareValue <- readBytes ;;
  nonce <- readBytes ;;
  cryptoBackend <- readString ;;
  finish ;;;
  of_outcome (reject_any
    [ blank requestID || blank responderNodeKey || blank receiverNodeKey; negb (current_scopes statement);
      (fromNodeID =? 0) || (toNodeID =? 0); len commitmentStatementBytes =? 0;
      dkgStatementMaxLen <? len commitmentStatementBytes; negb (len commitmentSignature =? 64);
      len shareValue =? 0; dkgShareMaxElementLen <? len shareValue; negb (len nonce =? dkgNonceLen);
      blank cryptoBackend ]) ;;;
  ret (statement, fromNodeID, commitmentStatementBytes, cryptoBackend).

Definition decodeDkgShareStatement (statementBytes : bytes) : outcome invalidCryptoResponseStatement :=
  _ ← reject_if (dkgStatementMaxLen <? len statementBytes) ErrInvalidReport;
  share ← decode decodeDkgShare statementBytes;
  let '(statement, fromNodeID, commitmentStatementBytes, cryptoBackend) := share in
  commitment ← decodeDkgCommitmentStatement commitmentStatementBytes;
  _ ← reject_if (negb (same_binding (dc_statement commitment) statement && (dc_fromNodeID commitment =? fromNodeID) &&
                       same (dc_cryptoBackend commitment) cryptoBackend)) ErrInvalidReport;
  _ ← reject_if (st_signedAt statement <? st_signedAt (dc_statement commitment)) ErrInvalidReport;
  Ok (with_origin [] (st_attemptID (dc_statement commitment)) statement).

Definition decodeDkgInvalidRefreshCommitmentStatement (statementBytes : bytes) : outcome invalidCryptoResponseStatement :=
  commitment ← decodeDkgCommitmentStatement statementBytes;
  _ ← reject_if (differs (st_originProtocol (dc_statement commitment)) offlineOriginProtocolPSSRefresh) ErrInvalidReport;
  Ok (dc_statement commitment).

Definition with_signedAt (signedAt : Z) (s : invalidCryptoResponseStatement) : invalidCryptoResponseStatement :=
  mkStatement (st_chainID s) (st_ringID s) (st_ringPk s) (st_ringStateSha256 s) (st_protocolVersion s)
    (st_requestID s) signedAt (st_responderNodeKey s) (st_originProtocol s)
    (st_accusedCommitteeScope s) (st_signingCommitteeScope s) (st_endpointOrigin s) (st_attemptID s).

Definition decodeDkgEquivocationStatements (aBytes aSignature bBytes bSignature : bytes)
    : outcome invalidCryptoResponseStatement :=
  _ ← reject_if (negb (len aSignature =? 64)) ErrInvalidReport;
  _ ← reject_if (negb (len bSignature =? 64)) ErrInvalidReport;
  a ← decodeDkgCommitmentStatement aBytes;
  b ← decodeDkgCommitmentStatement bBytes;
  let sa := dc_statement a in
  let sb := dc_statement b in
  _ ← reject_if (negb (same_binding sa sb && (dc_fromNodeID a =? dc_fromNodeID b) &&
                       same (st_attemptID sa) (st_attemptID sb) && same (dc_cryptoBackend a) (dc_cryptoBackend b)))
        ErrInvalidReport;
  _ ← reject_if (differs (dc_sessionNonce a) (dc_sessionNonce b)) ErrInvalidReport;
  _ ← reject_if (same (dc_commitment a) (dc_commitment b)) ErrInvalidReport;
  Ok (with_signedAt (Z.max (st_signedAt sa) (st_signedAt sb)) sa).

(** One statement with the signature of the accused node. *)
Definition decodeSingleStatementTail : Decoder (bytes * bytes) :=
  statementBytes <- readBytes ;;
  responseSignature <- readBytes ;;
  finish ;;;
  ret (statementBytes, responseSignature).

Definition decodeSigned (k : bytes -> outcome invalidCryptoResponseStatement) : Decoder invalidCryptoResponseStatement :=
  letp (statementBytes, responseSignature) <- decodeSingleStatementTail ;;
  throw_if (negb (len responseSignature =? 64)) ErrInvalidReport ;;;
  of_outcome (k statementBytes).

Definition decodeUnsigned (m : Decoder invalidCryptoResponseStatement) : Decoder invalidCryptoResponseStatement :=
  statementBytes <- readBytes ;;
  finish ;;;
  of_outcome (decode m statementBytes).

Definition decodeInvalidCryptoResponsePayload : Decoder invalidCryptoResponseStatement :=
  evidenceKind <- readString ;;
  if same evidenceKind evidenceKindPRE then decodeSigned (decode decodePreReencryptResponseStatement)
  else if same evidenceKind evidenceKindSign then decodeSigned (decode decodeSignResponseStatement)
  else if same evidenceKind evidenceKindPetBlindReveal then decodeSigned (decode decodePetBlindRevealStatement)
  else if same evidenceKind evidenceKindPetBlindDecrypt then decodeSigned (decode decodePetBlindDecryptStatement)
  else if same evidenceKind evidenceKindDkgShare then decodeSigned decodeDkgShareStatement
  else if same evidenceKind evidenceKindDkgInvalidRefreshCommitment then
    decodeSigned decodeDkgInvalidRefreshCommitmentStatement
  else if same evidenceKind evidenceKindDkgEquivocation then
    aBytes <- readBytes ;;
    aSignature <- readBytes ;;
    bBytes <- readBytes ;;
    bSignature <- readBytes ;;
    finish ;;;
    of_outcome (decodeDkgEquivocationStatements aBytes aSignature bBytes bSignature)
  else if same evidenceKind evidenceKindDkgPublicOriginFault then decodeUnsigned decodeDkgPublicOriginFaultStatement
  else if same evidenceKind evidenceKindDkgLeaderEquivocation then decodeUnsigned decodeDkgLeaderEquivocationStatement
  else if same evidenceKind evidenceKindDkgControlMessageFault then decodeUnsigned decodeDkgControlMessageFaultStatement
  else if same evidenceKind evidenceKindDkgLeaderPublicFault then decodeUnsigned decodeDkgLeaderPublicFaultStatement
  else if same evidenceKind evidenceKindDkgLeaderBatchMismatch then decodeUnsigned decodeDkgLeaderBatchMismatchStatement
  else throw ErrInvalidReport.

Definition decodeRelayRequestStatement : Decoder relayRequestStatement :=
  expectDomain RelayRequestDomain ;;;
  chainID <- readString ;;
  ringID <- readString ;;
  ringPk <- readString ;;
  ringStateSha256 <- readString ;;
  protocolVersion <- readU64 ;;
  requestID <- readString ;;
  signedAt <- readU64 ;;
  userSignedAt <- readU64 ;;
  relayerNodeKey <- readString ;;
  originProtocol <- readString ;;
  accusedScope <- readScope ;;
  signingScope <- readScope ;;
  fromNodeID <- readU32 ;;
  actorID <- readString ;;
  objectID <- readString ;;
  validWindowStart <- readOptionalU64 ;;
  validWindowEnd <- readOptionalU64 ;;
  _ <- readOptionalU64 ;;
  _ <- readByteBool ;;
  finish ;;;
  of_outcome (reject_any
    [ differs originProtocol offlineOriginProtocolPRE && differs originProtocol offlineOriginProtocolSign;
      negb (accusedScope =? committeeScopeCurrent) || negb (signingScope =? committeeScopeCurrent);
      fromNodeID =? 0; blank requestID || blank relayerNodeKey || blank actorID || blank objectID;
      xorb (bool_decide (is_Some validWindowStart)) (bool_decide (is_Some validWindowEnd));
      relayCheckMaxDriftSecs <? absDiffUint64 signedAt userSignedAt ]) ;;;
  ret (mkRelayRequest chainID ringID ringPk ringStateSha256 protocolVersion requestID signedAt relayerNodeKey
         originProtocol accusedScope signingScope).

Definition decodeUnauthorizedRequestPayload : Decoder relayRequestStatement :=
  statementBytes <- readBytes ;;
  relaySignature <- readBytes ;;
  checkedAtAnchor <- readString ;;
  finish ;;;
  throw_if (negb (len relaySignature =? 64)) ErrInvalidReport ;;;
  throw_if (blank checkedAtAnchor) ErrInvalidReport ;;;
  of_outcome (decode decodeRelayRequestStatement statementBytes).

(** ** Binding to the envelope *)

(** [statement.signedAt-grace] with the guard against underflow in front. *)
Definition not_anchored (observedAt signedAt : Z) : bool :=
  (signedAt <? reportObservedAtGraceSecs) || negb (observedAt =? signedAt - reportObservedAtGraceSecs).

Definition validateInvalidCryptoResponseStatement (report : ReportEnvelope) (s : invalidCryptoResponseStatement)
    : outcome unit :=
  let accusedEndpoint := ToLower (before "@"%char (AccusedPeerId report)) in
  reject_any
    [ differs (st_chainID s) (ChainId report);
      differs (st_ringID s) (rp_RingId report) || differs (st_ringPk s) (rp_RingPk report) ||
        differs (st_ringStateSha256 s) (RingStateSha256 report);
      differs (st_requestID s) (SessionId report);
      differs (st_responderNodeKey s) (AccusedNodeKey report);
      not_anchored (ObservedAt report) (st_signedAt s);
      negb (len (st_endpointOrigin s) =? 0) && differs (hex_encode (st_endpointOrigin s)) accusedEndpoint ].

Definition validateRelayRequestStatement (report : ReportEnvelope) (s : relayRequestStatement) : outcome unit :=
  reject_any
    [ differs (rr_chainID s) (ChainId report);
      differs (rr_ringID s) (rp_RingId report) || differs (rr_ringPk s) (rp_RingPk report) ||
        differs (rr_ringStateSha256 s) (RingStateSha256 report);
      differs (rr_requestID s) (SessionId report);
      differs (rr_relayerNodeKey s) (AccusedNodeKey report);
      not_anchored (ObservedAt report) (rr_signedAt s) ].

(** The switch of [validateSubmittedReport] on the type of the report. *)
Definition reportPayloadOf (report : ReportEnvelope) : outcome reportPayload :=
  if same (ReportType report) NodeOfflineReportType then
    payload ← decode decodeNodeOfflinePayload (Payload report);
    _ ← reject_if (negb (isValidOfflineOriginProtocol (pl_originProtocol payload))) ErrInvalidReport;
    Ok payload
  else if same (ReportType report) InvalidCryptoResponseReportType then
    s ← decode decodeInvalidCryptoResponsePayload (Payload report);
    _ ← validateInvalidCryptoResponseStatement report s;
    Ok (mkReportPayload (st_originProtocol s) (st_protocolVersion s) (st_accusedCommitteeScope s)
          (st_signingCommitteeScope s) (st_attemptID s))
  else if same (ReportType report) UnauthorizedRequestReportType then
    s ← decode decodeUnauthorizedRequestPayload (Payload report);
    _ ← validateRelayRequestStatement report s;
    Ok (mkReportPayload (rr_originProtocol s) (rr_protocolVersion s) (rr_accusedCommitteeScope s)
          (rr_signingCommitteeScope s) [])
  else Err ErrInvalidReport.

(** * The envelope *)

Definition validateReportEnvelopeShape (report : ReportEnvelope) (now : Z) : outcome unit :=
  reject_any
    [ differs (Domain report) ReportDomain;
      ExpiresAt report <? ObservedAt report;
      now <? ObservedAt report;
      negb (ExpiresAt report - ObservedAt report =? ReportTTLSeconds);
      ExpiresAt report <? now;
      same (ReporterNodeKey report) (AccusedNodeKey report);
      len (Payload report) =? 0;
      blank (SessionId report);
      blank (ReportType report); blank (ChainId report); blank (rp_RingId report); blank (rp_RingPk report);
      blank (RingStateSha256 report); blank (ReporterNodeKey report); blank (AccusedNodeKey report);
      blank (AccusedPeerId report);
      bool_decide (hex_decode (RingStateSha256 report) = None) || negb (len (RingStateSha256 report) =? 64) ].

Definition reportEnvelopeCanonicalBytes (report : ReportEnvelope) : outcome bytes :=
  let w := newReportCanonicalWriter in
  let w := w_writeString (Domain report) w in
  let w := w_writeString (ReportType report) w in
  let w := w_writeString (ChainId report) w in
  let w := w_writeString (rp_RingId report) w in
  let w := w_writeString (rp_RingPk report) w in
  let w := w_writeString (RingStateSha256 report) w in
  let w := w_writeString (ReporterNodeKey report) w in
  let w := w_writeString (AccusedNodeKey report) w in
  let w := w_writeString (AccusedPeerId report) w in
  let w := w_writeU64 (ObservedAt report) w in
  let w := w_writeU64 (ExpiresAt report) w in
  let w := w_writeBytes (Payload report) w in
  let w := w_writeString (SessionId report) w in
  w_finish w.

Definition reportEnvelopeCanonicalMessageAndID (report : ReportEnvelope) : outcome (bytes * bytes) :=
  message ← reportEnvelopeCanonicalBytes report;
  Ok (message, hex_encode (sha256 message)).

(** What the record of accepted sessions is keyed by. *)
Definition sessionBytes (chainId ringId reportType originProtocol accusedNodeKey sessionId attemptID : bytes) : outcome bytes :=
  let w := newReportCanonicalWriter in
  let w := w_writeString ReportSessionDomain w in
  let w := w_writeString chainId w in
  let w := w_writeString ringId w in
  let w := w_writeString reportType w in
  let w := w_writeString originProtocol w in
  let w := w_writeString accusedNodeKey w in
  let w := w_writeString sessionId w in
  let w := w_writeBytes attemptID w in
  w_finish w.

Definition reportSessionDedupeID (report : ReportEnvelope) (payload : reportPayload) : outcome bytes :=
  message ← sessionBytes (ChainId report) (rp_RingId report) (ReportType report) (pl_originProtocol payload)
              (AccusedNodeKey report) (SessionId report) (pl_attemptID payload);
  Ok (hex_encode (sha256 message)).

(** * The ring that a report is about *)

Definition writeUpgrade (info : UpgradeInfo) (w : reportCanonicalWriter) : reportCanonicalWriter :=
  let w := w_writeU64 (CurrentVersion info) w in
  let w := w_writeOptional w_writeU64 (NextVersion info) w in
  w_writeOptional w_writeU64 (ActivationTime info) w.

Definition reportRingStateCanonicalBytesWithRelayState (ring : Ring) (includeRelayState : bool) : outcome bytes :=
  let w := newReportCanonicalWriter in
  let w := w_writeString (RingPk ring) w in
  let w := w_writeStringSlice (PeerNodeKeys ring) w in
  let w := w_writeU32 (Threshold ring) w in
  let w := w_writeOptional w_writeStringSlice
             (if decide (NewPeerNodeKeys ring = []) then None else Some (NewPeerNodeKeys ring)) w in
  let w := w_writeOptional w_writeU32 (NewThreshold ring) w in
  let w := w_writeU64 (PssInterval ring) w in
  let w := w_writeU64 (BlockNumberNonce ring) w in
  let w := w_writeOptional w_writeString (if decide (rg_PolicyId ring = []) then None else Some (rg_PolicyId ring)) w in
  let w := if includeRelayState
           then w_writeStringSlice (TrustedAuthRelayDids ring) (w_writeBool (AllowTrustedAuthRelays ring) w) else w in
  let w := writeUpgrade (rg_UpgradeInfo ring) w in
  let w := w_writeReportingConfig (rg_Reporting ring) w in
  w_finish w.

Definition reportRingStateCanonicalBytes (ring : Ring) : outcome bytes :=
  reportRingStateCanonicalBytesWithRelayState ring true.

Definition reportRingStateSHA256 (ring : Ring) : outcome bytes :=
  canonical ← reportRingStateCanonicalBytes ring;
  Ok (hex_encode (sha256 canonical)).

Definition reportRingStateDigestMatches (ring : Ring) (digest : bytes) : outcome bool :=
  current ← reportRingStateSHA256 ring;
  if same digest current then Ok true
  else if AllowTrustedAuthRelays ring || negb (bool_decide (TrustedAuthRelayDids ring = [])) then Ok false
  else
    legacy ← reportRingStateCanonicalBytesWithRelayState ring false;
    Ok (same digest (hex_encode (sha256 legacy))).

Definition effectiveReportProtocolVersion (ring : Ring) (now : Z) : Z :=
  match NextVersion (rg_UpgradeInfo ring), ActivationTime (rg_UpgradeInfo ring) with
  | Some next, Some activation => if activation <=? now then next else CurrentVersion (rg_UpgradeInfo ring)
  | _, _ => CurrentVersion (rg_UpgradeInfo ring)
  end.

Record reportCommitteeView : Type := mkCommitteeView { cv_peerNodeKeys : list bytes; cv_threshold : Z }.

Definition reportCommitteeForScope (ring : Ring) (scope : Z) : outcome reportCommitteeView :=
  if scope =? committeeScopeCurrent then Ok (mkCommitteeView (PeerNodeKeys ring) (Threshold ring))
  else if scope =? committeeScopePendingNew then
    _ ← reject_if (negb (reshareInProgress ring)) ErrInvalidReport;
    let peerNodeKeys := if decide (NewPeerNodeKeys ring = []) then PeerNodeKeys ring else NewPeerNodeKeys ring in
    Ok (mkCommitteeView peerNodeKeys (default (Threshold ring) (NewThreshold ring)))
  else Err ErrInvalidReport.

(** The part of [validateReportCommitteeAuthorization] before the accused node is
    looked up. *)
Definition validateReportCommittees (report : ReportEnvelope) (payload : reportPayload) (ring : Ring) : outcome unit :=
  accusedCommittee ← reportCommitteeForScope ring (pl_accusedCommitteeScope payload);
  signingCommittee ← reportCommitteeForScope ring (pl_signingCommitteeScope payload);
  let peers := cv_peerNodeKeys signingCommittee in
  let threshold := cv_threshold signingCommittee in
  reject_any
    [ threshold <? 2;
      len peers <? threshold;
      bool_decide (AccusedNodeKey report ∈ peers) && (len peers - 1 <? threshold);
      negb (bool_decide (ReporterNodeKey report ∈ peers));
      negb (bool_decide (AccusedNodeKey report ∈ cv_peerNodeKeys accusedCommittee)) ].
