(* ===== verification/OrbisKeeper.v ===== *)
(** The keeper of the orbis module (src/x/orbis/keeper): its store, the operations on
    it, the calls of the acp module, and what is done at the end of a block.

    [OrbisStore] has a map for each prefix of the module's store. Demerits are kept as
    the sixteen bytes the code writes, under a key that starts with the length of
    the ring's id; an accepted report has an entry in three places, of which the third
    is ordered by the time of its expiry. *)
From Stdlib Require Import Ascii ZArith Lia.
From stdpp Require Import base numbers list gmap strings sorting.
From S2P Require Import Prelude Sdk Sha256 Utils CoreKeeper Json GoText Canonical Bearer AcpTypes AcpState AcpKeeper AcpBearer AcpMsgs AcpServer OrbisTypes OrbisIds OrbisRing OrbisSign OrbisReport.

(** * The store *)

Record OrbisStore : Type := mkOrbisStore {
  orb_params : option Params;
  rings : gmap bytes Ring;
  documents : gmap bytes Document;
  keyDerivations : gmap bytes KeyDerivation;
  nodeInfos : gmap bytes NodeInfo;
  acceptedReports : gset bytes;
  acceptedSessions : gset bytes;
  expiryIndex : gmap bytes bytes;
  nodeDemerits : gmap bytes bytes;
}.

Definition set_orb_params p (s : OrbisStore) : OrbisStore :=
  mkOrbisStore p (rings s) (documents s) (keyDerivations s) (nodeInfos s) (acceptedReports s) (acceptedSessions s)
    (expiryIndex s) (nodeDemerits s).
Definition set_rings m (s : OrbisStore) : OrbisStore :=
  mkOrbisStore (orb_params s) m (documents s) (keyDerivations s) (nodeInfos s) (acceptedReports s) (acceptedSessions s)
    (expiryIndex s) (nodeDemerits s).
Definition set_documents m (s : OrbisStore) : OrbisStore :=
  mkOrbisStore (orb_params s) (rings s) m (keyDerivations s) (nodeInfos s) (acceptedReports s) (acceptedSessions s)
    (expiryIndex s) (nodeDemerits s).
Definition set_keyDerivations m (s : OrbisStore) : OrbisStore :=
  mkOrbisStore (orb_params s) (rings s) (documents s) m (nodeInfos s) (acceptedReports s) (acceptedSessions s)
    (expiryIndex s) (nodeDemerits s).
Definition set_nodeInfos m (s : OrbisStore) : OrbisStore :=
  mkOrbisStore (orb_params s) (rings s) (documents s) (keyDerivations s) m (acceptedReports s) (acceptedSessions s)
    (expiryIndex s) (nodeDemerits s).
Definition set_accepted reports sessions index (s : OrbisStore) : OrbisStore :=
  mkOrbisStore (orb_params s) (rings s) (documents s) (keyDerivations s) (nodeInfos s) reports sessions index
    (nodeDemerits s).
Definition set_nodeDemerits m (s : OrbisStore) : OrbisStore :=
  mkOrbisStore (orb_params s) (rings s) (documents s) (keyDerivations s) (nodeInfos s) (acceptedReports s)
    (acceptedSessions s) (expiryIndex s) m.

Definition empty_orbis : OrbisStore := mkOrbisStore None ∅ ∅ ∅ ∅ ∅ ∅ ∅ ∅.

(** The context of a message: the block, the transaction, and the name of the chain. *)
Record OrbisCtx : Type := mkOrbisCtx { orbis_ctx :> AcpCtx; ChainID : bytes }.

(** The bank keeper. *)
Class OrbisBank (S : Type) : Type := {
  SpendableCoins : bytes -> S -> Coins;
  SendCoins : bytes -> bytes -> Coins -> M S unit;
}.

(** ** Keys and values (store.go) *)

Definition acceptedExpiryKey (expiresAt : Z) (id : bytes) : bytes := be_bytes 8 expiresAt ++ id.

Definition nodeDemeritStoreKey (ringID nodeKey : bytes) : bytes := be_bytes 4 (len ringID) ++ ringID ++ nodeKey.

Definition decodeNodeDemeritStoreKey (key : bytes) : option (bytes * bytes) :=
  if (length key <? 4)%nat then None
  else
    let ringIDLength := be_uint64 (take 4 key) in
    if len key <? 4 + ringIDLength then None
    else Some (take (Z.to_nat ringIDLength) (drop 4 key), drop (Z.to_nat ringIDLength) (drop 4 key)).

Record nodeDemeritState : Type := mkDemeritState { points : Z; windowStartedAt : Z }.

Definition nodeDemeritStateSize : nat := 16.

Definition encodeDemeritState (state : nodeDemeritState) : bytes :=
  be_bytes 8 (points state) ++ be_bytes 8 (windowStartedAt state).

Definition decodeDemeritState (bz : bytes) : option nodeDemeritState :=
  if decide (length bz = nodeDemeritStateSize)
  then Some (mkDemeritState (be_uint64 (take 8 bz)) (be_uint64 (drop 8 bz))) else None.

Definition nodeDemeritWindowExpired (windowStartedAt now resetIntervalSeconds : Z) : bool :=
  (windowStartedAt <=? now) && (resetIntervalSeconds <=? now - windowStartedAt).

(** * Operations *)

Section keeper.
Context `{ProtoTypes, AcpCodec, Raccoon, Merkle, GoSort, AddressCodec, DIDKeys, Jose, PayloadJson}.
Context `{DIDDecode, Blst, JubjubWasm, NodeAddress, CoinsOps}.
Context {E : Type} `{ACPEngine E}.
Context {S : Type} `{!Lens S (AcpStore E)} `{!Lens S CoreStore} `{AcpAccounts S, CapabilityKeeper S} `{!Lens S OrbisStore}.
Context `{OrbisBank S}.
Implicit Types (ctx : OrbisCtx) (ring : Ring) (ringID nodeKey : bytes).

Definition orb_get {A} (f : OrbisStore -> A) : M S A := gets (fun s => f (lens_get s)).
Definition orb_mod (f : OrbisStore -> OrbisStore) : M S unit := modify (fun s => lens_set (f (lens_get s)) s).

(** [store.Set] panics on an empty key. *)
Definition orb_set (key : bytes) (f : OrbisStore -> OrbisStore) : M S unit :=
  panic_if (bool_decide (key = [])) ;;; orb_mod f.

(** ** params.go *)

Definition GetParams : M S Params := orb_get (fun s => default DefaultParams (orb_params s)).
Definition SetParams (params : Params) : M S unit :=
  of_outcome (Params_Validate params) ;;;
  orb_mod (set_orb_params (Some params)).

(** ** store.go *)

Definition canonicalRing (ring : Ring) : Ring :=
  set_relays (canonicalStrings (TrustedAuthRelayDids ring))
    (set_reshare (canonicalStrings (NewPeerNodeKeys ring)) (NewThreshold ring)
       (set_committee (canonicalStrings (PeerNodeKeys ring)) (Threshold ring) ring)).

Definition SetRing (ring : Ring) : M S unit :=
  orb_set (rg_Id ring) (fun s => set_rings (<[rg_Id ring := canonicalRing ring]> (rings s)) s).
Definition GetRing ringID : M S (option Ring) := orb_get (fun s => rings s !! ringID).
Definition DeleteRing ringID : M S unit := orb_mod (fun s => set_rings (delete ringID (rings s)) s).

Definition SetDocument (document : Document) : M S unit :=
  orb_set (doc_Id document) (fun s => set_documents (<[doc_Id document := document]> (documents s)) s).
Definition GetDocument (documentID : bytes) : M S (option Document) := orb_get (fun s => documents s !! documentID).

Definition SetKeyDerivation (keyDerivation : KeyDerivation) : M S unit :=
  orb_set (kd_Id keyDerivation) (fun s => set_keyDerivations (<[kd_Id keyDerivation := keyDerivation]> (keyDerivations s)) s).
Definition GetKeyDerivation (id : bytes) : M S (option KeyDerivation) := orb_get (fun s => keyDerivations s !! id).

Definition SetNodeInfo nodeKey (nodeInfo : NodeInfo) : M S unit :=
  orb_set nodeKey (fun s => set_nodeInfos (<[nodeKey := nodeInfo]> (nodeInfos s)) s).
Definition GetNodeInfo nodeKey : M S (option NodeInfo) := orb_get (fun s => nodeInfos s !! nodeKey).

Definition SetAcceptedReportPair (reportID sessionID : bytes) (expiresAt : Z) : M S unit :=
  panic_if (bool_decide (reportID = []) || bool_decide (sessionID = [])) ;;;
  orb_mod (fun s =>
    set_accepted ({[reportID]} ∪ acceptedReports s) ({[sessionID]} ∪ acceptedSessions s)
      (<[acceptedExpiryKey expiresAt reportID := sessionID]> (expiryIndex s)) s).
Definition HasAcceptedReport (reportID : bytes) : M S bool :=
  orb_get (fun s => bool_decide (reportID ∈ acceptedReports s)).
Definition HasAcceptedReportSession (sessionID : bytes) : M S bool :=
  orb_get (fun s => bool_decide (sessionID ∈ acceptedSessions s)).

(** The iterator stops at the first entry that has not expired. *)
Fixpoint expiredPairs (now : Z) (items : list (bytes * bytes)) : list (bytes * bytes) :=
  match items with
  | [] => []
  | (key, sessionID) :: rest =>
      if (length key <? 8)%nat then expiredPairs now rest
      else if now <? be_uint64 (take 8 key) then []
      else (key, sessionID) :: expiredPairs now rest
  end.

Definition deletePair (s : OrbisStore) (p : bytes * bytes) : OrbisStore :=
  set_accepted (acceptedReports s ∖ {[drop 8 p.1]}) (acceptedSessions s ∖ {[p.2]}) (delete p.1 (expiryIndex s)) s.

Definition DeleteExpiredAcceptedReportPairs (now : Z) : M S unit :=
  orb_mod (fun s => foldl deletePair s (expiredPairs now (store_items (expiryIndex s)))).

(** Keys that are too short are passed over. *)
Definition GetAllAcceptedReportPairs : M S (list AcceptedReportPairEntry) :=
  orb_get (fun s =>
    (fun kv => mkAcceptedReportPairEntry (drop 8 kv.1) kv.2 (be_uint64 (take 8 kv.1))) <$>
    filter (fun kv => 8 <= length kv.1)%nat (store_items (expiryIndex s))).

(** ** Demerits (store.go) *)

Definition getNodeDemeritState ringID nodeKey : M S (option nodeDemeritState) :=
  orb_get (fun s => bz ← nodeDemerits s !! nodeDemeritStoreKey ringID nodeKey; decodeDemeritState bz).
Definition setNodeDemeritState ringID nodeKey (state : nodeDemeritState) : M S unit :=
  orb_mod (fun s => set_nodeDemerits (<[nodeDemeritStoreKey ringID nodeKey := encodeDemeritState state]> (nodeDemerits s)) s).

Definition SetNodeDemerits ringID nodeKey (points windowStartedAt : Z) : M S unit :=
  setNodeDemeritState ringID nodeKey (mkDemeritState points windowStartedAt).

Definition GetNodeDemerits ringID nodeKey : M S Z :=
  state <- getNodeDemeritState ringID nodeKey ;;
  ret (match state with Some state => points state | None => 0 end).

(** The state that counts now: a window that has passed starts anew. *)
Definition effectiveState (now resetIntervalSeconds : Z) (state : option nodeDemeritState) : option nodeDemeritState :=
  match state with
  | Some st => if nodeDemeritWindowExpired (windowStartedAt st) now resetIntervalSeconds then None else Some st
  | None => None
  end.

Definition GetEffectiveNodeDemerits ringID nodeKey (now resetIntervalSeconds : Z) : M S Z :=
  state <- getNodeDemeritState ringID nodeKey ;;
  ret (match effectiveState now resetIntervalSeconds state with Some st => points st | None => 0 end).

Definition IncrementNodeDemerits ringID nodeKey (amount now resetIntervalSeconds : Z) : M S Z :=
  found <- getNodeDemeritState ringID nodeKey ;;
  let state := default (mkDemeritState 0 now) (effectiveState now resetIntervalSeconds found) in
  let state := mkDemeritState (uint64 (points state + amount)) (windowStartedAt state) in
  setNodeDemeritState ringID nodeKey state ;;;
  ret (points state).

(** A key or a value that does not decode panics. *)
Fixpoint demeritEntries (items : list (bytes * bytes)) : outcome (list NodeDemeritEntry) :=
  match items with
  | [] => Ok []
  | (key, bz) :: rest =>
      match decodeNodeDemeritStoreKey key, decodeDemeritState bz with
      | Some (ringID, nodeKey), Some state =>
          entries ← demeritEntries rest;
          Ok (mkNodeDemeritEntry ringID nodeKey (points state) (windowStartedAt state) :: entries)
      | _, _ => Panic
      end
  end.

Definition GetAllNodeDemerits : M S (list NodeDemeritEntry) :=
  items <- orb_get (fun s => store_items (nodeDemerits s)) ;;
  of_outcome (demeritEntries items).

Definition GetAllRings : M S (list Ring) := orb_get (fun s => (store_items (rings s)).*2).
Definition GetAllDocuments : M S (list Document) := orb_get (fun s => (store_items (documents s)).*2).
Definition GetAllKeyDerivations : M S (list KeyDerivation) := orb_get (fun s => (store_items (keyDerivations s)).*2).
Definition GetAllNodeInfos : M S (list NodeInfoEntry) :=
  orb_get (fun s => (fun kv => mkNodeInfoEntry kv.1 (Some kv.2)) <$> store_items (nodeInfos s)).

(** ** acp.go *)

Definition registerRingACPObject ctx (creator policyID : bytes) ringID : M S unit :=
  DirectPolicyCmd ctx (mkMsgDirectPolicyCmd creator policyID (Some (RegisterObjectCmd (mkObject ACPResourceRing ringID)))) ;;;
  ret tt.

Definition ensureRingCreatePermission ctx (policyID creatorDID : bytes) : M S unit :=
  throw_if (bool_decide (policyID = [])) ErrInvalidRing ;;;
  valid <- VerifyAccessRequest ctx policyID
             [mkOperation (mkObject ACPResourceRingPolicy policyID) ACPPermissionCreateRing] creatorDID ;;
  throw_if (negb valid) ErrUnauthorizedRingCreate.

Definition ensureRingUpdatePermission ctx ring (updaterDID : bytes) : M S unit :=
  throw_if (bool_decide (rg_PolicyId ring = [])) ErrInvalidRing ;;;
  valid <- VerifyAccessRequest ctx (rg_PolicyId ring)
             [mkOperation (mkObject ACPResourceRing (rg_Id ring)) ACPPermissionUpdateRing] updaterDID ;;
  throw_if (negb valid) ErrUnauthorizedRingUpdate.

(** ** node_info.go *)

Definition requireReportingBackupNodeInfos (backupNodeKeys : list bytes) : M S unit :=
  forM_ (fun nodeKey =>
    info <- GetNodeInfo nodeKey ;;
    throw_if (bool_decide (info = None)) ErrInvalidRing) backupNodeKeys.

(** The node is registered, and allows the ring. *)
Definition requireWhitelisted ring nodeKey : M S unit :=
  info <- GetNodeInfo nodeKey ;;
  nodeInfo <- of_option info ErrInvalidRing ;;
  throw_if (negb (nodeInfoAllowsRing nodeInfo ring)) ErrInvalidRing.

Definition requireReportingBackupNodeWhitelist ring (backupNodeKeys : list bytes) : M S unit :=
  forM_ (requireWhitelisted ring) backupNodeKeys.

Definition PubKey_Bytes (k : AccountKey) : bytes :=
  match k with Secp256k1Key bz | Secp256r1Key bz | Ed25519Key bz | OtherKey bz => bz end.

Definition signerPublicKeyHex (address : bytes) : M S bytes :=
  addr <- of_outcome (wrap_err ErrInvalidNodeInfo (sum_outcome (StringToBytes address))) ;;
  found <- gets (GetAccount addr) ;;
  account <- of_option found ErrInvalidNodeInfo ;;
  pubKey <- of_option (acc_PubKey account) ErrInvalidNodeInfo ;;
  ret (hex_encode (PubKey_Bytes pubKey)).

Definition authorizeNodeInfoUpdate nodeKey (creator : bytes) : M S NodeInfo :=
  info <- GetNodeInfo nodeKey ;;
  nodeInfo <- of_option info ErrNodeInfoNotFound ;;
  signerKey <- signerPublicKeyHex creator ;;
  throw_if (negb (bool_decide (signerKey = ControllerKey nodeInfo))) ErrUnauthorizedNodeInfoUpdate ;;;
  ret nodeInfo.

(** ** report.go: what needs the store *)

Record validatedSubmittedReport : Type := mkValidatedReport {
  vr_reportID : bytes; vr_sessionDedupeID : bytes; vr_ring : Ring; vr_blockUnixTime : Z;
}.

Definition validateReportCommitteeAuthorization (report : ReportEnvelope) (payload : reportPayload) ring : M S unit :=
  of_outcome (validateReportCommittees report payload ring) ;;;
  info <- GetNodeInfo (AccusedNodeKey report) ;;
  accusedInfo <- of_option info ErrNodeInfoNotFound ;;
  throw_if (negb (bool_decide (PeerId accusedInfo = AccusedPeerId report))) ErrInvalidReport.

Definition validateSubmittedReport ctx (report : ReportEnvelope) (claimedReportID signatureScheme signature : bytes)
    : M S validatedSubmittedReport :=
  now <- of_outcome (blockUnixTime ErrInvalidReport (block_time ctx)) ;;
  of_outcome (validateReportEnvelopeShape report now) ;;;
  throw_if (negb (bool_decide (ChainId report = ChainID ctx))) ErrInvalidReport ;;;
  letp (message, reportID) <- of_outcome (reportEnvelopeCanonicalMessageAndID report) ;;
  throw_if (negb (bool_decide (claimedReportID = reportID))) ErrInvalidReport ;;;
  accepted <- HasAcceptedReport reportID ;;
  throw_if accepted ErrReportAlreadyAccepted ;;;
  payload <- of_outcome (reportPayloadOf report) ;;
  found <- GetRing (rp_RingId report) ;;
  ring <- of_option found ErrRingNotFound ;;
  of_outcome (requireRingFinalized ring) ;;;
  throw_if (negb (bool_decide (rp_RingPk report = RingPk ring))) ErrInvalidReport ;;;
  ringStateMatches <- of_outcome (reportRingStateDigestMatches ring (RingStateSha256 report)) ;;
  throw_if (negb ringStateMatches) ErrInvalidReport ;;;
  throw_if (negb (pl_originProtocolVersion payload =? effectiveReportProtocolVersion ring (ObservedAt report))) ErrInvalidReport ;;;
  validateReportCommitteeAuthorization report payload ring ;;;
  sessionDedupeID <- of_outcome (reportSessionDedupeID report payload) ;;
  acceptedSession <- HasAcceptedReportSession sessionDedupeID ;;
  throw_if acceptedSession ErrReportAlreadyAccepted ;;;
  of_outcome (verifyThresholdSignature signatureScheme (RingPk ring) message signature) ;;;
  ret (mkValidatedReport reportID sessionDedupeID ring now).

(** The first backup that is not a member and allows the ring, and the others. *)
Fixpoint selectAutoReshareReplacement ring (before after : list bytes) : M S (option (bytes * list bytes)) :=
  match after with
  | [] => ret None
  | backupNodeKey :: after' =>
      if decide (backupNodeKey ∈ PeerNodeKeys ring) then
        selectAutoReshareReplacement ring (before ++ [backupNodeKey]) after'
      else
        info <- GetNodeInfo backupNodeKey ;;
        match info with
        | Some nodeInfo =>
            if nodeInfoAllowsRing nodeInfo ring then ret (Some (backupNodeKey, before ++ after'))
            else selectAutoReshareReplacement ring (before ++ [backupNodeKey]) after'
        | None => selectAutoReshareReplacement ring (before ++ [backupNodeKey]) after'
        end
  end.

Definition set_backups (backups : list bytes) ring : Ring :=
  set_reporting (mkReportingConfig (rep_DemeritConfig (rg_Reporting ring)) backups (rep_KickThreshold (rg_Reporting ring))) ring.

Definition maybeScheduleAutoReshareForReport ring (accusedNodeKey : bytes) (effectiveDemerits : Z) : M S unit :=
  if effectiveDemerits <? rep_KickThreshold (rg_Reporting ring) then ret tt
  else if reshareInProgress ring then ret tt
  else if negb (bool_decide (accusedNodeKey ∈ PeerNodeKeys ring)) then ret tt
  else
    selected <- selectAutoReshareReplacement ring [] (BackupNodeKeys (rg_Reporting ring)) ;;
    match selected with
    | None => ret tt
    | Some (replacementNodeKey, remainingBackups) =>
        let nextPeerNodeKeys := filter (fun nodeKey => nodeKey <> accusedNodeKey) (PeerNodeKeys ring) ++ [replacementNodeKey] in
        let nextRing := set_backups remainingBackups (set_reshare (canonicalStrings nextPeerNodeKeys) None ring) in
        of_outcome (validateRing nextRing) ;;;
        SetRing nextRing
    end.

(** ** endblock.go *)

Definition EndBlock ctx : M S unit := DeleteExpiredAcceptedReportPairs (uint64 (unix (block_time ctx))).

(** ** module/genesis.go *)

Definition InitGenesis (genState : GenesisState) : M S unit :=
  r <- attempt (SetParams (gen_Params genState)) ;;
  panic_if (match r with inl _ => false | inr _ => true end) ;;;
  forM_ (fun ring =>
    SetRing (if decide (rg_Reporting ring = zero_reporting)
             then set_reporting (ReportingConfigFromDefaults (DefaultReporting (gen_Params genState))) ring else ring))
    (gen_Rings genState) ;;;
  forM_ SetDocument (gen_Documents genState) ;;;
  forM_ SetKeyDerivation (gen_KeyDerivations genState) ;;;
  forM_ (fun entry => match nie_NodeInfo entry with Some info => SetNodeInfo (nie_NodeKey entry) info | None => ret tt end)
    (gen_NodeInfos genState) ;;;
  forM_ (fun entry => SetNodeDemerits (nde_RingId entry) (nde_NodeKey entry) (nde_Points entry) (nde_WindowStartedAt entry))
    (gen_NodeDemerits genState) ;;;
  forM_ (fun entry => SetAcceptedReportPair (arp_ReportId entry) (arp_SessionId entry) (arp_ExpiresAt entry))
    (gen_AcceptedReportPairs genState).

Definition ExportGenesis : M S GenesisState :=
  params <- GetParams ;;
  allRings <- GetAllRings ;;
  allDocuments <- GetAllDocuments ;;
  allKeyDerivations <- GetAllKeyDerivations ;;
  allNodeInfos <- GetAllNodeInfos ;;
  allNodeDemerits <- GetAllNodeDemerits ;;
  allPairs <- GetAllAcceptedReportPairs ;;
  ret (mkOrbisGenesis params allRings allDocuments allKeyDerivations allNodeInfos allNodeDemerits allPairs).

(** ** grpc_query.go *)

Definition query_by_id {A} (id : bytes) (get : bytes -> M S (option A)) (missing : string) : M S A :=
  throw_if (bool_decide (id = [])) (ErrMsg "invalid argument") ;;;
  found <- get id ;;
  of_option found (ErrMsg missing).

Definition Params_query : M S Params := GetParams.
Definition Ring_query (id : bytes) : M S Ring := query_by_id id GetRing "ring not found".
Definition Document_query (id : bytes) : M S Document := query_by_id id GetDocument "document not found".
Definition KeyDerivation_query (id : bytes) : M S KeyDerivation := query_by_id id GetKeyDerivation "key derivation not found".
Definition NodeInfo_query nodeKey : M S NodeInfo := query_by_id nodeKey GetNodeInfo "node info not found".

Definition NodeDemerits_query ctx ringID nodeKey : M S Z :=
  throw_if (bool_decide (ringID = []) || bool_decide (nodeKey = [])) (ErrMsg "invalid argument") ;;;
  found <- GetRing ringID ;;
  ring <- of_option found (ErrMsg "ring not found") ;;
  now <- of_outcome (blockUnixTime (ErrMsg "internal") (block_time ctx)) ;;
  GetEffectiveNodeDemerits ringID nodeKey now (ResetIntervalSeconds (rep_DemeritConfig (rg_Reporting ring))).

Definition AcceptedReportSession_query ctx ringID (reportType originProtocol accusedNodeKey sessionID attemptID : bytes) : M S bool :=
  throw_if (bool_decide (ringID = []) || bool_decide (reportType = []) || bool_decide (originProtocol = []) ||
            bool_decide (accusedNodeKey = []) || bool_decide (sessionID = [])) (ErrMsg "invalid argument") ;;;
  message <- of_outcome (wrap_err (ErrMsg "internal")
               (sessionBytes (ChainID ctx) ringID reportType originProtocol accusedNodeKey sessionID attemptID)) ;;
  HasAcceptedReportSession (hex_encode (sha256 message)).

Section pages.
Context `{Pagination}.

Definition Rings_query (req : PageReq) : M S (list Ring * PageRes) :=
  items <- orb_get (fun s => store_items (rings s)) ;;
  letp (l, res) <- of_outcome (Paginate items req) ;; ret (l.*2, res).

Definition Documents_query (req : PageReq) : M S (list Document * PageRes) :=
  items <- orb_get (fun s => store_items (documents s)) ;;
  letp (l, res) <- of_outcome (Paginate items req) ;; ret (l.*2, res).

Definition KeyDerivations_query (req : PageReq) : M S (list KeyDerivation * PageRes) :=
  items <- orb_get (fun s => store_items (keyDerivations s)) ;;
  letp (l, res) <- of_outcome (Paginate items req) ;; ret (l.*2, res).
End pages.
End keeper.
