(* ===== verification/OrbisServer.v ===== *)
(** The messages of the orbis module (src/x/orbis/keeper/msg_server.go).

    A ring is created by whom its policy permits to, waits until every member has
    confirmed the same key, and is final from then on: its committee changes only
    through a reshare, which an operator or a report starts and the ring's own
    threshold signature finishes. The events that the handlers emit are not part of
    the state. *)
From Stdlib Require Import Ascii ZArith Lia.
From stdpp Require Import base numbers list gmap strings sorting.
From S2P Require Import Prelude Sdk Sha256 Utils CoreKeeper Json GoText Canonical Bearer AcpTypes AcpState AcpKeeper AcpBearer AcpMsgs AcpServer OrbisTypes OrbisIds OrbisRing OrbisSign OrbisReport OrbisKeeper.

Inductive FinalizeRingOutcome : Type := CONFIRMATION_RECORDED | RING_FINALIZED | CONFLICT_DELETED.

(** [slices.Delete] at the index of a value that is there. *)
Fixpoint remove_first (x : bytes) (l : list bytes) : list bytes :=
  match l with
  | [] => []
  | y :: l' => if decide (y = x) then l' else y :: remove_first x l'
  end.

Section server.
Context `{ProtoTypes, AcpCodec, Raccoon, Merkle, GoSort, AddressCodec, DIDKeys, Jose, PayloadJson}.
Context `{DIDDecode, Blst, JubjubWasm, NodeAddress, CoinsOps}.
Context {E : Type} `{ACPEngine E}.
Context {S : Type} `{!Lens S (AcpStore E)} `{!Lens S CoreStore} `{AcpAccounts S, CapabilityKeeper S} `{!Lens S OrbisStore}.
Context `{OrbisBank S}.
Implicit Types (ctx : OrbisCtx) (ring : Ring) (ringID nodeKey creator : bytes).

Definition UpdateParams (authority : bytes) (req : MsgUpdateParams) : M S unit :=
  throw_if (negb (bool_decide (authority = oup_Authority req))) ErrInvalidSigner ;;;
  SetParams (oup_Params req).

(** ** The life of a ring *)

Definition newRing (msg : MsgCreateRing) ringID (creatorDID : bytes) (reporting : ReportingConfig) : Ring :=
  mkRing ringID creatorDID [] (canonicalStrings (mcr_PeerNodeKeys msg)) (mcr_Threshold msg) [] None
    (mcr_PssInterval msg) 0 (mcr_PolicyId msg) [] (mkUpgradeInfo (mcr_CurrentVersion msg) None None) reporting
    (canonicalStrings (mcr_TrustedAuthRelayDids msg)) (mcr_AllowTrustedAuthRelays msg) (mcr_RequiresPet msg) None.

Definition CreateRing ctx (msg : MsgCreateRing) : M S bytes :=
  creatorDID <- GetActorDID ctx (mcr_Creator msg) ;;
  let peerNodeKeys := canonicalStrings (mcr_PeerNodeKeys msg) in
  let trustedAuthRelayDIDs := canonicalStrings (mcr_TrustedAuthRelayDids msg) in
  requireReportingBackupNodeInfos peerNodeKeys ;;;
  let ringID := GenerateRingID peerNodeKeys (mcr_Threshold msg) (mcr_PssInterval msg) (mcr_PolicyId msg)
                  (mcr_Nonce msg) (mcr_CurrentVersion msg) (mcr_AllowTrustedAuthRelays msg)
                  trustedAuthRelayDIDs (mcr_RequiresPet msg) in
  existing <- GetRing ringID ;;
  throw_if (bool_decide (is_Some existing)) ErrRingAlreadyExists ;;;
  params <- GetParams ;;
  let reporting := default (ReportingConfigFromDefaults (DefaultReporting params)) (mcr_Reporting msg) in
  let ring := newRing msg ringID creatorDID reporting in
  of_outcome (validateRingPSSInterval ring) ;;;
  of_outcome (validateRing ring) ;;;
  requireReportingBackupNodeInfos (BackupNodeKeys (rg_Reporting ring)) ;;;
  ensureRingCreatePermission ctx (mcr_PolicyId msg) creatorDID ;;;
  registerRingACPObject ctx (mcr_Creator msg) (mcr_PolicyId msg) ringID ;;;
  SetRing ring ;;;
  ret ringID.

(** The keys that a member confirms. [GetPetPk] of an absent key is empty. *)
Definition conflicting ring (msg : MsgFinalizeRing) (c : RingConfirmation) : bool :=
  negb (bool_decide (cf_RingPk c = mfr_RingPk msg)) ||
  (RequiresPet ring && negb (bool_decide (default [] (cf_PetPk c) = default [] (mfr_PetPk msg)))).

Definition existingRing ringID : M S Ring :=
  found <- GetRing ringID ;;
  of_option found ErrRingNotFound.

Definition FinalizeRing ctx (msg : MsgFinalizeRing) : M S FinalizeRingOutcome :=
  ring <- existingRing (mfr_RingId msg) ;;
  throw_if (negb (bool_decide (RingPk ring = []))) ErrRingAlreadyFinalized ;;;
  of_outcome (rejectIdentityRingPublicKey (mfr_RingPk msg)) ;;;
  let petPk := mfr_PetPk msg in
  throw_if (RequiresPet ring && bool_decide (petPk = None)) ErrInvalidRing ;;;
  throw_if (negb (RequiresPet ring) && bool_decide (is_Some petPk)) ErrInvalidRing ;;;
  of_outcome (match petPk with Some pk => rejectIdentityRingPublicKey pk | None => Ok tt end) ;;;
  signerKey <- signerPublicKeyHex (mfr_Creator msg) ;;
  throw_if (negb (bool_decide (signerKey ∈ PeerNodeKeys ring))) ErrInvalidRingFinalizer ;;;
  throw_if (bool_decide (signerKey ∈ cf_NodeKey <$> Confirmations ring)) ErrDuplicateConfirmation ;;;
  if existsb (conflicting ring msg) (Confirmations ring) then
    DeleteRing (rg_Id ring) ;;;
    ret CONFLICT_DELETED
  else
    let confirmations := Confirmations ring ++ [mkRingConfirmation signerKey (mfr_RingPk msg) petPk] in
    if (length confirmations <? length (PeerNodeKeys ring))%nat then
      SetRing (set_confirmations confirmations ring) ;;;
      ret CONFIRMATION_RECORDED
    else
      _ <- GetActorDID ctx (mfr_Creator msg) ;;
      let finalized := set_confirmations [] (set_pk (mfr_RingPk msg) petPk ring) in
      of_outcome (validateRing finalized) ;;;
      SetRing finalized ;;;
      ret RING_FINALIZED.

Definition CancelPendingRing ctx (msg : MsgCancelPendingRing) : M S unit :=
  ring <- existingRing (mcp_RingId msg) ;;
  throw_if (negb (bool_decide (RingPk ring = []))) ErrRingAlreadyFinalized ;;;
  signerKey <- signerPublicKeyHex (mcp_Creator msg) ;;
  authorized <- (if decide (signerKey ∈ PeerNodeKeys ring) then ret true
                 else
                   cancellerDID <- GetActorDID ctx (mcp_Creator msg) ;;
                   ret (bool_decide (cancellerDID = CreatorDid ring))) ;;
  throw_if (negb authorized) ErrInvalidRingCanceller ;;;
  DeleteRing (rg_Id ring).

(** ** Changes of a ring that is final *)

(** The ring, once its policy permits the sender to update it. *)
Definition ringForUpdate ctx ringID creator : M S Ring :=
  ring <- existingRing ringID ;;
  of_outcome (requireRingFinalized ring) ;;;
  updaterDID <- GetActorDID ctx creator ;;
  ensureRingUpdatePermission ctx ring updaterDID ;;;
  ret ring.

(** A changed ring is written if it is valid. *)
Definition setValidRing ring : M S unit :=
  of_outcome (validateRing ring) ;;;
  SetRing ring.

Definition StartRingReshareByAcp ctx (msg : MsgStartRingReshareByAcp) : M S unit :=
  ring <- ringForUpdate ctx (msr_RingId msg) (msr_Creator msg) ;;
  ring <- of_outcome (maybeNormalizeMaturedRingUpgrade (block_time ctx) ring) ;;
  let newPeerNodeKeys := canonicalStrings (msr_NewPeerNodeKeys msg) in
  of_outcome (validateStartRingReshare newPeerNodeKeys (msr_NewThreshold msg) ring) ;;;
  forM_ (requireWhitelisted ring) newPeerNodeKeys ;;;
  let peers := if decide (newPeerNodeKeys = []) then NewPeerNodeKeys ring else newPeerNodeKeys in
  let threshold := match msr_NewThreshold msg with Some t => Some t | None => NewThreshold ring end in
  setValidRing (set_reshare peers threshold ring).

Definition CancelRingReshareByAcp ctx (msg : MsgCancelRingReshareByAcp) : M S unit :=
  ring <- ringForUpdate ctx (mcs_RingId msg) (mcs_Creator msg) ;;
  throw_if (negb (reshareInProgress ring)) ErrReshareNotInProgress ;;;
  setValidRing (set_reshare [] None ring).

Definition SetRingPssIntervalByAcp ctx (msg : MsgSetRingPssIntervalByAcp) : M S unit :=
  ring <- ringForUpdate ctx (mps_RingId msg) (mps_Creator msg) ;;
  ring <- of_outcome (maybeNormalizeMaturedRingUpgrade (block_time ctx) ring) ;;
  let nextRing := set_pss (mps_PssInterval msg) ring in
  of_outcome (validateRingPSSInterval nextRing) ;;;
  throw_if (PssInterval ring =? mps_PssInterval msg) ErrRingPssIntervalUnchanged ;;;
  setValidRing nextRing.

Definition ScheduleRingUpgradeByAcp ctx (msg : MsgScheduleRingUpgradeByAcp) : M S unit :=
  ring <- ringForUpdate ctx (msu_RingId msg) (msu_Creator msg) ;;
  currentTime <- of_outcome (blockUnixTime ErrInvalidRing (block_time ctx)) ;;
  let ring := normalizeMaturedRingUpgrade currentTime ring in
  throw_if (bool_decide (NextVersion (rg_UpgradeInfo ring) = Some (msu_NextVersion msg)) &&
            (default 0 (ActivationTime (rg_UpgradeInfo ring)) =? msu_ActivationTime msg)) ErrRingUpgradeUnchanged ;;;
  of_outcome (validateRingUpgradeSchedule (msu_NextVersion msg) (msu_ActivationTime msg) currentTime ring) ;;;
  setValidRing (setRingUpgrade (msu_NextVersion msg) (msu_ActivationTime msg) ring).

Definition CancelRingUpgradeByAcp ctx (msg : MsgCancelRingUpgradeByAcp) : M S unit :=
  ring <- ringForUpdate ctx (mcu_RingId msg) (mcu_Creator msg) ;;
  match NextVersion (rg_UpgradeInfo ring), ActivationTime (rg_UpgradeInfo ring) with
  | Some _, Some activation =>
      currentTime <- of_outcome (blockUnixTime ErrInvalidRing (block_time ctx)) ;;
      throw_if (activation <=? currentTime) ErrRingUpgradeAlreadyActive ;;;
      setValidRing (clearRingUpgrade ring)
  | _, _ => throw ErrRingUpgradeNotScheduled
  end.

Definition SetRingReportingByAcp ctx (msg : MsgSetRingReportingByAcp) : M S unit :=
  ring <- ringForUpdate ctx (mrr_RingId msg) (mrr_Creator msg) ;;
  ring <- of_outcome (maybeNormalizeMaturedRingUpgrade (block_time ctx) ring) ;;
  let ring := set_reporting (mrr_Reporting msg) ring in
  of_outcome (validateRing ring) ;;;
  requireReportingBackupNodeWhitelist ring (BackupNodeKeys (rg_Reporting ring)) ;;;
  SetRing ring.

(** ** Relays. A ring need not be final. *)

Definition ringForRelayUpdate ctx ringID creator (relayDid : bytes) : M S Ring :=
  ring <- existingRing ringID ;;
  throw_if (negb (AllowTrustedAuthRelays ring)) ErrRingAuthRelaysDisabled ;;;
  of_outcome (ValidateTrustedAuthRelayDIDs [relayDid]) ;;;
  updaterDID <- GetActorDID ctx creator ;;
  ensureRingUpdatePermission ctx ring updaterDID ;;;
  ret ring.

Definition AddRingTrustedAuthRelayByAcp ctx (msg : MsgAddRingTrustedAuthRelayByAcp) : M S unit :=
  ring <- ringForRelayUpdate ctx (mar_RingId msg) (mar_Creator msg) (mar_RelayDid msg) ;;
  throw_if (bool_decide (mar_RelayDid msg ∈ TrustedAuthRelayDids ring)) ErrRingAuthRelayExists ;;;
  setValidRing (set_relays (TrustedAuthRelayDids ring ++ [mar_RelayDid msg]) ring).

Definition RemoveRingTrustedAuthRelayByAcp ctx (msg : MsgRemoveRingTrustedAuthRelayByAcp) : M S unit :=
  ring <- ringForRelayUpdate ctx (mrm_RingId msg) (mrm_Creator msg) (mrm_RelayDid msg) ;;
  throw_if (negb (bool_decide (mrm_RelayDid msg ∈ TrustedAuthRelayDids ring))) ErrRingTrustedAuthRelayNotFound ;;;
  setValidRing (set_relays (remove_first (mrm_RelayDid msg) (TrustedAuthRelayDids ring)) ring).

(** ** What the ring itself signs *)

Definition FinalizeRingReshareByThresholdSignature ctx (msg : MsgFinalizeRingReshareByThresholdSignature) : M S unit :=
  ring <- existingRing (mfs_RingId msg) ;;
  _ <- GetActorDID ctx (mfs_Creator msg) ;;
  signDocFinalizedRing <- of_outcome (ringForReshareFinalization ring) ;;
  let signBytes := ringReshareFinalizeSignBytes (ChainID ctx) ring signDocFinalizedRing in
  of_outcome (verifyThresholdSignatureForRingUpdate ring signBytes (mfs_SignatureScheme msg) (mfs_Signature msg)) ;;;
  SetRing (set_nonce (uint64 (block_height ctx)) signDocFinalizedRing).

Definition SubmitReport ctx (msg : MsgSubmitReport) : M S bytes :=
  let report := mrp_Report msg in
  validated <- validateSubmittedReport ctx report (mrp_ReportId msg) (mrp_SignatureScheme msg) (mrp_Signature msg) ;;
  demeritAmount <- of_outcome (DemeritAmountForReportType (Some (vr_ring validated)) (ReportType report)) ;;
  SetAcceptedReportPair (vr_reportID validated) (vr_sessionDedupeID validated)
    (uint64 (vr_blockUnixTime validated + ReportTTLSeconds)) ;;;
  effectiveDemerits <- IncrementNodeDemerits (rp_RingId report) (AccusedNodeKey report) demeritAmount
    (vr_blockUnixTime validated) (ResetIntervalSeconds (rep_DemeritConfig (rg_Reporting (vr_ring validated)))) ;;
  maybeScheduleAutoReshareForReport (vr_ring validated) (AccusedNodeKey report) effectiveDemerits ;;;
  ret (vr_reportID validated).

(** ** Documents and key derivations *)

Definition finalizedRing ringID : M S Ring :=
  ring <- existingRing ringID ;;
  of_outcome (requireRingFinalized ring) ;;;
  ret ring.

Definition StoreDocument ctx (msg : MsgStoreDocument) : M S bytes :=
  ring <- finalizedRing (msd_RingId msg) ;;
  creatorDID <- GetActorDID ctx (msd_Creator msg) ;;
  throw_if (RequiresPet ring && (bool_decide (msd_PetTag msg = None) || bool_decide (msd_PetTagProof msg = None)))
    ErrInvalidDocument ;;;
  throw_if (negb (RequiresPet ring) &&
            (bool_decide (is_Some (msd_PetTag msg)) || bool_decide (is_Some (msd_PetTagProof msg))))
    ErrInvalidDocument ;;;
  documentID <- of_outcome (wrap_err ErrInvalidDocument
    (GenerateDocumentID (msd_RingId msg) (msd_Document msg) (msd_Proof msg) (msd_PolicyId msg) (msd_Resource msg)
       (msd_Permission msg) (msd_Tier msg) (msd_Timestamp msg) (msd_PetTag msg) (msd_PetTagProof msg))) ;;
  existing <- GetDocument documentID ;;
  throw_if (bool_decide (is_Some existing)) ErrDocumentAlreadyExists ;;;
  let document := mkDocument documentID creatorDID (msd_RingId msg) (msd_Document msg) (msd_Proof msg)
    (msd_PolicyId msg) (msd_Resource msg) (msd_Permission msg) (msd_Tier msg) (msd_Timestamp msg)
    (msd_PetTag msg) (msd_PetTagProof msg) in
  of_outcome (validateDocument document) ;;;
  SetDocument document ;;;
  ret documentID.

Definition StoreKeyDerivation ctx (msg : MsgStoreKeyDerivation) : M S bytes :=
  _ <- finalizedRing (msk_RingId msg) ;;
  creatorDID <- GetActorDID ctx (msk_Creator msg) ;;
  let keyDerivationID := GenerateKeyDerivationID (msk_RingId msg) (msk_Derivation msg) (msk_PolicyId msg)
                           (msk_Resource msg) (msk_Permission msg) in
  existing <- GetKeyDerivation keyDerivationID ;;
  throw_if (bool_decide (is_Some existing)) ErrKeyDerivationAlreadyExists ;;;
  let keyDerivation := mkKeyDerivation keyDerivationID creatorDID (msk_RingId msg) (msk_Derivation msg)
    (msk_PolicyId msg) (msk_Resource msg) (msk_Permission msg) in
  of_outcome (validateKeyDerivation keyDerivation) ;;;
  SetKeyDerivation keyDerivation ;;;
  ret keyDerivationID.

(** ** Nodes *)

Definition CreateNodeInfo (msg : MsgCreateNodeInfo) : M S unit :=
  nodeKey <- signerPublicKeyHex (mcn_Creator msg) ;;
  existing <- GetNodeInfo nodeKey ;;
  throw_if (bool_decide (is_Some existing)) ErrNodeInfoAlreadyExists ;;;
  nodeInfo <- of_outcome (normalizeAndValidateNodeInfo
    (mkNodeInfo (mcn_PeerId msg) (mcn_ControllerKey msg) (mcn_WhitelistedPolicyIds msg) (mcn_WhitelistedRingIds msg))) ;;
  SetNodeInfo nodeKey nodeInfo.

Definition UpdateNodePeerId (msg : MsgUpdateNodePeerId) : M S unit :=
  nodeInfo <- authorizeNodeInfoUpdate (mun_NodeKey msg) (mun_Creator msg) ;;
  throw_if (bool_decide (mun_PeerId msg = [])) ErrInvalidNodeInfo ;;;
  throw_if (bool_decide (PeerId nodeInfo = mun_PeerId msg)) ErrNodeInfoUnchanged ;;;
  nodeInfo <- of_outcome (normalizeAndValidateNodeInfo
    (mkNodeInfo (mun_PeerId msg) (ControllerKey nodeInfo) (WhitelistedPolicyIds nodeInfo) (WhitelistedRingIds nodeInfo))) ;;
  SetNodeInfo (mun_NodeKey msg) nodeInfo.

Definition TransferNodeController (msg : MsgTransferNodeController) : M S unit :=
  previous <- authorizeNodeInfoUpdate (mtn_NodeKey msg) (mtn_Creator msg) ;;
  nodeInfo <- of_outcome (normalizeAndValidateNodeInfo
    (mkNodeInfo (PeerId previous) (mtn_ControllerKey msg) (WhitelistedPolicyIds previous) (WhitelistedRingIds previous))) ;;
  throw_if (bool_decide (ControllerKey nodeInfo = ControllerKey previous)) ErrNodeInfoUnchanged ;;;
  SetNodeInfo (mtn_NodeKey msg) nodeInfo.

(** A whitelist with one more entry, or with one entry less. *)
Definition whitelist_add (id : bytes) (l : list bytes) : outcome (list bytes) :=
  _ ← reject_if (bool_decide (id = [])) ErrInvalidNodeInfo;
  _ ← reject_if (bool_decide (id ∈ l)) ErrNodeWhitelistEntryExists;
  Ok (l ++ [id]).

Definition whitelist_remove (id : bytes) (l : list bytes) : outcome (list bytes) :=
  _ ← reject_if (bool_decide (id = [])) ErrInvalidNodeInfo;
  _ ← reject_if (negb (bool_decide (id ∈ l))) ErrNodeWhitelistEntryNotFound;
  Ok (remove_first id l).

Definition update_whitelist (f : bytes -> list bytes -> outcome (list bytes)) (target : option WhitelistTarget)
    (nodeInfo : NodeInfo) : outcome NodeInfo :=
  match target with
  | Some (Target_PolicyId id) =>
      l ← f id (WhitelistedPolicyIds nodeInfo);
      Ok (mkNodeInfo (PeerId nodeInfo) (ControllerKey nodeInfo) l (WhitelistedRingIds nodeInfo))
  | Some (Target_RingId id) =>
      l ← f id (WhitelistedRingIds nodeInfo);
      Ok (mkNodeInfo (PeerId nodeInfo) (ControllerKey nodeInfo) (WhitelistedPolicyIds nodeInfo) l)
  | None => Err ErrInvalidNodeInfo
  end.

Definition AddNodeToWhitelist (msg : MsgAddNodeToWhitelist) : M S unit :=
  nodeInfo <- authorizeNodeInfoUpdate (maw_NodeKey msg) (maw_Creator msg) ;;
  nodeInfo <- of_outcome (update_whitelist whitelist_add (maw_Target msg) nodeInfo) ;;
  nodeInfo <- of_outcome (normalizeAndValidateNodeInfo nodeInfo) ;;
  SetNodeInfo (maw_NodeKey msg) nodeInfo.

Definition RemoveNodeFromWhitelist (msg : MsgRemoveNodeFromWhitelist) : M S unit :=
  nodeInfo <- authorizeNodeInfoUpdate (mrw_NodeKey msg) (mrw_Creator msg) ;;
  nodeInfo <- of_outcome (update_whitelist whitelist_remove (mrw_Target msg) nodeInfo) ;;
  nodeInfo <- of_outcome (normalizeAndValidateNodeInfo nodeInfo) ;;
  SetNodeInfo (mrw_NodeKey msg) nodeInfo.

Definition DrainNodeKey (msg : MsgDrainNodeKey) : M S Coins :=
  _ <- authorizeNodeInfoUpdate (mdn_NodeKey msg) (mdn_Creator msg) ;;
  nodeAddr <- of_outcome (nodeKeyAccAddress (mdn_NodeKey msg)) ;;
  controllerAddr <- of_outcome (wrap_err ErrInvalidNodeInfo (sum_outcome (StringToBytes (mdn_Creator msg)))) ;;
  balance <- gets (SpendableCoins nodeAddr) ;;
  throw_if (IsZero balance) ErrNodeKeyBalanceEmpty ;;;
  SendCoins nodeAddr controllerAddr balance ;;;
  ret balance.

(** * Messages *)

(** The messages of the module's service. *)
Inductive OrbisMsg : Type :=
| UpdateParams_m (m : MsgUpdateParams)
| CreateRing_m (m : MsgCreateRing)
| FinalizeRing_m (m : MsgFinalizeRing)
| CancelPendingRing_m (m : MsgCancelPendingRing)
| StartRingReshare_m (m : MsgStartRingReshareByAcp)
| CancelRingReshare_m (m : MsgCancelRingReshareByAcp)
| SetRingPssInterval_m (m : MsgSetRingPssIntervalByAcp)
| ScheduleRingUpgrade_m (m : MsgScheduleRingUpgradeByAcp)
| CancelRingUpgrade_m (m : MsgCancelRingUpgradeByAcp)
| SetRingReporting_m (m : MsgSetRingReportingByAcp)
| AddRelay_m (m : MsgAddRingTrustedAuthRelayByAcp)
| RemoveRelay_m (m : MsgRemoveRingTrustedAuthRelayByAcp)
| FinalizeReshare_m (m : MsgFinalizeRingReshareByThresholdSignature)
| SubmitReport_m (m : MsgSubmitReport)
| StoreDocument_m (m : MsgStoreDocument)
| StoreKeyDerivation_m (m : MsgStoreKeyDerivation)
| CreateNodeInfo_m (m : MsgCreateNodeInfo)
| UpdateNodePeerId_m (m : MsgUpdateNodePeerId)
| TransferNodeController_m (m : MsgTransferNodeController)
| AddNodeToWhitelist_m (m : MsgAddNodeToWhitelist)
| RemoveNodeFromWhitelist_m (m : MsgRemoveNodeFromWhitelist)
| DrainNodeKey_m (m : MsgDrainNodeKey).

Definition validateBasic (m : OrbisMsg) : outcome unit :=
  match m with
  | UpdateParams_m m => MsgUpdateParams_ValidateBasic m
  | CreateRing_m m => MsgCreateRing_ValidateBasic m
  | FinalizeRing_m m => MsgFinalizeRing_ValidateBasic m
  | CancelPendingRing_m m => MsgCancelPendingRing_ValidateBasic m
  | StartRingReshare_m m => MsgStartRingReshareByAcp_ValidateBasic m
  | CancelRingReshare_m m => MsgCancelRingReshareByAcp_ValidateBasic m
  | SetRingPssInterval_m m => MsgSetRingPssIntervalByAcp_ValidateBasic m
  | ScheduleRingUpgrade_m m => MsgScheduleRingUpgradeByAcp_ValidateBasic m
  | CancelRingUpgrade_m m => MsgCancelRingUpgradeByAcp_ValidateBasic m
  | SetRingReporting_m m => MsgSetRingReportingByAcp_ValidateBasic m
  | AddRelay_m m => MsgAddRingTrustedAuthRelayByAcp_ValidateBasic m
  | RemoveRelay_m m => MsgRemoveRingTrustedAuthRelayByAcp_ValidateBasic m
  | FinalizeReshare_m m => MsgFinalizeRingReshare_ValidateBasic m
  | SubmitReport_m m => MsgSubmitReport_ValidateBasic m
  | StoreDocument_m m => MsgStoreDocument_ValidateBasic m
  | StoreKeyDerivation_m m => MsgStoreKeyDerivation_ValidateBasic m
  | CreateNodeInfo_m m => MsgCreateNodeInfo_ValidateBasic m
  | UpdateNodePeerId_m m => MsgUpdateNodePeerId_ValidateBasic m
  | TransferNodeController_m m => MsgTransferNodeController_ValidateBasic m
  | AddNodeToWhitelist_m m => MsgAddNodeToWhitelist_ValidateBasic m
  | RemoveNodeFromWhitelist_m m => MsgRemoveNodeFromWhitelist_ValidateBasic m
  | DrainNodeKey_m m => MsgDrainNodeKey_ValidateBasic m
  end.

Definition handle (authority : bytes) ctx (m : OrbisMsg) : M S unit :=
  match m with
  | UpdateParams_m m => UpdateParams authority m
  | CreateRing_m m => CreateRing ctx m ;;; ret tt
  | FinalizeRing_m m => FinalizeRing ctx m ;;; ret tt
  | CancelPendingRing_m m => CancelPendingRing ctx m
  | StartRingReshare_m m => StartRingReshareByAcp ctx m
  | CancelRingReshare_m m => CancelRingReshareByAcp ctx m
  | SetRingPssInterval_m m => SetRingPssIntervalByAcp ctx m
  | ScheduleRingUpgrade_m m => ScheduleRingUpgradeByAcp ctx m
  | CancelRingUpgrade_m m => CancelRingUpgradeByAcp ctx m
  | SetRingReporting_m m => SetRingReportingByAcp ctx m
  | AddRelay_m m => AddRingTrustedAuthRelayByAcp ctx m
  | RemoveRelay_m m => RemoveRingTrustedAuthRelayByAcp ctx m
  | FinalizeReshare_m m => FinalizeRingReshareByThresholdSignature ctx m
  | SubmitReport_m m => SubmitReport ctx m ;;; ret tt
  | StoreDocument_m m => StoreDocument ctx m ;;; ret tt
  | StoreKeyDerivation_m m => StoreKeyDerivation ctx m ;;; ret tt
  | CreateNodeInfo_m m => CreateNodeInfo m
  | UpdateNodePeerId_m m => UpdateNodePeerId m
  | TransferNodeController_m m => TransferNodeController m
  | AddNodeToWhitelist_m m => AddNodeToWhitelist m
  | RemoveNodeFromWhitelist_m m => RemoveNodeFromWhitelist m
  | DrainNodeKey_m m => DrainNodeKey m ;;; ret tt
  end.

(** A message is checked before it is handled. *)
Definition deliver (authority : bytes) ctx (m : OrbisMsg) : M S unit :=
  of_outcome (validateBasic m) ;;;
  handle authority ctx m.
End server.
