(* ===== verification/OrbisValid.v ===== *)
(** When a ring is well formed, and which changes keep it so.

    [ring_wf] is what the handlers of the module can rely on for a stored ring; the
    lemmas take it through every change that the module makes to a ring. The second
    part gives the effects of the handlers on the store of the module. *)
From Stdlib Require Import Ascii ZArith Lia.
From stdpp Require Import base numbers list gmap strings sorting.
From S2P Require Import Prelude Sdk Sha256 Utils Json GoText Canonical OrbisTypes OrbisIds OrbisRing OrbisReport OrbisKeeper OrbisServer.

(** * Sorted lists of names *)

#[local] Arguments canonicalStrings : simpl never.

Lemma canonicalStrings_perm l : canonicalStrings l ≡ₚ l.
Proof. apply merge_sort_Permutation. Qed.

Lemma canonicalStrings_sorted l : Sorted bytes_le (canonicalStrings l).
Proof. apply (Sorted_merge_sort bytes_le). Qed.

Lemma canonicalStrings_idem l : Sorted bytes_le l -> canonicalStrings l = l.
Proof.
  intros Hl. apply (Sorted_unique bytes_le); [apply canonicalStrings_sorted|done|apply canonicalStrings_perm].
Qed.

Lemma canonicalStrings_nil l : canonicalStrings l = [] <-> l = [].
Proof.
  split; [|by intros ->]. intros Hl. apply Permutation_nil. by rewrite <- Hl, canonicalStrings_perm.
Qed.

Lemma canonicalStrings_length l : length (canonicalStrings l) = length l.
Proof. by rewrite canonicalStrings_perm. Qed.

Lemma elem_of_canonicalStrings x l : x ∈ canonicalStrings l <-> x ∈ l.
Proof. by rewrite canonicalStrings_perm. Qed.

Lemma remove_first_perm x l : x ∈ l -> x :: remove_first x l ≡ₚ l.
Proof.
  induction l as [|y l IH]; intros Hx; [by apply elem_of_nil in Hx|]. cbn [remove_first].
  case_decide as Hy; [by subst|]. apply elem_of_cons in Hx as [->|Hx]; [done|]. rewrite <- (IH Hx) at 2. constructor.
Qed.

Lemma remove_first_not_in x l : NoDup l -> x ∉ remove_first x l.
Proof.
  intros Hl Hx. assert (Hin : x ∈ l).
  { clear Hl. induction l as [|y l IH]; [done|]. cbn [remove_first] in Hx. case_decide; [by subst; left|].
    apply elem_of_cons in Hx as [->|Hx]; [left|right; auto]. }
  rewrite <- (remove_first_perm _ _ Hin) in Hl. by apply NoDup_cons in Hl as [? _].
Qed.

(** * Valid rings *)

Section valid.
Context `{DIDDecode}.
Implicit Types (r : Ring).

(** The new committee and threshold of a pending reshare fit together. *)
Definition reshare_fits r : Prop :=
  reshareInProgress r = true ->
  validateEffectiveReshareThreshold (default (Threshold r) (NewThreshold r))
    (length (if decide (NewPeerNodeKeys r = []) then PeerNodeKeys r else NewPeerNodeKeys r)) = Ok tt.

Lemma validateRing_ok r : validateRing r = Ok tt <->
  rg_Id r <> [] /\ PeerNodeKeys r <> [] /\ (Threshold r <> 0 /\ Threshold r <= len (PeerNodeKeys r)) /\
  rg_PolicyId r <> [] /\ validateUpgradeInfo (rg_UpgradeInfo r) = Ok tt /\
  validateReportingConfig (rg_Reporting r) = Ok tt /\
  ValidateTrustedAuthRelayConfig (AllowTrustedAuthRelays r) (TrustedAuthRelayDids r) = Ok tt /\
  validateUniquePeerNodeKeys (PeerNodeKeys r) = Ok tt /\
  validateUniquePeerNodeKeys (NewPeerNodeKeys r) = Ok tt /\
  NewThreshold r <> Some 0 /\ reshare_fits r.
Proof.
  unfold validateRing. rewrite !outcome_seq_ok, !reject_if_ok, !bool_decide_eq_false, orb_false_iff, Z.eqb_neq, Z.ltb_ge.
  fold (len (PeerNodeKeys r)).
  assert (Hnew : (if decide (NewPeerNodeKeys r = []) then Ok tt else validateUniquePeerNodeKeys (NewPeerNodeKeys r)) = Ok tt
    <-> validateUniquePeerNodeKeys (NewPeerNodeKeys r) = Ok tt) by (case_decide as Hn; [by rewrite Hn|done]).
  rewrite Hnew. unfold reshare_fits. destruct (decide (NewPeerNodeKeys r = [])) as [->|]; destruct (reshareInProgress r); naive_solver.
Qed.

Lemma reshareInProgress_canonical r : reshareInProgress (canonicalRing r) = reshareInProgress r.
Proof.
  unfold reshareInProgress. cbn. do 2 f_equal. apply bool_decide_ext. by rewrite canonicalStrings_nil.
Qed.

(** Only the names count, not their order. *)
Lemma validateRing_canonical r : validateRing r = Ok tt -> validateRing (canonicalRing r) = Ok tt.
Proof.
  rewrite !validateRing_ok. intros (Hid & Hp & Ht & Hpol & Hu & Hrep & Hrel & Huq & Hnu & Hnt & Hfit).
  unfold reshare_fits. rewrite reshareInProgress_canonical. cbn. unfold len. rewrite !canonicalStrings_length.
  split_and!; try done.
  - by rewrite canonicalStrings_nil.
  - by destruct Ht.
  - by destruct Ht.
  - unfold ValidateTrustedAuthRelayConfig in *. rewrite outcome_seq_ok, reject_if_ok in *. destruct Hrel as [Ha Hd]. split.
    + destruct (AllowTrustedAuthRelays r); [done|]. apply negb_false_iff, bool_decide_eq_true in Ha.
      by rewrite Ha.
    + apply (each_unique_perm _ _ (TrustedAuthRelayDids r)); [by rewrite canonicalStrings_perm|done].
  - apply (each_unique_perm _ _ (PeerNodeKeys r)); [by rewrite canonicalStrings_perm|done].
  - apply (each_unique_perm _ _ (NewPeerNodeKeys r)); [by rewrite canonicalStrings_perm|done].
  - intros Hr. specialize (Hfit Hr).
    destruct (decide (NewPeerNodeKeys r = [])) as [Hn|Hn], (decide (canonicalStrings (NewPeerNodeKeys r) = [])) as [Hc|Hc];
      rewrite canonicalStrings_nil in Hc; try done; by rewrite canonicalStrings_length.
Qed.

Lemma canonicalRing_idem r : canonicalRing (canonicalRing r) = canonicalRing r.
Proof.
  unfold canonicalRing. cbn. by rewrite !(canonicalStrings_idem (canonicalStrings _)) by apply canonicalStrings_sorted.
Qed.

(** * Well-formed rings *)

(** The confirmations of a ring that is not final: from different members, not from
    all of them, and for the same keys. *)
Definition confirmations_wf r : Prop :=
  NoDup (cf_NodeKey <$> Confirmations r) /\
  Forall (fun c => cf_NodeKey c ∈ PeerNodeKeys r) (Confirmations r) /\
  (length (Confirmations r) < length (PeerNodeKeys r))%nat /\
  exists pk pet, pk <> [] /\ (is_Some pet <-> RequiresPet r = true) /\
    Forall (fun c => cf_RingPk c = pk /\ cf_PetPk c = pet) (Confirmations r).

(** Before the ring has its key there is nothing to reshare or to upgrade. *)
Definition pending_wf r : Prop :=
  NewPeerNodeKeys r = [] /\ NewThreshold r = None /\ NextVersion (rg_UpgradeInfo r) = None /\
  BlockNumberNonce r = 0 /\ rg_PetPk r = None /\ confirmations_wf r.

Definition final_wf r : Prop :=
  Confirmations r = [] /\ (is_Some (rg_PetPk r) <-> RequiresPet r = true).

Record ring_wf r : Prop := mkRingWf {
  wf_valid : validateRing r = Ok tt;
  wf_sorted : canonicalRing r = r;
  wf_threshold : 1 <= Threshold r /\ 1 <= default 1 (NewThreshold r);
  wf_pss : MinPSSIntervalSeconds <= PssInterval r;
  wf_stage : if decide (RingPk r = []) then pending_wf r else final_wf r;
}.

Lemma wf_pending r : ring_wf r -> RingPk r = [] -> pending_wf r.
Proof. intros Hr Hpk. pose proof (wf_stage r Hr) as Hs. by rewrite decide_True in Hs. Qed.

Lemma wf_final r : ring_wf r -> RingPk r <> [] -> final_wf r.
Proof. intros Hr Hpk. pose proof (wf_stage r Hr) as Hs. by rewrite decide_False in Hs. Qed.

(** A change of a ring that is final, which keeps its keys. *)
Lemma final_update r r' : ring_wf r -> RingPk r <> [] -> validateRing r' = Ok tt ->
  RingPk r' = RingPk r -> rg_PetPk r' = rg_PetPk r -> RequiresPet r' = RequiresPet r -> Confirmations r' = Confirmations r ->
  1 <= Threshold r' /\ 1 <= default 1 (NewThreshold r') -> MinPSSIntervalSeconds <= PssInterval r' ->
  ring_wf (canonicalRing r').
Proof.
  intros Hr Hpk Hv Ek Ep Eq Ec Ht Hpss. destruct (wf_final r Hr Hpk) as [Hc Hpet].
  split; [by apply validateRing_canonical|apply canonicalRing_idem|done|done|].
  cbn. rewrite decide_False by congruence. split; cbn; [congruence|]. by rewrite Ep, Eq.
Qed.

(** Relays may change at any stage. *)
Lemma relays_update r dids : ring_wf r -> validateRing (set_relays dids r) = Ok tt -> ring_wf (canonicalRing (set_relays dids r)).
Proof.
  intros Hr Hv. pose proof (wf_sorted r Hr) as Hsort. pose proof (f_equal PeerNodeKeys Hsort) as Hp. cbn in Hp.
  split; [by apply validateRing_canonical|apply canonicalRing_idem|exact (wf_threshold r Hr)|exact (wf_pss r Hr)|].
  cbn. destruct (decide (RingPk r = [])) as [Hpk|Hpk]; [|exact (wf_final r Hr Hpk)].
  destruct (wf_pending r Hr Hpk) as (Hn & Hnt & Hu & Hb & Hpet & Hc). unfold pending_wf, confirmations_wf in *. cbn.
  rewrite Hp, Hn. destruct Hc as (? & ? & ? & ?). by split_and!.
Qed.

(** A member confirms, and others have still to. *)
Lemma confirm_update r c : ring_wf r -> RingPk r = [] -> cf_NodeKey c ∈ PeerNodeKeys r ->
  cf_NodeKey c ∉ cf_NodeKey <$> Confirmations r -> cf_RingPk c <> [] -> (is_Some (cf_PetPk c) <-> RequiresPet r = true) ->
  Forall (fun c' => cf_RingPk c' = cf_RingPk c /\ cf_PetPk c' = cf_PetPk c) (Confirmations r) ->
  (length (Confirmations r ++ [c]) < length (PeerNodeKeys r))%nat ->
  ring_wf (canonicalRing (set_confirmations (Confirmations r ++ [c]) r)).
Proof.
  intros Hr Hpk Hin Hnew Hk Hpet Hag Hl. pose proof (wf_sorted r Hr) as Hsort. pose proof (f_equal PeerNodeKeys Hsort) as Hp.
  cbn in Hp. destruct (wf_pending r Hr Hpk) as (Hn & Hnt & Hu & Hb & Hpp & Hnd & Hf & _ & _).
  split; [apply validateRing_canonical; exact (wf_valid r Hr)|apply canonicalRing_idem|exact (wf_threshold r Hr)|exact (wf_pss r Hr)|].
  cbn. rewrite decide_True by done. unfold pending_wf, confirmations_wf. cbn. rewrite Hp, Hn.
  split_and!; try done.
  - rewrite fmap_app, (comm app). by constructor.
  - by apply Forall_app_2; [|apply Forall_singleton].
  - exists (cf_RingPk c), (cf_PetPk c). split_and!; [done|done|].
    by apply Forall_app_2; [|apply Forall_singleton].
Qed.

(** The last member confirms. Nothing that the validation looks at has changed, so it
    does not fail. *)
Lemma finalized_valid r pk pet : validateRing r = Ok tt -> validateRing (set_confirmations [] (set_pk pk pet r)) = Ok tt.
Proof. done. Qed.

Lemma finalize_update r pk pet : ring_wf r -> pk <> [] -> (is_Some pet <-> RequiresPet r = true) ->
  ring_wf (canonicalRing (set_confirmations [] (set_pk pk pet r))).
Proof.
  intros Hr Hk Hpet.
  split; [apply validateRing_canonical; exact (wf_valid r Hr)|apply canonicalRing_idem|exact (wf_threshold r Hr)|exact (wf_pss r Hr)|].
  cbn. rewrite decide_False by done. by split.
Qed.

(** ** Creation *)

Lemma new_ring_wf msg ringID did reporting :
  validateRing (newRing msg ringID did reporting) = Ok tt -> validateRingPSSInterval (newRing msg ringID did reporting) = Ok tt ->
  0 <= mcr_Threshold msg -> ring_wf (canonicalRing (newRing msg ringID did reporting)).
Proof.
  intros Hv Hpss Ht. unfold validateRingPSSInterval, ValidatePSSInterval in Hpss. rewrite reject_if_ok, Z.ltb_ge in Hpss.
  pose proof Hv as (_ & Hp & [Hz _] & _)%validateRing_ok. cbn in Hz, Hp.
  split; [by apply validateRing_canonical|apply canonicalRing_idem|cbn; lia|done|].
  cbn. unfold pending_wf, confirmations_wf. cbn. split_and!; try done; [constructor| |].
  - rewrite canonicalStrings_length. destruct (canonicalStrings _); [done|]. simpl. lia.
  - exists (lit "k"), (if mcr_RequiresPet msg then Some [] else None). split_and!; [done| |done].
    destruct (mcr_RequiresPet msg); [by split; [|eexists]|]. split; [by intros []|done].
Qed.

(** ** Reshares *)

(** The committee and the threshold that a pending reshare leads to. *)
Definition target_peers r : list bytes := if decide (NewPeerNodeKeys r = []) then PeerNodeKeys r else NewPeerNodeKeys r.
Definition target_threshold r : Z := default (Threshold r) (NewThreshold r).
Definition reshared r : Ring := set_reshare [] None (set_committee (target_peers r) (target_threshold r) r).

Lemma reshared_valid r : ring_wf r -> reshareInProgress r = true -> validateRing (reshared r) = Ok tt.
Proof.
  intros Hr Hp.
  pose proof (wf_threshold r Hr) as [Ht Hnt].
  pose proof (wf_valid r Hr) as (Hid & Hpeers & [Hz Hle] & Hpol & Hu & Hrep & Hrel & Huq & Hnu & Hn0 & Hfit)%validateRing_ok.
  apply validateRing_ok. cbn. specialize (Hfit Hp). fold (target_peers r) (target_threshold r) in Hfit.
  unfold validateEffectiveReshareThreshold in Hfit. rewrite reject_if_ok, Z.ltb_ge in Hfit.
  assert (Htt : 1 <= target_threshold r) by (unfold target_threshold; destruct (NewThreshold r); simpl in *; lia).
  assert (Hpeers' : target_peers r <> []) by (unfold target_peers; by case_decide).
  split_and!; try done; [lia| |by unfold target_peers; case_decide].
  pose proof (Z.mod_le (Z.of_nat (length (target_peers r))) (2 ^ 32)). unfold len. lia.
Qed.

(** A reshare that is pending for a well-formed ring can always be finished, and gives a
    well-formed ring: the validation in [ringForReshareFinalization] does not fail. *)
Lemma reshare_completes r : ring_wf r -> reshareInProgress r = true -> ringForReshareFinalization r = Ok (reshared r).
Proof.
  intros Hr Hp. unfold ringForReshareFinalization. rewrite Hp. cbn [negb reject_if].
  change (Ok tt ≫= ?f) with (f tt). cbv beta zeta. fold (target_peers r) (target_threshold r). fold (reshared r).
  by rewrite (reshared_valid r Hr Hp).
Qed.

Lemma reshare_pending_final r : ring_wf r -> reshareInProgress r = true -> RingPk r <> [].
Proof.
  intros Hr Hp Hpk. destruct (wf_pending r Hr Hpk) as (Hn & Hnt & _). unfold reshareInProgress in Hp. by rewrite Hn, Hnt in Hp.
Qed.

Lemma reshared_wf r nonce : ring_wf r -> reshareInProgress r = true -> ring_wf (canonicalRing (set_nonce nonce (reshared r))).
Proof.
  intros Hr Hp. pose proof (reshare_pending_final r Hr Hp) as Hpk. apply (final_update r); try done.
  - exact (reshared_valid r Hr Hp).
  - split; cbn; [|lia]. pose proof (wf_threshold r Hr) as [Ht Hnt]. unfold target_threshold.
    destruct (NewThreshold r); simpl in *; lia.
  - exact (wf_pss r Hr).
Qed.

(** ** Reshares that a report starts *)

(** The members without the accused one, and with its replacement. *)
Definition replaced (accused replacement : bytes) (peers : list bytes) : list bytes :=
  filter (fun nodeKey => nodeKey <> accused) peers ++ [replacement].

Lemma filter_ne_perm (x : bytes) l : NoDup l -> x ∈ l -> x :: filter (fun y => y <> x) l ≡ₚ l.
Proof.
  intros Hnd Hx. apply list_elem_of_split in Hx as (l1 & l2 & ->). rewrite <- Permutation_middle in Hnd |- *.
  apply NoDup_cons in Hnd as [Hx Hnd]. rewrite filter_cons_False by naive_solver. constructor. clear Hnd.
  induction (l1 ++ l2) as [|y l IH]; [done|]. rewrite not_elem_of_cons in Hx. destruct Hx as [Hy Hx].
  rewrite filter_cons_True by done. constructor. by apply IH.
Qed.

Lemma replaced_perm accused replacement peers : NoDup peers -> accused ∈ peers ->
  accused :: replaced accused replacement peers ≡ₚ replacement :: peers.
Proof.
  intros Hnd Hin. unfold replaced. rewrite (comm app). cbn. rewrite perm_swap. constructor. by apply filter_ne_perm.
Qed.

Lemma replaced_length accused replacement peers : NoDup peers -> accused ∈ peers ->
  length (replaced accused replacement peers) = length peers.
Proof.
  intros Hnd Hin. pose proof (Permutation_length (replaced_perm accused replacement peers Hnd Hin)) as Hl.
  simpl in Hl. lia.
Qed.

Lemma unique_keys l : validateUniquePeerNodeKeys l = Ok tt <-> Forall (fun x => validatePeerNodeKeyFormat x = Ok tt) l /\ NoDup l.
Proof. apply each_unique_ok. Qed.

Lemma replaced_unique accused replacement peers :
  validateUniquePeerNodeKeys peers = Ok tt -> accused ∈ peers -> replacement ∉ peers ->
  validatePeerNodeKeyFormat replacement = Ok tt -> validateUniquePeerNodeKeys (replaced accused replacement peers) = Ok tt.
Proof.
  rewrite !unique_keys. intros [Hf Hnd] Hin Hnew Hr.
  assert (Hall : Forall (fun x => validatePeerNodeKeyFormat x = Ok tt) (replacement :: peers) /\ NoDup (replacement :: peers)).
  { by split; constructor. }
  rewrite <- (replaced_perm accused replacement peers Hnd Hin) in Hall. by rewrite Forall_cons, NoDup_cons in Hall; naive_solver.
Qed.

Lemma backups_keep config l1 k l2 : validateReportingConfig config = Ok tt -> BackupNodeKeys config = l1 ++ k :: l2 ->
  validatePeerNodeKeyFormat k = Ok tt /\
  validateReportingConfig (mkReportingConfig (rep_DemeritConfig config) (l1 ++ l2) (rep_KickThreshold config)) = Ok tt.
Proof.
  unfold validateReportingConfig. rewrite !outcome_seq_ok. intros [Hv Hu] Hb. rewrite Hb in Hu.
  rewrite decide_False in Hu by (by destruct l1). cbn [BackupNodeKeys].
  rewrite unique_keys, <- Permutation_middle, Forall_cons, NoDup_cons in Hu. destruct Hu as [[Hk Hf] [_ Hnd]].
  split; [done|]. split; [done|]. case_decide; [done|]. by apply unique_keys.
Qed.

Definition auto_reshare accused replacement (backups : list bytes) r : Ring :=
  set_backups backups (set_reshare (canonicalStrings (replaced accused replacement (PeerNodeKeys r))) None r).

Lemma auto_reshare_valid r accused replacement l1 l2 :
  ring_wf r -> accused ∈ PeerNodeKeys r -> replacement ∉ PeerNodeKeys r ->
  BackupNodeKeys (rg_Reporting r) = l1 ++ replacement :: l2 -> len (PeerNodeKeys r) < 2 ^ 32 ->
  validateRing (auto_reshare accused replacement (l1 ++ l2) r) = Ok tt.
Proof.
  intros Hr Hin Hnew Hb Hsmall. pose proof (wf_threshold r Hr) as [Ht _].
  pose proof (wf_valid r Hr) as (Hid & Hpeers & [Hz Hle] & Hpol & Hu & Hrep & Hrel & Huq & _ & _ & _)%validateRing_ok.
  destruct (backups_keep _ _ _ _ Hrep Hb) as [Hk Hrep']. pose proof Huq as [_ Hnd]%unique_keys.
  apply validateRing_ok. unfold reshare_fits. cbn. split_and!; try done.
  - apply (each_unique_perm _ _ (replaced accused replacement (PeerNodeKeys r))); [by rewrite canonicalStrings_perm|].
    by apply replaced_unique.
  - intros _. rewrite decide_False by (rewrite canonicalStrings_nil; unfold replaced; by destruct (filter _ _)).
    unfold validateEffectiveReshareThreshold. rewrite reject_if_ok, Z.ltb_ge, canonicalStrings_length, replaced_length by done.
    rewrite Z.mod_small; unfold len in *; lia.
Qed.

Lemma auto_reshare_wf r accused replacement backups : ring_wf r -> RingPk r <> [] ->
  validateRing (auto_reshare accused replacement backups r) = Ok tt ->
  ring_wf (canonicalRing (auto_reshare accused replacement backups r)).
Proof.
  intros Hr Hpk Hv. apply (final_update r); try done; [|exact (wf_pss r Hr)].
  split; cbn; [exact (proj1 (wf_threshold r Hr))|lia].
Qed.
End valid.

(** * What the handlers write *)

(** Every handler reads and writes the store of the module, and calls the acp module,
    the accounts and the bank, which leave that store alone. The lemmas give, for
    each handler, the change of the store and the conditions on which it was made. *)

From S2P Require Import Prelude Sdk Sha256 Utils CoreKeeper Json GoText Canonical Bearer AcpTypes AcpState AcpKeeper AcpBearer AcpMsgs AcpServer AcpReach AcpClient OrbisTypes OrbisIds OrbisRing OrbisSign OrbisReport OrbisKeeper OrbisServer.

(** The module's store in the state of the chain. *)
Abbreviation orb := (own (T := OrbisStore)).
Abbreviation orb_is := (own_is (T := OrbisStore)).

(** The bank lives outside of the module's store. *)
Class BankFrame (S : Type) `{!Lens S OrbisStore, OrbisBank S} : Prop :=
  SendCoins_frame : forall from to amount (s : S), lens_get (T := OrbisStore) (SendCoins from to amount s).2 = lens_get s.

(** ** Changes of the store *)

Definition put_ring (r : Ring) (t : OrbisStore) : OrbisStore := set_rings (<[rg_Id r := canonicalRing r]> (rings t)) t.
Definition drop_ring (id : bytes) (t : OrbisStore) : OrbisStore := set_rings (delete id (rings t)) t.
Definition put_node (k : bytes) (info : NodeInfo) (t : OrbisStore) : OrbisStore := set_nodeInfos (<[k := info]> (nodeInfos t)) t.

(** Nodes that are registered, and nodes that allow the ring. *)
Definition registered (t : OrbisStore) (k : bytes) : Prop := is_Some (nodeInfos t !! k).
Definition allows (t : OrbisStore) (r : Ring) (k : bytes) : Prop :=
  exists info, nodeInfos t !! k = Some info /\ nodeInfoAllowsRing info r = true.

Section effects.
Context `{ProtoTypes, AcpCodec, Raccoon, Merkle, GoSort, AddressCodec, DIDKeys, Jose, PayloadJson}.
Context `{DIDDecode, Blst, JubjubWasm, NodeAddress, CoinsOps}.
Context {E : Type} `{ACPEngine E}.
Context {S : Type} `{!Lens S (AcpStore E)} `{!Lens S CoreStore} `{AcpAccounts S, CapabilityKeeper S} `{!Lens S OrbisStore}.
Context `{OrbisBank S} `{!ClientFrame S E OrbisStore} `{!BankFrame S}.
Implicit Types (ctx : OrbisCtx) (s : S) (t : OrbisStore) (r : Ring).

(** ** Frames *)

Lemma orb_get_framed {A} t (f : OrbisStore -> A) : preserves (orb_is t) (orb_get (S := S) f).
Proof. apply preserves_gets. Qed.

Lemma signerPublicKeyHex_framed t address : preserves (orb_is t) (signerPublicKeyHex (S := S) address).
Proof. unfold signerPublicKeyHex. preserve. Qed.

Lemma SendCoins_framed t from to amount : preserves (orb_is t) (SendCoins from to amount).
Proof.
  intros s <-. pose proof (SendCoins_frame from to amount s) as Hf. by destruct (SendCoins from to amount s) as [[a|e|] s'].
Qed.
#[local] Hint Resolve orb_get_framed signerPublicKeyHex_framed SendCoins_framed : preserves.

Lemma create_permission_framed t ctx policyID did : preserves (orb_is t) (ensureRingCreatePermission (S := S) ctx policyID did).
Proof. unfold ensureRingCreatePermission. preserve. Qed.

Lemma update_permission_framed t ctx r did : preserves (orb_is t) (ensureRingUpdatePermission (S := S) ctx r did).
Proof. unfold ensureRingUpdatePermission. preserve. Qed.

Lemma register_object_framed t ctx creator policyID ringID :
  preserves (orb_is t) (registerRingACPObject (S := S) ctx creator policyID ringID).
Proof. unfold registerRingACPObject. preserve. Qed.

Lemma node_infos_framed t l : preserves (orb_is t) (requireReportingBackupNodeInfos (S := S) l).
Proof. unfold requireReportingBackupNodeInfos, GetNodeInfo. preserve. Qed.

Lemma requireWhitelisted_framed t r k : preserves (orb_is t) (requireWhitelisted (S := S) r k).
Proof. unfold requireWhitelisted, GetNodeInfo. preserve. Qed.

Lemma whitelist_framed t r l : preserves (orb_is t) (requireReportingBackupNodeWhitelist (S := S) r l).
Proof. apply preserves_forM_. intros k. apply requireWhitelisted_framed. Qed.
#[local] Hint Resolve create_permission_framed update_permission_framed register_object_framed node_infos_framed
  requireWhitelisted_framed whitelist_framed : preserves.

(** ** Reading and writing *)

Lemma orb_get_run {A} (f : OrbisStore -> A) s : orb_get f s = (Ok (f (orb s)), s).
Proof. done. Qed.

Lemma yields_get {A B} (Q : B -> OrbisStore -> Prop) (f : OrbisStore -> A) (k : A -> M S B) s :
  yields Q (k (f (orb s)) s) -> yields Q (bind (orb_get f) k s).
Proof. done. Qed.

Lemma yields_mod (Q : unit -> OrbisStore -> Prop) f s : Q tt (f (orb s)) -> yields Q (orb_mod f s).
Proof. intros Hq [] s' [= <-]. by rewrite own_set. Qed.

Lemma yields_set (Q : unit -> OrbisStore -> Prop) key f s : (key <> [] -> Q tt (f (orb s))) -> yields Q (orb_set key f s).
Proof.
  intros Hq. unfold orb_set. destruct (bool_decide_reflect (key = [])) as [|Hk]; [done|]. by apply yields_mod, Hq.
Qed.

(** The last write of a handler, and what it returns. *)
Lemma yields_end {A} (Q : A -> OrbisStore -> Prop) (m : M S unit) a s :
  yields (fun _ t => Q a t) (m s) -> yields Q (bind m (fun _ => ret a) s).
Proof. intros Hm. apply (yields_then (fun _ t => Q a t)); [done|]. intros [] s1 Hq. by apply yields_ret. Qed.
End effects.

#[export] Hint Resolve orb_get_framed signerPublicKeyHex_framed SendCoins_framed create_permission_framed
  update_permission_framed register_object_framed node_infos_framed requireWhitelisted_framed whitelist_framed : preserves.
