(* ===== verification/OrbisStep.v ===== *)
(** The abstract orbis module: what may happen to its store, whoever acts
    ([orbis_step]), and that every message of the module does no more than that.

    A step says what has changed and on which condition: what has been checked, and who
    has to have acted. Who acts is outside of the store, so a step refers to it by
    [evidence]; [evidence_of] is the evidence that a message of the chain gives. *)
From Stdlib Require Import Ascii ZArith Lia.
From stdpp Require Import base numbers list gmap strings sorting.
From S2P Require Import Prelude Sdk Sha256 Utils CoreKeeper Json GoText Canonical Bearer AcpTypes AcpState AcpKeeper AcpBearer AcpMsgs AcpServer AcpReach AcpClient OrbisTypes OrbisIds OrbisRing OrbisSign OrbisReport OrbisKeeper OrbisServer OrbisValid.

(** * Parts of a step *)

Section parts.
Context `{AddressCodec, DIDDecode, Blst, JubjubWasm}.
Implicit Types (ctx : OrbisCtx) (t : OrbisStore) (r : Ring).

(** The upgrade of a ring takes effect once its time has come. *)
Definition matured ctx r r1 : Prop := maybeNormalizeMaturedRingUpgrade (block_time ctx) r = Ok r1.

(** What the policy of a ring lets its operators change. *)
Inductive ring_update ctx t r : Ring -> Prop :=
| update_reshare r1 peers threshold :
    matured ctx r r1 -> validateStartRingReshare peers threshold r1 = Ok tt -> Forall (allows t r1) peers ->
    ring_update ctx t r (set_reshare peers threshold r1)
| update_cancel_reshare :
    reshareInProgress r = true -> ring_update ctx t r (set_reshare [] None r)
| update_pss r1 interval :
    matured ctx r r1 -> MinPSSIntervalSeconds <= interval -> interval <> PssInterval r1 ->
    ring_update ctx t r (set_pss interval r1)
| update_schedule now next activation :
    blockUnixTime ErrInvalidRing (block_time ctx) = Ok now ->
    validateRingUpgradeSchedule next activation now (normalizeMaturedRingUpgrade now r) = Ok tt ->
    ring_update ctx t r (setRingUpgrade next activation (normalizeMaturedRingUpgrade now r))
| update_unschedule now activation :
    blockUnixTime ErrInvalidRing (block_time ctx) = Ok now ->
    is_Some (NextVersion (rg_UpgradeInfo r)) -> ActivationTime (rg_UpgradeInfo r) = Some activation -> now < activation ->
    ring_update ctx t r (clearRingUpgrade r)
| update_reporting r1 config :
    matured ctx r r1 -> Forall (allows t (set_reporting config r1)) (BackupNodeKeys config) ->
    ring_update ctx t r (set_reporting config r1).

(** A confirmation that a pending ring takes: from a member that has not confirmed yet,
    with a key for PET exactly if the ring requires one, and in agreement with the
    members that have confirmed. *)
Record confirmation_ok r (c : RingConfirmation) : Prop := mkConfirmationOk {
  co_pending : RingPk r = [];
  co_key : cf_RingPk c <> [];
  co_pet : is_Some (cf_PetPk c) <-> RequiresPet r = true;
  co_member : cf_NodeKey c ∈ PeerNodeKeys r;
  co_new : cf_NodeKey c ∉ cf_NodeKey <$> Confirmations r;
  co_agrees : Forall (fun c' => cf_RingPk c' = cf_RingPk c /\
    (RequiresPet r = true -> default [] (cf_PetPk c') = default [] (cf_PetPk c))) (Confirmations r);
}.

(** What has been checked of a report before it is accepted. *)
Record report_ok ctx t (report : ReportEnvelope) (payload : reportPayload) r
    (now : Z) (reportID sessionID scheme signature : bytes) : Prop := mkReportOk {
  ro_time : blockUnixTime ErrInvalidReport (block_time ctx) = Ok now;
  ro_shape : validateReportEnvelopeShape report now = Ok tt;
  ro_chain : ChainId report = ChainID ctx;
  ro_signed : exists message, reportEnvelopeCanonicalMessageAndID report = Ok (message, reportID) /\
    verifyThresholdSignature scheme (RingPk r) message signature = Ok tt;
  ro_fresh : reportID ∉ acceptedReports t;
  ro_payload : reportPayloadOf report = Ok payload;
  ro_ring : rings t !! rp_RingId report = Some r;
  ro_final : RingPk r <> [];
  ro_ringPk : rp_RingPk report = RingPk r;
  ro_state : reportRingStateDigestMatches r (RingStateSha256 report) = Ok true;
  ro_version : pl_originProtocolVersion payload = effectiveReportProtocolVersion r (ObservedAt report);
  ro_committees : validateReportCommittees report payload r = Ok tt;
  ro_accused : exists info, nodeInfos t !! AccusedNodeKey report = Some info /\ PeerId info = AccusedPeerId report;
  ro_session : reportSessionDedupeID report payload = Ok sessionID;
  ro_fresh_session : sessionID ∉ acceptedSessions t;
}.

Definition add_pair (reportID sessionID : bytes) (expiresAt : Z) t : OrbisStore :=
  set_accepted ({[reportID]} ∪ acceptedReports t) ({[sessionID]} ∪ acceptedSessions t)
    (<[acceptedExpiryKey expiresAt reportID := sessionID]> (expiryIndex t)) t.

(** The demerits of a node, and what they become. *)
Definition demerits t (ringID nodeKey : bytes) : option nodeDemeritState :=
  bz ← nodeDemerits t !! nodeDemeritStoreKey ringID nodeKey; decodeDemeritState bz.

Definition next_demerits t (ringID nodeKey : bytes) (amount now reset : Z) : nodeDemeritState :=
  let state := default (mkDemeritState 0 now) (effectiveState now reset (demerits t ringID nodeKey)) in
  mkDemeritState (uint64 (points state + amount)) (windowStartedAt state).

Definition put_demerits (ringID nodeKey : bytes) (state : nodeDemeritState) t : OrbisStore :=
  set_nodeDemerits (<[nodeDemeritStoreKey ringID nodeKey := encodeDemeritState state]> (nodeDemerits t)) t.

(** A backup that can replace a member. *)
Definition eligible t r (k : bytes) : Prop := (k ∉ PeerNodeKeys r) /\ allows t r k.

(** The accused node is replaced when it has enough demerits and a backup can take its
    place. *)
Inductive auto_scheduled t r (accused : bytes) (points : Z) : OrbisStore -> Prop :=
| auto_none :
    points < rep_KickThreshold (rg_Reporting r) \/ reshareInProgress r = true \/ accused ∉ PeerNodeKeys r \/
      Forall (fun k => ~ eligible t r k) (BackupNodeKeys (rg_Reporting r)) ->
    auto_scheduled t r accused points t
| auto_replace k l1 l2 :
    rep_KickThreshold (rg_Reporting r) <= points -> reshareInProgress r = false -> accused ∈ PeerNodeKeys r ->
    BackupNodeKeys (rg_Reporting r) = l1 ++ k :: l2 -> Forall (fun k => ~ eligible t r k) l1 -> eligible t r k ->
    validateRing (auto_reshare accused k (l1 ++ l2) r) = Ok tt ->
    auto_scheduled t r accused points (put_ring (auto_reshare accused k (l1 ++ l2) r) t).

(** A document or a key derivation for a ring that is final. *)
Definition final_ring t (id : bytes) r : Prop := rings t !! id = Some r /\ RingPk r <> [].

Definition document_id (d : Document) : outcome bytes :=
  GenerateDocumentID (doc_RingId d) (doc_Document d) (doc_Proof d) (doc_PolicyId d) (doc_Resource d) (doc_Permission d)
    (doc_Tier d) (doc_Timestamp d) (doc_PetTag d) (doc_PetTagProof d).

(** * Steps *)

(** Who acts: on behalf of the module's authority; as a creator of rings under a policy;
    as the member that confirms; as one who may cancel a pending ring; as an operator
    whom the policy of a ring permits to update it; as the controller of a node, or the
    node itself while it has none. *)
Record evidence : Type := mkEvidence {
  ev_governs : Prop;
  ev_creates : bytes -> bytes -> Prop;
  ev_confirms : bytes -> RingConfirmation -> Prop;
  ev_cancels : bytes -> Ring -> Prop;
  ev_updates : bytes -> Ring -> Prop;
  ev_controls : bytes -> option NodeInfo -> Prop;
}.

(** The confirmation contradicts an earlier one. *)
Definition conflicts r (c : RingConfirmation) : Prop := exists c', c' ∈ Confirmations r /\
  (cf_RingPk c' <> cf_RingPk c \/ RequiresPet r = true /\ default [] (cf_PetPk c') <> default [] (cf_PetPk c)).

Inductive orbis_step (ev : evidence) ctx t : OrbisStore -> Prop :=
| step_none : orbis_step ev ctx t t
| step_orbis_params p : ev_governs ev -> Params_Validate p = Ok tt -> orbis_step ev ctx t (set_orb_params (Some p) t)
| step_node k info raw :
    ev_controls ev k (nodeInfos t !! k) -> k <> [] -> normalizeAndValidateNodeInfo raw = Ok info ->
    orbis_step ev ctx t (put_node k info t)
| step_document d r :
    final_ring t (doc_RingId d) r -> documents t !! doc_Id d = None -> validateDocument d = Ok tt ->
    document_id d = Ok (doc_Id d) -> (is_Some (doc_PetTag d) <-> RequiresPet r = true) ->
    (is_Some (doc_PetTagProof d) <-> RequiresPet r = true) ->
    orbis_step ev ctx t (set_documents (<[doc_Id d := d]> (documents t)) t)
| step_key_derivation kd r :
    final_ring t (kd_RingId kd) r -> keyDerivations t !! kd_Id kd = None -> validateKeyDerivation kd = Ok tt ->
    kd_Id kd = GenerateKeyDerivationID (kd_RingId kd) (Derivation kd) (kd_PolicyId kd) (kd_Resource kd) (kd_Permission kd) ->
    orbis_step ev ctx t (set_keyDerivations (<[kd_Id kd := kd]> (keyDerivations t)) t)
| step_create msg did reporting ringID :
    ringID = GenerateRingID (canonicalStrings (mcr_PeerNodeKeys msg)) (mcr_Threshold msg) (mcr_PssInterval msg)
      (mcr_PolicyId msg) (mcr_Nonce msg) (mcr_CurrentVersion msg) (mcr_AllowTrustedAuthRelays msg)
      (canonicalStrings (mcr_TrustedAuthRelayDids msg)) (mcr_RequiresPet msg) ->
    ev_creates ev (mcr_PolicyId msg) did -> 0 <= mcr_Threshold msg -> rings t !! ringID = None ->
    validateRing (newRing msg ringID did reporting) = Ok tt -> validateRingPSSInterval (newRing msg ringID did reporting) = Ok tt ->
    Forall (registered t) (mcr_PeerNodeKeys msg) -> Forall (registered t) (BackupNodeKeys reporting) ->
    orbis_step ev ctx t (put_ring (newRing msg ringID did reporting) t)
| step_conflict id r c :
    ev_confirms ev id c -> rings t !! id = Some r -> RingPk r = [] -> cf_NodeKey c ∈ PeerNodeKeys r ->
    cf_NodeKey c ∉ cf_NodeKey <$> Confirmations r -> conflicts r c -> orbis_step ev ctx t (drop_ring (rg_Id r) t)
| step_cancel id r :
    ev_cancels ev id r -> rings t !! id = Some r -> RingPk r = [] -> orbis_step ev ctx t (drop_ring (rg_Id r) t)
| step_confirm id r c :
    ev_confirms ev id c -> rings t !! id = Some r -> confirmation_ok r c ->
    (length (Confirmations r ++ [c]) < length (PeerNodeKeys r))%nat ->
    orbis_step ev ctx t (put_ring (set_confirmations (Confirmations r ++ [c]) r) t)
| step_finalize id r c :
    ev_confirms ev id c -> rings t !! id = Some r -> confirmation_ok r c ->
    (length (PeerNodeKeys r) <= length (Confirmations r ++ [c]))%nat ->
    orbis_step ev ctx t (put_ring (set_confirmations [] (set_pk (cf_RingPk c) (cf_PetPk c) r)) t)
| step_update id r r' :
    ev_updates ev id r -> final_ring t id r -> ring_update ctx t r r' -> validateRing r' = Ok tt -> orbis_step ev ctx t (put_ring r' t)
| step_relays id r dids :
    ev_updates ev id r -> rings t !! id = Some r -> AllowTrustedAuthRelays r = true -> validateRing (set_relays dids r) = Ok tt ->
    orbis_step ev ctx t (put_ring (set_relays dids r) t)
| step_reshared id r r' scheme signature :
    rings t !! id = Some r -> ringForReshareFinalization r = Ok r' ->
    verifyThresholdSignatureForRingUpdate r (ringReshareFinalizeSignBytes (ChainID ctx) r r') scheme signature = Ok tt ->
    orbis_step ev ctx t (put_ring (set_nonce (uint64 (block_height ctx)) r') t)
| step_report report payload r now reportID sessionID scheme signature amount state t' :
    report_ok ctx t report payload r now reportID sessionID scheme signature ->
    DemeritAmountForReportType (Some r) (ReportType report) = Ok amount ->
    state = next_demerits t (rp_RingId report) (AccusedNodeKey report) amount now
      (ResetIntervalSeconds (rep_DemeritConfig (rg_Reporting r))) ->
    auto_scheduled (put_demerits (rp_RingId report) (AccusedNodeKey report) state
      (add_pair reportID sessionID (uint64 (now + ReportTTLSeconds)) t)) r (AccusedNodeKey report) (points state) t' ->
    orbis_step ev ctx t t'
| step_expired :
    orbis_step ev ctx t (foldl deletePair t (expiredPairs (uint64 (unix (block_time ctx))) (store_items (expiryIndex t)))).
End parts.

(** * Every message is a step *)

Section refinement.
Context `{ProtoTypes, AcpCodec, Raccoon, Merkle, GoSort, AddressCodec, DIDKeys, Jose, PayloadJson}.
Context `{DIDDecode, Blst, JubjubWasm, NodeAddress, CoinsOps}.
Context {E : Type} `{ACPEngine E}.
Context {S : Type} `{!Lens S (AcpStore E)} `{!Lens S CoreStore} `{AcpAccounts S, CapabilityKeeper S} `{!Lens S OrbisStore}.
Context `{OrbisBank S} `{!ClientFrame S E OrbisStore} `{!BankFrame S}.
Implicit Types (ctx : OrbisCtx) (s : S) (t : OrbisStore) (r : Ring).

(** ** Who acts in a message *)

(** The messages that update a ring under its policy, and those that write the
    information on a node: the ring, and the sender. *)
Definition update_of (m : OrbisMsg) : option (bytes * bytes) :=
  match m with
  | StartRingReshare_m m => Some (msr_RingId m, msr_Creator m)
  | CancelRingReshare_m m => Some (mcs_RingId m, mcs_Creator m)
  | SetRingPssInterval_m m => Some (mps_RingId m, mps_Creator m)
  | ScheduleRingUpgrade_m m => Some (msu_RingId m, msu_Creator m)
  | CancelRingUpgrade_m m => Some (mcu_RingId m, mcu_Creator m)
  | SetRingReporting_m m => Some (mrr_RingId m, mrr_Creator m)
  | AddRelay_m m => Some (mar_RingId m, mar_Creator m)
  | RemoveRelay_m m => Some (mrm_RingId m, mrm_Creator m)
  | _ => None
  end.

Definition node_writer (m : OrbisMsg) : option bytes :=
  match m with
  | CreateNodeInfo_m m => Some (mcn_Creator m)
  | UpdateNodePeerId_m m => Some (mun_Creator m)
  | TransferNodeController_m m => Some (mtn_Creator m)
  | AddNodeToWhitelist_m m => Some (maw_Creator m)
  | RemoveNodeFromWhitelist_m m => Some (mrw_Creator m)
  | _ => None
  end.

(** The public key of the sender's account, and what the acp module has been asked. *)
Definition signs s (creator key : bytes) : Prop := signerPublicKeyHex creator s = (Ok key, s).
Definition acts_as ctx s (creator did : bytes) s1 : Prop := GetActorDID ctx creator s = (Ok did, s1).
Definition acp_permits ctx s (policyID : bytes) (object : Object) (permission did : bytes) : Prop :=
  exists s1, VerifyAccessRequest ctx policyID [mkOperation object permission] did s = (Ok true, s1).

Definition evidence_of (authority : bytes) ctx (m : OrbisMsg) s : evidence := {|
  ev_governs := exists req, m = UpdateParams_m req /\ oup_Authority req = authority;
  ev_creates policyID did := exists msg s1, m = CreateRing_m msg /\ acts_as ctx s (mcr_Creator msg) did s1 /\
    acp_permits ctx s1 policyID (mkObject ACPResourceRingPolicy policyID) ACPPermissionCreateRing did;
  ev_confirms id c := exists msg, m = FinalizeRing_m msg /\ mfr_RingId msg = id /\ signs s (mfr_Creator msg) (cf_NodeKey c) /\
    cf_RingPk c = mfr_RingPk msg /\ cf_PetPk c = mfr_PetPk msg;
  ev_cancels id r := exists msg, m = CancelPendingRing_m msg /\ mcp_RingId msg = id /\
    ((exists key, signs s (mcp_Creator msg) key /\ key ∈ PeerNodeKeys r) \/
     (exists s1, acts_as ctx s (mcp_Creator msg) (CreatorDid r) s1));
  ev_updates id r := exists creator did s1, update_of m = Some (id, creator) /\ acts_as ctx s creator did s1 /\
    acp_permits ctx s1 (rg_PolicyId r) (mkObject ACPResourceRing (rg_Id r)) ACPPermissionUpdateRing did;
  ev_controls k info := exists creator key, node_writer m = Some creator /\ signs s creator key /\
    key = match info with Some i => ControllerKey i | None => k end;
|}.

Variable authority : bytes.

(** The handler of a message makes a step. *)
Definition steps {A} ctx (m : OrbisMsg) (handler : M S A) : Prop := forall s,
  yields (fun _ t' => orbis_step (evidence_of authority ctx m s) ctx (orb s) t') (handler s).

(** Work off the next statement of a handler: a check, a conversion, a read, or a call
    that leaves the store alone. *)
Ltac handler_step :=
  match goal with
  | |- yields _ (bind (throw_if _ _) _ _) => apply yields_throw_if
  | |- yields _ (bind (of_outcome _) _ _) => apply yields_of_outcome
  | |- yields _ (bind (of_option _ _) _ _) => apply yields_of_option
  | |- yields _ (bind (orb_get _) _ _) => apply yields_get
  | |- yields _ (bind _ _ _) => apply yields_bind; [eauto with preserves|]
  end.

(** ** Pieces of handlers *)

Lemma yields_existing {B} (Q : B -> OrbisStore -> Prop) id (k : Ring -> M S B) s :
  (forall r, rings (orb s) !! id = Some r -> yields Q (k r s)) -> yields Q (bind (existingRing id) k s).
Proof.
  intros Hk b s'. unfold existingRing, GetRing. rewrite bind_run, bind_run, orb_get_run.
  destruct (rings (orb s) !! id) as [r|] eqn:Hr; [|done]. by apply Hk.
Qed.

Lemma yields_finalized {B} (Q : B -> OrbisStore -> Prop) r (k : unit -> M S B) s :
  (RingPk r <> [] -> yields Q (k tt s)) -> yields Q (bind (of_outcome (requireRingFinalized r)) k s).
Proof.
  intros Hk. apply yields_of_outcome. intros [] Hf. apply Hk. unfold requireRingFinalized in Hf.
  by rewrite reject_if_ok, bool_decide_eq_false in Hf.
Qed.

(** Calls that only read. *)
Lemma yields_read {A B} (Q : B -> OrbisStore -> Prop) (m : M S A) (k : A -> M S B) s :
  preserves (fun s1 => s1 = s) m -> (forall a, m s = (Ok a, s) -> yields Q (k a s)) -> yields Q (bind m k s).
Proof.
  intros Hm Hk b s'. specialize (Hm s eq_refl). rewrite bind_run. destruct (m s) as [[a|e|] s1] eqn:Em; [|done|done].
  subst s1. by apply Hk.
Qed.

Lemma yields_signer {B} (Q : B -> OrbisStore -> Prop) creator (k : bytes -> M S B) s :
  (forall key, signs s creator key -> yields Q (k key s)) -> yields Q (bind (signerPublicKeyHex creator) k s).
Proof. apply yields_read. unfold signerPublicKeyHex. preserve. Qed.

(** A loop that only checks. *)
Lemma yields_checks {A B} (Q : B -> OrbisStore -> Prop) (P : A -> Prop) (f : A -> M S unit) l (k : unit -> M S B) s :
  (forall x, preserves (fun s1 => s1 = s) (f x)) -> (forall x, f x s = (Ok tt, s) -> P x) ->
  (Forall P l -> yields Q (k tt s)) -> yields Q (bind (forM_ f l) k s).
Proof.
  intros Hf HP Hk. apply yields_read; [by apply preserves_forM_|]. intros [] Hrun. apply Hk. clear Hk.
  induction l as [|x l IH]; [constructor|]. cbn [forM_] in Hrun. rewrite bind_run in Hrun. specialize (Hf x s eq_refl).
  destruct (f x s) as [[[]|e|] s1] eqn:Ex; [|done|done]. subst s1. constructor; [by apply HP|by apply IH].
Qed.

Lemma yields_whitelisted {B} (Q : B -> OrbisStore -> Prop) r l (k : unit -> M S B) s :
  (Forall (allows (orb s) r) l -> yields Q (k tt s)) -> yields Q (bind (forM_ (requireWhitelisted r) l) k s).
Proof.
  apply yields_checks; intros x; unfold requireWhitelisted, GetNodeInfo; [preserve; apply preserves_gets|].
  rewrite bind_run, orb_get_run, bind_run. destruct (nodeInfos (orb s) !! x) as [info|] eqn:Hi; [|done]. cbn [of_option ret].
  intros [Ha _]%throw_if_ok. apply negb_false_iff in Ha. by exists info.
Qed.

Lemma yields_registered {B} (Q : B -> OrbisStore -> Prop) l (k : unit -> M S B) s :
  (Forall (registered (orb s)) l -> yields Q (k tt s)) -> yields Q (bind (requireReportingBackupNodeInfos l) k s).
Proof.
  apply yields_checks; intros x; unfold GetNodeInfo; [preserve; apply preserves_gets|].
  rewrite bind_run, orb_get_run. intros [Ha _]%throw_if_ok. rewrite bool_decide_eq_false in Ha. by apply not_eq_None_Some.
Qed.

(** The ring that an operator may update. *)
Definition may_update ctx s creator r : Prop := exists did s1, acts_as ctx s creator did s1 /\
  acp_permits ctx s1 (rg_PolicyId r) (mkObject ACPResourceRing (rg_Id r)) ACPPermissionUpdateRing did.

Lemma yields_permission {B} (Q : B -> OrbisStore -> Prop) ctx creator r (k : M S B) s :
  (forall s1, may_update ctx s creator r -> orb s1 = orb s -> yields Q (k s1)) ->
  yields Q (bind (GetActorDID ctx creator) (fun did => ensureRingUpdatePermission ctx r did ;;; k) s).
Proof.
  intros Hk. apply yields_bind; [eauto with preserves|]. intros did s1 Hd Hs1. unfold ensureRingUpdatePermission.
  intros b s'. rewrite bind_run, bind_run. destruct (bool_decide (rg_PolicyId r = [])); [done|]. cbn [throw_if ret]. rewrite bind_run.
  destruct (VerifyAccessRequest ctx _ _ did s1) as [[valid|e|] s2] eqn:Ev; [|done|done].
  assert (Hs2 : orb s2 = orb s1) by (eapply framed_ok; [|exact Ev]; eauto with preserves).
  destruct valid; [|done]. cbn [negb throw_if ret]. apply Hk; [|congruence]. exists did, s1. split; [done|]. by exists s2.
Qed.

Lemma yields_for_update {B} (Q : B -> OrbisStore -> Prop) ctx id creator (k : Ring -> M S B) s :
  (forall r s1, final_ring (orb s) id r -> may_update ctx s creator r -> orb s1 = orb s -> yields Q (k r s1)) ->
  yields Q (bind (ringForUpdate ctx id creator) k s).
Proof.
  intros Hk. apply (yields_then (fun r t => final_ring (orb s) id r /\ may_update ctx s creator r /\ t = orb s)).
  - apply yields_existing. intros r Hr. apply yields_finalized. intros Hpk.
    apply yields_permission. intros s1 Hm Hs1. by apply yields_ret.
  - intros r s1 (Hf & Hm & Hs1). by apply Hk.
Qed.

Lemma yields_put ev ctx r s (t : OrbisStore) :
  (rg_Id r <> [] -> orbis_step ev ctx t (put_ring r (orb s))) -> yields (fun _ t' => orbis_step ev ctx t t') (SetRing (S := S) r s).
Proof. intros Hr. unfold SetRing. by apply yields_set. Qed.

Lemma yields_put_valid ev ctx r s (t : OrbisStore) : (validateRing r = Ok tt -> orbis_step ev ctx t (put_ring r (orb s))) ->
  yields (fun _ t' => orbis_step ev ctx t t') (setValidRing (S := S) r s).
Proof. intros Hr. unfold setValidRing. handler_step. intros [] Hv. apply yields_put. intros _. by apply Hr. Qed.

(** ** The life of a ring *)

Lemma yields_creation {B} (Q : B -> OrbisStore -> Prop) ctx policyID did (k : unit -> M S B) s :
  (forall s1, acp_permits ctx s policyID (mkObject ACPResourceRingPolicy policyID) ACPPermissionCreateRing did ->
     orb s1 = orb s -> yields Q (k tt s1)) ->
  yields Q (bind (ensureRingCreatePermission ctx policyID did) k s).
Proof.
  intros Hk b s'. unfold ensureRingCreatePermission. rewrite bind_run, bind_run.
  destruct (bool_decide (policyID = [])); [done|]. cbn [throw_if ret]. rewrite bind_run.
  destruct (VerifyAccessRequest ctx _ _ did s) as [[valid|e|] s2] eqn:Ev; [|done|done].
  assert (Hs2 : orb s2 = orb s) by (eapply framed_ok; [|exact Ev]; eauto with preserves).
  destruct valid; [|done]. cbn [negb throw_if ret]. apply Hk; [|done]. by exists s2.
Qed.

Lemma CreateRing_step ctx msg : 0 <= mcr_Threshold msg -> steps ctx (CreateRing_m msg) (CreateRing (S := S) ctx msg).
Proof.
  intros Ht s. unfold CreateRing, GetRing, GetParams. handler_step. intros did s1 Hd Hs1. cbv zeta.
  apply yields_registered. intros Hpeers. handler_step. handler_step. intros Hnew%bool_decide_eq_false.
  handler_step. set (reporting := default _ _). handler_step. intros [] Hpss. handler_step. intros [] Hv.
  apply yields_registered. intros Hback. apply yields_creation. intros s4 Hperm Hs4. handler_step. intros [] s5 _ Hs5.
  apply yields_end, yields_put. intros _. rewrite Hs5, Hs4, Hs1. rewrite Hs1 in Hback, Hnew, Hpeers.
  eapply step_create; try done.
  - exists msg, s1. done.
  - by apply eq_None_not_Some.
  - by rewrite canonicalStrings_perm in Hpeers.
Qed.

Lemma CancelPendingRing_step ctx msg : steps ctx (CancelPendingRing_m msg) (CancelPendingRing (S := S) ctx msg).
Proof.
  intros s. unfold CancelPendingRing. apply yields_existing. intros r Hr.
  handler_step. intros Hpk%negb_false_iff%bool_decide_eq_true. apply yields_signer. intros key Hkey.
  apply (yields_then (fun b t => t = orb s /\ (b = true -> ev_cancels (evidence_of authority ctx (CancelPendingRing_m msg) s) (mcp_RingId msg) r))).
  - destruct (decide (key ∈ PeerNodeKeys r)) as [Hin|_].
    + apply yields_ret. split; [done|]. intros _. exists msg. split_and!; [done|done|]. left. by exists key.
    + handler_step. intros did s1 Hd Hs1. apply yields_ret. split; [done|]. intros ->%bool_decide_eq_true.
      exists msg. split_and!; [done|done|]. right. by exists s1.
  - intros b s1 [Hs1 Hev]. handler_step. intros Hb%negb_false_iff. apply yields_mod. rewrite Hs1. eapply step_cancel; [by apply Hev|done|done].
Qed.

(** A confirmation that passes the checks of [FinalizeRing]. *)
Lemma confirmation_checked r msg signerKey :
  RingPk r = [] -> mfr_RingPk msg <> [] ->
  RequiresPet r && bool_decide (mfr_PetPk msg = None) = false ->
  negb (RequiresPet r) && bool_decide (is_Some (mfr_PetPk msg)) = false ->
  signerKey ∈ PeerNodeKeys r -> signerKey ∉ cf_NodeKey <$> Confirmations r ->
  existsb (conflicting r msg) (Confirmations r) = false ->
  confirmation_ok r (mkRingConfirmation signerKey (mfr_RingPk msg) (mfr_PetPk msg)).
Proof.
  intros Hpk Hk Hreq Hnot Hin Hdup Hconf. split; cbn; try done.
  - destruct (RequiresPet r); simpl in *; [rewrite bool_decide_eq_false in Hreq|rewrite bool_decide_eq_false in Hnot].
    + split; [done|]. intros _. by apply not_eq_None_Some.
    + by split.
  - apply Forall_forall. intros c Hc. assert (Hf : conflicting r msg c = false).
    { apply not_true_iff_false. intros Ht. apply not_true_iff_false in Hconf. apply Hconf. apply existsb_exists.
      exists c. split; [by apply list_elem_of_In|done]. }
    unfold conflicting in Hf. apply orb_false_iff in Hf as [Hf Hp]. apply negb_false_iff, bool_decide_eq_true in Hf.
    split; [done|]. intros Hq. rewrite Hq in Hp. simpl in Hp. by apply negb_false_iff, bool_decide_eq_true in Hp.
Qed.

Lemma conflicting_conflicts r msg signerKey : existsb (conflicting r msg) (Confirmations r) = true ->
  conflicts r (mkRingConfirmation signerKey (mfr_RingPk msg) (mfr_PetPk msg)).
Proof.
  intros (c & Hc%list_elem_of_In & Hf)%existsb_exists. exists c. split; [done|]. unfold conflicting in Hf. cbn.
  apply orb_true_iff in Hf as [Hf|Hf]; [left|right].
  - by apply negb_true_iff, bool_decide_eq_false in Hf.
  - apply andb_true_iff in Hf as [Hq Hf]. by apply negb_true_iff, bool_decide_eq_false in Hf.
Qed.

Lemma FinalizeRing_step ctx msg : mfr_RingPk msg <> [] -> steps ctx (FinalizeRing_m msg) (FinalizeRing (S := S) ctx msg).
Proof.
  intros Hkey s. unfold FinalizeRing. apply yields_existing. intros r Hr.
  handler_step. intros Hpk%negb_false_iff%bool_decide_eq_true. handler_step. intros [] _. cbv zeta.
  handler_step. intros Hreq. handler_step. intros Hnot. handler_step. intros [] _.
  apply yields_signer. intros signerKey Hsig. handler_step. intros Hin%negb_false_iff%bool_decide_eq_true.
  handler_step. intros Hdup%bool_decide_eq_false. set (c := mkRingConfirmation signerKey (mfr_RingPk msg) (mfr_PetPk msg)).
  assert (Hev : ev_confirms (evidence_of authority ctx (FinalizeRing_m msg) s) (mfr_RingId msg) c) by by exists msg.
  destruct (existsb _ _) eqn:Hconf.
  { apply yields_end, yields_mod. eapply (step_conflict _ _ _ _ r c); try done. by apply conflicting_conflicts. }
  pose proof (confirmation_checked r msg signerKey Hpk Hkey Hreq Hnot Hin Hdup Hconf) as Hok. fold c in Hok.
  destruct (Nat.ltb_spec (length (Confirmations r ++ [c])) (length (PeerNodeKeys r))) as [Hl|Hl].
  - apply yields_end, yields_put. intros _. by eapply step_confirm.
  - handler_step. intros did s2 _ Hs2. handler_step. intros [] _. apply yields_end, yields_put. intros _. rewrite Hs2.
    by apply (step_finalize _ _ _ _ r c Hev Hr Hok).
Qed.

(** ** Changes of a ring that is final *)

Lemma start_reshare_keeps peers threshold r : validateStartRingReshare peers threshold r = Ok tt ->
  NewPeerNodeKeys r = [] /\ NewThreshold r = None /\ 1 <= default 1 threshold.
Proof.
  unfold validateStartRingReshare. rewrite !outcome_seq_ok, !reject_if_ok. intros (Hp & _ & _ & Ht & _).
  unfold reshareInProgress in Hp. apply orb_false_iff in Hp as [Hn%negb_false_iff%bool_decide_eq_true Hm%negb_false_iff%bool_decide_eq_true].
  split_and!; [done|done|]. destruct threshold as [z|]; simpl; [|lia]. apply Z.ltb_ge in Ht. lia.
Qed.

Lemma StartRingReshare_step ctx msg : steps ctx (StartRingReshare_m msg) (StartRingReshareByAcp (S := S) ctx msg).
Proof.
  intros s. unfold StartRingReshareByAcp. apply yields_for_update. intros r s1 Hr (did & s0 & Hact & Hperm) Hs1.
  handler_step. intros r1 Hm. cbv zeta. handler_step. intros [] Hv.
  apply yields_whitelisted. intros Hall.
  destruct (start_reshare_keeps _ _ _ Hv) as (Hn & Hnt & _).
  apply yields_put_valid. intros Hvr. rewrite Hs1. rewrite Hs1 in Hall. eapply step_update; [by exists (msr_Creator msg), did, s0|done| |done]. revert Hvr. rewrite Hnt, Hn.
  assert (Ep : forall l : list bytes, (if decide (l = []) then [] else l) = l) by (intros l; by case_decide).
  assert (Et : forall o : option Z, match o with Some z => Some z | None => None end = o) by by intros [].
  rewrite Ep, Et. intros _. by econstructor.
Qed.

Lemma CancelRingReshare_step ctx msg : steps ctx (CancelRingReshare_m msg) (CancelRingReshareByAcp (S := S) ctx msg).
Proof.
  intros s. unfold CancelRingReshareByAcp. apply yields_for_update. intros r s1 Hr (did & s0 & Hact & Hperm) Hs1.
  handler_step. intros Hp%negb_false_iff. apply yields_put_valid. intros Hv. rewrite Hs1.
  eapply step_update; [by exists (mcs_Creator msg), did, s0|done|by constructor|done].
Qed.

Lemma SetRingPssInterval_step ctx msg : steps ctx (SetRingPssInterval_m msg) (SetRingPssIntervalByAcp (S := S) ctx msg).
Proof.
  intros s. unfold SetRingPssIntervalByAcp. apply yields_for_update. intros r s1 Hr (did & s0 & Hact & Hperm) Hs1.
  handler_step. intros r1 Hm. cbv zeta. handler_step. intros [] Hpss. handler_step. intros Hne%Z.eqb_neq.
  apply yields_put_valid. intros Hv. rewrite Hs1. unfold validateRingPSSInterval, ValidatePSSInterval in Hpss.
  rewrite reject_if_ok, Z.ltb_ge in Hpss. eapply step_update; [by exists (mps_Creator msg), did, s0|done| |done]. econstructor; [done|done|]. congruence.
Qed.

Lemma ScheduleRingUpgrade_step ctx msg : steps ctx (ScheduleRingUpgrade_m msg) (ScheduleRingUpgradeByAcp (S := S) ctx msg).
Proof.
  intros s. unfold ScheduleRingUpgradeByAcp. apply yields_for_update. intros r s1 Hr (did & s0 & Hact & Hperm) Hs1.
  handler_step. intros now Hnow. cbv zeta. handler_step. intros _. handler_step. intros [] Hsch.
  apply yields_put_valid. intros Hv. rewrite Hs1. eapply step_update; [by exists (msu_Creator msg), did, s0|done|by constructor|done].
Qed.

Lemma CancelRingUpgrade_step ctx msg : steps ctx (CancelRingUpgrade_m msg) (CancelRingUpgradeByAcp (S := S) ctx msg).
Proof.
  intros s. unfold CancelRingUpgradeByAcp. apply yields_for_update. intros r s1 Hr (did & s0 & Hact & Hperm) Hs1.
  destruct (NextVersion _) eqn:Hn; [|done]. destruct (ActivationTime _) eqn:Ha; [|done].
  handler_step. intros now Hnow. handler_step. intros Hlt%Z.leb_gt.
  apply yields_put_valid. intros Hv. rewrite Hs1. eapply step_update; [by exists (mcu_Creator msg), did, s0|done| |done]. econstructor; [done|by eexists|done|done].
Qed.

Lemma SetRingReporting_step ctx msg : steps ctx (SetRingReporting_m msg) (SetRingReportingByAcp (S := S) ctx msg).
Proof.
  intros s. unfold SetRingReportingByAcp. apply yields_for_update. intros r s1 Hr (did & s0 & Hact & Hperm) Hs1.
  handler_step. intros r1 Hm. cbv zeta. handler_step. intros [] Hv.
  apply yields_whitelisted. intros Hall. apply yields_put. intros _. rewrite Hs1.
  rewrite Hs1 in Hall. eapply step_update; [by exists (mrr_Creator msg), did, s0|done| |done]. by econstructor.
Qed.

Lemma yields_for_relay {B} (Q : B -> OrbisStore -> Prop) ctx id creator did (k : Ring -> M S B) s :
  (forall r s1, rings (orb s) !! id = Some r -> AllowTrustedAuthRelays r = true -> may_update ctx s creator r ->
     orb s1 = orb s -> yields Q (k r s1)) ->
  yields Q (bind (ringForRelayUpdate ctx id creator did) k s).
Proof.
  intros Hk. apply (yields_then (fun r t => rings (orb s) !! id = Some r /\ AllowTrustedAuthRelays r = true /\
    may_update ctx s creator r /\ t = orb s)).
  - apply yields_existing. intros r Hr. handler_step. intros Ha%negb_false_iff. handler_step. intros [] _.
    apply yields_permission. intros s1 Hm Hs1. by apply yields_ret.
  - intros r s1 (Hr & Ha & Hm & Hs1). by apply Hk.
Qed.

Lemma AddRelay_step ctx msg : steps ctx (AddRelay_m msg) (AddRingTrustedAuthRelayByAcp (S := S) ctx msg).
Proof.
  intros s. unfold AddRingTrustedAuthRelayByAcp. apply yields_for_relay. intros r s1 Hr Ha (did & s0 & Hact & Hperm) Hs1. handler_step. intros _.
  apply yields_put_valid. intros Hv. rewrite Hs1. eapply step_relays; [by exists (mar_Creator msg), did, s0|done|done|done].
Qed.

Lemma RemoveRelay_step ctx msg : steps ctx (RemoveRelay_m msg) (RemoveRingTrustedAuthRelayByAcp (S := S) ctx msg).
Proof.
  intros s. unfold RemoveRingTrustedAuthRelayByAcp. apply yields_for_relay. intros r s1 Hr Ha (did & s0 & Hact & Hperm) Hs1. handler_step. intros _.
  apply yields_put_valid. intros Hv. rewrite Hs1. eapply step_relays; [by exists (mrm_Creator msg), did, s0|done|done|done].
Qed.

Lemma FinalizeReshare_step ctx msg : steps ctx (FinalizeReshare_m msg) (FinalizeRingReshareByThresholdSignature (S := S) ctx msg).
Proof.
  intros s. unfold FinalizeRingReshareByThresholdSignature. apply yields_existing. intros r Hr.
  handler_step. intros did s1 _ Hs1. handler_step. intros r' Hf. cbv zeta. handler_step. intros [] Hsig.
  apply yields_put. intros _. rewrite Hs1. by eapply step_reshared.
Qed.

(** ** Documents and nodes *)

Lemma pet_presence (required : bool) (o : option bytes) :
  (required = true -> is_Some o) -> (required = false -> o = None) -> (is_Some o <-> required = true).
Proof. destruct required; [naive_solver|]. intros _ Hn. rewrite (Hn eq_refl). split; [by intros []|done]. Qed.

Lemma StoreDocument_step ctx msg : steps ctx (StoreDocument_m msg) (StoreDocument (S := S) ctx msg).
Proof.
  intros s. unfold StoreDocument, GetDocument. apply (yields_then (fun r t => final_ring (orb s) (msd_RingId msg) r /\ t = orb s)).
  { apply yields_existing. intros r Hr. apply yields_finalized. intros Hpk. by apply yields_ret. }
  intros r s1 [Hr Hs1]. handler_step. intros did s2 _ Hs2. handler_step. intros Hreq. handler_step. intros Hnot.
  handler_step. intros id Hid%wrap_err_ok. handler_step. handler_step. intros Hnew%bool_decide_eq_false. cbv zeta.
  handler_step. intros [] Hv. apply yields_end. unfold SetDocument. apply yields_set. intros _. cbn [doc_Id].
  rewrite Hs2, Hs1 in Hnew |- *.
  match goal with |- orbis_step _ _ _ (set_documents (<[_ := ?d]> _) _) => apply (step_document _ _ _ d r) end; try done.
  - by apply eq_None_not_Some.
  - apply pet_presence; intros Hq; rewrite Hq in *; simpl in *.
    + apply orb_false_iff in Hreq as [Hp%bool_decide_eq_false _]. by apply not_eq_None_Some.
    + apply orb_false_iff in Hnot as [Hp%bool_decide_eq_false _]. by apply eq_None_not_Some.
  - apply pet_presence; intros Hq; rewrite Hq in *; simpl in *.
    + apply orb_false_iff in Hreq as [_ Hp%bool_decide_eq_false]. by apply not_eq_None_Some.
    + apply orb_false_iff in Hnot as [_ Hp%bool_decide_eq_false]. by apply eq_None_not_Some.
Qed.

Lemma StoreKeyDerivation_step ctx msg : steps ctx (StoreKeyDerivation_m msg) (StoreKeyDerivation (S := S) ctx msg).
Proof.
  intros s. unfold StoreKeyDerivation, GetKeyDerivation.
  apply (yields_then (fun r t => final_ring (orb s) (msk_RingId msg) r /\ t = orb s)).
  { apply yields_existing. intros r Hr. apply yields_finalized. intros Hpk. by apply yields_ret. }
  intros r s1 [Hr Hs1]. handler_step. intros did s2 _ Hs2. cbv zeta. handler_step. handler_step.
  intros Hnew%bool_decide_eq_false. handler_step. intros [] Hv. apply yields_end. unfold SetKeyDerivation. apply yields_set.
  intros _. cbn [kd_Id]. rewrite Hs2, Hs1 in Hnew |- *.
  match goal with |- orbis_step _ _ _ (set_keyDerivations (<[_ := ?d]> _) _) => apply (step_key_derivation _ _ _ d r) end; try done.
  by apply eq_None_not_Some.
Qed.

Lemma authorize_framed t nodeKey creator : preserves (orb_is t) (authorizeNodeInfoUpdate (S := S) nodeKey creator).
Proof. unfold authorizeNodeInfoUpdate, GetNodeInfo. preserve. Qed.
#[local] Hint Resolve authorize_framed : preserves.

(** Only the controller of a node gets past this point. *)
Lemma authorized_ok nodeKey creator s info s1 : authorizeNodeInfoUpdate nodeKey creator s = (Ok info, s1) ->
  s1 = s /\ nodeInfos (orb s) !! nodeKey = Some info /\ signs s creator (ControllerKey info).
Proof.
  intros Hrun. unfold authorizeNodeInfoUpdate, GetNodeInfo in Hrun. rewrite bind_run, orb_get_run, bind_run in Hrun.
  destruct (nodeInfos (orb s) !! nodeKey) as [info'|] eqn:Hi; [|done]. cbn [of_option ret] in Hrun. rewrite bind_run in Hrun.
  pose proof (preserves_ok (fun s1 => s1 = s) (signerPublicKeyHex creator) s) as Hsame.
  destruct (signerPublicKeyHex creator s) as [[key|e|] s2] eqn:Es; [|done|done].
  assert (s2 = s) as ->. { apply (Hsame key s2); [unfold signerPublicKeyHex; preserve|done|done]. }
  rewrite bind_run in Hrun. destruct (bool_decide_reflect (key = ControllerKey info')) as [->|]; [|done].
  cbn in Hrun. by injection Hrun as -> ->.
Qed.

Lemma yields_authorized {B} (Q : B -> OrbisStore -> Prop) nodeKey creator (k : NodeInfo -> M S B) s :
  (forall info, nodeInfos (orb s) !! nodeKey = Some info -> signs s creator (ControllerKey info) -> yields Q (k info s)) ->
  yields Q (bind (authorizeNodeInfoUpdate nodeKey creator) k s).
Proof.
  intros Hk b s'. rewrite bind_run. destruct (authorizeNodeInfoUpdate nodeKey creator s) as [[info|e|] s1] eqn:Ea; [|done|done].
  apply authorized_ok in Ea as (-> & Hi & Hsig). by apply Hk.
Qed.

Lemma yields_put_node ev ctx k raw info s : ev_controls ev k (nodeInfos (orb s) !! k) -> normalizeAndValidateNodeInfo raw = Ok info ->
  yields (fun _ t' => orbis_step ev ctx (orb s) t') (SetNodeInfo (S := S) k info s).
Proof. intros Hev Hi. unfold SetNodeInfo. apply yields_set. intros Hk. by eapply step_node. Qed.

Lemma CreateNodeInfo_step ctx msg : steps ctx (CreateNodeInfo_m msg) (CreateNodeInfo (S := S) msg).
Proof.
  intros s. unfold CreateNodeInfo, GetNodeInfo. apply yields_signer. intros k Hk. handler_step. handler_step.
  intros Hnew%bool_decide_eq_false%eq_None_not_Some. handler_step. intros info Hi. eapply yields_put_node; [|done].
  rewrite Hnew. by exists (mcn_Creator msg), k.
Qed.

Lemma UpdateNodePeerId_step ctx msg : steps ctx (UpdateNodePeerId_m msg) (UpdateNodePeerId (S := S) msg).
Proof.
  intros s. unfold UpdateNodePeerId. apply yields_authorized. intros i0 H0' Hsig. handler_step. intros _. handler_step. intros _.
  handler_step. intros info Hi. eapply yields_put_node; [|done]. rewrite H0'. by exists (mun_Creator msg), (ControllerKey i0).
Qed.

Lemma TransferNodeController_step ctx msg : steps ctx (TransferNodeController_m msg) (TransferNodeController (S := S) msg).
Proof.
  intros s. unfold TransferNodeController. apply yields_authorized. intros i0 H0' Hsig. handler_step. intros info Hi.
  handler_step. intros _. eapply yields_put_node; [|done]. rewrite H0'. by exists (mtn_Creator msg), (ControllerKey i0).
Qed.

Lemma AddNodeToWhitelist_step ctx msg : steps ctx (AddNodeToWhitelist_m msg) (AddNodeToWhitelist (S := S) msg).
Proof.
  intros s. unfold AddNodeToWhitelist. apply yields_authorized. intros i0 H0' Hsig. handler_step. intros raw _.
  handler_step. intros info Hi. eapply yields_put_node; [|done]. rewrite H0'. by exists (maw_Creator msg), (ControllerKey i0).
Qed.

Lemma RemoveNodeFromWhitelist_step ctx msg : steps ctx (RemoveNodeFromWhitelist_m msg) (RemoveNodeFromWhitelist (S := S) msg).
Proof.
  intros s. unfold RemoveNodeFromWhitelist. apply yields_authorized. intros i0 H0' Hsig. handler_step. intros raw _.
  handler_step. intros info Hi. eapply yields_put_node; [|done]. rewrite H0'. by exists (mrw_Creator msg), (ControllerKey i0).
Qed.

Lemma DrainNodeKey_step ctx msg : steps ctx (DrainNodeKey_m msg) (DrainNodeKey (S := S) msg).
Proof.
  intros s. unfold DrainNodeKey. handler_step. intros i0 s1 _ Hs1. handler_step. intros addr _. handler_step. intros to _.
  handler_step. intros balance s2 _ Hs2. handler_step. intros _. handler_step. intros [] s3 _ Hs3.
  apply yields_ret. rewrite Hs3, Hs2, Hs1. constructor.
Qed.

Lemma orbis_params_step ctx req : steps ctx (UpdateParams_m req) (UpdateParams (S := S) authority req).
Proof.
  intros s. unfold UpdateParams, SetParams. handler_step. intros Ha%negb_false_iff%bool_decide_eq_true.
  handler_step. intros [] Hv. apply yields_mod. constructor; [by exists req|done].
Qed.

(** ** Reports *)

Lemma validateSubmittedReport_ok ctx report claimed scheme signature s :
  yields (fun v t => t = orb s /\ vr_reportID v = claimed /\ exists payload,
    report_ok ctx (orb s) report payload (vr_ring v) (vr_blockUnixTime v) (vr_reportID v) (vr_sessionDedupeID v) scheme signature)
    (validateSubmittedReport (S := S) ctx report claimed scheme signature s).
Proof.
  unfold validateSubmittedReport, HasAcceptedReport, HasAcceptedReportSession, GetRing, validateReportCommitteeAuthorization, GetNodeInfo.
  handler_step. intros now Hnow. handler_step. intros [] Hshape. handler_step. intros Hchain%negb_false_iff%bool_decide_eq_true.
  handler_step. intros [message reportID] Hmsg. handler_step. intros Hclaim%negb_false_iff%bool_decide_eq_true. subst claimed.
  handler_step. handler_step. intros Hfresh%bool_decide_eq_false. handler_step. intros payload Hpl.
  handler_step. handler_step. intros r Hr. apply yields_finalized. intros Hpk.
  handler_step. intros Hrpk%negb_false_iff%bool_decide_eq_true. handler_step. intros matches Hst.
  handler_step. intros ->%negb_false_iff. handler_step. intros Hver%negb_false_iff%Z.eqb_eq.
  apply (yields_then (fun _ t => t = orb s /\ validateReportCommittees report payload r = Ok tt /\
    exists info, nodeInfos (orb s) !! AccusedNodeKey report = Some info /\ PeerId info = AccusedPeerId report)).
  { handler_step. intros [] Hcom. handler_step. handler_step. intros info Hi. intros [] s1 Hrun.
    apply throw_if_ok in Hrun as [Hp%negb_false_iff%bool_decide_eq_true ->]. eauto. }
  intros [] s1 (Hs1 & Hcom & Hacc). handler_step. intros sessionID Hses. handler_step. rewrite Hs1. handler_step.
  intros Hfs%bool_decide_eq_false. handler_step. intros [] Hsig. apply yields_ret. split_and!; [done|done|]. exists payload. cbn. split; eauto.
Qed.

Lemma selectAutoReshareReplacement_run r pre after s : exists o,
  selectAutoReshareReplacement (S := S) r pre after s = (Ok o, s) /\
  match o with
  | None => Forall (fun k => ~ eligible (orb s) r k) after
  | Some (k, rest) => exists l1 l2, after = l1 ++ k :: l2 /\ rest = pre ++ l1 ++ l2 /\
      Forall (fun k => ~ eligible (orb s) r k) l1 /\ eligible (orb s) r k
  end.
Proof.
  revert pre. induction after as [|k after IH]; intros pre; cbn [selectAutoReshareReplacement]; [by exists None|].
  assert (Hskip : ~ eligible (orb s) r k -> exists o,
    selectAutoReshareReplacement (S := S) r (pre ++ [k]) after s = (Ok o, s) /\
    match o with
    | None => Forall (fun k => ~ eligible (orb s) r k) (k :: after)
    | Some (k0, rest) => exists l1 l2, k :: after = l1 ++ k0 :: l2 /\ rest = pre ++ l1 ++ l2 /\
        Forall (fun k => ~ eligible (orb s) r k) l1 /\ eligible (orb s) r k0
    end).
  { intros Hk. destruct (IH (pre ++ [k])) as (o & Ho & Hsel). exists o. split; [done|]. destruct o as [[k0 rest]|]; [|by constructor].
    destruct Hsel as (l1 & l2 & -> & -> & Hl1 & Hk0). exists (k :: l1), l2. rewrite <- app_assoc. by split_and!; [..|constructor|]. }
  case_decide as Hin; [by apply Hskip; intros [? _]|]. unfold GetNodeInfo. rewrite bind_run, orb_get_run.
  destruct (nodeInfos (orb s) !! k) as [info|] eqn:Hi.
  2:{ apply Hskip. intros [_ (info & Hi' & _)]. congruence. }
  destruct (nodeInfoAllowsRing info r) eqn:Ha.
  - exists (Some (k, pre ++ after)). split; [done|]. exists [], after. split_and!; [done|done|constructor|]. split; [done|]. by exists info.
  - apply Hskip. intros [_ (info' & Hi' & Ha')]. congruence.
Qed.

Lemma maybeSchedule_ok r accused points s :
  yields (fun _ t' => auto_scheduled (orb s) r accused points t') (maybeScheduleAutoReshareForReport (S := S) r accused points s).
Proof.
  unfold maybeScheduleAutoReshareForReport.
  destruct (Z.ltb_spec points (rep_KickThreshold (rg_Reporting r))); [apply yields_ret; constructor; by left|].
  destruct (reshareInProgress r) eqn:Hp; [apply yields_ret; constructor; by right; left|].
  destruct (bool_decide_reflect (accused ∈ PeerNodeKeys r)) as [Hin|Hin]; cbn [negb].
  2:{ apply yields_ret. constructor. by right; right; left. }
  destruct (selectAutoReshareReplacement_run r [] (BackupNodeKeys (rg_Reporting r)) s) as (o & Ho & Hsel).
  unfold yields. rewrite bind_run, Ho. destruct o as [[k rest]|].
  2:{ intros [] s' [= <-]. constructor. by right; right; right. }
  destruct Hsel as (l1 & l2 & Hb & -> & Hl1 & Hk). cbv zeta. rewrite app_nil_l. fold (replaced accused k (PeerNodeKeys r)).
  fold (auto_reshare accused k (l1 ++ l2) r).
  change (yields (fun _ t' => auto_scheduled (orb s) r accused points t')
    (bind (of_outcome (validateRing (auto_reshare accused k (l1 ++ l2) r)))
       (fun _ => SetRing (S := S) (auto_reshare accused k (l1 ++ l2) r)) s)).
  handler_step. intros [] Hv. unfold SetRing. apply yields_set. intros _. by apply auto_replace.
Qed.

(** The ids under which a report is recorded are digests. *)
Lemma digest_not_blank (h : bytes) : hex_encode (sha256 h) <> [].
Proof. intros Hn%(f_equal length). by rewrite hex_encode_length, sha256_length in Hn. Qed.

Lemma report_ids ctx t report payload r now id sid scheme sig :
  report_ok ctx t report payload r now id sid scheme sig -> id <> [] /\ sid <> [].
Proof.
  intros [_ _ _ (message & Hm & _) _ _ _ _ _ _ _ _ _ Hsid _]. unfold reportEnvelopeCanonicalMessageAndID, reportSessionDedupeID in *.
  apply outcome_bind_ok in Hm as (m & _ & Hm), Hsid as (m' & _ & Hsid). injection Hm as _ <-. injection Hsid as <-.
  split; apply digest_not_blank.
Qed.

(** The store after a report: the pair, the demerits, and perhaps a reshare. *)
Definition report_recorded t (report : ReportEnvelope) r (now amount : Z) (reportID sessionID : bytes) t' : Prop :=
  let state := next_demerits t (rp_RingId report) (AccusedNodeKey report) amount now
                 (ResetIntervalSeconds (rep_DemeritConfig (rg_Reporting r))) in
  auto_scheduled (put_demerits (rp_RingId report) (AccusedNodeKey report) state
    (add_pair reportID sessionID (uint64 (now + ReportTTLSeconds)) t)) r (AccusedNodeKey report) (points state) t'.

Lemma SubmitReport_ok ctx msg s :
  yields (fun id t' => id = mrp_ReportId msg /\ exists payload r now sessionID amount,
    report_ok ctx (orb s) (mrp_Report msg) payload r now id sessionID (mrp_SignatureScheme msg) (mrp_Signature msg) /\
    DemeritAmountForReportType (Some r) (ReportType (mrp_Report msg)) = Ok amount /\
    report_recorded (orb s) (mrp_Report msg) r now amount id sessionID t') (SubmitReport (S := S) ctx msg s).
Proof.
  unfold SubmitReport. cbv zeta. eapply yields_then; [apply validateSubmittedReport_ok|].
  intros v s1 (Hs1 & Hid & payload & Hok). handler_step. intros amount Ham.
  apply (yields_then (fun _ t => t = add_pair (vr_reportID v) (vr_sessionDedupeID v)
    (uint64 (vr_blockUnixTime v + ReportTTLSeconds)) (orb s))).
  { unfold SetAcceptedReportPair. destruct (_ || _); [done|]. apply yields_mod. by rewrite Hs1. }
  intros [] s2 Hs2. set (state := next_demerits (orb s) (rp_RingId (mrp_Report msg)) (AccusedNodeKey (mrp_Report msg)) amount
    (vr_blockUnixTime v) (ResetIntervalSeconds (rep_DemeritConfig (rg_Reporting (vr_ring v))))).
  apply (yields_then (fun d t => d = points state /\
    t = put_demerits (rp_RingId (mrp_Report msg)) (AccusedNodeKey (mrp_Report msg)) state (orb s2))).
  { unfold IncrementNodeDemerits, getNodeDemeritState. handler_step. cbv zeta. apply yields_end. apply yields_mod.
    assert (Hd : demerits (orb s2) (rp_RingId (mrp_Report msg)) (AccusedNodeKey (mrp_Report msg)) =
      demerits (orb s) (rp_RingId (mrp_Report msg)) (AccusedNodeKey (mrp_Report msg))) by by rewrite Hs2.
    unfold demerits in Hd at 1. rewrite Hd. done. }
  intros d s3 [-> Hs3]. apply yields_end. intros [] s4 Hrun. split; [done|].
  exists payload, (vr_ring v), (vr_blockUnixTime v), (vr_sessionDedupeID v), amount. split_and!; [exact Hok|exact Ham|].
  unfold report_recorded. fold state. rewrite <- Hs2, <- Hs3. by apply (maybeSchedule_ok _ _ _ _ _ _ Hrun).
Qed.

Lemma SubmitReport_step ctx msg : steps ctx (SubmitReport_m msg) (SubmitReport (S := S) ctx msg).
Proof.
  intros s id s' Hrun. destruct (SubmitReport_ok ctx msg s id s' Hrun) as (_ & payload & r & now & sessionID & amount & Hok & Ham & Hrec).
  eapply step_report; [exact Hok|exact Ham|reflexivity|exact Hrec].
Qed.

Lemma EndBlock_step ev ctx s : yields (fun _ t' => orbis_step ev ctx (orb s) t') (EndBlock (S := S) ctx s).
Proof. unfold EndBlock, DeleteExpiredAcceptedReportPairs. apply yields_mod. constructor. Qed.

(** ** Messages *)

(** What the type of a field guarantees: thresholds are unsigned. *)
Definition typed (m : OrbisMsg) : Prop := match m with CreateRing_m m => 0 <= mcr_Threshold m | _ => True end.

Lemma steps_drop {A} ctx m (h : M S A) : steps ctx m h -> steps ctx m (h ;;; ret tt).
Proof. intros Hm s. eapply yields_then; [apply Hm|]. intros a s1 Hs1. by apply yields_ret. Qed.

Lemma deliver_steps ctx m : typed m -> steps ctx m (deliver (S := S) authority ctx m).
Proof.
  intros Ht s. unfold deliver. handler_step. intros [] Hv. revert s. fold (steps ctx m (handle (S := S) authority ctx m)).
  destruct m; cbn [handle]; try apply steps_drop; eauto using orbis_params_step, CreateRing_step, CancelPendingRing_step,
    StartRingReshare_step, CancelRingReshare_step, SetRingPssInterval_step, ScheduleRingUpgrade_step,
    CancelRingUpgrade_step, SetRingReporting_step, AddRelay_step, RemoveRelay_step, FinalizeReshare_step,
    SubmitReport_step, StoreDocument_step, StoreKeyDerivation_step, CreateNodeInfo_step, UpdateNodePeerId_step,
    TransferNodeController_step, AddNodeToWhitelist_step, RemoveNodeFromWhitelist_step, DrainNodeKey_step.
  apply FinalizeRing_step. cbn [validateBasic] in Hv. unfold MsgFinalizeRing_ValidateBasic in Hv.
  rewrite !outcome_seq_ok in Hv. destruct Hv as (_ & _ & Hk). unfold required in Hk.
  by rewrite reject_if_ok, bool_decide_eq_false in Hk.
Qed.
End refinement.
