(* ===== verification/OrbisInv.v ===== *)
(** What holds of the orbis store in every reachable state: its rings are well formed
    and made of registered nodes, documents, key derivations and demerits belong to
    rings that are final, and the three records of an accepted report agree.

    The invariant is proved on the abstract steps of [OrbisStep]. *)
From Stdlib Require Import Ascii ZArith Lia.
From stdpp Require Import base numbers list gmap strings sorting.
From S2P Require Import Prelude Sdk Sha256 Utils CoreKeeper Json GoText Canonical Bearer AcpTypes AcpState AcpKeeper AcpBearer AcpMsgs AcpServer AcpReach AcpClient OrbisTypes OrbisIds OrbisRing OrbisSign OrbisReport OrbisKeeper OrbisServer OrbisValid OrbisStep.

(** * The invariant *)

Section inv.
Context `{AddressCodec, DIDDecode, Blst, JubjubWasm}.
Implicit Types (ctx : OrbisCtx) (t : OrbisStore) (r : Ring).

(** All nodes that a ring names. *)
Definition ring_nodes r : list bytes := PeerNodeKeys r ++ NewPeerNodeKeys r ++ BackupNodeKeys (rg_Reporting r).

Definition rings_ok t : Prop := forall id r, rings t !! id = Some r ->
  rg_Id r = id /\ length id = 64%nat /\ ring_wf r /\ Forall (registered t) (ring_nodes r).

Definition nodes_ok t : Prop := forall k info, nodeInfos t !! k = Some info ->
  k <> [] /\ exists raw, normalizeAndValidateNodeInfo raw = Ok info.

Definition documents_ok t : Prop := forall id d, documents t !! id = Some d ->
  doc_Id d = id /\ document_id d = Ok id /\ validateDocument d = Ok tt /\
  exists r, final_ring t (doc_RingId d) r /\ (is_Some (doc_PetTag d) <-> RequiresPet r = true) /\
    (is_Some (doc_PetTagProof d) <-> RequiresPet r = true).

Definition keyDerivations_ok t : Prop := forall id kd, keyDerivations t !! id = Some kd ->
  kd_Id kd = id /\ validateKeyDerivation kd = Ok tt /\
  id = GenerateKeyDerivationID (kd_RingId kd) (Derivation kd) (kd_PolicyId kd) (kd_Resource kd) (kd_Permission kd) /\
  exists r, final_ring t (kd_RingId kd) r.

Definition demerits_ok t : Prop := forall key bz, nodeDemerits t !! key = Some bz ->
  exists ringID nodeKey r, key = nodeDemeritStoreKey ringID nodeKey /\ length bz = nodeDemeritStateSize /\ final_ring t ringID r.

(** The entry of the index for an accepted report. *)
Definition indexed t (expiresAt : Z) (reportID sessionID : bytes) : Prop :=
  is_u64 expiresAt /\ expiryIndex t !! acceptedExpiryKey expiresAt reportID = Some sessionID.

(** Every accepted report and session has exactly one entry, and every entry is about
    an accepted report and session. *)
Record accepted_ok t : Prop := mkAcceptedOk {
  acc_entry : forall key sid, expiryIndex t !! key = Some sid -> exists e id, key = acceptedExpiryKey e id /\ is_u64 e /\
    id ∈ acceptedReports t /\ sid ∈ acceptedSessions t;
  acc_blank : ([] ∉ acceptedReports t) /\ ([] ∉ acceptedSessions t);
  acc_report : forall id, id ∈ acceptedReports t -> exists e sid, indexed t e id sid;
  acc_session : forall sid, sid ∈ acceptedSessions t -> exists e id, indexed t e id sid;
  acc_report_once : forall e e' id sid sid', indexed t e id sid -> indexed t e' id sid' -> e = e' /\ sid = sid';
  acc_session_once : forall e e' id id' sid, indexed t e id sid -> indexed t e' id' sid -> e = e' /\ id = id';
}.

Record orbis_inv t : Prop := mkOrbisInv {
  inv_rings : rings_ok t;
  inv_nodes : nodes_ok t;
  inv_documents : documents_ok t;
  inv_keyDerivations : keyDerivations_ok t;
  inv_demerits : demerits_ok t;
  inv_accepted : accepted_ok t;
  inv_params : match orb_params t with Some p => Params_Validate p = Ok tt | None => True end;
}.

Lemma empty_inv p : Params_Validate p = Ok tt -> orbis_inv (set_orb_params (Some p) empty_orbis).
Proof.
  intros Hp. split; try (by intros ?? Hl; cbn in Hl; rewrite lookup_empty in Hl); [|done].
  split; [intros ?? Hl|by split; cbn; set_solver|intros ? Hl|intros ? Hl|intros ????? [_ Hl]|intros ????? [_ Hl]]; cbn in Hl;
    by rewrite ?lookup_empty, ?elem_of_empty in Hl.
Qed.

(** ** What a ring keeps *)

(** What never changes once a ring is final. *)
Definition same_identity r r' : Prop :=
  rg_Id r' = rg_Id r /\ CreatorDid r' = CreatorDid r /\ RingPk r' = RingPk r /\ rg_PetPk r' = rg_PetPk r /\
  rg_PolicyId r' = rg_PolicyId r /\ RequiresPet r' = RequiresPet r /\ AllowTrustedAuthRelays r' = AllowTrustedAuthRelays r.

Lemma same_identity_refl r : same_identity r r.
Proof. done. Qed.

Lemma same_identity_trans r1 r2 r3 : same_identity r1 r2 -> same_identity r2 r3 -> same_identity r1 r3.
Proof. unfold same_identity. naive_solver congruence. Qed.

(** Rings that are final stay so, under the same identity. *)
Definition final_kept t t' : Prop :=
  forall id r, final_ring t id r -> exists r', final_ring t' id r' /\ same_identity r r'.

Lemma final_kept_refl t : final_kept t t.
Proof. intros id r Hr. by exists r. Qed.

Lemma final_kept_rings t t' : rings t' = rings t -> final_kept t t'.
Proof. intros Hr id r Hf. exists r. unfold final_ring in *. rewrite Hr. by split. Qed.

Lemma final_kept_trans t1 t2 t3 : final_kept t1 t2 -> final_kept t2 t3 -> final_kept t1 t3.
Proof.
  intros H12 H23 id r Hr. destruct (H12 id r Hr) as (r2 & Hr2 & Hs2). destruct (H23 id r2 Hr2) as (r3 & Hr3 & Hs3).
  exists r3. split; [done|]. by eapply same_identity_trans.
Qed.

(** A ring is written: a final ring that was there keeps its identity. *)
Lemma put_ring_kept t r' :
  (forall r, final_ring t (rg_Id r') r -> same_identity r (canonicalRing r')) -> final_kept t (put_ring r' t).
Proof.
  intros Hid id r [Hr Hpk]. unfold final_ring. cbn. destruct (decide (id = rg_Id r')) as [->|Hne].
  - rewrite lookup_insert_eq. eexists. specialize (Hid r (conj Hr Hpk)). split; [|exact Hid]. split; [done|].
    destruct Hid as (_ & _ & Hk & _). congruence.
  - rewrite lookup_insert_ne by done. by exists r.
Qed.

Lemma drop_ring_kept t id r : rings t !! id = Some r -> RingPk r = [] -> final_kept t (drop_ring id t).
Proof.
  intros Hr Hpk id' r' [Hr' Hpk']. exists r'. split; [|done]. split; [|done]. cbn. rewrite lookup_delete_ne; [done|].
  intros ->. congruence.
Qed.

(** Records that belong to final rings stay in order. *)
Lemma documents_kept t t' : documents t' = documents t -> final_kept t t' -> documents_ok t -> documents_ok t'.
Proof.
  intros Hd Hk Hok id d. rewrite Hd. intros Hl. destruct (Hok id d Hl) as (? & ? & ? & r & Hf & Hp & Hpp).
  split_and!; [done..|]. destruct (Hk _ _ Hf) as (r' & Hf' & Hs). exists r'. destruct Hs as (_ & _ & _ & _ & _ & Hq & _).
  by rewrite Hq.
Qed.

Lemma keyDerivations_kept t t' : keyDerivations t' = keyDerivations t -> final_kept t t' -> keyDerivations_ok t -> keyDerivations_ok t'.
Proof.
  intros Hd Hk Hok id kd. rewrite Hd. intros Hl. destruct (Hok id kd Hl) as (? & ? & ? & r & Hf).
  destruct (Hk _ _ Hf) as (r' & Hf' & _). split_and!; eauto.
Qed.

Lemma demerits_kept t t' : nodeDemerits t' = nodeDemerits t -> final_kept t t' -> demerits_ok t -> demerits_ok t'.
Proof.
  intros Hd Hk Hok key bz. rewrite Hd. intros Hl. destruct (Hok key bz Hl) as (ringID & nodeKey & r & ? & ? & Hf).
  destruct (Hk _ _ Hf) as (r' & Hf' & _). by exists ringID, nodeKey, r'.
Qed.

(** ** Changes of rings *)

Lemma set_upgrade_same r : set_upgrade (rg_UpgradeInfo r) r = r.
Proof. by destruct r. Qed.

Lemma normalize_upgrade now r : exists u, normalizeMaturedRingUpgrade now r = set_upgrade u r.
Proof.
  unfold normalizeMaturedRingUpgrade. destruct (NextVersion _) as [next|]; [|exists (rg_UpgradeInfo r); by rewrite set_upgrade_same].
  destruct (ActivationTime _); [|exists (rg_UpgradeInfo r); by rewrite set_upgrade_same].
  destruct (now <? _); [exists (rg_UpgradeInfo r); by rewrite set_upgrade_same|]. by eexists.
Qed.

Lemma matured_upgrade ctx r r1 : matured ctx r r1 -> exists u, r1 = set_upgrade u r.
Proof.
  unfold matured, maybeNormalizeMaturedRingUpgrade. destruct (NextVersion _).
  - intros (now & _ & Hn)%outcome_bind_ok. injection Hn as <-. apply normalize_upgrade.
  - intros [= <-]. exists (rg_UpgradeInfo r). by rewrite set_upgrade_same.
Qed.

Lemma allows_registered t r l : Forall (allows t r) l -> Forall (registered t) l.
Proof. intros Hl. eapply Forall_impl; [exact Hl|]. intros k (info & Hi & _). by eexists. Qed.

(** What an operator's update leaves alone, and what it may bring in. *)
Record update_bounds t r r' : Prop := mkUpdateBounds {
  ub_identity : same_identity r r';
  ub_peers : PeerNodeKeys r' = PeerNodeKeys r;
  ub_threshold : Threshold r' = Threshold r;
  ub_nonce : BlockNumberNonce r' = BlockNumberNonce r;
  ub_confirmations : Confirmations r' = Confirmations r;
  ub_relays : TrustedAuthRelayDids r' = TrustedAuthRelayDids r;
  ub_new_threshold : NewThreshold r' = NewThreshold r \/ 1 <= default 1 (NewThreshold r');
  ub_pss : PssInterval r' = PssInterval r \/ MinPSSIntervalSeconds <= PssInterval r';
  ub_new_peers : NewPeerNodeKeys r' = NewPeerNodeKeys r \/ Forall (registered t) (NewPeerNodeKeys r');
  ub_backups : BackupNodeKeys (rg_Reporting r') = BackupNodeKeys (rg_Reporting r) \/
    Forall (registered t) (BackupNodeKeys (rg_Reporting r'));
}.

Lemma ring_update_bounds ctx t r r' : ring_update ctx t r r' -> update_bounds t r r'.
Proof.
  intros [r1 peers threshold Hm Hv Hall| |r1 interval Hm Hi _|now next activation _ _|now activation _ _ _ _|r1 config Hm Hall].
  - destruct (matured_upgrade _ _ _ Hm) as [u ->]. destruct (start_reshare_keeps _ _ _ Hv) as (_ & _ & Ht).
    split; try done; cbn; eauto using allows_registered.
  - split; try done; cbn; [by right|by left|by right|by left].
  - destruct (matured_upgrade _ _ _ Hm) as [u ->]. split; try done; cbn; eauto.
  - destruct (normalize_upgrade now r) as [u ->]. split; try done; cbn; eauto.
  - split; try done; cbn; eauto.
  - destruct (matured_upgrade _ _ _ Hm) as [u ->]. split; try done; cbn; eauto using allows_registered.
Qed.

Lemma update_wf t r r' : ring_wf r -> RingPk r <> [] -> update_bounds t r r' -> validateRing r' = Ok tt -> ring_wf (canonicalRing r').
Proof.
  intros Hr Hpk [(Hid & Hdid & Hk & Hpet & Hpol & Hreq & Hal) Hp Ht Hn Hc Hrel Hnt Hpss _ _] Hv.
  pose proof (wf_threshold r Hr) as [Ht1 Hnt1]. pose proof (wf_pss r Hr) as Hp1. apply (final_update r); try done.
  - split; [by rewrite Ht|]. destruct Hnt as [->|?]; done.
  - destruct Hpss as [->|?]; done.
Qed.

Lemma ring_nodes_canonical r : ring_nodes (canonicalRing r) ≡ₚ ring_nodes r.
Proof. unfold ring_nodes. cbn. by rewrite !canonicalStrings_perm. Qed.

(** A well-formed ring of registered nodes is written. *)
Lemma put_rings_ok t r : rings_ok t -> length (rg_Id r) = 64%nat -> ring_wf (canonicalRing r) -> Forall (registered t) (ring_nodes r) -> rings_ok (put_ring r t).
Proof.
  intros Hok Hid Hr Hn id r0. cbn. intros [[<- <-]|[Hne Hl]]%lookup_insert_Some.
  - split_and!; [done|done|done|]. rewrite ring_nodes_canonical. exact Hn.
  - exact (Hok id r0 Hl).
Qed.

Lemma put_ring_inv t r : orbis_inv t -> length (rg_Id r) = 64%nat -> ring_wf (canonicalRing r) -> Forall (registered t) (ring_nodes r) ->
  (forall r0, final_ring t (rg_Id r) r0 -> same_identity r0 (canonicalRing r)) -> orbis_inv (put_ring r t).
Proof.
  intros [Hr Hn Hd Hk Hdm Ha Hp] Hlen Hwf Hreg Hid. pose proof (put_ring_kept t r Hid) as Hkept.
  split; [by apply put_rings_ok|exact Hn|by apply (documents_kept t)|by apply (keyDerivations_kept t)|by apply (demerits_kept t)|destruct Ha; by split|exact Hp].
Qed.

(** ** Accepted reports *)

Lemma expiry_key_inj e e' id id' : is_u64 e -> is_u64 e' -> acceptedExpiryKey e id = acceptedExpiryKey e' id' -> e = e' /\ id = id'.
Proof.
  unfold acceptedExpiryKey, is_u64. intros He He' Heq. apply app_inj_1 in Heq as [Hb ->]; [|by rewrite !be_bytes_length].
  split; [|done]. rewrite <- (be_uint64_be_bytes 8 e), <- (be_uint64_be_bytes 8 e') by (simpl; lia). by rewrite Hb.
Qed.

Lemma indexed_add t e id sid e' id' sid' : is_u64 e ->
  indexed (add_pair id sid e t) e' id' sid' <->
  (e' = e /\ id' = id /\ sid' = sid) \/ (~ (e' = e /\ id' = id) /\ indexed t e' id' sid').
Proof.
  intros He. unfold indexed. cbn. rewrite lookup_insert_Some. split.
  - intros [Hu [[Hk <-]|[Hk Hl]]].
    + apply expiry_key_inj in Hk as [-> ->]; [by left|done|done].
    + right. split; [|done]. by intros [-> ->].
  - intros [(-> & -> & ->)|[Hne [Hu Hl]]]; [by split; [|left]|]. split; [done|]. right. split; [|done].
    intros Hk. apply Hne. by apply expiry_key_inj in Hk as [-> ->].
Qed.

Lemma indexed_report t e id sid : accepted_ok t -> indexed t e id sid -> id ∈ acceptedReports t /\ sid ∈ acceptedSessions t.
Proof.
  intros Hok [Hu Hl]. destruct (acc_entry t Hok _ _ Hl) as (e' & id' & Hk & He' & ? & ?).
  by apply expiry_key_inj in Hk as [_ ->].
Qed.

Lemma add_pair_ok t id sid e : accepted_ok t -> is_u64 e -> id <> [] -> sid <> [] -> id ∉ acceptedReports t -> sid ∉ acceptedSessions t ->
  accepted_ok (add_pair id sid e t).
Proof.
  intros Hok He Hne Hne' Hid Hsid.
  assert (Hold : forall e' id' sid', indexed t e' id' sid' -> id' <> id /\ sid' <> sid).
  { intros e' id' sid' Hi. destruct (indexed_report _ _ _ _ Hok Hi). split; by intros ->. }
  assert (Hkeep : forall e' id' sid', indexed t e' id' sid' -> indexed (add_pair id sid e t) e' id' sid').
  { intros e' id' sid' Hi. apply indexed_add; [done|]. right. destruct (Hold _ _ _ Hi). naive_solver. }
  split; cbn.
  - intros key s0 [[<- <-]|[_ Hl]]%lookup_insert_Some; [exists e, id; set_solver|].
    destruct (acc_entry t Hok _ _ Hl) as (e' & id' & ? & ? & ? & ?). exists e', id'. set_solver.
  - destruct (acc_blank t Hok). set_solver.
  - intros id' [->%elem_of_singleton|Hin]%elem_of_union; [exists e, sid; apply indexed_add; naive_solver|].
    destruct (acc_report t Hok _ Hin) as (e' & sid' & Hi). eauto.
  - intros sid' [->%elem_of_singleton|Hin]%elem_of_union; [exists e, id; apply indexed_add; naive_solver|].
    destruct (acc_session t Hok _ Hin) as (e' & id' & Hi). eauto.
  - intros e1 e2 id' s1 s2. rewrite !indexed_add by done.
    intros [(-> & -> & ->)|[_ I1]] [(-> & Hq & ->)|[_ I2]]; [done| | |by eapply acc_report_once].
    + by destruct (Hold _ _ _ I2) as [? _].
    + subst id'. by destruct (Hold _ _ _ I1) as [? _].
  - intros e1 e2 id1 id2 s'. rewrite !indexed_add by done.
    intros [(-> & -> & ->)|[_ I1]] [(-> & -> & Hq)|[_ I2]]; [done| | |by eapply acc_session_once].
    + by destruct (Hold _ _ _ I2) as [_ ?].
    + subst s'. by destruct (Hold _ _ _ I1) as [_ ?].
Qed.

Lemma drop_expiry_key e id : drop 8 (acceptedExpiryKey e id) = id.
Proof. unfold acceptedExpiryKey. by rewrite drop_app_length' by by rewrite be_bytes_length. Qed.

Lemma take_expiry_key e id : is_u64 e -> be_uint64 (take 8 (acceptedExpiryKey e id)) = e.
Proof.
  intros He. unfold acceptedExpiryKey, is_u64 in *. rewrite take_app_length' by by rewrite be_bytes_length.
  apply be_uint64_be_bytes. simpl. lia.
Qed.

Lemma indexed_delete t e id sid e' id' sid' : is_u64 e ->
  indexed (deletePair t (acceptedExpiryKey e id, sid)) e' id' sid' <-> ~ (e' = e /\ id' = id) /\ indexed t e' id' sid'.
Proof.
  intros He. unfold indexed. cbn. rewrite lookup_delete_Some. split.
  - intros (Hu & Hne & Hl). split; [|done]. by intros [-> ->].
  - intros (Hne & Hu & Hl). split_and!; try done. intros Hk. apply Hne. by apply expiry_key_inj in Hk as [-> ->].
Qed.

Lemma deletePair_ok t e id sid : accepted_ok t -> indexed t e id sid -> accepted_ok (deletePair t (acceptedExpiryKey e id, sid)).
Proof.
  intros Hok Hi. pose proof Hi as [He _].
  assert (Hother : forall e' id' sid', indexed t e' id' sid' -> ~ (e' = e /\ id' = id) -> id' <> id /\ sid' <> sid).
  { intros e' id' sid' Hi' Hne. split; intros ->; apply Hne.
    - by destruct (acc_report_once t Hok _ _ _ _ _ Hi Hi') as [-> _].
    - by destruct (acc_session_once t Hok _ _ _ _ _ Hi Hi') as [-> ->]. }
  split; [cbn [deletePair set_accepted acceptedReports acceptedSessions expiryIndex fst snd]; rewrite ?drop_expiry_key..| |].
  - intros key s0 [Hne Hl]%lookup_delete_Some. destruct (acc_entry t Hok _ _ Hl) as (e' & id' & -> & ? & ? & ?).
    exists e', id'. destruct (Hother e' id' s0) as [Hi' Hs']; [done|by intros [-> ->]|]. set_solver.
  - destruct (acc_blank t Hok). set_solver.
  - intros id' [Hin Hne%not_elem_of_singleton]%elem_of_difference. destruct (acc_report t Hok _ Hin) as (e' & sid' & Hi').
    exists e', sid'. apply indexed_delete; [done|]. split; [|done]. by intros [_ ->].
  - intros sid' [Hin Hne%not_elem_of_singleton]%elem_of_difference. destruct (acc_session t Hok _ Hin) as (e' & id' & Hi').
    exists e', id'. apply indexed_delete; [done|]. split; [|done]. intros [-> ->].
    destruct (acc_report_once t Hok _ _ _ _ _ Hi Hi') as [_ ->]. done.
  - intros e1 e2 id' s1 s2. rewrite !indexed_delete by done. intros [_ I1] [_ I2]. by eapply acc_report_once.
  - intros e1 e2 id1 id2 s'. rewrite !indexed_delete by done. intros [_ I1] [_ I2]. by eapply acc_session_once.
Qed.

(** *** Expiry *)

Lemma filter_none {A} (P : A -> Prop) `{!forall x, Decision (P x)} l : Forall (fun x => ~ P x) l -> filter P l = [].
Proof. induction 1 as [|x l Hx Hl IH]; [done|]. by rewrite filter_cons_False. Qed.

Lemma delete_all_ok l : forall t, accepted_ok t -> NoDup l.*1 ->
  (forall k sid, (k, sid) ∈ l -> expiryIndex t !! k = Some sid) ->
  accepted_ok (foldl deletePair t l) /\
  (forall e id sid, indexed (foldl deletePair t l) e id sid <-> indexed t e id sid /\ (acceptedExpiryKey e id, sid) ∉ l).
Proof.
  induction l as [|[k0 s0] l IH]; intros t Hok Hnd Hin; cbn [foldl].
  { split; [done|]. intros e id sid. set_solver. }
  apply NoDup_cons in Hnd as [Hk0 Hnd]. pose proof (Hin k0 s0 (list_elem_of_here _ _)) as Hl.
  destruct (acc_entry t Hok _ _ Hl) as (e0 & id0 & -> & He0 & _).
  destruct (IH (deletePair t (acceptedExpiryKey e0 id0, s0))) as [Hok' Hi'].
  - by apply deletePair_ok.
  - done.
  - intros k sid Hks. cbn. rewrite lookup_delete_ne; [apply Hin; by right|]. intros <-.
    apply Hk0. apply list_elem_of_fmap. by exists (acceptedExpiryKey e0 id0, sid).
  - split; [exact Hok'|]. intros e id sid. rewrite Hi', indexed_delete by done. rewrite not_elem_of_cons. split.
    + intros [[Hne Hi] Hnl]. split_and!; try done. intros Hk%(f_equal fst). apply expiry_key_inj in Hk; [naive_solver|by destruct Hi|done].
    + intros [Hi [Hne Hnl]]. split_and!; try done. intros [-> ->]. destruct Hi as [_ Hi]. congruence.
Qed.

Lemma expiry_key_le e id e' id' : is_u64 e -> is_u64 e' -> bytes_le (acceptedExpiryKey e id) (acceptedExpiryKey e' id') -> e <= e'.
Proof.
  unfold bytes_le, acceptedExpiryKey, is_u64. intros He He' Hle. destruct (Z_le_gt_dec e e') as [|Hgt]; [done|].
  exfalso. pose proof (be_bytes_mono 8 e' e) as Hm. specialize (Hm ltac:(lia) ltac:(simpl; lia)).
  rewrite bytes_leb_app_same_length in Hle; [|by rewrite !be_bytes_length|].
  - congruence.
  - intros Heq. rewrite Heq in Hm. pose proof (bytes_le_refl (be_bytes 8 e')) as Hr. unfold bytes_le in Hr. congruence.
Qed.

(** The iterator of [DeleteExpiredAcceptedReportPairs] stops at the first entry that is
    still valid; the entries are in the order of their expiry, so it has seen all that
    have expired. *)
Lemma expiredPairs_filter now l : StronglySorted key_le l ->
  Forall (fun kv : bytes * bytes => exists e id, kv.1 = acceptedExpiryKey e id /\ is_u64 e) l ->
  expiredPairs now l = filter (fun kv => be_uint64 (take 8 kv.1) <= now) l.
Proof.
  induction 1 as [|[k sid] l Hs IH Hhd]; intros Hall; [done|]. apply Forall_cons in Hall as [(e & id & Hk & He) Hall].
  cbn [fst] in Hk. subst k. cbn [expiredPairs]. rewrite (proj2 (Nat.ltb_ge _ _)).
  2:{ unfold acceptedExpiryKey. rewrite length_app, be_bytes_length. lia. }
  rewrite take_expiry_key by done. destruct (Z.ltb_spec now e) as [Hlt|Hle].
  - symmetry. apply filter_none. constructor; [cbn [fst]; rewrite take_expiry_key by done; lia|].
    apply Forall_forall. intros [k' s'] Hin. rewrite Forall_forall in Hhd, Hall.
    destruct (Hall _ Hin) as (e' & id' & Hk' & He'). cbn [fst] in *. subst k'. rewrite take_expiry_key by done.
    pose proof (expiry_key_le e id e' id' He He' (Hhd _ Hin)). lia.
  - rewrite filter_cons_True by (cbn [fst]; rewrite take_expiry_key by done; lia). f_equal. by apply IH.
Qed.

Lemma expired_exactly t now : accepted_ok t -> accepted_ok (foldl deletePair t (expiredPairs now (store_items (expiryIndex t)))) /\
  (forall e id sid, indexed (foldl deletePair t (expiredPairs now (store_items (expiryIndex t)))) e id sid <->
    indexed t e id sid /\ now < e).
Proof.
  intros Hok. assert (Hkeys : Forall (fun kv : bytes * bytes => exists e id, kv.1 = acceptedExpiryKey e id /\ is_u64 e)
    (store_items (expiryIndex t))).
  { apply Forall_forall. intros [k sid] Hin. apply elem_of_store_items in Hin.
    destruct (acc_entry t Hok _ _ Hin) as (e & id & ? & ? & _). by exists e, id. }
  rewrite expiredPairs_filter by (done || apply store_items_sorted).
  destruct (delete_all_ok (filter (fun kv => be_uint64 (take 8 kv.1) <= now) (store_items (expiryIndex t))) t Hok) as [Hok' Hi'].
  - eapply sublist_NoDup; [apply (store_items_NoDup (expiryIndex t))|]. apply fmap_sublist, sublist_filter.
  - intros k sid [_ Hin]%list_elem_of_filter. by apply elem_of_store_items.
  - split; [done|]. intros e id sid. rewrite Hi', list_elem_of_filter, elem_of_store_items. cbn [fst]. split.
    + intros [Hi Hn]. split; [done|]. destruct Hi as [He Hl]. rewrite take_expiry_key in Hn by done.
      destruct (Z_lt_le_dec now e); [done|]. by destruct Hn.
    + intros [Hi Hlt]. split; [done|]. destruct Hi as [He Hl]. rewrite take_expiry_key by done. intros [? _]. lia.
Qed.

(** ** The invariant is kept *)

Lemma set_accepted_inv t a b c : orbis_inv t -> accepted_ok (set_accepted a b c t) -> orbis_inv (set_accepted a b c t).
Proof. intros [Hr Hn Hd Hk Hdm _ Hp] Ha. by split. Qed.

Lemma delete_all_accepted l : forall t, exists a b c, foldl deletePair t l = set_accepted a b c t.
Proof.
  induction l as [|p l IH]; intros t; cbn [foldl]; [by exists (acceptedReports t), (acceptedSessions t), (expiryIndex t); destruct t|].
  destruct (IH (deletePair t p)) as (a & b & c & ->). by exists a, b, c.
Qed.

Lemma put_node_inv t k info raw : orbis_inv t -> k <> [] -> normalizeAndValidateNodeInfo raw = Ok info -> orbis_inv (put_node k info t).
Proof.
  intros [Hr Hn Hd Hk Hdm Ha Hp] Hne Hi. split; [| |exact Hd|exact Hk|exact Hdm|destruct Ha; by split|exact Hp].
  - intros id r Hl. destruct (Hr id r Hl) as (? & ? & ? & Hreg). split_and!; try done. eapply Forall_impl; [exact Hreg|].
    intros x Hx. unfold registered. cbn. destruct (decide (x = k)) as [->|]; [by rewrite lookup_insert_eq|by rewrite lookup_insert_ne].
  - intros x i. cbn. intros [[<- <-]|[_ Hl]]%lookup_insert_Some; [by split; [|exists raw]|by apply Hn].
Qed.

Lemma put_demerits_inv t ringID nodeKey state r : orbis_inv t -> final_ring t ringID r ->
  orbis_inv (put_demerits ringID nodeKey state t).
Proof.
  intros [Hr Hn Hd Hk Hdm Ha Hp] Hf. split; [exact Hr|exact Hn|exact Hd|exact Hk| |destruct Ha; by split|exact Hp].
  intros key bz. cbn [put_demerits set_nodeDemerits nodeDemerits]. intros [[<- <-]|[_ Hl]]%lookup_insert_Some; [|by apply Hdm].
  exists ringID, nodeKey, r. split_and!; [done| |done]. unfold encodeDemeritState. by rewrite length_app, !be_bytes_length.
Qed.

Lemma uint64_is_u64 z : is_u64 (uint64 z).
Proof. unfold is_u64, uint64. apply Z.mod_pos_bound. lia. Qed.

Lemma add_pair_inv t id sid e : orbis_inv t -> is_u64 e -> id <> [] -> sid <> [] -> id ∉ acceptedReports t -> sid ∉ acceptedSessions t ->
  orbis_inv (add_pair id sid e t).
Proof. intros Hinv He Hne Hne' Hid Hsid. apply set_accepted_inv; [done|]. by apply add_pair_ok; [apply Hinv|..]. Qed.

Lemma ring_inv t id r : orbis_inv t -> rings t !! id = Some r ->
  rg_Id r = id /\ length (rg_Id r) = 64%nat /\ ring_wf r /\ Forall (registered t) (ring_nodes r).
Proof. intros Hinv Hr. destruct (inv_rings t Hinv id r Hr) as (<- & ? & ? & ?). done. Qed.

(** A stored ring is replaced by a changed one. *)
Lemma put_changed t id r r' : orbis_inv t -> rings t !! id = Some r -> rg_Id r' = rg_Id r -> ring_wf (canonicalRing r') ->
  Forall (registered t) (ring_nodes r') -> (RingPk r <> [] -> same_identity r r') ->
  final_kept t (put_ring r' t) /\ orbis_inv (put_ring r' t).
Proof.
  intros Hinv Hr Hid Hwf Hreg Hsame. destruct (ring_inv t id r Hinv Hr) as (Hid0 & Hlen & _).
  assert (Hs : forall r0, final_ring t (rg_Id r') r0 -> same_identity r0 (canonicalRing r')).
  { intros r0 [Hr0 Hpk]. rewrite Hid, Hid0, Hr in Hr0. injection Hr0 as <-. exact (Hsame Hpk). }
  split; [by apply put_ring_kept|]. apply put_ring_inv; [done|by rewrite Hid|done|done|done].
Qed.

(** Members that confirm the same keys have confirmed the same thing. *)
Lemma agrees_exactly r c : ring_wf r -> confirmation_ok r c ->
  Forall (fun c' => cf_RingPk c' = cf_RingPk c /\ cf_PetPk c' = cf_PetPk c) (Confirmations r).
Proof.
  intros Hr [Hpk _ Hpet _ _ Hag]. destruct (wf_pending r Hr Hpk) as (_ & _ & _ & _ & _ & _ & _ & _ & pk & pet & _ & Hpet' & Hall).
  rewrite Forall_forall in Hag, Hall |- *. intros c' Hc'. destruct (Hag c' Hc') as [Hk Hp]. split; [done|].
  destruct (Hall c' Hc') as [_ Hq]. rewrite Hq in Hp |- *. destruct (RequiresPet r).
  - destruct Hpet as [_ [p Hpc]]; [done|]. destruct Hpet' as [_ [q Hqc]]; [done|]. rewrite Hpc, Hqc in *. simpl in Hp. by rewrite Hp.
  - destruct pet as [q|]; [by destruct Hpet' as [Hd _]; discriminate Hd|].
    destruct (cf_PetPk c); [by destruct Hpet as [Hd _]; discriminate Hd|done].
Qed.

Lemma step_confirm_inv t id r c : orbis_inv t -> rings t !! id = Some r -> confirmation_ok r c ->
  (length (Confirmations r ++ [c]) < length (PeerNodeKeys r))%nat ->
  final_kept t (put_ring (set_confirmations (Confirmations r ++ [c]) r) t) /\
  orbis_inv (put_ring (set_confirmations (Confirmations r ++ [c]) r) t).
Proof.
  intros Hinv Hr Hc Hl. destruct (ring_inv t id r Hinv Hr) as (_ & _ & Hwf & Hreg).
  pose proof (agrees_exactly r c Hwf Hc) as Hag. destruct Hc as [Hpk Hk Hpet Hin Hnew _].
  apply (put_changed t id r); try done. by apply confirm_update.
Qed.

Lemma step_finalize_inv t id r c : orbis_inv t -> rings t !! id = Some r -> confirmation_ok r c ->
  final_kept t (put_ring (set_confirmations [] (set_pk (cf_RingPk c) (cf_PetPk c) r)) t) /\
  orbis_inv (put_ring (set_confirmations [] (set_pk (cf_RingPk c) (cf_PetPk c) r)) t).
Proof.
  intros Hinv Hr [Hpk Hk Hpet _ _ _]. destruct (ring_inv t id r Hinv Hr) as (_ & _ & Hwf & Hreg).
  apply (put_changed t id r); try done. by apply finalize_update.
Qed.

Lemma step_update_inv ctx t id r r' : orbis_inv t -> final_ring t id r -> ring_update ctx t r r' -> validateRing r' = Ok tt ->
  final_kept t (put_ring r' t) /\ orbis_inv (put_ring r' t).
Proof.
  intros Hinv [Hr Hpk] Hu Hv. destruct (ring_inv t id r Hinv Hr) as (_ & _ & Hwf & Hreg).
  pose proof (ring_update_bounds ctx t r r' Hu) as Hb. pose proof (ub_identity _ _ _ Hb) as Hs.
  apply (put_changed t id r); [done|done|apply Hs|by eapply update_wf| |done].
  unfold ring_nodes in *. rewrite !Forall_app in Hreg |- *. destruct Hreg as (Hp & Hn & Hbk).
  destruct Hb as [_ -> _ _ _ _ _ _ Hnp Hbb].
  split_and!; [done|destruct Hnp as [->|]; done|destruct Hbb as [->|]; done].
Qed.

Lemma step_reshared_inv t id r r' nonce : orbis_inv t -> rings t !! id = Some r -> ringForReshareFinalization r = Ok r' ->
  final_kept t (put_ring (set_nonce nonce r') t) /\ orbis_inv (put_ring (set_nonce nonce r') t).
Proof.
  intros Hinv Hr Hf. destruct (ring_inv t id r Hinv Hr) as (_ & _ & Hwf & Hreg).
  assert (Hp : reshareInProgress r = true).
  { unfold ringForReshareFinalization in Hf. destruct (reshareInProgress r); [done|discriminate Hf]. }
  rewrite (reshare_completes r Hwf Hp) in Hf. injection Hf as <-.
  apply (put_changed t id r); try done; [by apply reshared_wf|].
  unfold ring_nodes in *. rewrite !Forall_app in Hreg. destruct Hreg as (Hpe & Hn & Hb). cbn. rewrite Forall_app. split; [|done].
  unfold target_peers. by case_decide.
Qed.

Lemma auto_scheduled_inv t id r accused points t' : orbis_inv t -> final_ring t id r -> auto_scheduled t r accused points t' ->
  final_kept t t' /\ orbis_inv t'.
Proof.
  intros Hinv [Hr Hpk] [_|k l1 l2 _ _ Hin Hb _ Hel Hv]; [by split; [apply final_kept_refl|]|].
  destruct (ring_inv t id r Hinv Hr) as (_ & _ & Hwf & Hreg).
  apply (put_changed t id r); try done; [by apply auto_reshare_wf|].
  unfold ring_nodes in *. cbn. rewrite Hb, !Forall_app, Forall_cons in Hreg. destruct Hreg as (Hp & _ & Hl1 & Hk & Hl2).
  rewrite canonicalStrings_perm. unfold replaced. rewrite !Forall_app, Forall_singleton. split_and!; [done| |done|done|done].
  rewrite Forall_forall in Hp |- *. intros x [_ Hx]%list_elem_of_filter. by apply Hp.
Qed.

Lemma step_create_inv t msg did reporting ringID :
  orbis_inv t -> length ringID = 64%nat -> 0 <= mcr_Threshold msg -> rings t !! ringID = None ->
  validateRing (newRing msg ringID did reporting) = Ok tt -> validateRingPSSInterval (newRing msg ringID did reporting) = Ok tt ->
  Forall (registered t) (mcr_PeerNodeKeys msg) -> Forall (registered t) (BackupNodeKeys reporting) ->
  final_kept t (put_ring (newRing msg ringID did reporting) t) /\ orbis_inv (put_ring (newRing msg ringID did reporting) t).
Proof.
  intros Hinv Hlen Ht Hnew Hv Hpss Hp Hb.
  assert (Hs : forall r0, final_ring t ringID r0 -> same_identity r0 (canonicalRing (newRing msg ringID did reporting))).
  { intros r0 [Hr0 _]. congruence. }
  split; [by apply put_ring_kept|]. apply put_ring_inv; [done|done|by apply new_ring_wf| |done].
  unfold ring_nodes. cbn. rewrite Forall_app, canonicalStrings_perm. done.
Qed.

Lemma drop_ring_inv t id r : orbis_inv t -> rings t !! id = Some r -> RingPk r = [] ->
  final_kept t (drop_ring (rg_Id r) t) /\ orbis_inv (drop_ring (rg_Id r) t).
Proof.
  intros Hinv Hr Hpk. destruct (ring_inv t id r Hinv Hr) as (-> & _).
  pose proof (drop_ring_kept t id r Hr Hpk) as Hkept. split; [done|]. destruct Hinv as [Hrs Hn Hd Hk Hdm Ha Hp].
  split; [|exact Hn|by apply (documents_kept t)|by apply (keyDerivations_kept t)|by apply (demerits_kept t)|destruct Ha; by split|exact Hp].
  intros id' r'. cbn. intros [_ Hl]%lookup_delete_Some. exact (Hrs id' r' Hl).
Qed.

Lemma put_document_inv t d r : orbis_inv t -> final_ring t (doc_RingId d) r -> validateDocument d = Ok tt ->
  document_id d = Ok (doc_Id d) -> (is_Some (doc_PetTag d) <-> RequiresPet r = true) ->
  (is_Some (doc_PetTagProof d) <-> RequiresPet r = true) -> orbis_inv (set_documents (<[doc_Id d := d]> (documents t)) t).
Proof.
  intros [Hr Hn Hd Hk Hdm Ha Hp] Hf Hv Hid Htag Hpf. split; [exact Hr|exact Hn| |exact Hk|exact Hdm|destruct Ha; by split|exact Hp].
  intros id d'. cbn. intros [[<- <-]|[_ Hl]]%lookup_insert_Some; [|by apply Hd]. split_and!; [done|done|done|]. by exists r.
Qed.

Lemma put_derivation_inv t kd r : orbis_inv t -> final_ring t (kd_RingId kd) r -> validateKeyDerivation kd = Ok tt ->
  kd_Id kd = GenerateKeyDerivationID (kd_RingId kd) (Derivation kd) (kd_PolicyId kd) (kd_Resource kd) (kd_Permission kd) ->
  orbis_inv (set_keyDerivations (<[kd_Id kd := kd]> (keyDerivations t)) t).
Proof.
  intros [Hr Hn Hd Hk Hdm Ha Hp] Hf Hv Hid. split; [exact Hr|exact Hn|exact Hd| |exact Hdm|destruct Ha; by split|exact Hp].
  intros id kd'. cbn. intros [[<- <-]|[_ Hl]]%lookup_insert_Some; [|by apply Hk]. split_and!; [done|done|done|]. by exists r.
Qed.

Lemma sum_length h : length (sum h) = 64%nat.
Proof. unfold sum. by rewrite hex_encode_length, sha256_length. Qed.

(** A report is recorded, and demerits are given. *)
Lemma recorded_inv ctx t report payload r now reportID sessionID scheme signature e nodeKey state :
  orbis_inv t -> report_ok ctx t report payload r now reportID sessionID scheme signature ->
  orbis_inv (put_demerits (rp_RingId report) nodeKey state (add_pair reportID sessionID (uint64 e) t)).
Proof.
  intros Hinv Hok. apply (put_demerits_inv _ _ _ _ r); [|by split; apply Hok].
  destruct (report_ids _ _ _ _ _ _ _ _ _ _ Hok). apply add_pair_inv; [done|apply uint64_is_u64|done|done|apply Hok|apply Hok].
Qed.

(** Every step keeps the invariant, and the rings that are final. *)
Lemma step_inv ev ctx t t' : orbis_inv t -> orbis_step ev ctx t t' -> final_kept t t' /\ orbis_inv t'.
Proof.
  intros Hinv [|p _ Hp|k info raw _ Hne Hi|d r Hf _ Hv Hid Hp Hpp|kd r Hf _ Hv Hid|msg did reporting ringID Hid _ Ht Hnew Hv Hpss Hpe Hb
    |id r c _ Hr Hpk _ _ _|id r _ Hr Hpk|id r c _ Hr Hc Hl|id r c _ Hr Hc Hl|id r r' _ Hf Hu Hv|id r dids _ Hr Ha Hv|id r r' scheme sig Hr Hf _
    |report payload r now reportID sessionID scheme sig amount state t1 Hok _ _ Hauto|].
  - by split; [apply final_kept_refl|].
  - split; [by apply final_kept_rings|]. destruct Hinv as [? ? ? ? ? [] ?]. by split.
  - split; [by apply final_kept_rings|by eapply put_node_inv].
  - split; [by apply final_kept_rings|by eapply put_document_inv].
  - split; [by apply final_kept_rings|by eapply put_derivation_inv].
  - apply step_create_inv; try done. rewrite Hid. apply sum_length.
  - by eapply drop_ring_inv.
  - by eapply drop_ring_inv.
  - by eapply step_confirm_inv.
  - by eapply step_finalize_inv.
  - by eapply step_update_inv.
  - destruct (ring_inv t id r Hinv Hr) as (_ & _ & Hwf & Hreg). apply (put_changed t id r); try done. by apply relays_update.
  - by eapply step_reshared_inv.
  - apply (auto_scheduled_inv _ (rp_RingId report) r) in Hauto as [Hk Hi]; [|by eapply recorded_inv|by split; apply Hok].
    split; [|done]. eapply final_kept_trans; [|exact Hk]. by apply final_kept_rings.
  - destruct (expired_exactly t (uint64 (unix (block_time ctx))) (inv_accepted t Hinv)) as [Ha _].
    destruct (delete_all_accepted (expiredPairs (uint64 (unix (block_time ctx))) (store_items (expiryIndex t))) t) as (a & b & c & Heq).
    rewrite Heq in Ha |- *. split; [by apply final_kept_rings|by apply set_accepted_inv].
Qed.
End inv.
