(* ===== verification/OrbisSafety.v ===== *)
(** What the orbis module guarantees of its rings, along any run of the chain: the
    store stays well formed, a ring that is final keeps its identity, its key is what
    all of its members confirmed, and its committee changes only under the ring's own
    threshold signature. *)
From Stdlib Require Import Ascii ZArith Lia.
From stdpp Require Import base numbers list gmap strings sorting.
From S2P Require Import Prelude Sdk Sha256 Utils CoreKeeper Json GoText Canonical Bearer AcpTypes AcpState AcpKeeper AcpBearer AcpMsgs AcpServer AcpReach AcpClient OrbisTypes OrbisIds OrbisRing OrbisSign OrbisReport OrbisKeeper OrbisServer OrbisValid OrbisStep OrbisInv.

Section safety.
Context `{ProtoTypes, AcpCodec, Raccoon, Merkle, GoSort, AddressCodec, DIDKeys, Jose, PayloadJson}.
Context `{DIDDecode, Blst, JubjubWasm, NodeAddress, CoinsOps}.
Context {E : Type} `{ACPEngine E}.
Context {S : Type} `{!Lens S (AcpStore E)} `{!Lens S CoreStore} `{AcpAccounts S, CapabilityKeeper S} `{!Lens S OrbisStore}.
Context `{OrbisBank S} `{!ClientFrame S E OrbisStore} `{!BankFrame S}.
Implicit Types (ctx : OrbisCtx) (s : S) (t : OrbisStore) (r : Ring).

(** * Runs of the chain *)

(** A message succeeds, a block ends, or something happens elsewhere: another module
    acts, or a transaction fails and is undone. *)
Inductive chain_step ctx s s' : Prop :=
| chain_msg authority m : typed m -> deliver authority ctx m s = (Ok tt, s') -> chain_step ctx s s'
| chain_end : EndBlock ctx s = (Ok tt, s') -> chain_step ctx s s'
| chain_other : orb s' = orb s -> chain_step ctx s s'.

Definition chain_run : S -> S -> Prop := rtc (fun s s' => exists ctx, chain_step ctx s s').

(** The chain starts with the default genesis. *)
Definition orbis_start s : Prop := exists s0, orb s0 = empty_orbis /\ InitGenesis DefaultGenesis s0 = (Ok tt, s).

Definition orbis_reach s : Prop := exists s0, orbis_start s0 /\ chain_run s0 s.

(** Nobody acts at the end of a block. *)
Definition no_evidence : evidence :=
  mkEvidence False (fun _ _ => False) (fun _ _ => False) (fun _ _ => False) (fun _ _ => False) (fun _ _ => False).

(** The evidence of a step is that of the message that was delivered. *)
Definition step_evidence ctx s s' (ev : evidence) : Prop :=
  ev = no_evidence \/ exists authority m, deliver authority ctx m s = (Ok tt, s') /\ ev = evidence_of authority ctx m s.

Lemma chain_step_refines ctx s s' : chain_step ctx s s' ->
  exists ev, step_evidence ctx s s' ev /\ orbis_step ev ctx (orb s) (orb s').
Proof.
  intros [authority m Ht Hrun|Hrun| ->].
  - exists (evidence_of authority ctx m s). split; [right; by exists authority, m|].
    exact (deliver_steps authority ctx m Ht s tt s' Hrun).
  - exists no_evidence. split; [by left|]. exact (EndBlock_step no_evidence ctx s tt s' Hrun).
  - exists no_evidence. split; [by left|constructor].
Qed.

Lemma orbis_start_empty s : orbis_start s -> exists p, Params_Validate p = Ok tt /\ orb s = set_orb_params (Some p) empty_orbis.
Proof.
  intros (s0 & H0' & Hrun). unfold InitGenesis, SetParams in Hrun. rewrite bind_run in Hrun. unfold attempt in Hrun.
  rewrite bind_run in Hrun. change (Params_Validate (gen_Params DefaultGenesis)) with (Ok tt) in Hrun.
  cbn [of_outcome orb_mod modify] in Hrun. rewrite bind_run in Hrun. cbn in Hrun. injection Hrun as <-.
  rewrite own_set. fold (orb s0). rewrite H0'. by exists (gen_Params DefaultGenesis).
Qed.

Lemma orbis_start_inv s : orbis_start s -> orbis_inv (orb s).
Proof. intros (p & Hp & ->)%orbis_start_empty. by apply empty_inv. Qed.

Lemma chain_run_inv s s' : chain_run s s' -> orbis_inv (orb s) -> final_kept (orb s) (orb s') /\ orbis_inv (orb s').
Proof.
  induction 1 as [s|s s1 s' [ctx Hstep] _ IH]; intros Hinv; [by split; [apply final_kept_refl|]|].
  destruct (chain_step_refines _ _ _ Hstep) as (ev & _ & Hev). destruct (step_inv ev ctx _ _ Hinv Hev) as [Hk Hinv1]. destruct (IH Hinv1) as [Hk' Hinv'].
  split; [by eapply final_kept_trans|done].
Qed.

Lemma reach_inv s : orbis_reach s -> orbis_inv (orb s).
Proof. intros (s0 & Hs0 & Hrun). by apply (chain_run_inv s0 s Hrun), orbis_start_inv. Qed.

(** * How a ring changes in a step *)

(** The committee with its threshold, and the nonce of its last change. *)
Definition committee r : list bytes * Z * Z := (PeerNodeKeys r, Threshold r, BlockNumberNonce r).

Lemma committee_canonical r r0 : ring_wf r -> committee r0 = committee r -> committee (canonicalRing r0) = committee r.
Proof.
  intros Hr Hc. injection Hc as Hp Ht Hn. unfold committee. cbn. rewrite Hp, Ht, Hn.
  by rewrite <- (f_equal PeerNodeKeys (wf_sorted r Hr)) at 2.
Qed.

(** The step replaces a stored ring by a changed one, or does not touch it. *)
Lemma put_ring_at t id id0 r0 r1 r r' : orbis_inv t -> rings t !! id0 = Some r0 -> rg_Id r1 = rg_Id r0 ->
  rings t !! id = Some r -> rings (put_ring r1 t) !! id = Some r' -> (r = r0 /\ r' = canonicalRing r1) \/ r' = r.
Proof.
  intros Hinv Hr0 Hid Hr. destruct (ring_inv t id0 r0 Hinv Hr0) as (Hid0 & _). cbn. rewrite Hid, Hid0.
  intros [[-> <-]|[_ Hl]]%lookup_insert_Some; [left; split; [congruence|done]|right; congruence].
Qed.

(** The threshold signature under which a reshare was finished. *)
Definition reshare_signed ctx r : Prop := reshareInProgress r = true /\ exists scheme signature,
  verifyThresholdSignatureForRingUpdate r (ringReshareFinalizeSignBytes (ChainID ctx) r (reshared r)) scheme signature = Ok tt.

(** Rings other than the one that is written are left alone, and the committee of a ring
    changes only by a reshare. *)
Lemma put_committee t id id0 r0 r1 r r' : orbis_inv t -> rings t !! id0 = Some r0 -> rg_Id r1 = rg_Id r0 ->
  committee r1 = committee r0 -> rings t !! id = Some r -> rings (put_ring r1 t) !! id = Some r' -> committee r' = committee r.
Proof.
  intros Hinv Hr0 Hid Hc Hr Hr'. destruct (put_ring_at _ _ _ _ _ _ _ Hinv Hr0 Hid Hr Hr') as [[-> ->]| ->]; [|done].
  apply committee_canonical; [|done]. by apply (ring_inv t id0 r0 Hinv Hr0).
Qed.

Lemma reshared_at t id id0 r0 r1 h r r' : orbis_inv t -> rings t !! id0 = Some r0 -> ringForReshareFinalization r0 = Ok r1 ->
  rings t !! id = Some r -> rings (put_ring (set_nonce h r1) t) !! id = Some r' ->
  (r = r0 /\ r1 = reshared r /\ reshareInProgress r = true /\ r' = canonicalRing (set_nonce h (reshared r))) \/ r' = r.
Proof.
  intros Hinv Hr0 Hf Hr Hr'. destruct (ring_inv t id0 r0 Hinv Hr0) as (_ & _ & Hwf & _).
  assert (Hp : reshareInProgress r0 = true).
  { unfold ringForReshareFinalization in Hf. destruct (reshareInProgress r0); [done|discriminate Hf]. }
  rewrite (reshare_completes r0 Hwf Hp) in Hf. injection Hf as <-.
  destruct (put_ring_at t id id0 r0 (set_nonce h (reshared r0)) r r' Hinv Hr0 eq_refl Hr Hr') as [[-> ->]| ->]; [by left|by right].
Qed.

Lemma committee_step ev ctx t t' id r r' :
  orbis_inv t -> orbis_step ev ctx t t' -> rings t !! id = Some r -> rings t' !! id = Some r' ->
  committee r' = committee r \/
  (reshare_signed ctx r /\ r' = canonicalRing (set_nonce (uint64 (block_height ctx)) (reshared r))).
Proof.
  intros Hinv Hstep Hr Hr'.
  destruct Hstep as [|p _ _|k info raw _ _ _|d r0 _ _ _ _ _ _|kd r0 _ _ _ _|msg did reporting ringID _ _ _ Hnew _ _ _ _
    |id0 r0 c _ Hr0 _ _ _ _|id0 r0 _ Hr0 _|id0 r0 c _ Hr0 _ _|id0 r0 c _ Hr0 _ _|id0 r0 r1 _ [Hr0 _] Hu _|id0 r0 dids _ Hr0 _ _|id0 r0 r1 scheme sig Hr0 Hf Hsig
    |report payload r0 now reportID sessionID scheme sig amount state t1 Hok _ _ Hauto|];
    try (left; cbn in Hr'; congruence).
  - left. cbn in Hr'. apply lookup_insert_Some in Hr' as [[-> _]|[_ Hr']]; congruence.
  - left. cbn in Hr'. apply lookup_delete_Some in Hr' as [_ Hr']. congruence.
  - left. cbn in Hr'. apply lookup_delete_Some in Hr' as [_ Hr']. congruence.
  - left. by refine (put_committee t id id0 r0 _ r r' Hinv Hr0 _ _ Hr Hr').
  - left. by refine (put_committee t id id0 r0 _ r r' Hinv Hr0 _ _ Hr Hr').
  - left. pose proof (ring_update_bounds _ _ _ _ Hu) as [(Hid & _) Hp Ht Hn _ _ _ _ _ _].
    refine (put_committee t id id0 r0 _ r r' Hinv Hr0 Hid _ Hr Hr'). unfold committee. congruence.
  - left. by refine (put_committee t id id0 r0 _ r r' Hinv Hr0 _ _ Hr Hr').
  - destruct (reshared_at t id id0 r0 r1 _ r r' Hinv Hr0 Hf Hr Hr') as [(<- & -> & Hp & ->)| ->]; [right|by left].
    split; [|done]. split; [done|]. by exists scheme, sig.
  - left. destruct Hauto as [_|k l1 l2 _ _ _ _ _ _ _]; [cbn in Hr'; congruence|].
    set (t0 := put_demerits _ _ _ _) in Hr'. assert (Hinv0 : orbis_inv t0) by by eapply recorded_inv.
    by refine (put_committee t0 id (rp_RingId report) r0 _ r r' Hinv0 _ _ _ Hr Hr'); [apply Hok|..].
  - left. destruct (delete_all_accepted (expiredPairs (uint64 (unix (block_time ctx))) (store_items (expiryIndex t))) t) as (a & b & c & Heq).
    rewrite Heq in Hr'. cbn in Hr'. congruence.
Qed.

(** ** Where a ring comes from *)

(** What a step can have done to the ring that is stored under an id. *)
Inductive ring_event ev t (id : bytes) r' : Prop :=
| event_kept r : rings t !! id = Some r -> same_identity r r' -> Confirmations r' = Confirmations r ->
    (RingPk r = [] -> PeerNodeKeys r' = PeerNodeKeys r) -> ring_event ev t id r'
| event_created msg did reporting : ev_creates ev (mcr_PolicyId msg) did ->
    id = GenerateRingID (canonicalStrings (mcr_PeerNodeKeys msg)) (mcr_Threshold msg) (mcr_PssInterval msg)
      (mcr_PolicyId msg) (mcr_Nonce msg) (mcr_CurrentVersion msg) (mcr_AllowTrustedAuthRelays msg)
      (canonicalStrings (mcr_TrustedAuthRelayDids msg)) (mcr_RequiresPet msg) ->
    r' = canonicalRing (newRing msg id did reporting) -> ring_event ev t id r'
| event_confirmed r c : rings t !! id = Some r -> ev_confirms ev id c -> confirmation_ok r c ->
    r' = canonicalRing (set_confirmations (Confirmations r ++ [c]) r) -> ring_event ev t id r'
| event_finalized r c : rings t !! id = Some r -> ev_confirms ev id c -> confirmation_ok r c ->
    (length (PeerNodeKeys r) <= length (Confirmations r ++ [c]))%nat ->
    r' = canonicalRing (set_confirmations [] (set_pk (cf_RingPk c) (cf_PetPk c) r)) -> ring_event ev t id r'.

Lemma untouched ev t id r' : rings t !! id = Some r' -> ring_event ev t id r'.
Proof. intros Hr. by apply (event_kept ev t id r' r'). Qed.

(** The ring under the id is either the one that is written, or was there before. *)
Lemma put_event ev t id id0 r0 r1 r' : orbis_inv t -> rings t !! id0 = Some r0 -> rg_Id r1 = rg_Id r0 ->
  (id = id0 -> r' = canonicalRing r1 -> ring_event ev t id r') -> rings (put_ring r1 t) !! id = Some r' -> ring_event ev t id r'.
Proof.
  intros Hinv Hr0 Hid Hnew. destruct (ring_inv t id0 r0 Hinv Hr0) as (Hid0 & _). cbn. rewrite Hid, Hid0.
  intros [[-> <-]|[_ Hl]]%lookup_insert_Some; [by apply Hnew|by apply untouched].
Qed.

(** It is written with the same identity, at any stage, or once it is final. *)
Lemma put_kept ev t id id0 r0 r1 r' : orbis_inv t -> rings t !! id0 = Some r0 -> same_identity r0 r1 ->
  Confirmations r1 = Confirmations r0 -> (RingPk r0 = [] -> PeerNodeKeys r1 = PeerNodeKeys r0) ->
  rings (put_ring r1 t) !! id = Some r' -> ring_event ev t id r'.
Proof.
  intros Hinv Hr0 Hs Hc Hp. destruct (ring_inv t id0 r0 Hinv Hr0) as (_ & _ & Hwf & _). pose proof Hs as (Hid & _).
  apply (put_event ev t id id0 r0 r1 r' Hinv Hr0 Hid). intros -> ->. apply (event_kept _ _ _ _ r0); try done.
  intros Hpk. cbn. rewrite (Hp Hpk). exact (f_equal PeerNodeKeys (wf_sorted r0 Hwf)).
Qed.

Lemma step_event ev ctx t t' id r' : orbis_inv t -> orbis_step ev ctx t t' -> rings t' !! id = Some r' -> ring_event ev t id r'.
Proof.
  intros Hinv Hstep Hr'.
  destruct Hstep as [|p _ _|k info raw _ _ _|d r0 _ _ _ _ _ _|kd r0 _ _ _ _|msg did reporting ringID Hid Hev _ Hnew _ _ _ _
    |id0 r0 c _ Hr0 _ _ _ _|id0 r0 _ Hr0 _|id0 r0 c Hev Hr0 Hc _|id0 r0 c Hev Hr0 Hc Hl|id0 r0 r1 _ [Hr0 Hpk] Hu _|id0 r0 dids _ Hr0 _ _
    |id0 r0 r1 scheme sig Hr0 Hf Hsig|report payload r0 now reportID sessionID scheme sig amount state t1 Hok _ _ Hauto|];
    try (by apply untouched).
  - cbn in Hr'. apply lookup_insert_Some in Hr' as [[<- <-]|[_ Hr']]; [by eapply event_created|by apply untouched].
  - cbn in Hr'. apply lookup_delete_Some in Hr' as [_ Hr']. by apply untouched.
  - cbn in Hr'. apply lookup_delete_Some in Hr' as [_ Hr']. by apply untouched.
  - refine (put_event ev t id id0 r0 _ r' Hinv Hr0 _ _ Hr'); [done|]. intros -> ->. by eapply event_confirmed.
  - refine (put_event ev t id id0 r0 _ r' Hinv Hr0 _ _ Hr'); [done|]. intros -> ->. by eapply event_finalized.
  - pose proof (ring_update_bounds _ _ _ _ Hu) as [Hs Hp _ _ Hc _ _ _ _ _]. by apply (put_kept ev t id id0 r0 r1 r' Hinv Hr0).
  - by apply (put_kept ev t id id0 r0 (set_relays dids r0) r' Hinv Hr0).
  - destruct (ring_inv t id0 r0 Hinv Hr0) as (_ & _ & Hwf & _).
    assert (Hp : reshareInProgress r0 = true).
    { unfold ringForReshareFinalization in Hf. destruct (reshareInProgress r0); [done|discriminate Hf]. }
    rewrite (reshare_completes r0 Hwf Hp) in Hf. injection Hf as <-.
    eapply (put_kept ev t id id0 r0 _ r' Hinv Hr0); [..|exact Hr']; [done|done|].
    intros Hpk. by destruct (reshare_pending_final r0 Hwf Hp).
  - destruct Hauto as [_|k l1 l2 _ _ _ _ _ _ _]; [by apply untouched|]. set (t0 := put_demerits _ _ _ _) in Hr'.
    assert (Hinv0 : orbis_inv t0) by by eapply recorded_inv.
    assert (Hev : ring_event ev t0 id r').
    { eapply (put_kept ev t0 id (rp_RingId report) r0 _ r' Hinv0); [apply Hok|..|exact Hr']; done. }
    destruct Hev; by econstructor.
  - destruct (delete_all_accepted (expiredPairs (uint64 (unix (block_time ctx))) (store_items (expiryIndex t))) t) as (a & b & c & Heq).
    rewrite Heq in Hr'. by apply untouched.
Qed.

(** ** Who has confirmed *)

(** Between [s0] and [s] the node [k] has confirmed these keys for the ring. *)
Definition confirmed_in s0 s (id k pk : bytes) (pet : option bytes) : Prop :=
  exists s1 s2 ctx authority msg, chain_run s0 s1 /\ deliver authority ctx (FinalizeRing_m msg) s1 = (Ok tt, s2) /\
    chain_run s2 s /\ signs s1 (mfr_Creator msg) k /\ mfr_RingId msg = id /\ mfr_RingPk msg = pk /\ mfr_PetPk msg = pet.

(** The ring was created with these members: its id is the digest of them, among others. *)
Definition founded (id : bytes) (members : list bytes) r : Prop := exists threshold pss nonce version relays,
  id = GenerateRingID members threshold pss (rg_PolicyId r) nonce version (AllowTrustedAuthRelays r) relays (RequiresPet r).

Definition all_confirmed s0 s (id : bytes) r : Prop := exists members, members <> [] /\ founded id members r /\
  forall k, k ∈ members -> confirmed_in s0 s id k (RingPk r) (rg_PetPk r).

Definition confirmations_logged s0 s : Prop := forall id r, rings (orb s) !! id = Some r ->
  (forall c, c ∈ Confirmations r -> confirmed_in s0 s id (cf_NodeKey c) (cf_RingPk c) (cf_PetPk c)) /\
  (if decide (RingPk r = []) then founded id (PeerNodeKeys r) r else all_confirmed s0 s id r).

Lemma confirmed_later s0 s ctx s' id k pk pet : chain_step ctx s s' -> confirmed_in s0 s id k pk pet -> confirmed_in s0 s' id k pk pet.
Proof.
  intros Hstep (s1 & s2 & ctx1 & authority & msg & Hr1 & Hd & Hr2 & Hs & Hi & Hp & Hq). exists s1, s2, ctx1, authority, msg.
  split_and!; try done. eapply rtc_r; [exact Hr2|]. by exists ctx.
Qed.

Lemma confirms_logged s0 s ctx s' ev id c : chain_run s0 s -> step_evidence ctx s s' ev -> ev_confirms ev id c ->
  confirmed_in s0 s' id (cf_NodeKey c) (cf_RingPk c) (cf_PetPk c).
Proof.
  intros Hrun [->|(authority & m & Hd & ->)]; [done|]. intros (msg & -> & Hid & Hs & Hpk & Hpet).
  exists s, s', ctx, authority, msg. split_and!; try done.
Qed.

(** With the last confirmation every member has confirmed. *)
Lemma all_members r c : ring_wf r -> confirmation_ok r c -> (length (PeerNodeKeys r) <= length (Confirmations r ++ [c]))%nat ->
  forall k, k ∈ PeerNodeKeys r -> exists c', c' ∈ Confirmations r ++ [c] /\ cf_NodeKey c' = k /\
    cf_RingPk c' = cf_RingPk c /\ cf_PetPk c' = cf_PetPk c.
Proof.
  intros Hr Hc Hl k Hk. pose proof (agrees_exactly r c Hr Hc) as Hag. destruct Hc as [Hpk _ _ Hin Hnew _].
  destruct (wf_pending r Hr Hpk) as (_ & _ & _ & _ & _ & Hnd & Hsub & _).
  assert (Hperm : cf_NodeKey <$> (Confirmations r ++ [c]) ≡ₚ PeerNodeKeys r).
  { apply submseteq_length_Permutation; [|by rewrite length_fmap]. apply NoDup_submseteq.
    - rewrite fmap_app, (comm app). by constructor.
    - intros x (c' & -> & Hx)%list_elem_of_fmap. apply elem_of_app in Hx as [Hx| ->%list_elem_of_singleton]; [|done].
      rewrite Forall_forall in Hsub. by apply Hsub. }
  rewrite <- Hperm in Hk. apply list_elem_of_fmap in Hk as (c' & -> & Hc'). exists c'. split_and!; [done|done|..];
    apply elem_of_app in Hc' as [Hc'| ->%list_elem_of_singleton]; try done; rewrite Forall_forall in Hag; by apply Hag.
Qed.

Lemma founded_kept id members r r' : same_identity r r' -> founded id members r -> founded id members r'.
Proof. intros (_ & _ & _ & _ & Hp & Hq & Ha). unfold founded. by rewrite Hp, Hq, Ha. Qed.

Lemma logged_step ctx s0 s s' : orbis_inv (orb s) -> chain_run s0 s -> chain_step ctx s s' ->
  confirmations_logged s0 s -> confirmations_logged s0 s'.
Proof.
  intros Hinv Hrun Hstep Hlog id r' Hr'. destruct (chain_step_refines ctx s s' Hstep) as (ev & Hev & Hos).
  destruct (step_event ev ctx _ _ id r' Hinv Hos Hr') as [r Hr Hs Hc Hp|msg did reporting _ Hid ->|r c Hr Hcf Hok ->|r c Hr Hcf Hok Hl ->].
  - destruct (Hlog id r Hr) as [Hcs Hst]. pose proof Hs as (_ & _ & Hk & Hpet & _). rewrite Hc, Hk.
    split; [intros c Hin; eauto using confirmed_later|]. case_decide as Hpk.
    + rewrite (Hp Hpk). by eapply founded_kept.
    + destruct Hst as (members & Hne & Hf & Hall). exists members. split_and!; [done|by eapply founded_kept|].
      intros k Hin. rewrite Hk, Hpet. eauto using confirmed_later.
  - split; [by intros c Hin%elem_of_nil|]. cbn. eexists _, _, _, _, _. cbn. rewrite (canonicalStrings_idem (canonicalStrings _)).
    2: apply canonicalStrings_sorted. exact Hid.
  - destruct (ring_inv _ id r Hinv Hr) as (_ & _ & Hwf & _). destruct (Hlog id r Hr) as [Hcs Hst].
    pose proof (co_pending r c Hok) as Hpk. rewrite decide_True in Hst by done. cbn. rewrite decide_True by done. split.
    + intros c' [Hin| ->%list_elem_of_singleton]%elem_of_app; [eauto using confirmed_later|by eapply confirms_logged].
    + rewrite <- (f_equal PeerNodeKeys (wf_sorted r Hwf)) in Hst. exact Hst.
  - destruct (ring_inv _ id r Hinv Hr) as (_ & _ & Hwf & _). destruct (Hlog id r Hr) as [Hcs Hst].
    pose proof (co_pending r c Hok) as Hpk. rewrite decide_True in Hst by done. cbn.
    rewrite decide_False by apply Hok. split; [by intros c' Hin%elem_of_nil|].
    exists (PeerNodeKeys r). split_and!; [by apply (proj1 (validateRing_ok r)), Hwf|exact Hst|].
    intros k Hk. destruct (all_members r c Hwf Hok Hl k Hk) as (c' & Hin & <- & <- & <-).
    apply elem_of_app in Hin as [Hin| ->%list_elem_of_singleton]; [eauto using confirmed_later|by eapply confirms_logged].
Qed.

Lemma run_logged s0 s : orbis_start s0 -> chain_run s0 s -> confirmations_logged s0 s.
Proof.
  intros Hs0 Hrun. pose proof (orbis_start_inv s0 Hs0) as Hinv0. revert s Hrun.
  apply (rtc_ind_r (confirmations_logged s0)).
  - intros id r Hr. destruct (orbis_start_empty s0 Hs0) as (p & _ & Hp). rewrite Hp in Hr. cbn in Hr. by rewrite lookup_empty in Hr.
  - intros s s' Hrun [ctx Hstep] IH. apply (logged_step ctx s0 s s'); [|done|done|done]. by apply (chain_run_inv s0 s Hrun).
Qed.

(** * Properties *)

(** C15: in every reachable state the store of the module is well formed. Every ring
    is stored under its own id, a digest of 64 characters, passes the validation of the
    module, and has its names sorted, a threshold between 1 and the size of its
    committee, and a refresh interval of at least a day; all nodes it names are
    registered. Before it has a key, fewer than all members have confirmed, each of
    them once and all the same keys, and nothing is being reshared or upgraded; after
    that no confirmations are left, and it has a key for PET exactly if it requires
    one. Documents and key derivations are stored under the id that binds their
    content and, like demerits, belong to a ring that is final. Every accepted report
    and session has exactly one entry in the index of expiries. *)
Theorem orbis_well_formed s : orbis_reach s -> orbis_inv (orb s).
Proof. apply reach_inv. Qed.

(** A ring that is final stays: whatever happens later, it is there, with the same
    id, creator, key, PET key, policy and options. Only a ring without a key can be
    deleted. *)
Theorem final_ring_stays s s' id r :
  orbis_reach s -> chain_run s s' -> final_ring (orb s) id r ->
  exists r', final_ring (orb s') id r' /\ same_identity r r'.
Proof. intros Hs Hrun Hr. destruct (chain_run_inv s s' Hrun (reach_inv s Hs)) as [Hk _]. by apply Hk. Qed.

(** C3: a message that succeeds changes the store of the module in one of the ways that
    [orbis_step] lists, on its conditions, and with the evidence that it asks for: the
    parameters change for the authority alone; a ring appears under an id that is the
    digest of its parameters, for a creator whom the acp module permits to create rings
    under the policy; a confirmation comes from the member that signs; a pending ring is
    deleted by a member or its creator, or by members that disagree; operators change a
    ring if the acp module permits them to update it; a committee changes under the
    ring's threshold signature; the record of a node is written by its controller, or by
    the node itself when it has none; a report is accepted after all of its checks. *)
Theorem orbis_refines authority ctx m s s' :
  typed m -> deliver authority ctx m s = (Ok tt, s') -> orbis_step (evidence_of authority ctx m s) ctx (orb s) (orb s').
Proof. intros Ht Hrun. exact (deliver_steps authority ctx m Ht s tt s' Hrun). Qed.

Lemma target_peers_sorted r : ring_wf r -> canonicalStrings (target_peers r) = target_peers r.
Proof.
  intros Hr. pose proof (wf_sorted r Hr) as Hs. unfold target_peers.
  case_decide; [exact (f_equal PeerNodeKeys Hs)|exact (f_equal NewPeerNodeKeys Hs)].
Qed.

(** C6: the committee of a ring and its threshold change in one way only. A reshare was
    pending, the new committee and threshold are those it asked for, nothing is pending
    afterwards, the nonce of the ring is the height of the block, and the ring's own key
    has signed the document that leads from the old state of the ring to the new one. *)
Theorem committee_changes_signed ctx s s' id r r' :
  orbis_reach s -> chain_step ctx s s' -> rings (orb s) !! id = Some r -> rings (orb s') !! id = Some r' ->
  (PeerNodeKeys r', Threshold r') <> (PeerNodeKeys r, Threshold r) ->
  reshareInProgress r = true /\ PeerNodeKeys r' = target_peers r /\ Threshold r' = target_threshold r /\
  reshareInProgress r' = false /\ BlockNumberNonce r' = uint64 (block_height ctx) /\
  exists scheme signature,
    verifyThresholdSignature scheme (RingPk r) (ringReshareFinalizeSignBytes (ChainID ctx) r (reshared r)) signature = Ok tt.
Proof.
  intros Hs Hstep Hr Hr' Hne. pose proof (reach_inv s Hs) as Hinv. destruct (chain_step_refines ctx s s' Hstep) as (ev & _ & Hos).
  destruct (ring_inv _ id r Hinv Hr) as (_ & _ & Hwf & _).
  destruct (committee_step ev ctx _ _ id r r' Hinv Hos Hr Hr') as [Hc|[[Hp (scheme & sig & Hv)] ->]].
  { injection Hc as Hp Ht _. congruence. }
  split_and!; try done; [exact (target_peers_sorted r Hwf)|]. by exists scheme, sig.
Qed.

(** C7: the key of a ring is unanimous. Along a run from genesis, when a ring is final,
    every member that it was created with, as bound by its id, has itself sent a
    confirmation for this ring with exactly this key, and this PET key. *)
Theorem ring_key_unanimous s0 s id r :
  orbis_start s0 -> chain_run s0 s -> final_ring (orb s) id r ->
  exists members, members <> [] /\ founded id members r /\
    forall k, k ∈ members -> confirmed_in s0 s id k (RingPk r) (rg_PetPk r).
Proof.
  intros Hs0 Hrun [Hr Hpk]. destruct (run_logged s0 s Hs0 Hrun id r Hr) as [_ Hst]. by rewrite decide_False in Hst.
Qed.
End safety.
