(* ===== verification/OrbisReports.v ===== *)
(** What the orbis module guarantees of fault reports: which reports it accepts, that
    evidence counts once, what a report does to the demerits of a node, and when it
    replaces the node. *)
From Stdlib Require Import Ascii ZArith Lia.
From stdpp Require Import base numbers list gmap strings sorting.
From S2P Require Import Prelude Sdk Sha256 Utils CoreKeeper Json GoText Canonical Bearer AcpTypes AcpState AcpKeeper AcpBearer AcpMsgs AcpServer AcpReach AcpClient OrbisTypes OrbisIds OrbisRing OrbisSign OrbisReport OrbisKeeper OrbisServer OrbisValid OrbisStep OrbisInv OrbisSafety.

Section reports.
Context `{ProtoTypes, AcpCodec, Raccoon, Merkle, GoSort, AddressCodec, DIDKeys, Jose, PayloadJson}.
Context `{DIDDecode, Blst, JubjubWasm, NodeAddress, CoinsOps}.
Context {E : Type} `{ACPEngine E}.
Context {S : Type} `{!Lens S (AcpStore E)} `{!Lens S CoreStore} `{AcpAccounts S, CapabilityKeeper S} `{!Lens S OrbisStore}.
Context `{OrbisBank S} `{!ClientFrame S E OrbisStore} `{!BankFrame S}.
Implicit Types (ctx : OrbisCtx) (s : S) (t : OrbisStore) (r : Ring) (report : ReportEnvelope).

(** * A report that passes its checks is accepted *)

Lemma bind_outcome {A B} (o : outcome A) a (k : A -> M S B) s : o = Ok a -> bind (of_outcome o) k s = k a s.
Proof. by intros ->. Qed.
Lemma bind_throw_if {B} c e (k : unit -> M S B) s : c = false -> bind (throw_if c e) k s = k tt s.
Proof. by intros ->. Qed.
Lemma bind_option {A B} (o : option A) a e (k : A -> M S B) s : o = Some a -> bind (of_option o e) k s = k a s.
Proof. by intros ->. Qed.
Lemma bind_get {A B} (f : OrbisStore -> A) (k : A -> M S B) s : bind (orb_get f) k s = k (f (orb s)) s.
Proof. done. Qed.

Lemma validateSubmittedReport_complete ctx report payload r now id sid scheme sig s :
  report_ok ctx (orb s) report payload r now id sid scheme sig ->
  validateSubmittedReport (S := S) ctx report id scheme sig s = (Ok (mkValidatedReport id sid r now), s).
Proof.
  intros [Hnow Hshape Hchain (message & Hmsg & Hsig) Hfresh Hpl Hr Hpk Hrpk Hst Hver Hcom (info & Hi & Hpeer) Hses Hfs].
  unfold validateSubmittedReport, HasAcceptedReport, HasAcceptedReportSession, GetRing.
  rewrite (bind_outcome _ _ _ _ Hnow), (bind_outcome _ _ _ _ Hshape).
  rewrite bind_throw_if by (by rewrite bool_decide_eq_true_2). rewrite (bind_outcome _ _ _ _ Hmsg). cbv beta iota.
  rewrite bind_throw_if by (by rewrite bool_decide_eq_true_2). rewrite bind_get, bind_throw_if by (by rewrite bool_decide_eq_false_2).
  rewrite (bind_outcome _ _ _ _ Hpl), bind_get, (bind_option _ _ _ _ _ Hr), bind_outcome with (a := tt)
    by (unfold requireRingFinalized; by rewrite bool_decide_eq_false_2).
  rewrite bind_throw_if by (by rewrite bool_decide_eq_true_2). rewrite (bind_outcome _ _ _ _ Hst), bind_throw_if by done.
  rewrite bind_throw_if by (rewrite Hver; by rewrite Z.eqb_refl).
  rewrite bind_run. unfold validateReportCommitteeAuthorization, GetNodeInfo.
  rewrite (bind_outcome _ _ _ _ Hcom), bind_get, (bind_option _ _ _ _ _ Hi), Hpeer, bool_decide_eq_true_2 by done. cbn [negb throw_if ret].
  rewrite (bind_outcome _ _ _ _ Hses), bind_get, bind_throw_if by (by rewrite bool_decide_eq_false_2).
  by rewrite (bind_outcome _ _ _ _ Hsig).
Qed.

(** A reshare that a report starts never fails, so it does not undo the report. *)
Lemma maybeSchedule_total r accused points s : ring_wf r -> len (PeerNodeKeys r) < 2 ^ 32 ->
  exists s', maybeScheduleAutoReshareForReport (S := S) r accused points s = (Ok tt, s').
Proof.
  intros Hr Hsmall. unfold maybeScheduleAutoReshareForReport. destruct (points <? _); [by eexists|].
  destruct (reshareInProgress r); [by eexists|]. destruct (bool_decide_reflect (accused ∈ PeerNodeKeys r)) as [Hin|]; [|by eexists].
  cbn [negb]. destruct (selectAutoReshareReplacement_run r [] (BackupNodeKeys (rg_Reporting r)) s) as (o & Ho & Hsel).
  rewrite bind_run, Ho. destruct o as [[k rest]|]; [|by eexists]. destruct Hsel as (l1 & l2 & Hb & -> & _ & [Hk _]).
  cbv zeta. rewrite app_nil_l. fold (replaced accused k (PeerNodeKeys r)). fold (auto_reshare accused k (l1 ++ l2) r).
  rewrite (bind_outcome _ tt) by by apply auto_reshare_valid. unfold SetRing, orb_set.
  rewrite bool_decide_eq_false_2; [by eexists|]. cbn. by apply (proj1 (validateRing_ok r)), Hr.
Qed.

Lemma report_amount report payload r : reportPayloadOf report = Ok payload ->
  exists amount, DemeritAmountForReportType (Some r) (ReportType report) = Ok amount.
Proof.
  unfold reportPayloadOf, DemeritAmountForReportType, same. repeat case_bool_decide; repeat case_decide; try done; eauto.
Qed.

Lemma SetAcceptedReportPair_run id sid e s : id <> [] -> sid <> [] ->
  SetAcceptedReportPair (S := S) id sid e s = (Ok tt, lens_set (add_pair id sid e (orb s)) s).
Proof. intros Hid Hsid. unfold SetAcceptedReportPair. by rewrite !bool_decide_eq_false_2. Qed.

Lemma IncrementNodeDemerits_run ringID nodeKey amount now reset s :
  IncrementNodeDemerits (S := S) ringID nodeKey amount now reset s =
  (Ok (points (next_demerits (orb s) ringID nodeKey amount now reset)),
   lens_set (put_demerits ringID nodeKey (next_demerits (orb s) ringID nodeKey amount now reset) (orb s)) s).
Proof. done. Qed.

Lemma SubmitReport_complete ctx msg payload r now sid s :
  report_ok ctx (orb s) (mrp_Report msg) payload r now (mrp_ReportId msg) sid (mrp_SignatureScheme msg) (mrp_Signature msg) ->
  orbis_inv (orb s) -> len (PeerNodeKeys r) < 2 ^ 32 -> exists s', SubmitReport (S := S) ctx msg s = (Ok (mrp_ReportId msg), s').
Proof.
  intros Hok Hinv Hsmall. unfold SubmitReport. cbv zeta. rewrite bind_run, (validateSubmittedReport_complete _ _ _ _ _ _ _ _ _ _ Hok).
  cbn [vr_ring vr_reportID vr_sessionDedupeID vr_blockUnixTime].
  destruct (report_amount _ _ r (ro_payload _ _ _ _ _ _ _ _ _ _ Hok)) as [amount Ham].
  rewrite (bind_outcome _ _ _ _ Ham), bind_run. destruct (report_ids _ _ _ _ _ _ _ _ _ _ Hok) as [Hid Hsid].
  rewrite SetAcceptedReportPair_run by done. rewrite bind_run, IncrementNodeDemerits_run, bind_run.
  destruct (ring_inv _ _ r Hinv (ro_ring _ _ _ _ _ _ _ _ _ _ Hok)) as (_ & _ & Hwf & _).
  match goal with |- exists s', match maybeScheduleAutoReshareForReport ?a ?b ?c ?d with _ => _ end = _ =>
    destruct (maybeSchedule_total a b c d Hwf Hsmall) as [s' Hs'] end.
  rewrite Hs'. by exists s'.
Qed.

(** * Evidence counts once *)

(** An entry of the index stays until its time has come. *)
Lemma step_indexed ev ctx t t' e id sid : orbis_inv t -> orbis_step ev ctx t t' -> indexed t e id sid ->
  indexed t' e id sid \/ e <= uint64 (unix (block_time ctx)).
Proof.
  intros Hinv Hstep Hi. destruct Hstep as [|? _ _|? ? ? _ _ _|? ? _ _ _ _ _ _|? ? _ _ _ _|? ? ? ? _ _ _ _ _ _ _ _
    |? ? ? _ _ _ _ _ _|? ? _ _ _|? ? ? _ _ _ _|? ? ? _ _ _ _|? ? ? _ _ _ _|? ? ? _ _ _ _
    |? ? ? ? ? _ _ _|report payload r now reportID sessionID scheme sig amount state t1 Hok _ _ Hauto|]; try (left; exact Hi).
  - left. assert (Hi1 : indexed (add_pair reportID sessionID (uint64 (now + ReportTTLSeconds)) t) e id sid).
    { apply indexed_add; [apply uint64_is_u64|]. right. split; [|done]. intros [_ ->].
      apply (ro_fresh _ _ _ _ _ _ _ _ _ _ Hok). by eapply indexed_report; [apply Hinv|]. }
    destruct Hauto as [_|k l1 l2 _ _ _ _ _ _ _]; exact Hi1.
  - destruct (expired_exactly t (uint64 (unix (block_time ctx))) (inv_accepted t Hinv)) as [_ Hx].
    destruct (Z_lt_le_dec (uint64 (unix (block_time ctx))) e); [left; by apply Hx|by right].
Qed.

(** A run of the chain in which time does not go back; the seconds since 1970 are those
    of a signed number of 64 bits. *)
Inductive timed_run : Z -> S -> Z -> S -> Prop :=
| timed_refl n s : timed_run n s n s
| timed_step n s n1 s1 ctx s2 : timed_run n s n1 s1 -> n1 <= unix (block_time ctx) < 2 ^ 63 -> chain_step ctx s1 s2 ->
    timed_run n s (unix (block_time ctx)) s2.

Lemma timed_indexed n s n' s' e id sid : timed_run n s n' s' -> 0 <= n -> orbis_inv (orb s) -> indexed (orb s) e id sid ->
  n <= n' /\ orbis_inv (orb s') /\ (indexed (orb s') e id sid \/ e <= n').
Proof.
  induction 1 as [n s|n s n1 s1 ctx s2 Hrun IH Ht Hstep]; intros Hn Hinv Hi; [by split_and!; [lia|..|left]|].
  destruct (IH Hn Hinv Hi) as (Hle & Hinv1 & Hi1). destruct (chain_step_refines ctx s1 s2 Hstep) as (ev & _ & Hos).
  split_and!; [lia|by apply (step_inv ev ctx _ _ Hinv1 Hos)|]. destruct Hi1 as [Hi1|]; [|right; lia].
  destruct (step_indexed ev ctx _ _ e id sid Hinv1 Hos Hi1) as [|He]; [by left|right].
  by rewrite uint64_small in He by lia.
Qed.

Lemma report_times ctx t report payload r now id sid scheme sig :
  report_ok ctx t report payload r now id sid scheme sig ->
  now = unix (block_time ctx) /\ 0 <= now /\ ObservedAt report <= now <= ObservedAt report + ReportTTLSeconds.
Proof.
  intros [Hnow Hshape _ _ _ _ _ _ _ _ _ _ _ _ _]. unfold blockUnixTime in Hnow.
  destruct (Z.ltb_spec (unix (block_time ctx)) 0); [done|]. injection Hnow as <-.
  unfold validateReportEnvelopeShape, reject_any in Hshape. rewrite reject_if_ok in Hshape. cbn [existsb Datatypes.id] in Hshape.
  rewrite !orb_false_iff, negb_false_iff, !Z.ltb_ge, Z.eqb_eq in Hshape. unfold ReportTTLSeconds in *. lia.
Qed.

(** The pair of a report is in the index right after it is accepted. *)
Lemma recorded_indexed t report r now amount id sid t' : report_recorded t report r now amount id sid t' ->
  indexed t' (uint64 (now + ReportTTLSeconds)) id sid.
Proof.
  intros Hrec. assert (Hi : indexed (add_pair id sid (uint64 (now + ReportTTLSeconds)) t) (uint64 (now + ReportTTLSeconds)) id sid).
  { apply indexed_add; [apply uint64_is_u64|by left]. }
  unfold report_recorded in Hrec. destruct Hrec as [_|k l1 l2 _ _ _ _ _ _ _]; exact Hi.
Qed.

(** The delivery of a report, with what was recorded. *)
Lemma deliver_report authority ctx msg s s' : deliver (S := S) authority ctx (SubmitReport_m msg) s = (Ok tt, s') ->
  exists payload r now sid amount,
    report_ok ctx (orb s) (mrp_Report msg) payload r now (mrp_ReportId msg) sid (mrp_SignatureScheme msg) (mrp_Signature msg) /\
    DemeritAmountForReportType (Some r) (ReportType (mrp_Report msg)) = Ok amount /\
    report_recorded (orb s) (mrp_Report msg) r now amount (mrp_ReportId msg) sid (orb s').
Proof.
  unfold deliver. rewrite bind_run, of_outcome_run. destruct (validateBasic _) as [[]|e|]; [|done|done]. cbn [handle].
  rewrite bind_run. destruct (SubmitReport ctx msg s) as [[id|e|] s1] eqn:Er; [|done|done]. intros [= ->].
  destruct (SubmitReport_ok ctx msg s id s' Er) as (-> & payload & r & now & sid & amount & ?). by exists payload, r, now, sid, amount.
Qed.

(** The sessions that two reports are about are the same. *)
Definition same_session report report' : Prop := exists payload payload' sid,
  reportPayloadOf report = Ok payload /\ reportPayloadOf report' = Ok payload' /\
  reportSessionDedupeID report payload = Ok sid /\ reportSessionDedupeID report' payload' = Ok sid.

(** C16: evidence counts once. After a report has been accepted, no report of the same
    session is accepted that was observed before the block that accepted the first one,
    however far the chain has run. In particular the same report is not accepted a
    second time. *)
Theorem session_counts_once authority ctx msg s s1 n2 s2 authority' ctx' msg' s3 :
  orbis_reach s -> unix (block_time ctx) + ReportTTLSeconds < 2 ^ 63 ->
  deliver authority ctx (SubmitReport_m msg) s = (Ok tt, s1) ->
  timed_run (unix (block_time ctx)) s1 n2 s2 -> n2 <= unix (block_time ctx') ->
  same_session (mrp_Report msg) (mrp_Report msg') -> ObservedAt (mrp_Report msg') < unix (block_time ctx) ->
  deliver authority' ctx' (SubmitReport_m msg') s2 <> (Ok tt, s3).
Proof.
  intros Hs Hbound Hd Hrun Hn2 (payload & payload' & sid & Hp & Hp' & Hsid & Hsid') Hobs Hd'.
  pose proof (deliver_steps authority ctx (SubmitReport_m msg) I s tt s1 Hd) as Hstep.
  destruct (step_inv _ ctx _ _ (reach_inv s Hs) Hstep) as [_ Hinv1].
  apply deliver_report in Hd as (p & r & now & sid0 & amount & Hok & _ & Hrec), Hd' as (p' & r' & now' & sid' & amount' & Hok' & _ & _).
  destruct (report_times _ _ _ _ _ _ _ _ _ _ Hok) as (-> & Hnow & _). destruct (report_times _ _ _ _ _ _ _ _ _ _ Hok') as (-> & _ & Ht').
  rewrite (ro_payload _ _ _ _ _ _ _ _ _ _ Hok) in Hp. rewrite (ro_payload _ _ _ _ _ _ _ _ _ _ Hok') in Hp'. injection Hp as <-. injection Hp' as <-.
  rewrite (ro_session _ _ _ _ _ _ _ _ _ _ Hok) in Hsid. rewrite (ro_session _ _ _ _ _ _ _ _ _ _ Hok') in Hsid'. injection Hsid as ->. injection Hsid' as ->.
  pose proof (recorded_indexed _ _ _ _ _ _ _ _ Hrec) as Hi. rewrite uint64_small in Hi by (unfold ReportTTLSeconds in *; lia).
  destruct (timed_indexed _ _ _ _ _ _ _ Hrun Hnow Hinv1 Hi) as (_ & Hinv2 & [Hi2|He]); [|lia].
  apply (ro_fresh_session _ _ _ _ _ _ _ _ _ _ Hok'). by eapply indexed_report; [apply Hinv2|].
Qed.

(** ** The boundary of the window *)

(** The record of a report goes with the block that ends when it expires. *)
Lemma expired_pair t t' now e id sid : accepted_ok t -> indexed t e id sid -> e <= now ->
  t' = foldl deletePair t (expiredPairs now (store_items (expiryIndex t))) -> (id ∉ acceptedReports t') /\ (sid ∉ acceptedSessions t').
Proof.
  intros Hok Hi He ->. destruct (expired_exactly t now Hok) as [Hok' Hx]. split.
  - intros Hin. destruct (acc_report _ Hok' _ Hin) as (e' & sid' & Hi'). apply Hx in Hi' as [Hi' Hlt].
    destruct (acc_report_once t Hok _ _ _ _ _ Hi Hi'). lia.
  - intros Hin. destruct (acc_session _ Hok' _ Hin) as (e' & id' & Hi'). apply Hx in Hi' as [Hi' Hlt].
    destruct (acc_session_once t Hok _ _ _ _ _ Hi Hi'). lia.
Qed.

(** The same report in another block, for the same rings and nodes. *)
Lemma report_ok_again ctx t report payload r now id sid scheme sig ctx' t' :
  report_ok ctx t report payload r now id sid scheme sig -> ChainID ctx' = ChainID ctx ->
  ObservedAt report <= unix (block_time ctx') <= ObservedAt report + ReportTTLSeconds -> 0 <= unix (block_time ctx') ->
  rings t' = rings t -> nodeInfos t' = nodeInfos t -> id ∉ acceptedReports t' -> sid ∉ acceptedSessions t' ->
  report_ok ctx' t' report payload r (unix (block_time ctx')) id sid scheme sig.
Proof.
  intros [Hnow Hshape Hchain Hsig _ Hpl Hr Hpk Hrpk Hst Hver Hcom Hacc Hses _] Hc Ht Hpos Hrings Hnodes Hid Hsid.
  split; try done; try congruence; [| |by rewrite Hnodes].
  - unfold blockUnixTime. destruct (Z.ltb_spec (unix (block_time ctx')) 0); [lia|done].
  - unfold validateReportEnvelopeShape, reject_any in *. rewrite reject_if_ok in *. cbn [existsb Datatypes.id] in *.
    rewrite !orb_false_iff in *. destruct Hshape as (Hdom & Hord & _ & He & _ & Hrest).
    split; [exact Hdom|]. split; [exact Hord|]. split; [apply Z.ltb_ge; lia|]. split; [exact He|]. split; [|exact Hrest].
    rewrite negb_false_iff, Z.eqb_eq in He. apply Z.ltb_ge. lia.
Qed.

Lemma delete_all_rest l t : rings (foldl deletePair t l) = rings t /\ nodeInfos (foldl deletePair t l) = nodeInfos t.
Proof. by destruct (delete_all_accepted l t) as (a & b & c & ->). Qed.

Lemma recorded_nodes t report r now amount id sid t' : report_recorded t report r now amount id sid t' -> nodeInfos t' = nodeInfos t.
Proof. by intros [_|k l1 l2 _ _ _ _ _ _ _]. Qed.

(** The record of a report does not outlive the report. A report that is accepted in
    the very second in which it was observed is valid until 120 seconds later, inclusive,
    but its record goes at the end of the first block of that last second: in the next
    block of the same second the same report is accepted again, and counts again,
    provided that the ring has not changed. *)
Theorem boundary_replay ctx ctx' msg s id s1 s2 r :
  orbis_reach s -> SubmitReport ctx msg s = (Ok id, s1) -> unix (block_time ctx) = ObservedAt (mrp_Report msg) ->
  rings (orb s1) = rings (orb s) -> rings (orb s) !! rp_RingId (mrp_Report msg) = Some r -> len (PeerNodeKeys r) < 2 ^ 32 ->
  unix (block_time ctx') = ObservedAt (mrp_Report msg) + ReportTTLSeconds -> ChainID ctx' = ChainID ctx ->
  EndBlock ctx' s1 = (Ok tt, s2) -> exists s3, SubmitReport ctx' msg s2 = (Ok id, s3).
Proof.
  intros Hs Hrun Hobs Hrings Hr Hsmall Ht Hc Hend. destruct (SubmitReport_ok ctx msg s id s1 Hrun) as (-> & payload & r' & now & sid & amount & Hok & _ & Hrec).
  assert (r' = r) as -> by (pose proof (ro_ring _ _ _ _ _ _ _ _ _ _ Hok); congruence).
  destruct (report_times _ _ _ _ _ _ _ _ _ _ Hok) as (Hnow & Hpos & _). subst now.
  assert (Hinv1 : orbis_inv (orb s1)).
  { eapply step_inv; [apply (reach_inv s Hs)|]. exact (SubmitReport_step [] ctx msg s _ s1 Hrun). }
  assert (Hs2 : orb s2 = foldl deletePair (orb s1) (expiredPairs (uint64 (unix (block_time ctx'))) (store_items (expiryIndex (orb s1))))).
  { injection Hend as <-. by rewrite own_set. }
  pose proof (recorded_indexed _ _ _ _ _ _ _ _ Hrec) as Hi.
  destruct (expired_pair (orb s1) (orb s2) (uint64 (unix (block_time ctx'))) _ _ _ (inv_accepted _ Hinv1) Hi) as [Hid Hsid];
    [by rewrite Ht, Hobs|exact Hs2|].
  destruct (delete_all_rest (expiredPairs (uint64 (unix (block_time ctx'))) (store_items (expiryIndex (orb s1)))) (orb s1)) as [Hr2 Hn2].
  rewrite <- Hs2 in Hr2, Hn2. eapply (SubmitReport_complete ctx' msg payload r _ sid); [|eapply step_inv; [exact Hinv1|]|done].
  - eapply report_ok_again; [exact Hok|done| | |congruence| |done|done]; unfold ReportTTLSeconds in *; [lia|lia|].
    rewrite Hn2. by eapply recorded_nodes.
  - exact (EndBlock_step no_evidence ctx' s1 tt s2 Hend).
Qed.

(** * What is accepted *)

(** C23: the module accepts a report exactly if it passes all of the checks that
    [report_ok] lists, in any reachable state: nothing that comes after the checks, such
    as the reshare that a report may start, makes a report fail. *)
Theorem report_accepted_exactly ctx msg s :
  orbis_reach s -> (forall id r, rings (orb s) !! id = Some r -> len (PeerNodeKeys r) < 2 ^ 32) ->
  (exists id s', SubmitReport ctx msg s = (Ok id, s')) <->
  (exists payload r now sid,
    report_ok ctx (orb s) (mrp_Report msg) payload r now (mrp_ReportId msg) sid (mrp_SignatureScheme msg) (mrp_Signature msg)).
Proof.
  intros Hs Hsmall. split.
  - intros (id & s' & Hrun). destruct (SubmitReport_ok ctx msg s id s' Hrun) as (-> & payload & r & now & sid & amount & Hok & _).
    by exists payload, r, now, sid.
  - intros (payload & r & now & sid & Hok). exists (mrp_ReportId msg).
    apply (SubmitReport_complete ctx msg payload r now sid s Hok); [by apply reach_inv|]. eapply Hsmall, Hok.
Qed.

(** The nodes of a ring, before and after a pending reshare. *)
Definition committee_nodes r : list bytes := PeerNodeKeys r ++ target_peers r.

Lemma scope_nodes r scope view : reportCommitteeForScope r scope = Ok view ->
  (cv_peerNodeKeys view = PeerNodeKeys r /\ cv_threshold view = Threshold r) \/
  (cv_peerNodeKeys view = target_peers r /\ cv_threshold view = target_threshold r).
Proof.
  unfold reportCommitteeForScope. destruct (scope =? _); [intros [= <-]; by left|]. destruct (scope =? _); [|done].
  rewrite outcome_seq_ok. intros [_ [= <-]]. by right.
Qed.

Lemma validateReportCommittees_ok report payload r : validateReportCommittees report payload r = Ok tt ->
  ReporterNodeKey report ∈ committee_nodes r /\ AccusedNodeKey report ∈ committee_nodes r /\
  exists signers threshold, (signers = PeerNodeKeys r /\ threshold = Threshold r \/
      signers = target_peers r /\ threshold = target_threshold r) /\
    2 <= threshold /\ ReporterNodeKey report ∈ signers /\
    threshold <= len signers - (if decide (AccusedNodeKey report ∈ signers) then 1 else 0).
Proof.
  unfold validateReportCommittees. intros (acc & Hacc & Hv)%outcome_bind_ok. apply outcome_bind_ok in Hv as (sig & Hsig & Hv).
  unfold reject_any in Hv. rewrite reject_if_ok in Hv. cbn [existsb Datatypes.id] in Hv.
  rewrite !orb_false_iff, !negb_false_iff, !bool_decide_eq_true, !Z.ltb_ge in Hv. destruct Hv as (H2' & Hle & Hrest & Hrep & Hac & _).
  assert (Hnodes : forall k view scope, reportCommitteeForScope r scope = Ok view -> k ∈ cv_peerNodeKeys view -> k ∈ committee_nodes r).
  { intros k view scope Hs Hk. unfold committee_nodes. rewrite elem_of_app.
    destruct (scope_nodes _ _ _ Hs) as [[Hp _]|[Hp _]]; rewrite Hp in Hk; auto. }
  split_and!; [exact (Hnodes _ _ _ Hsig Hrep)|exact (Hnodes _ _ _ Hacc Hac)|]. exists (cv_peerNodeKeys sig), (cv_threshold sig).
  split_and!; [by eapply scope_nodes|done|done|]. case_decide as Hin; [|rewrite Z.sub_0_r; exact Hle].
  rewrite bool_decide_eq_true_2 in Hrest by done. exact (proj1 (Z.ltb_ge _ _) Hrest).
Qed.

(** What an accepted report stands for. The ring's own key has signed the canonical
    form of the report, whose digest is its id; the ring is final; the block falls into
    the 120 seconds after the observation; reporter and accused are different nodes of
    the ring's committees, and the accused is registered under the peer id of the report;
    the committee that signs has a threshold of at least two, which it reaches without
    the accused; neither this report nor its session had been recorded, and now both
    are. *)
Theorem accepted_report_sound ctx msg s id s' :
  SubmitReport ctx msg s = (Ok id, s') ->
  let report := mrp_Report msg in
  exists r message payload sid, final_ring (orb s) (rp_RingId report) r /\
    reportEnvelopeCanonicalBytes report = Ok message /\ id = hex_encode (sha256 message) /\
    verifyThresholdSignature (mrp_SignatureScheme msg) (RingPk r) message (mrp_Signature msg) = Ok tt /\
    ObservedAt report <= unix (block_time ctx) <= ObservedAt report + ReportTTLSeconds /\
    ReporterNodeKey report <> AccusedNodeKey report /\
    ReporterNodeKey report ∈ committee_nodes r /\ AccusedNodeKey report ∈ committee_nodes r /\
    (exists info, nodeInfos (orb s) !! AccusedNodeKey report = Some info /\ PeerId info = AccusedPeerId report) /\
    (exists signers threshold, (signers = PeerNodeKeys r /\ threshold = Threshold r \/
        signers = target_peers r /\ threshold = target_threshold r) /\ 2 <= threshold /\
      threshold <= len signers - (if decide (AccusedNodeKey report ∈ signers) then 1 else 0)) /\
    reportPayloadOf report = Ok payload /\ reportSessionDedupeID report payload = Ok sid /\
    (id ∉ acceptedReports (orb s)) /\ (sid ∉ acceptedSessions (orb s)) /\
    id ∈ acceptedReports (orb s') /\ sid ∈ acceptedSessions (orb s').
Proof.
  intros Hrun report. destruct (SubmitReport_ok ctx msg s id s' Hrun) as (_ & payload & r & now & sid & amount & Hok & _ & Hrec).
  fold report in Hok, Hrec. destruct (report_times _ _ _ _ _ _ _ _ _ _ Hok) as (-> & _ & Ht).
  assert (Hin : id ∈ acceptedReports (orb s') /\ sid ∈ acceptedSessions (orb s')).
  { destruct Hrec as [_|k l1 l2 _ _ _ _ _ _ _]; cbn; set_solver. }
  destruct Hok as [_ Hshape _ (message & Hm & Hsig) Hfresh Hpl Hr Hpk _ _ _ Hcom Hacc Hses Hfs].
  apply outcome_bind_ok in Hm as (m & Hm & Heq). injection Heq as -> Hid.
  destruct (validateReportCommittees_ok _ _ _ Hcom) as (Hrep & Ha & signers & threshold & Hst & H2' & _ & Hle).
  assert (Hne : ReporterNodeKey report <> AccusedNodeKey report).
  { unfold validateReportEnvelopeShape, reject_any in Hshape. rewrite reject_if_ok in Hshape. cbn [existsb Datatypes.id] in Hshape.
    rewrite !orb_false_iff in Hshape. destruct Hshape as (_ & _ & _ & _ & _ & Hne & _). unfold same in Hne.
    by rewrite bool_decide_eq_false in Hne. }
  exists r, message, payload, sid. split; [done|]. split; [done|]. split; [done|]. split; [done|]. split; [done|].
  split; [done|]. split; [done|]. split; [done|]. split; [done|]. split; [by exists signers, threshold|]. by split_and!; try apply Hin.
Qed.
End reports.
