(* ===== verification/OrbisDemerits.v ===== *)
(** Demerits of nodes: their encoding in the store, how reports add to them, and the
    replacement of a node that has too many. *)
From Stdlib Require Import Ascii ZArith Lia.
From stdpp Require Import base numbers list gmap strings sorting.
From S2P Require Import Prelude Sdk Sha256 Utils CoreKeeper Json GoText Canonical Bearer AcpTypes AcpState AcpKeeper AcpBearer AcpMsgs AcpServer AcpReach AcpClient OrbisTypes OrbisIds OrbisRing OrbisSign OrbisReport OrbisKeeper OrbisServer OrbisValid OrbisStep OrbisInv OrbisSafety OrbisReports.

(** * Keys and values *)

Lemma decode_demerit_key ringID nodeKey : len ringID < 2 ^ 32 ->
  decodeNodeDemeritStoreKey (nodeDemeritStoreKey ringID nodeKey) = Some (ringID, nodeKey).
Proof.
  intros Hl. unfold decodeNodeDemeritStoreKey, nodeDemeritStoreKey.
  rewrite (proj2 (Nat.ltb_ge _ _)) by (rewrite length_app, be_bytes_length; lia).
  rewrite take_app_length' by by rewrite be_bytes_length. rewrite drop_app_length' by by rewrite be_bytes_length.
  rewrite be_uint64_be_bytes by (unfold len in *; simpl; lia). rewrite (proj2 (Z.ltb_ge _ _)).
  2:{ unfold len. rewrite !length_app, be_bytes_length. lia. }
  unfold len. rewrite Nat2Z.id, take_app_length, drop_app_length. done.
Qed.

Lemma demerit_key_inj ringID nodeKey ringID' nodeKey' : len ringID < 2 ^ 32 -> len ringID' < 2 ^ 32 ->
  nodeDemeritStoreKey ringID nodeKey = nodeDemeritStoreKey ringID' nodeKey' -> ringID = ringID' /\ nodeKey = nodeKey'.
Proof.
  intros Hl Hl' Heq. pose proof (decode_demerit_key ringID nodeKey Hl) as Hd. rewrite Heq, decode_demerit_key in Hd by done.
  by injection Hd as -> ->.
Qed.

Lemma decode_demerit_state st : is_u64 (points st) -> is_u64 (windowStartedAt st) -> decodeDemeritState (encodeDemeritState st) = Some st.
Proof.
  unfold is_u64. intros Hp Hw. unfold decodeDemeritState, encodeDemeritState. rewrite decide_True by by rewrite length_app, !be_bytes_length.
  rewrite take_app_length' by by rewrite be_bytes_length. rewrite drop_app_length' by by rewrite be_bytes_length.
  rewrite !be_uint64_be_bytes by (simpl; lia). by destruct st.
Qed.

Lemma be_uint64_bound bz : 0 <= be_uint64 bz < 256 ^ len bz.
Proof.
  unfold len. induction bz as [|x bz IH] using rev_ind; [done|]. rewrite be_uint64_app, length_app.
  pose proof (Z_of_byte_range x). replace (be_uint64 [x]) with (Z_of_byte x) by (unfold be_uint64; simpl; lia).
  rewrite Nat2Z.inj_add, Z.pow_add_r by lia. simpl. lia.
Qed.

Lemma decoded_u64 bz st : decodeDemeritState bz = Some st -> is_u64 (points st) /\ is_u64 (windowStartedAt st).
Proof.
  unfold decodeDemeritState. case_decide as Hl; [|done]. intros [= <-]. unfold is_u64, nodeDemeritStateSize in *. cbn [points windowStartedAt].
  pose proof (be_uint64_bound (take 8 bz)) as Ht. pose proof (be_uint64_bound (drop 8 bz)) as Hd. unfold len in *.
  rewrite length_take, Hl in Ht. rewrite length_drop, Hl in Hd. simpl in Ht, Hd. lia.
Qed.

Section demerits.
Context `{ProtoTypes, AcpCodec, Raccoon, Merkle, GoSort, AddressCodec, DIDKeys, Jose, PayloadJson}.
Context `{DIDDecode, Blst, JubjubWasm, NodeAddress, CoinsOps}.
Context {E : Type} `{ACPEngine E}.
Context {S : Type} `{!Lens S (AcpStore E)} `{!Lens S CoreStore} `{AcpAccounts S, CapabilityKeeper S} `{!Lens S OrbisStore}.
Context `{OrbisBank S} `{!ClientFrame S E OrbisStore} `{!BankFrame S}.
Implicit Types (ctx : OrbisCtx) (s : S) (t : OrbisStore) (r : Ring) (report : ReportEnvelope).

(** * What a report adds *)

Definition reset_interval r : Z := ResetIntervalSeconds (rep_DemeritConfig (rg_Reporting r)).

(** The points that count at a time. *)
Definition current_points (now reset : Z) (state : option nodeDemeritState) : Z :=
  match effectiveState now reset state with Some st => points st | None => 0 end.

Lemma demerits_query_run ctx ringID nodeKey r now s : rings (orb s) !! ringID = Some r -> ringID <> [] -> nodeKey <> [] ->
  blockUnixTime (ErrMsg "internal") (block_time ctx) = Ok now ->
  NodeDemerits_query ctx ringID nodeKey s = (Ok (current_points now (reset_interval r) (demerits (orb s) ringID nodeKey)), s).
Proof.
  intros Hr Hid Hk Hnow. unfold NodeDemerits_query, GetRing, GetEffectiveNodeDemerits, getNodeDemeritState.
  rewrite bind_throw_if by by rewrite !bool_decide_eq_false_2. by rewrite bind_get, (bind_option _ _ _ _ _ Hr), (bind_outcome _ _ _ _ Hnow).
Qed.

(** The demerits of the accused after a report. A window that has just been opened, or
    has not passed, is still open. *)
Lemma next_demerits_points t ringID nodeKey amount now reset : 0 < reset ->
  current_points now reset (Some (next_demerits t ringID nodeKey amount now reset)) =
  uint64 (current_points now reset (demerits t ringID nodeKey) + amount).
Proof.
  intros Hreset. unfold current_points, next_demerits. destruct (effectiveState now reset (demerits t ringID nodeKey)) as [st|] eqn:He.
  - assert (Hw : nodeDemeritWindowExpired (windowStartedAt st) now reset = false).
    { unfold effectiveState in He. destruct (demerits t ringID nodeKey) as [st0|]; [|done].
      destruct (nodeDemeritWindowExpired (windowStartedAt st0) now reset) eqn:Hx; [done|]. by injection He as <-. }
    simpl. by rewrite Hw.
  - simpl. unfold nodeDemeritWindowExpired.
    rewrite Z.sub_diag, (proj2 (Z.leb_gt reset 0)), andb_false_r by lia. done.
Qed.

(** The rings after a report have the same demerit configuration. *)
Lemma recorded_ring t report r now amount id sid t' ringID r' : rings t !! rp_RingId report = Some r -> rg_Id r = rp_RingId report ->
  report_recorded t report r now amount id sid t' -> rings t !! ringID = Some r' ->
  exists r2, rings t' !! ringID = Some r2 /\ reset_interval r2 = reset_interval r'.
Proof.
  intros Hr Hid [_|k l1 l2 _ _ _ _ _ _ _] Hr'; [by exists r'|]. cbn. rewrite Hid.
  destruct (decide (ringID = rp_RingId report)) as [->|Hne].
  - rewrite lookup_insert_eq. eexists. split; [done|]. rewrite Hr in Hr'. by injection Hr' as <-.
  - rewrite lookup_insert_ne by done. by exists r'.
Qed.

Lemma recorded_demerits t report r now amount id sid t' : report_recorded t report r now amount id sid t' ->
  nodeDemerits t' = <[nodeDemeritStoreKey (rp_RingId report) (AccusedNodeKey report) :=
    encodeDemeritState (next_demerits t (rp_RingId report) (AccusedNodeKey report) amount now (reset_interval r))]> (nodeDemerits t).
Proof. by intros [_|k l1 l2 _ _ _ _ _ _ _]. Qed.

Lemma demerits_query_inv ctx ringID nodeKey s d : NodeDemerits_query ctx ringID nodeKey s = (Ok d, s) ->
  exists r now, rings (orb s) !! ringID = Some r /\ ringID <> [] /\ nodeKey <> [] /\
    blockUnixTime (ErrMsg "internal") (block_time ctx) = Ok now /\
    d = current_points now (reset_interval r) (demerits (orb s) ringID nodeKey).
Proof.
  intros Hrun. pose proof Hrun as Hq. unfold NodeDemerits_query, GetRing in Hrun. rewrite bind_run in Hrun.
  destruct (bool_decide_reflect (ringID = [])), (bool_decide_reflect (nodeKey = [])); try discriminate Hrun.
  cbn [throw_if ret] in Hrun. change (throw_if (false || false) ?e) with (ret (S := S) tt) in Hrun. cbn [ret] in Hrun.
  rewrite bind_get, bind_run in Hrun. destruct (rings (orb s) !! ringID) as [r|] eqn:Hr; [|discriminate Hrun]. cbn [of_option ret] in Hrun.
  rewrite bind_run, of_outcome_run in Hrun. destruct (blockUnixTime _ _) as [now|e|] eqn:Hnow; [|discriminate Hrun..].
  rewrite (demerits_query_run ctx ringID nodeKey r now s Hr) in Hq by done. injection Hq as <-. by exists r, now.
Qed.

Lemma report_accused ctx t report payload r now id sid scheme sig :
  report_ok ctx t report payload r now id sid scheme sig -> AccusedNodeKey report <> [].
Proof.
  intros [_ Hshape _ _ _ _ _ _ _ _ _ _ _ _ _]. unfold validateReportEnvelopeShape, reject_any in Hshape.
  rewrite reject_if_ok in Hshape. cbn [existsb Datatypes.id] in Hshape. rewrite !orb_false_iff in Hshape.
  destruct Hshape as (_ & _ & _ & _ & _ & _ & _ & _ & _ & _ & _ & _ & _ & _ & Ha & _). unfold blank, same in Ha.
  by rewrite bool_decide_eq_false in Ha.
Qed.

Lemma internal_time ctx now e : blockUnixTime ErrInvalidReport (block_time ctx) = Ok now -> blockUnixTime e (block_time ctx) = Ok now.
Proof. unfold blockUnixTime. by destruct (_ <? _). Qed.

Lemma ring_id_short t id r : orbis_inv t -> rings t !! id = Some r -> rg_Id r = id /\ id <> [] /\ len id < 2 ^ 32.
Proof.
  intros Hinv Hr. destruct (ring_inv t id r Hinv Hr) as (<- & Hl & _). unfold len. rewrite Hl. split_and!; [done| |done].
  intros Hn. by rewrite Hn in Hl.
Qed.

Lemma next_demerits_u64 t ringID nodeKey amount now reset : is_u64 now ->
  is_u64 (points (next_demerits t ringID nodeKey amount now reset)) /\
  is_u64 (windowStartedAt (next_demerits t ringID nodeKey amount now reset)).
Proof.
  intros Hnow. unfold next_demerits. cbn [points windowStartedAt]. split; [apply uint64_is_u64|].
  unfold effectiveState, demerits. destruct (nodeDemerits t !! _) as [bz|]; [|done]. simpl.
  destruct (decodeDemeritState bz) as [st|] eqn:Hd; [|done]. destruct (nodeDemeritWindowExpired _ _ _); [done|].
  by apply (decoded_u64 bz st Hd).
Qed.

(** C25: a report that is accepted adds the configured demerits to the accused node, and to
    nobody else. What the query for the node returns grows by the amount for this type of
    report, as a number of 64 bits; a window that had passed had been counted as zero. The
    query for any other node, or for any other ring, returns what it did before. *)
Theorem demerits_counted ctx msg s id s' d :
  orbis_reach s -> unix (block_time ctx) < 2 ^ 63 -> (forall id r, rings (orb s) !! id = Some r -> 0 < reset_interval r) ->
  SubmitReport ctx msg s = (Ok id, s') ->
  let report := mrp_Report msg in
  NodeDemerits_query ctx (rp_RingId report) (AccusedNodeKey report) s = (Ok d, s) ->
  (exists r amount, rings (orb s) !! rp_RingId report = Some r /\
    DemeritAmountForReportType (Some r) (ReportType report) = Ok amount /\
    NodeDemerits_query ctx (rp_RingId report) (AccusedNodeKey report) s' = (Ok (uint64 (d + amount)), s')) /\
  (forall ringID nodeKey d', (ringID, nodeKey) <> (rp_RingId report, AccusedNodeKey report) ->
    NodeDemerits_query ctx ringID nodeKey s = (Ok d', s) -> NodeDemerits_query ctx ringID nodeKey s' = (Ok d', s')).
Proof.
  intros Hs Ht Hresets Hrun report Hq. pose proof (reach_inv s Hs) as Hinv.
  destruct (SubmitReport_ok ctx msg s id s' Hrun) as (_ & payload & r & now & sid & amount & Hok & Ham & Hrec). fold report in Hok, Ham, Hrec.
  pose proof (ro_ring _ _ _ _ _ _ _ _ _ _ Hok) as Hr. destruct (ring_id_short _ _ _ Hinv Hr) as (Hid & Hne & Hshort).
  destruct (report_times _ _ _ _ _ _ _ _ _ _ Hok) as (Hnow & Hpos & _).
  pose proof (internal_time ctx now (ErrMsg "internal") (ro_time _ _ _ _ _ _ _ _ _ _ Hok)) as Htime.
  pose proof (recorded_demerits _ _ _ _ _ _ _ _ Hrec) as Hdem. split.
  - exists r, amount. split_and!; [done|done|]. destruct (recorded_ring _ _ _ _ _ _ _ _ _ _ Hr Hid Hrec Hr) as (r2 & Hr2 & Hres).
    rewrite (demerits_query_run ctx _ _ r2 now s' Hr2 Hne) by (done || by eapply report_accused). rewrite Hres.
    assert (Hd' : demerits (orb s') (rp_RingId report) (AccusedNodeKey report) =
      Some (next_demerits (orb s) (rp_RingId report) (AccusedNodeKey report) amount now (reset_interval r))).
    { unfold demerits. rewrite Hdem, lookup_insert_eq. simpl. apply decode_demerit_state; apply next_demerits_u64; unfold is_u64; lia. }
    rewrite Hd', next_demerits_points by by eapply Hresets.
    rewrite (demerits_query_run ctx _ _ r now s Hr Hne) in Hq by (done || by eapply report_accused). by injection Hq as <-.
  - intros ringID nodeKey d' Hpair Hq'. destruct (demerits_query_inv _ _ _ _ _ Hq') as (r' & now' & Hr' & Hne' & Hk' & Hnow' & ->).
    destruct (ring_id_short _ _ _ Hinv Hr') as (_ & _ & Hshort').
    destruct (recorded_ring _ _ _ _ _ _ _ _ _ _ Hr Hid Hrec Hr') as (r2 & Hr2 & Hres).
    rewrite (demerits_query_run ctx _ _ r2 now' s' Hr2 Hne' Hk' Hnow'), Hres. unfold demerits. rewrite Hdem, lookup_insert_ne; [done|].
    intros Hkey. apply Hpair. by destruct (demerit_key_inj _ _ _ _ Hshort Hshort' Hkey) as [-> ->].
Qed.

(** * Replacement *)

(** No backup of the ring can take the place of a member. *)
Definition no_replacement t r : Prop := Forall (fun k => ~ eligible t r k) (BackupNodeKeys (rg_Reporting r)).

Lemma eligible_recorded t r k ringID nodeKey state id sid e :
  eligible (put_demerits ringID nodeKey state (add_pair id sid e t)) r k <-> eligible t r k.
Proof. done. Qed.

Lemma replaced_elem accused k peers x : NoDup peers -> accused ∈ peers -> k ∉ peers ->
  x ∈ replaced accused k peers <-> x = k \/ (x ∈ peers /\ x <> accused).
Proof.
  intros Hnd Hin Hk. unfold replaced. rewrite elem_of_app, list_elem_of_filter, list_elem_of_singleton. naive_solver.
Qed.

Lemma stored_points t report r now amount id sid s' : is_u64 now -> report_recorded t report r now amount id sid (orb s') ->
  GetNodeDemerits (S := S) (rp_RingId report) (AccusedNodeKey report) s' =
  (Ok (points (next_demerits t (rp_RingId report) (AccusedNodeKey report) amount now (reset_interval r))), s').
Proof.
  intros Hnow Hrec. unfold GetNodeDemerits, getNodeDemeritState. rewrite bind_get, (recorded_demerits _ _ _ _ _ _ _ _ Hrec), lookup_insert_eq.
  cbn [mbind option_bind]. by rewrite decode_demerit_state by (apply next_demerits_u64; done).
Qed.

Lemma first_eligible t r k l1 l2 k' l1' l2' : l1 ++ k :: l2 = l1' ++ k' :: l2' ->
  Forall (fun k => ~ eligible t r k) l1 -> eligible t r k -> Forall (fun k => ~ eligible t r k) l1' -> eligible t r k' ->
  l1 = l1' /\ k = k' /\ l2 = l2'.
Proof.
  revert l1'. induction l1 as [|a l1 IH]; intros [|a' l1'] Heq Hl Hk Hl' Hk'; simpl in Heq; injection Heq as He Heq.
  - done.
  - subst a'. by apply Forall_cons in Hl' as [? _].
  - subst a. by apply Forall_cons in Hl as [? _].
  - apply Forall_cons in Hl as [_ Hl], Hl' as [_ Hl']. destruct (IH l1' Heq Hl Hk Hl' Hk') as (-> & -> & ->). by subst.
Qed.

(** C24: when a report is accepted, the accused node is replaced exactly if it has reached
    the ring's threshold of demerits, is a member, no reshare is pending and one of the
    backups can take its place. A reshare is then pending towards the members without the
    accused and with the first such backup, of the same size and with the same threshold,
    and that backup is no longer one; the members stay in office until the ring has signed
    the change, which it can. Otherwise no ring changes. *)
Theorem accused_replaced ctx msg s id s' r points :
  orbis_reach s -> unix (block_time ctx) < 2 ^ 63 -> SubmitReport ctx msg s = (Ok id, s') ->
  let report := mrp_Report msg in let accused := AccusedNodeKey report in
  rings (orb s) !! rp_RingId report = Some r -> GetNodeDemerits (rp_RingId report) accused s' = (Ok points, s') ->
  (rep_KickThreshold (rg_Reporting r) <= points -> reshareInProgress r = false -> accused ∈ PeerNodeKeys r ->
   forall k l1 l2, BackupNodeKeys (rg_Reporting r) = l1 ++ k :: l2 -> Forall (fun k => ~ eligible (orb s) r k) l1 ->
     eligible (orb s) r k ->
     exists r', rings (orb s') = <[rp_RingId report := r']> (rings (orb s)) /\
       (forall x, x ∈ NewPeerNodeKeys r' <-> x = k \/ (x ∈ PeerNodeKeys r /\ x <> accused)) /\
       length (NewPeerNodeKeys r') = length (PeerNodeKeys r) /\ NewThreshold r' = None /\
       BackupNodeKeys (rg_Reporting r') = l1 ++ l2 /\ committee r' = committee r /\ same_identity r r' /\
       ringForReshareFinalization r' = Ok (reshared r')) /\
  (points < rep_KickThreshold (rg_Reporting r) \/ reshareInProgress r = true \/ (accused ∉ PeerNodeKeys r) \/ no_replacement (orb s) r ->
   rings (orb s') = rings (orb s)).
Proof.
  intros Hs Ht Hrun report accused Hr Hpoints. pose proof (reach_inv s Hs) as Hinv.
  destruct (SubmitReport_ok ctx msg s id s' Hrun) as (_ & payload & r0 & now & sid & amount & Hok & _ & Hrec). fold report in Hok, Hrec.
  assert (r0 = r) as -> by (pose proof (ro_ring _ _ _ _ _ _ _ _ _ _ Hok); congruence).
  destruct (report_times _ _ _ _ _ _ _ _ _ _ Hok) as (Hnow & Hpos & _).
  assert (Hu : is_u64 now) by (unfold is_u64; lia). unfold accused in Hpoints.
  rewrite (stored_points _ _ _ _ _ _ _ _ Hu Hrec) in Hpoints.
  assert (Hp : OrbisKeeper.points (next_demerits (orb s) (rp_RingId report) (AccusedNodeKey report) amount now (reset_interval r)) = points)
    by congruence.
  destruct (ring_inv _ _ r Hinv Hr) as (Hid & _ & Hwf & _).
  pose proof (proj1 (validateRing_ok r) (wf_valid r Hwf)) as (_ & _ & _ & _ & _ & _ & _ & Huq & _). apply unique_keys in Huq as [_ Hnd].
  unfold report_recorded in Hrec. fold (reset_interval r) in Hrec. rewrite Hp in Hrec. fold accused in Hrec.
  split.
  - intros Hkick Hpend Hin k l1 l2 Hb Hl1 Hk.
    destruct Hrec as [Hno|k' l1' l2' _ _ _ Hb' Hl1' Hk' Hv].
    { destruct Hno as [?|[?|[?|Hnone]]]; [lia|congruence|done|]. rewrite Hb, Forall_app, Forall_cons in Hnone. by destruct Hnone as (_ & Hn & _). }
    rewrite Hb in Hb'. destruct (first_eligible (orb s) r k l1 l2 k' l1' l2' Hb' Hl1 Hk Hl1' Hk') as (<- & <- & <-).
    set (r' := canonicalRing (auto_reshare accused k (l1 ++ l2) r)). exists r'.
    assert (Hwf' : ring_wf r') by (apply auto_reshare_wf; [done|apply (ro_final _ _ _ _ _ _ _ _ _ _ Hok)|done]).
    split; [cbn; by rewrite Hid|]. split.
    { intros x. cbn. rewrite !elem_of_canonicalStrings. apply replaced_elem; [done|done|apply Hk]. }
    split; [cbn; rewrite !canonicalStrings_length; by apply replaced_length|]. split; [done|]. split; [done|].
    split; [by apply committee_canonical|]. split; [done|]. apply reshare_completes; [done|]. unfold reshareInProgress. cbn.
    rewrite bool_decide_eq_false_2; [done|]. rewrite !canonicalStrings_nil. unfold replaced. by destruct (filter _ _).
  - intros Hno. destruct Hrec as [_|k l1 l2 Hkick Hpend Hin Hb _ Hk _]; [done|]. exfalso.
    destruct Hno as [?|[?|[?|Hnone]]]; [lia|congruence|done|]. unfold no_replacement in Hnone.
    rewrite Hb, Forall_app, Forall_cons in Hnone. by destruct Hnone as (_ & Hn & _).
Qed.
End demerits.
