(* ===== verification/OrbisLive.v ===== *)
(** What the orbis module lets its users bring about: members that agree make a ring
    final, a pending reshare can be finished, and the controller of a node can recover
    what the node's account holds. *)
From Stdlib Require Import Ascii ZArith Lia.
From stdpp Require Import base numbers list gmap strings sorting.
From S2P Require Import Prelude Sdk Sha256 Utils CoreKeeper Json GoText Canonical Bearer AcpTypes AcpState AcpKeeper AcpBearer AcpMsgs AcpServer AcpReach AcpClient OrbisTypes OrbisIds OrbisRing OrbisSign OrbisReport OrbisKeeper OrbisServer OrbisValid OrbisStep OrbisInv OrbisSafety OrbisReports.

(** Accounts, and the interchain accounts of the core module, live outside of the module's
    store. *)
Class AccountsFrame (S : Type) `{AcpAccounts S, !Lens S CoreStore, !Lens S OrbisStore} : Prop := {
  GetAccount_frame : forall addr (t : OrbisStore) (s : S), GetAccount addr (lens_set t s) = GetAccount addr s;
  core_frame : forall (t : OrbisStore) (s : S), (lens_get (lens_set t s) : CoreStore) = lens_get s;
}.

Section live.
Context `{ProtoTypes, AcpCodec, Raccoon, Merkle, GoSort, AddressCodec, DIDKeys, Jose, PayloadJson}.
Context `{DIDDecode, Blst, JubjubWasm, NodeAddress, CoinsOps}.
Context {E : Type} `{ACPEngine E}.
Context {S : Type} `{!Lens S (AcpStore E)} `{!Lens S CoreStore} `{AcpAccounts S, CapabilityKeeper S} `{!Lens S OrbisStore}.
Context `{OrbisBank S} `{!ClientFrame S E OrbisStore} `{!BankFrame S} `{!AccountsFrame S}.
Implicit Types (ctx : OrbisCtx) (s : S) (t : OrbisStore) (r : Ring).

(** * Members that agree *)

Lemma signs_frame s t creator key : signs s creator key -> signs (lens_set t s) creator key.
Proof.
  unfold signs, signerPublicKeyHex. rewrite !bind_run, !of_outcome_run. destruct (wrap_err _ _) as [addr|e|]; [|done|done].
  rewrite !bind_run. cbn [gets]. rewrite GetAccount_frame. destruct (GetAccount addr s) as [account|]; [|done].
  cbn [of_option]. rewrite !bind_run. cbn [ret]. destruct (acc_PubKey account); [|done]. rewrite !bind_run. cbn [of_option ret]. by intros [= <-].
Qed.

(** The keys that the members of a ring agree on. *)
Record keys_ok r (pk : bytes) (pet : option bytes) : Prop := mkKeysOk {
  ko_pk : rejectIdentityRingPublicKey pk = Ok tt;
  ko_pet : match pet with Some p => rejectIdentityRingPublicKey p | None => Ok tt end = Ok tt;
  ko_requires : is_Some pet <-> RequiresPet r = true;
}.

(** A confirmation up to the point where it is counted. *)
Lemma FinalizeRing_counts ctx msg r key s : rings (orb s) !! mfr_RingId msg = Some r -> RingPk r = [] ->
  keys_ok r (mfr_RingPk msg) (mfr_PetPk msg) -> signs s (mfr_Creator msg) key -> key ∈ PeerNodeKeys r ->
  key ∉ cf_NodeKey <$> Confirmations r ->
  Forall (fun c => cf_RingPk c = mfr_RingPk msg /\ cf_PetPk c = mfr_PetPk msg) (Confirmations r) ->
  FinalizeRing (S := S) ctx msg s =
  (let confirmations := Confirmations r ++ [mkRingConfirmation key (mfr_RingPk msg) (mfr_PetPk msg)] in
   if (length confirmations <? length (PeerNodeKeys r))%nat then
     SetRing (set_confirmations confirmations r) ;;; ret CONFIRMATION_RECORDED
   else
     _ <- GetActorDID ctx (mfr_Creator msg) ;;
     of_outcome (validateRing (set_confirmations [] (set_pk (mfr_RingPk msg) (mfr_PetPk msg) r))) ;;;
     SetRing (set_confirmations [] (set_pk (mfr_RingPk msg) (mfr_PetPk msg) r)) ;;;
     ret RING_FINALIZED) s.
Proof.
  intros Hr Hpk [Hk Hp Hreq] Hsig Hin Hnew Hag. unfold FinalizeRing, existingRing, GetRing.
  rewrite bind_run, bind_get, Hr. cbn [of_option ret]. rewrite bind_throw_if by by rewrite Hpk.
  rewrite (bind_outcome _ _ _ _ Hk). cbv zeta.
  rewrite bind_throw_if by (destruct (RequiresPet r), (mfr_PetPk msg); simpl; try done; by destruct (proj2 Hreq eq_refl)).
  rewrite bind_throw_if by (destruct (RequiresPet r), (mfr_PetPk msg); simpl; try done; by discriminate (proj1 Hreq (ex_intro _ _ eq_refl))).
  rewrite (bind_outcome _ _ _ _ Hp), bind_run. rewrite (Hsig : signerPublicKeyHex _ _ = _).
  rewrite bind_throw_if by by rewrite bool_decide_eq_true_2. rewrite bind_throw_if by by rewrite bool_decide_eq_false_2.
  assert (Hno : existsb (conflicting r msg) (Confirmations r) = false); [|by rewrite Hno].
  apply not_true_iff_false. intros (c & Hc%list_elem_of_In & Hf)%existsb_exists. rewrite Forall_forall in Hag. destruct (Hag c Hc) as [Hc1 Hc2].
  unfold conflicting in Hf. rewrite Hc1, Hc2, !bool_decide_eq_true_2 in Hf by done. simpl in Hf. by rewrite andb_false_r in Hf.
Qed.

Lemma SetRing_run r s : rg_Id r <> [] -> SetRing (S := S) r s = (Ok tt, lens_set (put_ring r (orb s)) s).
Proof. intros Hid. unfold SetRing, orb_set. by rewrite bool_decide_eq_false_2. Qed.

(** The members send the same keys one after the other. *)
Definition confirm_all ctx (id pk : bytes) (pet : option bytes) (creators : list bytes) : M S unit :=
  forM_ (fun creator => FinalizeRing ctx (mkMsgFinalizeRing creator id pk pet) ;;; ret tt) creators.

(** The sender has a DID: one that came with the transaction, or that of its account. *)
Definition has_did ctx s (creator : bytes) : Prop := exists did s1, GetActorDID ctx creator s = (Ok did, s1).

Lemma has_did_frame ctx s t creator : has_did ctx s creator -> has_did ctx (lens_set t s) creator.
Proof.
  unfold has_did, GetActorDID. destruct (decide _); [|by eexists _, _]. unfold IssueDIDFromAccountAddr.
  rewrite !bind_run, !of_outcome_run. destruct (wrap_err _ _) as [addr|err|]; [|naive_solver..].
  rewrite !bind_run. cbn [gets]. rewrite GetAccount_frame. destruct (GetAccount addr s) as [account|]; [|naive_solver].
  cbn [of_option]. rewrite !bind_run. cbn [ret]. unfold GetICAConnection, core_get, gets. rewrite !bind_run, core_frame.
  destruct (ica_connections (lens_get s) !! creator); [by eexists _, _|]. rewrite !of_outcome_run.
  intros (did & s1 & [= Hd _]). rewrite Hd. by eexists _, _.
Qed.

(** A pending ring, the members that have confirmed, and those that are still to come. *)
Record to_confirm s (id : bytes) r (pk : bytes) (pet : option bytes) (creators keys : list bytes) : Prop := mkToConfirm {
  tc_ring : rings (orb s) !! id = Some r;
  tc_id : rg_Id r = id;
  tc_wf : ring_wf r;
  tc_pending : RingPk r = [];
  tc_keys : keys_ok r pk pet;
  tc_signs : Forall2 (signs s) creators keys;
  tc_members : (cf_NodeKey <$> Confirmations r) ++ keys ≡ₚ PeerNodeKeys r;
  tc_agree : Forall (fun c => cf_RingPk c = pk /\ cf_PetPk c = pet) (Confirmations r);
}.

Lemma member_next r key keys : ring_wf r -> (cf_NodeKey <$> Confirmations r) ++ key :: keys ≡ₚ PeerNodeKeys r ->
  key ∈ PeerNodeKeys r /\ (key ∉ cf_NodeKey <$> Confirmations r) /\
  (length (Confirmations r) + Datatypes.S (length keys) = length (PeerNodeKeys r))%nat.
Proof.
  intros Hr Hm. pose proof (proj1 (validateRing_ok r) (wf_valid r Hr)) as (_ & _ & _ & _ & _ & _ & _ & [_ Hnd]%unique_keys & _).
  split_and!.
  - rewrite <- Hm. apply elem_of_app. by right; left.
  - rewrite <- Hm, <- Permutation_middle in Hnd. apply NoDup_cons in Hnd as [Hn _]. rewrite elem_of_app in Hn. tauto.
  - rewrite <- (Permutation_length Hm), length_app, length_fmap. done.
Qed.

Lemma confirm_one ctx s id r pk pet creator creators key keys : pk <> [] ->
  to_confirm s id r pk pet (creator :: creators) (key :: keys) -> creators <> [] ->
  exists t r1, FinalizeRing (S := S) ctx (mkMsgFinalizeRing creator id pk pet) s = (Ok CONFIRMATION_RECORDED, lens_set t s) /\
    to_confirm (lens_set t s) id r1 pk pet creators keys /\ PeerNodeKeys r1 = PeerNodeKeys r.
Proof.
  intros Hpk0 [Hr Hid Hwf Hpk Hko Hsig Hmem Hag] Hmore. apply Forall2_cons in Hsig as [Hs1 Hsig].
  destruct (member_next r key keys Hwf Hmem) as (Hin & Hnew & Hlen). pose proof (Forall2_length _ _ _ Hsig) as Hlk.
  assert (Hlt : (length (Confirmations r ++ [mkRingConfirmation key pk pet]) < length (PeerNodeKeys r))%nat).
  { rewrite length_app. simpl. destruct creators; [done|]. simpl in Hlk. lia. }
  set (c := mkRingConfirmation key pk pet) in *. set (r1 := canonicalRing (set_confirmations (Confirmations r ++ [c]) r)).
  assert (Hwf1 : ring_wf r1) by (apply confirm_update; try done; apply Hko).
  assert (Hid0 : rg_Id r <> []) by apply (proj1 (validateRing_ok r)), Hwf.
  assert (Hp : PeerNodeKeys r1 = PeerNodeKeys r) by exact (f_equal PeerNodeKeys (wf_sorted r Hwf)).
  exists (put_ring (set_confirmations (Confirmations r ++ [c]) r) (orb s)), r1.
  split; [|split; [|exact Hp]].
  - rewrite (FinalizeRing_counts ctx (mkMsgFinalizeRing creator id pk pet) r key s Hr Hpk Hko Hs1 Hin Hnew Hag). cbv zeta. cbn [mfr_RingPk mfr_PetPk]. fold c.
    rewrite (proj2 (Nat.ltb_lt _ _) Hlt), bind_run. by rewrite SetRing_run.
  - split; try done.
    + rewrite own_set. cbn. rewrite Hid. apply lookup_insert_eq.
    + destruct Hko as [? ? ?]. by split.
    + eapply Forall2_impl; [exact Hsig|]. intros x y Hxy. by apply signs_frame.
    + rewrite Hp, <- Hmem. cbn. rewrite fmap_app, <- app_assoc. done.
    + cbn. apply Forall_app_2; [done|]. by apply Forall_singleton.
Qed.

Lemma confirm_last ctx s id r pk pet creator key : has_did ctx s creator -> to_confirm s id r pk pet [creator] [key] ->
  exists s1, FinalizeRing (S := S) ctx (mkMsgFinalizeRing creator id pk pet) s = (Ok RING_FINALIZED, s1) /\
    rings (orb s1) !! id = Some (canonicalRing (set_confirmations [] (set_pk pk pet r))).
Proof.
  intros Hdid [Hr Hid Hwf Hpk Hko Hsig Hmem Hag]. apply Forall2_cons in Hsig as [Hs1 _].
  destruct (member_next r key [] Hwf Hmem) as (Hin & Hnew & Hlen).
  assert (Hid0 : rg_Id r <> []) by apply (proj1 (validateRing_ok r)), Hwf.
  rewrite (FinalizeRing_counts ctx (mkMsgFinalizeRing creator id pk pet) r key s Hr Hpk Hko Hs1 Hin Hnew Hag). cbv zeta. cbn [mfr_RingPk mfr_PetPk mfr_Creator].
  rewrite (proj2 (Nat.ltb_ge _ _)) by (rewrite length_app; simpl in *; lia).
  destruct Hdid as (did & s1 & Hd). rewrite bind_run, Hd, (bind_outcome _ _ _ _ (wf_valid r Hwf)), bind_run, SetRing_run by done.
  eexists. split; [done|]. rewrite own_set. cbn. rewrite Hid. apply lookup_insert_eq.
Qed.

Lemma confirm_all_run ctx id pk pet creators : pk <> [] -> forall s r keys,
  to_confirm s id r pk pet creators keys -> (exists c, last creators = Some c /\ has_did ctx s c) ->
  exists s' r', confirm_all ctx id pk pet creators s = (Ok tt, s') /\ rings (orb s') !! id = Some r' /\
    RingPk r' = pk /\ rg_PetPk r' = pet /\ PeerNodeKeys r' = PeerNodeKeys r.
Proof.
  intros Hpk. induction creators as [|creator creators IH]; intros s r keys Htc (c & Hlast & Hdid); [done|].
  destruct keys as [|key keys]; [by pose proof (tc_signs _ _ _ _ _ _ _ Htc) as Hs%Forall2_length|].
  unfold confirm_all. cbn [forM_]. rewrite bind_run, bind_run. destruct creators as [|creator' creators].
  - injection Hlast as <-. assert (keys = []) as ->.
    { pose proof (Forall2_length _ _ _ (tc_signs _ _ _ _ _ _ _ Htc)) as Hl. destruct keys; [done|by simpl in Hl]. }
    destruct (confirm_last ctx s id r pk pet creator key Hdid Htc) as (s1 & Hrun & Hr1). rewrite Hrun. cbn [ret forM_].
    exists s1. eexists. split_and!; [done|exact Hr1|done|done|]. cbn. exact (f_equal PeerNodeKeys (wf_sorted r (tc_wf _ _ _ _ _ _ _ Htc))).
  - destruct (confirm_one ctx s id r pk pet creator (creator' :: creators) key keys Hpk Htc) as (t & r1 & Hrun & Htc1 & Hp); [done|].
    rewrite Hrun. cbn [ret]. destruct (IH (lens_set t s) r1 keys Htc1) as (s' & r' & Hrun' & Hr' & ? & ? & Hp').
    { exists c. split; [done|by apply has_did_frame]. }
    unfold confirm_all in Hrun'. rewrite Hrun'. exists s', r'. split_and!; try done. congruence.
Qed.

(** C26: members that agree make their ring final. In a reachable state with a ring that
    nobody has confirmed yet, if every member sends the same acceptable keys, in any order,
    and the last sender has a DID, which only the last message asks for, all of these
    messages succeed, and after the last one the ring is final with these keys and with
    the committee that it had. *)
Theorem members_finalize ctx s id r pk pet creators keys c :
  orbis_reach s -> rings (orb s) !! id = Some r -> RingPk r = [] -> Confirmations r = [] -> pk <> [] -> keys_ok r pk pet ->
  Forall2 (signs s) creators keys -> keys ≡ₚ PeerNodeKeys r -> last creators = Some c -> has_did ctx s c ->
  exists s' r', confirm_all ctx id pk pet creators s = (Ok tt, s') /\ final_ring (orb s') id r' /\
    RingPk r' = pk /\ rg_PetPk r' = pet /\ PeerNodeKeys r' = PeerNodeKeys r.
Proof.
  intros Hs Hr Hpk Hc Hne Hko Hsig Hkeys Hlast Hdid. destruct (ring_inv _ id r (reach_inv s Hs) Hr) as (Hid & _ & Hwf & _).
  destruct (confirm_all_run ctx id pk pet creators Hne s r keys) as (s' & r' & Hrun & Hr' & Hpk' & Hpet' & Hp').
  - split; try done; by rewrite Hc.
  - by exists c.
  - exists s', r'. split_and!; try done. split; [done|]. congruence.
Qed.

(** C27: a reshare that is pending can be finished. In a reachable state, a message that
    finishes the reshare of a ring succeeds exactly if its sender has a DID and it carries a
    signature of the ring's key on the document for the pending reshare: the new
    committee and threshold never fail the validation. When it succeeds, they are in office. *)
Theorem reshare_can_finish ctx s id r msg :
  orbis_reach s -> rings (orb s) !! id = Some r -> reshareInProgress r = true -> mfs_RingId msg = id ->
  exists res s', FinalizeRingReshareByThresholdSignature ctx msg s = (res, s') /\
  (res = Ok tt <-> has_did ctx s (mfs_Creator msg) /\
    verifyThresholdSignature (mfs_SignatureScheme msg) (RingPk r)
      (ringReshareFinalizeSignBytes (ChainID ctx) r (reshared r)) (mfs_Signature msg) = Ok tt) /\
  (res = Ok tt -> exists r', rings (orb s') !! id = Some r' /\ PeerNodeKeys r' = target_peers r /\
    Threshold r' = target_threshold r /\ reshareInProgress r' = false /\ same_identity r r').
Proof.
  intros Hs Hr Hp <-. destruct (ring_inv _ _ r (reach_inv s Hs) Hr) as (Hid & _ & Hwf & _).
  assert (Hid0 : rg_Id r <> []) by apply (proj1 (validateRing_ok r)), Hwf.
  unfold FinalizeRingReshareByThresholdSignature, existingRing, GetRing. rewrite bind_run, bind_get, Hr. cbn [of_option ret].
  rewrite bind_run. unfold has_did. destruct (GetActorDID ctx (mfs_Creator msg) s) as [[did|e|] s1] eqn:Hdid;
    [|eexists _, _; split; [done|]; naive_solver..].
  assert (Hs1 : orb s1 = orb s) by (eapply framed_ok; [|exact Hdid]; eauto with preserves).
  rewrite (bind_outcome _ _ _ _ (reshare_completes r Hwf Hp)). cbv zeta. rewrite bind_run, of_outcome_run.
  unfold verifyThresholdSignatureForRingUpdate.
  destruct (verifyThresholdSignature _ _ _ _) as [[]|e|] eqn:Hsig; [|eexists _, _; split; [done|]; naive_solver..].
  rewrite SetRing_run by done. eexists _, _. split; [done|]. split; [split; [by eauto|done]|]. intros _. eexists.
  rewrite own_set, Hs1. cbn [put_ring rings set_rings]. change (rg_Id (set_nonce _ (reshared r))) with (rg_Id r).
  rewrite Hid. split; [apply lookup_insert_eq|]. split_and!; try done. exact (target_peers_sorted r Hwf).
Qed.

(** * Recovering funds *)

(** What a transfer does to the coins that can be spent. *)
Class BankLaws : Prop := {
  SendCoins_moves : forall from to amount (s s' : S), from <> to -> SendCoins from to amount s = (Ok tt, s') -> forall d,
    coins_amount d (SpendableCoins from s') = coins_amount d (SpendableCoins from s) - coins_amount d amount /\
    coins_amount d (SpendableCoins to s') = coins_amount d (SpendableCoins to s) + coins_amount d amount;
  SendCoins_others : forall from to amount (s s' : S) a, a <> from -> a <> to -> SendCoins from to amount s = (Ok tt, s') ->
    SpendableCoins a s' = SpendableCoins a s;
}.

(** Draining a node's account moves all of its spendable coins, which are not nothing,
    to the account of the sender, and touches no other account; it succeeds only for the
    key that controls the registered node. *)
Theorem drain_moves_all `{!BankLaws} msg s coins s' from to :
  DrainNodeKey msg s = (Ok coins, s') -> nodeKeyAccAddress (mdn_NodeKey msg) = Ok from ->
  StringToBytes (mdn_Creator msg) = inl to -> from <> to ->
  (exists info, nodeInfos (orb s) !! mdn_NodeKey msg = Some info /\ signs s (mdn_Creator msg) (ControllerKey info)) /\
  IsZero coins = false /\ orb s' = orb s /\
  (forall d, coins_amount d (SpendableCoins from s') = 0 /\
     coins_amount d (SpendableCoins to s') = coins_amount d (SpendableCoins to s) + coins_amount d (SpendableCoins from s)) /\
  (forall a, a <> from -> a <> to -> SpendableCoins a s' = SpendableCoins a s).
Proof.
  intros Hrun Hfrom Hto Hne. unfold DrainNodeKey in Hrun.
  rewrite bind_run in Hrun. destruct (authorizeNodeInfoUpdate _ _ s) as [[info|e|] s1] eqn:Ea; [|done|done].
  apply authorized_ok in Ea as (-> & Hi & Hsig). rewrite (bind_outcome _ _ _ _ Hfrom) in Hrun.
  rewrite (bind_outcome _ to) in Hrun by by rewrite Hto. rewrite bind_run in Hrun. cbn [gets] in Hrun. rewrite bind_run in Hrun.
  destruct (IsZero (SpendableCoins from s)) eqn:Hz; [done|]. cbn [throw_if ret] in Hrun. rewrite bind_run in Hrun.
  destruct (SendCoins from to (SpendableCoins from s) s) as [[[]|e|] s2] eqn:Esend; [|done|done]. cbn in Hrun. injection Hrun as <- <-.
  split_and!; [by exists info|done| | |].
  - eapply framed_ok; [|exact Esend]. eauto with preserves.
  - intros d. destruct (SendCoins_moves _ _ _ _ _ Hne Esend d) as [Hf Ht]. lia.
  - intros a Ha Ha'. exact (SendCoins_others _ _ _ _ _ a Ha Ha' Esend).
Qed.
End live.
