(* ===== verification/OrbisGenesis.v ===== *)
(** Export and import of the orbis module's state (module/genesis.go): what a chain
    exports rebuilds its store. *)
From Stdlib Require Import Ascii ZArith Lia.
From stdpp Require Import base numbers list gmap strings sorting.
From S2P Require Import Prelude Sdk Sha256 Utils CoreKeeper Json GoText Canonical Bearer AcpTypes AcpState AcpKeeper AcpBearer AcpMsgs AcpServer AcpReach AcpClient OrbisTypes OrbisIds OrbisRing OrbisSign OrbisReport OrbisKeeper OrbisServer OrbisValid OrbisStep OrbisInv OrbisSafety OrbisReports OrbisDemerits OrbisLive.

(** * Encodings, the other way round *)

Lemma be_bytes_be_uint64 bz : be_bytes (length bz) (be_uint64 bz) = bz.
Proof.
  induction bz as [|x bz IH]; [done|]. cbn [length be_bytes]. change (x :: bz) with ([x] ++ bz) at 1 2. rewrite be_uint64_app.
  replace (be_uint64 [x]) with (Z_of_byte x) by (unfold be_uint64; simpl; lia).
  pose proof (be_uint64_bound bz) as Hb. unfold len in Hb.
  rewrite Z.div_add_l, (Z.div_small (be_uint64 bz)), Z.add_0_r, byte_of_Z_of_byte by lia.
  rewrite Z.add_comm, Z_mod_plus_full, Z.mod_small by lia. by rewrite IH.
Qed.

Lemma encode_decoded bz st : decodeDemeritState bz = Some st -> encodeDemeritState st = bz.
Proof.
  unfold decodeDemeritState. case_decide as Hl; [|done]. intros [= <-]. unfold encodeDemeritState, nodeDemeritStateSize in *. cbn [points windowStartedAt].
  assert (Ht : length (take 8 bz) = 8%nat) by (rewrite length_take; lia).
  assert (Hd : length (drop 8 bz) = 8%nat) by (rewrite length_drop; lia).
  pose proof (be_bytes_be_uint64 (take 8 bz)) as E1. pose proof (be_bytes_be_uint64 (drop 8 bz)) as E2.
  rewrite Ht in E1. rewrite Hd in E2. by rewrite E1, E2, take_drop.
Qed.

Section genesis.
Context `{ProtoTypes, AcpCodec, Raccoon, Merkle, GoSort, AddressCodec, DIDKeys, Jose, PayloadJson}.
Context `{DIDDecode, Blst, JubjubWasm, NodeAddress, CoinsOps}.
Context {E : Type} `{ACPEngine E}.
Context {S : Type} `{!Lens S (AcpStore E)} `{!Lens S CoreStore} `{AcpAccounts S, CapabilityKeeper S} `{!Lens S OrbisStore}.
Context `{OrbisBank S} `{!ClientFrame S E OrbisStore} `{!BankFrame S}.
Implicit Types (s : S) (t : OrbisStore) (r : Ring).

(** * Loops that write *)

(** Each element writes to the store, and does nothing else. *)
Lemma forM_writes {A} (f : A -> M S unit) (g : A -> OrbisStore -> OrbisStore) l : forall s,
  (forall x s, x ∈ l -> f x s = (Ok tt, lens_set (g x (orb s)) s)) ->
  exists s', forM_ f l s = (Ok tt, s') /\ orb s' = foldl (fun t x => g x t) (orb s) l.
Proof.
  induction l as [|x l IH]; intros s Hf; cbn [forM_ foldl]; [by exists s|].
  rewrite bind_run, (Hf x s) by left. destruct (IH (lens_set (g x (orb s)) s)) as (s' & Hrun & Hs').
  - intros y s1 Hy. apply Hf. by right.
  - exists s'. split; [done|]. by rewrite Hs', own_set.
Qed.

Lemma fold_rings l : forall t, foldl (fun t r => put_ring r t) t l =
  set_rings (foldl (fun m r => <[rg_Id r := canonicalRing r]> m) (rings t) l) t.
Proof. induction l as [|r l IH]; intros t; [by destruct t|]. cbn [foldl]. by rewrite IH. Qed.

Lemma fold_documents l : forall t, foldl (fun t d => set_documents (<[doc_Id d := d]> (documents t)) t) t l =
  set_documents (foldl (fun m d => <[doc_Id d := d]> m) (documents t) l) t.
Proof. induction l as [|d l IH]; intros t; [by destruct t|]. cbn [foldl]. by rewrite IH. Qed.

Lemma fold_keyDerivations l : forall t, foldl (fun t k => set_keyDerivations (<[kd_Id k := k]> (keyDerivations t)) t) t l =
  set_keyDerivations (foldl (fun m k => <[kd_Id k := k]> m) (keyDerivations t) l) t.
Proof. induction l as [|d l IH]; intros t; [by destruct t|]. cbn [foldl]. by rewrite IH. Qed.

Lemma fold_nodes items : forall t, foldl (fun t e => match nie_NodeInfo e with Some i => put_node (nie_NodeKey e) i t | None => t end) t
    ((fun kv => mkNodeInfoEntry kv.1 (Some kv.2)) <$> items) = set_nodeInfos (insert_all (nodeInfos t) items) t.
Proof. induction items as [|[k i] l IH]; intros t; [by destruct t|]. cbn [fmap list_fmap foldl]. by rewrite IH. Qed.

Lemma fold_pairs items : forall t, foldl (fun t e => add_pair (arp_ReportId e) (arp_SessionId e) (arp_ExpiresAt e) t) t items =
  set_accepted (list_to_set (reverse (arp_ReportId <$> items)) ∪ acceptedReports t)
    (list_to_set (reverse (arp_SessionId <$> items)) ∪ acceptedSessions t)
    (insert_all (expiryIndex t) ((fun e => (acceptedExpiryKey (arp_ExpiresAt e) (arp_ReportId e), arp_SessionId e)) <$> items)) t.
Proof.
  induction items as [|e l IH]; intros t.
  { destruct t; cbn. unfold set_accepted. cbn. f_equal; set_solver. }
  cbn [foldl]. rewrite IH. rewrite !fmap_cons, !reverse_cons, !list_to_set_app_L. cbn. unfold set_accepted. cbn. f_equal; set_solver.
Qed.

(** * What is exported, part by part *)

Lemma rings_rebuilt t : orbis_inv t ->
  foldl (fun m r => <[rg_Id r := canonicalRing r]> m) ∅ (store_items (rings t)).*2 = rings t.
Proof.
  intros Hinv. rewrite <- (rebuild_store rg_Id (rings t)) at 2 by (intros id r Hr; by destruct (ring_inv t id r Hinv Hr)).
  assert (Hall : Forall (fun r => canonicalRing r = r) (store_items (rings t)).*2).
  { apply Forall_forall. intros r ([id r'] & -> & Hin)%list_elem_of_fmap. apply elem_of_store_items in Hin.
    destruct (ring_inv t id r' Hinv Hin) as (_ & _ & Hwf & _). by apply wf_sorted. }
  revert Hall. generalize (∅ : gmap bytes Ring). induction ((store_items (rings t)).*2) as [|r l IH]; intros m Hall; [done|].
  apply Forall_cons in Hall as [Hr Hall]. cbn [foldl]. by rewrite Hr, IH.
Qed.

Lemma demerits_exported items : Forall (fun kv : bytes * bytes => exists ringID nodeKey,
    kv.1 = nodeDemeritStoreKey ringID nodeKey /\ len ringID < 2 ^ 32 /\ length kv.2 = nodeDemeritStateSize) items ->
  exists l, demeritEntries items = Ok l /\ forall t,
    foldl (fun t e => put_demerits (nde_RingId e) (nde_NodeKey e) (mkDemeritState (nde_Points e) (nde_WindowStartedAt e)) t) t l =
    set_nodeDemerits (insert_all (nodeDemerits t) items) t.
Proof.
  induction 1 as [|[k bz] items (ringID & nodeKey & Hk & Hl & Hbz) _ (l & Hl' & Hfold)]; [exists []; split; [done|]; by intros []|].
  cbn [fst snd] in *. subst k. cbn [demeritEntries]. rewrite decode_demerit_key by done.
  destruct (decodeDemeritState bz) as [st|] eqn:Hd; [|unfold decodeDemeritState in Hd; by rewrite decide_True in Hd].
  rewrite Hl'. eexists. split; [done|]. intros t. cbn [foldl nde_RingId nde_NodeKey nde_Points nde_WindowStartedAt].
  rewrite Hfold. replace (mkDemeritState (points st) (windowStartedAt st)) with st by by destruct st.
  unfold put_demerits. by rewrite (encode_decoded bz st Hd).
Qed.

Definition pair_entry (kv : bytes * bytes) : AcceptedReportPairEntry :=
  mkAcceptedReportPairEntry (drop 8 kv.1) kv.2 (be_uint64 (take 8 kv.1)).

Lemma index_entries t : accepted_ok t -> Forall (fun kv : bytes * bytes => (8 <= length kv.1)%nat /\
    acceptedExpiryKey (arp_ExpiresAt (pair_entry kv)) (arp_ReportId (pair_entry kv)) = kv.1 /\
    arp_ReportId (pair_entry kv) <> [] /\ arp_SessionId (pair_entry kv) <> []) (store_items (expiryIndex t)).
Proof.
  intros Hok. apply Forall_forall. intros [k sid] Hin. apply elem_of_store_items in Hin.
  destruct (acc_entry t Hok k sid Hin) as (e & id & -> & He & Hid & Hsid). destruct (acc_blank t Hok) as [Hb Hb'].
  cbn [pair_entry arp_ExpiresAt arp_ReportId arp_SessionId fst snd]. rewrite drop_expiry_key, take_expiry_key by done.
  split_and!; [|done|by intros ->|by intros ->]. unfold acceptedExpiryKey. rewrite length_app, be_bytes_length. lia.
Qed.

Lemma filter_all {A} (P : A -> Prop) `{!forall x, Decision (P x)} l : Forall P l -> filter P l = l.
Proof. induction 1 as [|x l Hx Hl IH]; [done|]. by rewrite filter_cons_True, IH. Qed.

Lemma accepted_rebuilt t : accepted_ok t ->
  let items := pair_entry <$> store_items (expiryIndex t) in
  list_to_set (reverse (arp_ReportId <$> items)) ∪ ∅ = acceptedReports t /\
  list_to_set (reverse (arp_SessionId <$> items)) ∪ ∅ = acceptedSessions t /\
  insert_all ∅ ((fun e => (acceptedExpiryKey (arp_ExpiresAt e) (arp_ReportId e), arp_SessionId e)) <$> items) = expiryIndex t.
Proof.
  intros Hok items. split_and!.
  - apply set_eq. intros id. rewrite elem_of_union, elem_of_list_to_set, elem_of_reverse. unfold items. rewrite <- list_fmap_compose, list_elem_of_fmap.
    split; [intros [([k sid] & -> & Hin)|?]; [|set_solver]|intros Hid; left].
    + apply elem_of_store_items in Hin. destruct (acc_entry t Hok k sid Hin) as (e & id & -> & _ & Hid & _). cbn [compose pair_entry arp_ReportId fst]. by rewrite drop_expiry_key.
    + destruct (acc_report t Hok id Hid) as (e & sid & He & Hl). exists (acceptedExpiryKey e id, sid). cbn [compose pair_entry arp_ReportId fst].
      rewrite drop_expiry_key. split; [done|]. by apply elem_of_store_items.
  - apply set_eq. intros sid. rewrite elem_of_union, elem_of_list_to_set, elem_of_reverse. unfold items. rewrite <- list_fmap_compose, list_elem_of_fmap.
    split; [intros [([k sid'] & -> & Hin)|?]; [|set_solver]|intros Hsid; left].
    + apply elem_of_store_items in Hin. by destruct (acc_entry t Hok k sid' Hin) as (e & id & -> & _ & _ & Hs).
    + destruct (acc_session t Hok sid Hsid) as (e & id & He & Hl). exists (acceptedExpiryKey e id, sid). split; [done|]. by apply elem_of_store_items.
  - unfold items. rewrite <- list_fmap_compose. rewrite <- (insert_all_store (expiryIndex t) ∅ eq_refl) at 2. f_equal.
    pose proof (index_entries t Hok) as Hall. induction Hall as [|[k sid] l (_ & Hk & _) _ IH]; [done|].
    rewrite fmap_cons, IH. f_equal. unfold compose. by rewrite Hk.
Qed.

(** * Loading what was exported *)

Lemma reporting_set r : ring_wf r -> rg_Reporting r <> zero_reporting.
Proof. intros Hwf Hz. apply wf_valid, validateRing_ok in Hwf as (_ & _ & _ & _ & _ & Hrep & _). by rewrite Hz in Hrep. Qed.

Lemma in_store_values {A} (m : gmap bytes A) x : x ∈ (store_items m).*2 -> exists k, m !! k = Some x.
Proof. intros ([k y] & -> & Hin)%list_elem_of_fmap. exists k. by apply elem_of_store_items. Qed.

Lemma load_rings t s (p : Params) : orbis_inv t -> rings (orb s) = ∅ ->
  exists s', forM_ (fun r => SetRing (if decide (rg_Reporting r = zero_reporting)
      then set_reporting (ReportingConfigFromDefaults (DefaultReporting p)) r else r)) (store_items (rings t)).*2 s = (Ok tt, s') /\
    orb s' = set_rings (rings t) (orb s).
Proof.
  intros Hinv H0'. edestruct (forM_writes (fun r => SetRing (if decide (rg_Reporting r = zero_reporting)
      then set_reporting (ReportingConfigFromDefaults (DefaultReporting p)) r else r)) put_ring) as (s' & Hrun & Hs').
  - intros r s1 (id & Hr)%in_store_values. destruct (ring_inv t id r Hinv Hr) as (Hid & Hlen & Hwf & _).
    rewrite decide_False by (by apply reporting_set). apply SetRing_run. intros Hz. rewrite Hz in Hlen. discriminate Hlen.
  - exists s'. split; [exact Hrun|]. by rewrite Hs', fold_rings, H0', rings_rebuilt.
Qed.

Lemma load_documents t s : orbis_inv t -> documents (orb s) = ∅ ->
  exists s', forM_ SetDocument (store_items (documents t)).*2 s = (Ok tt, s') /\ orb s' = set_documents (documents t) (orb s).
Proof.
  intros Hinv H0'. edestruct (forM_writes SetDocument (fun d t => set_documents (<[doc_Id d := d]> (documents t)) t)) as (s' & Hrun & Hs').
  - intros d s1 (id & Hd)%in_store_values. destruct (inv_documents t Hinv id d Hd) as (_ & _ & Hv & _).
    unfold SetDocument, orb_set. rewrite bool_decide_eq_false_2; [done|]. intros Hz. unfold validateDocument in Hv. by rewrite Hz in Hv.
  - exists s'. split; [exact Hrun|]. rewrite Hs', fold_documents, H0', rebuild_store; [done|].
    intros id d Hd. by destruct (inv_documents t Hinv id d Hd).
Qed.

Lemma load_keyDerivations t s : orbis_inv t -> keyDerivations (orb s) = ∅ ->
  exists s', forM_ SetKeyDerivation (store_items (keyDerivations t)).*2 s = (Ok tt, s') /\
    orb s' = set_keyDerivations (keyDerivations t) (orb s).
Proof.
  intros Hinv H0'.
  edestruct (forM_writes SetKeyDerivation (fun k t => set_keyDerivations (<[kd_Id k := k]> (keyDerivations t)) t)) as (s' & Hrun & Hs').
  - intros d s1 (id & Hd)%in_store_values. destruct (inv_keyDerivations t Hinv id d Hd) as (_ & Hv & _).
    unfold SetKeyDerivation, orb_set. rewrite bool_decide_eq_false_2; [done|]. intros Hz. unfold validateKeyDerivation in Hv. by rewrite Hz in Hv.
  - exists s'. split; [exact Hrun|]. rewrite Hs', fold_keyDerivations, H0', rebuild_store; [done|].
    intros id d Hd. by destruct (inv_keyDerivations t Hinv id d Hd).
Qed.

Lemma load_nodes t s : orbis_inv t -> nodeInfos (orb s) = ∅ ->
  exists s', forM_ (fun e => match nie_NodeInfo e with Some info => SetNodeInfo (nie_NodeKey e) info | None => ret tt end)
      ((fun kv => mkNodeInfoEntry kv.1 (Some kv.2)) <$> store_items (nodeInfos t)) s = (Ok tt, s') /\
    orb s' = set_nodeInfos (nodeInfos t) (orb s).
Proof.
  intros Hinv H0'.
  edestruct (forM_writes (fun e => match nie_NodeInfo e with Some info => SetNodeInfo (nie_NodeKey e) info | None => ret tt end)
    (fun e t => match nie_NodeInfo e with Some i => put_node (nie_NodeKey e) i t | None => t end)
    ((fun kv => mkNodeInfoEntry kv.1 (Some kv.2)) <$> store_items (nodeInfos t)) s) as (s' & Hrun & Hs').
  - intros e s1 ([k i] & -> & Hin)%list_elem_of_fmap. apply elem_of_store_items in Hin.
    destruct (inv_nodes t Hinv k i Hin) as [Hk _]. cbn [nie_NodeInfo nie_NodeKey fst snd]. unfold SetNodeInfo, orb_set. by rewrite bool_decide_eq_false_2.
  - exists s'. split; [exact Hrun|]. by rewrite Hs', fold_nodes, H0', insert_all_store.
Qed.

Lemma load_demerits t s : orbis_inv t -> nodeDemerits (orb s) = ∅ ->
  exists l s', demeritEntries (store_items (nodeDemerits t)) = Ok l /\
    forM_ (fun e => SetNodeDemerits (nde_RingId e) (nde_NodeKey e) (nde_Points e) (nde_WindowStartedAt e)) l s = (Ok tt, s') /\
    orb s' = set_nodeDemerits (nodeDemerits t) (orb s).
Proof.
  intros Hinv H0'. destruct (demerits_exported (store_items (nodeDemerits t))) as (l & Hl & Hfold).
  - apply Forall_forall. intros [key bz] Hin. apply elem_of_store_items in Hin.
    destruct (inv_demerits t Hinv key bz Hin) as (ringID & nodeKey & r & Hk & Hbz & Hr & _). exists ringID, nodeKey.
    split_and!; [done| |done]. destruct (ring_inv t ringID r Hinv Hr) as (<- & Hlen & _). unfold len. lia.
  - edestruct (forM_writes (fun e => SetNodeDemerits (nde_RingId e) (nde_NodeKey e) (nde_Points e) (nde_WindowStartedAt e))
      (fun e t => put_demerits (nde_RingId e) (nde_NodeKey e) (mkDemeritState (nde_Points e) (nde_WindowStartedAt e)) t) l s) as (s' & Hrun & Hs');
      [by intros|].
    exists l, s'. split_and!; [exact Hl|exact Hrun|]. by rewrite Hs', Hfold, H0', insert_all_store.
Qed.

Lemma load_pairs t s : orbis_inv t -> acceptedReports (orb s) = ∅ -> acceptedSessions (orb s) = ∅ -> expiryIndex (orb s) = ∅ ->
  exists s', forM_ (fun e => SetAcceptedReportPair (arp_ReportId e) (arp_SessionId e) (arp_ExpiresAt e))
      (pair_entry <$> filter (fun kv => 8 <= length kv.1)%nat (store_items (expiryIndex t))) s = (Ok tt, s') /\
    orb s' = set_accepted (acceptedReports t) (acceptedSessions t) (expiryIndex t) (orb s).
Proof.
  intros Hinv H1' H2' H3'. pose proof (index_entries t (inv_accepted t Hinv)) as Hall.
  rewrite filter_all by (eapply Forall_impl; [exact Hall|by intros kv []]).
  edestruct (forM_writes (fun e => SetAcceptedReportPair (arp_ReportId e) (arp_SessionId e) (arp_ExpiresAt e))
    (fun e t => add_pair (arp_ReportId e) (arp_SessionId e) (arp_ExpiresAt e) t)
    (pair_entry <$> store_items (expiryIndex t)) s) as (s' & Hrun & Hs').
  - intros e s1 (kv & -> & Hin)%list_elem_of_fmap. rewrite Forall_forall in Hall. destruct (Hall kv Hin) as (_ & _ & Hr & Hs).
    by apply SetAcceptedReportPair_run.
  - exists s'. split; [exact Hrun|]. rewrite Hs', fold_pairs, H1', H2', H3'.
    destruct (accepted_rebuilt t (inv_accepted t Hinv)) as (-> & -> & ->). done.
Qed.

Lemma SetParams_run p s : Params_Validate p = Ok tt -> attempt (SetParams p) s = (Ok (inl tt), lens_set (set_orb_params (Some p) (orb s)) s).
Proof. intros Hp. unfold attempt, SetParams. by rewrite (bind_outcome _ _ _ _ Hp). Qed.

Lemma inv_genesis t s s0 : orb s = t -> orbis_inv t -> orb s0 = empty_orbis ->
  exists g s', ExportGenesis s = (Ok g, s) /\ InitGenesis g s0 = (Ok tt, s') /\
    orb s' = set_orb_params (Some (default DefaultParams (orb_params t))) t.
Proof.
  intros Ht Hinv H0'. set (p := default DefaultParams (orb_params t)).
  assert (Hp : Params_Validate p = Ok tt) by (unfold p; pose proof (inv_params t Hinv) as Hp; by destruct (orb_params t)).
  set (s1 := lens_set (set_orb_params (Some p) (orb s0)) s0).
  assert (E1 : orb s1 = set_orb_params (Some p) empty_orbis) by (unfold s1; by rewrite own_set, H0').
  destruct (load_rings t s1 p Hinv) as (s2 & R2 & E2); [by rewrite E1|]. rewrite E1 in E2.
  destruct (load_documents t s2 Hinv) as (s3 & R3 & E3); [by rewrite E2|]. rewrite E2 in E3.
  destruct (load_keyDerivations t s3 Hinv) as (s4 & R4 & E4); [by rewrite E3|]. rewrite E3 in E4.
  destruct (load_nodes t s4 Hinv) as (s5 & R5 & E5); [by rewrite E4|]. rewrite E4 in E5.
  destruct (load_demerits t s5 Hinv) as (l & s6 & Hl & R6 & E6); [by rewrite E5|]. rewrite E5 in E6.
  destruct (load_pairs t s6 Hinv) as (s7 & R7 & E7); [by rewrite E6..|]. rewrite E6 in E7.
  exists (mkOrbisGenesis p (store_items (rings t)).*2 (store_items (documents t)).*2 (store_items (keyDerivations t)).*2
    ((fun kv => mkNodeInfoEntry kv.1 (Some kv.2)) <$> store_items (nodeInfos t)) l
    (pair_entry <$> filter (fun kv => 8 <= length kv.1)%nat (store_items (expiryIndex t)))), s7.
  split_and!.
  - unfold ExportGenesis, GetParams, GetAllRings, GetAllDocuments, GetAllKeyDerivations, GetAllNodeInfos, GetAllNodeDemerits, GetAllAcceptedReportPairs.
    rewrite !bind_get, bind_run, bind_get, Ht, Hl. cbn [of_outcome]. by rewrite bind_get, Ht.
  - unfold InitGenesis. cbn [gen_Params gen_Rings gen_Documents gen_KeyDerivations gen_NodeInfos gen_NodeDemerits gen_AcceptedReportPairs].
    rewrite bind_run, (SetParams_run p s0 Hp). fold s1. cbn [panic_if]. rewrite bind_run. cbn [panic_if ret].
    rewrite bind_run, R2, bind_run, R3, bind_run, R4, bind_run, R5, bind_run, R6. exact R7.
  - rewrite E7. by destruct t.
Qed.

(** C39: the state that the module exports at any time, read into an empty store, gives
    the store back: every ring, document, key derivation, node, demerit and accepted
    report, under the same key; export and import both succeed. *)
Theorem orbis_genesis_roundtrip s s0 : orbis_reach s -> orb s0 = empty_orbis ->
  exists g s', ExportGenesis s = (Ok g, s) /\ InitGenesis g s0 = (Ok tt, s') /\
    orb s' = set_orb_params (Some (default DefaultParams (orb_params (orb s)))) (orb s).
Proof. intros Hreach. by apply inv_genesis, reach_inv. Qed.
End genesis.
