(* ===== verification/OrbisWorld.v ===== *)
(** A concrete chain for the orbis module, on top of that of AcpWorld.v: simple
    instances of the interfaces that the module is modelled over, and a run from the
    default genesis in which three nodes found a ring, one of them is reported twice,
    and the ring replaces it by its backup. OrbisWitness applies the theorems about the
    module to this run. *)
From Stdlib Require Import Ascii ZArith Lia.
From stdpp Require Import base numbers list gmap strings sorting.
From S2P Require Import Prelude Sdk Sha256 Utils CoreKeeper Json GoText Canonical Bearer AcpTypes AcpState AcpKeeper AcpBearer AcpMsgs AcpServer AcpReach AcpWorld AcpClient OrbisTypes OrbisIds OrbisRing OrbisSign OrbisReport OrbisKeeper OrbisServer OrbisValid OrbisStep OrbisInv OrbisSafety OrbisReports OrbisDemerits OrbisLive OrbisGenesis.

(** * Instances *)

#[export] Instance did_decode_impl : DIDDecode := {| DIDKey_Decode _ := inl (lit "Ed25519") |}.

(** A signature is the end of the message, with the key behind a message that is short. *)
Definition toy_sign (pk msg : bytes) : bytes := take 96 (reverse msg ++ pk ++ replicate 96 (byte_of_Z 0)).

#[export] Instance blst_impl : Blst := {|
  P2Affine_VerifyCompressed sig pk msg _ := bool_decide (sig = toy_sign pk msg);
  P1Affine := bytes;
  P1Affine_Uncompress := Some;
  P1Affine_KeyValidate pk := negb (bool_decide (pk = replicate 48 (byte_of_Z 0)));
|}.

(** A module that verifies nothing. *)
#[export] Instance jubjub_impl : JubjubWasm := {|
  wasm_instance := Ok tt;
  wasm_bufLen := 65536;
  wasm_Write _ := true;
  wasm_Call _ _ _ := Ok 0;
|}.

#[export] Instance node_address_impl : NodeAddress := {| secp256k1_Address pk := pk |}.

(** The module with a bank of one denomination. *)
Record OrbisClient : Type := mkOrbisClient { oc_store : OrbisStore; oc_bank : gmap bytes Z }.
Abbreviation World := (AcpWorld OrbisClient).

#[export] Instance orbis_lens : Lens World OrbisStore := {|
  lens_get s := oc_store (aw_client s);
  lens_set t s := mkAcpWorld (aw_acp s) (aw_acp_core s) (aw_caps s) (mkOrbisClient t (oc_bank (aw_client s)));
|}.

#[export] Instance orbis_frame : ClientFrame World ToyEngine OrbisStore.
Proof.
  split; [done|done|..].
  - intros m name s. simpl. by destruct (decide _).
  - intros m c name s. simpl. by destruct (decide _).
Qed.

Definition toy_balance (a : bytes) (s : World) : Z := default 0 (oc_bank (aw_client s) !! a).
Definition toy_move (from to : bytes) (amount : Z) (s : World) : World :=
  let bank := <[from := toy_balance from s - amount]> (oc_bank (aw_client s)) in
  mkAcpWorld (aw_acp s) (aw_acp_core s) (aw_caps s)
    (mkOrbisClient (oc_store (aw_client s)) (<[to := default 0 (bank !! to) + amount]> bank)).

#[export] Instance orbis_bank_impl : OrbisBank World := {|
  SpendableCoins a s := [mkCoin "uopen" (toy_balance a s)];
  SendCoins from to amount := fun s =>
    match amount with
    | [mkCoin d n] => if decide (d = "uopen"%string) then (Ok tt, toy_move from to n s) else (Err (ErrMsg "insufficient funds"), s)
    | _ => (Err (ErrMsg "insufficient funds"), s)
    end;
|}.

#[export] Instance orbis_bank_frame : BankFrame World.
Proof. intros from to [|[d n] [|]] s; simpl; try done. by destruct (decide _). Qed.

#[export] Instance orbis_accounts_frame : AccountsFrame World.
Proof. by split. Qed.

#[export] Instance orbis_bank_laws : BankLaws (S := World).
Proof.
  split.
  - intros from to [|[d n] [|]] s s' Hne Hrun d'; simpl in Hrun; try done. destruct (decide _) as [->|]; [|done].
    injection Hrun as <-. cbn [SpendableCoins orbis_bank_impl]. rewrite !coins_amount_single. unfold toy_balance, toy_move. cbn [aw_client oc_bank].
    rewrite lookup_insert_eq. rewrite !(lookup_insert_ne _ to from), !(lookup_insert_ne _ from to), lookup_insert_eq by done.
    cbn [default]. unfold toy_balance. destruct (decide _); simpl; lia.
  - intros from to [|[d n] [|]] s s' a Hf Ht Hrun; simpl in Hrun; try done. destruct (decide _) as [->|]; [|done].
    injection Hrun as <-. simpl. do 2 f_equal. unfold toy_balance, toy_move. simpl. by rewrite !lookup_insert_ne by done.
Qed.

(** * The run *)

(** Addresses, the keys of the accounts in hexadecimal, and the time. *)
Definition who (c : ascii) : bytes := byte_of_Z 2 :: replicate 32 c.
Definition key_of (c : ascii) : bytes := hex_encode (who c).
Definition at_height (h : Z) : OrbisCtx := mkOrbisCtx (demo_ctx h) (lit "vera-1").

(** The operator owns the policy of rings, and a node has received coins. *)
Definition orbis_empty : World :=
  let blob := match RecordMetadata_Marshal (mkRecordMetadata None [] [] []) with inl bz => bz | inr _ => [] end in
  mkAcpWorld
    (mkAcpStore (Some (mkAcpParams 100 (Some (Duration_BlockCount 10))))
       (mkToyEngine {[lit "policy1" := toy_policy (lit "policy1") [] 0 (lit "did:key:" ++ who "o") blob]}
          {[object_key (lit "policy1") (mkObject ACPResourceRingPolicy (lit "policy1")) := (lit "did:key:" ++ who "o", blob)]} [])
       ∅ NewTable NewTable ∅) empty_core ∅ (mkOrbisClient empty_orbis {[who "a" := 30]}).

Definition world0 : World := (InitGenesis DefaultGenesis orbis_empty).2.

Definition after (h : Z) (m : OrbisMsg) (s : World) : World := (deliver (lit "gov") (at_height h) m s).2.
Definition succeeds (h : Z) (m : OrbisMsg) (s : World) : bool := is_ok (deliver (lit "gov") (at_height h) m s).1.

Lemma after_ok h m s : succeeds h m s = true -> deliver (lit "gov") (at_height h) m s = (Ok tt, after h m s).
Proof.
  unfold succeeds, after. intros Hok. destruct (deliver (lit "gov") (at_height h) m s) as [[[]|e|] s'];
    [reflexivity|discriminate Hok|discriminate Hok].
Qed.

Lemma after_step h m s : typed m -> succeeds h m s = true -> chain_step (at_height h) s (after h m s).
Proof. intros Ht Hok. eapply chain_msg; [exact Ht|]. by apply after_ok. Qed.

(** Several messages, one after the other. *)
Fixpoint play (l : list (Z * OrbisMsg)) (s : World) : World :=
  match l with
  | [] => s
  | (h, m) :: l' => play l' (after h m s)
  end.
Fixpoint plays (l : list (Z * OrbisMsg)) (s : World) : bool :=
  match l with
  | [] => true
  | (h, m) :: l' => succeeds h m s && plays l' (after h m s)
  end.

Lemma play_run l : forall s, Forall (fun x => typed x.2) l -> plays l s = true -> chain_run s (play l s).
Proof.
  induction l as [|[h m] l IH]; intros s Ht Hok; [constructor|]. apply Forall_cons in Ht as [Hm Ht]. cbn [plays play] in *.
  apply andb_true_iff in Hok as [Hok1 Hok2]. eapply rtc_l; [|apply IH; [exact Ht|exact Hok2]].
  exists (at_height h). by apply after_step.
Qed.

Lemma play_reach l : Forall (fun x => typed x.2) l -> plays l world0 = true -> orbis_reach (play l world0).
Proof.
  intros Ht Hok. exists world0. split; [|by apply play_run]. exists orbis_empty. split; [reflexivity|]. reflexivity.
Qed.

Definition register (c : ascii) : OrbisMsg :=
  CreateNodeInfo_m (mkMsgCreateNodeInfo (who c) (lit "peer-" ++ [c]) (key_of "o") [lit "policy1"] []).

(** Two reports are enough to be replaced, within an hour. *)
Definition demo_reporting : ReportingConfig := mkReportingConfig (mkDemeritConfig 2 3600 5 5) [key_of "d"] 4.
Definition demo_create : MsgCreateRing :=
  mkMsgCreateRing (who "o") [key_of "a"; key_of "b"; key_of "c"] 2 86400 (lit "policy1") None 1 (Some demo_reporting) [] false false.
Definition ring_id : bytes :=
  GenerateRingID [key_of "a"; key_of "b"; key_of "c"] 2 86400 (lit "policy1") None 1 false [] false.
Definition ring_pk : bytes := hex_encode (replicate 48 "k"%char).
Definition confirm (c : ascii) : OrbisMsg := FinalizeRing_m (mkMsgFinalizeRing (who c) ring_id ring_pk None).

Definition founding : list (Z * OrbisMsg) :=
  [(1, register "a"); (1, register "b"); (1, register "c"); (1, register "d"); (2, CreateRing_m demo_create)].
Definition confirming : list (Z * OrbisMsg) := [(3, confirm "a"); (3, confirm "b"); (4, confirm "c")].

Definition world_pending : World := play founding world0.
Definition world_final : World := play confirming world_pending.

(** A report that [a] makes of [c], signed by the ring. *)
Definition state_of (s : World) : Ring := default (newRing demo_create [] [] demo_reporting) (rings (orb s) !! ring_id).
Definition has_ring (s : World) : bool := bool_decide (is_Some (rings (orb s) !! ring_id)).
Definition final_digest : bytes := match reportRingStateSHA256 (state_of world_final) with Ok d => d | _ => [] end.
Definition offline_payload : bytes := enc_bytes offlineOriginProtocolPRE ++ enc_u64 1 ++ enc_byte 1 ++ enc_byte 1.
Definition demo_report (session : bytes) (observed : Z) : ReportEnvelope :=
  mkReportEnvelope ReportDomain NodeOfflineReportType (lit "vera-1") ring_id ring_pk final_digest
    (key_of "a") (key_of "c") (lit "peer-c") observed (observed + ReportTTLSeconds) offline_payload session.
Definition ring_signs (message : bytes) : bytes := toy_sign (replicate 48 "k"%char) message.
Definition report_msg (report : ReportEnvelope) : MsgSubmitReport :=
  match reportEnvelopeCanonicalBytes report with
  | Ok message => mkMsgSubmitReport (who "a") report (hex_encode (sha256 message)) ThresholdSignatureSchemeBLS (ring_signs message)
  | _ => mkMsgSubmitReport (who "a") report [] [] []
  end.

(** The first report counts, the second one starts a reshare. Between them comes another
    report about the first session, which was observed earlier. *)
Definition report1 : MsgSubmitReport := report_msg (demo_report (lit "session-1") 50).
Definition report1b : MsgSubmitReport := report_msg (demo_report (lit "session-1") 48).
Definition report2 : MsgSubmitReport := report_msg (demo_report (lit "session-2") 54).
Definition world_reported : World := after 10 (SubmitReport_m report1) world_final.
Definition world_resharing : World := after 11 (SubmitReport_m report2) world_reported.

(** The end of the block 120 seconds after the first report. *)
Definition world_expired : World := (EndBlock (at_height 34) world_reported).2.

(** The ring signs the reshare. *)
Definition reshare_bytes : bytes :=
  ringReshareFinalizeSignBytes (lit "vera-1") (state_of world_resharing) (reshared (state_of world_resharing)).
Definition finish_msg : MsgFinalizeRingReshareByThresholdSignature :=
  mkMsgFinalizeRingReshare (who "b") ring_id ThresholdSignatureSchemeBLS (ring_signs reshare_bytes).
Definition world_reshared : World := after 12 (FinalizeReshare_m finish_msg) world_resharing.

Definition drain_msg : MsgDrainNodeKey := mkMsgDrainNodeKey (who "o") (key_of "a").

#[global] Instance Coin_eq_dec : EqDecision Coin.
Proof. solve_decision. Defined.
#[global] Instance Coins_eq_dec : EqDecision Coins := _ : EqDecision (list Coin).
#[global] Instance RingConfirmation_eq_dec : EqDecision RingConfirmation.
Proof. solve_decision. Defined.
#[global] Instance UpgradeInfo_eq_dec : EqDecision UpgradeInfo.
Proof. solve_decision. Defined.
#[global] Instance Ring_eq_dec : EqDecision Ring.
Proof. solve_decision. Defined.

Definition session_of (report : ReportEnvelope) : option bytes :=
  match reportPayloadOf report with
  | Ok payload => match reportSessionDedupeID report payload with Ok sid => Some sid | _ => None end
  | _ => None
  end.

Definition points_of (s : World) : Z :=
  match nodeDemerits (orb s) !! nodeDemeritStoreKey ring_id (key_of "c") ≫= (fun bz => decodeDemeritState bz) with
  | Some st => points st
  | None => 0
  end.
Abbreviation demo_query h s := (NodeDemerits_query (S := World) (at_height h) ring_id (key_of "c") s).

Definition ok_is {A} `{EqDecision A} (o : outcome A) (a : A) : bool :=
  match o with Ok x => bool_decide (x = a) | _ => false end.

(** What a uint64 holds, and what a length in the signed document may be. *)
Definition sign_state_fits (m : RingReshareSignState) : bool :=
  forallb (fun l => Z.of_nat (length l) <? 2 ^ 64)
    ([ss_RingPk m; ss_PolicyId m] ++ ss_PeerNodeKeys m ++ ss_NewPeerNodeKeys m ++ ss_TrustedAuthRelayDids m) &&
  forallb (fun z => (0 <=? z) && (z <? 2 ^ 64)) ([ss_Threshold m; ss_BlockNumberNonce m] ++ option_list (ss_NewThreshold m)).

(** Everything that is evaluated about the run, in one go. *)
Definition facts : list bool := [
  plays founding world0; plays confirming world_pending;
  succeeds 10 (SubmitReport_m report1) world_final; succeeds 11 (SubmitReport_m report2) world_reported;
  succeeds 12 (FinalizeReshare_m finish_msg) world_resharing;
  has_ring world_pending; has_ring world_final; has_ring world_reported; has_ring world_resharing; has_ring world_reshared;
  bool_decide (size (rings (orb world_reshared)) = 1%nat);
  negb (bool_decide (RingPk (state_of world_final) = []));
  negb (bool_decide (RingPk (state_of world_reshared) = []));
  negb (bool_decide ((PeerNodeKeys (state_of world_reshared), Threshold (state_of world_reshared)) =
                     (PeerNodeKeys (state_of world_resharing), Threshold (state_of world_resharing))));
  succeeds 3 (confirm "a") world_pending;
  bool_decide (is_Some (session_of (mrp_Report report1)) /\ session_of (mrp_Report report1b) = session_of (mrp_Report report1));
  bool_decide (rings (orb world_reported) = rings (orb world_final));
  bool_decide (map_Forall (fun _ r => len (PeerNodeKeys r) < 2 ^ 32) (rings (orb world_final)));
  bool_decide (map_Forall (fun _ r => 0 < reset_interval r) (rings (orb world_reported)));
  ok_is (demo_query 11 world_reported).1 2;
  ok_is (DemeritAmountForReportType (Some (state_of world_reported)) NodeOfflineReportType) 2;
  bool_decide (points_of world_resharing = 4);
  rep_KickThreshold (rg_Reporting (state_of world_reported)) <=? 4;
  bool_decide (reshareInProgress (state_of world_reported) = false);
  bool_decide (key_of "c" ∈ PeerNodeKeys (state_of world_reported));
  bool_decide (BackupNodeKeys (rg_Reporting (state_of world_reported)) = [key_of "d"]);
  bool_decide (key_of "d" ∉ PeerNodeKeys (state_of world_reported));
  match nodeInfos (orb world_reported) !! key_of "d" with Some info => nodeInfoAllowsRing info (state_of world_reported) | None => false end;
  bool_decide (RingPk (state_of world_pending) = []); bool_decide (Confirmations (state_of world_pending) = []);
  negb (RequiresPet (state_of world_pending));
  bool_decide ([key_of "b"; key_of "a"; key_of "c"] ≡ₚ PeerNodeKeys (state_of world_pending));
  reshareInProgress (state_of world_resharing);
  is_ok (verifyThresholdSignature (mfs_SignatureScheme finish_msg) (RingPk (state_of world_resharing))
           (ringReshareFinalizeSignBytes (ChainID (at_height 12)) (state_of world_resharing) (reshared (state_of world_resharing)))
           (mfs_Signature finish_msg));
  ok_is (DrainNodeKey drain_msg world_final).1 [mkCoin "uopen" 30];
  coins_amount "uopen" (SpendableCoins (who "o") world_final) + coins_amount "uopen" (SpendableCoins (who "a") world_final) =? 30;
  Z.of_nat (length (rg_Id (state_of world_resharing))) <? 2 ^ 64;
  sign_state_fits (ringReshareSignState (state_of world_resharing));
  sign_state_fits (ringReshareSignState (reshared (state_of world_resharing)))
].

Lemma facts_hold : forallb Datatypes.id facts = true.
Proof. vm_compute. reflexivity. Qed.

Lemma fact n b : facts !! n = Some b -> b = true.
Proof.
  intros Hn%list_elem_of_lookup_2%list_elem_of_In. pose proof facts_hold as Hall. rewrite forallb_forall in Hall. exact (Hall b Hn).
Qed.

(** The fact in the [n]th place of the list. *)
Ltac known n := apply (fact n); reflexivity.

Lemma yes {P : Prop} `{!Decision P} : bool_decide P = true -> P.
Proof. apply bool_decide_eq_true. Qed.
Lemma no {P : Prop} `{!Decision P} : negb (bool_decide P) = true -> ~ P.
Proof. intros Hn%negb_true_iff. by apply bool_decide_eq_false in Hn. Qed.
Lemma ok_is_eq {A} `{EqDecision A} (o : outcome A) a : ok_is o a = true -> o = Ok a.
Proof. destruct o as [x|e|]; [|discriminate..]. intros Hx%bool_decide_eq_true. by rewrite Hx. Qed.
Lemma is_ok_unit (o : outcome unit) : is_ok o = true -> o = Ok tt.
Proof. by destruct o as [[]|e|]. Qed.

Lemma state_of_ring s : has_ring s = true -> rings (orb s) !! ring_id = Some (state_of s).
Proof. intros [r Hr]%bool_decide_eq_true. unfold state_of. rewrite Hr. reflexivity. Qed.

(** * All of this succeeds *)

Lemma reach_after s s' : orbis_reach s -> chain_run s s' -> orbis_reach s'.
Proof. intros (s0 & Hs0 & Hrun) Hrun'. exists s0. split; [exact Hs0|]. by etrans. Qed.

Lemma run_after h m s : typed m -> succeeds h m s = true -> chain_run s (after h m s).
Proof. intros Ht Hok. apply rtc_once. exists (at_height h). by apply after_step. Qed.

Lemma founding_run : chain_run world0 world_pending.
Proof.
  apply play_run; [|known 0%nat]. unfold founding.
  repeat (apply Forall_cons; split; [first [exact I|cbn; lia]|]). constructor.
Qed.
Lemma confirming_run : chain_run world_pending world_final.
Proof.
  apply play_run; [|known 1%nat]. unfold confirming. repeat (apply Forall_cons; split; [exact I|]). constructor.
Qed.
Lemma report1_ok : succeeds 10 (SubmitReport_m report1) world_final = true.
Proof. known 2%nat. Qed.
Lemma report2_ok : succeeds 11 (SubmitReport_m report2) world_reported = true.
Proof. known 3%nat. Qed.
Lemma finish_ok : succeeds 12 (FinalizeReshare_m finish_msg) world_resharing = true.
Proof. known 4%nat. Qed.

Lemma world0_start : orbis_start world0.
Proof. exists orbis_empty. split; reflexivity. Qed.
Lemma pending_reach : orbis_reach world_pending.
Proof. exists world0. split; [exact world0_start|exact founding_run]. Qed.
Lemma final_reach : orbis_reach world_final.
Proof. exact (reach_after _ _ pending_reach confirming_run). Qed.
Lemma reported_run : chain_run world_final world_reported.
Proof. exact (run_after 10 (SubmitReport_m report1) world_final I report1_ok). Qed.
Lemma resharing_run : chain_run world_reported world_resharing.
Proof. exact (run_after 11 (SubmitReport_m report2) world_reported I report2_ok). Qed.
Lemma reshared_step : chain_step (at_height 12) world_resharing world_reshared.
Proof. exact (after_step 12 (FinalizeReshare_m finish_msg) world_resharing I finish_ok). Qed.
Lemma reported_reach : orbis_reach world_reported.
Proof. exact (reach_after _ _ final_reach reported_run). Qed.
Lemma resharing_reach : orbis_reach world_resharing.
Proof. exact (reach_after _ _ reported_reach resharing_run). Qed.
Lemma final_to_reshared : chain_run world_final world_reshared.
Proof.
  etrans; [exact reported_run|]. etrans; [exact resharing_run|].
  apply rtc_once. exists (at_height 12). exact reshared_step.
Qed.

Lemma pending_ring : rings (orb world_pending) !! ring_id = Some (state_of world_pending).
Proof. apply state_of_ring. known 5%nat. Qed.
Lemma final_ring_there : rings (orb world_final) !! ring_id = Some (state_of world_final).
Proof. apply state_of_ring. known 6%nat. Qed.
Lemma reported_ring : rings (orb world_reported) !! ring_id = Some (state_of world_reported).
Proof. apply state_of_ring. known 7%nat. Qed.
Lemma resharing_ring : rings (orb world_resharing) !! ring_id = Some (state_of world_resharing).
Proof. apply state_of_ring. known 8%nat. Qed.
Lemma reshared_ring : rings (orb world_reshared) !! ring_id = Some (state_of world_reshared).
Proof. apply state_of_ring. known 9%nat. Qed.

(** The report inside the message, and what it is about. *)
Lemma report_of report : mrp_Report (report_msg report) = report.
Proof. unfold report_msg. by destruct (reportEnvelopeCanonicalBytes report). Qed.
Lemma report1_is : mrp_Report report1 = demo_report (lit "session-1") 50.
Proof. apply report_of. Qed.
Lemma report1b_is : mrp_Report report1b = demo_report (lit "session-1") 48.
Proof. apply report_of. Qed.
Lemma report2_is : mrp_Report report2 = demo_report (lit "session-2") 54.
Proof. apply report_of. Qed.

(** A report that is delivered is submitted. *)
Lemma submitted h msg s : succeeds h (SubmitReport_m msg) s = true ->
  exists id, SubmitReport (at_height h) msg s = (Ok id, after h (SubmitReport_m msg) s).
Proof.
  unfold succeeds, after, deliver. rewrite !bind_run. destruct (of_outcome _ s) as [[[]|e|] s1] eqn:Ev; [|discriminate 1..].
  destruct (validateBasic (SubmitReport_m msg)) as [[]|e|]; [|discriminate Ev..]. injection Ev as <-.
  cbn [handle]. rewrite bind_run. destruct (SubmitReport (at_height h) msg s) as [[id|e|] s']; [|discriminate 1..].
  intros _. by exists id.
Qed.
