(* ===== verification/OrbisWitness.v ===== *)
(** The theorems about the orbis module, applied to the run of OrbisWorld. *)
From Stdlib Require Import Ascii ZArith Lia.
From stdpp Require Import base numbers list gmap strings sorting.
From S2P Require Import Prelude Sdk Sha256 Utils CoreKeeper Json GoText Canonical Bearer AcpTypes AcpState AcpKeeper AcpBearer AcpMsgs AcpServer AcpReach AcpWorld AcpClient OrbisTypes OrbisIds OrbisRing OrbisSign OrbisReport OrbisKeeper OrbisServer OrbisValid OrbisStep OrbisInv OrbisSafety OrbisReports OrbisDemerits OrbisLive OrbisGenesis OrbisWorld.

Lemma orbis_well_formed_witness : size (rings (orb world_reshared)) = 1%nat /\ orbis_inv (orb world_reshared).
Proof.
  split; [apply yes; known 10%nat|]. apply orbis_well_formed.
  exact (reach_after _ _ final_reach final_to_reshared).
Defined.

Lemma final_ring_stays_witness : exists r', final_ring (orb world_reshared) ring_id r' /\ same_identity (state_of world_final) r'.
Proof.
  apply (final_ring_stays world_final world_reshared ring_id (state_of world_final) final_reach final_to_reshared).
  split; [exact final_ring_there|]. apply no. known 11%nat.
Defined.

Lemma orbis_refines_witness :
  orbis_step (evidence_of (lit "gov") (at_height 3) (confirm "a") world_pending) (at_height 3)
    (orb world_pending) (orb (after 3 (confirm "a") world_pending)).
Proof. apply orbis_refines; [exact I|]. apply after_ok. known 14%nat. Defined.

Lemma committee_changes_signed_witness : exists scheme signature,
  verifyThresholdSignature scheme (RingPk (state_of world_resharing))
    (ringReshareFinalizeSignBytes (lit "vera-1") (state_of world_resharing) (reshared (state_of world_resharing))) signature = Ok tt.
Proof.
  destruct (committee_changes_signed (at_height 12) world_resharing world_reshared ring_id
    (state_of world_resharing) (state_of world_reshared) resharing_reach reshared_step resharing_ring reshared_ring)
    as (_ & _ & _ & _ & _ & Hsig); [apply no; known 13%nat|exact Hsig].
Defined.

Lemma ring_key_unanimous_witness : exists members, members <> [] /\ founded ring_id members (state_of world_reshared) /\
  forall k, k ∈ members -> confirmed_in world0 world_reshared ring_id k (RingPk (state_of world_reshared)) (rg_PetPk (state_of world_reshared)).
Proof.
  apply (ring_key_unanimous world0 world_reshared ring_id (state_of world_reshared) world0_start).
  - etrans; [exact founding_run|]. etrans; [exact confirming_run|exact final_to_reshared].
  - split; [exact reshared_ring|]. apply no. known 12%nat.
Defined.

Lemma session_of_same report report' : is_Some (session_of report) /\ session_of report' = session_of report ->
  same_session report report'.
Proof.
  intros [[sid Hs] Hs']. rewrite Hs in Hs'. unfold session_of in *.
  destruct (reportPayloadOf report) as [payload|e|] eqn:Hp; [|discriminate..].
  destruct (reportPayloadOf report') as [payload'|e|] eqn:Hp'; [|discriminate..].
  destruct (reportSessionDedupeID report payload) eqn:Hd; [|discriminate..].
  destruct (reportSessionDedupeID report' payload') eqn:Hd'; [|discriminate..].
  exists payload, payload', sid. split_and!; congruence.
Qed.

Lemma session_counts_once_witness :
  deliver (lit "gov") (at_height 10) (SubmitReport_m report1) world_final = (Ok tt, world_reported) /\
  forall s3, deliver (lit "gov") (at_height 11) (SubmitReport_m report1b) world_reported <> (Ok tt, s3).
Proof.
  assert (Hd : deliver (lit "gov") (at_height 10) (SubmitReport_m report1) world_final = (Ok tt, world_reported))
    by exact (after_ok 10 (SubmitReport_m report1) world_final report1_ok).
  split; [exact Hd|]. intros s3.
  apply (session_counts_once (lit "gov") (at_height 10) report1 world_final world_reported 50 world_reported
    (lit "gov") (at_height 11) report1b s3 final_reach).
  - reflexivity.
  - exact Hd.
  - apply timed_refl.
  - vm_compute. discriminate.
  - apply session_of_same, yes. known 15%nat.
  - rewrite report1b_is. reflexivity.
Defined.

Lemma boundary_replay_witness : exists id s3, SubmitReport (at_height 10) report1 world_final = (Ok id, world_reported) /\
  SubmitReport (at_height 34) report1 world_expired = (Ok id, s3).
Proof.
  destruct (submitted 10 report1 world_final report1_ok) as [id Hid]. exists id.
  destruct (boundary_replay (at_height 10) (at_height 34) report1 world_final id world_reported world_expired (state_of world_final)
    final_reach Hid) as [s3 Hs3].
  - rewrite report1_is. reflexivity.
  - apply yes. known 16%nat.
  - rewrite report1_is. exact final_ring_there.
  - apply (yes (P := map_Forall (fun _ r => len (PeerNodeKeys r) < 2 ^ 32) (rings (orb world_final))) (fact 17 _ eq_refl) ring_id).
    exact final_ring_there.
  - rewrite report1_is. reflexivity.
  - reflexivity.
  - reflexivity.
  - exists s3. split; [exact Hid|exact Hs3].
Defined.

Lemma report_accepted_exactly_witness : exists payload r now sid,
  report_ok (at_height 10) (orb world_final) (mrp_Report report1) payload r now (mrp_ReportId report1) sid
    (mrp_SignatureScheme report1) (mrp_Signature report1).
Proof.
  apply (report_accepted_exactly (at_height 10) report1 world_final final_reach).
  - exact (yes (P := map_Forall (fun _ r => len (PeerNodeKeys r) < 2 ^ 32) (rings (orb world_final))) (fact 17 _ eq_refl)).
  - destruct (submitted 10 report1 world_final report1_ok) as [id Hid]. exists id, world_reported. exact Hid.
Defined.

Lemma accepted_report_sound_witness : exists r, final_ring (orb world_final) ring_id r /\ key_of "c" ∈ committee_nodes r.
Proof.
  destruct (submitted 10 report1 world_final report1_ok) as [id Hid].
  destruct (accepted_report_sound (at_height 10) report1 world_final id _ Hid)
    as (r & message & payload & sid & Hr & _ & _ & _ & _ & _ & _ & Hin & _).
  rewrite report1_is in Hr, Hin. exists r. split; [exact Hr|exact Hin].
Defined.

(** ** Demerits *)

Lemma queried h s d : (demo_query h s).1 = Ok d -> demo_query h s = (Ok d, s).
Proof.
  unfold NodeDemerits_query, GetRing. rewrite bind_run. destruct (throw_if _ _ s) as [[[]|e|] s1] eqn:Et; [|discriminate 1..].
  apply throw_if_ok in Et as [_ ->]. rewrite bind_get. unfold of_option. destruct (rings (orb s) !! ring_id); [|discriminate 1].
  rewrite bind_run. cbn [ret]. rewrite bind_run. destruct (blockUnixTime _ _); [|discriminate 1..]. cbn [of_outcome].
  unfold GetEffectiveNodeDemerits, getNodeDemeritState. rewrite bind_get. intros Hd. injection Hd as <-. reflexivity.
Qed.

Lemma some_same {A} (o : option A) x y : o = Some x -> o = Some y -> y = x.
Proof. intros ->. by intros [= ->]. Qed.
Lemma ok_same {A} (o : outcome A) x y : o = Ok x -> o = Ok y -> y = x.
Proof. intros ->. by intros [= ->]. Qed.

Lemma report2_ring : rp_RingId (mrp_Report report2) = ring_id.
Proof. by rewrite report2_is. Qed.
Lemma report2_accused : AccusedNodeKey (mrp_Report report2) = key_of "c".
Proof. by rewrite report2_is. Qed.
Lemma report2_type : ReportType (mrp_Report report2) = NodeOfflineReportType.
Proof. by rewrite report2_is. Qed.

Lemma demerits_counted_witness : demo_query 11 world_reported = (Ok 2, world_reported) /\
  demo_query 11 world_resharing = (Ok 4, world_resharing).
Proof.
  assert (Hq : demo_query 11 world_reported = (Ok 2, world_reported)) by (apply queried, ok_is_eq; known 19%nat).
  split; [exact Hq|]. destruct (submitted 11 report2 world_reported report2_ok) as [id Hid].
  destruct (demerits_counted (at_height 11) report2 world_reported id world_resharing 2 reported_reach) as [(r & amount & Hr & Ha & Hq') _].
  - reflexivity.
  - exact (yes (P := map_Forall (fun _ r => 0 < reset_interval r) (rings (orb world_reported))) (fact 18 _ eq_refl)).
  - exact Hid.
  - rewrite report2_is. exact Hq.
  - rewrite report2_ring in Hr, Hq'. rewrite report2_accused in Hq'. rewrite report2_type in Ha.
    rewrite (some_same _ _ _ reported_ring Hr) in Ha.
    assert (H2' : DemeritAmountForReportType (Some (state_of world_reported)) NodeOfflineReportType = Ok 2) by (apply ok_is_eq; known 20%nat).
    rewrite (ok_same _ _ _ H2' Ha) in Hq'. exact Hq'.
Defined.

Lemma allows_by t r k : match nodeInfos t !! k with Some info => nodeInfoAllowsRing info r | None => false end = true -> allows t r k.
Proof. intros Hk. destruct (nodeInfos t !! k) as [info|] eqn:Hi; [by exists info|discriminate Hk]. Qed.

Lemma points_run s : GetNodeDemerits (S := World) ring_id (key_of "c") s = (Ok (points_of s), s).
Proof. reflexivity. Qed.

Lemma kick_points : points_of world_resharing = 4.
Proof. apply yes. known 21%nat. Qed.

Lemma accused_replaced_witness : exists r', rings (orb world_resharing) = <[ring_id := r']> (rings (orb world_reported)) /\
  length (NewPeerNodeKeys r') = length (PeerNodeKeys (state_of world_reported)) /\ key_of "d" ∈ NewPeerNodeKeys r'.
Proof.
  destruct (submitted 11 report2 world_reported report2_ok) as [id Hid].
  destruct (accused_replaced (at_height 11) report2 world_reported id world_resharing (state_of world_reported) 4 reported_reach) as [Hkick _].
  - reflexivity.
  - exact Hid.
  - rewrite report2_is. exact reported_ring.
  - rewrite report2_ring, report2_accused, points_run, kick_points. reflexivity.
  - rewrite report2_ring, report2_accused in Hkick.
    destruct (Hkick) with (k := key_of "d") (l1 := @nil bytes) (l2 := @nil bytes) as (r' & Hr' & Hin & Hlen & _).
    + apply Z.leb_le. known 22%nat.
    + apply yes. known 23%nat.
    + apply yes. known 24%nat.
    + apply yes. known 25%nat.
    + constructor.
    + split; [apply yes; known 26%nat|]. apply allows_by. known 27%nat.
    + exists r'. split_and!; [exact Hr'|exact Hlen|]. exact (proj2 (Hin _) (or_introl eq_refl)).
Defined.

(** ** What can be done *)

Lemma who_did h c (s : World) : has_did (at_height h) s (who c).
Proof.
  unfold has_did, GetActorDID, IssueDIDFromAccountAddr. rewrite decide_True by reflexivity.
  rewrite bind_run. change (AccAddressFromBech32 (who c)) with (Ok (who c)). cbn [wrap_err of_outcome].
  rewrite bind_run. cbn [gets]. change (GetAccount (who c) s) with (Some (mkAccount (who c) (Some (Secp256k1Key (who c))) 7)).
  rewrite bind_run. cbn [of_option ret]. rewrite bind_run. destruct (GetICAConnection (who c) s) as [[[ica|]|e|] s1] eqn:Hi.
  - eexists _, _. reflexivity.
  - eexists _, _. reflexivity.
  - discriminate Hi.
  - discriminate Hi.
Qed.

Lemma members_finalize_witness : exists s' r',
  confirm_all (at_height 3) ring_id ring_pk None [who "b"; who "a"; who "c"] world_pending = (Ok tt, s') /\
  final_ring (orb s') ring_id r' /\ RingPk r' = ring_pk.
Proof.
  destruct (members_finalize (at_height 3) world_pending ring_id (state_of world_pending) ring_pk None [who "b"; who "a"; who "c"]
    [key_of "b"; key_of "a"; key_of "c"] (who "c") pending_reach pending_ring) as (s' & r' & Hrun & Hfin & Hpk & _).
  - apply yes. known 28%nat.
  - apply yes. known 29%nat.
  - discriminate.
  - split; [vm_compute; reflexivity|reflexivity|]. split; [intros [x Hx]; discriminate Hx|].
    intros Hp. pose proof (fact 30 _ eq_refl) as Hn. rewrite Hp in Hn. discriminate Hn.
  - repeat (apply Forall2_cons; split; [reflexivity|]). constructor.
  - apply yes. known 31%nat.
  - reflexivity.
  - apply who_did.
  - exists s', r'. split_and!; [exact Hrun|exact Hfin|exact Hpk].
Defined.

Lemma reshare_can_finish_witness : exists s' r',
  FinalizeRingReshareByThresholdSignature (at_height 12) finish_msg world_resharing = (Ok tt, s') /\
  rings (orb s') !! ring_id = Some r' /\ PeerNodeKeys r' = target_peers (state_of world_resharing).
Proof.
  destruct (reshare_can_finish (at_height 12) world_resharing ring_id (state_of world_resharing) finish_msg
    resharing_reach resharing_ring) as (res & s' & Hrun & Hok & Hdone).
  - known 32%nat.
  - reflexivity.
  - assert (Hres : res = Ok tt) by (apply Hok; split; [apply who_did|apply is_ok_unit; known 33%nat]).
    destruct (Hdone Hres) as (r' & Hr' & Hp & _). rewrite Hres in Hrun. exists s', r'. split_and!; [exact Hrun|exact Hr'|exact Hp].
Defined.

Lemma drain_moves_all_witness : exists s', DrainNodeKey drain_msg world_final = (Ok [mkCoin "uopen" 30], s') /\
  coins_amount "uopen" (SpendableCoins (who "a") s') = 0 /\ coins_amount "uopen" (SpendableCoins (who "o") s') = 30.
Proof.
  set (s' := (DrainNodeKey drain_msg world_final).2).
  assert (Hok : (DrainNodeKey drain_msg world_final).1 = Ok [mkCoin "uopen" 30]) by (apply ok_is_eq; known 34%nat).
  assert (Hrun : DrainNodeKey drain_msg world_final = (Ok [mkCoin "uopen" 30], s')) by (rewrite <- Hok; apply surjective_pairing).
  destruct (drain_moves_all drain_msg world_final [mkCoin "uopen" 30] s' (who "a") (who "o") Hrun) as (_ & _ & _ & Hmoved & _).
  - vm_compute. reflexivity.
  - reflexivity.
  - discriminate.
  - exists s'. destruct (Hmoved "uopen"%string) as [Ha Ho]. split_and!; [exact Hrun|exact Ha|]. rewrite Ho.
    apply Z.eqb_eq. known 35%nat.
Defined.

Lemma orbis_genesis_roundtrip_witness : exists g s', ExportGenesis world_reshared = (Ok g, world_reshared) /\
  InitGenesis g orbis_empty = (Ok tt, s') /\
  orb s' = set_orb_params (Some (default DefaultParams (orb_params (orb world_reshared)))) (orb world_reshared).
Proof.
  apply orbis_genesis_roundtrip; [|reflexivity]. exact (reach_after _ _ final_reach final_to_reshared).
Defined.

Lemma sign_state_by m : sign_state_fits m = true -> sign_state_ok m.
Proof.
  unfold sign_state_fits. rewrite andb_true_iff, !forallb_forall. intros [Hf Hu].
  assert (Hf' : forall l, In l ([ss_RingPk m; ss_PolicyId m] ++ ss_PeerNodeKeys m ++ ss_NewPeerNodeKeys m ++ ss_TrustedAuthRelayDids m) -> fits l).
  { intros l Hl. apply Z.ltb_lt. exact (Hf l Hl). }
  assert (Hu' : forall z, In z ([ss_Threshold m; ss_BlockNumberNonce m] ++ option_list (ss_NewThreshold m)) -> is_u64 z).
  { intros z Hz. pose proof (Hu z Hz) as Hb. apply andb_true_iff in Hb as [H1'%Z.leb_le H2'%Z.ltb_lt]. by split. }
  setoid_rewrite in_app_iff in Hf'. setoid_rewrite in_app_iff in Hf'. setoid_rewrite in_app_iff in Hf'. setoid_rewrite in_app_iff in Hu'.
  unfold sign_state_ok. split_and!; try (apply Hf'; simpl; tauto); try (apply Hu'; simpl; tauto);
    try (apply Forall_forall; intros l Hl%list_elem_of_In; apply Hf'; simpl; tauto).
  intros z Hz. apply Hu'. rewrite Hz. simpl. tauto.
Qed.

Lemma reshare_sign_bytes_bind_witness :
  let r := state_of world_resharing in
  committed (lit "vera-1") r (reshared r) = committed (lit "vera-1") r (reshared r) \/
  (state_bytes r <> state_bytes r /\ sha256 (state_bytes r) = sha256 (state_bytes r)) \/
  (state_bytes (reshared r) <> state_bytes (reshared r) /\ sha256 (state_bytes (reshared r)) = sha256 (state_bytes (reshared r))).
Proof.
  intros r. assert (Hok : sign_doc_ok (lit "vera-1") r (reshared r)).
  { split; [reflexivity|]. split; [apply Z.ltb_lt; known 36%nat|]. split; apply sign_state_by; [known 37%nat|known 38%nat]. }
  exact (reshare_sign_bytes_bind (lit "vera-1") r (reshared r) (lit "vera-1") r (reshared r) Hok Hok eq_refl).
Defined.
