(* ===== verification/Faucet.v ===== *)
(** The faucet of a node (src/app/faucet.go): HTTP handlers that send funds to an
    address once, create accounts and grant fee allowances, each by a transaction that
    the node signs with the key of the faucet and broadcasts.

    A handler runs in the keeper monad on the state of the node. An error is the HTTP
    status with which the handler ends; what it did before stays. *)
From Stdlib Require Import Ascii ZArith Lia.
From stdpp Require Import base numbers list gmap strings.
From S2P Require Import Prelude Sdk Sha256 GoText FeeAllowance FeegrantKeys FeegrantKeeper CoreKeeper.

(** * Data *)

Definition FaucetRequestAmount : Z := 1000000000.
Definition DefaultAllowanceAmount : Z := 10000000000.
Definition DefaultAllowanceExpirationDays : Z := 30.

Record FaucetRequestRecord : Type := mkFaucetRequestRecord {
  frr_Address : bytes; frr_Amount : Coin; frr_TxHash : bytes;
}.

(** The store of the faucet: the requests by the text of their address. *)
Abbreviation FaucetStore := (gmap bytes FaucetRequestRecord).

Record FaucetKeyConfig : Type := mkFaucetKeyConfig { Mnemonic : bytes; KeyName : bytes; KeyAddress : bytes }.

(** The amount in a request may be missing. *)
Record GrantRequest : Type := mkGrantRequest {
  gr_Grantee : bytes;
  gr_LimitDenom : string;
  gr_LimitAmount : option Z;
  gr_Expiration : option Time;
}.

Record TxResponse : Type := mkTxResponse { tx_TxHash : bytes; tx_Code : Z; tx_RawLog : bytes }.

Record FaucetResponse : Type := mkFaucetResponse {
  fr_Tx : TxResponse; fr_Address : bytes; fr_Amount : Coin;
}.
Record FaucetInfoResponse : Type := mkFaucetInfoResponse {
  fi_Address : bytes; fi_Balance : Coin; fi_RequestCount : Z;
}.
Inductive InitAccountResponse : Type :=
  | AccountExists (address : bytes)
  | AccountInitialized (tx : TxResponse) (address : bytes) (amount : Coin).
Record GrantResponse : Type := mkGrantResponse {
  gp_Tx : TxResponse; gp_Granter : bytes; gp_Grantee : bytes; gp_AmountLimit : Coin; gp_Expiration : Time;
}.

(** The messages that the faucet sends. *)
Inductive FaucetMsg : Type :=
  | FaucetSend (from to : bytes) (amount : Coins)
  | FaucetGrant (msg : MsgGrantAllowance)
  | FaucetGrantDID (msg : MsgGrantDIDAllowance).

(** * The node *)

(** The fields of [tx.Factory] that the faucet sets; fees are in the bond denomination. *)
Record Factory (K : Type) : Type := mkFactory {
  tf_ChainID : bytes; tf_Gas : Z; tf_Keybase : K; tf_Fees : option Z; tf_AccountNumber : Z; tf_Sequence : Z;
}.
Arguments mkFactory {K}.

(** The key file, an in-memory keyring with the key of the file in it, the clock of the
    machine in its time zone, and the client of the node. *)
Class FaucetHost (S : Type) : Type := {
  Keyring : Type;
  UnsignedTx : Type;
  SignedTx : Type;
  key_file : M S FaucetKeyConfig;
  keyring_NewAccount : bytes -> bytes -> (Keyring * (bytes + error)) + error;
  client_ChainID : bytes;
  RetrieveAccount : bytes -> M S (Z * Z);
  BuildUnsignedTx : Factory Keyring -> FaucetMsg -> UnsignedTx + error;
  tx_Sign : Factory Keyring -> bytes -> UnsignedTx -> SignedTx + error;
  TxEncoder : SignedTx -> bytes + error;
  BroadcastTxSync : bytes -> M S TxResponse;
  bank_Balance : bytes -> string -> M S Coin;
  time_Now : M S Time;
  AddDate_days : Time -> Z -> Time;
}.

Definition StatusBadRequest : Z := 400.
Definition StatusForbidden : Z := 403.
Definition StatusNotFound : Z := 404.
Definition StatusInternalServerError : Z := 500.

Definition http_Error (status : Z) : error := ErrReg "http" status.

(** [sdk.NewCoins] of one coin: zero is left out, and a coin that is not valid
    panics. *)
Definition NewCoins `{CoinsOps} (c : Coin) : outcome Coins :=
  if coin_amount c =? 0 then Ok [] else if IsValid [c] then Ok [c] else Panic.

Section faucet.
Context `{CoinsOps, SdkKeys, AddressCodec}.
Context {S : Type} `{!Lens S FaucetStore, !Lens S CoreStore, FaucetHost S}.
Implicit Types (address : bytes) (s : S).

(** An error of a call ends the handler with a status. *)
Definition or_http {A} (status : Z) (m : M S A) : M S A :=
  r <- attempt m ;; match r with inl a => ret a | inr _ => throw (http_Error status) end.

Definition faucet_get {A} (f : FaucetStore -> A) : M S A := gets (fun s => f (lens_get s)).

(** ** Records. The store is mounted, so that it is never nil. *)

Definition zeroFeeTxsAllowed : M S bool := cfg <- GetChainConfig ;; ret (AllowZeroFeeTxs cfg).

Definition hasAddressRequested address : M S bool :=
  faucet_get (fun st => bool_decide (is_Some (st !! address))).

Definition recordAddressRequested address (amount : Coins) (txHash : bytes) : M S unit :=
  match amount with
  | [] => panic
  | c :: _ => modify (fun s => lens_set (<[address := mkFaucetRequestRecord address c txHash]> (lens_get s : FaucetStore)) s)
  end.

Definition getRequestCount : M S Z := faucet_get (fun st => Z.of_nat (length (store_items st))).

(** ** The key *)

Definition getFaucetKey : M S (Keyring * (bytes + error)) :=
  cfg <- key_file ;;
  of_outcome (sum_outcome (keyring_NewAccount (KeyName cfg) (Mnemonic cfg))).

(** The keyring and the address of the faucet. *)
Definition faucetKey (missing : Z) : M S (Keyring * bytes) :=
  letp (kb, info) <- or_http missing getFaucetKey ;;
  faucetAddress <- or_http StatusInternalServerError (of_outcome (sum_outcome info)) ;;
  ret (kb, faucetAddress).

(** ** Transactions *)

(** A transaction with the message is built, signed with the key named faucet and
    broadcast. *)
Definition sendTx (kb : Keyring) (faucetAddress : bytes) (gas fees : Z) (msg : FaucetMsg) : M S TxResponse :=
  let chainID := if bool_decide (client_ChainID = []) then lit "vera-dev" else client_ChainID in
  zeroFee <- zeroFeeTxsAllowed ;;
  letp (number, sequence) <- or_http StatusInternalServerError (RetrieveAccount faucetAddress) ;;
  let txf := mkFactory chainID gas kb (if zeroFee : bool then None else Some fees) number sequence in
  txn <- or_http StatusInternalServerError (of_outcome (sum_outcome (BuildUnsignedTx txf msg))) ;;
  signed <- or_http StatusInternalServerError (of_outcome (sum_outcome (tx_Sign txf (lit "faucet") txn))) ;;
  txBytes <- or_http StatusInternalServerError (of_outcome (sum_outcome (TxEncoder signed))) ;;
  or_http StatusInternalServerError (BroadcastTxSync txBytes).

(** The body of the request, when it decodes. *)
Definition body {A} (req : option A) : M S A := of_option req (http_Error StatusBadRequest).

Definition parseAddress address : M S bytes :=
  or_http StatusBadRequest (of_outcome (sum_outcome (StringToBytes address))).

(** ** Handlers *)

(** An address that has not asked yet is paid, and recorded if the transaction is
    taken. *)
Definition payRequest address (accAddr : bytes) : M S FaucetResponse :=
  coins <- of_outcome (NewCoins (mkCoin DefaultBondDenom FaucetRequestAmount)) ;;
  letp (kb, faucetAddress) <- faucetKey StatusInternalServerError ;;
  res <- sendTx kb faucetAddress 200000 200 (FaucetSend faucetAddress accAddr coins) ;;
  when (tx_Code res =? 0) (recordAddressRequested address coins (tx_TxHash res)) ;;;
  ret (mkFaucetResponse res address (mkCoin DefaultBondDenom FaucetRequestAmount)).

Definition handleFaucetRequest (req : option bytes) : M S FaucetResponse :=
  address <- body req ;;
  accAddr <- parseAddress address ;;
  requested <- hasAddressRequested address ;;
  throw_if requested (http_Error StatusForbidden) ;;;
  payRequest address accAddr.

Definition handleFaucetInfo : M S FaucetInfoResponse :=
  letp (_, faucetAddress) <- faucetKey StatusNotFound ;;
  balance <- or_http StatusInternalServerError (bank_Balance faucetAddress DefaultBondDenom) ;;
  requestCount <- getRequestCount ;;
  ret (mkFaucetInfoResponse (BytesToString faucetAddress) balance (wrap32 requestCount)).

Definition handleInitAccount (req : option bytes) : M S InitAccountResponse :=
  address <- body req ;;
  accAddr <- parseAddress address ;;
  existingAccount <- attempt (RetrieveAccount accAddr) ;;
  match existingAccount with
  | inl _ => ret (AccountExists address)
  | inr _ =>
      letp (kb, faucetAddress) <- faucetKey StatusInternalServerError ;;
      coins <- of_outcome (NewCoins (mkCoin DefaultBondDenom 1)) ;;
      res <- sendTx kb faucetAddress 200000 200 (FaucetSend faucetAddress accAddr coins) ;;
      ret (AccountInitialized res address (mkCoin DefaultBondDenom 1))
  end.

(** The limit and the end of an allowance: those of the request, or the defaults. *)
Definition amountLimit (req : GrantRequest) : Coin :=
  match gr_LimitAmount req with
  | Some amount => if 0 <? amount then mkCoin (gr_LimitDenom req) amount else mkCoin DefaultBondDenom DefaultAllowanceAmount
  | None => mkCoin DefaultBondDenom DefaultAllowanceAmount
  end.

Definition faucetAllowance (req : GrantRequest) : M S (Allowance * Time) :=
  now <- time_Now ;;
  let expiration := default (AddDate_days now DefaultAllowanceExpirationDays) (gr_Expiration req) in
  spendLimit <- of_outcome (NewCoins (amountLimit req)) ;;
  ret (ABasic (mkBasic spendLimit (Some expiration)), expiration).

Definition packAllowance (a : Allowance) : outcome Any := if marshals a then Ok (mkAny a true) else Err (ErrMsg "pack any").

Definition NewMsgGrantAllowance (a : Allowance) (granter grantee : bytes) : outcome MsgGrantAllowance :=
  any ← packAllowance a; Ok (mkMsgGrantAllowance (BytesToString granter) (BytesToString grantee) any).
Definition NewMsgGrantDIDAllowance (a : Allowance) (granter granteeDID : bytes) : outcome MsgGrantDIDAllowance :=
  any ← packAllowance a; Ok (mkMsgGrantDIDAllowance (BytesToString granter) granteeDID any).

Definition handleGrantAllowance (req : option GrantRequest) : M S GrantResponse :=
  req <- body req ;;
  granteeAddr <- parseAddress (gr_Grantee req) ;;
  letp (kb, faucetAddress) <- faucetKey StatusInternalServerError ;;
  letp (allowance, expiration) <- faucetAllowance req ;;
  msg <- or_http StatusInternalServerError (of_outcome (NewMsgGrantAllowance allowance faucetAddress granteeAddr)) ;;
  res <- sendTx kb faucetAddress 300000 300 (FaucetGrant msg) ;;
  ret (mkGrantResponse res (BytesToString faucetAddress) (gr_Grantee req) (amountLimit req) expiration).

Definition handleGrantDIDAllowance (req : option GrantRequest) : M S GrantResponse :=
  req <- body req ;;
  throw_if (negb (bool_decide (take 4 (gr_Grantee req) = lit "did:"))) (http_Error StatusBadRequest) ;;;
  letp (kb, faucetAddress) <- faucetKey StatusInternalServerError ;;
  letp (allowance, expiration) <- faucetAllowance req ;;
  msg <- or_http StatusInternalServerError (of_outcome (NewMsgGrantDIDAllowance allowance faucetAddress (gr_Grantee req))) ;;
  res <- sendTx kb faucetAddress 300000 300 (FaucetGrantDID msg) ;;
  ret (mkGrantResponse res (BytesToString faucetAddress) (gr_Grantee req) (amountLimit req) expiration).
End faucet.

(** * Each address text is paid once *)

(** The node does not touch the store of the faucet. *)
Class FaucetFrame (S : Type) `{!Lens S FaucetStore, FaucetHost S} : Prop := {
  key_file_leaves : forall s : S, (lens_get (key_file s).2 : FaucetStore) = lens_get s;
  RetrieveAccount_leaves : forall a (s : S), (lens_get (RetrieveAccount a s).2 : FaucetStore) = lens_get s;
  BroadcastTxSync_leaves : forall bz (s : S), (lens_get (BroadcastTxSync bz s).2 : FaucetStore) = lens_get s;
  bank_Balance_leaves : forall a d (s : S), (lens_get (bank_Balance a d s).2 : FaucetStore) = lens_get s;
  time_Now_leaves : forall s : S, (lens_get (time_Now s).2 : FaucetStore) = lens_get s;
}.

Create HintDb leaves.

Section once.
Context `{CoinsOps, SdkKeys, AddressCodec}.
Context {S : Type} `{!Lens S FaucetStore, !LensLaws S FaucetStore, !Lens S CoreStore, FaucetHost S, !FaucetFrame S}.
Implicit Types (address : bytes) (s : S).
Abbreviation requests s := (lens_get s : FaucetStore).

(** A computation that writes no record, however it ends. *)
Definition leaves {A} (m : M S A) : Prop := forall s, requests (m s).2 = requests s.

Lemma leaves_ret {A} (a : A) : leaves (ret a).
Proof. done. Qed.
Lemma leaves_throw {A} e : leaves (throw (A := A) e).
Proof. done. Qed.
Lemma leaves_gets {A} (f : S -> A) : leaves (gets f).
Proof. done. Qed.
Lemma leaves_of_outcome {A} (o : outcome A) : leaves (of_outcome o).
Proof. done. Qed.
Lemma leaves_bind {A B} (m : M S A) (k : A -> M S B) : leaves m -> (forall a, leaves (k a)) -> leaves (bind m k).
Proof.
  intros Hm Hk s. specialize (Hm s). unfold bind. destruct (m s) as [[a|e|] s1]; cbn [snd] in *; [|done|done].
  by rewrite (Hk a s1).
Qed.
Lemma leaves_attempt {A} (m : M S A) : leaves m -> leaves (attempt m).
Proof. intros Hm s. specialize (Hm s). unfold attempt. by destruct (m s) as [[a|e|] s1]. Qed.
#[local] Hint Resolve leaves_ret leaves_throw leaves_gets leaves_of_outcome leaves_bind leaves_attempt : leaves.

Lemma leaves_or_http {A} status (m : M S A) : leaves m -> leaves (or_http status m).
Proof. intros Hm. unfold or_http. apply leaves_bind; [by apply leaves_attempt|]. intros [a|e]; auto with leaves. Qed.
#[local] Hint Resolve leaves_or_http : leaves.

Lemma leaves_faucetKey missing : leaves (faucetKey missing).
Proof.
  unfold faucetKey. apply leaves_bind.
  - apply leaves_or_http. unfold getFaucetKey. apply leaves_bind; [exact key_file_leaves|]. auto with leaves.
  - intros [kb info]. apply leaves_bind; auto with leaves.
Qed.

Lemma leaves_sendTx kb faucetAddress gas fees msg : leaves (sendTx kb faucetAddress gas fees msg).
Proof.
  unfold sendTx. cbv zeta. apply leaves_bind; [by apply leaves_bind|]. intros zeroFee.
  apply leaves_bind; [apply leaves_or_http; intros s; apply RetrieveAccount_leaves|]. intros [number sequence].
  do 3 (apply leaves_bind; [auto with leaves|intros ?]). apply leaves_or_http. intros s. apply BroadcastTxSync_leaves.
Qed.
#[local] Hint Resolve leaves_faucetKey leaves_sendTx : leaves.

Lemma leaves_body {A} (req : option A) : leaves (body req).
Proof. destruct req; done. Qed.

Lemma leaves_handleFaucetInfo : leaves handleFaucetInfo.
Proof.
  unfold handleFaucetInfo. apply leaves_bind; [auto with leaves|]. intros [kb addr].
  apply leaves_bind; [apply leaves_or_http; intros s; apply bank_Balance_leaves|]. intros balance.
  apply leaves_bind; [apply leaves_gets|auto with leaves].
Qed.

Lemma leaves_handleInitAccount req : leaves (handleInitAccount req).
Proof.
  unfold handleInitAccount, parseAddress. apply leaves_bind; [apply leaves_body|]. intros address.
  apply leaves_bind; [auto with leaves|]. intros accAddr.
  apply leaves_bind; [apply leaves_attempt; intros s; apply RetrieveAccount_leaves|]. intros [?|?]; [auto with leaves|].
  apply leaves_bind; [auto with leaves|]. intros [kb addr]. do 2 (apply leaves_bind; [auto with leaves|intros ?]). auto with leaves.
Qed.

Lemma leaves_faucetAllowance req : leaves (faucetAllowance req).
Proof. unfold faucetAllowance. apply leaves_bind; [exact time_Now_leaves|]. intros now. cbv zeta. apply leaves_bind; auto with leaves. Qed.

Lemma leaves_handleGrantAllowance req : leaves (handleGrantAllowance req).
Proof.
  unfold handleGrantAllowance, parseAddress. apply leaves_bind; [apply leaves_body|]. intros r.
  apply leaves_bind; [auto with leaves|]. intros grantee. apply leaves_bind; [auto with leaves|]. intros [kb addr].
  apply leaves_bind; [apply leaves_faucetAllowance|]. intros [al expiration].
  do 2 (apply leaves_bind; [auto with leaves|intros ?]). auto with leaves.
Qed.

Lemma leaves_handleGrantDIDAllowance req : leaves (handleGrantDIDAllowance req).
Proof.
  unfold handleGrantDIDAllowance. apply leaves_bind; [apply leaves_body|]. intros r.
  apply leaves_bind; [unfold throw_if; destruct (negb _); auto with leaves|]. intros [].
  apply leaves_bind; [auto with leaves|]. intros [kb addr].
  apply leaves_bind; [apply leaves_faucetAllowance|]. intros [al expiration].
  do 2 (apply leaves_bind; [auto with leaves|intros ?]). auto with leaves.
Qed.

(** A request for funds writes at most the record of its address, and does so when its
    transaction is taken. *)
Lemma payRequest_run address accAddr s :
  let '(r, s1) := payRequest address accAddr s in
  (requests s1 = requests s /\ (forall resp, r = Ok resp -> tx_Code (fr_Tx resp) <> 0)) \/
  exists rec, requests s1 = <[address := rec]> (requests s).
Proof.
  unfold payRequest. rewrite bind_run, of_outcome_run. destruct (NewCoins _) as [coins|e|] eqn:Hcoins; [|by left..].
  pose proof (leaves_faucetKey StatusInternalServerError s) as Hkey. rewrite bind_run.
  destruct (faucetKey StatusInternalServerError s) as [[[kb fa]|e|] s1]; [|by left..].
  pose proof (leaves_sendTx kb fa 200000 200 (FaucetSend fa accAddr coins) s1) as Hpay. rewrite bind_run.
  destruct (sendTx _ _ _ _ _ s1) as [[res|e|] s2]; cbn [snd] in Hkey, Hpay; rewrite Hkey in Hpay; [|by left..].
  unfold NewCoins in Hcoins. cbn in Hcoins. destruct (IsValid _); [|done]. injection Hcoins as <-.
  rewrite bind_run. unfold when. destruct (Z.eqb_spec (tx_Code res) 0) as [Hc|Hc].
  - right. eexists. cbn. by rewrite lens_get_set, Hpay.
  - left. split; [done|]. by intros resp [= <-].
Qed.

Lemma parseAddress_run address s : parseAddress address s =
  (match StringToBytes address with inl a => Ok a | inr _ => Err (http_Error StatusBadRequest) end, s).
Proof. unfold parseAddress, or_http, attempt, bind, of_outcome, sum_outcome. by destruct (StringToBytes address). Qed.

Lemma handleFaucetRequest_run address accAddr s : StringToBytes address = inl accAddr ->
  handleFaucetRequest (Some address) s =
    if bool_decide (is_Some (requests s !! address)) then (Err (http_Error StatusForbidden), s) else payRequest address accAddr s.
Proof.
  intros Ha. unfold handleFaucetRequest. cbn [body of_option]. erewrite bind_run_ok by done.
  rewrite bind_run, parseAddress_run, Ha. rewrite bind_run. cbn [hasAddressRequested faucet_get gets].
  rewrite bind_run. by destruct (bool_decide _).
Qed.

(** What happens at a node: requests to the faucet, and whatever else leaves its store
    alone. *)
Inductive faucet_run : S -> S -> Prop :=
  | fr_done s : faucet_run s s
  | fr_request req s s' : faucet_run (handleFaucetRequest req s).2 s' -> faucet_run s s'
  | fr_info s s' : faucet_run (handleFaucetInfo s).2 s' -> faucet_run s s'
  | fr_init req s s' : faucet_run (handleInitAccount req s).2 s' -> faucet_run s s'
  | fr_grant req s s' : faucet_run (handleGrantAllowance req s).2 s' -> faucet_run s s'
  | fr_grant_did req s s' : faucet_run (handleGrantDIDAllowance req s).2 s' -> faucet_run s s'
  | fr_other s s1 s' : requests s1 = requests s -> faucet_run s1 s' -> faucet_run s s'.

Lemma handleFaucetRequest_keeps req s address : is_Some (requests s !! address) ->
  is_Some (requests (handleFaucetRequest req s).2 !! address).
Proof.
  intros Hs. destruct req as [a|]; [|done]. destruct (StringToBytes a) as [acc|e] eqn:Ea.
  - rewrite (handleFaucetRequest_run a acc s Ea). destruct (bool_decide _); [done|].
    pose proof (payRequest_run a acc s) as Hp. destruct (payRequest a acc s) as [r s1]. cbn [snd].
    destruct Hp as [[-> _]|[rec ->]]; [done|]. destruct (decide (a = address)) as [->|Hne]; [by rewrite lookup_insert_eq|].
    by rewrite lookup_insert_ne.
  - unfold handleFaucetRequest. cbn [body of_option]. erewrite bind_run_ok by done. rewrite bind_run, parseAddress_run, Ea. done.
Qed.

Lemma recorded_stays address s s' : faucet_run s s' -> is_Some (requests s !! address) -> is_Some (requests s' !! address).
Proof.
  intros Hr. induction Hr as [s|req s s' _ IH|s s' _ IH|req s s' _ IH|req s s' _ IH|req s s' _ IH|s s1 s' Heq _ IH]; intros Hs; [done|..]; apply IH.
  - by apply handleFaucetRequest_keeps.
  - by rewrite leaves_handleFaucetInfo.
  - by rewrite leaves_handleInitAccount.
  - by rewrite leaves_handleGrantAllowance.
  - by rewrite leaves_handleGrantDIDAllowance.
  - by rewrite Heq.
Qed.

(** C37: an address text is paid once. After a request whose transaction was taken, every
    later request with the same text is refused, whatever was asked of the
    faucet in between, and nothing is sent. *)
Theorem faucet_pays_once address s resp s1 s2 :
  handleFaucetRequest (Some address) s = (Ok resp, s1) -> tx_Code (fr_Tx resp) = 0 -> faucet_run s1 s2 ->
  handleFaucetRequest (Some address) s2 = (Err (http_Error StatusForbidden), s2).
Proof.
  intros Hh Hc Hr. destruct (StringToBytes address) as [acc|e] eqn:Ea.
  - rewrite (handleFaucetRequest_run address acc s Ea) in Hh. destruct (bool_decide _); [done|].
    pose proof (payRequest_run address acc s) as Hp. rewrite Hh in Hp. destruct Hp as [[_ Hn]|[rec Hrec]]; [by destruct (Hn resp)|].
    rewrite (handleFaucetRequest_run address acc s2 Ea). rewrite bool_decide_eq_true_2; [done|].
    apply (recorded_stays address s1 s2 Hr). rewrite Hrec, lookup_insert_eq. by eexists.
  - unfold handleFaucetRequest in Hh. cbn [body of_option] in Hh. erewrite bind_run_ok in Hh by done.
    rewrite bind_run, parseAddress_run, Ea in Hh. done.
Qed.

(** But an account has several texts. A request with another text of an account that was
    paid goes through like the first one of a new account. *)
Theorem faucet_pays_account_again text1 text2 acc s :
  StringToBytes text1 = inl acc -> StringToBytes text2 = inl acc ->
  is_Some (requests s !! text1) -> requests s !! text2 = None ->
  handleFaucetRequest (Some text1) s = (Err (http_Error StatusForbidden), s) /\
  handleFaucetRequest (Some text2) s = payRequest text2 acc s.
Proof.
  intros H1' H2' Hs Hn. rewrite (handleFaucetRequest_run _ _ _ H1'), (handleFaucetRequest_run _ _ _ H2').
  rewrite bool_decide_eq_true_2 by done. rewrite bool_decide_eq_false_2; [done|]. rewrite Hn. by intros [? [=]].
Qed.
End once.

(** * A concrete node *)

(** Addresses are written as hexadecimal digits, of which upper and lower case are
    read. *)
#[local, refine] Instance hex_codec : AddressCodec := {|
  StringToBytes t :=
    match hex_decode t with
    | Some a => if decide (0 < length a <= 255)%nat then inl a else inr (ErrMsg "length")
    | None => inr (ErrMsg "hex")
    end;
  BytesToString a := hex_encode a;
|}.
Proof.
  - intros t a. destruct (hex_decode t); [|done]. case_decide; [|done]. by intros [= <-].
  - intros a Ha. by rewrite hex_decode_encode, decide_True.
Defined.

(** The receivers of the coins that were sent. *)
Record FaucetWorld : Type := mkFaucetWorld { fw_requests : FaucetStore; fw_core : CoreStore; fw_sent : list bytes }.

#[local] Instance fw_requests_lens : Lens FaucetWorld FaucetStore :=
  {| lens_get := fw_requests; lens_set r w := mkFaucetWorld r (fw_core w) (fw_sent w) |}.
#[local] Instance fw_requests_laws : LensLaws FaucetWorld FaucetStore.
Proof. by split. Qed.
#[local] Instance fw_core_lens : Lens FaucetWorld CoreStore :=
  {| lens_get := fw_core; lens_set c w := mkFaucetWorld (fw_requests w) c (fw_sent w) |}.

#[local] Instance faucet_host : FaucetHost FaucetWorld := {|
  Keyring := bytes;
  UnsignedTx := FaucetMsg;
  SignedTx := FaucetMsg;
  key_file := ret (mkFaucetKeyConfig (lit "words") (lit "faucet") []);
  keyring_NewAccount name _ := inl (name, inl (lit "F"));
  client_ChainID := [];
  RetrieveAccount _ := ret (1, 0);
  BuildUnsignedTx _ msg := inl msg;
  tx_Sign txf name tx := if decide (name = tf_Keybase _ txf) then inl tx else inr (ErrMsg "key not found");
  TxEncoder tx := match tx with FaucetSend _ to _ => inl to | _ => inr (ErrMsg "encode") end;
  BroadcastTxSync bz := fun w => (Ok (mkTxResponse bz 0 []), mkFaucetWorld (fw_requests w) (fw_core w) (fw_sent w ++ [bz]));
  bank_Balance _ denom := ret (mkCoin denom 0);
  time_Now := ret 0;
  AddDate_days t d := t + d * 86400000000000;
|}.

#[local] Instance faucet_host_frame : FaucetFrame FaucetWorld.
Proof. by split. Qed.

Definition fresh_node : FaucetWorld := mkFaucetWorld ∅ empty_core [].
Definition paid_node : FaucetWorld := (handleFaucetRequest (Some (lit "0a")) fresh_node).2.

Lemma faucet_pays_once_witness :
  is_ok (handleFaucetRequest (Some (lit "0a")) fresh_node).1 = true /\
  handleFaucetRequest (Some (lit "0a")) paid_node = (Err (http_Error StatusForbidden), paid_node).
Proof.
  assert (Hok : exists resp, handleFaucetRequest (Some (lit "0a")) fresh_node = (Ok resp, paid_node) /\ tx_Code (fr_Tx resp) = 0)
    by (eexists; split; [vm_compute; reflexivity|reflexivity]).
  destruct Hok as (resp & Hr & Hc). split; [by rewrite Hr|].
  exact (faucet_pays_once (lit "0a") fresh_node resp paid_node paid_node Hr Hc (fr_done paid_node)).
Defined.

(** The account is paid again under its text in upper case. *)
Lemma faucet_pays_account_again_witness :
  fw_sent (handleFaucetRequest (Some (lit "0A")) paid_node).2 = [[byte_of_Z 10]; [byte_of_Z 10]].
Proof.
  destruct (faucet_pays_account_again (lit "0a") (lit "0A") [byte_of_Z 10] paid_node) as [_ H2'];
    [vm_compute; reflexivity|vm_compute; reflexivity|vm_compute; by eexists|vm_compute; reflexivity|].
  rewrite H2'. vm_compute. reflexivity.
Defined.
