(* ===== verification/Lanes.v ===== *)
(** The order of the mempool (src/app/lanes/priority_lane.go).

    The priority of a transaction is a text: the group of its messages, a colon
    and its gas price in a fixed width, and priorities are compared as texts. The
    theorem: this is the order by group first and gas price second, where the
    group is that of the least of the messages, as long as prices stay below
    10^14. *)
From Stdlib Require Import Ascii ZArith Lia.
From stdpp Require Import base numbers list strings.
From S2P Require Import Prelude Sdk Utils Ante.

(** * Decimal texts *)

(** [LegacyDec.String] of the math library and [Coins.AmountOf] of the SDK: all 18
    places of a decimal are printed, and the amount of a set of coins is that of
    its coin of the denomination. *)
Class DecText `{CoinsOps} : Type := {
  dec_String : Z -> bytes;
  Coins_AmountOf : Coins -> string -> Z;
  dec_String_spec : forall d, 0 <= d ->
    dec_String d = show_nat (d / precision) ++ lit "." ++ digits 18 (d mod precision);
  Coins_AmountOf_spec : forall cs d, IsValid cs = true -> Coins_AmountOf cs d = coins_amount d cs;
}.

#[export, refine] Instance dec_text_impl : DecText := {|
  dec_String d :=
    (if d <? 0 then lit "-" else []) ++ show_nat (Z.abs d / precision) ++ lit "." ++ digits 18 (Z.abs d mod precision);
  Coins_AmountOf cs d := coins_amount d cs;
|}.
Proof.
  - intros d Hd. destruct (Z.ltb_spec d 0); [lia|]. by rewrite Z.abs_eq.
  - done.
Defined.

(** * Priorities *)

(** The byte that [fmt.Sprintf] fills the width of a string with when the format
    asks for zeros: a zero, or a blank in the releases of Go that ignore the flag
    for strings. *)
Class PadByte : Type := {
  pad_byte : ascii;
  pad_byte_spec : pad_byte = "0"%char \/ pad_byte = " "%char;
}.

#[export] Instance pad_zero : PadByte := {| pad_byte := "0"%char; pad_byte_spec := or_introl eq_refl |}.

(** [%032s] *)
Definition sprintf_032s `{PadByte} (s : bytes) : bytes := replicate (32 - length s) pad_byte ++ s.

Section lanes.
Context `{LegacyDecOps, CoinsOps, !DecText, PadByte}.

(** The loop of [getPriorityGroup]. *)
Fixpoint priorityLoop (minPriority : bytes) (msgs : list Msg) : bytes :=
  match msgs with
  | [] => minPriority
  | msg :: rest =>
      let reduce (p : bytes) := if negb (bytes_leb minPriority p) then p else minPriority in
      let msgType := msg_type msg in
      if HasPrefix msgType (lit "/vera.acp.") then priorityLoop minPriority rest
      else if HasPrefix msgType (lit "/vera.tier.") then priorityLoop (reduce (lit "2")) rest
      else if HasPrefix msgType (lit "/vera.orbis.") then priorityLoop (reduce (lit "1")) rest
      else if HasPrefix msgType (lit "/vera.bulletin.") then priorityLoop (reduce (lit "1")) rest
      else if HasPrefix msgType (lit "/vera.orbis.") then priorityLoop (reduce (lit "1")) rest
      else lit "0"
  end.

Definition getPriorityGroup (tx : Tx) : bytes :=
  match GetMsgs tx with [] => lit "0" | msgs => priorityLoop (lit "3") msgs end.

(** Division by zero panics. *)
Definition getGasPrice (tx : Tx) : outcome Z :=
  match as_FeeTx tx with
  | None => Ok 0
  | Some feeTx =>
      if (GetGas feeTx =? 0) || bool_decide (GetFee feeTx = []) then Ok 0
      else
        let gas := dec_of_int (wrap64 (GetGas feeTx)) in
        if gas =? 0 then Panic
        else Ok (dec_quo (dec_of_int (Coins_AmountOf (GetFee feeTx) DefaultBondDenom)) gas)
  end.

Definition formatGasPrice (gasPrice : Z) : bytes :=
  let gasPriceStr := filter (fun c => c <> "."%char) (dec_String gasPrice) in
  let gasPriceStr := if (32 <? Z.of_nat (length gasPriceStr)) then take 32 gasPriceStr else gasPriceStr in
  sprintf_032s gasPriceStr.

Definition GetTxPriority (tx : Tx) : outcome bytes :=
  let priorityGroup := getPriorityGroup tx in
  gasPrice ← getGasPrice tx;
  Ok (priorityGroup ++ lit ":" ++ formatGasPrice gasPrice).

Definition Compare (a b : bytes) : Z :=
  if negb (bytes_leb a b) then 1 else if negb (bytes_leb b a) then -1 else 0.

(** ** The order they stand for *)

Definition rank (msg : Msg) : Z :=
  let t := msg_type msg in
  if HasPrefix t (lit "/vera.acp.") then 3
  else if HasPrefix t (lit "/vera.tier.") then 2
  else if HasPrefix t (lit "/vera.orbis.") || HasPrefix t (lit "/vera.bulletin.") then 1
  else 0.

(** The least rank of the messages. *)
Definition group_rank (tx : Tx) : Z :=
  match GetMsgs tx with [] => 0 | msgs => foldr Z.min 3 (rank <$> msgs) end.

Lemma rank_range msg : 0 <= rank msg <= 3.
Proof. unfold rank. repeat case_match; lia. Qed.

Lemma least_rank_range msgs : 0 <= foldr Z.min 3 (rank <$> msgs) <= 3.
Proof.
  induction msgs as [|m msgs IH]; [simpl; lia|]. rewrite fmap_cons. cbn [foldr].
  pose proof (rank_range m). lia.
Qed.

(** ** Prices *)

(** How many digits a price has without its point: at least 19. *)
Definition price_width (d : Z) : nat := (digit_count (Z.to_nat (Z.log2 (d / precision))) (d / precision) + 18)%nat.

Lemma price_split d : 0 <= d -> 0 <= d / precision /\ 0 <= d mod precision < precision /\
  d = d / precision * precision + d mod precision.
Proof.
  intros Hd. pose proof (Z.div_mod d precision ltac:(done)). pose proof (Z.mod_pos_bound d precision ltac:(done)).
  split_and!; [by apply Z.div_pos|lia|lia|lia].
Qed.

Lemma price_width_spec d : 0 <= d -> (19 <= price_width d)%nat /\ d < 10 ^ Z.of_nat (price_width d) /\
  (price_width d = 19%nat \/ 10 ^ Z.of_nat (price_width d - 1) <= d).
Proof.
  intros Hd. destruct (price_split d Hd) as (Hq & Hr & Heq).
  destruct (show_count (d / precision) Hq) as (C1 & C2 & C3). unfold price_width.
  set (n := digit_count _ _) in *. split; [lia|].
  rewrite Nat2Z.inj_add, Z.pow_add_r by lia. change (10 ^ Z.of_nat 18) with precision. split; [nia|].
  destruct C3 as [C3|C3]; [left; lia|right].
  replace (n + 18 - 1)%nat with (n - 1 + 18)%nat by lia.
  rewrite Nat2Z.inj_add, Z.pow_add_r by lia. change (10 ^ Z.of_nat 18) with precision. nia.
Qed.

Lemma price_width_32 d : 0 <= d < 10 ^ 32 -> (price_width d <= 32)%nat.
Proof.
  intros Hd. destruct (price_width_spec d) as (_ & _ & [->|Hw]); [lia|lia|].
  destruct (Nat.le_gt_cases (price_width d) 32) as [|Hgt]; [done|].
  assert (10 ^ 32 <= 10 ^ Z.of_nat (price_width d - 1)) by (apply Z.pow_le_mono_r; lia). lia.
Qed.

Lemma formatGasPrice_digits d : 0 <= d < 10 ^ 32 ->
  formatGasPrice d = replicate (32 - price_width d) pad_byte ++ digits (price_width d) d.
Proof.
  intros Hd. destruct (price_split d) as (Hq & Hr & Heq); [lia|].
  destruct (show_count (d / precision) Hq) as (_ & C2 & _). pose proof (price_width_32 d Hd) as Hw.
  assert (Htxt : filter (fun c => c <> "."%char) (dec_String d) = digits (price_width d) d).
  { rewrite dec_String_spec by lia. unfold show_nat. rewrite !filter_app.
    rewrite !filter_digits; [|done|lia]. change (filter _ (lit ".")) with (@nil ascii). rewrite app_nil_l.
    unfold price_width. rewrite digits_app; [|lia|done]. change (10 ^ Z.of_nat 18) with precision. by rewrite <- Heq. }
  unfold formatGasPrice. cbv zeta. rewrite Htxt, digits_length.
  destruct (Z.ltb_spec 32 (Z.of_nat (price_width d))); [lia|]. unfold sprintf_032s. by rewrite digits_length.
Qed.

Lemma formatGasPrice_length d : 0 <= d < 10 ^ 32 -> length (formatGasPrice d) = 32%nat.
Proof.
  intros Hd. pose proof (price_width_32 d Hd). rewrite formatGasPrice_digits by done.
  rewrite length_app, length_replicate, digits_length. lia.
Qed.

Lemma pad_lt : Z_of_byte pad_byte < 49.
Proof. by destruct pad_byte_spec as [->| ->]. Qed.

(** A narrower price is padded where the wider one has its first digit. *)
Lemma narrower_price a b : 0 <= a < 10 ^ 32 -> 0 <= b < 10 ^ 32 -> (price_width a < price_width b)%nat ->
  bytes_leb (formatGasPrice a) (formatGasPrice b) = true /\
  bytes_leb (formatGasPrice b) (formatGasPrice a) = false /\ a < b.
Proof.
  intros Ha Hb Hw. pose proof (price_width_32 b Hb) as Hwb. rewrite !formatGasPrice_digits by done.
  destruct (price_width_spec a) as (W1 & W2 & _); [lia|].
  destruct (price_width_spec b) as (_ & V2 & [V3|V3]); [lia|lia|].
  set (wa := price_width a) in *. set (wb := price_width b) in *.
  replace (32 - wa)%nat with (32 - wb + (wb - wa))%nat by lia. rewrite replicate_add, <- app_assoc, !bytes_leb_app.
  destruct (wb - wa)%nat as [|k] eqn:Ek; [lia|]. destruct wb as [|n]; [lia|].
  destruct (top_digit n b) as [Hd _]; [lia|]. cbn [replicate digits app bytes_leb].
  replace (S n - 1)%nat with n in V3 by lia.
  assert (1 <= b / 10 ^ Z.of_nat n) by (apply Z.div_le_lower_bound; lia).
  rewrite Z_of_digit by done. pose proof pad_lt.
  destruct (Z.ltb_spec (Z_of_byte pad_byte) (48 + b / 10 ^ Z.of_nat n)); [|lia].
  destruct (Z.ltb_spec (48 + b / 10 ^ Z.of_nat n) (Z_of_byte pad_byte)); [lia|].
  split_and!; [done|done|]. assert (10 ^ Z.of_nat wa <= 10 ^ Z.of_nat n) by (apply Z.pow_le_mono_r; lia). lia.
Qed.

Lemma formatGasPrice_leb a b : 0 <= a < 10 ^ 32 -> 0 <= b < 10 ^ 32 ->
  bytes_leb (formatGasPrice a) (formatGasPrice b) = (a <=? b).
Proof.
  intros Ha Hb. destruct (lt_eq_lt_dec (price_width a) (price_width b)) as [[Hlt|Heq]|Hgt].
  - destruct (narrower_price a b Ha Hb Hlt) as (-> & _ & ?). symmetry. apply Z.leb_le. lia.
  - rewrite !formatGasPrice_digits by done. rewrite Heq, bytes_leb_app.
    apply digits_leb; [rewrite <- Heq|]; (split; [lia|apply price_width_spec; lia]).
  - destruct (narrower_price b a Hb Ha Hgt) as (_ & -> & ?). symmetry. apply Z.leb_gt. lia.
Qed.

(** ** Groups *)

Lemma priorityLoop_rank msgs : forall p, 0 <= p <= 3 ->
  priorityLoop [digit p] msgs = [digit (foldr Z.min p (rank <$> msgs))].
Proof.
  assert (Hred : forall p q, 0 <= p <= 3 -> 0 <= q <= 3 ->
    (if negb (bytes_leb [digit p] [digit q]) then [digit q] else [digit p]) = [digit (Z.min p q)]).
  { intros p q Hp Hq. cbn [bytes_leb]. rewrite !Z_of_digit by lia.
    destruct (Z.ltb_spec (48 + p) (48 + q)); simpl; [by rewrite Z.min_l by lia|].
    destruct (Z.ltb_spec (48 + q) (48 + p)); simpl; [by rewrite Z.min_r by lia|by rewrite Z.min_l by lia]. }
  assert (Hmin : forall l p q, foldr Z.min (Z.min p q) l = Z.min q (foldr Z.min p l)).
  { induction l as [|x l IH]; intros p q; simpl; [lia|]. rewrite IH. lia. }
  induction msgs as [|m msgs IH]; intros p Hp; [done|]. rewrite fmap_cons. cbn [foldr priorityLoop].
  pose proof (least_rank_range msgs) as Hrange. unfold rank at 1.
  change (lit "2") with [digit 2]. change (lit "1") with [digit 1]. rewrite !Hred by lia.
  assert (Hp3 : foldr Z.min p (rank <$> msgs) <= p).
  { clear. induction (rank <$> msgs); simpl; lia. }
  assert (Hp0 : 0 <= foldr Z.min p (rank <$> msgs)).
  { clear - Hp. induction msgs as [|x l IHl]; [simpl; lia|]. rewrite fmap_cons. cbn [foldr].
    pose proof (rank_range x). lia. }
  destruct (HasPrefix _ (lit "/vera.acp.")); [rewrite IH by done; by rewrite Z.min_r by lia|].
  destruct (HasPrefix _ (lit "/vera.tier.")); [rewrite IH by lia; by rewrite Hmin|].
  destruct (HasPrefix _ (lit "/vera.orbis.")); [rewrite IH by lia; by rewrite Hmin|].
  destruct (HasPrefix _ (lit "/vera.bulletin.")); simpl; [rewrite IH by lia; by rewrite Hmin|].
  by rewrite Z.min_l by lia.
Qed.

Lemma getPriorityGroup_rank tx : getPriorityGroup tx = [digit (group_rank tx)] /\ 0 <= group_rank tx <= 3.
Proof.
  unfold getPriorityGroup, group_rank. destruct (GetMsgs tx) as [|m msgs]; [done|].
  split; [|apply least_rank_range]. by apply (priorityLoop_rank (m :: msgs) 3).
Qed.

(** Comparing the texts of two priorities compares the transactions by group
    first and by gas price second. The group is that of the least message: acp
    before tier before orbis and bulletin, and no group for a transaction with any
    other message, so that mixing in a message of a better group gains nothing.
    The price counts in uopen, and must be below 10^14. *)
Theorem priority_order tx1 tx2 p1 p2 :
  getGasPrice tx1 = Ok p1 -> getGasPrice tx2 = Ok p2 -> 0 <= p1 < 10 ^ 32 -> 0 <= p2 < 10 ^ 32 ->
  exists t1 t2, GetTxPriority tx1 = Ok t1 /\ GetTxPriority tx2 = Ok t2 /\
    Compare t1 t2 =
      match group_rank tx1 ?= group_rank tx2 with
      | Gt => 1
      | Lt => -1
      | Eq => match p1 ?= p2 with Gt => 1 | Lt => -1 | Eq => 0 end
      end.
Proof.
  intros E1 E2 Hp1 Hp2. unfold GetTxPriority. rewrite E1, E2. eexists _, _. split; [reflexivity|].
  split; [reflexivity|]. destruct (getPriorityGroup_rank tx1) as [-> R1], (getPriorityGroup_rank tx2) as [-> R2].
  assert (Hleb : forall a b x y, 0 <= a <= 3 -> 0 <= b <= 3 -> bytes_leb ([digit a] ++ lit ":" ++ x) ([digit b] ++ lit ":" ++ y)
    = match a ?= b with Lt => true | Gt => false | Eq => bytes_leb x y end).
  { intros a b x y Ha Hb. cbn [bytes_leb app lit String.list_ascii_of_string]. rewrite !Z_of_digit by lia.
    destruct (Z.compare_spec a b); destruct (Z.ltb_spec (48 + a) (48 + b)); destruct (Z.ltb_spec (48 + b) (48 + a)); try lia; done. }
  unfold Compare. rewrite !Hleb, !formatGasPrice_leb, (Z.compare_antisym (group_rank tx1)) by done.
  destruct (group_rank tx1 ?= group_rank tx2); simpl; try done.
  destruct (Z.compare_spec p1 p2); destruct (Z.leb_spec p1 p2), (Z.leb_spec p2 p1); simpl; lia.
Qed.
End lanes.

(** An acp transaction before a tier transaction that pays more. *)
Definition lane_demo (url : string) (fee : Z) : Tx :=
  mkTx [mkMsg (lit url) None] (Some (mkFeeTx [mkCoin "uopen" fee] 10000 (lit "bob") None)) None None.

Lemma priority_order_witness :
  exists t1 t2, GetTxPriority (lane_demo "/vera.acp.MsgCheckAccess" 5000) = Ok t1 /\
    GetTxPriority (lane_demo "/vera.tier.MsgLock" 10000) = Ok t2 /\ Compare t1 t2 = 1.
Proof.
  assert (P1 : getGasPrice (lane_demo "/vera.acp.MsgCheckAccess" 5000) = Ok (5 * 10 ^ 17)) by (vm_compute; reflexivity).
  assert (P2 : getGasPrice (lane_demo "/vera.tier.MsgLock" 10000) = Ok (10 ^ 18)) by (vm_compute; reflexivity).
  destruct (priority_order _ _ _ _ P1 P2) as (t1 & t2 & T1 & T2 & Hc); [lia|lia|].
  exists t1, t2. split; [exact T1|]. split; [exact T2|]. rewrite Hc. vm_compute. reflexivity.
Defined.
