(* ===== verification/Mint.v ===== *)
(** The inflation query and the genesis of the mint module (src/app/mint.go).

    The chain reports the inflation that reaches delegators: the minter's rate
    times the share of the bonded stake that is not locked through the tier
    module, fees aside. The theorem bounds what it reports and says when it falls
    back to the minter's own rate. *)
From Stdlib Require Import Ascii ZArith Lia.
From stdpp Require Import base numbers list gmap strings.
From S2P Require Import Prelude Sdk Epochs FeeAllowance TierTypes TierState TierInv.

(** The minter and parameters of the mint keeper, and the staking keeper's total. *)
Record Minter : Type := mkMinter { Inflation_rate : Z; AnnualProvisions : Z }.

Record MintParams : Type := mkMintParams {
  MintDenom : string;
  mp_InflationRateChange : Z;
  mp_InflationMax : Z;
  mp_InflationMin : Z;
  mp_GoalBonded : Z;
  mp_BlocksPerYear : Z;
}.

(** [DefaultInitialMinter] and [DefaultParams] are values of the SDK. *)
Class MintKeeper (W : Type) : Type := {
  TotalBondedTokens : W -> Z + error;
  Minter_Get : W -> Minter + error;
  Minter_Set : Minter -> M W unit;
  MintParams_Set : MintParams -> M W unit;
  DefaultInitialMinter : Minter;
  DefaultMintParams : MintParams;
}.

Section mint.
Context `{LegacyDecOps}.
Context {W : Type} `{MintKeeper W}.
Abbreviation TM := (M (TierState W)).

(** [QuoRaw] truncates. [SafeSub] fails beyond 256 bits only. *)
Definition getDelegatorStakeRatio : TM Z :=
  total <- from_world TotalBondedTokens ;;
  totalStake <- TierState.of_sum total ;;
  devStake <- GetTotalLockupsAmount ;;
  params <- GetParams ;;
  let totalFees := wrap64 (DeveloperPoolFee params + InsurancePoolFee params) in
  let devStakeMinusFees := Z.quot (devStake * wrap64 (100 - totalFees)) 100 in
  let delStake := totalStake - devStakeMinusFees in
  throw_if (negb (0 <? totalStake) || negb (0 <? delStake)) (ErrMsg "non-positive totalStake/delStake") ;;;
  Quo (dec_of_int delStake) (dec_of_int totalStake).

Definition Inflation : TM Z :=
  m <- from_world Minter_Get ;;
  minter <- TierState.of_sum m ;;
  r <- attempt getDelegatorStakeRatio ;;
  match r with
  | inr _ => ret (Inflation_rate minter)
  | inl delStakeRatio => ret (dec_mul (Inflation_rate minter) delStakeRatio)
  end.

(** The genesis data handed to it is not looked at. *)
Definition mint_InitGenesis : TM unit :=
  let minter := mkMinter InitialInflation (AnnualProvisions (DefaultInitialMinter (W := W))) in
  let params := mkMintParams DefaultBondDenom InflationRateChange InflationMax InflationMin
    (mp_GoalBonded (DefaultMintParams (W := W))) BlocksPerYear in
  r <- attempt (on_world (Minter_Set minter)) ;;
  panic_if (match r with inr _ => true | inl _ => false end) ;;;
  r <- attempt (on_world (MintParams_Set params)) ;;
  panic_if (match r with inr _ => true | inl _ => false end).

(** The stake of the tier module's users, after the fees. *)
Definition dev_stake (s : TierState W) : Z :=
  let p := default Params_zero (st_params s) in
  lockup_sum (st_lockups s) * (100 - (DeveloperPoolFee p + InsurancePoolFee p)) / 100.

Lemma stake_ratio_run s T : tier_inv s ->
  0 <= DeveloperPoolFee (default Params_zero (st_params s)) ->
  0 <= InsurancePoolFee (default Params_zero (st_params s)) ->
  DeveloperPoolFee (default Params_zero (st_params s)) + InsurancePoolFee (default Params_zero (st_params s)) <= 100 ->
  TotalBondedTokens (st_world s) = inl T ->
  getDelegatorStakeRatio s =
    (if (0 <? T) && (dev_stake s <? T) then Ok (dec_quo (dec_of_int (T - dev_stake s)) (dec_of_int T))
     else Err (ErrMsg "non-positive totalStake/delStake"), s).
Proof.
  intros Hi Hd Hip Hsum HT. unfold getDelegatorStakeRatio. erewrite bind_run_ok by done.
  erewrite bind_run_ok by (rewrite HT; done). erewrite bind_run_ok by done. erewrite bind_run_ok by done.
  cbv zeta. rewrite (inv_total _ Hi). unfold dev_stake. set (p := default Params_zero (st_params s)) in *.
  assert (Hw : forall z, 0 <= z <= 100 -> wrap64 z = z)
    by (intros z Hz; apply wrap64_small, is_int64_spec; unfold int64_min, int64_max; lia).
  rewrite (Hw (DeveloperPoolFee p + InsurancePoolFee p)), Hw by lia.
  assert (Hpos : 0 <= lockup_sum (st_lockups s)).
  { rewrite <- (inv_total _ Hi). unfold nonneg_or_zero. repeat case_match; lia. }
  rewrite Z.quot_div_nonneg by nia. set (D := _ / 100).
  destruct (Z.ltb_spec 0 T); simpl; [|done].
  destruct (Z.ltb_spec 0 (T - D)), (Z.ltb_spec D T); simpl; try lia; [|done].
  unfold bind, throw_if, ret, Quo.
  destruct (Z.eqb_spec (dec_of_int T) 0) as [Hz|]; [unfold dec_of_int, precision in Hz; lia|done].
Qed.

(** The rounding of the ratio and of the product. *)
Lemma ratio_rounding P T D q : 4 <= P -> 0 <= D < T ->
  2 * Z.abs (q * (T * P) * P - (T - D) * P * P * P) <= (P + 2) * Z.abs (T * P) ->
  0 <= q <= P /\ Z.abs (q * T - (T - D) * P) <= T.
Proof.
  intros HP HD Hq. rewrite (Z.abs_eq (T * P)) in Hq by nia.
  replace (q * (T * P) * P - (T - D) * P * P * P) with ((q * T - (T - D) * P) * (P * P)) in Hq by ring.
  rewrite Z.abs_mul, (Z.abs_eq (P * P)) in Hq by nia. set (x := q * T - (T - D) * P) in *.
  assert (Hx : 2 * P * Z.abs x <= (P + 2) * T).
  { apply (Z.mul_le_mono_pos_r _ _ P); [lia|]. nia. }
  assert (Hx4 : 4 * Z.abs x <= 3 * T).
  { apply (Z.mul_le_mono_pos_r _ _ P); [lia|]. nia. }
  split; [|lia]. unfold x in *. split.
  - destruct (Z.le_gt_cases 0 q) as [|Hneg]; [done|]. assert (q * T <= - T) by nia. nia.
  - destruct (Z.le_gt_cases q P) as [|Hgt]; [done|]. assert ((P + 1) * T <= q * T) by nia. nia.
Qed.

Lemma product_rounding P T D q m r : 4 <= P -> 0 < T -> 0 <= q <= P -> 0 <= m <= P ->
  Z.abs (q * T - (T - D) * P) <= T -> 2 * Z.abs (r * P - m * q) <= P ->
  0 <= r <= m /\ Z.abs (r * T - m * (T - D)) <= 2 * T.
Proof.
  intros HP HT Hq Hm Hx Hr. assert (Hmq : 0 <= m * q <= m * P) by nia. split.
  - split.
    + destruct (Z.le_gt_cases 0 r); [done|]. assert (r * P <= - P) by nia. lia.
    + destruct (Z.le_gt_cases r m); [done|]. assert ((m + 1) * P <= r * P) by nia. lia.
  - apply (Z.mul_le_mono_pos_r _ _ P); [lia|].
    rewrite <- (Z.abs_eq P) at 1 by lia. rewrite <- Z.abs_mul.
    replace ((r * T - m * (T - D)) * P) with ((r * P - m * q) * T + m * (q * T - (T - D) * P)) by ring.
    pose proof (Z.abs_triangle ((r * P - m * q) * T) (m * (q * T - (T - D) * P))) as Ht.
    rewrite !Z.abs_mul, (Z.abs_eq T), (Z.abs_eq m) in Ht by lia.
    assert (Z.abs (r * P - m * q) * T <= P * T) by nia.
    assert (m * Z.abs (q * T - (T - D) * P) <= P * T) by nia. lia.
Qed.

(** In every consistent state with valid fees the inflation query answers,
    without changing anything. While the tier module's stake after fees is below
    the bonded stake, the answer lies between zero and the minter's rate, and is
    the rate times the delegators' share of the stake up to rounding. From there
    on it is the minter's rate itself. *)
Theorem inflation_bounded s T minter : tier_inv s ->
  0 <= DeveloperPoolFee (default Params_zero (st_params s)) ->
  0 <= InsurancePoolFee (default Params_zero (st_params s)) ->
  DeveloperPoolFee (default Params_zero (st_params s)) + InsurancePoolFee (default Params_zero (st_params s)) <= 100 ->
  TotalBondedTokens (st_world s) = inl T -> Minter_Get (st_world s) = inl minter ->
  0 <= Inflation_rate minter <= precision -> 0 < T ->
  exists r, Inflation s = (Ok r, s) /\ 0 <= r <= Inflation_rate minter /\
    (dev_stake s < T -> Z.abs (r * T - Inflation_rate minter * (T - dev_stake s)) <= 2 * T) /\
    (T <= dev_stake s -> r = Inflation_rate minter).
Proof.
  intros Hi Hd Hip Hsum HT HM Hrate Hpos. unfold Inflation. erewrite bind_run_ok by done.
  erewrite bind_run_ok by (rewrite HM; done).
  pose proof (stake_ratio_run s T Hi Hd Hip Hsum HT) as Hrun.
  assert (Hds : 0 <= dev_stake s).
  { unfold dev_stake. cbv zeta. apply Z.div_pos; [|done]. apply Z.mul_nonneg_nonneg; [|lia].
    rewrite <- (inv_total _ Hi). unfold nonneg_or_zero. repeat case_match; lia. }
  destruct (Z.ltb_spec 0 T); [|lia]. destruct (Z.ltb_spec (dev_stake s) T) as [Hlt|Hge]; simpl in Hrun.
  - erewrite attempt_run_ok by exact Hrun. eexists. split; [reflexivity|].
    set (q := dec_quo _ _). pose proof (dec_quo_nearest (dec_of_int (T - dev_stake s)) (dec_of_int T)) as Hq.
    destruct (ratio_rounding precision T (dev_stake s) q) as [Hq1 Hq2]; [done|lia|apply Hq; unfold dec_of_int, precision; lia|].
    destruct (product_rounding precision T (dev_stake s) q _ _ ltac:(done) Hpos Hq1 Hrate Hq2
      (dec_mul_nearest (Inflation_rate minter) q)). split_and!; [lia|lia|done|lia].
  - erewrite attempt_run_err by exact Hrun. eexists. split; [reflexivity|]. split_and!; lia.
Qed.
End mint.

(** * Witness *)

(** 200 tokens are locked, 1000 are bonded, and the minter runs at 13 percent. *)
#[local] Instance mint_demo_keeper : MintKeeper unit := {|
  TotalBondedTokens _ := inl 1000;
  Minter_Get _ := inl (mkMinter InitialInflation 0);
  Minter_Set _ := ret tt;
  MintParams_Set _ := ret tt;
  DefaultInitialMinter := mkMinter InitialInflation 0;
  DefaultMintParams := mkMintParams "stake" 0 0 0 (67 * 10 ^ 16) 1;
|}.

Definition mint_demo_addr : bytes := replicate 20 "a"%char.
Definition mint_demo : TierState unit :=
  mkTierState (Some DefaultParams)
    {[LockupKey mint_demo_addr mint_demo_addr := mkLockup mint_demo_addr mint_demo_addr 200]} ∅ ∅
    (Some 200) None ∅ ∅ ∅ tt.

Lemma mint_demo_inv : tier_inv mint_demo.
Proof.
  split; simpl; try (intros ? ? Hx; by rewrite lookup_empty in Hx).
  - intros k l [<- <-]%lookup_singleton_Some. split; [by split_and!|done].
  - unfold lockup_sum, map_sum. by rewrite map_to_list_singleton.
Qed.

Lemma inflation_bounded_witness :
  exists r, Inflation mint_demo = (Ok r, mint_demo) /\ 0 <= r <= InitialInflation.
Proof.
  destruct (inflation_bounded mint_demo 1000 (mkMinter InitialInflation 0) mint_demo_inv
    ltac:(vm_compute; discriminate) ltac:(vm_compute; discriminate) ltac:(vm_compute; discriminate)
    eq_refl eq_refl ltac:(split; vm_compute; discriminate) ltac:(reflexivity)) as (r & Hr & Hb & _).
  exists r. exact (conj Hr Hb).
Defined.
